(* ===== verification/_CoqProject ===== *)
-Q . S2P
Prelude.v
GoStrings.v
Stateful.v
AccessModel.v
PolicyEngine.v
NamespaceSelector.v
ScopeHelpers.v
PlatformScope.v
ScopeFilter.v
PermissionTables.v
PermissionResolver.v
AccessService.v
WorkflowModel.v
WorkflowState.v
WorkflowValidation.v
WorkflowTemplate.v
WorkflowWorkers.v
WorkflowEngine.v
WorkflowProgress.v
WorkflowNode.v
AgentHarness.v
GoLib.v
NetIP.v
NetworkModel.v
NetworkPolicy.v
NasAdmission.v
NetworkAddress.v
AccessGrant.v
GatewayModel.v
GatewayPolicy.v
GatewayQuorum.v
GatewayInvoke.v
GatewayApproval.v
GatewayHold.v
GoCrypto.v
GoSha256.v
Totp.v
SecretCrypto.v
Sql.v
MfaStore.v
Mfa.v
StepUpGrant.v
PortalPolicy.v
OidcStore.v
OidcProvider.v
OidcFlow.v
ProxyAuth.v
