(* ===== verification/Prelude.v ===== *)
(** * Soha: a verified model of the control plane's decision logic

    Soha ([src/], a Go program) is a control plane for clusters, deliveries,
    networks and agents.  This development models the parts that decide: who may
    do what, which tool an AI client may call and who must approve it, which
    workflow node runs when, which network session keeps which profile, when a
    login session counts as stepped up, which application gets tokens for a
    user, when an agent run must stop.  Storage, HTTP, clusters and other
    external systems stay behind interfaces.  Unless a path is given in full,
    paths below are relative to [src/internal/].

    ** How the parts interact

    A request reaches the access service, which resolves permission keys, runs
    the policy engine and restricts the decision by scope grants; list handlers
    then apply the resource scope of the decision.  The catalog validates a
    workflow template before it is stored; the engine parses it, runs rounds of
    ready nodes through a pool of workers, and each node through the dispatcher
    with its retry policy.  Network grants compose the permission resolver with
    the network policies and the address checks; sessions at network access
    servers are revalidated against the same policies.  A tool call enters the
    AI gateway, which composes the permission resolver with grants, access
    policies, scopes of the owning domain and skill bindings; a call that must
    wait becomes an approval request, and the vote that completes its quorum
    replays the call against the rules in force then.  Network grants, and the
    revocation of credentials, ask the multi-factor service for a recent
    step-up of the session; it keeps its secrets encrypted under a keyring.
    Other applications sign users in through the OpenID Connect provider, which
    asks the access policy of the application, stores codes, sessions and
    refresh tokens, and signs its tokens with keys kept under the same keyring.

    ** Files

    - Foundations.  [Prelude]: errors, results, 64-bit integers, ranges over
      maps, tactics and list lemmas.  [GoStrings], [GoLib], [NetIP]: what the
      code uses of Go's [strings], [unicode/utf8], [sort] and [net/netip];
      [GoCrypto]: [encoding/base32], [encoding/base64], [crypto/sha1],
      [crypto/hmac]; [GoSha256]: [crypto/sha256], [strings.Fields];
      [Stateful]: services as steps over a store; [Sql]: statements and
      transactions over tables that are finite maps.
    - Access.  [AccessModel] (domain/access/models.go, domain/scopegrant,
      domain/identity), [PolicyEngine] (policy/engine.go, [Engine.Evaluate]),
      [NamespaceSelector] (domain/access/namespace_selector.go), [ScopeHelpers]
      and [PlatformScope] (application/access/platform_scope.go,
      [evaluatePlatformScopeGrants]), [ScopeFilter]
      (application/resource/common.go), [PermissionTables] and
      [PermissionResolver] (application/access/permissions.go,
      permission_resolver.go, permission_catalog.go), [AccessService]
      (application/access/service.go, execution_ceiling.go, read_snapshot.go).
    - Workflows (application/workflow).  [WorkflowModel] (dynamic values,
      parsing, run records), [WorkflowState] (dag_state.go),
      [WorkflowValidation] (dag_validation.go), [WorkflowTemplate]
      (application/catalog/service.go), [WorkflowWorkers] (dag_executor.go, the
      goroutines of a round as a step relation), [WorkflowEngine]
      (dag_run_executor.go, the loop of a run), [WorkflowProgress] (what the
      catalog's checks buy the engine), [WorkflowNode] (dag_node_policy.go,
      dag_node_registry.go, dag_node_dispatcher.go, dag_artifact.go,
      dag_resolution.go).
    - Agents.  [AgentHarness] (application/agentharness/state_machine.go).
    - Networks (application/networkaccess, domain/networkaccess).
      [NetworkModel] (data), [NetworkPolicy] (policy.go, device_governance.go,
      snapshot.go), [NasAdmission] (nas_admission.go, endpoint_response.go),
      [NetworkAddress] (resource.go, conflicts.go, validation.go,
      platform/netguard/netguard.go), [AccessGrant] (access_grant.go).

    - AI gateway (application/aigateway).  [GatewayModel] (domain/aigateway and
      the reading of dynamic values), [GatewayPolicy] (policies.go: grants,
      policies, bindings, strategies, construction of stored items),
      [GatewayQuorum] (approval.go: routing, stages, votes, quorum),
      [GatewayInvoke] (tools.go [invokeTool], capability_scopes.go,
      capability_contract.go, workbench_authorization.go), [GatewayApproval]
      (approval.go and repository/aigateway/repository.go: the store, decisions,
      replay; the phases of concurrent decisions, replays of approved rows by
      tasks (capability_runtime.go), the call of a provider apart from the
      record of its outcome, and losses between them, as the step relation
      [approval_step]), [GatewayHold] (approval.go: held calls, the person on
      call, traces).

    - Identity.  [Totp] (application/mfa/totp.go and the recovery codes),
      [SecretCrypto] (platform/keyring, platform/secretcrypto), [MfaStore]
      (repository/identitymfa/repository.go over the tables of migrations 0032
      and 0033; interleaved transactions as the relation [store_steps]), [Mfa]
      (application/mfa/service.go), [StepUpGrant] (the network grants with the
      multi-factor service as their verifier).
    - Sign-on for applications.  [PortalPolicy] (domain/providerportal/models.go:
      who may open an application), [OidcStore]
      (repository/identityprovider/repository.go over the tables of migrations
      0008, 0028, 0029 and 0052; interleaved transactions, and what the rest of
      the program does to the same tables, as the relation [oidc_steps]),
      [OidcProvider] (application/identityprovider/service.go and
      oidc_client_secret.go: the endpoints and the administration of clients),
      [OidcFlow] (the theorems on whole flows, and their samples), [ProxyAuth]
      (proxy authentication of the same service, and the headers that
      api/handlers/providerportal/handler.go sends to an upstream).

    A Go struct is a Record whose fields carry the type's name as a prefix; a
    fallible function returns [result] (or a sum, or an [option] of an error);
    a method that changes its receiver returns the new one; [int] and [int64]
    are integers with [wrap64] wherever the code adds or multiplies without a
    check; [map[string]any] is [go_map], a finite map of dynamic values.

    ** Interfaces

    Type classes hold what a component takes from outside, with the laws the
    code relies on: [MapRange] (the order in which a map is ranged over is any
    permutation of its keys), [PrioritySort] and [SliceSort] (the contract of
    [sort.Slice], which is not stable), [CatalogSource] (the embedded
    permission catalog), [RevisionSource] (JSON and SHA-256), [EngineEnv] (what
    a workflow run takes from outside; [dispatcher_env] shows that the
    dispatcher meets it), [NodeWorld] and [RunWorld] (handlers, contexts,
    selectors and artifact store), [SnapshotDigest], [AdmissionDigest],
    [AccessGrantPolicyStore], [GrantSecrets] and [AccessGrantStore];
    [GatewayEnv] (repositories, registry, domains, conditions and providers of
    the gateway), [ApprovalEnv] (identities, the guard of a task), [HoldEnv]
    (the alert service), [NumberText], [TimeText] and [SensitiveText] (parsing
    of numbers and times, redaction of free text); [Cipher] (AES-GCM),
    [MfaDatabase] (the order of rows, and whether sessions.metadata is jsonb;
    migration 0001 declares json, and the theorems hold for both), [WebAuthn] and
    [MfaDeps] (the verifier, bcrypt, users); [OidcDatabase] (the order of rows),
    [OidcDeps] (URLs, regular expressions, bcrypt), [Es256] (keys and signed
    tokens), [ProxyTokens] (HS256), [ProxyDatabase], [HttpCookies] and the
    [UserRepository] of the provider.  Theorems
    hold for every instance; witnesses use the sample instances of each file.

    ** What the theorems show

    - Policies: the decision is that of the first applicable policy by priority
      and does not depend on ties or listing order; an allow is backed by an
      allow policy; cluster-wide requests respect scoped denials.
    - Scope grants: the evaluation refines a declarative specification and is
      independent of the order of grants; what a list shows is covered by a
      grant and outside denied namespaces; one finding on unrelated roles.
    - Access service: allows are backed by permission, policy, role matrix and
      scope grants together, or by the declared legacy capability of the
      permission with the same bases; decisions are coherent; a read snapshot
      decides as the live service does; an execution ceiling allows only what
      the state frozen at the start and the live service allow.
    - Workflows: accepted templates are acyclic; runs end, execute nodes at most
      once and after their predecessors, and their recorded status says what it
      means; workers commute; retries are bounded and exact; a completed node
      has its required artifacts; a fresh run of an accepted template without
      manual approvals, whose handlers end their attempts, drains.
    - Agents: identity, budget and terminal states are invariant; usage is exact
      within 64 bits; one finding on overflow.
    - Networks: decisions of published policies are exact and unambiguous;
      unmanaged devices stay confined; revalidation never widens a session;
      WireGuard targets stay within their space; conflicts and the outbound
      guard are exact on address sets; grants compose all of these.

    - AI gateway: grants and policies decide exactly as specified; a provider
      is called only after every check, at most once per call; the quorum is
      exact and each approver has one vote per stage; under any interleaving of
      decisions and replays a request moves only along its life cycle, its
      outcome is recorded at most once, and every call made for it is the frozen
      call of an approved request that is still allowed; what is recorded of
      a held call matches exactly the calls with the same scopes; five findings
      on scopes of denials, quotas, concurrent votes, registrations and the
      person on call.

    - Identity: time-based codes are accepted exactly as RFC 4226 and 6238
      compute them, and the check never panics; secrets survive a rotation of
      keys as long as their key is kept, and are refused when no key of their
      identifier is in force; each challenge is completed at most
      once, while it is open, and each recovery code used at most once, under
      every interleaving; guesses and challenges are bounded; a session is
      stepped up only by a factor of its user; findings on enrolment, replay,
      recovery challenges, concurrent guesses and the metadata column.
    - Sign-on: the decision who may open an application is exact, down to
      addresses and minutes; every request is a sequence of those transactions of
      the store that it may run, under whose interleavings a code and a refresh token are used
      at most once, a reused token ends its session, and a revocation is final;
      the exchange of a code shows everything the request and the client had to
      prove; issued tokens are read back and give what their scopes open, until
      a logout; a request passes a proxy only for a user whom the policy lets in
      or on an open path, proxy sessions survive rotated keys and end with the
      platform session, and the identity headers with their own names reach the
      upstream with the value of the user or not at all; findings on updates of
      clients, failed refreshes, max_age, dot segments, mapped, colliding and
      removed headers and the second factor.

    ** Bounds and fuel

    Recursion that is not structural carries fuel, and the theorems say that it
    is enough: [search_fuel] and [walk_fuel] (graph searches, one step per
    node), [loop_fuel] (one round per node and one more, [engine_terminates]),
    the attempts of a node (the configured maximum), eight groups of an IPv6
    address, one level of URLs in a host ([normalize_host_fuel]).  A number in a JSON column comes back as a float whose text is that
    of the integer, as it is for counts below a million.  A clock read more than once in one call is read once in the model,
    except where the code compares two readings, and in the provider, where each
    reading is a value of its own.  A transaction is one step: the statements of
    concurrent transactions do not mix.

    ** Not modelled

    Repositories and SQL other than those named above, HTTP handlers and middleware, clients of clusters,
    Docker, virtualization, build and model backends, metrics and logs: their
    behaviour is that of external systems.  Clones made for goroutines are
    identities on values.  Node handlers (but the two that consult nothing: manual
    approvals and nodes of no known type), the resolution of selectors, delivery
    batches and capability tasks, VPN selection and endpoint response, the
    relay, rate limits and redaction rules of the AI gateway, knowledge
    services, and of the identity provider the administration of providers,
    outposts, SAML and the discovery document are not
    modelled; nor are the revocations of a directory synchronization, which end
    sessions and tokens that the steps of [oidc_steps] may end as well. *)

From stdpp Require Export base tactics list gmap strings sorting fin_maps.
From Stdlib Require Export ZArith Lia.

(** ** Go errors and fallible results *)

(** The sentinel errors of [internal/platform/apperrors]; [ErrOther] is any
    error that wraps none of them (a driver or context error). *)
Inductive error_kind :=
| ErrUnauthorized
| ErrAccessDenied
| ErrMFARequired
| ErrConflict
| ErrGone
| ErrNotFound
| ErrClusterUnready
| ErrServiceUnavailable
| ErrInvalidArgument
| ErrUnsupportedOperation
| ErrOther.

(** A Go [error]: the sentinel it wraps (what [errors.Is] can see) and its text. *)
Record error := mk_error { err_kind : error_kind; err_text : string }.

(** The Go result convention [(value, error)] with exactly one of them in use. *)
Inductive result (A : Type) : Type :=
| Ok (a : A)
| Err (e : error).
Arguments Ok {A} a.
Arguments Err {A} e.

#[export] Instance error_kind_eq_dec : EqDecision error_kind.
Proof. solve_decision. Defined.
#[export] Instance error_eq_dec : EqDecision error.
Proof. solve_decision. Defined.

(** The text of a sentinel. *)
Definition sentinel_text (k : error_kind) : string :=
  match k with
  | ErrUnauthorized => "unauthorized"
  | ErrAccessDenied => "access denied"
  | ErrMFARequired => "mfa required"
  | ErrConflict => "conflict"
  | ErrGone => "gone"
  | ErrNotFound => "not found"
  | ErrClusterUnready => "cluster unavailable"
  | ErrServiceUnavailable => "service unavailable"
  | ErrInvalidArgument => "invalid argument"
  | ErrUnsupportedOperation => "unsupported operation"
  | ErrOther => ""
  end.

(** A sentinel on its own, [fmt.Errorf("%w: ...", sentinel)] and
    [fmt.Errorf("...: %w", err)]. *)
Definition sentinel (k : error_kind) : error := mk_error k (sentinel_text k).
Definition errorf (k : error_kind) (text : string) : error :=
  mk_error k (sentinel_text k +:+ ": " +:+ text).
Definition wrapf (text : string) (e : error) : error :=
  mk_error (err_kind e) (text +:+ ": " +:+ err_text e).

(** The conversion of the error of a result. *)
Definition map_err {A} (f : error -> error) (m : result A) : result A :=
  match m with Ok a => Ok a | Err e => Err (f e) end.

Definition result_bind {A B} (m : result A) (k : A -> result B) : result B :=
  match m with Ok a => k a | Err e => Err e end.

Declare Scope go_scope.
Delimit Scope go_scope with go.
Notation "'let*' x ':=' m 'in' k" := (result_bind m (fun x => k))
  (at level 10, x pattern, m at level 100, k at level 200) : go_scope.
Open Scope go_scope.

(** ** Slices *)

(** [slices.Contains]. *)
Definition contains {A} `{EqDecision A} (l : list A) (x : A) : bool :=
  bool_decide (x ∈ l).

(** [len(l) == 0]. *)
Definition is_empty {A} (l : list A) : bool :=
  match l with [] => true | _ :: _ => false end.

(** [slices.Compact]: a run of equal elements is replaced by one of them. *)
Fixpoint compact {A} `{EqDecision A} (l : list A) : list A :=
  match l with
  | x :: (y :: _) as r => if bool_decide (x = y) then compact r else x :: compact r
  | _ => l
  end.

(** The first element a boolean test accepts: a [for] loop with an early
    [return] or [break]. *)
Fixpoint find_first {A} (f : A -> bool) (l : list A) : option A :=
  match l with
  | [] => None
  | x :: r => if f x then Some x else find_first f r
  end.

(** A value read from a map, or the zero value of its type. *)
Definition lookup_default {V} (d : V) (m : gmap string V) (k : string) : V :=
  default d (m !! k).

(** ** Machine integers *)

(** The wrap-around of [int] and [int64]. *)
Definition wrap64 (z : Z) : Z := ((z + 2 ^ 63) mod 2 ^ 64 - 2 ^ 63)%Z.

Definition int64_range (z : Z) : Prop := (- 2 ^ 63 <= z < 2 ^ 63)%Z.

Lemma wrap64_range z : int64_range (wrap64 z).
Proof. unfold int64_range, wrap64. pose proof (Z.mod_pos_bound (z + 2 ^ 63) (2 ^ 64)). lia. Qed.

Lemma wrap64_id z : int64_range z -> wrap64 z = z.
Proof. unfold int64_range, wrap64. intros Hz. rewrite Z.mod_small; lia. Qed.

(** ** Ranges over maps *)

(** The keys of a map or set, in the order one [range] loop visits them. *)
Class MapRange := {
  range_keys : gset string -> list string;
  range_keys_perm : forall s, range_keys s ≡ₚ elements s
}.

#[export] Instance elements_map_range : MapRange :=
  {| range_keys := elements; range_keys_perm := fun s => reflexivity (elements s) |}.

(** ** Proof automation *)

Create HintDb soha.
Create Rewrite HintDb soha.

(** Case analysis on the boolean guards of a translated body. *)
Ltac case_guards :=
  repeat match goal with
  | H : context [if ?b then _ else _] |- _ => destruct b eqn:?; simplify_eq/=
  | |- context [if ?b then _ else _] => destruct b eqn:?; simplify_eq/=
  end.

(** Turn boolean connectives in the context and the goal into propositions. *)
Ltac bool_prop :=
  repeat match goal with
  | H : andb _ _ = true |- _ => apply andb_true_iff in H as [? ?]
  | H : orb _ _ = false |- _ => apply orb_false_iff in H as [? ?]
  | H : negb _ = true |- _ => apply negb_true_iff in H
  | H : negb _ = false |- _ => apply negb_false_iff in H
  | H : bool_decide _ = true |- _ => apply bool_decide_eq_true in H
  | H : bool_decide _ = false |- _ => apply bool_decide_eq_false in H
  | |- bool_decide _ = true => apply bool_decide_eq_true
  | |- bool_decide _ = false => apply bool_decide_eq_false
  end.

(** ** Shared lemmas *)

Section contains.
Context {A : Type} `{EqDecision A}.
Implicit Types (l : list A) (x : A).

Lemma contains_true l x : contains l x = true <-> x ∈ l.
Proof. apply bool_decide_eq_true. Qed.

Lemma contains_false l x : contains l x = false <-> x ∉ l.
Proof. apply bool_decide_eq_false. Qed.

Lemma contains_ext l1 l2 x : (x ∈ l1 <-> x ∈ l2) -> contains l1 x = contains l2 x.
Proof. intros. by apply bool_decide_ext. Qed.

End contains.

Lemma is_empty_true {A} (l : list A) : is_empty l = true <-> l = [].
Proof. by destruct l. Qed.

Lemma is_empty_false {A} (l : list A) : is_empty l = false <-> l <> [].
Proof. by destruct l. Qed.

Section compact.
Context {A : Type} `{EqDecision A}.
Implicit Types (l : list A) (x : A).

Lemma compact_cons x y l :
  compact (x :: y :: l) =
    if bool_decide (x = y) then compact (y :: l) else x :: compact (y :: l).
Proof. done. Qed.

Lemma elem_of_compact l x : x ∈ compact l <-> x ∈ l.
Proof.
  induction l as [|y [|z l] IH]; [done..|].
  rewrite compact_cons. case_bool_decide as Hyz.
  - subst y. rewrite IH, !elem_of_cons. tauto.
  - rewrite elem_of_cons, IH, !elem_of_cons. tauto.
Qed.

Lemma Sorted_compact (R : relation A) `{!Transitive R} l :
  StronglySorted R l -> StronglySorted R (compact l).
Proof.
  induction 1 as [|y l Hs IH Hy]; [constructor|].
  destruct l as [|z l]; [by repeat constructor|]. rewrite compact_cons.
  case_bool_decide; [done|]. constructor; [done|].
  rewrite Forall_forall in Hy |- *. intros w Hw. apply Hy, elem_of_compact, Hw.
Qed.

Lemma NoDup_compact (R : relation A) `{!Transitive R, !AntiSymm (=) R} l :
  StronglySorted R l -> NoDup (compact l).
Proof.
  induction 1 as [|y l Hs IH Hy]; [constructor|].
  destruct l as [|z l]; [by apply NoDup_singleton|]. rewrite compact_cons.
  case_bool_decide as Hyz; [done|]. constructor; [|done].
  rewrite elem_of_compact, elem_of_cons. intros [->|Hin]; [done|].
  apply Forall_cons in Hy as [Hyz' Hyl].
  apply StronglySorted_inv in Hs as [_ Hz]. rewrite Forall_forall in Hz.
  apply Hyz, (anti_symm R); [done|]. by apply Hz.
Qed.

End compact.

Section find_first.
Context {A : Type} (f : A -> bool).

Lemma find_first_Some l x : find_first f l = Some x -> x ∈ l /\ f x = true.
Proof. induction l as [|y l IH]; simpl; [done|]. case_guards; set_solver. Qed.

Lemma find_first_None l : find_first f l = None <-> forall x, x ∈ l -> f x = false.
Proof.
  induction l as [|y l IH]; simpl; [set_solver|].
  destruct (f y) eqn:E; [split; [done|]; intros H; by rewrite H in E by set_solver|].
  rewrite IH. set_solver.
Qed.

End find_first.

(** [existsb] and [forallb] over stdpp membership. *)
Lemma existsb_elem_of {A} (f : A -> bool) l :
  existsb f l = true <-> exists x, x ∈ l /\ f x = true.
Proof. rewrite existsb_exists. by setoid_rewrite list_elem_of_In. Qed.

Lemma forallb_elem_of {A} (f : A -> bool) l :
  forallb f l = true <-> forall x, x ∈ l -> f x = true.
Proof. rewrite forallb_forall. by setoid_rewrite list_elem_of_In. Qed.

Lemma existsb_Permutation {A} (f : A -> bool) l1 l2 :
  l1 ≡ₚ l2 -> existsb f l1 = existsb f l2.
Proof.
  intros Hp. apply eq_true_iff_eq. rewrite !existsb_elem_of.
  by setoid_rewrite Hp.
Qed.
