(* ===== verification/GoStrings.v ===== *)
(** * Go strings

    Go strings are byte strings; they are Rocq [string]s (lists of 8-bit
    [ascii]).  This file holds the functions of the packages [strings],
    [slices] and [strconv] that the modelled code calls.

    White space is Unicode white space in its UTF-8 encoding, as in
    [strings.TrimSpace].  Case mapping covers the ASCII letters and the
    non-ASCII characters whose lower case or case folding is an ASCII letter,
    which makes the comparisons with ASCII constants exact; the other
    non-ASCII letters are left as they are. *)

From Stdlib Require Import Ascii.
From S2P Require Import Prelude.


(** ** White space *)

(** The ASCII white space of [unicode.IsSpace]. *)
Definition space1 (c : ascii) : bool :=
  existsb (Ascii.eqb c) ["009"; "010"; "011"; "012"; "013"; " "]%char.

(** U+0085 and U+00A0. *)
Definition space2 (c d : ascii) : bool :=
  Ascii.eqb c "194" && (Ascii.eqb d "133" || Ascii.eqb d "160").

(** U+1680, U+2000 to U+200A, U+2028, U+2029, U+202F, U+205F and U+3000. *)
Definition space3 (c d e : ascii) : bool :=
  let n := nat_of_ascii e in
  (Ascii.eqb c "225" && Ascii.eqb d "154" && Ascii.eqb e "128") ||
  (Ascii.eqb c "226" && Ascii.eqb d "128" &&
     ((128 <=? n)%nat && (n <=? 138)%nat || (n =? 168)%nat || (n =? 169)%nat || (n =? 175)%nat)) ||
  (Ascii.eqb c "226" && Ascii.eqb d "129" && (n =? 159)%nat) ||
  (Ascii.eqb c "227" && Ascii.eqb d "128" && Ascii.eqb e "128").

(** Drop the leading spaces, given the tests for two- and three-byte spaces. *)
Fixpoint drop_spaces (sp2 : ascii -> ascii -> bool) (sp3 : ascii -> ascii -> ascii -> bool)
    (s : string) : string :=
  match s with
  | "" => ""
  | String c r =>
      if space1 c then drop_spaces sp2 sp3 r else
      match r with
      | "" => s
      | String d r1 =>
          if sp2 c d then drop_spaces sp2 sp3 r1 else
          match r1 with
          | "" => s
          | String e r2 => if sp3 c d e then drop_spaces sp2 sp3 r2 else s
          end
      end
  end.

Definition trim_left (s : string) : string := drop_spaces space2 space3 s.

Definition trim_right (s : string) : string :=
  String.rev (drop_spaces (fun d c => space2 c d) (fun e d c => space3 c d e) (String.rev s)).

(** [strings.TrimSpace]. *)
Definition TrimSpace (s : string) : string := trim_right (trim_left s).

(** [s == ""]. *)
Definition str_empty (s : string) : bool := String.eqb s "".

(** [strings.TrimSpace(s) == ""]. *)
Definition blank (s : string) : bool := str_empty (TrimSpace s).

(** ** Case *)

Definition lower_ascii (c : ascii) : ascii :=
  let n := nat_of_ascii c in
  if (65 <=? n)%nat && (n <=? 90)%nat then ascii_of_nat (n + 32) else c.

(** [strings.ToLower]; U+0130 and U+212A have the ASCII lower cases i and k. *)
Fixpoint ToLower (s : string) : string :=
  match s with
  | "" => ""
  | String c r =>
      match r with
      | String d r1 =>
          if Ascii.eqb c "196" && Ascii.eqb d "176" then String "i" (ToLower r1) else
          match r1 with
          | String e r2 =>
              if Ascii.eqb c "226" && Ascii.eqb d "132" && Ascii.eqb e "170"
              then String "k" (ToLower r2)
              else String (lower_ascii c) (ToLower r)
          | "" => String (lower_ascii c) (ToLower r)
          end
      | "" => String (lower_ascii c) ""
      end
  end.

(** The representative of a string under simple case folding; U+017F and
    U+212A fold to the ASCII letters s and k. *)
Fixpoint fold_case (s : string) : string :=
  match s with
  | "" => ""
  | String c r =>
      match r with
      | String d r1 =>
          if Ascii.eqb c "197" && Ascii.eqb d "191" then String "s" (fold_case r1) else
          match r1 with
          | String e r2 =>
              if Ascii.eqb c "226" && Ascii.eqb d "132" && Ascii.eqb e "170"
              then String "k" (fold_case r2)
              else String (lower_ascii c) (fold_case r)
          | "" => String (lower_ascii c) (fold_case r)
          end
      | "" => String (lower_ascii c) ""
      end
  end.

(** [strings.EqualFold]. *)
Definition EqualFold (s t : string) : bool := String.eqb (fold_case s) (fold_case t).

(** ** Searching and splitting *)

(** [strings.HasPrefix(s, p)] with the rest of the string. *)
Fixpoint strip_prefix (p s : string) : option string :=
  match p, s with
  | "", _ => Some s
  | String a p', String b s' => if Ascii.eqb a b then strip_prefix p' s' else None
  | String _ _, "" => None
  end.

Definition HasPrefix (s p : string) : bool :=
  match strip_prefix p s with Some _ => true | None => false end.

(** [strings.TrimPrefix]. *)
Definition TrimPrefix (s p : string) : string :=
  match strip_prefix p s with Some r => r | None => s end.

(** [strings.HasSuffix]. *)
Definition HasSuffix (s p : string) : bool := HasPrefix (String.rev s) (String.rev p).

(** [strings.TrimSuffix]. *)
Definition TrimSuffix (s p : string) : string :=
  match strip_prefix (String.rev p) (String.rev s) with
  | Some r => String.rev r
  | None => s
  end.

(** [strings.Cut] for a non-empty separator: before and after its first
    occurrence. *)
Fixpoint Cut (s sep : string) : option (string * string) :=
  match strip_prefix sep s with
  | Some r => Some ("", r)
  | None =>
      match s with
      | "" => None
      | String c s' =>
          match Cut s' sep with
          | Some (before, after) => Some (String c before, after)
          | None => None
          end
      end
  end.

(** [strings.Contains] for a non-empty needle. *)
Definition str_contains (s sub : string) : bool :=
  match Cut s sub with Some _ => true | None => false end.

(** [strings.ContainsAny] for a set of ASCII characters. *)
Fixpoint ContainsAny (s : string) (chars : list ascii) : bool :=
  match s with
  | "" => false
  | String c r => existsb (Ascii.eqb c) chars || ContainsAny r chars
  end.

(** [strings.Split] for a one-byte separator. *)
Fixpoint split_byte (sep : ascii) (s : string) : list string :=
  match s with
  | "" => [""]
  | String c r =>
      if Ascii.eqb c sep then "" :: split_byte sep r
      else match split_byte sep r with
           | w :: ws => String c w :: ws
           | [] => [String c ""]
           end
  end.

(** [strings.Join]. *)
Fixpoint Join (l : list string) (sep : string) : string :=
  match l with
  | [] => ""
  | [x] => x
  | x :: r => x +:+ sep +:+ Join r sep
  end.

(** The verb [%q] on a text without special characters. *)
Definition quoted (text : string) : string := String "034" (text +:+ String "034" "").

(** Drop the leading characters of a set. *)
Fixpoint drop_chars (cutset : list ascii) (s : string) : string :=
  match s with
  | "" => ""
  | String c r => if existsb (Ascii.eqb c) cutset then drop_chars cutset r else s
  end.

(** [strings.Trim] for a set of ASCII characters. *)
Definition Trim (s : string) (cutset : list ascii) : string :=
  String.rev (drop_chars cutset (String.rev (drop_chars cutset s))).

(** [slices.Sort] on strings: the byte-wise lexicographic order is total, so
    the sorted list is unique. *)
Definition sort_strings (l : list string) : list string := merge_sort String.le l.

(** ** Lemmas *)

(** The characters of a string. *)
Fixpoint chars (s : string) : list ascii :=
  match s with "" => [] | String c r => c :: chars r end.

(** Printable ASCII other than the space. *)
Definition solid (c : ascii) : bool :=
  let n := nat_of_ascii c in (33 <=? n)%nat && (n <=? 126)%nat.

Definition all_solid (s : string) : Prop := forall c, c ∈ chars s -> solid c = true.

Lemma chars_app s t : chars (s +:+ t) = chars s ++ chars t.
Proof. induction s as [|c s IH]; simpl; [done|]. f_equal. exact IH. Qed.

Lemma chars_rev_app s t : chars (String.rev_app s t) = reverse (chars s) ++ chars t.
Proof.
  revert t. induction s as [|c s IH]; intros t; simpl; [done|].
  by rewrite IH, reverse_cons, <-(assoc_L (++)).
Qed.

Lemma chars_rev s : chars (String.rev s) = reverse (chars s).
Proof. unfold String.rev. rewrite chars_rev_app. apply app_nil_r. Qed.

Lemma chars_inj s t : chars s = chars t -> s = t.
Proof. revert t. induction s; intros [|]; naive_solver. Qed.

Lemma rev_involutive s : String.rev (String.rev s) = s.
Proof. apply chars_inj. by rewrite !chars_rev, reverse_involutive. Qed.

Lemma solid_space1 c : solid c = true -> space1 c = false.
Proof. destruct c as [[] [] [] [] [] [] [] []]; by vm_compute. Qed.

Lemma solid_space2 c d : solid c = true \/ solid d = true -> space2 c d = false.
Proof.
  unfold space2. intros [Hs|Hs].
  - destruct (Ascii.eqb_spec c "194") as [->|]; [by vm_compute in Hs|done].
  - destruct (Ascii.eqb_spec d "133") as [->|]; [by vm_compute in Hs|].
    destruct (Ascii.eqb_spec d "160") as [->|]; [by vm_compute in Hs|]. by rewrite andb_false_r.
Qed.

Lemma solid_space3 c d e : solid c = true \/ solid e = true -> space3 c d e = false.
Proof.
  unfold space3, solid. intros [Hs|Hs].
  - destruct (Ascii.eqb_spec c "225") as [->|]; [by vm_compute in Hs|].
    destruct (Ascii.eqb_spec c "226") as [->|]; [by vm_compute in Hs|].
    destruct (Ascii.eqb_spec c "227") as [->|]; [by vm_compute in Hs|done].
  - destruct (Ascii.eqb_spec e "128") as [->|]; [by vm_compute in Hs|].
    apply andb_true_iff in Hs as [_ ?%Nat.leb_le].
    rewrite !andb_false_r, orb_false_r, orb_false_l.
    assert ((128 <=? nat_of_ascii e)%nat = false) as -> by (apply Nat.leb_gt; lia).
    assert ((nat_of_ascii e =? 168)%nat = false) as -> by (apply Nat.eqb_neq; lia).
    assert ((nat_of_ascii e =? 169)%nat = false) as -> by (apply Nat.eqb_neq; lia).
    assert ((nat_of_ascii e =? 175)%nat = false) as -> by (apply Nat.eqb_neq; lia).
    assert ((nat_of_ascii e =? 159)%nat = false) as -> by (apply Nat.eqb_neq; lia).
    by rewrite !andb_false_r.
Qed.

(** Nothing is trimmed from a string that starts with a solid character. *)
Lemma drop_spaces_solid sp2 sp3 c r :
  (forall d, sp2 c d = false) -> (forall d e, sp3 c d e = false) ->
  solid c = true -> drop_spaces sp2 sp3 (String c r) = String c r.
Proof.
  intros H2 H3 Hs. cbn [drop_spaces]. rewrite solid_space1 by done.
  destruct r as [|d [|e r]]; [done|by rewrite H2|by rewrite H2, H3].
Qed.

Lemma TrimSpace_solid s : all_solid s -> TrimSpace s = s.
Proof.
  intros Hs. unfold TrimSpace.
  assert (trim_left s = s) as ->.
  { unfold trim_left. destruct s as [|c r]; [done|].
    assert (solid c = true) by (apply Hs; simpl; left).
    apply drop_spaces_solid; auto using solid_space2, solid_space3. }
  unfold trim_right. destruct (String.rev s) as [|c r] eqn:Hr.
  - simpl. by rewrite <-(rev_involutive s), Hr.
  - rewrite drop_spaces_solid; [by rewrite <-Hr, rev_involutive|..].
    all: assert (solid c = true) by
      (apply Hs, elem_of_reverse; rewrite <-chars_rev, Hr; simpl; left).
    all: auto using solid_space2, solid_space3.
Qed.

(** A separator that starts with a character absent from a prefix is not found
    in the prefix. *)
Lemma Cut_app k s a sep :
  a ∉ chars k ->
  Cut (k +:+ s) (String a sep) =
    match Cut s (String a sep) with
    | Some (before, after) => Some (k +:+ before, after)
    | None => None
    end.
Proof.
  intros Ha. induction k as [|c k IH].
  { change ("" +:+ s) with s. by destruct (Cut s _) as [[]|]. }
  simpl in Ha. apply not_elem_of_cons in Ha as [Hca Hk].
  change (String c k +:+ s) with (String c (k +:+ s)). cbn [Cut strip_prefix].
  destruct (Ascii.eqb_spec a c); [done|].
  rewrite IH by done. by destruct (Cut s _) as [[]|].
Qed.

Lemma Cut_None s a sep : a ∉ chars s -> Cut s (String a sep) = None.
Proof.
  intros Ha. induction s as [|c s IH]; simpl; [done|].
  simpl in Ha. apply not_elem_of_cons in Ha as [Hca Hk].
  destruct (Ascii.eqb_spec a c); [done|]. by rewrite IH.
Qed.

Lemma split_byte_app sep w s :
  sep ∉ chars w -> split_byte sep (w +:+ String sep s) = w :: split_byte sep s.
Proof.
  intros Hw. induction w as [|c w IH].
  { change ("" +:+ ?t) with t. cbn [split_byte]. by rewrite Ascii.eqb_refl. }
  simpl in Hw. apply not_elem_of_cons in Hw as [Hc Hw].
  change (String c w +:+ ?t) with (String c (w +:+ t)). cbn [split_byte].
  destruct (Ascii.eqb_spec c sep); [done|]. by rewrite IH.
Qed.

Lemma split_byte_none sep w : sep ∉ chars w -> split_byte sep w = [w].
Proof.
  intros Hw. induction w as [|c w IH]; simpl; [done|].
  simpl in Hw. apply not_elem_of_cons in Hw as [Hc Hw].
  destruct (Ascii.eqb_spec c sep); [done|]. by rewrite IH.
Qed.

Lemma split_Join sep l :
  l <> [] -> (forall w, w ∈ l -> sep ∉ chars w) ->
  split_byte sep (Join l (String sep "")) = l.
Proof.
  intros Hne Hl. induction l as [|w l IH]; [done|]. destruct l as [|v l].
  { apply split_byte_none, Hl. set_solver. }
  cbn [Join]. change (String sep "" +:+ ?t) with (String sep t).
  rewrite split_byte_app by (apply Hl; set_solver). f_equal. apply IH; set_solver.
Qed.

(** Sorting. *)
Lemma elem_of_sort_strings l x : x ∈ sort_strings l <-> x ∈ l.
Proof. unfold sort_strings. by rewrite merge_sort_Permutation. Qed.

Lemma sort_strings_sorted l : StronglySorted String.le (sort_strings l).
Proof. apply StronglySorted_merge_sort; apply _. Qed.

(** Sorted and duplicate-free lists are determined by their elements. *)
Lemma sorted_strings_ext l1 l2 :
  StronglySorted String.le l1 -> StronglySorted String.le l2 ->
  NoDup l1 -> NoDup l2 -> (forall x, x ∈ l1 <-> x ∈ l2) -> l1 = l2.
Proof.
  intros Hs1 Hs2 Hn1 Hn2 Hx. apply (StronglySorted_unique String.le); [done..|].
  by apply NoDup_Permutation.
Qed.

(** Trimming is idempotent. *)

(** The string does not start with a space. *)
Definition left_trimmed (sp2 : ascii -> ascii -> bool) (sp3 : ascii -> ascii -> ascii -> bool)
    (s : string) : Prop :=
  drop_spaces sp2 sp3 s = s.

(** One round of the loop: nothing is left to drop, or a space is dropped. *)
Lemma drop_spaces_step sp2 sp3 s :
  drop_spaces sp2 sp3 s = s \/
  exists p r, String.length r < String.length s /\ s = p +:+ r /\
    drop_spaces sp2 sp3 s = drop_spaces sp2 sp3 r.
Proof.
  destruct s as [|c r]; [by left|].
  destruct (space1 c) eqn:E1.
  { right. exists (String c ""), r. split_and!; [simpl; lia|done|]. simpl. by rewrite E1. }
  destruct r as [|d r]; [left; simpl; by rewrite E1|].
  destruct (sp2 c d) eqn:E2.
  { right. exists (String c (String d "")), r. split_and!; [simpl; lia|done|].
    cbn [drop_spaces]. by rewrite E1, E2. }
  destruct r as [|e r]; [left; cbn [drop_spaces]; by rewrite E1, E2|].
  destruct (sp3 c d e) eqn:E3.
  - right. exists (String c (String d (String e ""))), r. split_and!; [simpl; lia|done|].
    cbn [drop_spaces]. by rewrite E1, E2, E3.
  - left. cbn [drop_spaces]. by rewrite E1, E2, E3.
Qed.

Ltac drop_spaces_induction s IH :=
  induction s as [s IH] using (induction_ltof1 _ String.length); unfold ltof in IH.

Lemma length_drop_spaces sp2 sp3 s :
  String.length (drop_spaces sp2 sp3 s) <= String.length s.
Proof.
  drop_spaces_induction s IH.
  destruct (drop_spaces_step sp2 sp3 s) as [->|(p & r & Hr & -> & ->)]; [done|].
  pose proof (IH r Hr). lia.
Qed.

Lemma drop_spaces_idem sp2 sp3 s : left_trimmed sp2 sp3 (drop_spaces sp2 sp3 s).
Proof.
  unfold left_trimmed. drop_spaces_induction s IH.
  destruct (drop_spaces_step sp2 sp3 s) as [E|(p & r & Hr & -> & E)]; rewrite E; [done|].
  by apply IH.
Qed.

(** The first characters decide, so a prefix of a trimmed string is trimmed. *)
Lemma left_trimmed_prefix sp2 sp3 p s :
  left_trimmed sp2 sp3 (p +:+ s) -> left_trimmed sp2 sp3 p.
Proof.
  unfold left_trimmed. destruct p as [|c p]; [done|].
  change (String c p +:+ s) with (String c (p +:+ s)). cbn [drop_spaces].
  destruct (space1 c).
  { intros Hs. pose proof (length_drop_spaces sp2 sp3 (p +:+ s)). rewrite Hs in *. simpl in *. lia. }
  destruct p as [|d p]; [done|].
  change (String d p +:+ s) with (String d (p +:+ s)). cbn beta iota.
  destruct (sp2 c d).
  { intros Hs. pose proof (length_drop_spaces sp2 sp3 (p +:+ s)). rewrite Hs in *. simpl in *. lia. }
  destruct p as [|e p]; [done|].
  change (String e p +:+ s) with (String e (p +:+ s)). cbn beta iota.
  destruct (sp3 c d e); [|done].
  intros Hs. pose proof (length_drop_spaces sp2 sp3 (p +:+ s)). rewrite Hs in *. simpl in *. lia.
Qed.

(** What is dropped is a prefix. *)
Lemma drop_spaces_suffix sp2 sp3 s : exists p, s = p +:+ drop_spaces sp2 sp3 s.
Proof.
  drop_spaces_induction s IH.
  destruct (drop_spaces_step sp2 sp3 s) as [->|(p & r & Hr & -> & ->)]; [by exists ""|].
  destruct (IH r Hr) as [q Hq]. exists (p +:+ q).
  apply chars_inj. rewrite Hq at 1. by rewrite !chars_app, app_assoc.
Qed.

Lemma rev_app_distr s t : String.rev (s +:+ t) = String.rev t +:+ String.rev s.
Proof. apply chars_inj. by rewrite chars_rev, !chars_app, !chars_rev, reverse_app. Qed.

Lemma TrimSpace_idem s : TrimSpace (TrimSpace s) = TrimSpace s.
Proof.
  unfold TrimSpace. set (t := trim_left s).
  assert (trim_left (trim_right t) = trim_right t) as ->.
  { destruct (drop_spaces_suffix (fun d c => space2 c d) (fun e d c => space3 c d e) (String.rev t))
      as [p Hp].
    apply left_trimmed_prefix with (s := String.rev p). unfold trim_right.
    rewrite <-rev_app_distr, <-Hp, rev_involutive. apply drop_spaces_idem. }
  unfold trim_right. rewrite rev_involutive. f_equal. apply drop_spaces_idem.
Qed.

#[export] Hint Rewrite TrimSpace_idem : soha.
