(* ===== verification/Stateful.v ===== *)
(** * Operations over a shared state

    The effect of the services that read and write stores: a step gets the
    state, and gives a result, or an error, and the state after it. *)

From S2P Require Import Prelude.

(** Steps that read and change a state and may fail. *)
Definition stateful (S A : Type) : Type := S -> result A * S.

Definition gret {S A} (a : A) : stateful S A := fun w => (Ok a, w).
Definition gfail {S A} (e : error) : stateful S A := fun w => (Err e, w).
Definition gbind {S A B} (m : stateful S A) (f : A -> stateful S B) : stateful S B :=
  fun w => match m w with (Ok a, w) => f a w | (Err e, w) => (Err e, w) end.
Definition glift {S A} (r : result A) : stateful S A := fun w => (r, w).

Notation "'let!' x ':=' m 'in' k" := (gbind m (fun x => k))
  (at level 10, x name, m at level 100, k at level 200, only parsing) : go_scope.
Notation "'do!' m ; k" := (gbind m (fun _ => k)) (at level 10, m at level 100, k at level 200, only parsing) : go_scope.

Lemma gbind_Ok {S A B} (m : stateful S A) (f : A -> stateful S B) w b w' :
  gbind m f w = (Ok b, w') -> exists a w1, m w = (Ok a, w1) /\ f a w1 = (Ok b, w').
Proof. unfold gbind. destruct (m w) as [[a|e] w1]; [eauto|done]. Qed.

Lemma glift_Ok {S A} (r : result A) (w : S) a w' : glift r w = (Ok a, w') -> r = Ok a /\ w' = w.
Proof. unfold glift. by intros [= -> <-]. Qed.

Lemma gret_Ok {S A} (x : A) (w : S) a w' : gret x w = (Ok a, w') -> x = a /\ w' = w.
Proof. unfold gret. by intros [= -> <-]. Qed.

Lemma map_err_Ok {A} f (r : result A) a : map_err f r = Ok a -> r = Ok a.
Proof. by destruct r. Qed.
