(* ===== verification/AccessModel.v ===== *)
(** * Access-control data model

    The request, policy, decision and scope types of
    [internal/domain/access/models.go], the scope grants of
    [internal/domain/scopegrant/models.go], the principal of
    [internal/domain/identity/models.go] and the parts of the delivery catalog
    the access service reads.

    A Go map whose nil value the code distinguishes from an empty map is an
    [option] of a [gmap]; the other maps are a [gmap].  A slice is a [list]. *)

From S2P Require Import Prelude GoStrings.

(** ** Actions and effects: open string types with named constants *)

Abbreviation Action := string.
Abbreviation PolicyEffect := string.
Abbreviation DecisionStatus := string.

Definition ActionView : Action := "view".
Definition ActionList : Action := "list".
Definition ActionWatch : Action := "watch".
Definition ActionCreate : Action := "create".
Definition ActionUpdate : Action := "update".
Definition ActionDelete : Action := "delete".
Definition ActionRestart : Action := "restart".
Definition ActionRollback : Action := "rollback".
Definition ActionScale : Action := "scale".
Definition ActionSuspend : Action := "suspend".
Definition ActionTrigger : Action := "trigger".
Definition ActionApprove : Action := "approve".
Definition ActionLogs : Action := "logs".
Definition ActionExec : Action := "exec".
Definition ActionDrain : Action := "drain".

Definition EffectAllow : PolicyEffect := "allow".
Definition EffectDeny : PolicyEffect := "deny".

Definition DecisionAllow : DecisionStatus := "allow".
Definition DecisionDeny : DecisionStatus := "deny".
Definition DecisionApprovalRequired : DecisionStatus := "approval_required".

Definition ReasonNamespaceLabelsRequired : string := "namespace_labels_required".

(** ** Requests *)

Record SubjectAttributes := {
  Subject_UserID : string;
  Subject_Roles : list string;
  Subject_Teams : list string;
  Subject_Projects : list string;
  Subject_Tags : list string
}.

Record ClusterAttributes := {
  Cluster_ClusterID : string;
  Cluster_Region : string;
  Cluster_Environment : string;
  Cluster_Labels : gmap string string
}.

(** [Labels] is nil when the labels of the namespace are not known. *)
Record NamespaceAttributes := {
  Namespace_Namespace : string;
  Namespace_Labels : option (gmap string string);
  Namespace_OwnerTeam : string
}.

(** [Labels] is nil when the labels of the resource are not known. *)
Record ResourceAttributes := {
  Resource_Group : string;
  Resource_Kind : string;
  Resource_Name : string;
  Resource_Labels : option (gmap string string);
  Resource_Annotations : gmap string string;
  Resource_Owner : string
}.

Record DeliveryAttributes := {
  Delivery_BusinessLineID : string;
  Delivery_ApplicationGroup : string;
  Delivery_EnvironmentKey : string;
  Delivery_ApplicationID : string
}.

(** [OccurredAt] is an instant, in nanoseconds. *)
Record ContextAttributes := {
  Context_Source : string;
  Context_ApprovalState : string;
  Context_OccurredAt : Z
}.

Record Principal := {
  Principal_UserID : string;
  Principal_UserName : string;
  Principal_Email : string;
  Principal_AvatarURL : string;
  Principal_AvatarFit : string;
  Principal_Roles : list string;
  Principal_Teams : list string;
  Principal_Projects : list string;
  Principal_Tags : list string;
  Principal_PermissionKeys : list string;
  Principal_AccessTokenID : string
}.

Record Request := {
  Request_RequireUnscopedPlatform : bool;
  Request_RequireClusterWideNamespace : bool;
  Request_RequireWholeResourceCollection : bool;
  Request_FailClosedOnUnknownResourceLabels : bool;
  Request_RequireNamespaceLabels : bool;
  Request_Principal : Principal;
  Request_PermissionKey : string;
  Request_Action : Action;
  Request_Subject : SubjectAttributes;
  Request_Cluster : ClusterAttributes;
  Request_Namespace : NamespaceAttributes;
  Request_Resource : ResourceAttributes;
  Request_Delivery : DeliveryAttributes;
  Request_Context : ContextAttributes
}.

(** ** Decisions *)

Record ResourceScope := {
  Scope_Clusters : list string;
  Scope_Namespaces : list string;
  Scope_ExcludedNamespaces : list string;
  Scope_LabelSelector : string;
  Scope_NamespaceSelectors : list string;
  Scope_ExcludedNamespaceSelectors : list string;
  Scope_ResourceGroups : list string;
  Scope_ResourceKinds : list string
}.

Record Decision := {
  Decision_Allowed : bool;
  Decision_Status : DecisionStatus;
  Decision_PermissionKey : string;
  Decision_Action : Action;
  Decision_Reason : string;
  Decision_ReasonCode : string;
  Decision_PolicyVersion : string;
  Decision_AllowedActions : list Action;
  Decision_ResourceScope : option ResourceScope
}.

(** ** Policies *)

Record Matcher := {
  Matcher_Roles : list string;
  Matcher_Teams : list string;
  Matcher_Projects : list string;
  Matcher_Users : list string;
  Matcher_Tags : list string;
  Matcher_Labels : gmap string (list string)
}.

Record ClusterMatcher := {
  ClusterMatcher_IDs : list string;
  ClusterMatcher_Regions : list string;
  ClusterMatcher_Environments : list string;
  ClusterMatcher_Labels : gmap string (list string)
}.

Record NamespaceMatcher := {
  NamespaceMatcher_Names : list string;
  NamespaceMatcher_OwnerTeams : list string;
  NamespaceMatcher_Labels : gmap string (list string)
}.

Record ResourceMatcher := {
  ResourceMatcher_Kinds : list string;
  ResourceMatcher_Names : list string;
  ResourceMatcher_Labels : gmap string (list string)
}.

Record Conditions := {
  Conditions_Sources : list string;
  Conditions_ApprovalStates : list string
}.

Record Policy := {
  Policy_ID : string;
  Policy_Name : string;
  Policy_Effect : PolicyEffect;
  Policy_Priority : Z;
  Policy_Subjects : Matcher;
  Policy_Clusters : ClusterMatcher;
  Policy_Namespaces : NamespaceMatcher;
  Policy_Resources : ResourceMatcher;
  Policy_Actions : list Action;
  Policy_Conditions : Conditions;
  Policy_Reason : string
}.

(** ** Scope grants *)

Definition ScopeTypeLegacy : string := "legacy".
Definition ScopeTypeDelivery : string := "delivery".
Definition ScopeTypePlatform : string := "platform".

Record ScopeGrant := {
  Grant_ID : string;
  Grant_SubjectType : string;
  Grant_SubjectID : string;
  Grant_BusinessLineID : string;
  Grant_EnvironmentIDs : list string;
  Grant_ApplicationIDs : list string;
  Grant_ScopeType : string;
  Grant_ClusterIDs : list string;
  Grant_Namespaces : list string;
  Grant_NamespaceSelector : string;
  Grant_ResourceGroups : list string;
  Grant_ResourceKinds : list string;
  Grant_Role : string;
  Grant_Effect : string;
  Grant_Enabled : bool;
  Grant_CreatedAt : Z;
  Grant_UpdatedAt : Z
}.

(** ** Delivery catalog: the fields the access service reads *)

Record Environment := {
  Environment_ID : string;
  Environment_Key : string
}.

Record ReleaseTarget := {
  Target_ClusterID : string;
  Target_Namespace : string;
  Target_Enabled : bool
}.

Record ApplicationEnvironment := {
  Binding_ID : string;
  Binding_ApplicationID : string;
  Binding_BusinessLineID : string;
  Binding_ApplicationGroup : string;
  Binding_EnvironmentID : string;
  Binding_EnvironmentKey : string;
  Binding_Targets : list ReleaseTarget
}.

(** ** Zero values and field updates

    Go assigns to one field of a copied struct; these are the updates the
    modelled code makes. *)

Definition zero_NamespaceMatcher : NamespaceMatcher :=
  {| NamespaceMatcher_Names := []; NamespaceMatcher_OwnerTeams := [];
     NamespaceMatcher_Labels := ∅ |}.

Definition zero_Matcher : Matcher :=
  {| Matcher_Roles := []; Matcher_Teams := []; Matcher_Projects := [];
     Matcher_Users := []; Matcher_Tags := []; Matcher_Labels := ∅ |}.

Definition zero_ClusterMatcher : ClusterMatcher :=
  {| ClusterMatcher_IDs := []; ClusterMatcher_Regions := [];
     ClusterMatcher_Environments := []; ClusterMatcher_Labels := ∅ |}.

Definition zero_ResourceMatcher : ResourceMatcher :=
  {| ResourceMatcher_Kinds := []; ResourceMatcher_Names := [];
     ResourceMatcher_Labels := ∅ |}.

Definition zero_Conditions : Conditions :=
  {| Conditions_Sources := []; Conditions_ApprovalStates := [] |}.

Definition zero_ResourceScope : ResourceScope :=
  {| Scope_Clusters := []; Scope_Namespaces := []; Scope_ExcludedNamespaces := [];
     Scope_LabelSelector := ""; Scope_NamespaceSelectors := [];
     Scope_ExcludedNamespaceSelectors := []; Scope_ResourceGroups := [];
     Scope_ResourceKinds := [] |}.

Definition zero_Decision : Decision :=
  {| Decision_Allowed := false; Decision_Status := ""; Decision_PermissionKey := "";
     Decision_Action := ""; Decision_Reason := ""; Decision_ReasonCode := "";
     Decision_PolicyVersion := ""; Decision_AllowedActions := [];
     Decision_ResourceScope := None |}.

Definition set_Policy_Namespaces (n : NamespaceMatcher) (p : Policy) : Policy :=
  {| Policy_ID := Policy_ID p; Policy_Name := Policy_Name p; Policy_Effect := Policy_Effect p;
     Policy_Priority := Policy_Priority p; Policy_Subjects := Policy_Subjects p;
     Policy_Clusters := Policy_Clusters p; Policy_Namespaces := n;
     Policy_Resources := Policy_Resources p; Policy_Actions := Policy_Actions p;
     Policy_Conditions := Policy_Conditions p; Policy_Reason := Policy_Reason p |}.

Definition set_Policy_Resources (r : ResourceMatcher) (p : Policy) : Policy :=
  {| Policy_ID := Policy_ID p; Policy_Name := Policy_Name p; Policy_Effect := Policy_Effect p;
     Policy_Priority := Policy_Priority p; Policy_Subjects := Policy_Subjects p;
     Policy_Clusters := Policy_Clusters p; Policy_Namespaces := Policy_Namespaces p;
     Policy_Resources := r; Policy_Actions := Policy_Actions p;
     Policy_Conditions := Policy_Conditions p; Policy_Reason := Policy_Reason p |}.

Definition set_Decision_Allowed (b : bool) (d : Decision) : Decision :=
  {| Decision_Allowed := b; Decision_Status := Decision_Status d;
     Decision_PermissionKey := Decision_PermissionKey d; Decision_Action := Decision_Action d;
     Decision_Reason := Decision_Reason d; Decision_ReasonCode := Decision_ReasonCode d;
     Decision_PolicyVersion := Decision_PolicyVersion d;
     Decision_AllowedActions := Decision_AllowedActions d;
     Decision_ResourceScope := Decision_ResourceScope d |}.

Definition set_Decision_Reason (r : string) (d : Decision) : Decision :=
  {| Decision_Allowed := Decision_Allowed d; Decision_Status := Decision_Status d;
     Decision_PermissionKey := Decision_PermissionKey d; Decision_Action := Decision_Action d;
     Decision_Reason := r; Decision_ReasonCode := Decision_ReasonCode d;
     Decision_PolicyVersion := Decision_PolicyVersion d;
     Decision_AllowedActions := Decision_AllowedActions d;
     Decision_ResourceScope := Decision_ResourceScope d |}.

Definition set_Decision_ReasonCode (c : string) (d : Decision) : Decision :=
  {| Decision_Allowed := Decision_Allowed d; Decision_Status := Decision_Status d;
     Decision_PermissionKey := Decision_PermissionKey d; Decision_Action := Decision_Action d;
     Decision_Reason := Decision_Reason d; Decision_ReasonCode := c;
     Decision_PolicyVersion := Decision_PolicyVersion d;
     Decision_AllowedActions := Decision_AllowedActions d;
     Decision_ResourceScope := Decision_ResourceScope d |}.

Definition set_Decision_AllowedActions (l : list Action) (d : Decision) : Decision :=
  {| Decision_Allowed := Decision_Allowed d; Decision_Status := Decision_Status d;
     Decision_PermissionKey := Decision_PermissionKey d; Decision_Action := Decision_Action d;
     Decision_Reason := Decision_Reason d; Decision_ReasonCode := Decision_ReasonCode d;
     Decision_PolicyVersion := Decision_PolicyVersion d;
     Decision_AllowedActions := l; Decision_ResourceScope := Decision_ResourceScope d |}.

Definition set_Decision_ResourceScope (s : option ResourceScope) (d : Decision) : Decision :=
  {| Decision_Allowed := Decision_Allowed d; Decision_Status := Decision_Status d;
     Decision_PermissionKey := Decision_PermissionKey d; Decision_Action := Decision_Action d;
     Decision_Reason := Decision_Reason d; Decision_ReasonCode := Decision_ReasonCode d;
     Decision_PolicyVersion := Decision_PolicyVersion d;
     Decision_AllowedActions := Decision_AllowedActions d; Decision_ResourceScope := s |}.

(** The namespace of a request with other labels. *)
Definition set_Namespace_Labels (l : option (gmap string string)) (r : Request) : Request :=
  {| Request_RequireUnscopedPlatform := Request_RequireUnscopedPlatform r;
     Request_RequireClusterWideNamespace := Request_RequireClusterWideNamespace r;
     Request_RequireWholeResourceCollection := Request_RequireWholeResourceCollection r;
     Request_FailClosedOnUnknownResourceLabels := Request_FailClosedOnUnknownResourceLabels r;
     Request_RequireNamespaceLabels := Request_RequireNamespaceLabels r;
     Request_Principal := Request_Principal r; Request_PermissionKey := Request_PermissionKey r;
     Request_Action := Request_Action r; Request_Subject := Request_Subject r;
     Request_Cluster := Request_Cluster r;
     Request_Namespace := {| Namespace_Namespace := Namespace_Namespace (Request_Namespace r);
                             Namespace_Labels := l;
                             Namespace_OwnerTeam := Namespace_OwnerTeam (Request_Namespace r) |};
     Request_Resource := Request_Resource r; Request_Delivery := Request_Delivery r;
     Request_Context := Request_Context r |}.

Definition set_Request_Action (a : Action) (r : Request) : Request :=
  {| Request_RequireUnscopedPlatform := Request_RequireUnscopedPlatform r;
     Request_RequireClusterWideNamespace := Request_RequireClusterWideNamespace r;
     Request_RequireWholeResourceCollection := Request_RequireWholeResourceCollection r;
     Request_FailClosedOnUnknownResourceLabels := Request_FailClosedOnUnknownResourceLabels r;
     Request_RequireNamespaceLabels := Request_RequireNamespaceLabels r;
     Request_Principal := Request_Principal r; Request_PermissionKey := Request_PermissionKey r;
     Request_Action := a; Request_Subject := Request_Subject r;
     Request_Cluster := Request_Cluster r; Request_Namespace := Request_Namespace r;
     Request_Resource := Request_Resource r; Request_Delivery := Request_Delivery r;
     Request_Context := Request_Context r |}.

Definition set_Request_Subject (s : SubjectAttributes) (r : Request) : Request :=
  {| Request_RequireUnscopedPlatform := Request_RequireUnscopedPlatform r;
     Request_RequireClusterWideNamespace := Request_RequireClusterWideNamespace r;
     Request_RequireWholeResourceCollection := Request_RequireWholeResourceCollection r;
     Request_FailClosedOnUnknownResourceLabels := Request_FailClosedOnUnknownResourceLabels r;
     Request_RequireNamespaceLabels := Request_RequireNamespaceLabels r;
     Request_Principal := Request_Principal r; Request_PermissionKey := Request_PermissionKey r;
     Request_Action := Request_Action r; Request_Subject := s;
     Request_Cluster := Request_Cluster r; Request_Namespace := Request_Namespace r;
     Request_Resource := Request_Resource r; Request_Delivery := Request_Delivery r;
     Request_Context := Request_Context r |}.
