(* ===== verification/PolicyEngine.v ===== *)
(** * The ABAC policy engine

    [internal/policy/engine.go]: [Engine.Evaluate] and the matchers it calls.
    The engine walks the policies by descending priority and returns at the
    first one that decides the request.

    [sort.Slice] is not stable, so the order of policies of equal priority is
    not determined by the code: it is the interface [PrioritySort], and every
    theorem holds for every implementation of it. *)

From Stdlib Require Import Btauto.
From S2P Require Import Prelude GoStrings AccessModel.

(** ** The sort the engine relies on *)

Definition priority_ge (p q : Policy) : Prop := (Policy_Priority q <= Policy_Priority p)%Z.

#[export] Instance priority_ge_dec : RelDecision priority_ge.
Proof. intros p q. unfold priority_ge. apply _. Defined.

(** What [sort.Slice] documents: the result is a permutation in which no
    element is less than one before it. *)
Class PrioritySort := {
  sort_slice : list Policy -> list Policy;
  sort_slice_perm : forall l, sort_slice l ≡ₚ l;
  sort_slice_sorted : forall l, StronglySorted priority_ge (sort_slice l)
}.

(** ** Matchers *)

Definition matchesAction (actions : list Action) (action : Action) : bool :=
  if is_empty actions then true else contains actions action.

Definition matchAny (filters : list string) (value : string) : bool :=
  if is_empty filters then true else contains filters value.

Definition matchSlice (filters values : list string) : bool :=
  if is_empty filters then true else existsb (contains filters) values.

(** A missing map reads as an empty one. *)
Definition matchLabels (expected : gmap string (list string)) (actual : gmap string string) : bool :=
  forallb (fun '(key, values) =>
    match actual !! key with
    | None => false
    | Some actualValue => negb (negb (is_empty values) && negb (contains values actualValue))
    end) (map_to_list expected).

Definition matchesPolicy (policy : Policy) (request : Request) : bool :=
  let subjects := Policy_Subjects policy in
  let clusters := Policy_Clusters policy in
  let namespaces := Policy_Namespaces policy in
  let resources := Policy_Resources policy in
  let conditions := Policy_Conditions policy in
  let subject := Request_Subject request in
  let cluster := Request_Cluster request in
  let namespace := Request_Namespace request in
  let resource := Request_Resource request in
  let ctx := Request_Context request in
  matchAny (Matcher_Users subjects) (Subject_UserID subject) &&
  matchSlice (Matcher_Roles subjects) (Subject_Roles subject) &&
  matchSlice (Matcher_Teams subjects) (Subject_Teams subject) &&
  matchSlice (Matcher_Projects subjects) (Subject_Projects subject) &&
  matchSlice (Matcher_Tags subjects) (Subject_Tags subject) &&
  matchAny (ClusterMatcher_IDs clusters) (Cluster_ClusterID cluster) &&
  matchAny (ClusterMatcher_Regions clusters) (Cluster_Region cluster) &&
  matchAny (ClusterMatcher_Environments clusters) (Cluster_Environment cluster) &&
  matchLabels (ClusterMatcher_Labels clusters) (Cluster_Labels cluster) &&
  matchAny (NamespaceMatcher_Names namespaces) (Namespace_Namespace namespace) &&
  matchAny (NamespaceMatcher_OwnerTeams namespaces) (Namespace_OwnerTeam namespace) &&
  matchLabels (NamespaceMatcher_Labels namespaces) (default ∅ (Namespace_Labels namespace)) &&
  matchAny (ResourceMatcher_Kinds resources) (Resource_Kind resource) &&
  matchAny (ResourceMatcher_Names resources) (Resource_Name resource) &&
  matchLabels (ResourceMatcher_Labels resources) (default ∅ (Resource_Labels resource)) &&
  matchAny (Conditions_Sources conditions) (Context_Source ctx) &&
  matchAny (Conditions_ApprovalStates conditions) (Context_ApprovalState ctx).

(** ** Scoped denies *)

Definition applyScopedDeny (policy : Policy) (request : Request) : Policy :=
  if negb (String.eqb (Policy_Effect policy) EffectDeny) then policy else
  let resources := Policy_Resources policy in
  let namespaces := Policy_Namespaces policy in
  let policy :=
    if Request_RequireWholeResourceCollection request &&
       negb (is_empty (ResourceMatcher_Names resources) &&
             bool_decide (ResourceMatcher_Labels resources = ∅))
    then
      let policy := set_Policy_Resources
        {| ResourceMatcher_Kinds := ResourceMatcher_Kinds resources;
           ResourceMatcher_Names := []; ResourceMatcher_Labels := ∅ |} policy in
      if negb (str_empty (Namespace_Namespace (Request_Namespace request))) &&
         str_empty (Namespace_OwnerTeam (Request_Namespace request))
      then set_Policy_Namespaces
        {| NamespaceMatcher_Names := NamespaceMatcher_Names namespaces;
           NamespaceMatcher_OwnerTeams := [];
           NamespaceMatcher_Labels := NamespaceMatcher_Labels namespaces |} policy
      else policy
    else policy in
  if Request_FailClosedOnUnknownResourceLabels request &&
     bool_decide (Resource_Labels (Request_Resource request) = None)
  then set_Policy_Resources
    {| ResourceMatcher_Kinds := ResourceMatcher_Kinds (Policy_Resources policy);
       ResourceMatcher_Names := ResourceMatcher_Names (Policy_Resources policy);
       ResourceMatcher_Labels := ∅ |} policy
  else policy.

(** The namespace matcher of a policy without its label requirement. *)
Definition clear_namespace_labels (policy : Policy) : Policy :=
  set_Policy_Namespaces
    {| NamespaceMatcher_Names := NamespaceMatcher_Names (Policy_Namespaces policy);
       NamespaceMatcher_OwnerTeams := NamespaceMatcher_OwnerTeams (Policy_Namespaces policy);
       NamespaceMatcher_Labels := ∅ |} policy.

Definition policyNeedsNamespaceLabels (policy : Policy) (request : Request) : bool :=
  if negb (Request_RequireNamespaceLabels request) ||
     str_empty (Namespace_Namespace (Request_Namespace request)) ||
     negb (bool_decide (Namespace_Labels (Request_Namespace request) = None)) ||
     bool_decide (NamespaceMatcher_Labels (Policy_Namespaces policy) = ∅)
  then false
  else matchesPolicy (clear_namespace_labels policy) request.

(** The policy with every namespace and object constraint dropped. *)
Definition unscoped (policy : Policy) : Policy :=
  set_Policy_Resources
    {| ResourceMatcher_Kinds := ResourceMatcher_Kinds (Policy_Resources policy);
       ResourceMatcher_Names := []; ResourceMatcher_Labels := ∅ |}
    (set_Policy_Namespaces zero_NamespaceMatcher policy).

Fixpoint hasScopedPolicyDeny (request : Request) (policies : list Policy) : bool :=
  match policies with
  | [] => false
  | policy :: rest =>
      if negb (String.eqb (Policy_Effect policy) EffectDeny) ||
         negb (matchesAction (Policy_Actions policy) (Request_Action request))
      then hasScopedPolicyDeny request rest else
      let namespaces := Policy_Namespaces policy in
      let resources := Policy_Resources policy in
      if is_empty (NamespaceMatcher_Names namespaces) &&
         is_empty (NamespaceMatcher_OwnerTeams namespaces) &&
         bool_decide (NamespaceMatcher_Labels namespaces = ∅) &&
         is_empty (ResourceMatcher_Names resources) &&
         bool_decide (ResourceMatcher_Labels resources = ∅)
      then hasScopedPolicyDeny request rest else
      if matchesPolicy (unscoped policy) request then true
      else hasScopedPolicyDeny request rest
  end.

(** ** Evaluation *)

Definition buildDecision (policy : Policy) (request : Request) : Decision :=
  let clusters := ClusterMatcher_IDs (Policy_Clusters policy) in
  let names := NamespaceMatcher_Names (Policy_Namespaces policy) in
  let cluster := Cluster_ClusterID (Request_Cluster request) in
  let namespace := Namespace_Namespace (Request_Namespace request) in
  {| Decision_Allowed := false; Decision_Status := ""; Decision_PermissionKey := "";
     Decision_Action := ""; Decision_Reason := Policy_Reason policy; Decision_ReasonCode := "";
     Decision_PolicyVersion := ""; Decision_AllowedActions := Policy_Actions policy;
     Decision_ResourceScope := Some
       {| Scope_Clusters :=
            if negb (is_empty clusters) then clusters
            else if negb (str_empty cluster) then [cluster] else [];
          Scope_Namespaces :=
            if negb (is_empty names) then names
            else if negb (str_empty namespace) then [namespace] else [];
          Scope_ExcludedNamespaces := []; Scope_LabelSelector := "";
          Scope_NamespaceSelectors := []; Scope_ExcludedNamespaceSelectors := [];
          Scope_ResourceGroups := []; Scope_ResourceKinds := [] |} |}.

(** The decision of a policy that matches. *)
Definition decide_policy (policy : Policy) (request : Request) : Decision :=
  let decision := buildDecision policy request in
  if String.eqb (Policy_Effect policy) EffectDeny then
    let decision := set_Decision_Allowed false decision in
    if str_empty (Decision_Reason decision)
    then set_Decision_Reason "matched deny policy" decision else decision
  else
    let decision := set_Decision_Allowed true decision in
    if str_empty (Decision_Reason decision)
    then set_Decision_Reason "matched allow policy" decision else decision.

(** The loop over the ordered policies. *)
Fixpoint evaluate_ordered (request : Request) (ordered : list Policy) : Decision :=
  match ordered with
  | [] => zero_Decision
  | policy :: rest =>
      if negb (matchesAction (Policy_Actions policy) (Request_Action request))
      then evaluate_ordered request rest else
      let policy := applyScopedDeny policy request in
      if policyNeedsNamespaceLabels policy request then
        set_Decision_ReasonCode ReasonNamespaceLabelsRequired
          (set_Decision_Reason "namespace labels are required to evaluate policy" zero_Decision)
      else if negb (matchesPolicy policy request) then evaluate_ordered request rest
      else decide_policy policy request
  end.

Definition Evaluate `{PrioritySort} (request : Request) (policies : list Policy) : Decision :=
  if Request_RequireClusterWideNamespace request && hasScopedPolicyDeny request policies
  then set_Decision_Reason "policy denies the action in part of the cluster" zero_Decision
  else evaluate_ordered request (sort_slice policies).

(** [internal/policy/scope/filter.go]. *)
Definition scope_Build (decision : Decision) : option ResourceScope :=
  Decision_ResourceScope decision.

(** A stable merge sort is one implementation of [sort.Slice]. *)
#[export] Instance priority_ge_total : Total priority_ge.
Proof. intros p q. unfold priority_ge. lia. Qed.
#[export] Instance priority_ge_trans : Transitive priority_ge.
Proof. intros p q s. unfold priority_ge. lia. Qed.

#[export] Instance merge_priority_sort : PrioritySort :=
  {| sort_slice := merge_sort priority_ge;
     sort_slice_perm := merge_sort_Permutation priority_ge;
     sort_slice_sorted := StronglySorted_merge_sort priority_ge |}.

(** ** Specification vocabulary *)

(** What one policy, taken alone, makes of a request: nothing, a request for
    namespace labels, or an allow or deny decision. *)
Definition outcome (request : Request) (policy : Policy) : option Decision :=
  if negb (matchesAction (Policy_Actions policy) (Request_Action request)) then None else
  let policy := applyScopedDeny policy request in
  if policyNeedsNamespaceLabels policy request then
    Some (set_Decision_ReasonCode ReasonNamespaceLabelsRequired
      (set_Decision_Reason "namespace labels are required to evaluate policy" zero_Decision))
  else if matchesPolicy policy request then Some (decide_policy policy request) else None.

(** The policy takes part in the decision on a request. *)
Definition applies (request : Request) (policy : Policy) : Prop :=
  matchesAction (Policy_Actions policy) (Request_Action request) = true /\
  matchesPolicy (applyScopedDeny policy request) request = true.

(** A policy that constrains namespaces or individual objects. *)
Definition scoped_policy (policy : Policy) : Prop :=
  Policy_Namespaces policy <> zero_NamespaceMatcher \/
  ResourceMatcher_Names (Policy_Resources policy) <> [] \/
  ResourceMatcher_Labels (Policy_Resources policy) <> ∅.

(** The same request aimed at another namespace and another object. *)
Definition retarget (namespace : NamespaceAttributes) (name : string)
    (labels : option (gmap string string)) (r : Request) : Request :=
  {| Request_RequireUnscopedPlatform := Request_RequireUnscopedPlatform r;
     Request_RequireClusterWideNamespace := Request_RequireClusterWideNamespace r;
     Request_RequireWholeResourceCollection := Request_RequireWholeResourceCollection r;
     Request_FailClosedOnUnknownResourceLabels := Request_FailClosedOnUnknownResourceLabels r;
     Request_RequireNamespaceLabels := Request_RequireNamespaceLabels r;
     Request_Principal := Request_Principal r; Request_PermissionKey := Request_PermissionKey r;
     Request_Action := Request_Action r; Request_Subject := Request_Subject r;
     Request_Cluster := Request_Cluster r; Request_Namespace := namespace;
     Request_Resource :=
       {| Resource_Group := Resource_Group (Request_Resource r);
          Resource_Kind := Resource_Kind (Request_Resource r); Resource_Name := name;
          Resource_Labels := labels;
          Resource_Annotations := Resource_Annotations (Request_Resource r);
          Resource_Owner := Resource_Owner (Request_Resource r) |};
     Request_Delivery := Request_Delivery r; Request_Context := Request_Context r |}.

(** ** Sample inputs *)

(** An operator asking to list pods of the namespace [team-a]. *)
Definition sample_request : Request :=
  {| Request_RequireUnscopedPlatform := false; Request_RequireClusterWideNamespace := false;
     Request_RequireWholeResourceCollection := false;
     Request_FailClosedOnUnknownResourceLabels := false;
     Request_RequireNamespaceLabels := true;
     Request_Principal :=
       {| Principal_UserID := "u1"; Principal_UserName := "Ada"; Principal_Email := "";
          Principal_AvatarURL := ""; Principal_AvatarFit := ""; Principal_Roles := ["ops"];
          Principal_Teams := ["t1"]; Principal_Projects := []; Principal_Tags := [];
          Principal_PermissionKeys := []; Principal_AccessTokenID := "" |};
     Request_PermissionKey := ""; Request_Action := ActionList;
     Request_Subject := {| Subject_UserID := "u1"; Subject_Roles := ["ops"];
       Subject_Teams := ["t1"]; Subject_Projects := []; Subject_Tags := [] |};
     Request_Cluster := {| Cluster_ClusterID := "c1"; Cluster_Region := "eu";
       Cluster_Environment := "staging"; Cluster_Labels := ∅ |};
     Request_Namespace := {| Namespace_Namespace := "team-a"; Namespace_Labels := None;
       Namespace_OwnerTeam := "" |};
     Request_Resource := {| Resource_Group := "workloads"; Resource_Kind := "Pod";
       Resource_Name := ""; Resource_Labels := None; Resource_Annotations := ∅;
       Resource_Owner := "" |};
     Request_Delivery := {| Delivery_BusinessLineID := ""; Delivery_ApplicationGroup := "";
       Delivery_EnvironmentKey := ""; Delivery_ApplicationID := "" |};
     Request_Context := {| Context_Source := "api"; Context_ApprovalState := "";
       Context_OccurredAt := 0%Z |} |}.

(** The same request for every namespace of the cluster. *)
Definition sample_clusterwide_request : Request :=
  {| Request_RequireUnscopedPlatform := false; Request_RequireClusterWideNamespace := true;
     Request_RequireWholeResourceCollection := false;
     Request_FailClosedOnUnknownResourceLabels := false;
     Request_RequireNamespaceLabels := true;
     Request_Principal := Request_Principal sample_request; Request_PermissionKey := "";
     Request_Action := ActionList; Request_Subject := Request_Subject sample_request;
     Request_Cluster := Request_Cluster sample_request;
     Request_Namespace := {| Namespace_Namespace := ""; Namespace_Labels := None;
       Namespace_OwnerTeam := "" |};
     Request_Resource := Request_Resource sample_request;
     Request_Delivery := Request_Delivery sample_request;
     Request_Context := Request_Context sample_request |}.

Definition sample_allow : Policy :=
  {| Policy_ID := "ops-access"; Policy_Name := "Ops"; Policy_Effect := EffectAllow;
     Policy_Priority := 80; Policy_Subjects :=
       {| Matcher_Roles := ["ops"]; Matcher_Teams := []; Matcher_Projects := [];
          Matcher_Users := []; Matcher_Tags := []; Matcher_Labels := ∅ |};
     Policy_Clusters := zero_ClusterMatcher; Policy_Namespaces := zero_NamespaceMatcher;
     Policy_Resources := zero_ResourceMatcher; Policy_Actions := [ActionView; ActionList];
     Policy_Conditions := zero_Conditions; Policy_Reason := "role ops matched" |}.

(** A deny for namespaces that carry the label [tier=gold], on another cluster. *)
Definition sample_deny_labels : Policy :=
  {| Policy_ID := "deny-gold"; Policy_Name := "Gold"; Policy_Effect := EffectDeny;
     Policy_Priority := 90; Policy_Subjects := zero_Matcher;
     Policy_Clusters := {| ClusterMatcher_IDs := ["c2"]; ClusterMatcher_Regions := [];
       ClusterMatcher_Environments := []; ClusterMatcher_Labels := ∅ |};
     Policy_Namespaces := {| NamespaceMatcher_Names := []; NamespaceMatcher_OwnerTeams := [];
       NamespaceMatcher_Labels := {[ "tier" := ["gold"] ]} |};
     Policy_Resources := zero_ResourceMatcher; Policy_Actions := [ActionList];
     Policy_Conditions := zero_Conditions; Policy_Reason := "" |}.

(** ** Lemmas on the matchers *)

Lemma matchLabels_empty actual : matchLabels ∅ actual = true.
Proof. unfold matchLabels. by rewrite map_to_list_empty. Qed.

Lemma matchAny_nil value : matchAny [] value = true.
Proof. done. Qed.

#[export] Hint Rewrite matchLabels_empty matchAny_nil : soha.

(** Dropping the namespace label requirement keeps the rest of the match. *)
Lemma matchesPolicy_split_labels p r :
  matchesPolicy p r =
    matchesPolicy (clear_namespace_labels p) r &&
    matchLabels (NamespaceMatcher_Labels (Policy_Namespaces p))
      (default ∅ (Namespace_Labels (Request_Namespace r))).
Proof.
  unfold matchesPolicy, clear_namespace_labels; simpl.
  autorewrite with soha. btauto.
Qed.

Lemma matchesPolicy_clear_labels_irrelevant p r l :
  matchesPolicy (clear_namespace_labels p) (set_Namespace_Labels l r) =
  matchesPolicy (clear_namespace_labels p) r.
Proof. unfold matchesPolicy; simpl. by autorewrite with soha. Qed.

Lemma matchesPolicy_unscoped p r namespace name labels :
  matchesPolicy p (retarget namespace name labels r) = true ->
  matchesPolicy (unscoped p) r = true.
Proof.
  unfold matchesPolicy; simpl. intros H. bool_prop.
  autorewrite with soha. by repeat (apply andb_true_iff; split).
Qed.

Lemma applyScopedDeny_effect p r : Policy_Effect (applyScopedDeny p r) = Policy_Effect p.
Proof. unfold applyScopedDeny. by case_guards. Qed.

Lemma applyScopedDeny_actions p r : Policy_Actions (applyScopedDeny p r) = Policy_Actions p.
Proof. unfold applyScopedDeny. by case_guards. Qed.

(** The rewriting of a deny does not look at namespace labels. *)
Lemma applyScopedDeny_labels_irrelevant p r l :
  applyScopedDeny p (set_Namespace_Labels l r) = applyScopedDeny p r.
Proof. done. Qed.

Lemma decide_policy_allowed p r :
  Decision_Allowed (decide_policy p r) = negb (String.eqb (Policy_Effect p) EffectDeny).
Proof. unfold decide_policy. by case_guards. Qed.

Lemma decide_policy_labels_irrelevant p r l :
  decide_policy p (set_Namespace_Labels l r) = decide_policy p r.
Proof. done. Qed.

(** ** The loop as a first-match search *)

Lemma evaluate_ordered_cons r p ps :
  evaluate_ordered r (p :: ps) = default (evaluate_ordered r ps) (outcome r p).
Proof.
  unfold outcome. cbn [evaluate_ordered].
  destruct (matchesAction _ _); simpl; [|done].
  destruct (policyNeedsNamespaceLabels _ _); [done|].
  by destruct (matchesPolicy _ _).
Qed.

(** In a list ordered by priority the first policy with an outcome has the
    highest priority of those with one. *)
Lemma evaluate_ordered_first r ps :
  StronglySorted priority_ge ps ->
  (exists p, p ∈ ps /\ outcome r p = Some (evaluate_ordered r ps) /\
     forall q, q ∈ ps -> outcome r q <> None -> (Policy_Priority q <= Policy_Priority p)%Z) \/
  (evaluate_ordered r ps = zero_Decision /\ forall q, q ∈ ps -> outcome r q = None).
Proof.
  induction 1 as [|p ps Hs IH Hp]; [right; set_solver|].
  rewrite evaluate_ordered_cons.
  destruct (outcome r p) as [d|] eqn:Hd; simpl.
  - left. exists p. split; [set_solver|]. split; [done|].
    intros q [->|Hq]%elem_of_cons _; [done|].
    rewrite Forall_forall in Hp. by apply Hp.
  - destruct IH as [(q & Hq & Ho & Hmax)|[Hz Hnone]].
    + left. exists q. split; [set_solver|]. split; [done|].
      intros q' [->|Hq']%elem_of_cons Hn; [by rewrite Hd in Hn|]. by apply Hmax.
    + right. split; [done|]. intros q [->|Hq]%elem_of_cons; auto.
Qed.

(** The decision the engine reports is the outcome of a policy of highest
    priority among those with one. *)
Lemma Evaluate_first `{PrioritySort} r ps :
  Request_RequireClusterWideNamespace r && hasScopedPolicyDeny r ps = false ->
  (exists p, p ∈ ps /\ outcome r p = Some (Evaluate r ps) /\
     forall q, q ∈ ps -> outcome r q <> None -> (Policy_Priority q <= Policy_Priority p)%Z) \/
  (Evaluate r ps = zero_Decision /\ forall q, q ∈ ps -> outcome r q = None).
Proof.
  intros Hcw. unfold Evaluate. rewrite Hcw.
  destruct (evaluate_ordered_first r _ (sort_slice_sorted ps)) as [(p & Hp & Ho & Hmax)|[Hz Hn]].
  - left. exists p. rewrite sort_slice_perm in Hp. split; [done|]. split; [done|].
    intros q Hq. apply Hmax. by rewrite sort_slice_perm.
  - right. split; [done|]. intros q Hq. apply Hn. by rewrite sort_slice_perm.
Qed.

Lemma Evaluate_clusterwide_denied `{PrioritySort} r ps :
  Request_RequireClusterWideNamespace r && hasScopedPolicyDeny r ps = true ->
  Decision_Allowed (Evaluate r ps) = false.
Proof. intros Hcw. unfold Evaluate. by rewrite Hcw. Qed.

(** An outcome that allows comes from a policy that applies and is no deny. *)
Lemma outcome_allowed r p d :
  outcome r p = Some d -> Decision_Allowed d = true ->
  applies r p /\ Policy_Effect p <> EffectDeny.
Proof.
  unfold outcome, applies. intros Ho Ha.
  destruct (matchesAction _ _) eqn:Hact; [|done]. simpl in *.
  destruct (policyNeedsNamespaceLabels _ _) eqn:Hn; [by simplify_eq/=|].
  destruct (matchesPolicy _ _) eqn:Hm; [|done]. simplify_eq.
  rewrite decide_policy_allowed, applyScopedDeny_effect in Ha.
  apply negb_true_iff, String.eqb_neq in Ha. done.
Qed.

Lemma applies_outcome r p : applies r p -> outcome r p <> None.
Proof.
  intros [Ha Hm]. unfold outcome. rewrite Ha, Hm. simpl. by destruct (policyNeedsNamespaceLabels _ _).
Qed.

Lemma hasScopedPolicyDeny_false r ps p :
  hasScopedPolicyDeny r ps = false -> p ∈ ps ->
  Policy_Effect p = EffectDeny ->
  matchesAction (Policy_Actions p) (Request_Action r) = true ->
  scoped_policy p -> matchesPolicy (unscoped p) r = false.
Proof.
  intros Hf Hp He Ha Hs. induction ps as [|q ps IH]; [set_solver|].
  cbn [hasScopedPolicyDeny] in Hf. apply elem_of_cons in Hp as [->|Hp].
  - rewrite He, Ha in Hf. simpl in Hf.
    destruct (is_empty _ && _ && _ && _ && _) eqn:Hempty; [|by case_match].
    bool_prop. destruct (Policy_Namespaces q) as [ns os ls] eqn:Hns; simpl in *.
    rewrite is_empty_true in *. simplify_eq.
    destruct Hs as [Hs|[Hs|Hs]]; [|congruence..]. by rewrite Hns in Hs.
  - case_guards; auto.
Qed.

Lemma hasScopedPolicyDeny_perm r ps1 ps2 :
  ps1 ≡ₚ ps2 -> hasScopedPolicyDeny r ps1 = hasScopedPolicyDeny r ps2.
Proof.
  induction 1 as [|p l1 l2 _ IH|p q l|l1 l2 l3 _ IH1 _ IH2]; cbn [hasScopedPolicyDeny];
    [done|by rewrite IH|by repeat case_match|congruence].
Qed.

(** Knowing the labels of the namespace cannot change a decision that was
    taken without them. *)
Lemma evaluate_ordered_labels r ps l :
  Request_RequireNamespaceLabels r = true ->
  Namespace_Namespace (Request_Namespace r) <> "" ->
  Namespace_Labels (Request_Namespace r) = None ->
  Decision_ReasonCode (evaluate_ordered r ps) <> ReasonNamespaceLabelsRequired ->
  evaluate_ordered (set_Namespace_Labels (Some l) r) ps = evaluate_ordered r ps.
Proof.
  intros Hreq Hns Hnil. apply String.eqb_neq in Hns.
  induction ps as [|p ps IH]; [done|]. rewrite !evaluate_ordered_cons.
  unfold outcome. cbn [Request_Action set_Namespace_Labels].
  destruct (matchesAction _ _); simpl; [|done].
  change (applyScopedDeny p _) with (applyScopedDeny p r).
  generalize (applyScopedDeny p r) as q. intros q.
  assert (policyNeedsNamespaceLabels q (set_Namespace_Labels (Some l) r) = false) as ->.
  { unfold policyNeedsNamespaceLabels; simpl. by rewrite Hreq, !orb_true_r. }
  unfold policyNeedsNamespaceLabels, str_empty. rewrite Hreq, Hns, Hnil. simpl.
  rewrite (matchesPolicy_split_labels q (set_Namespace_Labels _ r)), (matchesPolicy_split_labels q r).
  rewrite matchesPolicy_clear_labels_irrelevant, Hnil; simpl.
  case_bool_decide as Hl.
  - rewrite Hl, !matchLabels_empty, andb_true_r.
    change (decide_policy q _) with (decide_policy q r).
    by destruct (matchesPolicy (clear_namespace_labels q) r).
  - by destruct (matchesPolicy (clear_namespace_labels q) r).
Qed.

Lemma hasScopedPolicyDeny_labels r ps l :
  hasScopedPolicyDeny (set_Namespace_Labels l r) ps = hasScopedPolicyDeny r ps.
Proof.
  induction ps as [|p ps IH]; [done|]. cbn [hasScopedPolicyDeny].
  rewrite IH. done.
Qed.

(** ** Properties of the engine *)

(** The engine returns the decision of a policy of highest priority among
    the policies that have something to say on the request (or the zero
    decision when none has), unless a cluster-wide request meets a scoped
    deny.  This holds for every sort that meets the contract of
    [sort.Slice]. *)
Theorem Evaluate_highest_priority `{PrioritySort} r ps :
  (Request_RequireClusterWideNamespace r && hasScopedPolicyDeny r ps = true /\
   Evaluate r ps =
     set_Decision_Reason "policy denies the action in part of the cluster" zero_Decision) \/
  (exists p, p ∈ ps /\ outcome r p = Some (Evaluate r ps) /\
     forall q, q ∈ ps -> outcome r q <> None -> (Policy_Priority q <= Policy_Priority p)%Z) \/
  (Evaluate r ps = zero_Decision /\ forall q, q ∈ ps -> outcome r q = None).
Proof.
  destruct (Request_RequireClusterWideNamespace r && hasScopedPolicyDeny r ps) eqn:Hcw.
  - left. unfold Evaluate. by rewrite Hcw.
  - right. by apply Evaluate_first.
Qed.

(** C1. An allow is never issued against a deny of higher priority: when the
    engine allows a request, some allow policy applies to it, and every deny
    policy that applies has at most that policy's priority. *)
Theorem Evaluate_allow_sound `{PrioritySort} r ps :
  Decision_Allowed (Evaluate r ps) = true ->
  exists p, p ∈ ps /\ applies r p /\ Policy_Effect p <> EffectDeny /\
    forall q, q ∈ ps -> applies r q -> Policy_Effect q = EffectDeny ->
      (Policy_Priority q <= Policy_Priority p)%Z.
Proof.
  intros Ha.
  destruct (Request_RequireClusterWideNamespace r && hasScopedPolicyDeny r ps) eqn:Hcw.
  { by rewrite Evaluate_clusterwide_denied in Ha. }
  destruct (Evaluate_first r ps Hcw) as [(p & Hp & Ho & Hmax)|[Hz _]];
    [|by rewrite Hz in Ha].
  destruct (outcome_allowed r p _ Ho Ha) as [Happ Heff].
  exists p. repeat split; [done|apply Happ..|done|].
  intros q Hq Hqa _. apply Hmax; [done|]. by apply applies_outcome.
Qed.

Lemma Evaluate_allow_sound_witness :
  exists p, p ∈ [sample_deny_labels; sample_allow] /\ applies sample_request p /\
    Policy_Effect p <> EffectDeny /\
    forall q, q ∈ [sample_deny_labels; sample_allow] -> applies sample_request q ->
      Policy_Effect q = EffectDeny -> (Policy_Priority q <= Policy_Priority p)%Z.
Proof. apply (Evaluate_allow_sound sample_request). vm_compute. reflexivity. Defined.

(** The decision does not depend on how [sort.Slice] orders ties, nor on
    the order the repository lists the policies in, as soon as the policies
    of equal priority agree on the request. *)
Theorem Evaluate_order_independent (S1 S2 : PrioritySort) r ps1 ps2 :
  ps1 ≡ₚ ps2 ->
  (forall p q d e, p ∈ ps1 -> q ∈ ps1 -> outcome r p = Some d -> outcome r q = Some e ->
     Policy_Priority p = Policy_Priority q -> d = e) ->
  hasScopedPolicyDeny r ps1 = hasScopedPolicyDeny r ps2 /\
  @Evaluate S1 r ps1 = @Evaluate S2 r ps2.
Proof.
  intros Hperm Hties. pose proof (hasScopedPolicyDeny_perm r ps1 ps2 Hperm) as Hcw.
  split; [done|].
  destruct (Request_RequireClusterWideNamespace r && hasScopedPolicyDeny r ps1) eqn:Hc1.
  { unfold Evaluate. by rewrite <-Hcw, Hc1. }
  pose proof Hc1 as Hc2. rewrite Hcw in Hc2.
  destruct (@Evaluate_first S1 r ps1 Hc1) as [(p & Hp & Ho & Hmax)|[Hz Hn]],
    (@Evaluate_first S2 r ps2 Hc2) as [(q & Hq & Hoq & Hmaxq)|[Hzq Hnq]];
    setoid_rewrite <-Hperm in Hq || setoid_rewrite <-Hperm in Hnq.
  - apply (Hties p q); [done..|]. apply Z.le_antisymm; [|by apply Hmax; congruence].
    apply Hmaxq; [by rewrite <-Hperm|congruence].
  - by rewrite Hnq in Ho.
  - by rewrite Hn in Hoq.
  - congruence.
Qed.

Lemma Evaluate_order_independent_witness :
  hasScopedPolicyDeny sample_request [sample_allow; sample_deny_labels] =
    hasScopedPolicyDeny sample_request [sample_deny_labels; sample_allow] /\
  Evaluate sample_request [sample_allow; sample_deny_labels] =
    Evaluate sample_request [sample_deny_labels; sample_allow].
Proof.
  apply (Evaluate_order_independent merge_priority_sort merge_priority_sort).
  - apply perm_swap.
  - intros p q d e Hp Hq Hd He Hprio.
    rewrite !elem_of_cons in Hp, Hq.
    destruct Hp as [->|[->|Hp]], Hq as [->|[->|Hq]]; try set_solver;
      first [congruence | vm_compute in Hprio; discriminate].
Defined.

(** Deciding before the labels of a namespace are known is sound: for a
    named namespace with unknown labels, any decision other than the request
    for labels is the decision every possible set of labels would give. *)
Theorem Evaluate_label_deferral `{PrioritySort} r ps labels :
  Request_RequireNamespaceLabels r = true ->
  Namespace_Namespace (Request_Namespace r) <> "" ->
  Namespace_Labels (Request_Namespace r) = None ->
  Decision_ReasonCode (Evaluate r ps) <> ReasonNamespaceLabelsRequired ->
  Evaluate (set_Namespace_Labels (Some labels) r) ps = Evaluate r ps.
Proof.
  intros Hreq Hns Hnil. unfold Evaluate.
  rewrite hasScopedPolicyDeny_labels. simpl. case_guards; [done|].
  by apply evaluate_ordered_labels.
Qed.

Lemma Evaluate_label_deferral_witness :
  Decision_Allowed (Evaluate sample_request [sample_allow; sample_deny_labels]) = true /\
  Evaluate (set_Namespace_Labels (Some {[ "tier" := "gold" ]}) sample_request)
    [sample_allow; sample_deny_labels] =
  Evaluate sample_request [sample_allow; sample_deny_labels].
Proof.
  split; [by vm_compute|].
  apply (Evaluate_label_deferral sample_request); [done|done|done|]. by vm_compute.
Defined.

(** A cluster-wide allow is safe in every namespace: once a request for
    all namespaces is allowed, no deny policy that is scoped to namespaces or
    objects matches the request for any namespace and any object. *)
Theorem Evaluate_clusterwide_safe `{PrioritySort} r ps p namespace name labels :
  Request_RequireClusterWideNamespace r = true ->
  Decision_Allowed (Evaluate r ps) = true ->
  p ∈ ps -> Policy_Effect p = EffectDeny -> scoped_policy p ->
  matchesAction (Policy_Actions p) (Request_Action r) &&
    matchesPolicy p (retarget namespace name labels r) = false.
Proof.
  intros Hcw Ha Hp He Hs.
  destruct (matchesAction _ _) eqn:Hact; [|done]. simpl.
  destruct (matchesPolicy p _) eqn:Hm; [|done].
  apply matchesPolicy_unscoped in Hm.
  destruct (hasScopedPolicyDeny r ps) eqn:Hd.
  - rewrite Evaluate_clusterwide_denied in Ha; [done|]. by rewrite Hcw, Hd.
  - by rewrite (hasScopedPolicyDeny_false r ps p) in Hm.
Qed.

Lemma Evaluate_clusterwide_safe_witness :
  matchesAction (Policy_Actions sample_deny_labels) ActionList &&
    matchesPolicy sample_deny_labels
      (retarget {| Namespace_Namespace := "prod"; Namespace_Labels := Some {[ "tier" := "gold" ]};
                   Namespace_OwnerTeam := "" |} "pod-1" None sample_clusterwide_request) = false.
Proof.
  apply (Evaluate_clusterwide_safe sample_clusterwide_request [sample_deny_labels; sample_allow]).
  - done.
  - by vm_compute.
  - apply elem_of_cons. by left.
  - done.
  - left. done.
Defined.
