(* ===== verification/NamespaceSelector.v ===== *)
(** * Namespace label selectors

    [internal/domain/access/namespace_selector.go]: the equality and existence
    subset of Kubernetes selectors that platform scope grants accept, its
    validation and its evaluation, with an abstract syntax that gives a
    requirement its meaning. *)

From Stdlib Require Import Ascii.
From S2P Require Import Prelude GoStrings.

Definition validSelectorToken (value : string) : bool :=
  let value := TrimSpace value in
  negb (str_empty value) && negb (ContainsAny value [" "; "009"; "013"; "010"]%char).

(** The loop over the operators: the first one that occurs decides. *)
Fixpoint valid_operators (requirement : string) (operators : list string) : bool :=
  match operators with
  | [] => validSelectorToken requirement
  | operator :: rest =>
      match Cut requirement operator with
      | Some (key, value) => validSelectorToken key && negb (blank value)
      | None => valid_operators requirement rest
      end
  end.

Definition validNamespaceRequirement (requirement : string) : bool :=
  if str_empty requirement then false
  else if HasPrefix requirement "!" && negb (str_contains requirement "!=")
  then validSelectorToken (TrimPrefix requirement "!")
  else valid_operators requirement ["!="; "=="; "="].

Definition ValidNamespaceSelector (selector : string) : bool :=
  let selector := TrimSpace selector in
  if str_empty selector then true
  else forallb (fun raw => validNamespaceRequirement (TrimSpace raw)) (split_byte "," selector).

(** A nil label map reads as an empty one. *)
Definition matchesNamespaceRequirement (requirement : string) (labels : gmap string string) : bool :=
  if HasPrefix requirement "!" && negb (str_contains requirement "!=") then
    negb (bool_decide (is_Some (labels !! TrimSpace (TrimPrefix requirement "!"))))
  else
  match Cut requirement "!=" with
  | Some (key, value) =>
      match labels !! TrimSpace key with
      | None => true
      | Some actual => negb (String.eqb actual (TrimSpace value))
      end
  | None =>
  match Cut requirement "==" with
  | Some (key, value) =>
      match labels !! TrimSpace key with
      | None => false
      | Some actual => String.eqb actual (TrimSpace value)
      end
  | None =>
  match Cut requirement "=" with
  | Some (key, value) =>
      match labels !! TrimSpace key with
      | None => false
      | Some actual => String.eqb actual (TrimSpace value)
      end
  | None => bool_decide (is_Some (labels !! requirement))
  end end end.

Definition MatchesNamespaceSelector (selector : string) (labels : gmap string string) : bool :=
  let selector := TrimSpace selector in
  if str_empty selector then true
  else if negb (ValidNamespaceSelector selector) then false
  else forallb (fun raw => matchesNamespaceRequirement (TrimSpace raw) labels)
         (split_byte "," selector).

(** ** The meaning of selectors *)

(** The abstract syntax of one requirement. *)
Inductive requirement :=
| ReqExists (key : string)
| ReqAbsent (key : string)
| ReqEquals (key value : string)
| ReqNotEquals (key value : string).

(** What a requirement demands of the labels of a namespace. *)
Definition req_holds (labels : gmap string string) (q : requirement) : Prop :=
  match q with
  | ReqExists k => is_Some (labels !! k)
  | ReqAbsent k => labels !! k = None
  | ReqEquals k v => labels !! k = Some v
  | ReqNotEquals k v => labels !! k <> Some v
  end.

(** The concrete syntax of a requirement. *)
Definition print_requirement (q : requirement) : string :=
  match q with
  | ReqExists k => k
  | ReqAbsent k => "!" +:+ k
  | ReqEquals k v => k +:+ "=" +:+ v
  | ReqNotEquals k v => k +:+ "!=" +:+ v
  end.

Definition print_selector (qs : list requirement) : string :=
  Join (print_requirement <$> qs) ",".

(** Reading a requirement back. *)
Definition parse_requirement (s : string) : option requirement :=
  if str_empty s then None
  else if HasPrefix s "!" && negb (str_contains s "!=") then
    if validSelectorToken (TrimPrefix s "!")
    then Some (ReqAbsent (TrimSpace (TrimPrefix s "!"))) else None
  else
  match Cut s "!=" with
  | Some (k, v) => if validSelectorToken k && negb (blank v)
                   then Some (ReqNotEquals (TrimSpace k) (TrimSpace v)) else None
  | None =>
  match Cut s "==" with
  | Some (k, v) => if validSelectorToken k && negb (blank v)
                   then Some (ReqEquals (TrimSpace k) (TrimSpace v)) else None
  | None =>
  match Cut s "=" with
  | Some (k, v) => if validSelectorToken k && negb (blank v)
                   then Some (ReqEquals (TrimSpace k) (TrimSpace v)) else None
  | None => if validSelectorToken s then Some (ReqExists s) else None
  end end end.

(** All requirements of a selector, when each of them is well formed. *)
Definition parse_selector (selector : string) : option (list requirement) :=
  let selector := TrimSpace selector in
  if str_empty selector then Some []
  else mapM (fun raw => parse_requirement (TrimSpace raw)) (split_byte "," selector).

(** A key or a value that can be written without quoting: non-empty printable
    ASCII without the characters of the selector syntax. *)
Definition plain_token (s : string) : bool :=
  negb (str_empty s) &&
  forallb (fun c => solid c && negb (existsb (Ascii.eqb c) ["!"; "="; ","]%char)) (chars s).

Definition plain_requirement (q : requirement) : bool :=
  match q with
  | ReqExists k | ReqAbsent k => plain_token k
  | ReqEquals k v | ReqNotEquals k v => plain_token k && plain_token v
  end.

(** ** Lemmas *)

Lemma valid_requirement_parse s :
  validNamespaceRequirement s = bool_decide (is_Some (parse_requirement s)).
Proof.
  unfold validNamespaceRequirement, parse_requirement; cbn [valid_operators].
  repeat case_match; simplify_eq/=; try done; try by rewrite bool_decide_true by eauto.
  all: symmetry; apply bool_decide_eq_false; by intros [? ?].
Qed.

(** A well-formed requirement is matched exactly as its abstract syntax says. *)
Lemma matches_requirement_parse s q labels :
  parse_requirement s = Some q ->
  matchesNamespaceRequirement s labels = true <-> req_holds labels q.
Proof.
  unfold parse_requirement, matchesNamespaceRequirement. intros Hp.
  repeat case_match; simplify_eq/=; rewrite ?negb_true_iff, ?bool_decide_eq_true,
    ?bool_decide_eq_false, ?String.eqb_eq, ?String.eqb_neq; split; try done;
    try (by intros ->); try congruence; try (by intros ?%eq_None_not_Some).
  all: intros; by apply eq_None_not_Some.
Qed.

Lemma forallb_mapM {A B} (f : A -> option B) (g : A -> bool) l :
  (forall x, g x = bool_decide (is_Some (f x))) ->
  forallb g l = bool_decide (is_Some (mapM f l)).
Proof.
  intros Hg. apply eq_true_iff_eq. rewrite bool_decide_eq_true, mapM_is_Some, Forall_forall.
  rewrite forallb_elem_of. setoid_rewrite Hg. by setoid_rewrite bool_decide_eq_true.
Qed.

(** A test of the parts agrees with a test of the parsed parts. *)
Lemma forallb_mapM_Forall {A B} (f : A -> option B) (g : A -> bool) (P : B -> Prop) l qs :
  (forall x q, f x = Some q -> g x = true <-> P q) ->
  mapM f l = Some qs -> forallb g l = true <-> Forall P qs.
Proof.
  intros Hg Hm%mapM_Some. induction Hm as [|x q l qs Hx _ IH]; simpl; [done|].
  by rewrite andb_true_iff, Forall_cons, IH, (Hg x q).
Qed.

Lemma valid_selector_parse selector :
  ValidNamespaceSelector selector = bool_decide (is_Some (parse_selector selector)).
Proof.
  unfold ValidNamespaceSelector, parse_selector. case_guards; [done|].
  apply forallb_mapM. intros raw. apply valid_requirement_parse.
Qed.

Lemma matches_selector_parse selector labels :
  MatchesNamespaceSelector selector labels = true <->
  exists qs, parse_selector selector = Some qs /\ Forall (req_holds labels) qs.
Proof.
  unfold MatchesNamespaceSelector. rewrite valid_selector_parse.
  unfold parse_selector. autorewrite with soha.
  destruct (str_empty (TrimSpace selector)) eqn:Hs; [naive_solver|].
  destruct (mapM _ _) as [qs|] eqn:Hm; simpl.
  - rewrite (forallb_mapM_Forall (fun raw => parse_requirement (TrimSpace raw)) _ (req_holds labels) _ qs); [naive_solver| |done].
    intros. by apply matches_requirement_parse.
  - naive_solver.
Qed.

Lemma plain_token_spec s :
  plain_token s = true ->
  s <> "" /\ all_solid s /\ ("!"%char ∉ chars s) /\ ("="%char ∉ chars s) /\ (","%char ∉ chars s).
Proof.
  unfold plain_token. rewrite andb_true_iff, negb_true_iff, forallb_elem_of.
  intros [He%String.eqb_neq Hc]. split; [done|]. split.
  { intros c [? _]%Hc%andb_true_iff. done. }
  split_and!; intros Hin%Hc; by vm_compute in Hin.
Qed.

Lemma solid_not_any s : all_solid s -> ContainsAny s [" "; "009"; "013"; "010"]%char = false.
Proof.
  unfold all_solid. induction s as [|c s IH]; cbn [chars ContainsAny]; intros Hs; [done|].
  rewrite IH by set_solver. rewrite orb_false_r.
  assert (solid c = true) as Hc by set_solver.
  by destruct c as [[] [] [] [] [] [] [] []].
Qed.

Lemma plain_valid_token s : plain_token s = true -> validSelectorToken s = true.
Proof.
  intros (He & Hs & _)%plain_token_spec. unfold validSelectorToken, str_empty.
  rewrite TrimSpace_solid by done. rewrite solid_not_any by done.
  by destruct (String.eqb_spec s "").
Qed.

Lemma plain_not_blank s : plain_token s = true -> blank s = false.
Proof.
  intros (He & Hs & _)%plain_token_spec. unfold blank, str_empty.
  rewrite TrimSpace_solid by done. by apply String.eqb_neq.
Qed.

Lemma HasPrefix_absent s a p : a ∉ chars s -> HasPrefix s (String a p) = false.
Proof.
  destruct s as [|c s]; [done|]. simpl. intros [Hca _]%not_elem_of_cons.
  unfold HasPrefix. simpl. by destruct (Ascii.eqb_spec a c).
Qed.

Lemma HasPrefix_app s t a :
  s <> "" -> a ∉ chars s -> HasPrefix (s +:+ t) (String a "") = false.
Proof.
  destruct s as [|c s]; [done|]. intros _. simpl. intros [Hca _]%not_elem_of_cons.
  unfold HasPrefix. change (String c s +:+ t) with (String c (s +:+ t)). simpl.
  by destruct (Ascii.eqb_spec a c).
Qed.

Lemma app_empty_r s : s +:+ "" = s.
Proof. apply chars_inj. by rewrite chars_app, app_nil_r. Qed.

(** A separator of two characters, the second absent from the tail. *)
Lemma Cut_two a b v :
  a ∉ chars v -> b ∉ chars v -> Cut (String a v) (String a (String b "")) = None.
Proof.
  intros Ha Hb. cbn [Cut strip_prefix]. rewrite Ascii.eqb_refl.
  destruct v as [|c v]; [done|]. cbn [strip_prefix].
  assert (Ascii.eqb b c = false) as ->.
  { apply Ascii.eqb_neq. intros ->. apply Hb. simpl. left. }
  by rewrite (Cut_None (String c v)).
Qed.

Lemma parse_print_requirement q :
  plain_requirement q = true -> parse_requirement (print_requirement q) = Some q.
Proof.
  unfold parse_requirement, str_contains, str_empty.
  destruct q as [k|k|k v|k v]; simpl print_requirement; simpl plain_requirement; intros Hq.
  - destruct (plain_token_spec k Hq) as (He & Hs & Hb & Heq & _).
    rewrite HasPrefix_absent, !Cut_None, (plain_valid_token k) by done.
    by destruct (String.eqb_spec k "").
  - destruct (plain_token_spec k Hq) as (He & Hs & Hb & Heq & _).
    change ("!" +:+ k) with (String "!" k). rewrite Cut_two by done.
    change (TrimPrefix (String "!" k) "!") with k.
    change (HasPrefix (String "!" k) "!") with true. simpl.
    by rewrite plain_valid_token, TrimSpace_solid by done.
  - apply andb_true_iff in Hq as [Hk Hv].
    destruct (plain_token_spec k Hk) as (He & Hs & Hb & Heq & _).
    destruct (plain_token_spec v Hv) as (Hve & Hvs & Hvb & Hveq & _).
    rewrite HasPrefix_app by done.
    rewrite (Cut_app _ _ "!"), (Cut_None ("=" +:+ v) "!"), !(Cut_app _ _ "=") by set_solver.
    change ("=" +:+ v) with (String "=" v). rewrite Cut_two by done.
    rewrite (Cut_app _ _ "=") by done.
    change (Cut (String "=" v) "=") with (Some ("", v)). cbn [andb]. cbn match. rewrite app_empty_r.
    rewrite (plain_valid_token k), plain_not_blank, !TrimSpace_solid by done.
    by destruct k.
  - apply andb_true_iff in Hq as [Hk Hv].
    destruct (plain_token_spec k Hk) as (He & Hs & Hb & Heq & _).
    destruct (plain_token_spec v Hv) as (Hve & Hvs & Hvb & Hveq & _).
    rewrite HasPrefix_app by done. rewrite (Cut_app _ _ "!") by done.
    change (Cut ("!=" +:+ v) "!=") with (Some ("", v)). cbn [andb]. cbn match. rewrite app_empty_r.
    rewrite (plain_valid_token k), plain_not_blank, !TrimSpace_solid by done.
    by destruct k.
Qed.

Lemma all_solid_app s t : all_solid (s +:+ t) <-> all_solid s /\ all_solid t.
Proof. unfold all_solid. rewrite chars_app. set_solver. Qed.

(** A piece of a selector that trimming and splitting leave alone. *)
Definition one_word (s : string) : Prop := all_solid s /\ (","%char ∉ chars s).

Lemma one_word_app s t : one_word s -> one_word t -> one_word (s +:+ t).
Proof. unfold one_word. rewrite all_solid_app, chars_app, not_elem_of_app. tauto. Qed.

Lemma one_word_plain s : plain_token s = true -> one_word s.
Proof. by intros (_ & ? & _ & _ & ?)%plain_token_spec. Qed.

Lemma one_word_operator s : s ∈ ["!"; "="; "!="] -> one_word s.
Proof.
  intros Hs. assert (s = "!" \/ s = "=" \/ s = "!=") as [-> | [-> | ->]] by set_solver.
  all: split; [|simpl; set_solver].
  all: intros c Hc; simpl in Hc; assert (c = "!"%char \/ c = "="%char) as [-> | ->]
    by set_solver; done.
Qed.

(** What is printed is solid and has no comma. *)
Lemma print_requirement_plain q :
  plain_requirement q = true ->
  print_requirement q <> "" /\ one_word (print_requirement q).
Proof.
  assert (forall s, plain_token s = true -> s <> "") as Hne.
  { by intros s (? & _)%plain_token_spec. }
  destruct q as [k|k|k v|k v]; cbn [plain_requirement print_requirement];
    rewrite ?andb_true_iff; intros Hq.
  - auto using one_word_plain.
  - split; [done|]. apply one_word_app; [apply one_word_operator; set_solver|].
    auto using one_word_plain.
  - destruct Hq as [Hk Hv]. split; [pose proof (Hne k Hk); by destruct k|].
    repeat apply one_word_app; [|apply one_word_operator; set_solver|];
      auto using one_word_plain.
  - destruct Hq as [Hk Hv]. split; [pose proof (Hne k Hk); by destruct k|].
    repeat apply one_word_app; [|apply one_word_operator; set_solver|];
      auto using one_word_plain.
Qed.

Lemma all_solid_Join l :
  (forall w, w ∈ l -> all_solid w) -> all_solid (Join l ",").
Proof.
  induction l as [|w [|v l] IH]; cbn [Join]; intros Hl.
  - intros c Hc. by apply elem_of_nil in Hc.
  - apply Hl. set_solver.
  - rewrite !all_solid_app. split_and!; [apply Hl; set_solver| |apply IH; set_solver].
    by intros c ->%list_elem_of_singleton.
Qed.

Lemma parse_print_selector qs :
  forallb plain_requirement qs = true -> parse_selector (print_selector qs) = Some qs.
Proof.
  rewrite forallb_elem_of. intros Hqs. unfold parse_selector, print_selector.
  assert (forall w, w ∈ print_requirement <$> qs -> w <> "" /\ one_word w) as Hw.
  { intros w (q & -> & Hq)%list_elem_of_fmap. by apply print_requirement_plain, Hqs. }
  rewrite TrimSpace_solid by (apply all_solid_Join; intros w Hin; by apply Hw).
  destruct qs as [|q qs]; [done|].
  destruct (str_empty (Join _ _)) eqn:He.
  { apply String.eqb_eq in He. exfalso. destruct (Hw (print_requirement q)) as [Hne _]; [set_solver|].
    rewrite fmap_cons in He. cbn [Join] in He.
    destruct (print_requirement <$> qs); [done|]. by destruct (print_requirement q). }
  rewrite split_Join by (done || (intros w Hin; by destruct (Hw w Hin) as (_ & _ & ?))).
  apply mapM_Some. apply Forall2_fmap_l, Forall_Forall2_diag, Forall_forall.
  intros q' Hq'. simpl. destruct (print_requirement_plain q') as (_ & Hs & _); [by apply Hqs|].
  rewrite TrimSpace_solid by done. by apply parse_print_requirement, Hqs.
Qed.

(** ** Properties *)

(** A namespace selector means exactly the conjunction of its parsed
    requirements, and fails closed: it matches a label set iff every
    comma-separated part is well formed and every requirement (existence,
    absence, equality, inequality) holds of the labels; the validator accepts
    exactly the selectors that parse. *)
Theorem selector_semantics selector labels :
  ValidNamespaceSelector selector = bool_decide (is_Some (parse_selector selector)) /\
  (MatchesNamespaceSelector selector labels = true <->
   exists qs, parse_selector selector = Some qs /\ Forall (req_holds labels) qs).
Proof. split; [apply valid_selector_parse|apply matches_selector_parse]. Qed.

(** Round trip of selectors: printing any list of requirements over plain
    keys and values gives a selector that is valid, parses back to the same
    requirements, and matches a label set iff all of them hold. *)
Theorem selector_roundtrip qs labels :
  forallb plain_requirement qs = true ->
  ValidNamespaceSelector (print_selector qs) = true /\
  parse_selector (print_selector qs) = Some qs /\
  (MatchesNamespaceSelector (print_selector qs) labels = true <-> Forall (req_holds labels) qs).
Proof.
  intros Hqs%parse_print_selector.
  rewrite valid_selector_parse, matches_selector_parse, Hqs.
  split_and!; [by rewrite bool_decide_true by eauto|done|naive_solver].
Qed.

Lemma selector_roundtrip_witness :
  MatchesNamespaceSelector "env=prod,tier!=db,!legacy,team"
    {["env" := "prod"; "team" := "core"]} = true.
Proof.
  apply (selector_roundtrip
    [ReqEquals "env" "prod"; ReqNotEquals "tier" "db"; ReqAbsent "legacy"; ReqExists "team"]
    {["env" := "prod"; "team" := "core"]}); [by vm_compute|].
  repeat (apply Forall_cons; split); [..|by apply Forall_nil]; [done..|by eexists].
Defined.
