(* ===== verification/ScopeHelpers.v ===== *)
(** * Helpers of the access service

    The pure helpers of [internal/application/access/service.go] and
    [platform_scope.go] on actions, text lists and resource scopes.

    A Go map ranged over has no fixed order: every theorem holds for every
    instance of the prelude's [MapRange]. *)

From Stdlib Require Import Ascii.
From S2P Require Import Prelude GoStrings AccessModel.

(** ** Text lists *)

Definition normalizedScopeType (value : string) : string :=
  let value := ToLower (TrimSpace value) in
  if str_empty value then ScopeTypeLegacy else value.

Definition normalizedEffect (value : string) : string :=
  let value := ToLower (TrimSpace value) in
  if str_empty value then "allow" else value.

Definition containsFold (values : list string) (expected : string) : bool :=
  let expected := TrimSpace expected in
  existsb (fun value => EqualFold (TrimSpace value) expected) values.

Definition matchesText (filters : list string) (value : string) : bool :=
  is_empty filters || containsFold filters value || containsFold filters "*".

Definition nonEmptyText (value : string) : list string :=
  let value := TrimSpace value in if str_empty value then [] else [value].

(** The non-blank values, trimmed. *)
Definition trimmed_values (values : list string) : list string :=
  filter (fun v => v <> "") (TrimSpace <$> values).

Definition addStrings (target : gset string) (values : list string) : gset string :=
  target ∪ list_to_set (trimmed_values values).

Definition uniqueSortedStrings (values : list string) : list string :=
  compact (sort_strings (trimmed_values values)).

Definition unionTextValues (left right : list string) : list string :=
  uniqueSortedStrings (left ++ right).

Definition sortedKeys `{MapRange} (items : gset string) : list string :=
  if bool_decide (items = ∅) then [] else sort_strings (range_keys items).

(** ** Actions *)

Definition intersectActions (left right : list Action) : list Action :=
  filter (fun action => contains right action = true) left.

Definition unionActions (left right : list Action) : list Action :=
  fold_left (fun out action => if negb (contains out action) then out ++ [action] else out)
    right left.

(** The union of the actions of the roles, in no particular order. *)
Definition roleActions `{MapRange} (matrix : gmap string (list Action)) (roles : list string)
    : list Action :=
  range_keys (list_to_set (roles ≫= lookup_default [] matrix)).

(** ** Delivery scope keys *)

(** Application groups are separated by [,], [;], [/] and the full-width comma
    and semicolon (U+FF0C, U+FF1B). *)
Fixpoint split_groups (s : string) : list string :=
  match s with
  | "" => [""]
  | String c r =>
      let keep := match split_groups r with
                  | w :: ws => String c w :: ws
                  | [] => [String c ""]
                  end in
      if existsb (Ascii.eqb c) [","; ";"; "/"]%char then "" :: split_groups r else
      match r with
      | String d (String e r2) =>
          if Ascii.eqb c "239" && Ascii.eqb d "188" && (Ascii.eqb e "140" || Ascii.eqb e "155")
          then "" :: split_groups r2 else keep
      | _ => keep
      end
  end.

Definition splitApplicationGroups (value : string) : list string :=
  trimmed_values (filter (fun item => item <> "") (split_groups value)).

Definition grantMatchesScopeKey (scopeKey businessLineID applicationGroup : string) : bool :=
  let scopeKey := TrimSpace scopeKey in
  if str_empty scopeKey then false
  else if String.eqb scopeKey (TrimSpace businessLineID) then true
  else existsb (String.eqb scopeKey) (splitApplicationGroups applicationGroup).

Definition grantMatchesDeliveryScope (grant : ScopeGrant) (delivery : DeliveryAttributes)
    (envKeyMap : gmap string string) : bool :=
  if negb (grantMatchesScopeKey (Grant_BusinessLineID grant) (Delivery_BusinessLineID delivery)
             (Delivery_ApplicationGroup delivery)) then false
  else if negb (is_empty (Grant_EnvironmentIDs grant)) &&
          negb (existsb (fun environmentID =>
                  String.eqb (lookup_default "" envKeyMap environmentID) (Delivery_EnvironmentKey delivery) ||
                  String.eqb environmentID (Delivery_EnvironmentKey delivery))
                (Grant_EnvironmentIDs grant)) then false
  else if negb (is_empty (Grant_ApplicationIDs grant)) &&
          negb (contains (Grant_ApplicationIDs grant) (Delivery_ApplicationID delivery)) then false
  else true.

Definition bindingMatchesScopeGrant (binding : ApplicationEnvironment) (grant : ScopeGrant)
    (envKeyMap : gmap string string) : bool :=
  if negb (grantMatchesScopeKey (Grant_BusinessLineID grant) (Binding_BusinessLineID binding)
             (Binding_ApplicationGroup binding)) then false
  else if negb (is_empty (Grant_EnvironmentIDs grant)) &&
          negb (existsb (fun environmentID =>
                  String.eqb environmentID (Binding_EnvironmentID binding) ||
                  String.eqb environmentID (Binding_EnvironmentKey binding) ||
                  String.eqb (lookup_default "" envKeyMap environmentID) (Binding_EnvironmentKey binding))
                (Grant_EnvironmentIDs grant)) then false
  else if negb (is_empty (Grant_ApplicationIDs grant)) &&
          negb (contains (Grant_ApplicationIDs grant) (Binding_ApplicationID binding)) then false
  else true.

Definition hasDeliveryScopeAttributes (request : Request) : bool :=
  let delivery := Request_Delivery request in
  negb (blank (Delivery_BusinessLineID delivery)) ||
  negb (blank (Delivery_ApplicationGroup delivery)) ||
  negb (blank (Delivery_EnvironmentKey delivery)) ||
  negb (blank (Delivery_ApplicationID delivery)).

Definition isClusterlessDeliveryRequest (request : Request) : bool :=
  if negb (blank (Cluster_ClusterID (Request_Cluster request))) then false
  else hasDeliveryScopeAttributes request.

Definition shouldApplyPlatformScope (request : Request) : bool :=
  if str_empty (Cluster_ClusterID (Request_Cluster request)) then false
  else if String.eqb (Resource_Kind (Request_Resource request)) "Cluster"
  then String.eqb (Request_Action request) ActionView || String.eqb (Request_Action request) ActionList
  else true.

Definition isNamespaceDiscovery (request : Request) : bool :=
  String.eqb (Request_Action request) ActionList &&
  EqualFold (Resource_Kind (Request_Resource request)) "Namespace".

(** ** Resource scopes *)

Definition unionScopeValues (left right : list string) : list string :=
  compact (sort_strings (left ++ right)).

Definition intersectScopeValues (left right : list string) : list string :=
  if is_empty left then right
  else if is_empty right then left
  else filter (fun item => contains right item = true) left.

Definition pickScopeLabelSelector (left right : string) : string :=
  if negb (str_empty left) then left else right.

Definition cloneResourceScope (scope : option ResourceScope) : option ResourceScope :=
  match scope with
  | None => None
  | Some s => Some
      {| Scope_Clusters := Scope_Clusters s; Scope_Namespaces := Scope_Namespaces s;
         Scope_ExcludedNamespaces := Scope_ExcludedNamespaces s;
         Scope_LabelSelector := Scope_LabelSelector s;
         Scope_NamespaceSelectors := Scope_NamespaceSelectors s;
         Scope_ExcludedNamespaceSelectors := Scope_ExcludedNamespaceSelectors s;
         Scope_ResourceGroups := Scope_ResourceGroups s;
         Scope_ResourceKinds := Scope_ResourceKinds s |}
  end.

Definition mergeResourceScopes (left right : option ResourceScope) : option ResourceScope :=
  match left, right with
  | None, _ => cloneResourceScope right
  | _, None => cloneResourceScope left
  | Some l, Some r => Some
      {| Scope_Clusters := intersectScopeValues (Scope_Clusters l) (Scope_Clusters r);
         Scope_Namespaces := intersectScopeValues (Scope_Namespaces l) (Scope_Namespaces r);
         Scope_ExcludedNamespaces :=
           unionScopeValues (Scope_ExcludedNamespaces l) (Scope_ExcludedNamespaces r);
         Scope_LabelSelector := pickScopeLabelSelector (Scope_LabelSelector l) (Scope_LabelSelector r);
         Scope_NamespaceSelectors :=
           unionScopeValues (Scope_NamespaceSelectors l) (Scope_NamespaceSelectors r);
         Scope_ExcludedNamespaceSelectors :=
           unionScopeValues (Scope_ExcludedNamespaceSelectors l) (Scope_ExcludedNamespaceSelectors r);
         Scope_ResourceGroups := intersectScopeValues (Scope_ResourceGroups l) (Scope_ResourceGroups r);
         Scope_ResourceKinds := intersectScopeValues (Scope_ResourceKinds l) (Scope_ResourceKinds r) |}
  end.

Definition denyScopeGrantDecision (decision : Decision) (reason : string) : Decision :=
  set_Decision_AllowedActions [] (set_Decision_Reason reason (set_Decision_Allowed false decision)).

(** ** Lemmas *)

Lemma elem_of_trimmed_values values x :
  x ∈ trimmed_values values <-> x <> "" /\ exists v, v ∈ values /\ x = TrimSpace v.
Proof.
  unfold trimmed_values. rewrite list_elem_of_filter, list_elem_of_fmap. naive_solver.
Qed.

Lemma trimmed_values_app l1 l2 : trimmed_values (l1 ++ l2) = trimmed_values l1 ++ trimmed_values l2.
Proof. unfold trimmed_values. by rewrite fmap_app, filter_app. Qed.

Lemma elem_of_uniqueSortedStrings values x :
  x ∈ uniqueSortedStrings values <-> x ∈ trimmed_values values.
Proof. unfold uniqueSortedStrings. by rewrite elem_of_compact, elem_of_sort_strings. Qed.

(** Sorting and compacting depends on the elements only. *)
Lemma compact_sort_ext l1 l2 :
  (forall x, x ∈ l1 <-> x ∈ l2) -> compact (sort_strings l1) = compact (sort_strings l2).
Proof.
  intros Hx. apply sorted_strings_ext.
  1,2: apply Sorted_compact, sort_strings_sorted; apply _.
  1,2: eapply NoDup_compact, sort_strings_sorted; apply _.
  intros x. by rewrite !elem_of_compact, !elem_of_sort_strings.
Qed.

Lemma uniqueSortedStrings_ext l1 l2 :
  (forall x, x ∈ trimmed_values l1 <-> x ∈ trimmed_values l2) ->
  uniqueSortedStrings l1 = uniqueSortedStrings l2.
Proof. apply compact_sort_ext. Qed.

Section ranges.
Context `{MapRange}.

Lemma elem_of_range_keys s x : x ∈ range_keys s <-> x ∈ s.
Proof. by rewrite range_keys_perm, elem_of_elements. Qed.

Lemma elem_of_sortedKeys s x : x ∈ sortedKeys s <-> x ∈ s.
Proof.
  unfold sortedKeys. case_bool_decide as Hs; [set_solver|].
  by rewrite elem_of_sort_strings, elem_of_range_keys.
Qed.

Lemma sortedKeys_empty s : sortedKeys s = [] <-> s = ∅.
Proof.
  split; [|intros ->; unfold sortedKeys; by case_bool_decide].
  intros Hs. apply set_eq. intros x. rewrite <-elem_of_sortedKeys, Hs. set_solver.
Qed.

Lemma sortedKeys_singleton x : sortedKeys {[x]} = [x].
Proof.
  unfold sortedKeys. case_bool_decide; [set_solver|].
  assert (range_keys {[x]} = [x]) as ->; [|done].
  apply Permutation_singleton_r. by rewrite range_keys_perm, elements_singleton.
Qed.

Lemma elem_of_roleActions matrix roles a :
  a ∈ roleActions matrix roles <-> exists r, r ∈ roles /\ a ∈ lookup_default [] matrix r.
Proof.
  unfold roleActions. rewrite elem_of_range_keys, elem_of_list_to_set, list_elem_of_bind. naive_solver.
Qed.

End ranges.

Lemma elem_of_intersectActions l r a : a ∈ intersectActions l r <-> a ∈ l /\ a ∈ r.
Proof. unfold intersectActions. rewrite list_elem_of_filter, contains_true. tauto. Qed.

Lemma intersectActions_ext l r1 r2 :
  (forall a, a ∈ r1 <-> a ∈ r2) -> intersectActions l r1 = intersectActions l r2.
Proof.
  intros Hr. unfold intersectActions. apply list_filter_iff. intros a.
  by rewrite !contains_true.
Qed.

Lemma elem_of_unionActions l r a : a ∈ unionActions l r <-> a ∈ l \/ a ∈ r.
Proof.
  unfold unionActions. revert l. induction r as [|b r IH]; intros l; simpl; [set_solver|].
  rewrite IH. destruct (contains l b) eqn:Hb; simpl.
  - apply contains_true in Hb. set_solver.
  - set_solver.
Qed.

Lemma elem_of_addStrings s values x : x ∈ addStrings s values <-> x ∈ s \/ x ∈ trimmed_values values.
Proof. unfold addStrings. rewrite elem_of_union, elem_of_list_to_set. done. Qed.

Lemma elem_of_unionScopeValues l r x : x ∈ unionScopeValues l r <-> x ∈ l \/ x ∈ r.
Proof. unfold unionScopeValues. by rewrite elem_of_compact, elem_of_sort_strings, elem_of_app. Qed.

Lemma denyScopeGrantDecision_denied d r :
  Decision_Allowed (denyScopeGrantDecision d r) = false /\
  Decision_AllowedActions (denyScopeGrantDecision d r) = [].
Proof. done. Qed.

#[export] Hint Rewrite @elem_of_intersectActions @elem_of_unionActions @elem_of_addStrings
  @elem_of_unionScopeValues @elem_of_sortedKeys @elem_of_uniqueSortedStrings : soha.
