(* ===== verification/PlatformScope.v ===== *)
(** * Platform scope grants

    [internal/application/access/platform_scope.go]: the restriction of an
    access decision by the scope grants of its subject.  Each grant that is
    about the cluster and the resource is projected to the namespaces it
    covers; the projections are folded into an accumulator, and a denying
    projection ends the evaluation. *)

From S2P Require Import Prelude GoStrings AccessModel NamespaceSelector ScopeHelpers.

Record platformGrantProjection := {
  projection_grant : ScopeGrant;
  projection_namespaces : list string;
  projection_selectors : list string;
  projection_unrestricted : bool
}.

Record platformScopeAccumulator := {
  allowedNamespaces : gset string;
  deniedNamespaces : gset string;
  allowedSelectors : list string;
  deniedSelectors : list string;
  allowedGroups : list string;
  allowedKinds : list string;
  matchedActions : list Action;
  allowUnrestricted : bool;
  namespaceActions : bool
}.

Definition newPlatformScopeAccumulator : platformScopeAccumulator :=
  {| allowedNamespaces := ∅; deniedNamespaces := ∅; allowedSelectors := [];
     deniedSelectors := []; allowedGroups := []; allowedKinds := []; matchedActions := [];
     allowUnrestricted := false; namespaceActions := false |}.

(** ** Projection of grants *)

Definition platformGrantMatchesResource (grant : ScopeGrant) (request : Request) : bool :=
  if isNamespaceDiscovery request then
    negb (String.eqb (normalizedEffect (Grant_Effect grant)) "deny" &&
          (negb (is_empty (Grant_ResourceGroups grant)) || negb (is_empty (Grant_ResourceKinds grant))))
  else if negb (is_empty (Grant_ResourceGroups grant)) &&
          negb (containsFold (Grant_ResourceGroups grant) (Resource_Group (Request_Resource request)))
  then false
  else is_empty (Grant_ResourceKinds grant) ||
       containsFold (Grant_ResourceKinds grant) (Resource_Kind (Request_Resource request)).

(** The enabled targets of the bindings of a grant, on one cluster. *)
Definition legacy_targets (grant : ScopeGrant) (clusterID : string)
    (envKeyMap : gmap string string) (bindings : list ApplicationEnvironment) : list ReleaseTarget :=
  filter (fun target => Target_Enabled target = true /\ TrimSpace (Target_ClusterID target) = clusterID)
    (filter (fun b => bindingMatchesScopeGrant b grant envKeyMap = true) bindings ≫= Binding_Targets).

Definition legacyGrantNamespaces `{MapRange} (grant : ScopeGrant) (clusterID : string)
    (envKeyMap : gmap string string) (bindings : list ApplicationEnvironment) : list string * bool :=
  let targets := legacy_targets grant clusterID envKeyMap bindings in
  (sortedKeys (list_to_set (trimmed_values (Target_Namespace <$> targets))),
   negb (is_empty targets)).

(** The body of the loop over the grants: no projection or one. *)
Definition project_grant `{MapRange} (request : Request) (envKeyMap : gmap string string)
    (bindings : list ApplicationEnvironment) (grant : ScopeGrant) : option platformGrantProjection :=
  let scopeType := normalizedScopeType (Grant_ScopeType grant) in
  let clusterID := Cluster_ClusterID (Request_Cluster request) in
  if String.eqb scopeType ScopeTypeDelivery then None
  else if String.eqb scopeType ScopeTypePlatform then
    if negb (platformGrantMatchesResource grant request) || negb (matchesText (Grant_ClusterIDs grant) clusterID)
    then None
    else
      let selectors := nonEmptyText (Grant_NamespaceSelector grant) in
      Some {| projection_grant := grant;
              projection_namespaces := uniqueSortedStrings (Grant_Namespaces grant);
              projection_selectors := selectors;
              projection_unrestricted := is_empty (Grant_Namespaces grant) && is_empty selectors |}
  else
    let '(namespaces, clusterMatched) := legacyGrantNamespaces grant clusterID envKeyMap bindings in
    if clusterMatched
    then Some {| projection_grant := grant; projection_namespaces := namespaces;
                 projection_selectors := []; projection_unrestricted := false |}
    else None.

Definition projectPlatformGrants `{MapRange} (request : Request) (grants : list ScopeGrant)
    (envKeyMap : gmap string string) (bindings : list ApplicationEnvironment)
    : list platformGrantProjection :=
  omap (project_grant request envKeyMap bindings) grants.

Definition projectionMatchesNamespace (projection : platformGrantProjection)
    (namespace : NamespaceAttributes) : bool :=
  if projection_unrestricted projection then true
  else if containsFold (projection_namespaces projection) (Namespace_Namespace namespace) then true
  else existsb (fun selector =>
         MatchesNamespaceSelector selector (default ∅ (Namespace_Labels namespace)))
         (projection_selectors projection).

(** ** The accumulator *)

Definition grantAllowsNamespaceActions (grant : ScopeGrant) : bool :=
  if String.eqb (normalizedScopeType (Grant_ScopeType grant)) ScopeTypeLegacy then true
  else if is_empty (Grant_ResourceGroups grant) && is_empty (Grant_ResourceKinds grant) then true
  else containsFold (Grant_ResourceGroups grant) "inventory" ||
       containsFold (Grant_ResourceKinds grant) "Namespace".

(** The accumulator after the call and the reason of a denial ([""]: none). *)
Definition consumeDeny (a : platformScopeAccumulator) (projection : platformGrantProjection)
    (request : Request) (matchesNamespace : bool) : platformScopeAccumulator * string :=
  let namespace := Request_Namespace request in
  let labels := Namespace_Labels namespace in
  if negb (str_empty (Namespace_Namespace namespace)) then
    let selectorCannotBeEvaluated :=
      negb (is_empty (projection_selectors projection)) &&
      bool_decide (default ∅ labels = ∅) &&
      (negb (Request_RequireNamespaceLabels request) || bool_decide (labels = None)) in
    if matchesNamespace || selectorCannotBeEvaluated
    then (a, "scope grant explicitly denies this namespace or resource")
    else (a, "")
  else if projection_unrestricted projection
  then (a, "scope grant explicitly denies this cluster resource scope")
  else
    ({| allowedNamespaces := allowedNamespaces a;
        deniedNamespaces := addStrings (deniedNamespaces a) (projection_namespaces projection);
        allowedSelectors := allowedSelectors a;
        deniedSelectors := deniedSelectors a ++ projection_selectors projection;
        allowedGroups := allowedGroups a; allowedKinds := allowedKinds a;
        matchedActions := matchedActions a; allowUnrestricted := allowUnrestricted a;
        namespaceActions := namespaceActions a |}, "").

Definition consume (a : platformScopeAccumulator) (projection : platformGrantProjection)
    (request : Request) (roleMatrix : gmap string (list Action)) : platformScopeAccumulator * string :=
  let matchesNamespace := projectionMatchesNamespace projection (Request_Namespace request) in
  let grant := projection_grant projection in
  let actions := lookup_default [] roleMatrix (Grant_Role grant) in
  if String.eqb (normalizedEffect (Grant_Effect grant)) "deny"
  then consumeDeny a projection request matchesNamespace
  else if Request_RequireClusterWideNamespace request && negb (contains actions (Request_Action request))
  then (a, "")
  else if negb (str_empty (Namespace_Namespace (Request_Namespace request))) && negb matchesNamespace
  then (a, "")
  else
    ({| allowedNamespaces := addStrings (allowedNamespaces a) (projection_namespaces projection);
        deniedNamespaces := deniedNamespaces a;
        allowedSelectors := allowedSelectors a ++ projection_selectors projection;
        deniedSelectors := deniedSelectors a;
        allowedGroups := unionTextValues (allowedGroups a) (Grant_ResourceGroups grant);
        allowedKinds := unionTextValues (allowedKinds a) (Grant_ResourceKinds grant);
        matchedActions := unionActions (matchedActions a) actions;
        allowUnrestricted := allowUnrestricted a || projection_unrestricted projection;
        namespaceActions := namespaceActions a || grantAllowsNamespaceActions grant |}, "").

Definition selectorOnlyListCannotBeEnforced (a : platformScopeAccumulator) (request : Request) : bool :=
  str_empty (Namespace_Namespace (Request_Namespace request)) && negb (allowUnrestricted a) &&
  bool_decide (allowedNamespaces a = ∅) && negb (is_empty (allowedSelectors a)) &&
  negb (isNamespaceDiscovery request).

(** The selectors of a projection need labels the request does not carry. *)
Definition needs_labels (request : Request) (projection : platformGrantProjection) : bool :=
  Request_RequireNamespaceLabels request &&
  negb (str_empty (Namespace_Namespace (Request_Namespace request))) &&
  bool_decide (Namespace_Labels (Request_Namespace request) = None) &&
  negb (is_empty (projection_selectors projection)).

(** The loop over the projections: a denial or the final accumulator. *)
Fixpoint consume_all (request : Request) (decision : Decision) (roleMatrix : gmap string (list Action))
    (a : platformScopeAccumulator) (projections : list platformGrantProjection)
    : Decision + platformScopeAccumulator :=
  match projections with
  | [] => inr a
  | projection :: rest =>
      if needs_labels request projection then
        inl (set_Decision_ReasonCode ReasonNamespaceLabelsRequired
          (denyScopeGrantDecision decision "namespace labels are required to evaluate a scope grant"))
      else
        let '(a', reason) := consume a projection request roleMatrix in
        if negb (str_empty reason) then inl (denyScopeGrantDecision decision reason)
        else consume_all request decision roleMatrix a' rest
  end.

Definition clear_allowedSelectors (a : platformScopeAccumulator) : platformScopeAccumulator :=
  {| allowedNamespaces := allowedNamespaces a; deniedNamespaces := deniedNamespaces a;
     allowedSelectors := []; deniedSelectors := deniedSelectors a;
     allowedGroups := allowedGroups a; allowedKinds := allowedKinds a;
     matchedActions := matchedActions a; allowUnrestricted := allowUnrestricted a;
     namespaceActions := namespaceActions a |}.

(** The scope of an allowed request. *)
Definition granted_scope `{MapRange} (request : Request) (a : platformScopeAccumulator) : ResourceScope :=
  let namespace := Namespace_Namespace (Request_Namespace request) in
  let named := negb (str_empty namespace) in
  let allowed := if named then {[ namespace ]} else allowedNamespaces a in
  let unrestricted := if named then false else allowUnrestricted a in
  let selectors := uniqueSortedStrings (allowedSelectors a) in
  {| Scope_Clusters := [Cluster_ClusterID (Request_Cluster request)];
     Scope_Namespaces := if negb unrestricted then sortedKeys allowed else [];
     Scope_ExcludedNamespaces := sortedKeys (deniedNamespaces a);
     Scope_LabelSelector := match selectors with [selector] => selector | _ => "" end;
     Scope_NamespaceSelectors := selectors;
     Scope_ExcludedNamespaceSelectors := uniqueSortedStrings (deniedSelectors a);
     Scope_ResourceGroups := uniqueSortedStrings (allowedGroups a);
     Scope_ResourceKinds := uniqueSortedStrings (allowedKinds a) |}.

(** What follows the loop. *)
Definition conclude_platform_scope `{MapRange} (request : Request) (decision : Decision)
    (a : platformScopeAccumulator) : Decision :=
  if is_empty (matchedActions a)
  then denyScopeGrantDecision decision "scope grant does not allow this namespace or action"
  else if Request_RequireClusterWideNamespace request && negb (allowUnrestricted a)
  then denyScopeGrantDecision decision "scope grant does not allow this action across all namespaces"
  else
  let a := if Request_RequireClusterWideNamespace request then clear_allowedSelectors a else a in
  if selectorOnlyListCannotBeEnforced a request
  then denyScopeGrantDecision decision
    "namespace selector scope requires an explicit namespace for this resource list"
  else
  let actions := intersectActions (Decision_AllowedActions decision) (matchedActions a) in
  let actions := if isNamespaceDiscovery request && negb (namespaceActions a)
                 then intersectActions actions [ActionView; ActionList; ActionWatch] else actions in
  let decision := set_Decision_AllowedActions actions decision in
  if is_empty actions
  then denyScopeGrantDecision decision "scope grant filtered out effective platform actions"
  else
  let decision := set_Decision_Allowed (contains actions (Request_Action request)) decision in
  if negb (Decision_Allowed decision)
  then set_Decision_Reason
    ("action " +:+ Request_Action request +:+ " filtered out by platform scope grant") decision
  else set_Decision_ResourceScope
    (mergeResourceScopes (Decision_ResourceScope decision) (Some (granted_scope request a))) decision.

Definition evaluatePlatformScopeGrants `{MapRange} (request : Request) (decision : Decision)
    (roleMatrix : gmap string (list Action)) (grants : list ScopeGrant)
    (envKeyMap : gmap string string) (applicationEnvironments : list ApplicationEnvironment) : Decision :=
  let projections := projectPlatformGrants request grants envKeyMap applicationEnvironments in
  if is_empty projections
  then denyScopeGrantDecision decision "scope grant does not allow this cluster or resource"
  else match consume_all request decision roleMatrix newPlatformScopeAccumulator projections with
       | inl denied => denied
       | inr a => conclude_platform_scope request decision a
       end.

(** ** Specification *)

(** The projection ends the evaluation with a denial. *)
Definition blocks (request : Request) (p : platformGrantProjection) : bool :=
  needs_labels request p ||
  String.eqb (normalizedEffect (Grant_Effect (projection_grant p))) "deny" &&
  (if negb (str_empty (Namespace_Namespace (Request_Namespace request)))
   then projectionMatchesNamespace p (Request_Namespace request) ||
        negb (is_empty (projection_selectors p)) &&
        bool_decide (default ∅ (Namespace_Labels (Request_Namespace request)) = ∅) &&
        (negb (Request_RequireNamespaceLabels request) ||
         bool_decide (Namespace_Labels (Request_Namespace request) = None))
   else projection_unrestricted p).

(** The actions the role of a projection carries. *)
Definition projection_actions (roleMatrix : gmap string (list Action)) (p : platformGrantProjection)
    : list Action :=
  lookup_default [] roleMatrix (Grant_Role (projection_grant p)).

(** The projection contributes to what is allowed. *)
Definition contributes (request : Request) (roleMatrix : gmap string (list Action))
    (p : platformGrantProjection) : bool :=
  negb (String.eqb (normalizedEffect (Grant_Effect (projection_grant p))) "deny") &&
  negb (Request_RequireClusterWideNamespace request &&
        negb (contains (projection_actions roleMatrix p) (Request_Action request))) &&
  negb (negb (str_empty (Namespace_Namespace (Request_Namespace request))) &&
        negb (projectionMatchesNamespace p (Request_Namespace request))).

(** A restricted list can be enforced: the kept scope is the whole cluster, has
    a namespace, or has no selector; or the request lists the namespaces. *)
Definition enforceable (request : Request) (kept : list platformGrantProjection) : Prop :=
  Namespace_Namespace (Request_Namespace request) <> "" \/
  isNamespaceDiscovery request = true \/
  (exists p, p ∈ kept /\ projection_unrestricted p = true) \/
  (exists p, p ∈ kept /\ trimmed_values (projection_namespaces p) <> []) \/
  (forall p, p ∈ kept -> projection_selectors p = []).

(** The declarative meaning of the evaluation: when a request is allowed. *)
Definition platform_allows (request : Request) (actions : list Action)
    (roleMatrix : gmap string (list Action)) (projections : list platformGrantProjection) : Prop :=
  let kept := filter (fun p => contributes request roleMatrix p = true) projections in
  Request_Action request ∈ actions /\
  (forall p, p ∈ projections -> blocks request p = false) /\
  (exists p, p ∈ kept /\ Request_Action request ∈ projection_actions roleMatrix p) /\
  (Request_RequireClusterWideNamespace request = true ->
     exists p, p ∈ kept /\ projection_unrestricted p = true) /\
  enforceable request kept.

(** One step of the accumulator, when it does not end the evaluation. *)
Definition absorb (request : Request) (roleMatrix : gmap string (list Action))
    (a : platformScopeAccumulator) (p : platformGrantProjection) : platformScopeAccumulator :=
  fst (consume a p request roleMatrix).

(** The projection takes a part of the cluster away from a list. *)
Definition excludes (request : Request) (p : platformGrantProjection) : bool :=
  String.eqb (normalizedEffect (Grant_Effect (projection_grant p))) "deny" &&
  str_empty (Namespace_Namespace (Request_Namespace request)) &&
  negb (projection_unrestricted p).

(** ** Lemmas *)

Lemma trimmed_values_unique l x :
  x ∈ trimmed_values (uniqueSortedStrings l) <-> x ∈ trimmed_values l.
Proof.
  rewrite elem_of_trimmed_values. setoid_rewrite elem_of_uniqueSortedStrings.
  setoid_rewrite elem_of_trimmed_values. split.
  - intros (? & v & (? & w & ? & ->) & ->). rewrite TrimSpace_idem in *. eauto.
  - intros (? & v & ? & ->). split; [done|]. exists (TrimSpace v).
    rewrite TrimSpace_idem. eauto 10.
Qed.

Lemma trimmed_values_union l r x :
  x ∈ trimmed_values (unionTextValues l r) <-> x ∈ trimmed_values l \/ x ∈ trimmed_values r.
Proof.
  unfold unionTextValues. by rewrite trimmed_values_unique, trimmed_values_app, elem_of_app.
Qed.

Section consume.
Context (request : Request) (roleMatrix : gmap string (list Action)).
Implicit Types (p : platformGrantProjection) (a : platformScopeAccumulator).

(** The reason of [consume] does not depend on what was accumulated. *)
Lemma consume_reason a p :
  needs_labels request p = false ->
  str_empty (snd (consume a p request roleMatrix)) = negb (blocks request p).
Proof.
  intros Hn. unfold consume, consumeDeny, blocks. rewrite Hn.
  destruct (_ =? "deny")%string; simpl; [|by case_guards].
  destruct (str_empty (Namespace_Namespace _)); simpl;
    [by destruct (projection_unrestricted p)|].
  by destruct (projectionMatchesNamespace p _ || _).
Qed.

Lemma consume_all_spec decision a projections :
  if existsb (blocks request) projections
  then exists denied, consume_all request decision roleMatrix a projections = inl denied /\
         Decision_Allowed denied = false /\ Decision_AllowedActions denied = []
  else consume_all request decision roleMatrix a projections =
         inr (fold_left (absorb request roleMatrix) projections a).
Proof.
  revert a. induction projections as [|p ps IH]; intros a; simpl; [done|].
  destruct (needs_labels request p) eqn:Hn.
  { unfold blocks at 1. rewrite Hn. simpl. eauto. }
  pose proof (consume_reason a p Hn) as Hr.
  specialize (IH (absorb request roleMatrix a p)).
  destruct (consume a p request roleMatrix) as [a' reason] eqn:Hc; simpl in Hr. rewrite Hr.
  assert (absorb request roleMatrix a p = a') as Ha by (unfold absorb; by rewrite Hc).
  destruct (blocks request p); simpl; [eauto|]. rewrite Ha in *. done.
Qed.

(** A field that only grows holds what the steps put there. *)
Lemma fold_absorb (F : platformScopeAccumulator -> Prop) (G : platformGrantProjection -> Prop)
    (Hstep : forall a p, F (absorb request roleMatrix a p) <-> F a \/ G p) projections a :
  F (fold_left (absorb request roleMatrix) projections a) <->
  F a \/ exists p, p ∈ projections /\ G p.
Proof.
  revert a. induction projections as [|p ps IH]; intros a; simpl; [set_solver|].
  rewrite IH, Hstep. set_solver.
Qed.

Ltac step_field :=
  intros; unfold absorb, consume, consumeDeny, contributes, excludes, projection_actions;
  case_guards; bool_prop; simplify_eq/=; autorewrite with soha; rewrite ?trimmed_values_union, ?elem_of_app,
    ?orb_true_iff; try tauto;
  repeat match goal with H : _ = _ |- _ => rewrite H in * end; simpl in *; try tauto;
  try (split; [tauto|]; by intros [?|[? ?]]).

Lemma absorb_matched x a p :
  x ∈ matchedActions (absorb request roleMatrix a p) <->
  x ∈ matchedActions a \/ contributes request roleMatrix p = true /\ x ∈ projection_actions roleMatrix p.
Proof. step_field. Qed.

Lemma absorb_unrestricted a p :
  allowUnrestricted (absorb request roleMatrix a p) = true <->
  allowUnrestricted a = true \/
  contributes request roleMatrix p = true /\ projection_unrestricted p = true.
Proof. step_field. Qed.

Lemma absorb_namespaces x a p :
  x ∈ allowedNamespaces (absorb request roleMatrix a p) <->
  x ∈ allowedNamespaces a \/
  contributes request roleMatrix p = true /\ x ∈ trimmed_values (projection_namespaces p).
Proof. step_field. Qed.

Lemma absorb_selectors x a p :
  x ∈ allowedSelectors (absorb request roleMatrix a p) <->
  x ∈ allowedSelectors a \/
  contributes request roleMatrix p = true /\ x ∈ projection_selectors p.
Proof. step_field. Qed.

Lemma absorb_groups x a p :
  x ∈ trimmed_values (allowedGroups (absorb request roleMatrix a p)) <->
  x ∈ trimmed_values (allowedGroups a) \/
  contributes request roleMatrix p = true /\
  x ∈ trimmed_values (Grant_ResourceGroups (projection_grant p)).
Proof. step_field. Qed.

Lemma absorb_kinds x a p :
  x ∈ trimmed_values (allowedKinds (absorb request roleMatrix a p)) <->
  x ∈ trimmed_values (allowedKinds a) \/
  contributes request roleMatrix p = true /\
  x ∈ trimmed_values (Grant_ResourceKinds (projection_grant p)).
Proof. step_field. Qed.

Lemma absorb_namespaceActions a p :
  namespaceActions (absorb request roleMatrix a p) = true <->
  namespaceActions a = true \/
  contributes request roleMatrix p = true /\ grantAllowsNamespaceActions (projection_grant p) = true.
Proof. step_field. Qed.

Lemma absorb_denied x a p :
  x ∈ deniedNamespaces (absorb request roleMatrix a p) <->
  x ∈ deniedNamespaces a \/
  excludes request p = true /\ x ∈ trimmed_values (projection_namespaces p).
Proof. step_field. Qed.

Lemma absorb_deniedSelectors x a p :
  x ∈ deniedSelectors (absorb request roleMatrix a p) <->
  x ∈ deniedSelectors a \/ excludes request p = true /\ x ∈ projection_selectors p.
Proof. step_field. Qed.
End consume.

(** ** Accumulators up to the order of their contents *)

Definition same_elements (l1 l2 : list string) : Prop := forall x, x ∈ l1 <-> x ∈ l2.

#[export] Instance same_elements_equiv : Equivalence same_elements.
Proof. unfold same_elements. split; [by intros ?|by intros ? ? ?|]. intros l1 l2 l3 H1 H2 x. by rewrite H1. Qed.

Record acc_equiv (a b : platformScopeAccumulator) : Prop := {
  eq_allowedNamespaces : allowedNamespaces a = allowedNamespaces b;
  eq_deniedNamespaces : deniedNamespaces a = deniedNamespaces b;
  eq_allowedSelectors : same_elements (allowedSelectors a) (allowedSelectors b);
  eq_deniedSelectors : same_elements (deniedSelectors a) (deniedSelectors b);
  eq_allowedGroups : same_elements (trimmed_values (allowedGroups a)) (trimmed_values (allowedGroups b));
  eq_allowedKinds : same_elements (trimmed_values (allowedKinds a)) (trimmed_values (allowedKinds b));
  eq_matchedActions : same_elements (matchedActions a) (matchedActions b);
  eq_allowUnrestricted : allowUnrestricted a = allowUnrestricted b;
  eq_namespaceActions : namespaceActions a = namespaceActions b
}.

#[export] Instance is_empty_proper : Proper (same_elements ==> eq) (@is_empty string).
Proof.
  intros l1 l2 Hl. destruct l1 as [|x l1], l2 as [|y l2]; try done; exfalso.
  - specialize (Hl y). set_solver.
  - specialize (Hl x). set_solver.
Qed.

#[export] Instance uniqueSortedStrings_proper : Proper (same_elements ==> eq) uniqueSortedStrings.
Proof.
  intros l1 l2 Hl. apply uniqueSortedStrings_ext. intros x.
  rewrite !elem_of_trimmed_values. unfold same_elements in Hl. by setoid_rewrite Hl.
Qed.

#[export] Instance intersectActions_proper l : Proper (same_elements ==> eq) (intersectActions l).
Proof. intros r1 r2 Hr. by apply intersectActions_ext. Qed.

#[export] Instance clear_allowedSelectors_proper : Proper (acc_equiv ==> acc_equiv) clear_allowedSelectors.
Proof. intros a b []. by split. Qed.

Section conclude.
Context `{MapRange}.

#[export] Instance granted_scope_proper request : Proper (acc_equiv ==> eq) (granted_scope request).
Proof.
  intros a b []. unfold granted_scope.
  rewrite eq_allowedNamespaces0, eq_deniedNamespaces0, eq_allowedSelectors0, eq_deniedSelectors0,
    eq_allowUnrestricted0.
  by rewrite (uniqueSortedStrings_ext _ _ eq_allowedGroups0), (uniqueSortedStrings_ext _ _ eq_allowedKinds0).
Qed.

#[export] Instance selectorOnly_proper :
  Proper (acc_equiv ==> eq ==> eq) selectorOnlyListCannotBeEnforced.
Proof.
  intros a b Hab request ? <-. unfold selectorOnlyListCannotBeEnforced.
  by rewrite (eq_allowUnrestricted _ _ Hab), (eq_allowedNamespaces _ _ Hab), (eq_allowedSelectors _ _ Hab).
Qed.

(** The conclusion does not depend on the order in which grants were consumed. *)
#[export] Instance conclude_proper request decision :
  Proper (acc_equiv ==> eq) (conclude_platform_scope request decision).
Proof.
  intros a b Hab. unfold conclude_platform_scope.
  rewrite (eq_matchedActions _ _ Hab), (eq_allowUnrestricted _ _ Hab).
  destruct (is_empty _); [done|]. destruct (_ && negb (allowUnrestricted b)); [done|].
  set (a' := if Request_RequireClusterWideNamespace request then _ else a).
  set (b' := if Request_RequireClusterWideNamespace request then _ else b).
  assert (acc_equiv a' b') as Hab' by (subst a' b'; case_match; [by apply clear_allowedSelectors_proper|done]).
  rewrite (selectorOnly_proper a' b' Hab' request request eq_refl), (granted_scope_proper request a' b' Hab').
  by rewrite (intersectActions_proper (Decision_AllowedActions decision) _ _ (eq_matchedActions _ _ Hab')),
    (eq_namespaceActions _ _ Hab').
Qed.

Definition final_accumulator (request : Request) (roleMatrix : gmap string (list Action))
    (projections : list platformGrantProjection) : platformScopeAccumulator :=
  fold_left (absorb request roleMatrix) projections newPlatformScopeAccumulator.

(** The final accumulator from the projections, field by field. *)
Lemma final_field request roleMatrix projections
    (F : platformScopeAccumulator -> Prop) (G : platformGrantProjection -> Prop) :
  (forall a p, F (absorb request roleMatrix a p) <-> F a \/ G p) ->
  ~ F newPlatformScopeAccumulator ->
  F (final_accumulator request roleMatrix projections) <-> exists p, p ∈ projections /\ G p.
Proof. intros Hstep Hnew. unfold final_accumulator. rewrite (fold_absorb _ _ F G Hstep). tauto. Qed.

(** A field is determined by the set of the projections. *)
Lemma final_field_perm request roleMatrix ps1 ps2
    (F : platformScopeAccumulator -> Prop) (G : platformGrantProjection -> Prop) :
  (forall a p, F (absorb request roleMatrix a p) <-> F a \/ G p) ->
  ps1 ≡ₚ ps2 ->
  F (final_accumulator request roleMatrix ps1) <-> F (final_accumulator request roleMatrix ps2).
Proof.
  intros Hstep Hp. unfold final_accumulator. rewrite !(fold_absorb _ _ F G Hstep).
  by setoid_rewrite Hp.
Qed.

Lemma final_accumulator_perm request roleMatrix ps1 ps2 :
  ps1 ≡ₚ ps2 ->
  acc_equiv (final_accumulator request roleMatrix ps1) (final_accumulator request roleMatrix ps2).
Proof.
  intros Hp. split; try (apply set_eq; intros x); try (intros x); try apply eq_true_iff_eq;
    [eapply (final_field_perm _ _ _ _ (fun a => x ∈ allowedNamespaces a))
    |eapply (final_field_perm _ _ _ _ (fun a => x ∈ deniedNamespaces a))
    |eapply (final_field_perm _ _ _ _ (fun a => x ∈ allowedSelectors a))
    |eapply (final_field_perm _ _ _ _ (fun a => x ∈ deniedSelectors a))
    |eapply (final_field_perm _ _ _ _ (fun a => x ∈ trimmed_values (allowedGroups a)))
    |eapply (final_field_perm _ _ _ _ (fun a => x ∈ trimmed_values (allowedKinds a)))
    |eapply (final_field_perm _ _ _ _ (fun a => x ∈ matchedActions a))
    |eapply (final_field_perm _ _ _ _ (fun a => allowUnrestricted a = true))
    |eapply (final_field_perm _ _ _ _ (fun a => namespaceActions a = true))]; try done.
  - apply absorb_namespaces.
  - apply absorb_denied.
  - apply absorb_selectors.
  - apply absorb_deniedSelectors.
  - apply absorb_groups.
  - apply absorb_kinds.
  - apply absorb_matched.
  - apply absorb_unrestricted.
  - apply absorb_namespaceActions.
Qed.

(** When the part after the loop allows the request. *)
Lemma conclude_allowed request decision a :
  Decision_Allowed (conclude_platform_scope request decision a) = true <->
  Request_Action request ∈ Decision_AllowedActions decision /\
  Request_Action request ∈ matchedActions a /\
  (Request_RequireClusterWideNamespace request = true -> allowUnrestricted a = true) /\
  selectorOnlyListCannotBeEnforced a request = false.
Proof.
  unfold conclude_platform_scope.
  destruct (is_empty (matchedActions a)) eqn:He.
  { apply is_empty_true in He. rewrite He. set_solver. }
  set (a' := if Request_RequireClusterWideNamespace request then _ else a).
  assert (matchedActions a' = matchedActions a) as -> by (subst a'; by case_match).
  assert (namespaceActions a' = namespaceActions a) as -> by (subst a'; by case_match).
  destruct (Request_RequireClusterWideNamespace request) eqn:Hw; simpl andb;
    [destruct (allowUnrestricted a) eqn:Hu; simpl negb|]; [|naive_solver|].
  all: assert (selectorOnlyListCannotBeEnforced a' request =
    selectorOnlyListCannotBeEnforced a request) as ->
    by (subst a'; unfold selectorOnlyListCannotBeEnforced, clear_allowedSelectors; simpl;
        rewrite ?Hu; by rewrite ?andb_false_r).
  all: destruct (selectorOnlyListCannotBeEnforced a request); [naive_solver|].
  all: set (actions := if isNamespaceDiscovery request && _ then _ else _).
  all: assert (Request_Action request ∈ actions <->
    Request_Action request ∈ Decision_AllowedActions decision /\
    Request_Action request ∈ matchedActions a) as Hact.
  all: try (subst actions; destruct (isNamespaceDiscovery request) eqn:Hd; simpl;
    [apply andb_true_iff in Hd as [->%String.eqb_eq _]|]; repeat case_match;
    rewrite !elem_of_intersectActions; set_solver).
  all: destruct (is_empty actions) eqn:Hn;
    [apply is_empty_true in Hn; rewrite Hn in Hact; set_solver|].
  all: rewrite <-contains_true in Hact; simpl;
    destruct (contains actions (Request_Action request)); simpl; naive_solver.
Qed.

(** An allowed evaluation went through the loop to its end. *)
Lemma evaluate_platform_allowed request decision roleMatrix grants envKeyMap bindings :
  let projections := projectPlatformGrants request grants envKeyMap bindings in
  let d := evaluatePlatformScopeGrants request decision roleMatrix grants envKeyMap bindings in
  Decision_Allowed d = true ->
  existsb (blocks request) projections = false /\
  d = conclude_platform_scope request decision (final_accumulator request roleMatrix projections).
Proof.
  intros projections d. subst d. unfold evaluatePlatformScopeGrants. fold projections.
  destruct (is_empty projections); [done|].
  pose proof (consume_all_spec request roleMatrix decision newPlatformScopeAccumulator projections) as Hc.
  destruct (existsb (blocks request) projections).
  - destruct Hc as (denied & -> & Hd & _). by rewrite Hd.
  - rewrite Hc. done.
Qed.

(** Without a blocking projection only the part after the loop decides. *)
Lemma evaluate_platform_unblocked request decision roleMatrix grants envKeyMap bindings :
  let projections := projectPlatformGrants request grants envKeyMap bindings in
  projections <> [] -> existsb (blocks request) projections = false ->
  evaluatePlatformScopeGrants request decision roleMatrix grants envKeyMap bindings =
  conclude_platform_scope request decision (final_accumulator request roleMatrix projections).
Proof.
  intros projections Hne Hb. unfold evaluatePlatformScopeGrants. fold projections.
  destruct (is_empty projections) eqn:He; [by apply is_empty_true in He|].
  pose proof (consume_all_spec request roleMatrix decision newPlatformScopeAccumulator projections) as Hc.
  rewrite Hb in Hc. by rewrite Hc.
Qed.

Lemma elem_of_kept request roleMatrix (projections : list platformGrantProjection) p :
  p ∈ filter (fun p => contributes request roleMatrix p = true) projections <->
  contributes request roleMatrix p = true /\ p ∈ projections.
Proof. by rewrite list_elem_of_filter. Qed.

Lemma final_matched request roleMatrix projections x :
  x ∈ matchedActions (final_accumulator request roleMatrix projections) <->
  exists p, p ∈ projections /\ contributes request roleMatrix p = true /\ x ∈ projection_actions roleMatrix p.
Proof.
  apply (final_field _ _ _ (fun a => x ∈ matchedActions a)); [|simpl; set_solver].
  intros. apply absorb_matched.
Qed.

Lemma final_unrestricted request roleMatrix projections :
  allowUnrestricted (final_accumulator request roleMatrix projections) = true <->
  exists p, p ∈ projections /\ contributes request roleMatrix p = true /\ projection_unrestricted p = true.
Proof.
  apply (final_field _ _ _ (fun a => allowUnrestricted a = true)); [|done].
  intros. apply absorb_unrestricted.
Qed.

Lemma final_namespaces request roleMatrix projections x :
  x ∈ allowedNamespaces (final_accumulator request roleMatrix projections) <->
  exists p, p ∈ projections /\ contributes request roleMatrix p = true /\
    x ∈ trimmed_values (projection_namespaces p).
Proof.
  apply (final_field _ _ _ (fun a => x ∈ allowedNamespaces a)); [|simpl; set_solver].
  intros. apply absorb_namespaces.
Qed.

Lemma final_selectors request roleMatrix projections x :
  x ∈ allowedSelectors (final_accumulator request roleMatrix projections) <->
  exists p, p ∈ projections /\ contributes request roleMatrix p = true /\ x ∈ projection_selectors p.
Proof.
  apply (final_field _ _ _ (fun a => x ∈ allowedSelectors a)); [|simpl; set_solver].
  intros. apply absorb_selectors.
Qed.

Lemma final_denied request roleMatrix projections x :
  x ∈ deniedNamespaces (final_accumulator request roleMatrix projections) <->
  exists p, p ∈ projections /\ excludes request p = true /\ x ∈ trimmed_values (projection_namespaces p).
Proof.
  apply (final_field _ _ _ (fun a => x ∈ deniedNamespaces a)); [|simpl; set_solver].
  intros. apply absorb_denied.
Qed.

(** The guard against lists that a selector cannot restrict. *)
Lemma selectorOnly_enforceable request roleMatrix projections :
  selectorOnlyListCannotBeEnforced (final_accumulator request roleMatrix projections) request = false <->
  enforceable request (filter (fun p => contributes request roleMatrix p = true) projections).
Proof.
  unfold selectorOnlyListCannotBeEnforced, enforceable. setoid_rewrite elem_of_kept.
  set (a := final_accumulator request roleMatrix projections).
  assert (str_empty (Namespace_Namespace (Request_Namespace request)) = false <->
    Namespace_Namespace (Request_Namespace request) <> "") as H1 by apply String.eqb_neq.
  assert (allowUnrestricted a = true <-> exists p, (contributes request roleMatrix p = true /\
    p ∈ projections) /\ projection_unrestricted p = true) as H2.
  { unfold a. rewrite final_unrestricted. naive_solver. }
  assert (bool_decide (allowedNamespaces a = ∅) = false <-> exists p, (contributes request roleMatrix p = true /\
    p ∈ projections) /\ trimmed_values (projection_namespaces p) <> []) as H3.
  { rewrite bool_decide_eq_false. split.
    - intros (x & (p & ? & ? & Hx)%final_namespaces)%set_choose_L. exists p. split_and!; [done..|]. intros Hz. by rewrite Hz in Hx; apply elem_of_nil in Hx.
    - intros (p & [Hc Hp] & Hn). destruct (trimmed_values (projection_namespaces p)) as [|x l] eqn:Hl; [done|].
      intros Hz. assert (x ∈ allowedNamespaces a) as Hx; [|rewrite Hz in Hx; by apply not_elem_of_empty in Hx].
      apply final_namespaces. exists p. rewrite Hl. split_and!; [done..|]. left. }
  assert (is_empty (allowedSelectors a) = true <-> forall p, contributes request roleMatrix p = true /\
    p ∈ projections -> projection_selectors p = []) as H4.
  { rewrite is_empty_true. split.
    - intros Hs p [Hc Hp]. apply elem_of_nil_inv. intros x Hx.
      assert (x ∈ allowedSelectors a) as Hin by (apply final_selectors; eauto). rewrite Hs in Hin.
      by apply elem_of_nil in Hin.
    - intros Hs. apply elem_of_nil_inv. intros x (p & Hp & Hc & Hx)%final_selectors.
      rewrite (Hs p) in Hx by done. by apply elem_of_nil in Hx. }
  rewrite <-H1, <-H2, <-H3, <-H4.
  destruct (str_empty _), (allowUnrestricted a), (bool_decide _), (is_empty _), (isNamespaceDiscovery request);
    simpl; naive_solver.
Qed.

(** The evaluation implements its declarative meaning. *)
Lemma platform_allows_iff request decision roleMatrix grants envKeyMap bindings :
  let projections := projectPlatformGrants request grants envKeyMap bindings in
  Decision_Allowed (evaluatePlatformScopeGrants request decision roleMatrix grants envKeyMap bindings) = true <->
  platform_allows request (Decision_AllowedActions decision) roleMatrix projections.
Proof.
  intros projections. unfold platform_allows.
  rewrite <-(selectorOnly_enforceable request roleMatrix projections). setoid_rewrite elem_of_kept.
  pose proof (conclude_allowed request decision (final_accumulator request roleMatrix projections)) as Hc.
  rewrite final_matched, final_unrestricted in Hc.
  assert (existsb (blocks request) projections = false <-> forall p, p ∈ projections -> blocks request p = false) as Hb.
  { rewrite <-not_true_iff_false, existsb_elem_of. setoid_rewrite <-not_true_iff_false. naive_solver. }
  split.
  - intros Ha. apply evaluate_platform_allowed in Ha as Ha'. fold projections in Ha'.
    destruct Ha' as [Hn He]. rewrite He in Ha. apply Hc in Ha. rewrite Hb in Hn.
    destruct Ha as (? & (p & ? & ? & ?) & Hu & ?). split_and!; eauto. intros (q & ? & ? & ?)%Hu. eauto.
  - intros (Hin & Hn%Hb & (p & [? ?] & ?) & Hu & ?).
    assert (projections <> []) by (intros Hz; rewrite Hz in *; by eapply not_elem_of_nil).
    rewrite evaluate_platform_unblocked by done. fold projections. apply Hc.
    split_and!; eauto. intros (q & [? ?] & ?)%Hu. eauto.
Qed.
End conclude.

(** ** Sample inputs *)

Definition sample_grant (id role namespace effect : string) : ScopeGrant :=
  {| Grant_ID := id; Grant_SubjectType := "user"; Grant_SubjectID := "u-1";
     Grant_BusinessLineID := ""; Grant_EnvironmentIDs := []; Grant_ApplicationIDs := [];
     Grant_ScopeType := "platform"; Grant_ClusterIDs := ["c-1"];
     Grant_Namespaces := if str_empty namespace then [] else [namespace];
     Grant_NamespaceSelector := ""; Grant_ResourceGroups := []; Grant_ResourceKinds := [];
     Grant_Role := role; Grant_Effect := effect; Grant_Enabled := true;
     Grant_CreatedAt := 0; Grant_UpdatedAt := 0 |}.

Definition sample_platform_request (namespace : string) (clusterWide : bool) : Request :=
  {| Request_RequireUnscopedPlatform := false; Request_RequireClusterWideNamespace := clusterWide;
     Request_RequireWholeResourceCollection := false;
     Request_FailClosedOnUnknownResourceLabels := false; Request_RequireNamespaceLabels := false;
     Request_Principal :=
       {| Principal_UserID := "u-1"; Principal_UserName := "u"; Principal_Email := "";
          Principal_AvatarURL := ""; Principal_AvatarFit := ""; Principal_Roles := ["reader"];
          Principal_Teams := []; Principal_Projects := []; Principal_Tags := [];
          Principal_PermissionKeys := []; Principal_AccessTokenID := "" |};
     Request_PermissionKey := ""; Request_Action := ActionList;
     Request_Subject := {| Subject_UserID := "u-1"; Subject_Roles := ["reader"]; Subject_Teams := [];
                           Subject_Projects := []; Subject_Tags := [] |};
     Request_Cluster := {| Cluster_ClusterID := "c-1"; Cluster_Region := ""; Cluster_Environment := "";
                           Cluster_Labels := ∅ |};
     Request_Namespace := {| Namespace_Namespace := namespace; Namespace_Labels := None;
                             Namespace_OwnerTeam := "" |};
     Request_Resource := {| Resource_Group := "configuration"; Resource_Kind := "Secret";
                            Resource_Name := ""; Resource_Labels := None;
                            Resource_Annotations := ∅; Resource_Owner := "" |};
     Request_Delivery := {| Delivery_BusinessLineID := ""; Delivery_ApplicationGroup := "";
                            Delivery_EnvironmentKey := ""; Delivery_ApplicationID := "" |};
     Request_Context := {| Context_Source := ""; Context_ApprovalState := ""; Context_OccurredAt := 0 |} |}.

(** An incoming decision that allows listing. *)
Definition sample_decision : Decision :=
  set_Decision_AllowedActions [ActionList] (set_Decision_Allowed true zero_Decision).

(** Only the role [reader] may list. *)
Definition sample_roles : gmap string (list Action) := {["reader" := [ActionList]; "viewer" := []]}.

(** ** Properties *)

Section properties.
Context `{MapRange}.
Context (envKeyMap : gmap string string) (bindings : list ApplicationEnvironment).

(** C2. The scope-grant evaluation implements its declarative meaning: a
    request is allowed iff its action was allowed before, no projected grant
    denies it (or needs labels the request lacks), some contributing grant's
    role carries the action, a cluster-wide request is backed by an
    unrestricted grant for the action, and the resulting list is enforceable. *)
Theorem platform_scope_refines request decision roleMatrix grants :
  Decision_Allowed
    (evaluatePlatformScopeGrants request decision roleMatrix grants envKeyMap bindings) = true <->
  platform_allows request (Decision_AllowedActions decision) roleMatrix
    (projectPlatformGrants request grants envKeyMap bindings).
Proof. apply platform_allows_iff. Qed.

Lemma evaluate_platform_denied request decision roleMatrix grants :
  existsb (blocks request) (projectPlatformGrants request grants envKeyMap bindings) = true ->
  Decision_Allowed
    (evaluatePlatformScopeGrants request decision roleMatrix grants envKeyMap bindings) = false /\
  Decision_AllowedActions
    (evaluatePlatformScopeGrants request decision roleMatrix grants envKeyMap bindings) = [].
Proof.
  intros Hb. unfold evaluatePlatformScopeGrants.
  pose proof (consume_all_spec request roleMatrix decision newPlatformScopeAccumulator
    (projectPlatformGrants request grants envKeyMap bindings)) as Hc.
  rewrite Hb in Hc. destruct Hc as (denied & -> & ? & ?). by destruct (is_empty _).
Qed.

(** Storage order is irrelevant: permuting the grants never changes whether
    a request is allowed, and an allowed request gets exactly the same
    decision, scope and action list included. *)
Theorem platform_scope_order_independent request decision roleMatrix grants1 grants2 :
  grants1 ≡ₚ grants2 ->
  let d1 := evaluatePlatformScopeGrants request decision roleMatrix grants1 envKeyMap bindings in
  let d2 := evaluatePlatformScopeGrants request decision roleMatrix grants2 envKeyMap bindings in
  Decision_Allowed d1 = Decision_Allowed d2 /\ (Decision_Allowed d1 = true -> d1 = d2).
Proof.
  intros Hg d1 d2.
  assert (projectPlatformGrants request grants1 envKeyMap bindings ≡ₚ
          projectPlatformGrants request grants2 envKeyMap bindings) as Hp.
  { unfold projectPlatformGrants. by rewrite Hg. }
  assert (Decision_Allowed d1 = Decision_Allowed d2) as Ha.
  { apply eq_true_iff_eq. subst d1 d2. rewrite !platform_allows_iff. unfold platform_allows, enforceable.
    setoid_rewrite elem_of_kept. by setoid_rewrite Hp. }
  split; [done|]. intros H1. pose proof H1 as H2. rewrite Ha in H2.
  apply evaluate_platform_allowed in H1 as [_ E1], H2 as [_ E2].
  subst d1 d2. rewrite E1, E2.
  apply conclude_proper, final_accumulator_perm, Hp.
Qed.

(** A matching deny always wins: if one projected grant with effect deny
    covers the named namespace (or, for a request without a namespace, the
    whole cluster), the request is denied with no action left, whatever the
    other grants and their order. *)
Theorem platform_scope_deny_wins request decision roleMatrix grants p :
  p ∈ projectPlatformGrants request grants envKeyMap bindings ->
  normalizedEffect (Grant_Effect (projection_grant p)) = "deny" ->
  (if str_empty (Namespace_Namespace (Request_Namespace request))
   then projection_unrestricted p
   else projectionMatchesNamespace p (Request_Namespace request)) = true ->
  let d := evaluatePlatformScopeGrants request decision roleMatrix grants envKeyMap bindings in
  Decision_Allowed d = false /\ Decision_AllowedActions d = [].
Proof.
  intros Hp Hd Hm d. apply evaluate_platform_denied, existsb_elem_of. exists p. split; [done|].
  unfold blocks. rewrite Hd. destruct (str_empty _); simpl; rewrite Hm; by rewrite ?orb_true_r.
Qed.

(** Scope grants never widen a decision: the actions that remain are among
    those that were allowed before, and an allowed decision allows the
    requested action. *)
Theorem platform_scope_never_widens request decision roleMatrix grants :
  let d := evaluatePlatformScopeGrants request decision roleMatrix grants envKeyMap bindings in
  (forall x, x ∈ Decision_AllowedActions d -> x ∈ Decision_AllowedActions decision) /\
  (Decision_Allowed d = true -> Request_Action request ∈ Decision_AllowedActions d).
Proof.
  intros d. split.
  - subst d. unfold evaluatePlatformScopeGrants. case_match; [by intros ? ?%elem_of_nil|].
    pose proof (consume_all_spec request roleMatrix decision newPlatformScopeAccumulator
      (projectPlatformGrants request grants envKeyMap bindings)) as Hc.
    destruct (existsb _ _); [destruct Hc as (denied & -> & _ & ->); by intros ? ?%elem_of_nil|].
    rewrite Hc. intros x. unfold conclude_platform_scope. generalize (final_accumulator request roleMatrix
      (projectPlatformGrants request grants envKeyMap bindings)). intros a.
    repeat case_match; simpl; rewrite ?elem_of_intersectActions; set_solver.
  - intros Ha. pose proof Ha as [_ He]%evaluate_platform_allowed. fold d in He. rewrite He in Ha |- *.
    revert Ha. unfold conclude_platform_scope.
    repeat case_match; simpl; try done; intros Ha; by apply contains_true.
Qed.

End properties.

Lemma platform_scope_order_independent_witness :
  Decision_Allowed (evaluatePlatformScopeGrants (sample_platform_request "team-a" false)
    sample_decision sample_roles
    [sample_grant "g2" "viewer" "team-b" "allow"; sample_grant "g1" "reader" "team-a" "allow"] ∅ []) = true.
Proof.
  rewrite <-(proj1 (platform_scope_order_independent ∅ [] (sample_platform_request "team-a" false)
    sample_decision sample_roles
    [sample_grant "g1" "reader" "team-a" "allow"; sample_grant "g2" "viewer" "team-b" "allow"]
    [sample_grant "g2" "viewer" "team-b" "allow"; sample_grant "g1" "reader" "team-a" "allow"]
    (Permutation_swap _ _ _))).
  vm_compute. reflexivity.
Defined.

Lemma platform_scope_deny_wins_witness :
  Decision_Allowed (evaluatePlatformScopeGrants (sample_platform_request "team-a" false)
    sample_decision sample_roles
    [sample_grant "g1" "reader" "team-a" "allow"; sample_grant "g2" "viewer" "TEAM-A" "deny"] ∅ []) = false.
Proof.
  refine (proj1 (platform_scope_deny_wins ∅ [] (sample_platform_request "team-a" false)
    sample_decision sample_roles
    [sample_grant "g1" "reader" "team-a" "allow"; sample_grant "g2" "viewer" "TEAM-A" "deny"]
    {| projection_grant := sample_grant "g2" "viewer" "TEAM-A" "deny";
       projection_namespaces := ["TEAM-A"]; projection_selectors := [];
       projection_unrestricted := false |} _ _ _)).
  - vm_compute. right. left.
  - vm_compute. reflexivity.
  - vm_compute. reflexivity.
Defined.
