(* ===== verification/ScopeFilter.v ===== *)
(** * Enforcement of resource scopes

    The consumers of an access decision in
    [internal/application/resource/common.go]: when a decision covers the whole
    cluster, which items of a list it leaves visible, and when a list can be
    narrowed to one namespace.  The theorems connect them to the scope grants
    of [PlatformScope]. *)

From S2P Require Import Prelude GoStrings AccessModel NamespaceSelector ScopeHelpers PlatformScope.

Definition clusterWideResourceScope (decision : Decision) : bool :=
  Decision_Allowed decision &&
  match Decision_ResourceScope decision with
  | None => true
  | Some scope =>
      is_empty (Scope_Namespaces scope) && is_empty (Scope_ExcludedNamespaces scope) &&
      is_empty (Scope_NamespaceSelectors scope) &&
      is_empty (Scope_ExcludedNamespaceSelectors scope) && str_empty (Scope_LabelSelector scope)
  end.

Definition filterScopedNamespaceItems {T} (items : list T) (decision : Decision)
    (namespaceOf : T -> string) : list T :=
  match Decision_ResourceScope decision with
  | None => items
  | Some scope =>
      if negb (is_empty (Scope_ExcludedNamespaceSelectors scope)) ||
         is_empty (Scope_Namespaces scope) && negb (is_empty (Scope_NamespaceSelectors scope))
      then []
      else
        let allowed : gset string := list_to_set (Scope_Namespaces scope) in
        let excluded : gset string := list_to_set (Scope_ExcludedNamespaces scope) in
        filter (fun item =>
          let namespace := namespaceOf item in
          negb (bool_decide (namespace ∈ excluded)) &&
          negb (negb (bool_decide (allowed = ∅)) && negb (bool_decide (namespace ∈ allowed))) = true)
          items
  end.

Definition needsPostListScopeFilter (namespace : string) (decision : Decision) : bool :=
  match Decision_ResourceScope decision with
  | None => false
  | Some scope =>
      blank namespace &&
      (negb (is_empty (Scope_Namespaces scope)) || negb (is_empty (Scope_ExcludedNamespaces scope)) ||
       negb (is_empty (Scope_NamespaceSelectors scope)) ||
       negb (is_empty (Scope_ExcludedNamespaceSelectors scope)))
  end.

(** The loop of [singleScopedNamespace]: [None] when a second namespace shows up. *)
Fixpoint single_namespace (excluded : gset string) (selected : string) (names : list string)
    : option string :=
  match names with
  | [] => Some selected
  | name :: rest =>
      let name := TrimSpace name in
      if str_empty name then single_namespace excluded selected rest
      else if bool_decide (name ∈ excluded) then single_namespace excluded selected rest
      else if negb (str_empty selected) && negb (String.eqb selected name) then None
      else single_namespace excluded name rest
  end.

Definition singleScopedNamespace (namespace : string) (decision : Decision) : string * bool :=
  match Decision_ResourceScope decision with
  | None => ("", false)
  | Some scope =>
      if negb (blank namespace) then ("", false)
      else if negb (is_empty (Scope_NamespaceSelectors scope)) ||
              negb (is_empty (Scope_ExcludedNamespaceSelectors scope)) then ("", false)
      else
        match single_namespace (list_to_set (TrimSpace <$> Scope_ExcludedNamespaces scope)) ""
                (Scope_Namespaces scope) with
        | None => ("", false)
        | Some selected => (selected, negb (str_empty selected))
        end
  end.

(** The grant reaches the namespace [x] by name, or reaches all of them. *)
Definition covers (p : platformGrantProjection) (x : string) : Prop :=
  projection_unrestricted p = true \/ x ∈ trimmed_values (projection_namespaces p).

(** The incoming decision restricts no namespace, or covers the requested one:
    what the policy engine produces. *)
Definition compatible_scope (request : Request) (decision : Decision) : Prop :=
  match Decision_ResourceScope decision with
  | None => True
  | Some s => Scope_Namespaces s = [] \/
              Namespace_Namespace (Request_Namespace request) ∈ Scope_Namespaces s
  end.

(** A grant that is not for the whole cluster names a namespace or has a selector. *)
Definition names_something (p : platformGrantProjection) : Prop :=
  projection_unrestricted p = true \/ projection_selectors p <> [] \/
  trimmed_values (projection_namespaces p) <> [].

(** ** Lemmas *)

Lemma elem_of_filterScoped {T} (items : list T) decision scope namespaceOf x :
  Decision_ResourceScope decision = Some scope ->
  x ∈ filterScopedNamespaceItems items decision namespaceOf ->
  x ∈ items /\ (namespaceOf x ∉ Scope_ExcludedNamespaces scope) /\
  (Scope_Namespaces scope = [] \/ namespaceOf x ∈ Scope_Namespaces scope) /\
  Scope_ExcludedNamespaceSelectors scope = [] /\
  (Scope_Namespaces scope <> [] \/ Scope_NamespaceSelectors scope = []).
Proof.
  unfold filterScopedNamespaceItems. intros ->.
  destruct (_ || _) eqn:Hg; [by intros ?%elem_of_nil|].
  apply orb_false_iff in Hg as [Hx%negb_false_iff%is_empty_true Hs%andb_false_iff].
  rewrite list_elem_of_filter, andb_true_iff, !negb_true_iff, bool_decide_eq_false, andb_false_iff,
    !negb_false_iff, !bool_decide_eq_true, !elem_of_list_to_set.
  intros ((Hex & Hal) & Hin). split_and!; try done.
  - destruct Hal as [Hal|Hal]; [left|by right].
    destruct (Scope_Namespaces scope) as [|y l]; [done|]. simpl in Hal. set_solver.
  - destruct Hs as [Hs|Hs]; [left; by apply is_empty_false|right].
    by apply is_empty_true, negb_false_iff.
Qed.

Lemma conclude_scope `{MapRange} request decision a :
  Decision_Allowed (conclude_platform_scope request decision a) = true ->
  Decision_ResourceScope (conclude_platform_scope request decision a) =
  mergeResourceScopes (Decision_ResourceScope decision) (Some (granted_scope request
    (if Request_RequireClusterWideNamespace request then clear_allowedSelectors a else a))).
Proof.
  unfold conclude_platform_scope.
  destruct (is_empty (matchedActions a)); [done|].
  destruct (Request_RequireClusterWideNamespace request && _); [done|].
  destruct (selectorOnlyListCannotBeEnforced _ _); [done|].
  set (actions := if isNamespaceDiscovery request && _ then _ else _).
  destruct (is_empty actions); [done|]. simpl.
  by destruct (contains actions (Request_Action request)).
Qed.

(** The scope of the result, with the incoming one merged in. *)
Lemma merged_scope left right :
  exists s, mergeResourceScopes left (Some right) = Some s /\
    (forall x, x ∈ Scope_ExcludedNamespaces right -> x ∈ Scope_ExcludedNamespaces s) /\
    (forall x, x ∈ Scope_NamespaceSelectors right -> x ∈ Scope_NamespaceSelectors s) /\
    Scope_Namespaces s =
      intersectScopeValues (from_option Scope_Namespaces [] left) (Scope_Namespaces right).
Proof.
  destruct left as [l|]; simpl; eexists; (split; [done|]); simpl; split_and!; try done;
    intros x; rewrite elem_of_unionScopeValues; tauto.
Qed.

(** The selectors of a projected grant are trimmed and not blank. *)
Lemma projected_selectors `{MapRange} request grants envKeyMap bindings p x :
  p ∈ projectPlatformGrants request grants envKeyMap bindings ->
  x ∈ projection_selectors p -> x ∈ trimmed_values (projection_selectors p).
Proof.
  unfold projectPlatformGrants. intros (g & _ & Hg)%list_elem_of_omap Hx. revert Hg.
  unfold project_grant, nonEmptyText. repeat case_match; intros; simplify_eq/=;
    try by apply elem_of_nil in Hx.
  apply list_elem_of_singleton in Hx as ->. apply elem_of_trimmed_values.
  split; [by apply String.eqb_neq|]. eexists. split; [left|]. by rewrite TrimSpace_idem.
Qed.

Section enforcement.
Context `{MapRange}.
Context (envKeyMap : gmap string string) (bindings : list ApplicationEnvironment).
Context {T : Type} (items : list T) (namespaceOf : T -> string).

(** Confinement to a named namespace: when a request for a namespace is
    allowed, some allow grant covers that namespace and its role set carries
    the action, no deny grant covers it, and every item the decision leaves
    visible is in that namespace. *)
Theorem named_namespace_confined request decision roleMatrix grants :
  let d := evaluatePlatformScopeGrants request decision roleMatrix grants envKeyMap bindings in
  let projections := projectPlatformGrants request grants envKeyMap bindings in
  let namespace := Namespace_Namespace (Request_Namespace request) in
  Decision_Allowed d = true -> namespace <> "" -> compatible_scope request decision ->
  (exists p, p ∈ projections /\ normalizedEffect (Grant_Effect (projection_grant p)) <> "deny" /\
     projectionMatchesNamespace p (Request_Namespace request) = true /\
     Request_Action request ∈ projection_actions roleMatrix p) /\
  (forall p, p ∈ projections -> normalizedEffect (Grant_Effect (projection_grant p)) = "deny" ->
     projectionMatchesNamespace p (Request_Namespace request) = false) /\
  (forall x, x ∈ filterScopedNamespaceItems items d namespaceOf -> namespaceOf x = namespace).
Proof.
  intros d projections namespace Ha Hn Hcs.
  assert (str_empty namespace = false) as He by by apply String.eqb_neq.
  pose proof Ha as (_ & Hb & (p & Hkeep & Hact) & _ & _)%platform_allows_iff.
  split_and!.
  - exists p. apply elem_of_kept in Hkeep as [Hc Hp]. unfold contributes in Hc.
    fold namespace in Hc. rewrite He in Hc. bool_prop. simpl in *. bool_prop.
    split_and!; try done. by apply String.eqb_neq.
  - intros q Hq Hd. specialize (Hb q Hq). unfold blocks in Hb. fold namespace in Hb.
    rewrite Hd, He in Hb. simpl in Hb. by bool_prop.
  - intros x Hx. pose proof Ha as [_ E]%evaluate_platform_allowed. fold d in E.
    rewrite E in Ha. apply conclude_scope in Ha. rewrite <-E in Ha.
    destruct (merged_scope (Decision_ResourceScope decision) (granted_scope request
      (if Request_RequireClusterWideNamespace request
       then clear_allowedSelectors (final_accumulator request roleMatrix projections)
       else final_accumulator request roleMatrix projections))) as (s & Hs & _ & _ & Hns).
    unfold projections in Hs. rewrite Hs in Ha.
    eapply elem_of_filterScoped in Hx as (_ & _ & Hin & _); [|exact Ha].
    assert (Scope_Namespaces s = [] \/ namespaceOf x ∈ Scope_Namespaces s) as Hin' by exact Hin.
    rewrite Hns in Hin'. unfold granted_scope in Hin'. simpl in Hin'. fold namespace in Hin'.
    rewrite He in Hin'. simpl in Hin'. rewrite sortedKeys_singleton in Hin'.
    unfold compatible_scope in Hcs. fold namespace in Hcs.
    destruct (Decision_ResourceScope decision) as [inc|]; simpl in Hin';
      [|unfold intersectScopeValues in Hin'; simpl in Hin'; set_solver].
    unfold intersectScopeValues in Hin'. destruct (Scope_Namespaces inc) as [|y l]; simpl in Hin';
      [set_solver|]. destruct Hcs as [|Hcs]; [done|].
    set (keep := filter _ (y :: l)) in Hin'.
    assert (namespace ∈ keep) as Hk by (apply list_elem_of_filter; rewrite contains_true; set_solver).
    destruct Hin' as [Hz|Hin']; [rewrite Hz in Hk; by apply elem_of_nil in Hk|].
    apply list_elem_of_filter in Hin' as [Hc _]. apply contains_true in Hc. set_solver.
Qed.

(** Enforcement of a list over the cluster: when a list without a
    namespace is allowed, every item left visible is outside the namespaces
    that deny grants name, and a contributing grant covers its namespace by
    name or is for the whole cluster. *)
Theorem list_visibility_sound request decision roleMatrix grants x :
  let d := evaluatePlatformScopeGrants request decision roleMatrix grants envKeyMap bindings in
  let projections := projectPlatformGrants request grants envKeyMap bindings in
  Decision_Allowed d = true -> Namespace_Namespace (Request_Namespace request) = "" ->
  from_option Scope_Namespaces [] (Decision_ResourceScope decision) = [] ->
  (forall p, p ∈ projections -> names_something p) ->
  x ∈ filterScopedNamespaceItems items d namespaceOf ->
  (forall p, p ∈ projections -> excludes request p = true ->
     namespaceOf x ∉ trimmed_values (projection_namespaces p)) /\
  (exists p, p ∈ projections /\ contributes request roleMatrix p = true /\ covers p (namespaceOf x)).
Proof.
  intros d projections Ha Hn Hinc Hsome Hx.
  pose proof Ha as (_ & _ & (p & [Hc Hp]%elem_of_kept & Hact) & Hw & _)%platform_allows_iff.
  pose proof Ha as [_ E]%evaluate_platform_allowed. fold d in E.
  rewrite E in Ha. apply conclude_scope in Ha. rewrite <-E in Ha. fold projections in Ha.
  set (a := final_accumulator request roleMatrix projections) in *.
  destruct (merged_scope (Decision_ResourceScope decision) (granted_scope request
    (if Request_RequireClusterWideNamespace request then clear_allowedSelectors a else a)))
    as (s & Hs & Hexc & Hsel & Hns).
  rewrite Hs in Ha. eapply elem_of_filterScoped in Hx as (_ & Hex & Hin & _ & Hse); [|exact Ha].
  rewrite Hinc in Hns. change (intersectScopeValues [] ?r) with r in Hns.
  split.
  - intros q Hq Hd Hq'. apply Hex, Hexc. unfold granted_scope. simpl.
    apply elem_of_sortedKeys. assert (namespaceOf x ∈ deniedNamespaces a) by (apply final_denied; eauto).
    by case_match.
  - destruct (allowUnrestricted a) eqn:Hu.
    { apply final_unrestricted in Hu as (q & ? & ? & ?). exists q. unfold covers. eauto. }
    destruct (Request_RequireClusterWideNamespace request) eqn:Hcw.
    { destruct (Hw eq_refl) as (q & [? ?]%elem_of_kept & ?). exists q. unfold covers. eauto. }
    unfold granted_scope in Hns, Hsel. rewrite Hn, Hu in Hns. simpl in Hns, Hsel. rewrite Hns in Hin, Hse.
    rewrite sortedKeys_empty, elem_of_sortedKeys in Hin.
    destruct Hin as [Hz|(q & ? & ? & ?)%final_namespaces];
      [|exists q; unfold covers; eauto].
    exfalso. destruct Hse as [Hne|Hse]; [by apply Hne, sortedKeys_empty|].
    destruct (Hsome p Hp) as [Hpu|[Hps|Hpn]].
    + assert (allowUnrestricted a = true) by (apply final_unrestricted; eauto). congruence.
    + destruct (projection_selectors p) as [|sel l] eqn:Hps'; [done|].
      assert (sel ∈ projection_selectors p) as Hsp by (rewrite Hps'; left).
      apply (elem_of_nil sel). rewrite <-Hse. apply Hsel, elem_of_uniqueSortedStrings.
      apply (projected_selectors _ _ _ _ _ _ Hp), elem_of_trimmed_values in Hsp as (? & v & ? & ->).
      apply elem_of_trimmed_values. split; [done|]. exists v. split; [|done].
      apply final_selectors. eauto.
    + destruct (trimmed_values (projection_namespaces p)) as [|y l] eqn:Hpn'; [done|].
      assert (y ∈ allowedNamespaces a) as Hy.
      { apply final_namespaces. exists p. rewrite Hpn'. split_and!; [done..|]. left. }
      rewrite Hz in Hy. by apply not_elem_of_empty in Hy.
Qed.

End enforcement.

Lemma named_namespace_confined_witness :
  projectionMatchesNamespace
    {| projection_grant := sample_grant "g2" "viewer" "team-b" "deny";
       projection_namespaces := ["team-b"]; projection_selectors := [];
       projection_unrestricted := false |}
    (Request_Namespace (sample_platform_request "team-a" false)) = false.
Proof.
  refine (proj1 (proj2 (named_namespace_confined ∅ [] [] (fun x : string => x)
    (sample_platform_request "team-a" false) sample_decision sample_roles
    [sample_grant "g1" "reader" "team-a" "allow"; sample_grant "g2" "viewer" "team-b" "deny"]
    _ _ _)) _ _ _); [vm_compute; reflexivity|done|exact I| |vm_compute; reflexivity].
  vm_compute. right. left.
Defined.

(** The namespaces of a listing that only the reader grant of [team-a] allows. *)
Lemma list_visibility_sound_witness :
  filterScopedNamespaceItems ["team-a"; "kube-system"]
    (evaluatePlatformScopeGrants (sample_platform_request "" false) sample_decision sample_roles
       [sample_grant "g1" "reader" "team-a" "allow"] ∅ []) (fun x => x) = ["team-a"] /\
  exists p, contributes (sample_platform_request "" false) sample_roles p = true /\ covers p "team-a".
Proof.
  split; [vm_compute; reflexivity|].
  destruct (proj2 (list_visibility_sound ∅ [] ["team-a"; "kube-system"] (fun x : string => x)
    (sample_platform_request "" false) sample_decision sample_roles
    [sample_grant "g1" "reader" "team-a" "allow"] "team-a"
    ltac:(vm_compute; reflexivity) ltac:(reflexivity) ltac:(reflexivity)
    ltac:(intros p Hp; vm_compute in Hp; apply list_elem_of_singleton in Hp as ->;
          right; right; vm_compute; discriminate)
    ltac:(vm_compute; left))) as (p & _ & Hc & Hv).
  by exists p.
Defined.

