(* ===== verification/PermissionTables.v ===== *)
(** * Permission keys and default roles

    The constants and tables of [internal/application/access/permissions.go]:
    the permission keys, the set of all keys and the keys of the built-in
    roles. *)

From S2P Require Import Prelude GoStrings.

(** ** Permission keys *)

Definition PermPlatformConfigurationSecretDataView : string := "platform.configuration.secret-data.view".
Definition PermPlatformHelmValuesView : string := "platform.helm.values.view".
Definition PermWorkspaceApplicationView : string := "workspace.application.view".
Definition PermWorkspaceResourceView : string := "workspace.resource.view".
Definition PermWorkbenchAIView : string := "workbench.ai.view".
Definition PermWorkbenchComputeView : string := "workbench.compute.view".
Definition PermWorkbenchDeliveryView : string := "workbench.delivery.view".
Definition PermWorkbenchHomeView : string := "workbench.home.view".
Definition PermWorkbenchMonitoringView : string := "workbench.monitoring.view".
Definition PermWorkbenchPlatformView : string := "workbench.platform.view".
Definition PermWorkbenchSecurityView : string := "workbench.security.view".
Definition PermWorkbenchSettingsView : string := "workbench.settings.view".
Definition PermOverviewView : string := "overview.view".
Definition PermPlatformNodesView : string := "platform.nodes.view".
Definition PermPlatformNamespacesView : string := "platform.namespaces.view".
Definition PermPlatformWorkloadsView : string := "platform.workloads.view".
Definition PermPlatformWorkloadsOverviewView : string := "platform.workloads.overview.view".
Definition PermPlatformConfigurationView : string := "platform.configuration.view".
Definition PermPlatformNetworkView : string := "platform.network.view".
Definition PermPlatformNetworkTopologyView : string := "platform.network.topology.view".
Definition PermPlatformStorageView : string := "platform.storage.view".
Definition PermPlatformExtensionsView : string := "platform.extensions.view".
Definition PermPlatformHelmView : string := "platform.helm.view".
Definition PermPlatformClustersView : string := "platform.clusters.view".
Definition PermPlatformResourceCreationUse : string := "platform.resource-creation.use".
Definition PermPlatformDeploymentCreate : string := "platform.deployment.create".
Definition PermPlatformDeploymentDelete : string := "platform.deployment.delete".
Definition PermPlatformDeploymentRestart : string := "platform.deployment.restart".
Definition PermPlatformDeploymentScale : string := "platform.deployment.scale".
Definition PermPlatformDeploymentRollback : string := "platform.deployment.rollback".
Definition PermPlatformDeploymentUpdate : string := "platform.deployment.update".
Definition PermPlatformDeploymentView : string := "platform.deployment.view".
Definition PermPlatformPodsDelete : string := "platform.pods.delete".
Definition PermPlatformPodsExec : string := "platform.pods.exec".
Definition PermPlatformPodsLogs : string := "platform.pods.logs".
Definition PermPlatformPodsUpdate : string := "platform.pods.update".
Definition PermPlatformPodsView : string := "platform.pods.view".
Definition PermPlatformAccessControlView : string := "platform.access-control.view".
Definition PermPlatformAccessReviewsExecute : string := "platform.access-control.access-reviews.execute".
Definition PermPlatformRBACManage : string := "platform.rbac.manage".
Definition PermPlatformRBACEscalate : string := "platform.rbac.escalate".
Definition PermPlatformRBACBind : string := "platform.rbac.bind".
Definition PermPlatformNamespacesManage : string := "platform.namespaces.manage".
Definition PermPlatformCRDsManage : string := "platform.crds.manage".
Definition PermPlatformAdmissionManage : string := "platform.admission.manage".
Definition PermPlatformClusterResourcesManage : string := "platform.cluster-resources.manage".
Definition PermDeliveryApplicationsView : string := "delivery.applications.view".
Definition PermDeliveryApplicationsCreate : string := "delivery.application.create".
Definition PermDeliveryApplicationsUpdate : string := "delivery.application.update".
Definition PermDeliveryApplicationsDelete : string := "delivery.application.delete".
Definition PermDeliveryApplicationServicesView : string := "delivery.application-services.view".
Definition PermDeliveryApplicationServicesManage : string := "delivery.application-services.manage".
Definition PermDeliveryApplicationEnvApprove : string := "delivery.application-environments.approve".
Definition PermDeliveryApplicationEnvView : string := "delivery.application-environments.view".
Definition PermDeliveryApplicationEnvManage : string := "delivery.application-environments.manage".
Definition PermDeliveryWorkflowTemplatesView : string := "delivery.workflow-templates.view".
Definition PermDeliveryWorkflowTemplatesManage : string := "delivery.workflow-templates.manage".
Definition PermDeliveryDeploymentTemplatesView : string := "delivery.deployment-templates.view".
Definition PermDeliveryDeploymentTemplatesCreate : string := "delivery.deployment-templates.create".
Definition PermDeliveryDeploymentTemplatesUpdate : string := "delivery.deployment-templates.update".
Definition PermDeliveryDeploymentTemplatesDelete : string := "delivery.deployment-templates.delete".
Definition PermDeliveryBuildTemplatesView : string := "delivery.build-templates.view".
Definition PermDeliveryBuildTemplatesManage : string := "delivery.build-templates.manage".
Definition PermDeliveryTriggersView : string := "delivery.triggers.view".
Definition PermDeliveryTriggersCreate : string := "delivery.triggers.create".
Definition PermDeliveryTriggersUpdate : string := "delivery.triggers.update".
Definition PermDeliveryTemplateSourcesView : string := "delivery.template-sources.view".
Definition PermDeliveryTemplateSourcesCreate : string := "delivery.template-sources.create".
Definition PermDeliveryTemplateSourcesUpdate : string := "delivery.template-sources.update".
Definition PermDeliveryTemplateSourcesDelete : string := "delivery.template-sources.delete".
Definition PermDeliveryTemplateSourcesSync : string := "delivery.template-sources.sync".
Definition PermDeliveryBuildsTrigger : string := "delivery.builds.trigger".
Definition PermDeliveryReleaseBundlesView : string := "delivery.release-bundles.view".
Definition PermDeliveryExecutionTasksView : string := "delivery.execution-tasks.view".
Definition PermDeliveryExecutionTasksManage : string := "delivery.execution-tasks.manage".
Definition PermDeliveryReleaseBoardView : string := "delivery.release-board.view".
Definition PermDeliveryWorkflowsView : string := "delivery.workflows.view".
Definition PermDeliveryWorkflowsTrigger : string := "delivery.workflows.trigger".
Definition PermDeliveryReleasesView : string := "delivery.releases.view".
Definition PermDeliveryReleasesTrigger : string := "delivery.releases.trigger".
Definition PermDeliveryRegistriesView : string := "delivery.registries.view".
Definition PermDeliveryRegistriesManage : string := "delivery.registries.manage".
Definition PermDeliveryManifestSourcesManage : string := "delivery.manifest-sources.manage".
Definition PermDeliveryManifestDeploymentsManage : string := "delivery.manifest-deployments.manage".
Definition PermDeliveryManifestDriftRepair : string := "delivery.manifest-drift.repair".
Definition PermDeliveryManifestDriftAdopt : string := "delivery.manifest-drift.adopt".
Definition PermDeliveryManifestFieldsForce : string := "delivery.manifest-fields.force".
Definition PermObserveMonitoringView : string := "observe.monitoring.view".
Definition PermObserveDashboardsManage : string := "observe.dashboards.manage".
Definition PermObserveLogDataSourcesView : string := "observe.log-data-sources.view".
Definition PermObserveLogDataSourcesManage : string := "observe.log-data-sources.manage".
Definition PermObserveLogCollectionManage : string := "observe.log-collection.manage".
Definition PermObserveAlertsView : string := "observe.alerts.view".
Definition PermObserveAlertsAcknowledge : string := "observe.alerts.ack".
Definition PermObserveAlertsAssign : string := "observe.alerts.assign".
Definition PermObserveAlertsManage : string := "observe.alerts.manage".
Definition PermObserveAlertRulesView : string := "observe.alert-rules.view".
Definition PermObserveAlertRulesManage : string := "observe.alert-rules.manage".
Definition PermObserveAlertIntegrationsView : string := "observe.alert-integrations.view".
Definition PermObserveAlertIntegrationsManage : string := "observe.alert-integrations.manage".
Definition PermObserveNotificationsView : string := "observe.notifications.view".
Definition PermObserveNotificationsManage : string := "observe.notifications.manage".
Definition PermObserveOncallView : string := "observe.oncall.view".
Definition PermObserveOncallManage : string := "observe.oncall.manage".
Definition PermObserveHealingView : string := "observe.healing.view".
Definition PermObserveHealingManage : string := "observe.healing.manage".
Definition PermObserveEventsView : string := "observe.events.view".
Definition PermObserveAIView : string := "observe.ai.view".
Definition PermObserveAIChatUse : string := "observe.ai.chat".
Definition PermObserveAIRootCauseRun : string := "observe.ai.root-cause.run".
Definition PermObserveAIInspectionManage : string := "observe.ai.inspection.manage".
Definition PermObserveAIInspectionRun : string := "observe.ai.inspection.run".
Definition PermAIKnowledgeView : string := "ai.knowledge.view".
Definition PermAIKnowledgeManage : string := "ai.knowledge.manage".
Definition PermAIKnowledgeConnectorsView : string := "ai.knowledge.connectors.view".
Definition PermAIKnowledgeConnectorsManage : string := "ai.knowledge.connectors.manage".
Definition PermAIKnowledgeIngestionOperate : string := "ai.knowledge.ingestion.operate".
Definition PermAIKnowledgeRebuild : string := "ai.knowledge.rebuild".
Definition PermAIKnowledgeGraphManage : string := "ai.knowledge.graph.manage".
Definition PermAIContextInspect : string := "ai.context.inspect".
Definition PermAIDataSourcesCreate : string := "ai.data-sources.create".
Definition PermAIDataSourcesUpdate : string := "ai.data-sources.update".
Definition PermAIDataSourcesValidate : string := "ai.data-sources.validate".
Definition PermAIDataSourcesView : string := "ai.data-sources.view".
Definition PermAIEvaluationsView : string := "ai.evaluations.view".
Definition PermAIEvaluationsManage : string := "ai.evaluations.manage".
Definition PermAIEvaluationsExecute : string := "ai.evaluations.execute".
Definition PermAIEvaluationsGatesManage : string := "ai.evaluations.gates.manage".
Definition PermAIEvaluationsFeedbackCurate : string := "ai.evaluations.feedback.curate".
Definition PermAIAgentProvidersView : string := "ai.agent-providers.view".
Definition PermAIAgentProvidersManage : string := "ai.agent-providers.manage".
Definition PermAIAgentFleetView : string := "ai.agent-fleet.view".
Definition PermAIAgentFleetManage : string := "ai.agent-fleet.manage".
Definition PermAIEnvironmentsView : string := "ai.environments.view".
Definition PermAIEnvironmentsManage : string := "ai.environments.manage".
Definition PermAIEnvironmentsUpdate : string := "ai.environments.update".
Definition PermAIMemoryView : string := "ai.memory.view".
Definition PermAIMemoryManage : string := "ai.memory.manage".
Definition PermAIMultiAgentRun : string := "ai.multi-agent.run".
Definition PermAIOperationsView : string := "ai.operations.view".
Definition PermAIOperationsManage : string := "ai.operations.manage".
Definition PermAIGatewayView : string := "ai.gateway.view".
Definition PermAIGatewayInvoke : string := "ai.gateway.invoke".
Definition PermAIGatewayManage : string := "ai.gateway.manage".
Definition PermAIGatewayApprovalsManage : string := "ai.gateway.approvals.manage".
Definition PermAIGatewayClientsManage : string := "ai.gateway.clients.manage".
Definition PermAIGatewayGrantsManage : string := "ai.gateway.grants.manage".
Definition PermAIGatewayPoliciesManage : string := "ai.gateway.policies.manage".
Definition PermAIGatewaySkillsManage : string := "ai.gateway.skills.manage".
Definition PermAIGatewayTokensManage : string := "ai.gateway.tokens.manage".
Definition PermAIGatewayRelayView : string := "ai.gateway.relay.view".
Definition PermAIGatewayRelayInvoke : string := "ai.gateway.relay.invoke".
Definition PermAIGatewayRelayManage : string := "ai.gateway.relay.manage".
Definition PermPluginView : string := "plugin.view".
Definition PermPluginInstall : string := "plugin.install".
Definition PermPluginManage : string := "plugin.manage".
Definition PermPluginConfigure : string := "plugin.configure".
Definition PermPluginConfigureSecrets : string := "plugin.configure_secrets".
Definition PermPluginLifecycle : string := "plugin.lifecycle".
Definition PermPluginRemove : string := "plugin.remove".
Definition PermPluginUpgrade : string := "plugin.upgrade".
Definition PermSecretView : string := "secret.view".
Definition PermSecretManage : string := "secret.manage".
Definition PermSecretUse : string := "secret.use".
Definition PermSecretCreate : string := "secret.create".
Definition PermSecretRevoke : string := "secret.revoke".
Definition PermSecretRotate : string := "secret.rotate".
Definition PermSecretUpdate : string := "secret.update".
Definition PermIdentityPortalView : string := "identity.portal.view".
Definition PermIdentityApplicationsView : string := "identity.applications.view".
Definition PermIdentityApplicationsManage : string := "identity.applications.manage".
Definition PermIdentityProvidersView : string := "identity.providers.view".
Definition PermIdentityProvidersManage : string := "identity.providers.manage".
Definition PermIdentityOutpostsView : string := "identity.outposts.view".
Definition PermIdentityOutpostsManage : string := "identity.outposts.manage".
Definition PermIdentityPoliciesView : string := "identity.policies.view".
Definition PermIdentityPoliciesManage : string := "identity.policies.manage".
Definition PermIdentityAuditView : string := "identity.audit.view".
Definition PermNetworkAccessAccessGrantsCreate : string := "network_access.access_grants.create".
Definition PermNetworkAccessAccessGrantsRevoke : string := "network_access.access_grants.revoke".
Definition PermNetworkAccessAccessGrantsView : string := "network_access.access_grants.view".
Definition PermNetworkAccessEndpointDevicesUpdate : string := "network_access.endpoint_devices.update".
Definition PermNetworkAccessEndpointDevicesView : string := "network_access.endpoint_devices.view".
Definition PermNetworkAccessEnrollmentsCreate : string := "network_access.enrollments.create".
Definition PermNetworkAccessEnrollmentsRevoke : string := "network_access.enrollments.revoke".
Definition PermNetworkAccessEnrollmentsView : string := "network_access.enrollments.view".
Definition PermNetworkAccessGatewaysCreate : string := "network_access.gateways.create".
Definition PermNetworkAccessGatewaysUpdate : string := "network_access.gateways.update".
Definition PermNetworkAccessGatewaysView : string := "network_access.gateways.view".
Definition PermNetworkAccessMihomoProfilesCreate : string := "network_access.mihomo_profiles.create".
Definition PermNetworkAccessMihomoProfilesDelete : string := "network_access.mihomo_profiles.delete".
Definition PermNetworkAccessMihomoProfilesUpdate : string := "network_access.mihomo_profiles.update".
Definition PermNetworkAccessMihomoProfilesView : string := "network_access.mihomo_profiles.view".
Definition PermNetworkAccessProxyConnectionsClose : string := "network_access.proxy_connections.close".
Definition PermNetworkAccessProxyConnectionsView : string := "network_access.proxy_connections.view".
Definition PermNetworkAccessProxyInstancesCreate : string := "network_access.proxy_instances.create".
Definition PermNetworkAccessProxyInstancesUpdate : string := "network_access.proxy_instances.update".
Definition PermNetworkAccessProxyInstancesView : string := "network_access.proxy_instances.view".
Definition PermNetworkAccessPolicyCreate : string := "network_access.policy.create".
Definition PermNetworkAccessPolicyDelete : string := "network_access.policy.delete".
Definition PermNetworkAccessPolicyUpdate : string := "network_access.policy.update".
Definition PermNetworkAccessPolicyView : string := "network_access.policy.view".
Definition PermNetworkAccessResourcesCreate : string := "network_access.resources.create".
Definition PermNetworkAccessResourcesDelete : string := "network_access.resources.delete".
Definition PermNetworkAccessResourcesUpdate : string := "network_access.resources.update".
Definition PermNetworkAccessResourcesView : string := "network_access.resources.view".
Definition PermNetworkAccessSitesCreate : string := "network_access.sites.create".
Definition PermNetworkAccessSitesDelete : string := "network_access.sites.delete".
Definition PermNetworkAccessSitesUpdate : string := "network_access.sites.update".
Definition PermNetworkAccessSitesView : string := "network_access.sites.view".
Definition PermNetworkAccessSpacesCreate : string := "network_access.spaces.create".
Definition PermNetworkAccessSpacesDelete : string := "network_access.spaces.delete".
Definition PermNetworkAccessSpacesUpdate : string := "network_access.spaces.update".
Definition PermNetworkAccessSpacesView : string := "network_access.spaces.view".
Definition PermNetworkAccessTelemetryView : string := "network_access.telemetry.view".
Definition PermVirtualizationOverviewView : string := "virtualization.overview.view".
Definition PermVirtualizationVMsView : string := "virtualization.vms.view".
Definition PermVirtualizationVMsManage : string := "virtualization.vms.manage".
Definition PermVirtualizationVMsCreate : string := "virtualization.vms.create".
Definition PermVirtualizationVMsPower : string := "virtualization.vms.power".
Definition PermVirtualizationVMsResize : string := "virtualization.vms.resize".
Definition PermVirtualizationVMsDelete : string := "virtualization.vms.delete".
Definition PermVirtualizationClustersView : string := "virtualization.clusters.view".
Definition PermVirtualizationClustersManage : string := "virtualization.clusters.manage".
Definition PermVirtualizationImagesView : string := "virtualization.images.view".
Definition PermVirtualizationImagesManage : string := "virtualization.images.manage".
Definition PermVirtualizationStorageView : string := "virtualization.storage.view".
Definition PermVirtualizationFlavorsView : string := "virtualization.flavors.view".
Definition PermVirtualizationFlavorsManage : string := "virtualization.flavors.manage".
Definition PermVirtualizationOperationsView : string := "virtualization.operations.view".
Definition PermVirtualizationOperationsManage : string := "virtualization.operations.manage".
Definition PermVirtualizationSyncView : string := "virtualization.sync.view".
Definition PermVirtualizationSyncManage : string := "virtualization.sync.manage".
Definition PermVirtualizationVMsMetrics : string := "virtualization.vms.metrics".
Definition PermVirtualizationVMsConsole : string := "virtualization.vms.console".
Definition PermDockerOverviewView : string := "docker.overview.view".
Definition PermDockerHostsView : string := "docker.hosts.view".
Definition PermDockerHostsManage : string := "docker.hosts.manage".
Definition PermDockerProjectsView : string := "docker.projects.view".
Definition PermDockerProjectsManage : string := "docker.projects.manage".
Definition PermDockerProjectsDeploy : string := "docker.projects.deploy".
Definition PermDockerServicesView : string := "docker.services.view".
Definition PermDockerServicesManage : string := "docker.services.manage".
Definition PermDockerPortsView : string := "docker.ports.view".
Definition PermDockerPortsManage : string := "docker.ports.manage".
Definition PermDockerTemplatesView : string := "docker.templates.view".
Definition PermDockerTemplatesManage : string := "docker.templates.manage".
Definition PermDockerOperationsView : string := "docker.operations.view".
Definition PermDockerOperationsManage : string := "docker.operations.manage".
Definition PermAccessUsersView : string := "access.users.view".
Definition PermAccessUsersManage : string := "access.users.manage".
Definition PermAccessRolesView : string := "access.roles.view".
Definition PermAccessRolesManage : string := "access.roles.manage".
Definition PermAccessGroupsView : string := "access.groups.view".
Definition PermAccessGroupsManage : string := "access.groups.manage".
Definition PermAccessPoliciesView : string := "access.policies.view".
Definition PermAccessPoliciesManage : string := "access.policies.manage".
Definition PermAccessScopeGrantsView : string := "access.scope-grants.view".
Definition PermAccessScopeGrantsManage : string := "access.scope-grants.manage".
Definition PermAccessDirectoryView : string := "access.directory.view".
Definition PermAccessDirectoryManage : string := "access.directory.manage".
Definition PermAccessDirectorySync : string := "access.directory.sync".
Definition PermAccessDirectoryPeopleManage : string := "access.directory.people.manage".
Definition PermAccessIdentityLinkManage : string := "access.identity.link.manage".
Definition PermSystemOnlineUsersView : string := "system.online-users.view".
Definition PermSystemOnlineUsersManage : string := "system.online-users.manage".
Definition PermSystemAnnouncementsView : string := "system.announcements.view".
Definition PermSystemAnnouncementsManage : string := "system.announcements.manage".
Definition PermSystemMenusView : string := "system.menus.view".
Definition PermSystemMenusManage : string := "system.menus.manage".
Definition PermSystemAuditView : string := "system.audit.view".
Definition PermSystemOperationsView : string := "system.operations.view".
Definition PermSettingsIdentityView : string := "settings.identity.view".
Definition PermSettingsIdentityManage : string := "settings.identity.manage".
Definition PermSettingsAIView : string := "settings.ai.view".
Definition PermSettingsAIManage : string := "settings.ai.manage".
Definition PermSettingsBrandingView : string := "settings.branding.view".
Definition PermSettingsBrandingManage : string := "settings.branding.manage".
Definition PermSettingsRuntimeConfigView : string := "settings.runtime-config.view".
Definition PermSettingsRuntimeConfigManage : string := "settings.runtime-config.manage".
Definition PermSettingsSystemIntegrationsView : string := "settings.system-integrations.view".
Definition PermSettingsSystemIntegrationsManage : string := "settings.system-integrations.manage".
Definition PermSoftwarePackageCreate : string := "software.package.create".
Definition PermSoftwarePackageDelete : string := "software.package.delete".
Definition PermSoftwarePackageView : string := "software.package.view".
Definition PermDockerDLPPolicyView : string := "docker.dlp-policy.view".
Definition PermDockerDLPPolicyUpdate : string := "docker.dlp-policy.update".
Definition PermDockerDLPPolicyPublish : string := "docker.dlp-policy.publish".
Definition PermDockerDLPEventsView : string := "docker.dlp-events.view".
Definition PermDockerDLPAppealsReview : string := "docker.dlp-appeals.review".
Definition PermNetworkDLPLinkageManage : string := "network_access.dlp_linkage.manage".
Definition PermPlatformResourceCreate : string := PermPlatformResourceCreationUse.

(** ** Tables *)

Definition resourceMonitoringPermissionKeys : list string := [
   "platform.resource-monitoring.overview.view"; "platform.resource-monitoring.cpu.view";
   "platform.resource-monitoring.memory.view"; "platform.resource-monitoring.conntrack.view";
   "platform.resource-monitoring.pods.view"].

Definition allPermissionKeySet : list string := [
   PermWorkbenchAIView; PermWorkbenchComputeView; PermWorkbenchDeliveryView; PermWorkbenchHomeView;
   PermWorkbenchMonitoringView; PermWorkbenchPlatformView; PermWorkbenchSecurityView;
   PermWorkbenchSettingsView; PermWorkspaceApplicationView; PermWorkspaceResourceView;
   PermOverviewView; PermPlatformNodesView; PermPlatformNamespacesView; PermPlatformWorkloadsView;
   PermPlatformWorkloadsOverviewView; PermPlatformConfigurationView;
   PermPlatformConfigurationSecretDataView; PermPlatformNetworkView;
   PermPlatformNetworkTopologyView; PermPlatformStorageView; PermPlatformExtensionsView;
   PermPlatformHelmView; PermPlatformHelmValuesView; PermPlatformClustersView;
   PermPlatformResourceCreationUse; PermPlatformDeploymentCreate; PermPlatformDeploymentDelete;
   PermPlatformDeploymentRestart; PermPlatformDeploymentScale; PermPlatformDeploymentRollback;
   PermPlatformDeploymentUpdate; PermPlatformDeploymentView; PermPlatformPodsDelete;
   PermPlatformPodsExec; PermPlatformPodsLogs; PermPlatformPodsUpdate; PermPlatformPodsView;
   PermPlatformRBACManage; PermPlatformRBACEscalate; PermPlatformRBACBind;
   PermPlatformNamespacesManage; PermPlatformCRDsManage; PermPlatformAdmissionManage;
   PermPlatformClusterResourcesManage; PermDeliveryApplicationsView;
   PermDeliveryApplicationsCreate; PermDeliveryApplicationsUpdate; PermDeliveryApplicationsDelete;
   PermDeliveryApplicationServicesView; PermDeliveryApplicationServicesManage;
   PermDeliveryApplicationEnvApprove; PermDeliveryApplicationEnvView;
   PermDeliveryApplicationEnvManage; PermDeliveryWorkflowTemplatesView;
   PermDeliveryWorkflowTemplatesManage; PermDeliveryDeploymentTemplatesView;
   PermDeliveryBuildTemplatesView; PermDeliveryDeploymentTemplatesCreate;
   PermDeliveryDeploymentTemplatesUpdate; PermDeliveryDeploymentTemplatesDelete;
   PermDeliveryBuildTemplatesManage; PermDeliveryTriggersView; PermDeliveryTemplateSourcesView;
   PermDeliveryTriggersCreate; PermDeliveryTriggersUpdate; PermDeliveryTemplateSourcesCreate;
   PermDeliveryTemplateSourcesUpdate; PermDeliveryTemplateSourcesDelete;
   PermDeliveryTemplateSourcesSync; PermDeliveryBuildsTrigger; PermDeliveryReleaseBundlesView;
   PermDeliveryExecutionTasksView; PermDeliveryExecutionTasksManage; PermDeliveryReleaseBoardView;
   PermDeliveryWorkflowsView; PermDeliveryWorkflowsTrigger; PermDeliveryReleasesView;
   PermDeliveryReleasesTrigger; PermDeliveryRegistriesView; PermDeliveryRegistriesManage;
   PermDeliveryManifestSourcesManage; PermDeliveryManifestDeploymentsManage;
   PermDeliveryManifestDriftRepair; PermDeliveryManifestDriftAdopt;
   PermDeliveryManifestFieldsForce; PermObserveMonitoringView; PermObserveDashboardsManage;
   PermObserveLogDataSourcesView; PermObserveLogDataSourcesManage; PermObserveLogCollectionManage;
   PermObserveAlertsView; PermObserveAlertsAcknowledge; PermObserveAlertsAssign;
   PermObserveAlertsManage; PermObserveAlertRulesView; PermObserveAlertRulesManage;
   PermObserveAlertIntegrationsView; PermObserveAlertIntegrationsManage;
   PermObserveNotificationsView; PermObserveNotificationsManage; PermObserveOncallView;
   PermObserveOncallManage; PermObserveHealingView; PermObserveHealingManage;
   PermObserveEventsView; PermObserveAIView; PermObserveAIChatUse; PermObserveAIRootCauseRun;
   PermObserveAIInspectionManage; PermObserveAIInspectionRun; PermAIKnowledgeView;
   PermAIKnowledgeManage; PermAIKnowledgeConnectorsView; PermAIKnowledgeConnectorsManage;
   PermAIKnowledgeIngestionOperate; PermAIKnowledgeRebuild; PermAIKnowledgeGraphManage;
   PermAIContextInspect; PermAIDataSourcesCreate; PermAIDataSourcesUpdate;
   PermAIDataSourcesValidate; PermAIDataSourcesView; PermAIEvaluationsView;
   PermAIEvaluationsManage; PermAIEvaluationsExecute; PermAIEvaluationsGatesManage;
   PermAIEvaluationsFeedbackCurate; PermAIAgentProvidersView; PermAIAgentProvidersManage;
   PermAIAgentFleetView; PermAIAgentFleetManage; PermAIEnvironmentsView; PermAIEnvironmentsManage;
   PermAIMemoryView; PermAIMemoryManage; PermAIMultiAgentRun; PermAIOperationsView;
   PermAIOperationsManage; PermAIGatewayView; PermAIGatewayInvoke; PermAIGatewayManage;
   PermAIGatewayApprovalsManage; PermAIGatewayClientsManage; PermAIGatewayGrantsManage;
   PermAIGatewayPoliciesManage; PermAIGatewaySkillsManage; PermAIGatewayTokensManage;
   PermAIGatewayRelayView; PermAIGatewayRelayInvoke; PermAIGatewayRelayManage; PermPluginView;
   PermPluginInstall; PermPluginManage; PermPluginConfigure; PermPluginConfigureSecrets;
   PermPluginLifecycle; PermPluginRemove; PermPluginUpgrade; PermSecretView; PermSecretManage;
   PermSecretUse; PermSecretCreate; PermSecretRevoke; PermSecretRotate; PermSecretUpdate;
   PermIdentityPortalView; PermIdentityApplicationsView; PermIdentityApplicationsManage;
   PermIdentityProvidersView; PermIdentityProvidersManage; PermIdentityOutpostsView;
   PermIdentityOutpostsManage; PermIdentityPoliciesView; PermIdentityPoliciesManage;
   PermIdentityAuditView; PermVirtualizationOverviewView; PermVirtualizationVMsView;
   PermVirtualizationVMsManage; PermVirtualizationVMsCreate; PermVirtualizationVMsPower;
   PermVirtualizationVMsResize; PermVirtualizationVMsDelete; PermVirtualizationClustersView;
   PermVirtualizationClustersManage; PermVirtualizationImagesView; PermVirtualizationImagesManage;
   PermVirtualizationStorageView; PermVirtualizationFlavorsView; PermVirtualizationFlavorsManage;
   PermVirtualizationOperationsView; PermVirtualizationOperationsManage;
   PermVirtualizationSyncView; PermVirtualizationSyncManage; PermVirtualizationVMsMetrics;
   PermVirtualizationVMsConsole; PermDockerOverviewView; PermDockerHostsView;
   PermDockerHostsManage; PermDockerProjectsView; PermDockerProjectsManage;
   PermDockerProjectsDeploy; PermDockerServicesView; PermDockerServicesManage; PermDockerPortsView;
   PermDockerPortsManage; PermDockerTemplatesView; PermDockerTemplatesManage;
   PermDockerOperationsView; PermDockerOperationsManage; PermAccessUsersView;
   PermAccessUsersManage; PermAccessRolesView; PermAccessRolesManage; PermAccessGroupsView;
   PermAccessGroupsManage; PermAccessPoliciesView; PermAccessPoliciesManage;
   PermAccessScopeGrantsView; PermAccessScopeGrantsManage; PermAccessDirectoryView;
   PermAccessDirectoryManage; PermAccessDirectorySync; PermAccessDirectoryPeopleManage;
   PermAccessIdentityLinkManage; PermSystemOnlineUsersView; PermSystemOnlineUsersManage;
   PermSystemAnnouncementsView; PermSystemAnnouncementsManage; PermSystemMenusView;
   PermSystemMenusManage; PermSystemAuditView; PermSystemOperationsView; PermSettingsIdentityView;
   PermSettingsIdentityManage; PermSettingsAIView; PermSettingsAIManage; PermSettingsBrandingView;
   PermSettingsBrandingManage; PermSettingsRuntimeConfigView; PermSettingsRuntimeConfigManage;
   PermSettingsSystemIntegrationsView; PermSettingsSystemIntegrationsManage;
   PermSoftwarePackageCreate; PermSoftwarePackageDelete; PermDockerDLPAppealsReview;
   PermNetworkDLPLinkageManage; PermDockerDLPPolicyView; PermDockerDLPPolicyUpdate;
   PermDockerDLPPolicyPublish; PermDockerDLPEventsView; PermSoftwarePackageView].

Definition opsRolePermissionKeys : list string := [
   PermDeliveryTriggersView; PermDeliveryTemplateSourcesView; PermDeliveryTriggersCreate;
   PermDeliveryTriggersUpdate; PermDeliveryTemplateSourcesCreate;
   PermDeliveryTemplateSourcesUpdate; PermDeliveryTemplateSourcesDelete;
   PermDeliveryTemplateSourcesSync; PermWorkbenchAIView; PermWorkbenchComputeView;
   PermWorkbenchDeliveryView; PermWorkbenchHomeView; PermWorkbenchMonitoringView;
   PermWorkbenchPlatformView; PermWorkbenchSecurityView; PermWorkbenchSettingsView;
   PermSoftwarePackageView; PermWorkspaceApplicationView; PermWorkspaceResourceView;
   PermOverviewView; PermPlatformNodesView; PermPlatformNamespacesView; PermPlatformWorkloadsView;
   PermPlatformConfigurationView; PermPlatformConfigurationSecretDataView; PermPlatformNetworkView;
   PermPlatformStorageView; PermPlatformExtensionsView; PermPlatformHelmView;
   PermPlatformHelmValuesView; PermPlatformClustersView; PermPlatformResourceCreationUse;
   PermPlatformDeploymentCreate; PermPlatformDeploymentRestart; PermPlatformDeploymentScale;
   PermPlatformDeploymentRollback; PermPlatformDeploymentUpdate; PermPlatformDeploymentView;
   PermPlatformPodsLogs; PermPlatformPodsView; PermDeliveryApplicationsView;
   PermDeliveryApplicationsCreate; PermDeliveryApplicationsUpdate;
   PermDeliveryApplicationServicesView; PermDeliveryApplicationServicesManage;
   PermDeliveryApplicationEnvView; PermDeliveryApplicationEnvManage;
   PermDeliveryWorkflowTemplatesView; PermDeliveryWorkflowTemplatesManage;
   PermDeliveryDeploymentTemplatesView; PermDeliveryBuildTemplatesView;
   PermDeliveryDeploymentTemplatesCreate; PermDeliveryDeploymentTemplatesUpdate;
   PermDeliveryDeploymentTemplatesDelete; PermDeliveryBuildTemplatesManage;
   PermDeliveryBuildsTrigger; PermDeliveryReleaseBundlesView; PermDeliveryExecutionTasksView;
   PermDeliveryExecutionTasksManage; PermDeliveryReleaseBoardView; PermDeliveryWorkflowsView;
   PermDeliveryWorkflowsTrigger; PermDeliveryReleasesView; PermDeliveryReleasesTrigger;
   PermDeliveryRegistriesView; PermDeliveryRegistriesManage; PermDeliveryManifestSourcesManage;
   PermDeliveryManifestDeploymentsManage; PermDeliveryManifestDriftRepair;
   PermDeliveryManifestDriftAdopt; PermObserveMonitoringView; PermObserveLogDataSourcesView;
   PermObserveLogDataSourcesManage; PermObserveAlertsView; PermObserveAlertsAcknowledge;
   PermObserveAlertsAssign; PermObserveAlertsManage; PermObserveAlertRulesView;
   PermObserveAlertRulesManage; PermObserveAlertIntegrationsView;
   PermObserveAlertIntegrationsManage; PermObserveNotificationsView;
   PermObserveNotificationsManage; PermObserveOncallView; PermObserveOncallManage;
   PermObserveHealingView; PermObserveHealingManage; PermObserveEventsView; PermObserveAIView;
   PermObserveAIChatUse; PermObserveAIRootCauseRun; PermObserveAIInspectionManage;
   PermObserveAIInspectionRun; PermAIKnowledgeView; PermAIKnowledgeManage;
   PermAIKnowledgeConnectorsView; PermAIKnowledgeConnectorsManage; PermAIKnowledgeIngestionOperate;
   PermAIContextInspect; PermAIEvaluationsView; PermAIEvaluationsManage; PermAIAgentProvidersView;
   PermAIAgentProvidersManage; PermAIGatewayView; PermAIGatewayInvoke; PermAIGatewayManage;
   PermAIGatewayRelayView; PermAIGatewayRelayInvoke; PermAIGatewayRelayManage; PermPluginView;
   PermPluginInstall; PermPluginManage; PermPluginConfigureSecrets; PermSecretView;
   PermSecretManage; PermSecretUse; PermIdentityPortalView; PermIdentityAuditView;
   PermVirtualizationOverviewView; PermVirtualizationVMsView; PermVirtualizationVMsManage;
   PermVirtualizationVMsCreate; PermVirtualizationVMsPower; PermVirtualizationVMsResize;
   PermVirtualizationVMsDelete; PermVirtualizationClustersView; PermVirtualizationImagesView;
   PermVirtualizationImagesManage; PermVirtualizationStorageView; PermVirtualizationFlavorsView;
   PermVirtualizationOperationsView; PermVirtualizationSyncView; PermVirtualizationSyncManage;
   PermVirtualizationVMsMetrics; PermVirtualizationVMsConsole; PermDockerOverviewView;
   PermDockerHostsView; PermDockerHostsManage; PermDockerProjectsView; PermDockerProjectsManage;
   PermDockerProjectsDeploy; PermDockerServicesView; PermDockerServicesManage; PermDockerPortsView;
   PermDockerPortsManage; PermDockerTemplatesView; PermDockerTemplatesManage;
   PermDockerOperationsView; PermDockerOperationsManage; PermSystemAuditView;
   PermSystemOperationsView; PermAccessUsersView; PermAccessUsersManage; PermAccessRolesView;
   PermAccessRolesManage; PermAccessGroupsView; PermAccessGroupsManage; PermAccessPoliciesView;
   PermAccessPoliciesManage; PermAccessScopeGrantsView; PermAccessScopeGrantsManage;
   PermAccessDirectoryView; PermAccessDirectoryManage; PermAccessDirectorySync;
   PermAccessDirectoryPeopleManage; PermAccessIdentityLinkManage; PermSettingsAIView;
   PermSettingsAIManage; PermSettingsBrandingView; PermSettingsBrandingManage;
   PermSettingsRuntimeConfigView].

Definition developerRolePermissionKeys : list string := [
   PermDeliveryTriggersView; PermDeliveryTemplateSourcesView; PermWorkbenchAIView;
   PermWorkbenchComputeView; PermWorkbenchDeliveryView; PermWorkbenchHomeView;
   PermWorkbenchMonitoringView; PermWorkbenchPlatformView; PermWorkbenchSecurityView;
   PermWorkbenchSettingsView; PermSoftwarePackageView; PermWorkspaceApplicationView;
   PermWorkspaceResourceView; PermOverviewView; PermPlatformNodesView; PermPlatformNamespacesView;
   PermPlatformWorkloadsView; PermPlatformConfigurationView; PermPlatformNetworkView;
   PermPlatformStorageView; PermPlatformExtensionsView; PermPlatformHelmView;
   PermPlatformDeploymentRestart; PermPlatformDeploymentScale; PermPlatformDeploymentView;
   PermPlatformPodsLogs; PermPlatformPodsView; PermObserveMonitoringView; PermObserveAlertsView;
   PermObserveAlertsAcknowledge; PermObserveAlertIntegrationsView; PermObserveEventsView;
   PermObserveAIView; PermObserveAIChatUse; PermObserveAIRootCauseRun; PermObserveAIInspectionRun;
   PermAIKnowledgeView; PermAIKnowledgeConnectorsView; PermAIContextInspect; PermAIEvaluationsView;
   PermAIEvaluationsManage; PermAIAgentProvidersView; PermAIGatewayView; PermAIGatewayInvoke;
   PermAIGatewayRelayView; PermAIGatewayRelayInvoke; PermSecretView; PermSecretUse; PermPluginView;
   PermIdentityPortalView; PermDeliveryApplicationsView; PermDeliveryApplicationServicesView;
   PermDeliveryApplicationEnvView; PermDeliveryWorkflowTemplatesView;
   PermDeliveryDeploymentTemplatesView; PermDeliveryBuildTemplatesView; PermDeliveryBuildsTrigger;
   PermDeliveryReleaseBundlesView; PermDeliveryExecutionTasksView; PermDeliveryReleaseBoardView;
   PermDeliveryWorkflowsView; PermDeliveryWorkflowsTrigger; PermDeliveryReleasesView;
   PermDeliveryReleasesTrigger; PermDeliveryManifestSourcesManage;
   PermDeliveryManifestDeploymentsManage; PermDockerOverviewView; PermDockerHostsView;
   PermDockerProjectsView; PermDockerProjectsManage; PermDockerProjectsDeploy;
   PermDockerServicesView; PermDockerServicesManage; PermDockerPortsView; PermDockerPortsManage;
   PermDockerTemplatesView; PermDockerOperationsView].

Definition testerRolePermissionKeys : list string := [
   PermWorkbenchDeliveryView; PermWorkbenchHomeView; PermSoftwarePackageView;
   PermWorkspaceApplicationView; PermOverviewView; PermDeliveryApplicationsView;
   PermDeliveryApplicationServicesView; PermDeliveryApplicationEnvView;
   PermDeliveryReleaseBundlesView; PermDeliveryExecutionTasksView; PermIdentityPortalView].

Definition readonlyRolePermissionKeys : list string := [
   PermWorkbenchAIView; PermWorkbenchComputeView; PermWorkbenchDeliveryView; PermWorkbenchHomeView;
   PermWorkbenchMonitoringView; PermWorkbenchPlatformView; PermWorkbenchSecurityView;
   PermWorkbenchSettingsView; PermSoftwarePackageView; PermWorkspaceApplicationView;
   PermWorkspaceResourceView; PermOverviewView; PermPlatformNodesView; PermPlatformNamespacesView;
   PermPlatformWorkloadsView; PermPlatformConfigurationView; PermPlatformNetworkView;
   PermPlatformStorageView; PermPlatformExtensionsView; PermPlatformHelmView;
   PermPlatformClustersView; PermPlatformDeploymentView; PermPlatformPodsLogs;
   PermPlatformPodsView; PermDeliveryApplicationsView; PermDeliveryApplicationServicesView;
   PermDeliveryApplicationEnvView; PermDeliveryReleaseBundlesView; PermDeliveryExecutionTasksView;
   PermDeliveryReleaseBoardView; PermDeliveryWorkflowsView; PermDeliveryReleasesView;
   PermObserveMonitoringView; PermObserveAlertsView; PermObserveAlertIntegrationsView;
   PermObserveEventsView; PermObserveAIView; PermAIKnowledgeView; PermAIKnowledgeConnectorsView;
   PermAIContextInspect; PermAIEvaluationsView; PermAIAgentProvidersView; PermAIGatewayView;
   PermAIGatewayRelayView; PermSecretView; PermPluginView; PermIdentityPortalView;
   PermDockerOverviewView; PermDockerHostsView; PermDockerProjectsView; PermDockerServicesView;
   PermDockerPortsView; PermDockerTemplatesView; PermDockerOperationsView].

Definition auditorRolePermissionKeys : list string := [
   PermWorkbenchHomeView; PermWorkbenchMonitoringView; PermWorkbenchPlatformView;
   PermWorkbenchSecurityView; PermWorkbenchSettingsView; PermSoftwarePackageView;
   PermWorkspaceResourceView; PermOverviewView; PermObserveMonitoringView; PermObserveAlertsView;
   PermObserveAlertIntegrationsView; PermObserveNotificationsView; PermObserveEventsView;
   PermSystemAuditView; PermSystemOperationsView; PermPluginView; PermIdentityPortalView;
   PermIdentityAuditView].

