(* ===== verification/PermissionResolver.v ===== *)
(** * Permission keys of principals

    [permission_catalog.go], [permission_resolver.go] and the functions of
    [permissions.go] in [internal/application/access].

    The canonical permission catalog is decoded from a module outside the
    repository: it is the class [CatalogSource].  The process-wide role matrix
    ([rolePermissionMatrix]) is explicit state; the repository of role
    permissions is its answer, a map or an error. *)

From Stdlib Require Import Ascii.
From S2P Require Import Prelude GoStrings AccessModel ScopeHelpers PermissionTables.

(** ** The catalog *)

Record PermissionDefinition := {
  Definition_Key : string;
  Definition_Action : string;
  Definition_Status : string;
  Definition_Assignable : bool;
  Definition_ApprovalPolicy : string;
  Definition_LegacyAliases : list string;
  Definition_ReplacedBy : list string;
  Definition_LegacyCapabilities : list string
}.

Record PermissionCatalog := {
  Catalog_ContentHash : string;
  Catalog_Permissions : list PermissionDefinition
}.

(** The embedded catalog, decoded, and the value of the status [active]. *)
Class CatalogSource := {
  decoded_catalog : result PermissionCatalog;
  PermissionStatusActive : string
}.

Definition zero_PermissionDefinition : PermissionDefinition :=
  {| Definition_Key := ""; Definition_Action := ""; Definition_Status := "";
     Definition_Assignable := false; Definition_ApprovalPolicy := "";
     Definition_LegacyAliases := []; Definition_ReplacedBy := [];
     Definition_LegacyCapabilities := [] |}.

Definition loadPermissionCatalog `{CatalogSource} : result PermissionCatalog :=
  map_err (wrapf "decode embedded permission catalog") decoded_catalog.

Definition permissionDefinition `{CatalogSource} (permissionKey : string)
    : result (PermissionDefinition * bool) :=
  let* catalog := loadPermissionCatalog in
  match find_first (fun d => String.eqb (Definition_Key d) (TrimSpace permissionKey))
          (Catalog_Permissions catalog) with
  | Some definition => Ok (definition, true)
  | None => Ok (zero_PermissionDefinition, false)
  end.

Definition IsActiveAssignablePermission `{CatalogSource} (permissionKey : string) : bool :=
  match permissionDefinition permissionKey with
  | Ok (definition, found) =>
      found && String.eqb (Definition_Status definition) PermissionStatusActive &&
      Definition_Assignable definition
  | Err _ => false
  end.

(** The loop keeps the first of equal values, in order. *)
Definition add_key (keys : list string) (key : string) : list string :=
  if contains keys key then keys else keys ++ [key].

Definition normalizePermissionKeys (permissionKeys : list string) : list string :=
  sort_strings (fold_left (fun keys permissionKey =>
    let value := TrimSpace permissionKey in
    if str_empty value then keys else add_key keys value) permissionKeys []).

(** One definition of the loop of [expandLegacyPermissionKeys]. *)
Definition expand_definition (keys : list string) (definition : PermissionDefinition) : list string :=
  let key := Definition_Key definition in
  let keys := fold_left (fun keys alias => if contains keys alias then add_key keys key else keys)
                (Definition_LegacyAliases definition) keys in
  if contains keys key then fold_left add_key (Definition_ReplacedBy definition) keys else keys.

Definition expandLegacyPermissionKeys `{CatalogSource} (permissionKeys : list string)
    : result (list string) :=
  let* catalog := loadPermissionCatalog in
  Ok (normalizePermissionKeys
    (fold_left expand_definition (Catalog_Permissions catalog) (normalizePermissionKeys permissionKeys))).

(** The inner loop of [CanonicalAssignablePermissionKeys]: whether the key is
    known, or [None] when it is an active key that cannot be assigned. *)
Fixpoint known_key `{CatalogSource} (key : string) (known : bool)
    (definitions : list PermissionDefinition) : option bool :=
  match definitions with
  | [] => Some known
  | d :: rest =>
      if String.eqb (Definition_Key d) key then
        if String.eqb (Definition_Status d) PermissionStatusActive && negb (Definition_Assignable d)
        then None else Some true
      else known_key key (known || contains (Definition_LegacyAliases d) key) rest
  end.

Fixpoint check_keys `{CatalogSource} (definitions : list PermissionDefinition) (keys : list string)
    : result unit :=
  match keys with
  | [] => Ok tt
  | key :: rest =>
      match known_key key false definitions with
      | None => Err (errorf ErrInvalidArgument
          ("permission key " +:+ quoted key +:+ " is not assignable"))
      | Some false => Err (errorf ErrInvalidArgument
          ("unknown permission key " +:+ quoted key))
      | Some true => check_keys definitions rest
      end
  end.

Definition CanonicalAssignablePermissionKeys `{CatalogSource} (permissionKeys : list string)
    : result (list string) :=
  let* catalog := loadPermissionCatalog in
  let* _ := check_keys (Catalog_Permissions catalog) (normalizePermissionKeys permissionKeys) in
  let* expanded := expandLegacyPermissionKeys permissionKeys in
  Ok (normalizePermissionKeys
    (filter (fun key => IsActiveAssignablePermission key = true) expanded)).

(** ** The process-wide role matrix *)

(** [rolePermissionMatrix]; [None] is the nil map. *)
Abbreviation RoleMatrixCache := (option (gmap string (list string))).

Definition allPermissionKeys `{CatalogSource} : list string :=
  normalizePermissionKeys (allPermissionKeySet ++
    match loadPermissionCatalog with
    | Ok catalog => Definition_Key <$> Catalog_Permissions catalog
    | Err _ => []
    end).

Definition defaultRolePermissions `{CatalogSource} : gmap string (list string) :=
  {[ "admin" := allPermissionKeys;
     "ops" := opsRolePermissionKeys ++ resourceMonitoringPermissionKeys;
     "developer" := developerRolePermissionKeys;
     "tester" := testerRolePermissionKeys;
     "readonly" := readonlyRolePermissionKeys ++ resourceMonitoringPermissionKeys;
     "auditor" := auditorRolePermissionKeys ]}.

Definition SetRolePermissionMatrix `{MapRange} (matrix : gmap string (list string))
    (cache : RoleMatrixCache) : RoleMatrixCache :=
  if bool_decide (matrix = ∅) then None
  else Some (fold_left (fun m roleID =>
         <[TrimSpace roleID := normalizePermissionKeys (lookup_default [] matrix roleID)]> m)
         (range_keys (dom matrix)) ∅).

Definition SetRolePermissionKeys (roleID : string) (permissionKeys : list string)
    (cache : RoleMatrixCache) : RoleMatrixCache :=
  Some (<[TrimSpace roleID := normalizePermissionKeys permissionKeys]> (default ∅ cache)).

Definition DeleteRolePermissionKeys (roleID : string) (cache : RoleMatrixCache) : RoleMatrixCache :=
  let remaining := delete (TrimSpace roleID) (default ∅ cache) in
  if bool_decide (remaining = ∅) then None else Some remaining.

Definition effectiveRolePermissionMatrix `{CatalogSource} (cache : RoleMatrixCache)
    : gmap string (list string) :=
  default ∅ cache ∪ defaultRolePermissions.

(** The keys of the roles in a matrix, each once, then normalized. *)
Definition collect_keys (matrix : gmap string (list string)) (roles : list string) : list string :=
  normalizePermissionKeys (fold_left (fun keys role =>
    fold_left add_key (lookup_default [] matrix (TrimSpace role)) keys) roles []).

Definition PermissionKeysForRoles `{CatalogSource} (cache : RoleMatrixCache) (roles : list string)
    : list string :=
  collect_keys (effectiveRolePermissionMatrix cache) roles.

Definition HasPermission `{CatalogSource} (cache : RoleMatrixCache) (roles : list string)
    (permissionKey : string) : bool :=
  if blank permissionKey then true
  else contains (PermissionKeysForRoles cache roles) (TrimSpace permissionKey).

(** ** The resolver *)

(** The answer of the role permission repository, or [None] when the resolver
    or its repository is nil. *)
Abbreviation PermissionResolver := (option (result (gmap string (list string)))).

Definition runtimeResolverUnavailable (permissionKey : string) : error :=
  let permissionKey := TrimSpace permissionKey in
  if str_empty permissionKey then errorf ErrAccessDenied "runtime permission resolver unavailable"
  else errorf ErrAccessDenied ("runtime permission resolver unavailable for " +:+ permissionKey).

(** A call that reads and may replace the process-wide matrix. *)
Definition rolePermissionKeys `{CatalogSource, MapRange} (r : PermissionResolver) (roles : list string)
    (cache : RoleMatrixCache) : result (list string) * RoleMatrixCache :=
  match r with
  | None => (Err (runtimeResolverUnavailable ""), cache)
  | Some (Err e) => (Err (wrapf "load role permissions" e), cache)
  | Some (Ok matrix) =>
      if bool_decide (matrix = ∅) then (Ok (PermissionKeysForRoles cache roles), cache)
      else (Ok (collect_keys matrix roles), SetRolePermissionMatrix matrix cache)
  end.

Definition PermissionKeys `{CatalogSource, MapRange} (r : PermissionResolver) (principal : Principal)
    (cache : RoleMatrixCache) : result (list string) * RoleMatrixCache :=
  let '(keys, cache) := rolePermissionKeys r (Principal_Roles principal) cache in
  (let* keys := keys in
   let* keys := expandLegacyPermissionKeys keys in
   if is_empty (Principal_PermissionKeys principal) then Ok keys else
   let* allowedCaps := expandLegacyPermissionKeys (Principal_PermissionKeys principal) in
   Ok (normalizePermissionKeys (filter (fun key => contains allowedCaps key = true) keys)), cache).

(** The map of results: the expansion of every role, or the first error. *)
Definition RolePermissionMatrix `{CatalogSource} (r : PermissionResolver)
    : result (gmap string (list string)) :=
  match r with
  | None => Err (runtimeResolverUnavailable "")
  | Some (Err e) => Err (wrapf "load role permissions" e)
  | Some (Ok matrix) =>
      let matrix := if bool_decide (matrix = ∅) then defaultRolePermissions else matrix in
      match loadPermissionCatalog with
      | Err e => Err e
      | Ok _ => Ok ((fun keys => match expandLegacyPermissionKeys keys with
                                 | Ok expanded => expanded | Err _ => [] end) <$> matrix)
      end
  end.

Definition resolver_HasPermission `{CatalogSource, MapRange} (r : PermissionResolver)
    (principal : Principal) (permissionKey : string) (cache : RoleMatrixCache)
    : result bool * RoleMatrixCache :=
  if blank permissionKey then (Ok true, cache) else
  let '(keys, cache) := PermissionKeys r principal cache in
  (let* keys := keys in Ok (contains keys (TrimSpace permissionKey)), cache).

Definition resolver_Authorize `{CatalogSource, MapRange} (r : PermissionResolver)
    (principal : Principal) (permissionKey : string) (cache : RoleMatrixCache)
    : result unit * RoleMatrixCache :=
  let '(allowed, cache) := resolver_HasPermission r principal permissionKey cache in
  (let* allowed := allowed in
   if allowed : bool then Ok tt
   else Err (errorf ErrAccessDenied ("missing permission " +:+ TrimSpace permissionKey)), cache).

Definition AuthorizeAny `{CatalogSource, MapRange} (r : PermissionResolver)
    (principal : Principal) (permissionKeys : list string) (cache : RoleMatrixCache)
    : result unit * RoleMatrixCache :=
  let '(keys, cache) := PermissionKeys r principal cache in
  (let* keys := keys in
   if existsb (fun permissionKey =>
        let permissionKey := TrimSpace permissionKey in
        str_empty permissionKey || contains keys permissionKey) permissionKeys
   then Ok tt
   else Err (errorf ErrAccessDenied ("missing any permission " +:+ Join permissionKeys ",")), cache).

Definition AuthorizeRuntimePermission `{CatalogSource, MapRange} (resolver : PermissionResolver)
    (principal : Principal) (permissionKey : string) (cache : RoleMatrixCache)
    : result unit * RoleMatrixCache :=
  match resolver with
  | None => (Err (runtimeResolverUnavailable permissionKey), cache)
  | Some _ => resolver_Authorize resolver principal permissionKey cache
  end.

Definition AuthorizeAnyRuntimePermission `{CatalogSource, MapRange} (resolver : PermissionResolver)
    (principal : Principal) (permissionKeys : list string) (cache : RoleMatrixCache)
    : result unit * RoleMatrixCache :=
  match resolver with
  | None => (Err (runtimeResolverUnavailable (Join permissionKeys ",")), cache)
  | Some _ => AuthorizeAny resolver principal permissionKeys cache
  end.

Definition RuntimePermissionKeys `{CatalogSource, MapRange} (resolver : PermissionResolver)
    (principal : Principal) (cache : RoleMatrixCache) : result (list string) * RoleMatrixCache :=
  match resolver with
  | None => (Err (runtimeResolverUnavailable ""), cache)
  | Some _ => PermissionKeys resolver principal cache
  end.

Definition set_Principal_PermissionKeys (keys : list string) (p : Principal) : Principal :=
  {| Principal_UserID := Principal_UserID p; Principal_UserName := Principal_UserName p;
     Principal_Email := Principal_Email p; Principal_AvatarURL := Principal_AvatarURL p;
     Principal_AvatarFit := Principal_AvatarFit p; Principal_Roles := Principal_Roles p;
     Principal_Teams := Principal_Teams p; Principal_Projects := Principal_Projects p;
     Principal_Tags := Principal_Tags p; Principal_PermissionKeys := keys;
     Principal_AccessTokenID := Principal_AccessTokenID p |}.

Definition RuntimePrincipalWithin `{CatalogSource, MapRange} (resolver : PermissionResolver)
    (principal : Principal) (ceiling : list string) (cache : RoleMatrixCache)
    : result Principal * RoleMatrixCache :=
  let '(keys, cache) := RuntimePermissionKeys resolver principal cache in
  (let* keys := keys in
   let within := filter (fun key => contains ceiling key = true) keys in
   if is_empty within then Err (sentinel ErrAccessDenied)
   else Ok (set_Principal_PermissionKeys within principal), cache).

(** ** Permission names *)

(** [panic] is [None]. *)
Definition ManagedActionPermission (managePermissionKey action : string) : option string :=
  let managePermissionKey := TrimSpace managePermissionKey in
  let action := TrimSpace action in
  if negb (HasSuffix managePermissionKey ".manage") || str_empty action then None
  else Some (TrimSuffix managePermissionKey ".manage" +:+ "." +:+ action).

(** ** Specification *)

(** The keys that follow from given keys: a definition replaces its aliases,
    and a key is replaced by the successors its definition names. *)
Inductive legacy_derives (definitions : list PermissionDefinition) (keys : list string) : string -> Prop :=
| derive_given x : x ∈ keys -> legacy_derives definitions keys x
| derive_alias d alias :
    d ∈ definitions -> alias ∈ Definition_LegacyAliases d ->
    legacy_derives definitions keys alias -> legacy_derives definitions keys (Definition_Key d)
| derive_successor d x :
    d ∈ definitions -> x ∈ Definition_ReplacedBy d ->
    legacy_derives definitions keys (Definition_Key d) -> legacy_derives definitions keys x.

(** The definitions of the catalog, none when it cannot be decoded. *)
Definition catalog_definitions `{CatalogSource} : list PermissionDefinition :=
  match loadPermissionCatalog with Ok catalog => Catalog_Permissions catalog | Err _ => [] end.

(** The key stays within a ceiling: it follows from the keys of the ceiling. *)
Definition within_ceiling `{CatalogSource} (ceiling : list string) (key : string) : Prop :=
  exists x, legacy_derives catalog_definitions (trimmed_values ceiling) x /\ key = TrimSpace x.

(** ** Lemmas *)

Lemma elem_of_add_key keys k x : x ∈ add_key keys k <-> x ∈ keys \/ x = k.
Proof.
  unfold add_key. destruct (contains keys k) eqn:Hk; [|set_solver].
  apply contains_true in Hk. set_solver.
Qed.

Lemma NoDup_add_key keys k : NoDup keys -> NoDup (add_key keys k).
Proof.
  unfold add_key. destruct (contains keys k) eqn:Hk; [done|]. apply contains_false in Hk.
  intros Hn. apply NoDup_app. split_and!; [done|set_solver|apply NoDup_singleton].
Qed.

Lemma elem_of_fold_add l keys x : x ∈ fold_left add_key l keys <-> x ∈ keys \/ x ∈ l.
Proof.
  revert keys. induction l as [|k l IH]; intros keys; simpl; [set_solver|].
  rewrite IH, elem_of_add_key. set_solver.
Qed.

(** The keys of the loop of [normalizePermissionKeys]. *)
Lemma normalize_fold l keys :
  NoDup keys ->
  let r := fold_left (fun keys permissionKey =>
    let value := TrimSpace permissionKey in
    if str_empty value then keys else add_key keys value) l keys in
  NoDup r /\ forall x, x ∈ r <-> x ∈ keys \/ x ∈ trimmed_values l.
Proof.
  revert keys. induction l as [|k l IH]; intros keys Hn; simpl; [split; [done|set_solver]|].
  destruct (str_empty (TrimSpace k)) eqn:Hk.
  - destruct (IH keys Hn) as [? Hx]. split; [done|]. intros x. rewrite Hx, !elem_of_trimmed_values.
    apply String.eqb_eq in Hk. setoid_rewrite elem_of_cons. naive_solver.
  - destruct (IH (add_key keys (TrimSpace k)) (NoDup_add_key _ _ Hn)) as [? Hx]. split; [done|].
    intros x. rewrite Hx, elem_of_add_key, !elem_of_trimmed_values. apply String.eqb_neq in Hk.
    setoid_rewrite elem_of_cons. naive_solver.
Qed.

Lemma elem_of_normalize l x : x ∈ normalizePermissionKeys l <-> x ∈ trimmed_values l.
Proof.
  unfold normalizePermissionKeys. rewrite elem_of_sort_strings.
  destruct (normalize_fold l [] (NoDup_nil_2)) as [_ ->]. set_solver.
Qed.

Lemma NoDup_normalize l : NoDup (normalizePermissionKeys l).
Proof.
  unfold normalizePermissionKeys, sort_strings. rewrite merge_sort_Permutation.
  apply (normalize_fold l [] NoDup_nil_2).
Qed.

(** The normal form depends on the trimmed values only. *)
Lemma normalize_ext l1 l2 :
  (forall x, x ∈ trimmed_values l1 <-> x ∈ trimmed_values l2) ->
  normalizePermissionKeys l1 = normalizePermissionKeys l2.
Proof.
  intros Hx. apply sorted_strings_ext; try apply sort_strings_sorted; try apply NoDup_normalize.
  intros x. by rewrite !elem_of_normalize.
Qed.

Lemma trimmed_normalize l x : x ∈ trimmed_values (normalizePermissionKeys l) <-> x ∈ trimmed_values l.
Proof.
  rewrite elem_of_trimmed_values. setoid_rewrite elem_of_normalize. setoid_rewrite elem_of_trimmed_values.
  split.
  - intros (? & v & (? & w & ? & ->) & ->). rewrite TrimSpace_idem in *. eauto.
  - intros (? & v & ? & ->). split; [done|]. exists (TrimSpace v). rewrite TrimSpace_idem. eauto 10.
Qed.

Lemma normalize_idem l : normalizePermissionKeys (normalizePermissionKeys l) = normalizePermissionKeys l.
Proof. apply normalize_ext. intros x. apply trimmed_normalize. Qed.

#[export] Hint Rewrite elem_of_normalize trimmed_normalize normalize_idem elem_of_fold_add
  elem_of_add_key : soha.

Lemma alias_fold key aliases keys x :
  x ∈ fold_left (fun keys alias => if contains keys alias then add_key keys key else keys) aliases keys <->
  x ∈ keys \/ x = key /\ exists alias, alias ∈ aliases /\ alias ∈ keys.
Proof.
  revert keys. induction aliases as [|a l IH]; intros keys; simpl; [set_solver|].
  rewrite IH. destruct (contains keys a) eqn:Ha.
  - apply contains_true in Ha. setoid_rewrite elem_of_add_key. set_solver.
  - apply contains_false in Ha. set_solver.
Qed.

Lemma elem_of_expand_definition keys d x :
  let hit := Definition_Key d ∈ keys \/
    exists alias, alias ∈ Definition_LegacyAliases d /\ alias ∈ keys in
  x ∈ expand_definition keys d <->
  x ∈ keys \/ x = Definition_Key d /\ hit \/ x ∈ Definition_ReplacedBy d /\ hit.
Proof.
  unfold expand_definition. set (keys' := fold_left _ _ _). simpl.
  assert (forall y, y ∈ keys' <-> y ∈ keys \/ y = Definition_Key d /\
    exists alias, alias ∈ Definition_LegacyAliases d /\ alias ∈ keys) as Hk by apply alias_fold.
  destruct (contains keys' (Definition_Key d)) eqn:Hc.
  - apply contains_true, Hk in Hc. rewrite elem_of_fold_add, Hk. naive_solver.
  - apply contains_false in Hc. rewrite Hk in Hc |- *. naive_solver.
Qed.

(** Expansion is extensive, monotone and adds nothing that does not follow. *)
Lemma expand_fold_extensive defs keys x : x ∈ keys -> x ∈ fold_left expand_definition defs keys.
Proof.
  revert keys. induction defs as [|d defs IH]; intros keys Hx; simpl; [done|].
  apply IH, elem_of_expand_definition. by left.
Qed.

Lemma expand_fold_sound defs0 defs keys0 keys x :
  (forall d, d ∈ defs -> d ∈ defs0) -> (forall y, y ∈ keys -> legacy_derives defs0 keys0 y) ->
  x ∈ fold_left expand_definition defs keys -> legacy_derives defs0 keys0 x.
Proof.
  revert keys. induction defs as [|d defs IH]; intros keys Hd Hk; simpl; [auto|].
  apply IH; [set_solver|]. intros y [Hy|[[-> Hy]|[Hin Hy]]]%elem_of_expand_definition; [auto| |].
  - destruct Hy as [?|(alias & ? & ?)]; [auto|]. eapply derive_alias; [apply Hd; left|..]; eauto.
  - eapply derive_successor; [apply Hd; left|done|].
    destruct Hy as [?|(alias & ? & ?)]; [auto|]. eapply derive_alias; [apply Hd; left|..]; eauto.
Qed.

Lemma expand_within `{CatalogSource} keys expanded k :
  expandLegacyPermissionKeys keys = Ok expanded -> k ∈ expanded -> within_ceiling keys k.
Proof.
  unfold expandLegacyPermissionKeys, within_ceiling, catalog_definitions.
  destruct loadPermissionCatalog as [catalog|]; simpl; [|done]. intros [= <-].
  rewrite elem_of_normalize, elem_of_trimmed_values. intros (_ & v & Hv & ->). exists v. split; [|done].
  eapply expand_fold_sound, Hv; [done|]. intros y Hy%elem_of_normalize. by constructor.
Qed.

Lemma expand_fold_mono defs keys1 keys2 x :
  (forall y, y ∈ keys1 -> y ∈ keys2) ->
  x ∈ fold_left expand_definition defs keys1 -> x ∈ fold_left expand_definition defs keys2.
Proof.
  revert keys1 keys2. induction defs as [|d defs IH]; intros keys1 keys2 Hsub; simpl; [auto|].
  apply IH. intros y. rewrite !elem_of_expand_definition. naive_solver.
Qed.

(** The same of the expansion with its normal forms. *)
Lemma expand_extensive `{CatalogSource} keys expanded x :
  expandLegacyPermissionKeys keys = Ok expanded -> x ∈ trimmed_values keys -> x ∈ expanded.
Proof.
  unfold expandLegacyPermissionKeys. destruct loadPermissionCatalog as [catalog|]; simpl; [|done].
  intros [= <-] Hx. assert (TrimSpace x = x /\ x <> "") as [Ht Hne].
  { apply elem_of_trimmed_values in Hx as (? & v & _ & ->). by rewrite TrimSpace_idem. }
  apply elem_of_normalize, elem_of_trimmed_values. split; [done|]. exists x. split; [|done].
  by apply expand_fold_extensive, elem_of_normalize.
Qed.

Lemma expand_mono `{CatalogSource} keys1 keys2 expanded1 expanded2 x :
  expandLegacyPermissionKeys keys1 = Ok expanded1 -> expandLegacyPermissionKeys keys2 = Ok expanded2 ->
  (forall y, y ∈ trimmed_values keys1 -> y ∈ trimmed_values keys2) -> x ∈ expanded1 -> x ∈ expanded2.
Proof.
  unfold expandLegacyPermissionKeys. destruct loadPermissionCatalog as [catalog|]; simpl; [|done].
  intros [= <-] [= <-] Hsub. rewrite !elem_of_normalize, !elem_of_trimmed_values.
  intros (? & v & Hv & ->). split; [done|]. exists v. split; [|done].
  eapply expand_fold_mono, Hv. intros y. rewrite !elem_of_normalize. auto.
Qed.

Lemma expand_trimmed `{CatalogSource} keys expanded x :
  expandLegacyPermissionKeys keys = Ok expanded -> x ∈ trimmed_values expanded <-> x ∈ expanded.
Proof.
  unfold expandLegacyPermissionKeys. destruct loadPermissionCatalog as [catalog|]; simpl; [|done].
  intros [= <-]. by rewrite trimmed_normalize, elem_of_normalize.
Qed.

Lemma expand_ext `{CatalogSource} keys1 keys2 expanded1 expanded2 :
  expandLegacyPermissionKeys keys1 = Ok expanded1 -> expandLegacyPermissionKeys keys2 = Ok expanded2 ->
  (forall x, x ∈ expanded1 <-> x ∈ expanded2) -> expanded1 = expanded2.
Proof.
  unfold expandLegacyPermissionKeys. destruct loadPermissionCatalog as [catalog|]; simpl; [|done].
  intros [= <-] [= <-] Hx. apply normalize_ext. intros x. by rewrite <-!elem_of_normalize.
Qed.

(** A ceiling drawn from a ceiling stays within it. *)
Lemma within_ceiling_subset `{CatalogSource} ceiling narrowed k :
  (forall x, x ∈ narrowed -> x ∈ ceiling) -> within_ceiling narrowed k -> within_ceiling ceiling k.
Proof.
  intros Hsub (x & Hx & ->). exists x. split; [|done]. clear -Hx Hsub. induction Hx as [x Hx| |].
  - constructor. apply elem_of_trimmed_values in Hx as (? & v & ? & ->).
    apply elem_of_trimmed_values. eauto.
  - eapply derive_alias; eauto.
  - eapply derive_successor; eauto.
Qed.

Lemma elem_of_collect_keys matrix roles x :
  x ∈ collect_keys matrix roles <->
  exists role, role ∈ roles /\ x ∈ trimmed_values (lookup_default [] matrix (TrimSpace role)).
Proof.
  unfold collect_keys. rewrite elem_of_normalize.
  assert (forall keys, x ∈ trimmed_values (fold_left (fun keys role =>
    fold_left add_key (lookup_default [] matrix (TrimSpace role)) keys) roles keys) <->
    x ∈ trimmed_values keys \/ exists role, role ∈ roles /\
      x ∈ trimmed_values (lookup_default [] matrix (TrimSpace role))) as Hfold.
  { induction roles as [|role roles IH]; intros keys; simpl; [set_solver|]. rewrite IH.
    assert (x ∈ trimmed_values (fold_left add_key (lookup_default [] matrix (TrimSpace role)) keys) <->
      x ∈ trimmed_values keys \/ x ∈ trimmed_values (lookup_default [] matrix (TrimSpace role))) as ->.
    { rewrite !elem_of_trimmed_values. setoid_rewrite elem_of_fold_add. naive_solver. }
    set_solver. }
  rewrite Hfold. set_solver.
Qed.

(** The keys of one role are its normalized entry. *)
Lemma collect_keys_one matrix role :
  collect_keys matrix [role] = normalizePermissionKeys (lookup_default [] matrix (TrimSpace role)).
Proof.
  apply sorted_strings_ext; try apply sort_strings_sorted; try apply NoDup_normalize.
  intros x. rewrite elem_of_collect_keys, elem_of_normalize. set_solver.
Qed.

(** The keys a capped principal gets. *)
Lemma PermissionKeys_capped `{CatalogSource, MapRange} r principal cache cache' keys k :
  PermissionKeys r principal cache = (Ok keys, cache') ->
  Principal_PermissionKeys principal <> [] -> k ∈ keys ->
  within_ceiling (Principal_PermissionKeys principal) k /\
  exists uncapped, PermissionKeys r (set_Principal_PermissionKeys [] principal) cache = (Ok uncapped, cache') /\
    k ∈ trimmed_values uncapped.
Proof.
  unfold PermissionKeys. simpl. destruct (rolePermissionKeys r (Principal_Roles principal) cache) as [rk c'].
  destruct rk as [rk|e]; simpl; [|done].
  destruct (expandLegacyPermissionKeys rk) as [expanded|] eqn:He; simpl; [|done].
  destruct (Principal_PermissionKeys principal) as [|c cs] eqn:Hp; simpl; [done|].
  destruct (expandLegacyPermissionKeys (c :: cs)) as [caps|] eqn:Hc; simpl; [|done].
  intros [= <- <-] _. rewrite elem_of_normalize, elem_of_trimmed_values.
  intros (Hk & v & Hv & ->). apply list_elem_of_filter in Hv as [Hv%contains_true Hin].
  split.
  - destruct (expand_within _ _ _ Hc Hv) as (x & Hx & ->). exists x. by rewrite TrimSpace_idem.
  - exists expanded. split; [done|]. apply elem_of_trimmed_values. eauto.
Qed.

(** Expanding once more adds nothing. *)
Definition expansion_closed `{CatalogSource} (keys : list string) : Prop :=
  forall expanded, expandLegacyPermissionKeys keys = Ok expanded ->
    expandLegacyPermissionKeys expanded = Ok expanded.

Definition expand_or_nil `{CatalogSource} (keys : list string) : list string :=
  match expandLegacyPermissionKeys keys with Ok expanded => expanded | Err _ => [] end.

Lemma expand_total `{CatalogSource} catalog keys :
  loadPermissionCatalog = Ok catalog -> exists expanded, expandLegacyPermissionKeys keys = Ok expanded.
Proof. intros Hc. unfold expandLegacyPermissionKeys. rewrite Hc. simpl. eauto. Qed.

(** The keys of the roles are the same when the matrix is expanded first. *)
Lemma expand_expanded_matrix `{CatalogSource} matrix roles :
  expansion_closed (collect_keys matrix roles) ->
  expandLegacyPermissionKeys (collect_keys (expand_or_nil <$> matrix) roles) =
  expandLegacyPermissionKeys (collect_keys matrix roles).
Proof.
  intros Hclosed. destruct loadPermissionCatalog as [catalog|e] eqn:Hcat;
    [|unfold expandLegacyPermissionKeys; by rewrite Hcat].
  destruct (expand_total catalog (collect_keys matrix roles) Hcat) as [E HE].
  destruct (expand_total catalog (collect_keys (expand_or_nil <$> matrix) roles) Hcat) as [F HF].
  rewrite HE, HF. f_equal. specialize (Hclosed E HE).
  assert (forall role keys x, role ∈ roles -> matrix !! TrimSpace role = Some keys ->
    x ∈ trimmed_values (expand_or_nil keys) -> x ∈ E) as Hrole.
  { intros role keys x Hr Hm Hx. unfold expand_or_nil in Hx. destruct (expand_total catalog keys Hcat) as [e He].
    rewrite He in Hx. apply (expand_trimmed _ _ _ He) in Hx. eapply expand_mono; [exact He|exact HE| |done].
    intros y Hy. unfold collect_keys. rewrite trimmed_normalize, <-elem_of_normalize.
    apply elem_of_collect_keys. exists role. split; [done|]. unfold lookup_default. by rewrite Hm. }
  apply (expand_ext _ _ _ _ HF HE). intros x. split.
  - intros Hx. eapply expand_mono; [exact HF|exact Hclosed| |exact Hx].
    intros y. unfold collect_keys at 1. rewrite trimmed_normalize, <-elem_of_normalize.
    intros (role & Hr & Hy)%elem_of_collect_keys. apply (expand_trimmed _ _ _ HE).
    unfold lookup_default in Hy. rewrite lookup_fmap in Hy.
    destruct (matrix !! TrimSpace role) as [keys|] eqn:Hm; simpl in Hy; [|by apply elem_of_nil in Hy]. eauto.
  - intros Hx. eapply expand_mono; [exact HE|exact HF| |exact Hx].
    intros y. unfold collect_keys. rewrite !trimmed_normalize, <-!elem_of_normalize.
    intros (role & Hr & Hy)%elem_of_collect_keys. apply elem_of_collect_keys. exists role. split; [done|].
    unfold lookup_default in *. rewrite lookup_fmap.
    destruct (matrix !! TrimSpace role) as [keys|] eqn:Hm; simpl in *; [|done].
    unfold expand_or_nil. destruct (expand_total catalog keys Hcat) as [e He]. rewrite He.
    apply (expand_trimmed _ _ _ He). by eapply expand_extensive.
Qed.

(** The entries of the built-in matrix. *)
Lemma builtin_role_keys `{CatalogSource} role keys :
  (role, keys) ∈ [("admin", allPermissionKeys);
    ("ops", opsRolePermissionKeys ++ resourceMonitoringPermissionKeys);
    ("developer", developerRolePermissionKeys); ("tester", testerRolePermissionKeys);
    ("readonly", readonlyRolePermissionKeys ++ resourceMonitoringPermissionKeys);
    ("auditor", auditorRolePermissionKeys)] ->
  PermissionKeysForRoles None [role] = normalizePermissionKeys keys.
Proof.
  intros Hin. unfold PermissionKeysForRoles. rewrite collect_keys_one. f_equal.
  unfold effectiveRolePermissionMatrix, lookup_default. simpl default. rewrite (left_id_L ∅ (∪)).
  unfold defaultRolePermissions.
  repeat (apply elem_of_cons in Hin as [Hin|Hin]; [simplify_eq;
    repeat first [rewrite lookup_insert_eq by done | rewrite lookup_insert_ne by done | rewrite lookup_singleton_eq]; done|]).
  by apply elem_of_nil in Hin.
Qed.

(** Closed lists of keys: a decidable property of every key, and inclusion. *)
Lemma keys_all (f : string -> bool) l k :
  forallb f (trimmed_values l) = true -> k ∈ normalizePermissionKeys l -> f k = true.
Proof. rewrite elem_of_normalize, forallb_elem_of. auto. Qed.

Lemma keys_subset l1 l2 k :
  forallb (contains (trimmed_values l2)) (trimmed_values l1) = true ->
  k ∈ normalizePermissionKeys l1 -> k ∈ normalizePermissionKeys l2.
Proof.
  intros Hl Hk. apply (keys_all _ _ _ Hl) in Hk. by apply elem_of_normalize, contains_true.
Qed.

(** A catalog with a retired key, its alias and its successor. *)
Definition sample_definition (key status : string) (aliases successors : list string) : PermissionDefinition :=
  {| Definition_Key := key; Definition_Action := "view"; Definition_Status := status;
     Definition_Assignable := true; Definition_ApprovalPolicy := ""; Definition_LegacyAliases := aliases;
     Definition_ReplacedBy := successors; Definition_LegacyCapabilities := [] |}.

Definition sample_catalog : CatalogSource :=
  {| decoded_catalog := Ok {| Catalog_ContentHash := "h";
       Catalog_Permissions := [sample_definition "pods.view" "active" ["pod.read"] [];
         sample_definition "pods.old" "retired" [] ["pods.view"];
         sample_definition "nodes.view" "active" [] []] |};
     PermissionStatusActive := "active" |}.

Definition sample_principal (ceiling : list string) : Principal :=
  {| Principal_UserID := "u-1"; Principal_UserName := "u"; Principal_Email := ""; Principal_AvatarURL := "";
     Principal_AvatarFit := ""; Principal_Roles := ["dev"]; Principal_Teams := []; Principal_Projects := [];
     Principal_Tags := []; Principal_PermissionKeys := ceiling; Principal_AccessTokenID := "" |}.

Definition sample_matrix : gmap string (list string) := {[ "dev" := ["nodes.view"; "pods.view"] ]}.

(** An authorized key is among the keys of the principal. *)
Lemma authorized_key `{CatalogSource, MapRange} permissions principal key cache cache' u :
  blank key = false ->
  AuthorizeRuntimePermission permissions principal key cache = (Ok u, cache') ->
  exists keys, PermissionKeys permissions principal cache = (Ok keys, cache') /\ TrimSpace key ∈ keys.
Proof.
  intros Hkey. unfold AuthorizeRuntimePermission, resolver_Authorize, resolver_HasPermission. rewrite Hkey.
  destruct permissions as [perms|]; [|done].
  destruct (PermissionKeys (Some perms) principal cache) as [[keys|e] c] eqn:Hk; cbn [result_bind]; [|done].
  destruct (contains keys (TrimSpace key)) eqn:Hc; [|done]. intros [= _ <-]. exists keys. split; [done|]. by apply contains_true.
Qed.

(** ** Properties *)

(** A permission ceiling only narrows: for a principal whose token carries
    permission keys, every effective key is one the principal would have
    without the ceiling, and follows from the keys of the ceiling through the
    aliases and successors of the catalog. *)
Theorem permission_ceiling_narrows `{CatalogSource, MapRange} r principal cache cache' keys k :
  PermissionKeys r principal cache = (Ok keys, cache') ->
  Principal_PermissionKeys principal <> [] -> k ∈ keys ->
  within_ceiling (Principal_PermissionKeys principal) k /\
  exists uncapped, PermissionKeys r (set_Principal_PermissionKeys [] principal) cache = (Ok uncapped, cache') /\
    k ∈ trimmed_values uncapped.
Proof. apply PermissionKeys_capped. Qed.

Lemma permission_ceiling_narrows_witness :
  within_ceiling (H := sample_catalog) ["pod.read"] "pods.view".
Proof.
  refine (proj1 (permission_ceiling_narrows (H := sample_catalog) (Some (Ok sample_matrix)) (sample_principal ["pod.read"])
    None (Some sample_matrix) ["pods.view"] "pods.view" _ _ _)).
  - vm_compute. reflexivity.
  - discriminate.
  - left.
Defined.

(** The ceiling of a durable task persists: a principal narrowed by
    [RuntimePrincipalWithin] carries a non-empty list of keys from the ceiling,
    so whatever the roles grant later, its effective keys follow from the
    ceiling; an empty intersection is refused instead of lifting the ceiling. *)
Theorem durable_ceiling_persists `{CatalogSource, MapRange} r principal ceiling cache cache' narrowed :
  RuntimePrincipalWithin r principal ceiling cache = (Ok narrowed, cache') ->
  Principal_PermissionKeys narrowed <> [] /\
  (forall k, k ∈ Principal_PermissionKeys narrowed -> k ∈ ceiling) /\
  (forall r' cache1 cache2 keys k,
     PermissionKeys r' narrowed cache1 = (Ok keys, cache2) -> k ∈ keys -> within_ceiling ceiling k).
Proof.
  unfold RuntimePrincipalWithin. destruct (RuntimePermissionKeys r principal cache) as [[keys|e] c]; simpl; [|done].
  set (within := filter _ keys). destruct (is_empty within) eqn:He; [done|]. intros [= <- _]. simpl.
  apply is_empty_false in He.
  assert (forall k, k ∈ within -> k ∈ ceiling) as Hsub.
  { intros k [Hk _]%list_elem_of_filter. by apply contains_true. }
  split_and!; [done..|]. intros r' c1 c2 keys' k Hkeys Hk.
  eapply PermissionKeys_capped in Hkeys as [Hw _]; [|done|exact Hk]. simpl in Hw.
  by eapply within_ceiling_subset.
Qed.

Lemma durable_ceiling_persists_witness :
  within_ceiling (H := sample_catalog) ["nodes.view"] "nodes.view".
Proof.
  refine (proj2 (proj2 (durable_ceiling_persists (H := sample_catalog) (Some (Ok sample_matrix)) (sample_principal [])
    ["nodes.view"] None (Some sample_matrix) (sample_principal ["nodes.view"]) _))
    (Some (Ok sample_matrix)) None (Some sample_matrix) ["nodes.view"] "nodes.view" _ _).
  - vm_compute. reflexivity.
  - vm_compute. reflexivity.
  - left.
Defined.

(** The process-wide matrix behaves as a map over the built-in defaults:
    setting a role's keys makes exactly their normal form its keys and leaves
    every other role alone; deleting the entry restores the default; both
    accept role names up to surrounding space. *)
Theorem role_matrix_cache_laws `{CatalogSource} cache role keys other :
  let get c r := PermissionKeysForRoles c [r] in
  get (SetRolePermissionKeys role keys cache) role = normalizePermissionKeys keys /\
  get (DeleteRolePermissionKeys role cache) role =
    normalizePermissionKeys (lookup_default [] defaultRolePermissions (TrimSpace role)) /\
  (TrimSpace other <> TrimSpace role ->
     get (SetRolePermissionKeys role keys cache) other = get cache other /\
     get (DeleteRolePermissionKeys role cache) other = get cache other).
Proof.
  simpl. unfold PermissionKeysForRoles. rewrite !collect_keys_one.
  unfold effectiveRolePermissionMatrix, SetRolePermissionKeys, DeleteRolePermissionKeys, lookup_default. simpl.
  assert (forall m : gmap string (list string),
    default ∅ (if bool_decide (m = ∅) then None else Some m) = m) as Hd.
  { intros m. by case_bool_decide; subst. }
  rewrite Hd. split_and!.
  - rewrite lookup_union, lookup_insert_eq. rewrite union_Some_l. simpl. apply normalize_idem.
  - by rewrite lookup_union, lookup_delete_eq, (left_id_L None _).
  - intros Hne. rewrite !lookup_union.
    by rewrite lookup_insert_ne, lookup_delete_ne by done.
Qed.

(** The built-in roles are least-privileged and ordered, whatever the
    catalog: testers and auditors hold view keys only, read-only users hold
    view keys, pod logs and context inspection only; testers, read-only users
    and developers hold nothing that operators do not; operators' own keys are
    administrators'; and operators manage no identity, announcement, menu or
    runtime setting. *)
Theorem builtin_roles_least_privilege `{CatalogSource} k :
  let get r := PermissionKeysForRoles None [r] in
  (k ∈ get "tester" \/ k ∈ get "auditor" -> HasSuffix k ".view" = true) /\
  (k ∈ get "readonly" -> HasSuffix k ".view" = true \/ k = PermPlatformPodsLogs \/ k = PermAIContextInspect) /\
  (k ∈ get "tester" \/ k ∈ get "readonly" \/ k ∈ get "developer" -> k ∈ get "ops") /\
  (k ∈ get "ops" -> k ∈ get "admin" \/ k ∈ resourceMonitoringPermissionKeys) /\
  (k ∈ get "ops" -> HasSuffix k ".manage" = true ->
     HasPrefix k "identity." = false /\ HasPrefix k "settings.runtime-config." = false /\
     HasPrefix k "system.announcements." = false /\ HasPrefix k "system.menus." = false).
Proof.
  pose proof (fun i role keys => builtin_role_keys role keys ∘ list_elem_of_lookup_2 _ i _) as Hb.
  cbv beta zeta. rewrite (Hb 0 "admin" _ eq_refl), (Hb 1 "ops" _ eq_refl), (Hb 2 "developer" _ eq_refl),
    (Hb 3 "tester" _ eq_refl), (Hb 4 "readonly" _ eq_refl), (Hb 5 "auditor" _ eq_refl). clear Hb.
  split_and!.
  - intros [Hk|Hk]; revert Hk; apply (keys_all (fun k => HasSuffix k ".view")); vm_compute; reflexivity.
  - intros Hk. apply (keys_all (fun k => HasSuffix k ".view" || String.eqb k PermPlatformPodsLogs ||
      String.eqb k PermAIContextInspect)) in Hk; [|vm_compute; reflexivity].
    rewrite !orb_true_iff, !String.eqb_eq in Hk. tauto.
  - intros [Hk|[Hk|Hk]]; revert Hk; apply keys_subset; vm_compute; reflexivity.
  - intros Hk. destruct (contains resourceMonitoringPermissionKeys k) eqn:Hr;
      [right; by apply contains_true|left].
    apply (keys_all (fun k => contains allPermissionKeySet k ||
      contains resourceMonitoringPermissionKeys k)) in Hk; [|vm_compute; reflexivity].
    rewrite Hr, orb_false_r in Hk. apply contains_true in Hk.
    unfold allPermissionKeys. rewrite normalize_idem. apply elem_of_normalize.
    rewrite trimmed_values_app. apply elem_of_app. left.
    assert (forallb (contains (trimmed_values allPermissionKeySet)) allPermissionKeySet = true) as Hall
      by (vm_compute; reflexivity).
    rewrite forallb_elem_of in Hall. by apply contains_true, Hall.
  - intros Hk Hm. apply (keys_all (fun k => negb (HasSuffix k ".manage") ||
      (negb (HasPrefix k "identity.") && negb (HasPrefix k "settings.runtime-config.") &&
       negb (HasPrefix k "system.announcements.") && negb (HasPrefix k "system.menus.")))) in Hk;
      [|vm_compute; reflexivity].
    rewrite Hm in Hk. simpl in Hk. by rewrite !andb_true_iff, !negb_true_iff in Hk; naive_solver.
Qed.
