(* ===== verification/AccessService.v ===== *)
(** * The access service

    [internal/application/access/service.go] (authorization of requests),
    [execution_ceiling.go] (authorization of durable tasks against a frozen
    revision) and [read_snapshot.go] (one consistent read).

    A repository is its answer to the calls made during one authorization; an
    absent repository is [None].  The policy engine is reached through the
    interface [PolicyEngineSpec], which the engine of [PolicyEngine] implements;
    the hash of a frozen authorization state is the interface
    [RevisionSource].  The context of a call carries the execution ceiling. *)

From S2P Require Import Prelude GoStrings AccessModel PolicyEngine NamespaceSelector ScopeHelpers.
From S2P Require Import PlatformScope PermissionTables PermissionResolver.

(** ** The policy engine as the service sees it *)

(** What the service relies on: a decision leaves the status open, and an allow
    carries a reason and is backed by a listed allow policy that applies to the
    request and lends its actions. *)
Class PolicyEngineSpec := {
  engine_evaluate : Request -> list Policy -> result Decision;
  engine_status : forall r ps d, engine_evaluate r ps = Ok d -> Decision_Status d = "";
  engine_allow_backed : forall r ps d,
    engine_evaluate r ps = Ok d -> Decision_Allowed d = true ->
    Decision_Reason d <> "" /\
    exists p, p ∈ ps /\ applies r p /\ Policy_Effect p <> EffectDeny /\
      Decision_AllowedActions d = Policy_Actions p
}.

(** ** Built-in roles and policies *)

Definition allActions `{CatalogSource} : list Action :=
  let actions := [ActionView; ActionList; ActionWatch; ActionCreate; ActionUpdate; ActionDelete;
    ActionRestart; ActionRollback; ActionScale; ActionTrigger; ActionLogs; ActionExec] in
  match loadPermissionCatalog with
  | Ok catalog =>
      fold_left (fun actions definition =>
        let action := Definition_Action definition in
        if negb (str_empty action) && negb (contains actions action)
        then actions ++ [action] else actions) (Catalog_Permissions catalog) actions
  | Err _ => actions
  end.

Definition view_actions : list Action := [ActionView; ActionList; ActionWatch].
Definition read_actions : list Action := view_actions ++ [ActionLogs].
Definition developer_actions : list Action :=
  read_actions ++ [ActionRestart; ActionRollback; ActionScale; ActionTrigger].
Definition ops_actions : list Action := developer_actions ++ [ActionCreate; ActionUpdate].

Definition RoleMatrix `{CatalogSource} : gmap string (list Action) :=
  {[ "admin" := allActions; "ops" := ops_actions; "developer" := developer_actions;
     "tester" := read_actions; "readonly" := read_actions; "auditor" := view_actions ]}.

(** A policy with the fields the built-in policies set. *)
Definition builtin_policy (id name effect : string) (priority : Z) (roles environments : list string)
    (actions : list Action) (reason : string) : Policy :=
  {| Policy_ID := id; Policy_Name := name; Policy_Effect := effect; Policy_Priority := priority;
     Policy_Subjects := {| Matcher_Roles := roles; Matcher_Teams := []; Matcher_Projects := [];
       Matcher_Users := []; Matcher_Tags := []; Matcher_Labels := ∅ |};
     Policy_Clusters := {| ClusterMatcher_IDs := []; ClusterMatcher_Regions := [];
       ClusterMatcher_Environments := environments; ClusterMatcher_Labels := ∅ |};
     Policy_Namespaces := zero_NamespaceMatcher; Policy_Resources := zero_ResourceMatcher;
     Policy_Actions := actions; Policy_Conditions := zero_Conditions; Policy_Reason := reason |}.

Definition DefaultPolicies `{CatalogSource} : list Policy := [
  builtin_policy "deny-prod-exec" "Deny Exec In Production" EffectDeny 200 [] ["production"]
    [ActionExec] "exec is denied in production by default policy";
  builtin_policy "admin-all" "Admin Full Access" EffectAllow 100 ["admin"] [] allActions
    "role admin matched";
  builtin_policy "ops-access" "Ops Cluster Access" EffectAllow 80 ["ops"] [] ops_actions
    "role ops matched";
  builtin_policy "developer-nonprod" "Developer Non Production Access" EffectAllow 60 ["developer"]
    ["development"; "staging"] developer_actions "role developer matched non-production scope";
  builtin_policy "readonly-view" "Readonly View Access" EffectAllow 50 ["readonly"] [] read_actions
    "role readonly matched";
  builtin_policy "tester-view" "Tester Delivery Evidence Access" EffectAllow 50 ["tester"] []
    read_actions "role tester matched delivery evidence scope";
  builtin_policy "auditor-view" "Auditor Event And Audit Access" EffectAllow 50 ["auditor"] []
    view_actions "role auditor matched" ].

(** ** The service and its readers *)

Record Repository := {
  ListPolicies : result (list Policy);
  ListRoleCapabilities : result (gmap string (list Action))
}.

Record EnvironmentReader := {
  ListEnvironments : result (list Environment);
  ListApplicationEnvironments : result (list ApplicationEnvironment)
}.

Record Service := {
  Service_repo : option Repository;
  Service_grants : option (result (list ScopeGrant));
  Service_catalog : option EnvironmentReader;
  Service_permissions : option PermissionResolver
}.

Definition loadPolicies `{CatalogSource} (s : Service) : result (list Policy) :=
  match Service_repo s with
  | None => Ok DefaultPolicies
  | Some repo =>
      let* policies := map_err (wrapf "load policies") (ListPolicies repo) in
      if is_empty policies then Ok DefaultPolicies else Ok policies
  end.

Definition loadRoleMatrix `{CatalogSource} (s : Service) : result (gmap string (list Action)) :=
  match Service_repo s with
  | None => Ok RoleMatrix
  | Some repo =>
      let* matrix := map_err (wrapf "load role capabilities") (ListRoleCapabilities repo) in
      if bool_decide (matrix = ∅) then Ok RoleMatrix else Ok matrix
  end.

Definition loadScopeGrants (s : Service) : result (list ScopeGrant) :=
  match Service_grants s with
  | None => Ok []
  | Some items => map_err (wrapf "load scope grants") items
  end.

Definition loadEnvironmentKeyMap (s : Service) : result (gmap string string) :=
  match Service_catalog s with
  | None => Ok ∅
  | Some catalog =>
      let* items := map_err (wrapf "load environments") (ListEnvironments catalog) in
      Ok (fold_left (fun m item => <[Environment_ID item := Environment_Key item]> m) items ∅)
  end.

Definition loadApplicationEnvironments (s : Service) : result (list ApplicationEnvironment) :=
  match Service_catalog s with
  | None => Ok []
  | Some catalog => map_err (wrapf "load application environments") (ListApplicationEnvironments catalog)
  end.

(** ** Scope grants of the subject *)

(** The filter of the loop: the grant is enabled and about the subject. *)
Definition grant_is_about (request : Request) (grant : ScopeGrant) : bool :=
  let subjectType := ToLower (TrimSpace (Grant_SubjectType grant)) in
  if negb (Grant_Enabled grant) then false
  else if negb (String.eqb subjectType "user") && negb (String.eqb subjectType "team") then false
  else if String.eqb subjectType "user" &&
          negb (String.eqb (Grant_SubjectID grant) (Subject_UserID (Request_Subject request))) then false
  else if String.eqb subjectType "team" &&
          negb (contains (Subject_Teams (Request_Subject request)) (Grant_SubjectID grant)) then false
  else true.

Definition matchedSubjectScopeGrants (grants : list ScopeGrant) (request : Request)
    : list ScopeGrant * bool :=
  let items := filter (fun grant => grant_is_about request grant = true) grants in
  (items, negb (is_empty items)).

Definition deliveryScopeGrantSpecificity (grant : ScopeGrant) : Z :=
  (if negb (is_empty (Grant_ApplicationIDs grant)) then 2 else 0) +
  (if negb (is_empty (Grant_EnvironmentIDs grant)) then 1 else 0).

(** The state of the loop over the delivery grants. *)
Record delivery_state := {
  delivery_actions : list Action;
  delivery_highest : Z;
  delivery_denied : bool
}.

Definition delivery_step (request : Request) (roleMatrix : gmap string (list Action))
    (envKeyMap : gmap string string) (st : delivery_state) (grant : ScopeGrant) : delivery_state :=
  if String.eqb (normalizedScopeType (Grant_ScopeType grant)) ScopeTypePlatform then st
  else if negb (grantMatchesDeliveryScope grant (Request_Delivery request) envKeyMap) then st
  else
  let specificity := deliveryScopeGrantSpecificity grant in
  if (specificity <? delivery_highest st)%Z then st
  else
  let st := if (delivery_highest st <? specificity)%Z
            then {| delivery_actions := []; delivery_highest := specificity; delivery_denied := false |}
            else st in
  if String.eqb (normalizedEffect (Grant_Effect grant)) "deny"
  then {| delivery_actions := delivery_actions st; delivery_highest := delivery_highest st;
          delivery_denied := true |}
  else {| delivery_actions := unionActions (delivery_actions st)
            (lookup_default [] roleMatrix (Grant_Role grant));
          delivery_highest := delivery_highest st; delivery_denied := delivery_denied st |}.

Definition applyDeliveryScopeGrantConstraint (request : Request) (decision : Decision)
    (roleMatrix : gmap string (list Action)) (subjectGrants : list ScopeGrant)
    (envKeyMap : gmap string string) : Decision :=
  let st := fold_left (delivery_step request roleMatrix envKeyMap) subjectGrants
    {| delivery_actions := []; delivery_highest := -1; delivery_denied := false |} in
  if delivery_denied st
  then denyScopeGrantDecision decision "most specific scope grant explicitly denies this delivery scope"
  else if is_empty (delivery_actions st)
  then denyScopeGrantDecision decision "scope grant does not allow this delivery scope"
  else
  let actions := intersectActions (Decision_AllowedActions decision) (delivery_actions st) in
  let decision := set_Decision_AllowedActions actions decision in
  if is_empty actions
  then set_Decision_Reason "scope grant filtered out effective actions"
         (set_Decision_Allowed false decision)
  else
  let decision := set_Decision_Allowed (contains actions (Request_Action request)) decision in
  if negb (Decision_Allowed decision)
  then set_Decision_Reason ("action " +:+ Request_Action request +:+ " filtered out by scope grant") decision
  else decision.

Definition applyPlatformScopeGrantConstraint `{MapRange} (request : Request) (decision : Decision)
    (roleMatrix : gmap string (list Action)) (subjectGrants : list ScopeGrant)
    (envKeyMap : gmap string string) (applicationEnvironments : list ApplicationEnvironment) : Decision :=
  evaluatePlatformScopeGrants request decision roleMatrix subjectGrants envKeyMap applicationEnvironments.

Definition applyScopeGrantConstraint `{MapRange} (s : Service) (request : Request) (decision : Decision)
    (roleMatrix : gmap string (list Action)) : result Decision :=
  let* grants := loadScopeGrants s in
  if is_empty grants then Ok decision else
  let '(subjectGrants, hasScopedGrant) := matchedSubjectScopeGrants grants request in
  if negb hasScopedGrant then Ok decision else
  if Request_RequireUnscopedPlatform request
  then Ok (denyScopeGrantDecision decision "this operation requires unscoped platform access") else
  let* envKeyMap := loadEnvironmentKeyMap s in
  if hasDeliveryScopeAttributes request
  then Ok (applyDeliveryScopeGrantConstraint request decision roleMatrix subjectGrants envKeyMap)
  else if negb (shouldApplyPlatformScope request) then Ok decision else
  let* applicationEnvironments := loadApplicationEnvironments s in
  Ok (applyPlatformScopeGrantConstraint request decision roleMatrix subjectGrants envKeyMap
        applicationEnvironments).

(** ** Authorization *)

Definition denied_decision (reason code : string) : Decision :=
  set_Decision_ReasonCode code (set_Decision_Reason reason zero_Decision).

(** The engine matched nothing and the request has no cluster. *)
Definition delivery_fallback (request : Request) (reason : string) (actions : list Action)
    (decision : Decision) : Decision :=
  if str_empty (Decision_Reason decision) && isClusterlessDeliveryRequest request
  then set_Decision_AllowedActions actions
         (set_Decision_Reason reason (set_Decision_Allowed true zero_Decision))
  else decision.

Section authorize.
Context `{CatalogSource, MapRange, PolicyEngineSpec}.

Definition authorizeLegacyAction (s : Service) (request : Request) : result Decision :=
  let* roleMatrix := loadRoleMatrix s in
  let* policies := loadPolicies s in
  let baseline := roleActions roleMatrix (Principal_Roles (Request_Principal request)) in
  if negb (contains baseline (Request_Action request))
  then Ok (denied_decision ("requested action " +:+ Request_Action request +:+
             " is not granted by RBAC roles") "")
  else
  let* decision := engine_evaluate request policies in
  if negb (Decision_Allowed decision) && negb (str_empty (Decision_Reason decision)) then Ok decision
  else
  let decision := delivery_fallback request
    "delivery RBAC baseline matched without cluster-scoped ABAC policy" baseline decision in
  if str_empty (Decision_Reason decision)
  then Ok (denied_decision "no ABAC policy matched request scope" "")
  else
  let actions := intersectActions baseline (Decision_AllowedActions decision) in
  let decision := set_Decision_AllowedActions actions decision in
  if is_empty actions
  then Ok (set_Decision_Reason "ABAC scope matched but no effective actions remain after RBAC intersection"
             (set_Decision_Allowed false decision))
  else
  let decision := set_Decision_Allowed (contains actions (Request_Action request)) decision in
  let decision :=
    if negb (Decision_Allowed decision)
    then set_Decision_Reason ("action " +:+ Request_Action request +:+ " filtered out by ABAC policy") decision
    else decision in
  applyScopeGrantConstraint s request decision roleMatrix.

(** The roles that hold the permission may perform the action. *)
Definition permission_role_matrix (request : Request) (rolePermissions : gmap string (list string))
    : gmap string (list Action) :=
  (fun _ => [Request_Action request]) <$>
  filter (fun '(_, permissionKeys) => contains permissionKeys (Request_PermissionKey request) = true)
    rolePermissions.

Definition authorizePermissionScope (s : Service) (permissions : PermissionResolver) (request : Request)
    : result Decision :=
  let* policies := loadPolicies s in
  let* decision := engine_evaluate request policies in
  if negb (Decision_Allowed decision) && negb (str_empty (Decision_Reason decision)) then
    Ok (if negb (String.eqb (Decision_ReasonCode decision) ReasonNamespaceLabelsRequired)
        then set_Decision_ReasonCode "abac_denied" decision else decision)
  else
  let decision := delivery_fallback request
    "delivery permission matched without cluster-scoped ABAC policy" [] decision in
  if str_empty (Decision_Reason decision)
  then Ok (denied_decision "no ABAC policy matched request scope" "abac_no_match")
  else
  let decision := set_Decision_AllowedActions [Request_Action request]
    (set_Decision_Allowed true decision) in
  let* rolePermissions := RolePermissionMatrix permissions in
  applyScopeGrantConstraint s request decision (permission_role_matrix request rolePermissions).

Definition authorizeMissingPermission (s : Service) (request : Request) (legacyCapabilities : list string)
    : result Decision :=
  let missing := denied_decision ("missing permission " +:+ Request_PermissionKey request)
    "missing_permission" in
  if is_empty (Principal_PermissionKeys (Request_Principal request)) &&
     contains legacyCapabilities (Request_Action request)
  then
    let* legacyDecision := authorizeLegacyAction s request in
    if String.eqb (Decision_ReasonCode legacyDecision) ReasonNamespaceLabelsRequired
    then Ok legacyDecision
    else if Decision_Allowed legacyDecision
    then Ok (set_Decision_ReasonCode "legacy_capability_allowed" legacyDecision)
    else Ok missing
  else Ok missing.

Definition set_Decision_Status (st : DecisionStatus) (d : Decision) : Decision :=
  {| Decision_Allowed := Decision_Allowed d; Decision_Status := st;
     Decision_PermissionKey := Decision_PermissionKey d; Decision_Action := Decision_Action d;
     Decision_Reason := Decision_Reason d; Decision_ReasonCode := Decision_ReasonCode d;
     Decision_PolicyVersion := Decision_PolicyVersion d;
     Decision_AllowedActions := Decision_AllowedActions d;
     Decision_ResourceScope := Decision_ResourceScope d |}.

(** The request with the action of the permission when it names none. *)
Definition default_action (request : Request) (definition : PermissionDefinition) : Request :=
  if str_empty (Request_Action request)
  then set_Request_Action (Definition_Action definition) request else request.

Definition authorizePermission (s : Service) (request : Request) (cache : RoleMatrixCache)
    : result Decision * RoleMatrixCache :=
  match permissionDefinition (Request_PermissionKey request) with
  | Err e => (Err e, cache)
  | Ok (_, false) =>
      (Ok (denied_decision "permission key is not present in the canonical catalog" "unknown_permission"),
       cache)
  | Ok (definition, true) =>
      let request := default_action request definition in
      match Service_permissions s with
      | None => (Ok (denied_decision "runtime permission resolver unavailable"
                       "permission_resolver_unavailable"), cache)
      | Some permissions =>
          let '(allowed, cache) := resolver_HasPermission permissions (Request_Principal request)
            (Request_PermissionKey request) cache in
          (let* allowed := allowed in
           if negb allowed
           then authorizeMissingPermission s request (Definition_LegacyCapabilities definition)
           else if String.eqb (Definition_ApprovalPolicy definition) "required" &&
                   negb (String.eqb (Context_ApprovalState (Request_Context request)) "approved")
           then Ok (set_Decision_Status DecisionApprovalRequired
                      (denied_decision "permission requires an approved request" "approval_required"))
           else authorizePermissionScope s permissions request, cache)
      end
  end.

Definition finalizeDecision (request : Request) (decision : Decision) : Decision :=
  {| Decision_Allowed := Decision_Allowed decision;
     Decision_Status :=
       if str_empty (Decision_Status decision)
       then if Decision_Allowed decision then DecisionAllow else DecisionDeny
       else Decision_Status decision;
     Decision_PermissionKey := TrimSpace (Request_PermissionKey request);
     Decision_Action := Request_Action request;
     Decision_Reason := Decision_Reason decision;
     Decision_ReasonCode :=
       if str_empty (Decision_ReasonCode decision)
       then if Decision_Allowed decision then "allowed" else "denied"
       else Decision_ReasonCode decision;
     Decision_PolicyVersion :=
       match loadPermissionCatalog with
       | Ok catalog => Catalog_ContentHash catalog
       | Err _ => Decision_PolicyVersion decision
       end;
     Decision_AllowedActions := Decision_AllowedActions decision;
     Decision_ResourceScope := Decision_ResourceScope decision |}.

(** [Authorize] without an execution ceiling in the context. *)
Definition authorize_unguarded (s : Service) (request : Request) (cache : RoleMatrixCache)
    : result Decision * RoleMatrixCache :=
  if negb (blank (Request_PermissionKey request)) then
    match permissionDefinition (Request_PermissionKey request) with
    | Err e => (Err e, cache)
    | Ok (definition, found) =>
        let request := if found : bool then default_action request definition else request in
        let '(decision, cache) := authorizePermission s request cache in
        (let* decision := decision in Ok (finalizeDecision request decision), cache)
    end
  else
    (let* decision := authorizeLegacyAction s request in Ok (finalizeDecision request decision), cache).

(** ** Execution ceilings *)

Definition sortedExecutionValues (values : list string) : list string :=
  if is_empty values then [] else compact (sort_strings values).

Record executionAuthorizationState := {
  State_Subject : SubjectAttributes;
  State_TokenID : string;
  State_Policies : list Policy;
  State_Grants : list ScopeGrant;
  State_RoleActions : gmap string (list Action);
  State_RolePermissions : gmap string (list string);
  State_Environments : list Environment;
  State_ApplicationEnvironments : list ApplicationEnvironment
}.
End authorize.

(** The revision of a state: the hash of its JSON encoding, [None] when it
    cannot be encoded or is too large. *)
Class RevisionSource := { state_revision : executionAuthorizationState -> option string }.

Section ceiling.
Context `{CatalogSource, MapRange, PolicyEngineSpec, RevisionSource}.

(** A nil service or engine does not occur here; [None] permissions is the nil
    resolver. *)
Definition executionAuthorizationState_of (s : Service) (principal : Principal)
    : result (executionAuthorizationState * string) :=
  match Service_permissions s with
  | None => Err (sentinel ErrUnsupportedOperation)
  | Some permissions =>
      let* policies := loadPolicies s in
      let* grants := loadScopeGrants s in
      let* roleActions := loadRoleMatrix s in
      let* rolePermissions := RolePermissionMatrix permissions in
      let* environments :=
        match Service_catalog s with None => Ok [] | Some c => ListEnvironments c end in
      let* applicationEnvironments :=
        match Service_catalog s with None => Ok [] | Some c => ListApplicationEnvironments c end in
      let state :=
        {| State_Subject :=
             {| Subject_UserID := Principal_UserID principal;
                Subject_Roles := sortedExecutionValues (Principal_Roles principal);
                Subject_Teams := sortedExecutionValues (Principal_Teams principal);
                Subject_Projects := sortedExecutionValues (Principal_Projects principal);
                Subject_Tags := sortedExecutionValues (Principal_Tags principal) |};
           State_TokenID := Principal_AccessTokenID principal;
           State_Policies := policies; State_Grants := grants; State_RoleActions := roleActions;
           State_RolePermissions := rolePermissions; State_Environments := environments;
           State_ApplicationEnvironments := applicationEnvironments |} in
      match state_revision state with
      | None => Err (errorf ErrInvalidArgument "authorization ceiling exceeds its bounded snapshot")
      | Some revision => Ok (state, revision)
      end
  end.

Definition ExecutionAuthorizationRevision (s : Service) (principal : Principal) : result string :=
  result_bind (executionAuthorizationState_of s principal) (fun '(_, revision) => Ok revision).

(** The service that reads the frozen state only. *)
Definition frozen_service (state : executionAuthorizationState) : Service :=
  {| Service_repo := Some {| ListPolicies := Ok (State_Policies state);
                             ListRoleCapabilities := Ok (State_RoleActions state) |};
     Service_grants := Some (Ok (State_Grants state));
     Service_catalog := Some {| ListEnvironments := Ok (State_Environments state);
                                ListApplicationEnvironments := Ok (State_ApplicationEnvironments state) |};
     Service_permissions := Some (Some (Ok (State_RolePermissions state))) |}.

Definition authorizeExecutionCeiling (s : Service) (request : Request) (revision : string)
    (cache : RoleMatrixCache) : result Decision * RoleMatrixCache :=
  match executionAuthorizationState_of s (Request_Principal request) with
  | Err e => (Err e, cache)
  | Ok (state, current) =>
      if str_empty revision || negb (String.eqb revision current)
      then (Ok (finalizeDecision request
                  (denied_decision "task authorization scope changed" "authorization_ceiling_changed")), cache)
      else authorize_unguarded (frozen_service state)
             (set_Request_Subject (State_Subject state) request) cache
  end.

(** [Authorize]: the context carries the revision of a durable task or not. *)
Definition Authorize (s : Service) (ceiling : option string) (request : Request) (cache : RoleMatrixCache)
    : result Decision * RoleMatrixCache :=
  match ceiling with
  | Some revision => authorizeExecutionCeiling s request revision cache
  | None => authorize_unguarded s request cache
  end.

(** ** Read snapshots *)

(** Each answer is read once and reused; the context stays live. *)
Definition SnapshotForRead (s : Service) : Service :=
  {| Service_repo := Some {| ListPolicies := loadPolicies s; ListRoleCapabilities := loadRoleMatrix s |};
     Service_grants := Some (loadScopeGrants s);
     Service_catalog := Service_catalog s;
     Service_permissions := Service_permissions s |}.
End ceiling.

(** ** The engine implements the interface *)

Lemma outcome_decision r p d :
  outcome r p = Some d ->
  Decision_Status d = "" /\
  (Decision_Allowed d = true -> Decision_Reason d <> "" /\ Decision_AllowedActions d = Policy_Actions p).
Proof.
  unfold outcome. intros Ho. repeat case_match; simplify_eq/=; [done|]. unfold decide_policy.
  split; [by case_guards|]. rewrite <-(applyScopedDeny_actions p r).
  set (q := applyScopedDeny p r). intros Ha. case_guards; split; try done;
    by (destruct (Policy_Reason q)).
Qed.

#[export] Program Instance policy_engine `{PrioritySort} : PolicyEngineSpec :=
  {| engine_evaluate r ps := Ok (Evaluate r ps) |}.
Next Obligation.
  intros Hs r ps d. simpl. intros [= <-].
  destruct (Request_RequireClusterWideNamespace r && hasScopedPolicyDeny r ps) eqn:Hcw.
  - unfold Evaluate. by rewrite Hcw.
  - destruct (Evaluate_first r ps Hcw) as [(p & _ & Ho & _)|[-> _]]; [|done].
    by apply outcome_decision in Ho as [? _].
Qed.
Next Obligation.
  intros Hs r ps d. simpl. intros [= <-] Ha.
  destruct (Request_RequireClusterWideNamespace r && hasScopedPolicyDeny r ps) eqn:Hcw.
  { by rewrite Evaluate_clusterwide_denied in Ha. }
  destruct (Evaluate_first r ps Hcw) as [(p & Hp & Ho & _)|[Hz _]]; [|by rewrite Hz in Ha].
  destruct (outcome_allowed r p _ Ho Ha). destruct (outcome_decision r p _ Ho) as [_ Hd].
  destruct (Hd Ha). split; [done|]. by exists p.
Qed.

(** ** Delivery grants: specification *)

(** The grants that are about the delivery scope of the request. *)
Definition delivery_candidates (request : Request) (envKeyMap : gmap string string)
    (grants : list ScopeGrant) : list ScopeGrant :=
  filter (fun g => normalizedScopeType (Grant_ScopeType g) <> ScopeTypePlatform /\
    grantMatchesDeliveryScope g (Request_Delivery request) envKeyMap = true) grants.

(** The grant is a candidate and none is more specific. *)
Definition most_specific (request : Request) (envKeyMap : gmap string string)
    (grants : list ScopeGrant) (g : ScopeGrant) : Prop :=
  g ∈ delivery_candidates request envKeyMap grants /\
  forall h, h ∈ delivery_candidates request envKeyMap grants ->
    (deliveryScopeGrantSpecificity h <= deliveryScopeGrantSpecificity g)%Z.

Definition is_deny (g : ScopeGrant) : Prop := normalizedEffect (Grant_Effect g) = "deny".

(** ** Lemmas *)

Lemma specificity_nonneg g : (0 <= deliveryScopeGrantSpecificity g)%Z.
Proof. unfold deliveryScopeGrantSpecificity. repeat case_match; lia. Qed.

Section delivery.
Context (request : Request) (roleMatrix : gmap string (list Action)) (envKeyMap : gmap string string).

(** What the loop state says of the grants seen so far. *)
Record delivery_inv (seen : list ScopeGrant) (st : delivery_state) : Prop := {
  inv_highest : (delivery_highest st = -1 /\ delivery_candidates request envKeyMap seen = [] \/
    exists g, most_specific request envKeyMap seen g /\ delivery_highest st = deliveryScopeGrantSpecificity g)%Z;
  inv_denied : delivery_denied st = true <-> exists g, most_specific request envKeyMap seen g /\ is_deny g;
  inv_actions : forall x, x ∈ delivery_actions st <->
    exists g, most_specific request envKeyMap seen g /\ ~ is_deny g /\
      x ∈ lookup_default [] roleMatrix (Grant_Role g)
}.

Lemma delivery_candidates_snoc seen g :
  delivery_candidates request envKeyMap (seen ++ [g]) =
  delivery_candidates request envKeyMap seen ++ delivery_candidates request envKeyMap [g].
Proof. unfold delivery_candidates. apply filter_app. Qed.

Lemma delivery_candidate_dec g :
  delivery_candidates request envKeyMap [g] =
  if String.eqb (normalizedScopeType (Grant_ScopeType g)) ScopeTypePlatform then []
  else if negb (grantMatchesDeliveryScope g (Request_Delivery request) envKeyMap) then [] else [g].
Proof.
  unfold delivery_candidates. rewrite filter_cons, filter_nil.
  destruct (String.eqb_spec (normalizedScopeType (Grant_ScopeType g)) ScopeTypePlatform);
    destruct (grantMatchesDeliveryScope g _ _); simpl; case_decide; naive_solver.
Qed.

(** A candidate extends the most specific grants by comparison with the highest. *)
Lemma most_specific_snoc seen g h :
  delivery_candidates request envKeyMap [g] = [g] ->
  most_specific request envKeyMap (seen ++ [g]) h <->
  (h = g /\ forall k, k ∈ delivery_candidates request envKeyMap seen ->
     (deliveryScopeGrantSpecificity k <= deliveryScopeGrantSpecificity g)%Z) \/
  (most_specific request envKeyMap seen h /\
   (deliveryScopeGrantSpecificity g <= deliveryScopeGrantSpecificity h)%Z).
Proof.
  intros Hg. unfold most_specific. rewrite delivery_candidates_snoc, Hg.
  setoid_rewrite elem_of_app. setoid_rewrite list_elem_of_singleton. split.
  - intros [[Hh | ->] Hmax]; [right|left]; split; auto.
  - intros [[-> Hmax]|[[Hh Hmax] Hle]]; split; auto; intros k [Hk | ->]; auto; lia.
Qed.

Lemma delivery_step_inv seen st g :
  delivery_inv seen st ->
  delivery_inv (seen ++ [g]) (delivery_step request roleMatrix envKeyMap st g).
Proof.
  intros [Hh Hd Ha]. pose proof (delivery_candidate_dec g) as Hc. unfold delivery_step.
  destruct (String.eqb _ ScopeTypePlatform) eqn:Hp;
    [|destruct (negb (grantMatchesDeliveryScope _ _ _)) eqn:Hm].
  1,2: split; unfold most_specific; rewrite delivery_candidates_snoc, Hc, app_nil_r; done.
  pose proof (most_specific_snoc seen g) as Hs. specialize (fun h => Hs h Hc).
  assert (forall k, k ∈ delivery_candidates request envKeyMap seen ->
    (deliveryScopeGrantSpecificity k <= delivery_highest st)%Z) as Hle.
  { intros k Hk. destruct Hh as [[_ Hnil]|(m & [_ Hmax] & ->)]; [|by apply Hmax].
    rewrite Hnil in Hk. by apply elem_of_nil in Hk. }
  assert (forall h, most_specific request envKeyMap seen h ->
    deliveryScopeGrantSpecificity h = delivery_highest st) as Heq.
  { intros h [Hin Hmax]. apply Z.le_antisymm; [by apply Hle|].
    destruct Hh as [[_ Hnil]|(m & [Hmin _] & ->)]; [|by apply Hmax].
    rewrite Hnil in Hin. by apply elem_of_nil in Hin. }
  pose proof (specificity_nonneg g) as Hg0.
  destruct (Z.ltb_spec (deliveryScopeGrantSpecificity g) (delivery_highest st)) as [Hlt|Hge];
    [|destruct (Z.ltb_spec (delivery_highest st) (deliveryScopeGrantSpecificity g)) as [Hgt|Hle2]].
  - (* a less specific grant changes nothing *)
    assert (forall h, most_specific request envKeyMap (seen ++ [g]) h <->
      most_specific request envKeyMap seen h) as Hiff.
    { intros h. rewrite Hs. split.
      - intros [[-> Hmax]|[? _]]; [|done]. exfalso.
        destruct Hh as [[? _]|(m & [Hm' _] & Hm2)]; [lia|]. specialize (Hmax m Hm'). lia.
      - intros Hh'. right. split; [done|]. rewrite (Heq h Hh'). lia. }
    split; setoid_rewrite Hiff; try done. right.
    destruct Hh as [[? _]|(m & Hm' & ?)]; [lia|]. by exists m.
  - (* a more specific one starts over *)
    assert (forall h, most_specific request envKeyMap (seen ++ [g]) h <-> h = g) as Hiff.
    { intros h. rewrite Hs. split.
      - intros [[-> _]|[Hh' ?]]; [done|]. rewrite (Heq h Hh') in *. lia.
      - intros ->. left. split; [done|]. intros k Hk. specialize (Hle k Hk). lia. }
    destruct (String.eqb_spec (normalizedEffect (Grant_Effect g)) "deny"); split;
      cbn [delivery_actions delivery_highest delivery_denied]; setoid_rewrite Hiff; unfold is_deny;
      try (right; by exists g);
      try (intros x; rewrite elem_of_unionActions); set_solver.
  - (* one of the same specificity joins *)
    assert (forall h, most_specific request envKeyMap (seen ++ [g]) h <->
      h = g \/ most_specific request envKeyMap seen h) as Hiff.
    { intros h. rewrite Hs. split; [naive_solver|]. intros [->|Hh'].
      - left. split; [done|]. intros k Hk. specialize (Hle k Hk). lia.
      - right. split; [done|]. rewrite (Heq h Hh'). lia. }
    destruct (String.eqb_spec (normalizedEffect (Grant_Effect g)) "deny"); split;
      cbn [delivery_actions delivery_highest delivery_denied]; setoid_rewrite Hiff; unfold is_deny in *;
      try (right; exists g; split; [by left|lia]);
      try (intros x; rewrite ?elem_of_unionActions, ?Ha); try rewrite Hd; naive_solver.
Qed.

Lemma delivery_fold_inv seen grants st :
  delivery_inv seen st ->
  delivery_inv (seen ++ grants) (fold_left (delivery_step request roleMatrix envKeyMap) grants st).
Proof.
  revert seen st. induction grants as [|g gs IH]; intros seen st Hi; simpl; [by rewrite app_nil_r|].
  replace (seen ++ g :: gs) with ((seen ++ [g]) ++ gs) by by rewrite <-app_assoc.
  by apply IH, delivery_step_inv.
Qed.

Lemma delivery_loop_inv grants :
  delivery_inv grants (fold_left (delivery_step request roleMatrix envKeyMap) grants
    {| delivery_actions := []; delivery_highest := -1; delivery_denied := false |}).
Proof.
  apply (delivery_fold_inv []). split; simpl; [by left|..]; unfold most_specific; simpl; set_solver.
Qed.
End delivery.

Lemma delivery_allowed_iff request decision roleMatrix grants envKeyMap :
  Decision_Allowed (applyDeliveryScopeGrantConstraint request decision roleMatrix grants envKeyMap) = true <->
  Request_Action request ∈ Decision_AllowedActions decision /\
  (forall g, most_specific request envKeyMap grants g -> ~ is_deny g) /\
  exists g, most_specific request envKeyMap grants g /\
    Request_Action request ∈ lookup_default [] roleMatrix (Grant_Role g).
Proof.
  unfold applyDeliveryScopeGrantConstraint.
  destruct (delivery_loop_inv request roleMatrix envKeyMap grants) as [_ Hd Ha].
  set (st := fold_left _ _ _) in *. destruct (delivery_denied st).
  { split; [done|]. intros (_ & Hn & _). destruct Hd as [Hd _]. destruct (Hd eq_refl) as (g & ? & ?). naive_solver. }
  assert (forall g, most_specific request envKeyMap grants g -> ~ is_deny g) as Hn.
  { intros g Hg Hdg. assert (false = true) by (apply Hd; eauto). done. }
  assert (Request_Action request ∈ delivery_actions st <-> exists g, most_specific request envKeyMap grants g /\
    Request_Action request ∈ lookup_default [] roleMatrix (Grant_Role g)) as Hact by (rewrite Ha; naive_solver).
  destruct (is_empty (delivery_actions st)) eqn:He.
  { apply is_empty_true in He. rewrite He in Hact. split; [done|]. intros (_ & _ & Hx%Hact). by apply elem_of_nil in Hx. }
  set (actions := intersectActions _ _).
  assert (Request_Action request ∈ actions <-> Request_Action request ∈ Decision_AllowedActions decision /\
    Request_Action request ∈ delivery_actions st) as Hin by apply elem_of_intersectActions.
  destruct (is_empty actions) eqn:Hz.
  { apply is_empty_true in Hz. rewrite Hz in Hin. split; [done|]. intros (? & _ & ?%Hact).
    assert (Request_Action request ∈ []) as Hx by by apply Hin. by apply elem_of_nil in Hx. }
  simpl. rewrite <-contains_true in Hin. destruct (contains actions (Request_Action request)); simpl; naive_solver.
Qed.

(** Field updates leave the status alone. *)
Lemma delivery_status request decision roleMatrix grants envKeyMap :
  Decision_Status (applyDeliveryScopeGrantConstraint request decision roleMatrix grants envKeyMap) =
  Decision_Status decision.
Proof. unfold applyDeliveryScopeGrantConstraint. by repeat case_match. Qed.

Lemma conclude_status `{MapRange} request decision a :
  Decision_Status (conclude_platform_scope request decision a) = Decision_Status decision.
Proof. unfold conclude_platform_scope. repeat (case_match; try done). Qed.

Lemma consume_all_status request decision roleMatrix a ps d :
  consume_all request decision roleMatrix a ps = inl d -> Decision_Status d = Decision_Status decision.
Proof.
  revert a. induction ps as [|p ps IH]; intros a; simpl; [done|].
  destruct (needs_labels request p); [by intros [= <-]|].
  destruct (consume a p request roleMatrix) as [a' reason]. destruct (negb (str_empty reason)); [by intros [= <-]|].
  apply IH.
Qed.

Lemma platform_status `{MapRange} request decision roleMatrix grants envKeyMap bindings :
  Decision_Status (evaluatePlatformScopeGrants request decision roleMatrix grants envKeyMap bindings) =
  Decision_Status decision.
Proof.
  unfold evaluatePlatformScopeGrants. case_match; [done|].
  destruct (consume_all _ _ _ _ _) eqn:Hc; [by eapply consume_all_status|apply conclude_status].
Qed.

(** The scope grants keep an allow or drop it. *)
Lemma constraint_sound `{MapRange} s request decision roleMatrix d :
  applyScopeGrantConstraint s request decision roleMatrix = Ok d ->
  (Decision_Allowed decision = true -> Request_Action request ∈ Decision_AllowedActions decision) ->
  Decision_Status d = Decision_Status decision /\
  (Decision_Allowed d = true -> Request_Action request ∈ Decision_AllowedActions decision).
Proof.
  unfold applyScopeGrantConstraint, matchedSubjectScopeGrants. intros Hd Hinv.
  destruct (loadScopeGrants s) as [grants|]; simpl in Hd; [|done].
  repeat (case_match; simplify_eq/=; try done).
  all: try (destruct (loadEnvironmentKeyMap s) as [env|]; simpl in *; [|done]).
  all: try (destruct (loadApplicationEnvironments s) as [bindings|]; simpl in *; [|done]).
  all: repeat case_match; simplify_eq/=; try done.
  - split; [apply delivery_status|]. by intros [? _]%delivery_allowed_iff.
  - split; [apply platform_status|]. by intros [? _]%platform_allows_iff.
Qed.

(** What the scope grants of the subject must say for a request to pass, with
    the actions each role lends: there is none about the subject, or the
    operation does not need unscoped access and, for a delivery request, none of
    the most specific grants denies and the role of one of them carries the
    action; for a request on the platform, the declarative meaning of the
    platform grants holds. *)
Definition scope_admitted `{MapRange} (s : Service) (r : Request) (matrix : gmap string (list Action)) : Prop :=
  exists grants, loadScopeGrants s = Ok grants /\
  let mine := filter (fun g => grant_is_about r g = true) grants in
  mine = [] \/
  Request_RequireUnscopedPlatform r = false /\
  exists env, loadEnvironmentKeyMap s = Ok env /\
  if hasDeliveryScopeAttributes r
  then (forall g, most_specific r env mine g -> ~ is_deny g) /\
       exists g, most_specific r env mine g /\ Request_Action r ∈ lookup_default [] matrix (Grant_Role g)
  else shouldApplyPlatformScope r = true ->
       exists bindings, loadApplicationEnvironments s = Ok bindings /\
         platform_allows r [Request_Action r] matrix (projectPlatformGrants r mine env bindings).

Lemma constraint_admitted `{MapRange} s r decision matrix d :
  applyScopeGrantConstraint s r decision matrix = Ok d -> Decision_Allowed d = true ->
  scope_admitted s r matrix.
Proof.
  unfold applyScopeGrantConstraint, matchedSubjectScopeGrants, scope_admitted. intros Hd Ha.
  destruct (loadScopeGrants s) as [grants|]; simpl in Hd; [|done]. exists grants. split; [done|].
  destruct grants as [|g0 gs]; [by left|]. simpl in Hd. set (mine := filter _ _) in *.
  destruct (is_empty mine) eqn:Hm; simpl in Hd; [left; by apply is_empty_true|right].
  destruct (Request_RequireUnscopedPlatform r); [by simplify_eq|]. split; [done|].
  destruct (loadEnvironmentKeyMap s) as [env|]; simpl in Hd; [|done]. exists env. split; [done|].
  destruct (hasDeliveryScopeAttributes r).
  { simplify_eq. by apply delivery_allowed_iff in Ha as [_ ?]. }
  intros Hp. rewrite Hp in Hd. simpl in Hd.
  destruct (loadApplicationEnvironments s) as [bindings|]; simpl in Hd; [|done].
  exists bindings. split; [done|]. simplify_eq. apply platform_allows_iff in Ha as [_ ?].
  split; [set_solver|done].
Qed.

Section authorization.
Context `{CatalogSource, MapRange, PolicyEngineSpec}.
Implicit Types (s : Service) (r : Request) (d : Decision).

(** What backs the ABAC part of an allow: an allow policy that applies, or a
    delivery request without a cluster. *)
Definition abac_backed (ps : list Policy) (r : Request) : Prop :=
  isClusterlessDeliveryRequest r = true \/
  exists p, p ∈ ps /\ applies r p /\ Policy_Effect p <> EffectDeny.

Lemma fallback_status r reason actions d :
  Decision_Status d = "" -> Decision_Status (delivery_fallback r reason actions d) = "".
Proof. unfold delivery_fallback. by case_match. Qed.

(** After the guard on denials, a decision with a reason is backed. *)
Lemma fallback_backed ps r reason actions e :
  engine_evaluate r ps = Ok e ->
  negb (Decision_Allowed e) && negb (str_empty (Decision_Reason e)) = false ->
  str_empty (Decision_Reason (delivery_fallback r reason actions e)) = false ->
  abac_backed ps r.
Proof.
  intros He Hg Hr. unfold delivery_fallback in Hr.
  destruct (str_empty (Decision_Reason e)) eqn:Hre; simpl in *.
  - destruct (isClusterlessDeliveryRequest r) eqn:Hc; [by left|]. by rewrite Hre in Hr.
  - right. rewrite andb_true_r in Hg. apply negb_false_iff in Hg.
    destruct (engine_allow_backed _ _ _ He Hg) as (_ & p & ? & ? & ? & _). eauto.
Qed.

(** The bases of an allow by action: a role of the principal carries the
    action in the effective matrix, a policy backs it and the scope grants
    admit it. *)
Definition action_backed (s : Service) (r : Request) : Prop :=
  exists matrix ps, loadRoleMatrix s = Ok matrix /\ loadPolicies s = Ok ps /\
    (exists role, role ∈ Principal_Roles (Request_Principal r) /\
       Request_Action r ∈ lookup_default [] matrix role) /\
    abac_backed ps r /\ scope_admitted s r matrix.

(** Every legacy decision leaves the status open; an allow has its bases. *)
Lemma legacy_decision s r d :
  authorizeLegacyAction s r = Ok d ->
  Decision_Status d = "" /\ (Decision_Allowed d = true -> action_backed s r).
Proof.
  unfold authorizeLegacyAction.
  destruct (loadRoleMatrix s) as [matrix|] eqn:Hm; simpl; [|done].
  destruct (loadPolicies s) as [ps|] eqn:Hp; simpl; [|done].
  destruct (contains _ (Request_Action r)) eqn:Hb; simpl; [|by intros [= <-]].
  apply contains_true, elem_of_roleActions in Hb.
  destruct (engine_evaluate r ps) as [e|] eqn:He; simpl; [|done].
  pose proof (engine_status _ _ _ He) as Hst.
  destruct (negb (Decision_Allowed e) && _) eqn:Hg.
  { intros [= <-]. split; [done|]. intros Ha. rewrite Ha in Hg. done. }
  set (f := delivery_fallback _ _ _ e).
  assert (Decision_Status f = "") as Hf by by apply fallback_status.
  destruct (str_empty (Decision_Reason f)) eqn:Hr; [by intros [= <-]|].
  assert (abac_backed ps r) as Hback by by eapply fallback_backed.
  set (actions := intersectActions _ _). destruct (is_empty actions); [by intros [= <-]|].
  simpl. destruct (contains actions (Request_Action r)) eqn:Hx; simpl; intros Hc;
    pose proof (constraint_admitted _ _ _ _ _ Hc) as Hsc;
    apply constraint_sound in Hc as [Hs Ha]; try done.
  - split; [by rewrite Hs|]. intros Hd. exists matrix, ps. eauto 10.
  - intros _. by apply contains_true.
  - split; [by rewrite Hs|]. intros Hd. exists matrix, ps. eauto 10.
Qed.

(** The same for the part of the permission path after the permission check. *)
Lemma permission_scope_decision s permissions r d :
  authorizePermissionScope s permissions r = Ok d ->
  Decision_Status d = "" /\
  (Decision_Allowed d = true ->
   exists ps rolePermissions, loadPolicies s = Ok ps /\ abac_backed ps r /\
     RolePermissionMatrix permissions = Ok rolePermissions /\
     scope_admitted s r (permission_role_matrix r rolePermissions)).
Proof.
  unfold authorizePermissionScope.
  destruct (loadPolicies s) as [ps|] eqn:Hp; simpl; [|done].
  destruct (engine_evaluate r ps) as [e|] eqn:He; simpl; [|done].
  pose proof (engine_status _ _ _ He) as Hst.
  destruct (negb (Decision_Allowed e) && _) eqn:Hg.
  { apply andb_true_iff in Hg as [Ha%negb_true_iff _].
    intros [= <-]. case_match; simpl; rewrite Ha; done. }
  set (f := delivery_fallback _ _ _ e).
  assert (Decision_Status f = "") as Hf by by apply fallback_status.
  destruct (str_empty (Decision_Reason f)) eqn:Hr; [by intros [= <-]|].
  assert (abac_backed ps r) as Hback by by eapply fallback_backed.
  destruct (RolePermissionMatrix permissions) as [rp|]; simpl; [|done].
  intros Hc. pose proof (constraint_admitted _ _ _ _ _ Hc) as Hsc.
  apply constraint_sound in Hc as [Hs Ha]; [|simpl; set_solver].
  split; [by rewrite Hs|]. intros Hd. exists ps, rp. auto.
Qed.

Lemma missing_permission_decision s r capabilities d :
  authorizeMissingPermission s r capabilities = Ok d ->
  Decision_Status d = "" /\
  (Decision_Allowed d = true ->
   Principal_PermissionKeys (Request_Principal r) = [] /\ Request_Action r ∈ capabilities /\
   action_backed s r).
Proof.
  unfold authorizeMissingPermission.
  destruct (is_empty _ && contains _ _) eqn:Hg; [|by intros [= <-]].
  apply andb_true_iff in Hg as [Hk%is_empty_true Hc%contains_true].
  destruct (authorizeLegacyAction s r) as [l|] eqn:Hl; simpl; [|done].
  destruct (legacy_decision s r l Hl) as [Hst Hb].
  repeat case_match; intros [= <-]; simpl; (split; [done|]); intros; try done; split_and!; auto.
Qed.

(** The bases of an allow by permission: the principal holds the key now, with
    the approval its policy requires, a policy backs the request, and the scope
    grants admit it with the action lent by the roles that hold the key. *)
Definition permission_backed (s : Service) (r : Request) (definition : PermissionDefinition)
    (cache : RoleMatrixCache) : Prop :=
  exists permissions ps rolePermissions, Service_permissions s = Some permissions /\
    fst (resolver_HasPermission permissions (Request_Principal r) (Request_PermissionKey r) cache) = Ok true /\
    (Definition_ApprovalPolicy definition = "required" ->
       Context_ApprovalState (Request_Context r) = "approved") /\
    loadPolicies s = Ok ps /\ abac_backed ps r /\
    RolePermissionMatrix permissions = Ok rolePermissions /\
    scope_admitted s r (permission_role_matrix r rolePermissions).

(** The one other way: the resolver refuses the key, the principal carries no
    ceiling of keys, the permission declares the action as a legacy capability,
    and the action has its bases. *)
Definition legacy_backed (s : Service) (r : Request) (definition : PermissionDefinition)
    (cache : RoleMatrixCache) : Prop :=
  (exists permissions, Service_permissions s = Some permissions /\
    fst (resolver_HasPermission permissions (Request_Principal r) (Request_PermissionKey r) cache) = Ok false) /\
  Principal_PermissionKeys (Request_Principal r) = [] /\
  Request_Action r ∈ Definition_LegacyCapabilities definition /\
  action_backed s r.

Lemma permission_decision s r cache d cache' :
  authorizePermission s r cache = (Ok d, cache') ->
  (Decision_Status d = "" \/ Decision_Status d = DecisionApprovalRequired /\ Decision_Allowed d = false) /\
  (Decision_Allowed d = true ->
   exists definition, permissionDefinition (Request_PermissionKey r) = Ok (definition, true) /\
   let r' := default_action r definition in
   permission_backed s r' definition cache \/ legacy_backed s r' definition cache).
Proof.
  unfold authorizePermission.
  destruct (permissionDefinition _) as [[definition [|]]|] eqn:Hpd; [| |done].
  2: { intros [= <- _]. split; [by left|done]. }
  set (r' := default_action r definition).
  destruct (Service_permissions s) as [permissions|] eqn:Hsp; [|intros [= <- _]; split; [by left|done]].
  destruct (resolver_HasPermission _ _ _ _) as [[[|]|] c] eqn:Hh; simpl; [| |done].
  - destruct (String.eqb_spec (Definition_ApprovalPolicy definition) "required") as [Hr|Hr]; simpl.
    1: destruct (String.eqb_spec (Context_ApprovalState (Request_Context r')) "approved") as [Hap|Hap]; simpl.
    2: { intros [= <- _]. split; [by right|done]. }
    all: intros [= Hd _]; apply permission_scope_decision in Hd as [Hst Ha]; split; [by left|];
      intros (ps & rp & ? & ? & ? & ?)%Ha; exists definition; split; [done|]; left;
      change (permission_backed s r' definition cache);
      exists permissions, ps, rp; rewrite Hh; split_and!; done.
  - intros [= Hd _]. apply missing_permission_decision in Hd as [Hst Ha]. split; [by left|].
    intros (? & ? & ?)%Ha. exists definition. split; [done|]. right.
    change (legacy_backed s r' definition cache). split; [exists permissions; by rewrite Hh|done].
Qed.
End authorization.

(** ** Services with the same answers *)

(** Equal values, or errors of the same kind (their text may differ). *)
Definition same_outcome {A} (m1 m2 : result A) : Prop :=
  match m1, m2 with
  | Ok a, Ok b => a = b
  | Err e1, Err e2 => err_kind e1 = err_kind e2
  | _, _ => False
  end.

#[export] Instance same_outcome_equiv {A} : Equivalence (@same_outcome A).
Proof. split; [intros []|intros [] []|intros [] [] []]; simpl; try done; congruence. Qed.

Lemma same_outcome_bind {A B} (m1 m2 : result A) (k1 k2 : A -> result B) :
  same_outcome m1 m2 -> (forall a, m1 = Ok a -> same_outcome (k1 a) (k2 a)) ->
  same_outcome (result_bind m1 k1) (result_bind m2 k2).
Proof. destruct m1, m2; simpl; try done. intros -> Hk. by apply Hk. Qed.

Lemma same_outcome_wrap {A} text (m : result A) : same_outcome (map_err (wrapf text) m) m.
Proof. by destruct m. Qed.

(** Two services that give the same answers. *)
Record same_answers `{CatalogSource} (s1 s2 : Service) : Prop := {
  same_policies : same_outcome (loadPolicies s1) (loadPolicies s2);
  same_roles : same_outcome (loadRoleMatrix s1) (loadRoleMatrix s2);
  same_grants : same_outcome (loadScopeGrants s1) (loadScopeGrants s2);
  same_environments : same_outcome (loadEnvironmentKeyMap s1) (loadEnvironmentKeyMap s2);
  same_bindings : same_outcome (loadApplicationEnvironments s1) (loadApplicationEnvironments s2)
}.

Section same_answers.
Context `{CatalogSource, MapRange, PolicyEngineSpec}.

Ltac same_step :=
  first [ done
        | apply same_outcome_bind; [|intros]
        | progress case_match ].

Lemma same_constraint s1 s2 r d matrix :
  same_answers s1 s2 ->
  same_outcome (applyScopeGrantConstraint s1 r d matrix) (applyScopeGrantConstraint s2 r d matrix).
Proof. intros [? ? ? ? ?]. unfold applyScopeGrantConstraint, matchedSubjectScopeGrants. repeat same_step. Qed.

Lemma same_legacy s1 s2 r :
  same_answers s1 s2 -> same_outcome (authorizeLegacyAction s1 r) (authorizeLegacyAction s2 r).
Proof.
  intros Hs. destruct (Hs) as [? ? ? ? ?]. unfold authorizeLegacyAction.
  repeat same_step; by apply same_constraint.
Qed.

Lemma same_unguarded s1 s2 r cache :
  same_answers s1 s2 -> Service_permissions s1 = Service_permissions s2 ->
  same_outcome (fst (authorize_unguarded s1 r cache)) (fst (authorize_unguarded s2 r cache)) /\
  snd (authorize_unguarded s1 r cache) = snd (authorize_unguarded s2 r cache).
Proof.
  intros Hs Hp. unfold authorize_unguarded, authorizePermission. rewrite Hp.
  destruct (negb (blank _)); [|split; [|done]; apply same_outcome_bind; [by apply same_legacy|done]].
  destruct (permissionDefinition (Request_PermissionKey r)) as [[definition found]|] eqn:Hd; [|done].
  set (r' := if found then _ else r).
  assert (Request_PermissionKey r' = Request_PermissionKey r) as -> by (subst r'; unfold default_action; by repeat case_match).
  rewrite Hd. destruct found; [|done]. destruct (Service_permissions s2) as [permissions|]; [|done].
  destruct (resolver_HasPermission _ _ _ _) as [[allowed|] c]; simpl; [|done]. split; [|done].
  apply same_outcome_bind; [|done]. destruct allowed; simpl.
  - case_match; [done|]. destruct (Hs) as [? ? ? ? ?]. unfold authorizePermissionScope.
    repeat same_step; by apply same_constraint.
  - unfold authorizeMissingPermission. case_match; [|done].
    apply same_outcome_bind; [by apply same_legacy|]. intros. by repeat case_match.
Qed.

(** The same decisions when the resolvers differ but answer alike for the
    principal of the request. *)
Lemma same_unguarded_resolved s1 s2 r cache p1 p2 :
  same_answers s1 s2 -> Service_permissions s1 = Some p1 -> Service_permissions s2 = Some p2 ->
  (forall key, fst (resolver_HasPermission p1 (Request_Principal r) key cache) =
               fst (resolver_HasPermission p2 (Request_Principal r) key cache)) ->
  RolePermissionMatrix p1 = RolePermissionMatrix p2 ->
  same_outcome (fst (authorize_unguarded s1 r cache)) (fst (authorize_unguarded s2 r cache)).
Proof.
  intros Hs Hp1 Hp2 Hhas Hmat. unfold authorize_unguarded, authorizePermission. rewrite Hp1, Hp2.
  destruct (negb (blank _)); [|apply same_outcome_bind; [by apply same_legacy|done]].
  destruct (permissionDefinition (Request_PermissionKey r)) as [[definition found]|] eqn:Hd; [|done].
  set (r' := if found then _ else r).
  assert (Request_PermissionKey r' = Request_PermissionKey r /\ Request_Principal r' = Request_Principal r)
    as [Hk Hpr] by (subst r'; unfold default_action; by repeat case_match).
  rewrite Hk, Hd. destruct found; [|done]. set (r'' := default_action r' definition).
  assert (Request_Principal r'' = Request_Principal r) as -> by (subst r''; unfold default_action; by case_match).
  specialize (Hhas (Request_PermissionKey r'')).
  destruct (resolver_HasPermission p1 _ _ _) as [a1 c1], (resolver_HasPermission p2 _ _ _) as [a2 c2].
  simpl in Hhas. subst a2. destruct a1 as [allowed|]; simpl; [|done].
  apply same_outcome_bind; [|done]. destruct allowed; simpl.
  - case_match; [done|]. destruct (Hs) as [? ? ? ? ?]. unfold authorizePermissionScope. rewrite Hmat.
    repeat same_step; by apply same_constraint.
  - unfold authorizeMissingPermission. case_match; [|done].
    apply same_outcome_bind; [by apply same_legacy|]. intros. by repeat case_match.
Qed.

Lemma loadPolicies_nonempty s ps : loadPolicies s = Ok ps -> is_empty ps = false.
Proof.
  unfold loadPolicies. destruct (Service_repo s) as [repo|]; [|by intros [= <-]].
  destruct (ListPolicies repo); simpl; [|done]. case_match; by intros [= <-].
Qed.

Lemma loadRoleMatrix_nonempty s m : loadRoleMatrix s = Ok m -> m <> ∅.
Proof.
  assert (RoleMatrix <> ∅) as Hr by (unfold RoleMatrix; apply insert_non_empty).
  unfold loadRoleMatrix. destruct (Service_repo s) as [repo|]; [|by intros [= <-]].
  destruct (ListRoleCapabilities repo); simpl; [|done]. case_bool_decide; by intros [= <-].
Qed.

Lemma snapshot_answers s : same_answers (SnapshotForRead s) s.
Proof.
  split; simpl.
  - unfold loadPolicies at 1. simpl.
    destruct (loadPolicies s) as [ps|] eqn:Hp; simpl; [|done]. by rewrite (loadPolicies_nonempty s ps Hp).
  - unfold loadRoleMatrix at 1. simpl.
    destruct (loadRoleMatrix s) as [m|] eqn:Hm; simpl; [|done].
    by rewrite bool_decide_false by by apply (loadRoleMatrix_nonempty s).
  - unfold loadScopeGrants at 1. simpl. apply same_outcome_wrap.
  - unfold loadEnvironmentKeyMap. done.
  - unfold loadApplicationEnvironments. done.
Qed.
End same_answers.

(** ** Sample inputs *)

(** A service on built-in policies whose role [dev] holds two permissions. *)
Definition sample_service : Service :=
  {| Service_repo := None; Service_grants := None; Service_catalog := None;
     Service_permissions := Some (Some (Ok sample_matrix)) |}.

(** A principal with the subject role [ops] asks for pods by permission key. *)
Definition permission_request_of (principal : Principal) (key : string) : Request :=
  {| Request_RequireUnscopedPlatform := false; Request_RequireClusterWideNamespace := false;
     Request_RequireWholeResourceCollection := false;
     Request_FailClosedOnUnknownResourceLabels := false; Request_RequireNamespaceLabels := false;
     Request_Principal := principal; Request_PermissionKey := key; Request_Action := "";
     Request_Subject := Request_Subject sample_request; Request_Cluster := Request_Cluster sample_request;
     Request_Namespace := Request_Namespace sample_request;
     Request_Resource := Request_Resource sample_request;
     Request_Delivery := Request_Delivery sample_request;
     Request_Context := Request_Context sample_request |}.

Definition sample_permission_request : string -> Request := permission_request_of (sample_principal []).

(** The sample service where the team of the subject may use the role [dev] in
    its namespace only. *)
Definition scoped_service : Service :=
  {| Service_repo := None;
     Service_grants := Some (Ok [{| Grant_ID := "g"; Grant_SubjectType := "team"; Grant_SubjectID := "t1";
       Grant_BusinessLineID := ""; Grant_EnvironmentIDs := []; Grant_ApplicationIDs := [];
       Grant_ScopeType := "platform"; Grant_ClusterIDs := ["c1"]; Grant_Namespaces := ["team-a"];
       Grant_NamespaceSelector := ""; Grant_ResourceGroups := []; Grant_ResourceKinds := [];
       Grant_Role := "dev"; Grant_Effect := "allow"; Grant_Enabled := true;
       Grant_CreatedAt := 0; Grant_UpdatedAt := 0 |}]);
     Service_catalog := None; Service_permissions := Some (Some (Ok sample_matrix)) |}.

(** An administrator asks for [exec] on a production cluster. *)
Definition production_exec_request : Request :=
  {| Request_RequireUnscopedPlatform := false; Request_RequireClusterWideNamespace := false;
     Request_RequireWholeResourceCollection := false;
     Request_FailClosedOnUnknownResourceLabels := false; Request_RequireNamespaceLabels := false;
     Request_Principal := {| Principal_UserID := "root"; Principal_UserName := "root"; Principal_Email := "";
       Principal_AvatarURL := ""; Principal_AvatarFit := ""; Principal_Roles := ["admin"];
       Principal_Teams := []; Principal_Projects := []; Principal_Tags := [];
       Principal_PermissionKeys := []; Principal_AccessTokenID := "" |};
     Request_PermissionKey := ""; Request_Action := ActionExec;
     Request_Subject := {| Subject_UserID := "root"; Subject_Roles := ["admin"]; Subject_Teams := [];
       Subject_Projects := []; Subject_Tags := [] |};
     Request_Cluster := {| Cluster_ClusterID := "c1"; Cluster_Region := "eu";
       Cluster_Environment := "production"; Cluster_Labels := ∅ |};
     Request_Namespace := Request_Namespace sample_request;
     Request_Resource := Request_Resource sample_request;
     Request_Delivery := Request_Delivery sample_request;
     Request_Context := Request_Context sample_request |}.

(** A revision that tells states apart by their policies' names. *)
Definition sample_revision : RevisionSource :=
  {| state_revision st := Some ("r" +:+ Join (Policy_Name <$> State_Policies st) "|") |}.

(** ** Properties *)

(** Delivery scope: the most specific grants decide, and a deny among them
    wins.  A delivery request is allowed iff its action was allowed before, no
    grant of the highest specificity that matches the delivery scope denies,
    and the role of one of them carries the action; so neither the order of
    the grants nor less specific grants matter. *)
Theorem delivery_most_specific_wins request decision roleMatrix grants envKeyMap :
  Decision_Allowed (applyDeliveryScopeGrantConstraint request decision roleMatrix grants envKeyMap) = true <->
  Request_Action request ∈ Decision_AllowedActions decision /\
  (forall g, most_specific request envKeyMap grants g -> ~ is_deny g) /\
  exists g, most_specific request envKeyMap grants g /\
    Request_Action request ∈ lookup_default [] roleMatrix (Grant_Role g).
Proof. apply delivery_allowed_iff. Qed.

(** An action-based allow has its bases: some role of the principal
    carries the action in the effective role matrix, an allow policy
    applies to the request (or it is a delivery request without a cluster), and
    the scope grants admit it. *)
Theorem legacy_authorization_sound `{CatalogSource, MapRange, PolicyEngineSpec} s r d :
  authorizeLegacyAction s r = Ok d -> Decision_Allowed d = true -> action_backed s r.
Proof. intros Hd. apply (legacy_decision s r d Hd). Qed.

Lemma legacy_authorization_sound_witness :
  exists matrix, loadRoleMatrix (H := sample_catalog) sample_service = Ok matrix /\
    exists role, role ∈ ["ops"] /\ ActionList ∈ lookup_default [] matrix role.
Proof.
  destruct (legacy_authorization_sound (H := sample_catalog) (H1 := policy_engine) sample_service sample_request
    (let d := authorizeLegacyAction (H := sample_catalog) (H1 := policy_engine) sample_service sample_request in
     match d with Ok d => d | Err _ => zero_Decision end)) as (m & ps & Hm & _ & Hr & _).
  - vm_compute. reflexivity.
  - vm_compute. reflexivity.
  - exists m. split; [exact Hm|exact Hr].
Defined.

(** C4. A permission-based allow has its bases, on each of the two paths the code
    has: the key is in the catalog, and either the principal holds it now (with
    the approval its policy requires), an allow policy applies or it is a
    delivery request without a cluster, and the scope grants of the subject
    admit the action for the roles that hold the key; or the resolver refuses
    the key, the principal carries no ceiling of keys, the catalog declares the
    action a legacy capability of the permission, a role of the principal
    carries the action, an allow policy applies, and the scope grants admit it. *)
Theorem permission_authorization_sound `{CatalogSource, MapRange, PolicyEngineSpec} s r cache d cache' :
  authorizePermission s r cache = (Ok d, cache') -> Decision_Allowed d = true ->
  exists definition, permissionDefinition (Request_PermissionKey r) = Ok (definition, true) /\
   let r' := default_action r definition in
   permission_backed s r' definition cache \/ legacy_backed s r' definition cache.
Proof. intros Hd. apply (permission_decision _ _ _ _ _ Hd). Qed.

Lemma permission_authorization_sound_witness :
  exists definition matrix,
    permissionDefinition (H := sample_catalog) "pods.view" = Ok (definition, true) /\
    scope_admitted scoped_service
      (default_action (sample_permission_request "pods.view") definition) matrix.
Proof.
  destruct (permission_authorization_sound (H := sample_catalog) (H1 := policy_engine) scoped_service
    (sample_permission_request "pods.view") None
    (match fst (authorizePermission (H := sample_catalog) (H1 := policy_engine) scoped_service
             (sample_permission_request "pods.view") None) with Ok d => d | Err _ => zero_Decision end)
    (Some sample_matrix)) as (definition & Hd & [Hb|Hb]).
  - vm_compute. reflexivity.
  - vm_compute. reflexivity.
  - destruct Hb as (permissions & ps & rp & Hb). exists definition. eexists. split; [exact Hd|apply Hb].
  - destruct Hb as (_ & _ & _ & matrix & ps & Hb). exists definition, matrix. split; [exact Hd|apply Hb].
Defined.

Section decisions.
Context `{CatalogSource, MapRange, PolicyEngineSpec, RevisionSource}.
Implicit Types (s : Service) (r : Request) (d : Decision).

(** A decision as a caller sees it. *)
Definition coherent (d : Decision) : Prop :=
  (Decision_Allowed d = true <-> Decision_Status d = DecisionAllow) /\
  (Decision_Status d ∈ [DecisionAllow; DecisionDeny; DecisionApprovalRequired]) /\
  Decision_ReasonCode d <> "".

Lemma finalize_coherent r d :
  Decision_Status d = "" \/ Decision_Status d = DecisionApprovalRequired /\ Decision_Allowed d = false ->
  coherent (finalizeDecision r d).
Proof.
  intros Hd. unfold coherent, finalizeDecision. simpl.
  assert ((if str_empty (Decision_ReasonCode d) then if Decision_Allowed d then "allowed" else "denied"
    else Decision_ReasonCode d) <> "") as Hrc.
  { destruct (str_empty (Decision_ReasonCode d)) eqn:He; [by destruct (Decision_Allowed d)|by apply String.eqb_neq]. }
  destruct Hd as [-> | [-> Ha]]; simpl.
  - destruct (Decision_Allowed d); split_and!; try done; set_solver.
  - rewrite Ha in *. split_and!; try done; set_solver.
Qed.

Lemma unguarded_coherent s r cache d cache' :
  authorize_unguarded s r cache = (Ok d, cache') -> coherent d.
Proof.
  unfold authorize_unguarded. destruct (negb (blank _)).
  - destruct (permissionDefinition _) as [[definition found]|]; [|done].
    set (r' := if found then _ else r).
    destruct (authorizePermission s r' cache) as [[e|] c] eqn:He; simpl; [|done].
    intros [= <- _]. apply finalize_coherent. by apply permission_decision in He as [? _].
  - destruct (authorizeLegacyAction s r) as [l|] eqn:Hl; simpl; [|done]. intros [= <- _].
    apply finalize_coherent. left. by apply legacy_decision in Hl as [? _].
Qed.

(** Decisions are coherent: whatever the path, with or without a ceiling,
    a returned decision is allowed iff its status is [allow], its status is one
    of the three, a pending approval is never an allow, and its reason code is
    not empty. *)
Theorem authorize_coherent s ceiling r cache d cache' :
  Authorize s ceiling r cache = (Ok d, cache') -> coherent d.
Proof.
  destruct ceiling as [revision|]; simpl; [|apply unguarded_coherent].
  unfold authorizeExecutionCeiling.
  destruct (executionAuthorizationState_of s _) as [[st current]|]; [|done].
  case_match; [|apply unguarded_coherent]. intros [= <- _]. apply finalize_coherent. by left.
Qed.

(** A read snapshot decides like the service it was taken from: the same
    decisions, the same effect on the role matrix, errors of the same kind. *)
Theorem snapshot_equivalent s r cache :
  let live := authorize_unguarded s r cache in
  let snapshot := authorize_unguarded (SnapshotForRead s) r cache in
  same_outcome (fst snapshot) (fst live) /\ snd snapshot = snd live.
Proof. apply same_unguarded; [apply snapshot_answers|done]. Qed.

Lemma frozen_answers s principal st current :
  executionAuthorizationState_of s principal = Ok (st, current) -> same_answers (frozen_service st) s.
Proof.
  unfold executionAuthorizationState_of. destruct (Service_permissions s) as [permissions|]; [|done].
  destruct (loadPolicies s) as [ps|] eqn:Hp; simpl; [|done].
  destruct (loadScopeGrants s) as [gs|] eqn:Hg; simpl; [|done].
  destruct (loadRoleMatrix s) as [m|] eqn:Hm; simpl; [|done].
  destruct (RolePermissionMatrix permissions) as [rp|]; simpl; [|done].
  destruct (match Service_catalog s with None => Ok [] | Some c => ListEnvironments c end) as [es|] eqn:He;
    simpl; [|done].
  destruct (match Service_catalog s with None => Ok [] | Some c => ListApplicationEnvironments c end)
    as [bs|] eqn:Hb; simpl; [|done].
  destruct (state_revision _) as [rev|]; [|done]. intros [= <- _]. split; simpl.
  - rewrite Hp. unfold loadPolicies. simpl. by rewrite (loadPolicies_nonempty s ps Hp).
  - rewrite Hm. unfold loadRoleMatrix. simpl. by rewrite bool_decide_false by by apply (loadRoleMatrix_nonempty s).
  - by rewrite Hg.
  - unfold loadEnvironmentKeyMap. simpl. destruct (Service_catalog s) as [c|]; [by rewrite He|].
    by simplify_eq.
  - unfold loadApplicationEnvironments. simpl. destruct (Service_catalog s) as [c|]; [by rewrite Hb|].
    by simplify_eq.
Qed.

(** The role matrix the resolver falls back on. *)
Definition effective_matrix (matrix : gmap string (list string)) : gmap string (list string) :=
  if bool_decide (matrix = ∅) then defaultRolePermissions else matrix.

(** The keys of the request are settled: the request names none, or the stored
    matrix is not overridden by the process-wide one and expanding its keys
    again adds nothing. *)
Definition settled_keys (s : Service) (r : Request) (cache : RoleMatrixCache) : Prop :=
  blank (Request_PermissionKey r) = true \/
  exists matrix, Service_permissions s = Some (Some (Ok matrix)) /\
    (matrix <> ∅ \/ cache = None) /\
    (forall role keys, effective_matrix matrix !! role = Some keys -> expansion_closed keys) /\
    expansion_closed (collect_keys (effective_matrix matrix) (Principal_Roles (Request_Principal r))).

Lemma effective_matrix_nonempty matrix : effective_matrix matrix <> ∅.
Proof.
  unfold effective_matrix. case_bool_decide; [|done].
  unfold defaultRolePermissions. apply insert_non_empty.
Qed.

Lemma frozen_state_permissions s principal st current matrix :
  executionAuthorizationState_of s principal = Ok (st, current) ->
  Service_permissions s = Some (Some (Ok matrix)) ->
  State_RolePermissions st = expand_or_nil <$> effective_matrix matrix.
Proof.
  unfold executionAuthorizationState_of. intros Hst Hp. rewrite Hp in Hst.
  destruct (loadPolicies s) as [ps|]; cbn [result_bind] in Hst; [|done].
  destruct (loadScopeGrants s) as [gs|]; cbn [result_bind] in Hst; [|done].
  destruct (loadRoleMatrix s) as [m|]; cbn [result_bind] in Hst; [|done].
  destruct (RolePermissionMatrix (Some (Ok matrix))) as [rp|] eqn:Hr; cbn [result_bind] in Hst; [|done].
  assert (State_RolePermissions st = rp) as ->.
  { do 2 (match type of Hst with result_bind ?m _ = _ => destruct m; cbn [result_bind] in Hst; [|done] end).
    destruct (state_revision _); [|done]. by simplify_eq. }
  simpl in Hr. destruct loadPermissionCatalog; [|done]. by simplify_eq.
Qed.

(** The resolver on the frozen matrix answers like the live one. *)
Lemma frozen_resolver matrix principal key cache :
  matrix <> ∅ \/ cache = None ->
  expansion_closed (collect_keys (effective_matrix matrix) (Principal_Roles principal)) ->
  fst (resolver_HasPermission (Some (Ok (expand_or_nil <$> effective_matrix matrix))) principal key cache) =
  fst (resolver_HasPermission (Some (Ok matrix)) principal key cache).
Proof.
  intros Hm Hclosed. unfold resolver_HasPermission. destruct (blank key); [done|].
  unfold PermissionKeys, rolePermissionKeys.
  rewrite bool_decide_false by (rewrite fmap_empty_iff; apply effective_matrix_nonempty).
  assert ((if bool_decide (matrix = ∅)
    then (Ok (PermissionKeysForRoles cache (Principal_Roles principal)), cache)
    else (Ok (collect_keys matrix (Principal_Roles principal)), SetRolePermissionMatrix matrix cache)) =
    (Ok (collect_keys (effective_matrix matrix) (Principal_Roles principal)),
     if bool_decide (matrix = ∅) then cache else SetRolePermissionMatrix matrix cache)) as ->.
  { unfold effective_matrix. case_bool_decide as Hz; [|done]. destruct Hm as [? | ->]; [done|].
    unfold PermissionKeysForRoles, effectiveRolePermissionMatrix. simpl default. by rewrite (left_id_L ∅ (∪)). }
  cbn [result_bind]. rewrite (expand_expanded_matrix _ _ Hclosed). done.
Qed.

Lemma frozen_role_permissions matrix :
  (forall role keys, effective_matrix matrix !! role = Some keys -> expansion_closed keys) ->
  RolePermissionMatrix (Some (Ok (expand_or_nil <$> effective_matrix matrix))) =
  RolePermissionMatrix (Some (Ok matrix)).
Proof.
  intros Hclosed. unfold RolePermissionMatrix.
  rewrite bool_decide_false by (rewrite fmap_empty_iff; apply effective_matrix_nonempty).
  destruct loadPermissionCatalog as [catalog|] eqn:Hcat; [|done]. f_equal.
  fold (effective_matrix matrix). change (expand_or_nil <$> (expand_or_nil <$> effective_matrix matrix) =
    expand_or_nil <$> effective_matrix matrix).
  apply map_eq. intros role. rewrite !lookup_fmap.
  destruct (effective_matrix matrix !! role) as [keys|] eqn:Hk; simpl; [|done]. f_equal.
  destruct (expand_total catalog keys Hcat) as [e He]. unfold expand_or_nil. rewrite He.
  by rewrite (Hclosed role keys Hk e He).
Qed.

(** With settled keys, the frozen service decides like the service it froze. *)
Lemma frozen_decides s principal st current r cache :
  executionAuthorizationState_of s principal = Ok (st, current) -> settled_keys s r cache ->
  same_outcome (fst (authorize_unguarded (frozen_service st) r cache)) (fst (authorize_unguarded s r cache)).
Proof.
  intros Hst Hsettled. pose proof (frozen_answers _ _ _ _ Hst) as Hs.
  destruct Hsettled as [Hb|(matrix & Hp & Hm & Hroles & Hkeys)].
  - unfold authorize_unguarded. rewrite Hb. simpl. apply same_outcome_bind; [by apply same_legacy|done].
  - eapply same_unguarded_resolved; [done|done|exact Hp|..];
      rewrite (frozen_state_permissions _ _ _ _ _ Hst Hp).
    + intros key. by apply frozen_resolver.
    + by apply frozen_role_permissions.
Qed.

(** C5. An execution ceiling never grants.  A task records the revision of the
    authorization state at its start, on a service [s0] and a principal [p0].
    Later, on a service [s]: when the state has another revision now, or none
    was recorded, a request of the task is denied and nothing changes; and any
    allow is one that the state frozen at the start allows, that the service
    gave at the start and that the live service gives now, for the subject of
    that state.  The hash is assumed not to confuse these two states; the two
    services are compared where their permission keys are settled. *)
Theorem execution_ceiling_sound s0 p0 s r cache st0 recorded st current :
  executionAuthorizationState_of s0 p0 = Ok (st0, recorded) ->
  executionAuthorizationState_of s (Request_Principal r) = Ok (st, current) ->
  (recorded = current -> st0 = st) ->
  let r0 := set_Request_Subject (State_Subject st0) r in
  (forall revision, revision = "" \/ revision <> current ->
     exists d, Authorize s (Some revision) r cache = (Ok d, cache) /\ Decision_Allowed d = false) /\
  (forall d cache', Authorize s (Some recorded) r cache = (Ok d, cache') -> Decision_Allowed d = true ->
     recorded = current /\
     fst (Authorize (frozen_service st0) None r0 cache) = Ok d /\
     (settled_keys s0 r cache -> fst (Authorize s0 None r0 cache) = Ok d) /\
     (settled_keys s r cache -> fst (Authorize s None r0 cache) = Ok d)).
Proof.
  intros Hst0 Hst Hhash r0. simpl. unfold authorizeExecutionCeiling. rewrite Hst. split.
  - intros revision Hr.
    assert (str_empty revision || negb (String.eqb revision current) = true) as ->; [|by eexists].
    apply orb_true_iff. destruct Hr as [->|Hr]; [by left|right]. by apply negb_true_iff, String.eqb_neq.
  - intros d cache'. destruct (str_empty recorded || negb (String.eqb recorded current)) eqn:Hg.
    { intros [= <- _]. done. }
    apply orb_false_iff in Hg as [_ Heq%negb_false_iff%String.eqb_eq]. specialize (Hhash Heq). subst st.
    fold r0. intros Hd _. apply (f_equal fst) in Hd. simpl in Hd. split_and!; [done|done|..];
      intros Hk; [pose proof (frozen_decides _ _ _ _ r0 cache Hst0 Hk) as Hs
                 |pose proof (frozen_decides _ _ _ _ r0 cache Hst Hk) as Hs];
      rewrite Hd in Hs; clear Hd; simpl in Hs; case_match; by simplify_eq.
Qed.
End decisions.

Lemma authorize_coherent_witness :
  coherent (match fst (Authorize (H := sample_catalog) (H1 := policy_engine) (H2 := sample_revision)
    sample_service None sample_request None) with Ok d => d | Err _ => zero_Decision end).
Proof.
  apply (authorize_coherent (H := sample_catalog) (H1 := policy_engine) (H2 := sample_revision)
    sample_service None sample_request None _ None).
  vm_compute. reflexivity.
Defined.

(** A durable task of a principal with the roles [dev] and [ops]. *)
Definition task_principal : Principal :=
  {| Principal_UserID := "u-1"; Principal_UserName := "u"; Principal_Email := ""; Principal_AvatarURL := "";
     Principal_AvatarFit := ""; Principal_Roles := ["ops"; "dev"]; Principal_Teams := [];
     Principal_Projects := []; Principal_Tags := []; Principal_PermissionKeys := [];
     Principal_AccessTokenID := "" |}.

Definition task_request : Request :=
  permission_request_of task_principal "pods.view".

(** The keys of the sample service are settled for it. *)
Lemma sample_settled cache : settled_keys (H := sample_catalog) sample_service task_request cache.
Proof.
  assert (effective_matrix (H := sample_catalog) sample_matrix = sample_matrix) as He.
  { unfold effective_matrix. rewrite bool_decide_false; [done|]. unfold sample_matrix. apply insert_non_empty. }
  right. exists sample_matrix. rewrite He. split_and!; [done|left; unfold sample_matrix; apply insert_non_empty|..].
  - intros role keys Hk expanded Hx. unfold sample_matrix in Hk. apply lookup_singleton_Some in Hk as [_ <-].
    assert (Ok expanded = Ok ["nodes.view"; "pods.view"]) as [= ->] by (rewrite <-Hx; vm_compute; reflexivity).
    vm_compute. reflexivity.
  - intros expanded Hx.
    assert (Ok expanded = Ok ["nodes.view"; "pods.view"]) as [= ->] by (rewrite <-Hx; vm_compute; reflexivity).
    vm_compute. reflexivity.
Qed.

(** The state frozen for the task and its revision. *)
Definition sample_frozen : executionAuthorizationState * string :=
  match executionAuthorizationState_of (H := sample_catalog) (H2 := sample_revision) sample_service
    task_principal with
  | Ok frozen => frozen
  | Err _ => ({| State_Subject := Request_Subject sample_request; State_TokenID := ""; State_Policies := [];
      State_Grants := []; State_RoleActions := ∅; State_RolePermissions := ∅; State_Environments := [];
      State_ApplicationEnvironments := [] |}, "")
  end.

(** Another revision is refused; the recorded one allows, as the live service does. *)
Lemma execution_ceiling_sound_witness :
  let authorize := Authorize (H := sample_catalog) (H1 := policy_engine) (H2 := sample_revision) sample_service in
  (exists d, authorize (Some "other") task_request None = (Ok d, None) /\ Decision_Allowed d = false) /\
  exists d, fst (authorize (Some (snd sample_frozen)) task_request None) = Ok d /\ Decision_Allowed d = true /\
    fst (authorize None (set_Request_Subject (State_Subject (fst sample_frozen)) task_request) None) = Ok d.
Proof.
  set (d := match fst (Authorize (H := sample_catalog) (H1 := policy_engine) (H2 := sample_revision)
    sample_service (Some (snd sample_frozen)) task_request None) with Ok d => d | Err _ => zero_Decision end).
  destruct (execution_ceiling_sound (H := sample_catalog) (H1 := policy_engine) (H2 := sample_revision)
    sample_service task_principal sample_service task_request None (fst sample_frozen) (snd sample_frozen)
    (fst sample_frozen) (snd sample_frozen)) as [Hother Hallow].
  - vm_compute. reflexivity.
  - vm_compute. reflexivity.
  - done.
  - intros authorize. split; [apply Hother; right; vm_compute; discriminate|]. exists d.
    assert (fst (authorize (Some (snd sample_frozen)) task_request None) = Ok d) as Hd
      by (vm_compute; reflexivity).
    assert (Decision_Allowed d = true) as Ha by (vm_compute; reflexivity).
    split_and!; [exact Hd|exact Ha|].
    destruct (Hallow d (snd (authorize (Some (snd sample_frozen)) task_request None))) as (_ & _ & _ & Hlive);
      [|exact Ha|].
    + rewrite <-Hd. apply surjective_pairing.
    + apply Hlive, sample_settled.
Defined.

(** The built-in deny of [exec] applies to every request on production. *)
Lemma production_exec_applies r :
  Request_Action r = ActionExec -> Cluster_Environment (Request_Cluster r) = "production" ->
  applies r (builtin_policy "deny-prod-exec" "Deny Exec In Production" EffectDeny 200 [] ["production"]
    [ActionExec] "exec is denied in production by default policy").
Proof.
  intros Ha Hc. split; [by rewrite Ha|].
  unfold applyScopedDeny. simpl. rewrite (bool_decide_true ((∅ : gmap string (list string)) = ∅)) by done.
  simpl. rewrite andb_false_r.
  case_match; unfold matchesPolicy; simpl; rewrite !matchLabels_empty, Hc; done.
Qed.

Lemma default_priority `{CatalogSource} p :
  p ∈ DefaultPolicies -> (200 <= Policy_Priority p)%Z ->
  p = builtin_policy "deny-prod-exec" "Deny Exec In Production" EffectDeny 200 [] ["production"]
    [ActionExec] "exec is denied in production by default policy".
Proof.
  unfold DefaultPolicies. rewrite !elem_of_cons, elem_of_nil.
  intros Hp Hpr. destruct Hp as [Hp|Hp]; [done|]. exfalso.
  repeat destruct Hp as [Hp|Hp]; try done; rewrite Hp in Hpr; exact (Hpr eq_refl).
Qed.

Lemma default_engine_exec `{CatalogSource, PrioritySort} r :
  Request_Action r = ActionExec -> Cluster_Environment (Request_Cluster r) = "production" ->
  Decision_Allowed (Evaluate r DefaultPolicies) = false /\ Decision_Reason (Evaluate r DefaultPolicies) <> "".
Proof.
  intros Ha Hc. pose proof (production_exec_applies r Ha Hc) as Happ.
  destruct (Request_RequireClusterWideNamespace r && hasScopedPolicyDeny r DefaultPolicies) eqn:Hcw.
  { unfold Evaluate. by rewrite Hcw. }
  destruct (Evaluate_first r DefaultPolicies Hcw) as [(p & Hp & Ho & Hmax)|[_ Hno]].
  - assert (200 <= Policy_Priority p)%Z as Hpr.
    { eapply (Z.le_trans 200 200); [done|]. refine (Hmax _ _ (applies_outcome _ _ Happ)). left. }
    pose proof (default_priority p Hp Hpr) as ->.
    generalize dependent (Evaluate r DefaultPolicies). intros d Ho.
    destruct Happ as [Hm1 Hm2]. unfold outcome in Ho. rewrite Hm1 in Ho. cbn [negb] in Ho. cbv zeta in Ho.
    rewrite Hm2 in Ho. destruct (policyNeedsNamespaceLabels _ _); injection Ho as <-; [done|].
    unfold applyScopedDeny. cbn [negb String.eqb]. repeat case_match; done.
  - exfalso. apply (applies_outcome r _ Happ). apply Hno. left.
Qed.

(** Built-in policies deny [exec] in production to everyone,
    administrators included: on a service without a policy repository no
    request for [exec] on a production cluster is allowed. *)
Theorem production_exec_denied `{CatalogSource, MapRange, PrioritySort} s r d :
  Service_repo s = None -> Request_Action r = ActionExec ->
  Cluster_Environment (Request_Cluster r) = "production" ->
  authorizeLegacyAction s r = Ok d -> Decision_Allowed d = false.
Proof.
  intros Hrepo Ha Hc Hd. unfold authorizeLegacyAction, loadPolicies in Hd. rewrite Hrepo in Hd.
  destruct (loadRoleMatrix s) as [m|]; simpl in Hd; [|done].
  destruct (negb (contains _ _)); [by simplify_eq|].
  destruct (default_engine_exec r Ha Hc) as [Hn Hr]. rewrite Hn in Hd. simpl in Hd.
  apply String.eqb_neq in Hr. unfold str_empty in Hd. rewrite Hr in Hd. simpl in Hd. by simplify_eq.
Qed.

Lemma production_exec_denied_witness :
  (exists d, authorizeLegacyAction (H := sample_catalog) (H1 := policy_engine) sample_service
    production_exec_request = Ok d) /\
  forall d, authorizeLegacyAction (H := sample_catalog) (H1 := policy_engine) sample_service
    production_exec_request = Ok d -> Decision_Allowed d = false.
Proof.
  split; [eexists; vm_compute; reflexivity|]. intros d Hd.
  apply (production_exec_denied (H := sample_catalog) sample_service production_exec_request d);
    [reflexivity|reflexivity|reflexivity|exact Hd].
Defined.
