(* ===== verification/WorkflowModel.v ===== *)
(** * Workflow definitions and run records

    The data of the workflow engine ([internal/application/workflow]): dynamic
    values, DAG definitions and their parsing ([dag_planner.go],
    [dag_definition.go]), run records ([internal/domain/workflow/models.go]) and
    the metadata of a run ([dag_metadata.go]). *)

From stdpp Require Import pretty.
From S2P Require Import Prelude GoStrings.

(** ** Run records *)

Record Step := {
  Step_Name : string;
  Step_Status : string;
  Step_Summary : string
}.

(** The three gateway calls are opaque references. *)
Record NodeRun := {
  NodeRun_DockerOperationID : string;
  NodeRun_ControlCall : option string;
  NodeRun_PreparedCall : option string;
  NodeRun_Invocation : option string;
  NodeRun_DispatchAttempted : bool;
  NodeRun_TargetID : string;
  NodeRun_Stage : string;
  NodeRun_BuildRecordID : string;
  NodeRun_ReleaseBundleID : string;
  NodeRun_DeliveryPlanID : string;
  NodeRun_ExecutionTaskID : string;
  NodeRun_ManifestDeploymentID : string;
  NodeRun_NodeID : string;
  NodeRun_Name : string;
  NodeRun_Type : string;
  NodeRun_Status : string;
  NodeRun_Summary : string;
  NodeRun_StartedAt : string;
  NodeRun_FinishedAt : string
}.

Definition zero_NodeRun : NodeRun :=
  {| NodeRun_DockerOperationID := ""; NodeRun_ControlCall := None; NodeRun_PreparedCall := None;
     NodeRun_Invocation := None; NodeRun_DispatchAttempted := false; NodeRun_TargetID := "";
     NodeRun_Stage := ""; NodeRun_BuildRecordID := ""; NodeRun_ReleaseBundleID := "";
     NodeRun_DeliveryPlanID := ""; NodeRun_ExecutionTaskID := ""; NodeRun_ManifestDeploymentID := "";
     NodeRun_NodeID := ""; NodeRun_Name := ""; NodeRun_Type := ""; NodeRun_Status := "";
     NodeRun_Summary := ""; NodeRun_StartedAt := ""; NodeRun_FinishedAt := "" |}.

(** The progress fields of an entry, updated together. *)
Definition set_NodeRun_progress (status summary startedAt finishedAt : string) (n : NodeRun) : NodeRun :=
  {| NodeRun_DockerOperationID := NodeRun_DockerOperationID n;
     NodeRun_ControlCall := NodeRun_ControlCall n; NodeRun_PreparedCall := NodeRun_PreparedCall n;
     NodeRun_Invocation := NodeRun_Invocation n; NodeRun_DispatchAttempted := NodeRun_DispatchAttempted n;
     NodeRun_TargetID := NodeRun_TargetID n; NodeRun_Stage := NodeRun_Stage n;
     NodeRun_BuildRecordID := NodeRun_BuildRecordID n; NodeRun_ReleaseBundleID := NodeRun_ReleaseBundleID n;
     NodeRun_DeliveryPlanID := NodeRun_DeliveryPlanID n; NodeRun_ExecutionTaskID := NodeRun_ExecutionTaskID n;
     NodeRun_ManifestDeploymentID := NodeRun_ManifestDeploymentID n; NodeRun_NodeID := NodeRun_NodeID n;
     NodeRun_Name := NodeRun_Name n; NodeRun_Type := NodeRun_Type n; NodeRun_Status := status;
     NodeRun_Summary := summary; NodeRun_StartedAt := startedAt; NodeRun_FinishedAt := finishedAt |}.

(** ** Definitions, over the type of dynamic values *)

Record dag_node (any : Type) := {
  Node_TargetID : string;
  Node_Stage : string;
  Node_ID : string;
  Node_Name : string;
  Node_Type : string;
  Node_ExecutorKind : string;
  Node_TargetKind : string;
  Node_CapabilityRef : string;
  Node_ProviderRef : string;
  Node_TimeoutSeconds : Z;
  Node_ContinueOnFailure : bool;
  Node_Config : gmap string any;
  Node_Inputs : list string;
  Node_Outputs : list string;
  Node_ServiceSelector : gmap string any;
  Node_EnvironmentSelector : gmap string any;
  Node_TargetSelector : gmap string any;
  Node_InputMapping : gmap string any;
  Node_ArtifactOutputs : list (gmap string any);
  Node_ArtifactKinds : list string;
  Node_RunCondition : string;
  Node_FailurePolicy : string;
  Node_FanOutStrategy : string;
  Node_FanOutBatchSize : Z;
  Node_FanOutFailurePolicy : string;
  Node_Observability : gmap string any
}.
Arguments Node_TargetID {_}. Arguments Node_Stage {_}. Arguments Node_ID {_}.
Arguments Node_Name {_}. Arguments Node_Type {_}. Arguments Node_ExecutorKind {_}.
Arguments Node_TargetKind {_}. Arguments Node_CapabilityRef {_}. Arguments Node_ProviderRef {_}.
Arguments Node_TimeoutSeconds {_}. Arguments Node_ContinueOnFailure {_}. Arguments Node_Config {_}.
Arguments Node_Inputs {_}. Arguments Node_Outputs {_}. Arguments Node_ServiceSelector {_}.
Arguments Node_EnvironmentSelector {_}. Arguments Node_TargetSelector {_}.
Arguments Node_InputMapping {_}. Arguments Node_ArtifactOutputs {_}. Arguments Node_ArtifactKinds {_}.
Arguments Node_RunCondition {_}. Arguments Node_FailurePolicy {_}. Arguments Node_FanOutStrategy {_}.
Arguments Node_FanOutBatchSize {_}. Arguments Node_FanOutFailurePolicy {_}.
Arguments Node_Observability {_}.

Record dagWorkflowEdge := {
  Edge_ID : string;
  Edge_Source : string;
  Edge_Target : string;
  Edge_Condition : string
}.

(** ** Dynamic values *)

Set Warnings "-register-all".

(** The dynamic types the engine tells apart in an [any]; a float carries the
    text [fmt.Sprint] prints and its integer part. *)
Inductive any :=
| ANil
| AString (s : string)
| ABool (b : bool)
| AInt (n : Z)
| AFloat (text : string) (truncated : Z)
| AList (l : list any)
| AMap (m : gmap string any)
| AStrings (l : list string)
| AStringMap (m : gmap string string)
| AIntMap (m : gmap string Z)
| AMaps (l : list (gmap string any))
| ANodeRuns (l : list NodeRun)
| ANodes (l : list (dag_node any))
| AEdges (l : list dagWorkflowEdge).

Abbreviation go_map := (gmap string any).
Abbreviation dagWorkflowNode := (dag_node any).

(** [fmt.Sprint] of the entries of a map, in the order of the keys. *)
Definition sprint_entries (entries : list string) : string :=
  "map[" +:+ Join (sort_strings entries) " " +:+ "]".

(** [fmt.Sprint]; the record slices print as Go structs, which no caller reads. *)
Fixpoint Sprint (v : any) : string :=
  match v with
  | ANil => "<nil>"
  | AString s => s
  | ABool b => if b then "true" else "false"
  | AInt n => pretty n
  | AFloat text _ => text
  | AList l => "[" +:+ Join (Sprint <$> l) " " +:+ "]"
  | AMap m => sprint_entries (map_fold (fun k x acc => (k +:+ ":" +:+ Sprint x) :: acc) [] m)
  | AStrings l => "[" +:+ Join l " " +:+ "]"
  | AStringMap m => sprint_entries (map_fold (fun k x acc => (k +:+ ":" +:+ x) :: acc) [] m)
  | AIntMap m => sprint_entries (map_fold (fun k x acc => (k +:+ ":" +:+ pretty x) :: acc) [] m)
  | AMaps l => "[" +:+ Join ((fun m : go_map =>
      sprint_entries (map_fold (fun k x acc => (k +:+ ":" +:+ Sprint x) :: acc) [] m)) <$> l) " " +:+ "]"
  | ANodeRuns _ | ANodes _ | AEdges _ => "[{...}]"
  end.

(** A key read from a map of dynamic values: nil when it is missing. *)
Definition get (m : go_map) (key : string) : any := default ANil (m !! key).

(** ** Readers of dynamic values *)

Definition toMapSlice (value : any) : option (list go_map) :=
  match value with
  | AList items => mapM (fun item => match item with AMap m => Some m | _ => None end) items
  | AMaps items => Some items
  | _ => None
  end.

Definition toMapSliceOrEmpty (value : any) : list go_map := default [] (toMapSlice value).

Definition toConfigMap (value : any) : go_map :=
  match value with AMap m => m | _ => ∅ end.

(** The non-blank texts of a list, trimmed. *)
Definition non_blank (texts : list string) : list string :=
  filter (fun text => text <> "") (TrimSpace <$> texts).

Definition toStringSlice (value : any) : list string :=
  match value with
  | AList items => non_blank (Sprint <$> items)
  | AStrings items => non_blank items
  | _ => []
  end.

Definition is_nil (value : any) : bool := match value with ANil => true | _ => false end.

Definition configString (config : go_map) (key : string) : string :=
  match config !! key with
  | None | Some ANil => ""
  | Some value => TrimSpace (Sprint value)
  end.

Definition mapString (values : go_map) (key : string) : string :=
  match values !! key with
  | None | Some ANil => ""
  | Some value =>
      let text := TrimSpace (Sprint value) in if String.eqb text "<nil>" then "" else text
  end.

Definition workflowMetadataString (metadata : go_map) (key : string) : string := mapString metadata key.

Fixpoint firstNonEmpty (values : list string) : string :=
  match values with
  | [] => ""
  | value :: rest => if negb (blank value) then TrimSpace value else firstNonEmpty rest
  end.

Definition firstPositiveInt (values : list Z) : Z :=
  default 0%Z (find_first (fun value => 0 <? value)%Z values).

Definition firstNonNil (values : list any) : any :=
  default ANil (find_first (fun value => negb (is_nil value)) values).

Definition mergeDAGMaps (base override : go_map) : go_map := override ∪ base.

Definition toInt (value : any) (fallback : Z) : Z :=
  match value with AInt n => n | AFloat _ n => n | _ => fallback end.

Definition toBool (value : any) : bool := match value with ABool b => b | _ => false end.

(** ** Parsing *)

Definition ScopeDeliveryBatch : string := "delivery_batch".
Definition ScopeCapabilityTask : string := "capability_task".

Record dagWorkflowDefinition := {
  Def_SchemaVersion : Z;
  Def_Mode : string;
  Def_Nodes : list dagWorkflowNode;
  Def_Edges : list dagWorkflowEdge
}.

Definition sprint_field (item : go_map) (key : string) : string := TrimSpace (Sprint (get item key)).

Definition parse_node (item : go_map) : dagWorkflowNode :=
  let fanOut := toConfigMap (get item "fanOut") in
  {| Node_TargetID := mapString item "targetId";
     Node_Stage := mapString item "stage";
     Node_ID := sprint_field item "id";
     Node_Name := sprint_field item "name";
     Node_Type := sprint_field item "type";
     Node_ExecutorKind := mapString item "executorKind";
     Node_TargetKind := mapString item "targetKind";
     Node_CapabilityRef := mapString item "capabilityRef";
     Node_ProviderRef := mapString item "providerRef";
     Node_TimeoutSeconds := toInt (get item "timeoutSeconds") 300;
     Node_ContinueOnFailure := toBool (get item "continueOnFailure");
     Node_Config := toConfigMap (get item "config");
     Node_Inputs := toStringSlice (get item "inputs");
     Node_Outputs := toStringSlice (get item "outputs");
     Node_ServiceSelector := toConfigMap (get item "serviceSelector");
     Node_EnvironmentSelector := toConfigMap (get item "environmentSelector");
     Node_TargetSelector := toConfigMap (get item "targetSelector");
     Node_InputMapping := toConfigMap (get item "inputMapping");
     Node_ArtifactOutputs := toMapSliceOrEmpty (get item "artifactOutputs");
     Node_ArtifactKinds := toStringSlice (get item "artifactKinds");
     Node_RunCondition := mapString item "runCondition";
     Node_FailurePolicy := mapString item "failurePolicy";
     Node_FanOutStrategy := firstNonEmpty [mapString item "fanOutStrategy"; mapString fanOut "strategy"];
     Node_FanOutBatchSize :=
       firstPositiveInt [toInt (get item "fanOutBatchSize") 0; toInt (get fanOut "batchSize") 0];
     Node_FanOutFailurePolicy :=
       firstNonEmpty [mapString item "fanOutFailurePolicy"; mapString fanOut "failurePolicy"];
     Node_Observability := toConfigMap (get item "observability") |}.

Definition parse_edge (item : go_map) : dagWorkflowEdge :=
  {| Edge_ID := sprint_field item "id"; Edge_Source := sprint_field item "source";
     Edge_Target := sprint_field item "target"; Edge_Condition := sprint_field item "condition" |}.

Definition parseDAGWorkflowDefinition (definition : go_map) : option dagWorkflowDefinition :=
  let mode := match get definition "mode" with AString s => TrimSpace s | _ => "" end in
  let mode := if str_empty mode then "release_dag" else mode in
  if negb (String.eqb mode "release_dag") && negb (String.eqb mode "delivery_dag") &&
     negb (String.eqb mode ScopeDeliveryBatch)
  then None
  else
  match toMapSlice (get definition "nodes") with
  | None | Some [] => None
  | Some nodeItems =>
      let edgeItems := toMapSliceOrEmpty (get definition "edges") in
      Some {| Def_SchemaVersion := toInt (get definition "schemaVersion") 2; Def_Mode := mode;
              Def_Nodes := parse_node <$> nodeItems; Def_Edges := parse_edge <$> edgeItems |}
  end.

Definition isValidationDAGNode (nodeType : string) : bool :=
  contains ["check_http"; "check_k8s_event"; "smoke_test"; "verify"; "check"] (TrimSpace nodeType).

Definition isRollbackDAGNode (nodeType : string) : bool :=
  String.eqb (TrimSpace nodeType) "rollback_to_previous".

Definition filterDAGDefinition (definition : dagWorkflowDefinition) (keep : string -> bool)
    : dagWorkflowDefinition :=
  let nodes := filter (fun node => keep (Node_Type node) = true) (Def_Nodes definition) in
  let allowed : gset string := list_to_set (Node_ID <$> nodes) in
  {| Def_SchemaVersion := Def_SchemaVersion definition; Def_Mode := Def_Mode definition;
     Def_Nodes := nodes;
     Def_Edges := filter (fun edge => Edge_Source edge ∈ allowed /\ Edge_Target edge ∈ allowed)
       (Def_Edges definition) |}.

Definition validationOnlyDAGDefinition (definition : dagWorkflowDefinition) : dagWorkflowDefinition :=
  filterDAGDefinition definition isValidationDAGNode.

Definition rollbackOnlyDAGDefinition (definition : dagWorkflowDefinition) : dagWorkflowDefinition :=
  filterDAGDefinition definition isRollbackDAGNode.

Definition incomingEdgesForNode (definition : dagWorkflowDefinition) (nodeID : string)
    : list dagWorkflowEdge :=
  filter (fun edge => Edge_Target edge = nodeID) (Def_Edges definition).

(** ** Runs and their metadata *)

Record Run := {
  Run_GatewayAuthorization : string;
  Run_Version : Z;
  Run_LeaseOwner : string;
  Run_LeaseUntil : option Z;
  Run_FencingToken : Z;
  Run_StopReason : string;
  Run_StopSummary : string;
  Run_Scope : string;
  Run_DeliveryBatchID : string;
  Run_ID : string;
  Run_ApplicationID : string;
  Run_WorkflowName : string;
  Run_ClusterID : string;
  Run_Namespace : string;
  Run_DeploymentName : string;
  Run_Status : string;
  Run_Steps : list Step;
  Run_NodeRuns : list NodeRun;
  Run_Metadata : go_map;
  Run_CreatedAt : string;
  Run_UpdatedAt : string
}.

(** The fields the engine writes. *)
Definition set_Run (status : string) (steps : list Step) (nodeRuns : list NodeRun) (metadata : go_map)
    (updatedAt : string) (r : Run) : Run :=
  {| Run_GatewayAuthorization := Run_GatewayAuthorization r; Run_Version := Run_Version r;
     Run_LeaseOwner := Run_LeaseOwner r; Run_LeaseUntil := Run_LeaseUntil r;
     Run_FencingToken := Run_FencingToken r; Run_StopReason := Run_StopReason r;
     Run_StopSummary := Run_StopSummary r; Run_Scope := Run_Scope r;
     Run_DeliveryBatchID := Run_DeliveryBatchID r; Run_ID := Run_ID r;
     Run_ApplicationID := Run_ApplicationID r; Run_WorkflowName := Run_WorkflowName r;
     Run_ClusterID := Run_ClusterID r; Run_Namespace := Run_Namespace r;
     Run_DeploymentName := Run_DeploymentName r; Run_Status := status; Run_Steps := steps;
     Run_NodeRuns := nodeRuns; Run_Metadata := metadata; Run_CreatedAt := Run_CreatedAt r;
     Run_UpdatedAt := updatedAt |}.

Definition set_Run_Status (status : string) (r : Run) : Run :=
  set_Run status (Run_Steps r) (Run_NodeRuns r) (Run_Metadata r) (Run_UpdatedAt r) r.

Definition set_Run_Metadata (metadata : go_map) (r : Run) : Run :=
  set_Run (Run_Status r) (Run_Steps r) (Run_NodeRuns r) metadata (Run_UpdatedAt r) r.

Definition workflowMetadataMode (metadata : go_map) : string :=
  let mode := TrimSpace (Sprint (get metadata "mode")) in
  if String.eqb mode "delivery_dag" || String.eqb mode ScopeDeliveryBatch then mode else "release_dag".

Definition definitionFromRunMetadata (run : Run) : option dagWorkflowDefinition :=
  let metadata := Run_Metadata run in
  if bool_decide (dom metadata = ∅) then None else
  match get metadata "nodes" with
  | ANodes ((_ :: _) as nodes) =>
      Some {| Def_SchemaVersion := toInt (get metadata "schemaVersion") 2;
              Def_Mode := workflowMetadataMode metadata; Def_Nodes := nodes;
              Def_Edges := match get metadata "edges" with AEdges edges => edges | _ => [] end |}
  | _ => parseDAGWorkflowDefinition
      {[ "mode" := AString (workflowMetadataMode metadata);
         "schemaVersion" := get metadata "schemaVersion";
         "nodes" := get metadata "nodes"; "edges" := get metadata "edges" ]}
  end.

Definition metadataMap (value : any) : go_map := match value with AMap m => m | _ => ∅ end.

Definition metadataMapSlice (value : any) : list go_map :=
  match value with
  | AMaps l => l
  | AList items => omap (fun item => match item with AMap m => Some m | _ => None end) items
  | _ => []
  end.

Definition ensure_key (key : string) (value : any) (m : go_map) : go_map :=
  match m !! key with Some _ => m | None => <[key := value]> m end.

Definition ensureDAGExecutionMetadata (run : Run) : Run :=
  set_Run_Metadata
    (ensure_key "nodeOutputs" (AMap ∅) (ensure_key "events" (AMaps []) (Run_Metadata run))) run.

(** [now] is the formatted time. *)
Definition appendDAGRunEvent (now : string) (run : Run) (event : go_map) : Run :=
  let run := ensureDAGExecutionMetadata run in
  let event := ensure_key "occurredAt" (AString now) event in
  let items := metadataMapSlice (get (Run_Metadata run) "events") in
  set_Run_Metadata (<["events" := AMaps (items ++ [event])]> (Run_Metadata run)) run.

Definition appendDAGNodeEvent (now : string) (run : Run) (nodeID eventType status summary : string)
    (details : go_map) : Run :=
  let eventType := if blank eventType then "node_event" else eventType in
  let event : go_map := {[ "type" := AString eventType; "nodeId" := AString nodeID;
                           "status" := AString status ]} in
  let event := if str_empty summary then event else <["summary" := AString summary]> event in
  let details := delete "type" (delete "nodeId" (delete "occurredAt" details)) in
  appendDAGRunEvent now run (details ∪ event).

(** An entry that carries nothing: nil or an empty map. *)
Definition empty_entry (value : any) : bool :=
  match value with ANil => true | AMap m => bool_decide (dom m = ∅) | _ => false end.

Definition recordDAGNodeOutputs (run : Run) (nodeID : string) (values : go_map) : Run :=
  if bool_decide (dom values = ∅) then run else
  let run := ensureDAGExecutionMetadata run in
  let nodeOutputs := metadataMap (get (Run_Metadata run) "nodeOutputs") in
  let existing := metadataMap (get nodeOutputs nodeID) in
  let recorded := filter (fun '(_, value) => empty_entry value = false) values ∪ existing in
  set_Run_Metadata
    (<["nodeOutputs" := AMap (<[nodeID := AMap recorded]> nodeOutputs)]> (Run_Metadata run)) run.

Definition mapNodeRunsToSlice (definition : dagWorkflowDefinition) (nodeRuns : gmap string NodeRun)
    : list NodeRun :=
  (fun node => lookup_default zero_NodeRun nodeRuns (Node_ID node)) <$> Def_Nodes definition.

Definition withNodeRunsMetadata (metadata : go_map) (definition : dagWorkflowDefinition)
    (nodeRuns : gmap string NodeRun) : go_map :=
  let items := mapNodeRunsToSlice definition nodeRuns in
  let statuses := fold_left (fun m item => <[NodeRun_NodeID item := NodeRun_Status item]> m) items ∅ in
  <["nodeStatus" := AStringMap statuses]> (<["nodeRuns" := ANodeRuns items]> metadata).
