(* ===== verification/WorkflowState.v ===== *)
(** * Node states of a workflow run

    [dag_state.go], [deliveryNodeReadiness] of [delivery_definition.go] and
    [incomingEdgesForNode]: failure policies, readiness of nodes, and the node
    entries of a run with their projections. *)

From S2P Require Import Prelude GoStrings WorkflowModel.

Definition workflowStatusWaitingApproval : string := "waiting_approval".
Definition workflowStatusWaitingExecution : string := "waiting_execution".

(** The status of a node, [""] when it has none. *)
Definition status_of (statuses : gmap string string) (nodeID : string) : string :=
  lookup_default "" statuses nodeID.

(** A node with an identifier and nothing else. *)
Definition bare_node (nodeID : string) : dagWorkflowNode :=
  {| Node_TargetID := ""; Node_Stage := ""; Node_ID := nodeID; Node_Name := ""; Node_Type := "";
     Node_ExecutorKind := ""; Node_TargetKind := ""; Node_CapabilityRef := ""; Node_ProviderRef := "";
     Node_TimeoutSeconds := 0; Node_ContinueOnFailure := false; Node_Config := ∅; Node_Inputs := [];
     Node_Outputs := []; Node_ServiceSelector := ∅; Node_EnvironmentSelector := ∅;
     Node_TargetSelector := ∅; Node_InputMapping := ∅; Node_ArtifactOutputs := [];
     Node_ArtifactKinds := []; Node_RunCondition := ""; Node_FailurePolicy := "";
     Node_FanOutStrategy := ""; Node_FanOutBatchSize := 0; Node_FanOutFailurePolicy := "";
     Node_Observability := ∅ |}.

Definition nodeByID (definition : dagWorkflowDefinition) (nodeID : string) : dagWorkflowNode :=
  match find_first (fun node => String.eqb (Node_ID node) nodeID) (Def_Nodes definition) with
  | Some node => node
  | None => bare_node nodeID
  end.

(** ** Failure policies *)

Definition effectiveDAGFailurePolicy (node : dagWorkflowNode) : string :=
  if Node_ContinueOnFailure node then "continue" else
  let policy := ToLower (TrimSpace (Node_FailurePolicy node)) in
  if contains ["continue"; "rollback"; "notify"; "stop"] policy then policy else "stop".

Definition dagFailureCountsAsWorkflowFailure (node : dagWorkflowNode) : bool :=
  negb (String.eqb (effectiveDAGFailurePolicy node) "continue").

Definition dagEdgeAllowsFailureBranch (condition : string) : bool :=
  contains ["failure"; "always"] (TrimSpace condition).

(** The search over incoming edges, with the visited nodes threaded through;
    each call either stops or visits a new node, so the number of nodes and
    edges bounds its depth. *)
Fixpoint hasFailureBranchPath (fuel : nat) (definition : dagWorkflowDefinition) (nodeID : string)
    (stoppedSources : gset string) (seen : gset string) : bool * gset string :=
  match fuel with
  | O => (false, seen)
  | S fuel =>
      if bool_decide (nodeID ∈ seen) then (false, seen) else
      fold_left (fun '(found, seen) edge =>
        if found : bool then (found, seen)
        else if negb (String.eqb (Edge_Target edge) nodeID) ||
                negb (dagEdgeAllowsFailureBranch (Edge_Condition edge)) then (false, seen)
        else if bool_decide (Edge_Source edge ∈ stoppedSources) then (true, seen)
        else hasFailureBranchPath fuel definition (Edge_Source edge) stoppedSources seen)
        (Def_Edges definition) (false, {[nodeID]} ∪ seen)
  end.

(** Enough for any search: every level visits another edge target. *)
Definition search_fuel (definition : dagWorkflowDefinition) : nat :=
  S (S (length (Def_Edges definition))).

Definition shouldStopDAGNodeAfterFailure (definition : dagWorkflowDefinition) (nodeID : string)
    (stoppedSources : gset string) : bool :=
  if bool_decide (stoppedSources = ∅) then false
  else if bool_decide (nodeID ∈ stoppedSources) then false
  else negb (fst (hasFailureBranchPath (search_fuel definition) definition nodeID stoppedSources ∅)).

Definition dagStopFailureSourcesFromNodeRuns (definition : dagWorkflowDefinition)
    (nodeRuns : gmap string NodeRun) : gset string :=
  list_to_set (Node_ID <$> filter (fun node =>
    NodeRun_Status (lookup_default zero_NodeRun nodeRuns (Node_ID node)) = "failed" /\
    effectiveDAGFailurePolicy node = "stop") (Def_Nodes definition)).

Definition recordDAGFailurePolicy (now : string) (run : Run) (nodeID policy summary : string) : Run :=
  let run := ensureDAGExecutionMetadata run in
  let policies := metadataMap (get (Run_Metadata run) "failurePolicies") in
  let effect :=
    if String.eqb policy "continue" then "workflow_continues"
    else if String.eqb policy "rollback" then "failure_branch_can_rollback"
    else if String.eqb policy "notify" then "failure_branch_can_notify"
    else if String.eqb policy "stop" then "stop_successors" else "workflow_failed" in
  let entry : go_map := {[ "policy" := AString policy; "effect" := AString effect;
                           "summary" := AString summary ]} in
  let run := set_Run_Metadata
    (<["failurePolicies" := AMap (<[nodeID := AMap entry]> policies)]> (Run_Metadata run)) run in
  appendDAGNodeEvent now run nodeID "failure_policy_applied" "failed" summary
    {[ "failurePolicy" := AString policy; "effect" := AString effect ]}.

(** ** Readiness *)

Definition deliveryNodeTerminal (status : string) : bool :=
  contains ["completed"; "failed"; "skipped"; "canceled"] status.

(** Ready, skipped. *)
Definition deliveryNodeReadiness (incoming : list dagWorkflowEdge) (statuses : gmap string string)
    : bool * bool :=
  let '(ready, failedDependency) :=
    fold_left (fun '(ready, failedDependency) edge =>
      let status := status_of statuses (Edge_Source edge) in
      if negb (deliveryNodeTerminal status) then (false, failedDependency)
      else (ready, failedDependency ||
              negb (String.eqb (Edge_Condition edge) "settled") && negb (String.eqb status "completed")))
      incoming (true, false) in
  if negb ready then (false, false)
  else if failedDependency : bool then (false, true) else (ready, false).

Definition dagEdgeSatisfied (definition : dagWorkflowDefinition) (edge : dagWorkflowEdge)
    (status : string) : bool :=
  let condition := TrimSpace (Edge_Condition edge) in
  if String.eqb condition "failure" then String.eqb status "failed"
  else if String.eqb condition "always" then
    String.eqb status "completed" || String.eqb status "failed" || String.eqb status "skipped"
  else if String.eqb status "completed" then true
  else String.eqb status "failed" &&
       String.eqb (effectiveDAGFailurePolicy (nodeByID definition (Edge_Source edge))) "continue".

(** The predecessor has no outcome yet. *)
Definition unresolved (status : string) : bool :=
  contains [""; "pending"; "running"; workflowStatusWaitingApproval; workflowStatusWaitingExecution] status.

(** Ready, skipped. *)
Definition resolveDAGNodeReadiness (definition : dagWorkflowDefinition) (incoming : list dagWorkflowEdge)
    (statuses : gmap string string) : bool * bool :=
  if String.eqb (Def_Mode definition) ScopeDeliveryBatch ||
     String.eqb (Def_Mode definition) ScopeCapabilityTask
  then deliveryNodeReadiness incoming statuses
  else if is_empty incoming then (true, false)
  else
  let '(allPredicatesResolved, anySatisfied) :=
    fold_left (fun '(resolved, satisfied) edge =>
      let predStatus := status_of statuses (Edge_Source edge) in
      if unresolved predStatus then (false, satisfied)
      else (resolved, satisfied || dagEdgeSatisfied definition edge predStatus))
      incoming (true, false) in
  if allPredicatesResolved && negb anySatisfied then (false, true)
  else (allPredicatesResolved && anySatisfied, false).

(** ** Node entries *)

Definition initial_entry (node : dagWorkflowNode) : NodeRun :=
  {| NodeRun_DockerOperationID := ""; NodeRun_ControlCall := None; NodeRun_PreparedCall := None;
     NodeRun_Invocation := None; NodeRun_DispatchAttempted := false; NodeRun_TargetID := Node_TargetID node;
     NodeRun_Stage := Node_Stage node; NodeRun_BuildRecordID := ""; NodeRun_ReleaseBundleID := "";
     NodeRun_DeliveryPlanID := ""; NodeRun_ExecutionTaskID := ""; NodeRun_ManifestDeploymentID := "";
     NodeRun_NodeID := Node_ID node; NodeRun_Name := Node_Name node; NodeRun_Type := Node_Type node;
     NodeRun_Status := "pending"; NodeRun_Summary := ""; NodeRun_StartedAt := "";
     NodeRun_FinishedAt := "" |}.

Definition initializeNodeRuns (definition : dagWorkflowDefinition) : gmap string NodeRun :=
  fold_left (fun items node => <[Node_ID node := initial_entry node]> items) (Def_Nodes definition) ∅.

Definition restoreNodeRuns (definition : dagWorkflowDefinition) (existing : list NodeRun)
    : gmap string NodeRun :=
  fold_left (fun items item =>
    match items !! NodeRun_NodeID item with
    | None => items
    | Some _ => <[NodeRun_NodeID item := item]> items
    end) existing (initializeNodeRuns definition).

Definition collectNodeStatuses (items : gmap string NodeRun) : gmap string string :=
  filter (fun '(_, status) => status <> "" /\ status <> "pending") (NodeRun_Status <$> items).

Definition hasWaitingApproval (items : gmap string NodeRun) : bool :=
  bool_decide (map_Exists (fun _ item => NodeRun_Status item = workflowStatusWaitingApproval) items).

Definition hasWaitingExecution (items : gmap string NodeRun) : bool :=
  bool_decide (map_Exists (fun _ item => NodeRun_Status item = workflowStatusWaitingExecution) items).

Definition buildStepsFromNodeRuns (definition : dagWorkflowDefinition) (nodeRuns : gmap string NodeRun)
    : list Step :=
  (fun node =>
    let entry := lookup_default zero_NodeRun nodeRuns (Node_ID node) in
    {| Step_Name := Node_Name node;
       Step_Status := if str_empty (NodeRun_Status entry) then "pending" else NodeRun_Status entry;
       Step_Summary := NodeRun_Summary entry |}) <$> Def_Nodes definition.

Definition workflowStatusFromExecutionTask (status : string) : option string :=
  let status := TrimSpace status in
  if String.eqb status "completed" then Some "completed"
  else if contains ["failed"; "canceled"; "callback_timeout"] status then Some "failed" else None.

Definition syncRunNodeState (run : Run) (definition : dagWorkflowDefinition)
    (nodeRuns : gmap string NodeRun) : Run :=
  set_Run (Run_Status run) (buildStepsFromNodeRuns definition nodeRuns)
    (mapNodeRunsToSlice definition nodeRuns)
    (withNodeRunsMetadata (Run_Metadata run) definition nodeRuns) (Run_UpdatedAt run) run.

(** ** Backward search over edges

    The shape shared by the two recursive searches of the engine. *)

Lemma size_list_to_set_length (l : list string) : size (list_to_set l : gset string) <= length l.
Proof.
  induction l as [|x l IH]; cbn [list_to_set length]; [done|].
  rewrite size_union_alt, size_singleton. apply le_n_S. etrans; [|exact IH]. apply subseteq_size. set_solver.
Qed.

Section search.
Context (ok : dagWorkflowEdge -> bool) (goal : string -> bool) (edges : list dagWorkflowEdge).

Definition visit (recurse : string -> gset string -> bool * gset string) (nodeID : string)
    (st : bool * gset string) (edge : dagWorkflowEdge) : bool * gset string :=
  let '(found, seen) := st in
  if found : bool then (found, seen)
  else if negb (String.eqb (Edge_Target edge) nodeID) || negb (ok edge) then (false, seen)
  else if goal (Edge_Source edge) then (true, seen)
  else recurse (Edge_Source edge) seen.

Fixpoint search (fuel : nat) (nodeID : string) (seen : gset string) : bool * gset string :=
  match fuel with
  | O => (false, seen)
  | S fuel =>
      if bool_decide (nodeID ∈ seen) then (false, seen)
      else fold_left (visit (search fuel) nodeID) edges (false, {[nodeID]} ∪ seen)
  end.

(** A path of admitted edges from a goal to the node. *)
Inductive reaches : string -> Prop :=
| reaches_goal e : e ∈ edges -> ok e = true -> goal (Edge_Source e) = true -> reaches (Edge_Target e)
| reaches_step e : e ∈ edges -> ok e = true -> reaches (Edge_Source e) -> reaches (Edge_Target e).

Definition sources : gset string := list_to_set (Edge_Source <$> edges).

(** Every newly visited node was explored without meeting a goal. *)
Definition explored (seen seen' : gset string) : Prop :=
  forall x e, x ∈ seen' -> x ∉ seen -> e ∈ edges -> Edge_Target e = x -> ok e = true ->
    goal (Edge_Source e) = false /\ Edge_Source e ∈ seen'.

Lemma explored_trans s1 s2 s3 : s2 ⊆ s3 -> explored s1 s2 -> explored s2 s3 -> explored s1 s3.
Proof.
  intros Hsub H12 H23 x e Hx Hn He Ht Hok. destruct (decide (x ∈ s2)) as [Hx2|Hx2].
  - destruct (H12 x e Hx2 Hn He Ht Hok). set_solver.
  - by apply (H23 x e).
Qed.

(** What one call promises. *)
Definition search_post (nodeID : string) (seen : gset string) (r : bool * gset string) : Prop :=
  seen ⊆ snd r /\
  (if fst r then reaches nodeID else nodeID ∈ snd r /\ explored seen (snd r)).

(** The loop over the edges of a node, given the promise for the recursive calls. *)
Lemma visit_fold recurse nodeID seen0 l st :
  (forall e seen, e ∈ edges -> ok e = true -> Edge_Target e = nodeID -> seen0 ⊆ seen ->
     search_post (Edge_Source e) seen (recurse (Edge_Source e) seen)) ->
  (forall e, e ∈ l -> e ∈ edges) ->
  seen0 ⊆ snd st -> (fst st = true -> reaches nodeID) ->
  (fst st = false -> explored seen0 (snd st)) ->
  let r := fold_left (visit recurse nodeID) l st in
  seen0 ⊆ snd r /\ snd st ⊆ snd r /\ (fst r = true -> reaches nodeID) /\
  (fst r = false -> explored seen0 (snd r) /\ fst st = false /\
     forall e, e ∈ l -> Edge_Target e = nodeID -> ok e = true ->
       goal (Edge_Source e) = false /\ Edge_Source e ∈ snd r).
Proof.
  intros Hrec. revert st. induction l as [|e l IH]; intros [found s] Hl Hs Hr Hx; cbn [fst snd] in *.
  { simpl. split_and!; try done. intros Hf. split_and!; [by apply Hx|done|]. intros e He. by apply elem_of_nil in He. }
  cbn [fold_left].
  assert (forall st', s ⊆ snd st' -> (fst st' = true -> reaches nodeID) ->
    (fst st' = false -> explored seen0 (snd st') /\ found = false /\
       (Edge_Target e = nodeID -> ok e = true -> goal (Edge_Source e) = false /\ Edge_Source e ∈ snd st')) ->
    let r := fold_left (visit recurse nodeID) l st' in
    seen0 ⊆ snd r /\ s ⊆ snd r /\ (fst r = true -> reaches nodeID) /\
    (fst r = false -> explored seen0 (snd r) /\ found = false /\
       forall e', e' ∈ e :: l -> Edge_Target e' = nodeID -> ok e' = true ->
         goal (Edge_Source e') = false /\ Edge_Source e' ∈ snd r)) as Hstep.
  { intros st' Hsub Hr' Hx'. destruct (IH st') as (H1 & H2 & H3 & H4);
      [intros; apply Hl; by right|by etrans|done|intros Hf; by apply Hx'|].
    split_and!; [done|by etrans|done|]. intros Hf. destruct (H4 Hf) as (Hexp & Hf' & Hall).
    destruct (Hx' Hf') as (_ & Hfound & Hhead). split_and!; [done|done|].
    intros e' [->|He']%elem_of_cons Ht Hok; [|by apply Hall].
    destruct (Hhead Ht Hok). split; [done|]. by apply H2. }
  assert (forall st', visit recurse nodeID (found, s) e = st' ->
    s ⊆ snd st' /\ (fst st' = true -> reaches nodeID) /\
    (fst st' = false -> explored seen0 (snd st') /\ found = false /\
       (Edge_Target e = nodeID -> ok e = true -> goal (Edge_Source e) = false /\ Edge_Source e ∈ snd st')))
    as Hvisit.
  { intros st'. unfold visit. destruct found; [intros <-; simpl; split_and!; [done|auto|done]|].
    destruct (String.eqb_spec (Edge_Target e) nodeID) as [Ht|Ht]; simpl;
      [|intros <-; simpl; split_and!; [done|done|intros _; split_and!; [auto|done|done]]].
    assert (e ∈ edges) as He by (apply Hl; left).
    destruct (ok e) eqn:Hok; simpl;
      [|intros <-; simpl; split_and!; [done|done|intros _; split_and!; [auto|done|done]]].
    destruct (goal (Edge_Source e)) eqn:Hg.
    { intros <-. simpl. split_and!; try done. intros _. rewrite <-Ht. by apply reaches_goal. }
    destruct (Hrec e s He Hok Ht Hs) as [Hsub Hpost]. intros <-.
    destruct (recurse (Edge_Source e) s) as [f s']; cbn [fst snd] in *. destruct f; split_and!; try done.
    - intros _. rewrite <-Ht. by apply reaches_step.
    - intros _. destruct Hpost as [Hin Hex]. split_and!; try done. apply (explored_trans _ s); auto. }
  destruct (Hvisit _ eq_refl) as (Ha & Hb & Hc). by apply Hstep.
Qed.

Lemma search_correct fuel nodeID seen :
  size ((sources ∪ {[nodeID]}) ∖ seen) < fuel -> search_post nodeID seen (search fuel nodeID seen).
Proof.
  revert nodeID seen. induction fuel as [|fuel IH]; intros n seen Hf; [lia|]. cbn [search].
  case_bool_decide as Hn.
  { split; [done|]. simpl. split; [done|]. intros x e Hx Hx'. done. }
  destruct (visit_fold (search fuel) n ({[n]} ∪ seen) edges (false, {[n]} ∪ seen)) as (H1 & H2 & H3 & H4);
    try done.
  - intros e s He Hok Ht Hs. apply IH.
    assert (Edge_Source e ∈ sources) as Hsrc by (apply elem_of_list_to_set, list_elem_of_fmap; eauto).
    assert (size ((sources ∪ {[Edge_Source e]}) ∖ s) < size ((sources ∪ {[n]}) ∖ seen)); [|lia].
    apply subset_size. split; [set_solver|]. intros Hsub. assert (n ∈ (sources ∪ {[Edge_Source e]}) ∖ s); set_solver.
  - split; [set_solver|]. destruct (fst _) eqn:Hfst; [by apply H3|].
    destruct (H4 eq_refl) as (Hex & _ & Hall). split; [set_solver|].
    intros x e Hx Hx' He Ht Hok. destruct (decide (x = n)) as [->|Hne]; [by apply Hall|].
    apply (Hex x e); auto. set_solver.
Qed.

Lemma search_iff nodeID :
  fst (search (S (S (length edges))) nodeID ∅) = true <-> reaches nodeID.
Proof.
  assert (search_post nodeID ∅ (search (S (S (length edges))) nodeID ∅)) as [_ Hpost].
  { apply search_correct. rewrite difference_empty_L.
    rewrite size_union_alt. assert (size sources <= length edges).
    { unfold sources. etrans; [apply size_list_to_set_length|]. by rewrite length_fmap. }
    assert (size ({[nodeID]} ∖ sources) <= 1); [|lia].
    rewrite <-(size_singleton (C := gset string) nodeID). apply subseteq_size. set_solver. }
  destruct (search _ _ _) as [found seen]; simpl in *. destruct found; [naive_solver|].
  destruct Hpost as [Hn Hex]. split; [done|]. intros Hr. exfalso. revert Hn.
  induction Hr as [e He Hok Hg|e He Hok Hr IH]; intros Hin;
    destruct (Hex _ e Hin ltac:(set_solver) He eq_refl Hok) as [Hg' Hs]; [congruence|auto].
Qed.
End search.

(** The failure-branch search is an instance. *)
Lemma hasFailureBranchPath_search fuel definition nodeID stopped seen :
  hasFailureBranchPath fuel definition nodeID stopped seen =
  search (fun e => dagEdgeAllowsFailureBranch (Edge_Condition e)) (fun s => bool_decide (s ∈ stopped))
    (Def_Edges definition) fuel nodeID seen.
Proof.
  revert nodeID seen. induction fuel as [|fuel IH]; intros nodeID seen; [done|].
  cbn [hasFailureBranchPath search]. case_bool_decide; [done|].
  generalize (false, {[nodeID]} ∪ seen). generalize (Def_Edges definition) at 1 3.
  induction l as [|e l IHl]; intros [found s]; [done|]. cbn [fold_left]. rewrite <-IHl. f_equal.
  unfold visit. destruct found; [done|]. destruct (_ || _); [done|]. by rewrite IH.
Qed.

(** ** Lemmas on readiness *)

Lemma forallb_ext {A} (f g : A -> bool) l : (forall x, f x = g x) -> forallb f l = forallb g l.
Proof. intros Hfg. induction l as [|x l IH]; simpl; [done|]. by rewrite Hfg, IH. Qed.

(** The accumulated conjunction and disjunction of a loop over the edges. *)
Lemma fold_resolved (bad good : dagWorkflowEdge -> bool) l b c :
  fold_left (fun '(resolved, satisfied) e =>
    if bad e then (false, satisfied) else (resolved, satisfied || good e)) l (b, c) =
  (b && forallb (fun e => negb (bad e)) l, c || existsb (fun e => negb (bad e) && good e) l).
Proof.
  revert b c. induction l as [|e l IH]; intros b c; simpl; [by rewrite andb_true_r, orb_false_r|].
  destruct (bad e); simpl; rewrite IH; f_equal; by rewrite ?andb_false_r, ?orb_assoc.
Qed.

Definition batch_mode (definition : dagWorkflowDefinition) : bool :=
  String.eqb (Def_Mode definition) ScopeDeliveryBatch || String.eqb (Def_Mode definition) ScopeCapabilityTask.

(** The meaning of readiness: all predecessors have an outcome, and the edges
    demand it: in release workflows one of them is satisfied, in delivery
    batches each is settled or completed. *)
Definition edge_resolved (definition : dagWorkflowDefinition) (statuses : gmap string string)
    (e : dagWorkflowEdge) : bool :=
  let status := status_of statuses (Edge_Source e) in
  if batch_mode definition then deliveryNodeTerminal status else negb (unresolved status).

Definition edges_demand (definition : dagWorkflowDefinition) (statuses : gmap string string)
    (incoming : list dagWorkflowEdge) : bool :=
  if batch_mode definition
  then forallb (fun e => String.eqb (Edge_Condition e) "settled" ||
         String.eqb (status_of statuses (Edge_Source e)) "completed") incoming
  else is_empty incoming ||
       existsb (fun e => dagEdgeSatisfied definition e (status_of statuses (Edge_Source e))) incoming.

Lemma readiness_spec definition incoming statuses :
  resolveDAGNodeReadiness definition incoming statuses =
  let resolved := forallb (edge_resolved definition statuses) incoming in
  let demand := edges_demand definition statuses incoming in
  (resolved && demand, resolved && negb demand).
Proof.
  unfold resolveDAGNodeReadiness, edges_demand, edge_resolved. fold (batch_mode definition).
  destruct (batch_mode definition).
  - unfold deliveryNodeReadiness.
    rewrite (fold_resolved (fun e => negb (deliveryNodeTerminal (status_of statuses (Edge_Source e))))
      (fun e => negb (String.eqb (Edge_Condition e) "settled") &&
        negb (String.eqb (status_of statuses (Edge_Source e)) "completed")) incoming true false).
    simpl. rewrite (forallb_ext _ (fun e => deliveryNodeTerminal (status_of statuses (Edge_Source e))))
      by (intros; by rewrite negb_involutive).
    destruct (forallb _ incoming) eqn:Hall; simpl; [|done].
    assert (existsb (fun e => negb (negb (deliveryNodeTerminal (status_of statuses (Edge_Source e)))) &&
      (negb (String.eqb (Edge_Condition e) "settled") &&
       negb (String.eqb (status_of statuses (Edge_Source e)) "completed"))) incoming =
      negb (forallb (fun e => String.eqb (Edge_Condition e) "settled" ||
        String.eqb (status_of statuses (Edge_Source e)) "completed") incoming)) as ->.
    { clear -Hall. induction incoming as [|e l IH]; simpl in *; [done|].
      apply andb_true_iff in Hall as [-> Hl]. rewrite IH by done. simpl.
      by rewrite negb_andb, negb_orb. }
    clear Hall. by destruct (forallb _ incoming).
  - destruct incoming as [|e0 l0] eqn:Hi; [done|]. rewrite <-Hi. replace (is_empty incoming) with false by by rewrite Hi.
    rewrite (fold_resolved (fun e => unresolved (status_of statuses (Edge_Source e)))
      (fun e => dagEdgeSatisfied definition e (status_of statuses (Edge_Source e))) incoming true false).
    simpl. destruct (forallb _ incoming) eqn:Hall; simpl; [|done].
    assert (existsb (fun e => negb (unresolved (status_of statuses (Edge_Source e))) &&
      dagEdgeSatisfied definition e (status_of statuses (Edge_Source e))) incoming =
      existsb (fun e => dagEdgeSatisfied definition e (status_of statuses (Edge_Source e))) incoming) as ->.
    { clear -Hall. induction incoming as [|e l IH]; simpl in *; [done|].
      apply andb_true_iff in Hall as [-> Hl]. by rewrite IH. }
    by destruct (existsb _ incoming).
Qed.

(** ** Lemmas on node entries *)

(** Entries of the nodes of a definition, each under its own identifier. *)
Definition wf_entries (definition : dagWorkflowDefinition) (nodeRuns : gmap string NodeRun) : Prop :=
  dom nodeRuns = list_to_set (Node_ID <$> Def_Nodes definition) /\
  forall id entry, nodeRuns !! id = Some entry -> NodeRun_NodeID entry = id.

Lemma dom_initializeNodeRuns definition :
  dom (initializeNodeRuns definition) = list_to_set (Node_ID <$> Def_Nodes definition).
Proof.
  unfold initializeNodeRuns.
  assert (forall (nodes : list dagWorkflowNode) (m : gmap string NodeRun),
    dom (fold_left (fun items node => <[Node_ID node := initial_entry node]> items) nodes m) =
    list_to_set (Node_ID <$> nodes) ∪ dom m) as ->; [|set_solver].
  induction nodes as [|n nodes IH]; intros m; simpl; [set_solver|]. rewrite IH, dom_insert_L. set_solver.
Qed.

Lemma initialize_wf definition : wf_entries definition (initializeNodeRuns definition).
Proof.
  split; [apply dom_initializeNodeRuns|]. unfold initializeNodeRuns.
  assert (forall (nodes : list dagWorkflowNode) (m : gmap string NodeRun),
    (forall id entry, m !! id = Some entry -> NodeRun_NodeID entry = id) ->
    forall id entry, fold_left (fun items node => <[Node_ID node := initial_entry node]> items) nodes m !! id
      = Some entry -> NodeRun_NodeID entry = id) as H.
  { induction nodes as [|n nodes IH]; intros m Hm; simpl; [done|]. apply IH.
    intros id entry [[<- <-]|[_ ?]]%lookup_insert_Some; auto. }
  apply H. intros id entry. by rewrite lookup_empty.
Qed.

(** The restoring loop: the last entry of a known node wins. *)
Lemma restore_fold existing (m : gmap string NodeRun) id :
  (fold_left (fun items item =>
    match items !! NodeRun_NodeID item with
    | None => items
    | Some _ => <[NodeRun_NodeID item := item]> items
    end) existing m) !! id =
  match m !! id with
  | None => None
  | Some entry => Some (default entry (last (filter (fun item => NodeRun_NodeID item = id) existing)))
  end.
Proof.
  revert m. induction existing as [|x l IH]; intros m; simpl; [by destruct (m !! id)|].
  rewrite IH, filter_cons. destruct (m !! NodeRun_NodeID x) as [old|] eqn:Hx.
  - destruct (decide (NodeRun_NodeID x = id)) as [<-|Hne].
    + rewrite lookup_insert_eq, Hx, last_cons. by destruct (last _).
    + by rewrite lookup_insert_ne by done.
  - destruct (decide (NodeRun_NodeID x = id)) as [<-|Hne]; [by rewrite Hx|done].
Qed.

Lemma restore_lookup definition existing id :
  restoreNodeRuns definition existing !! id =
  match initializeNodeRuns definition !! id with
  | None => None
  | Some entry => Some (default entry (last (filter (fun item => NodeRun_NodeID item = id) existing)))
  end.
Proof. apply restore_fold. Qed.

Lemma restore_wf definition existing : wf_entries definition (restoreNodeRuns definition existing).
Proof.
  destruct (initialize_wf definition) as [Hd Hi]. split.
  - rewrite <-Hd. apply set_eq. intros id. rewrite !elem_of_dom, restore_lookup.
    destruct (initializeNodeRuns definition !! id); [|done]. split; eauto.
  - intros id entry. rewrite restore_lookup.
    destruct (initializeNodeRuns definition !! id) as [e|] eqn:He; [|done]. intros [= <-].
    destruct (last _) as [x|] eqn:Hl; simpl; [|by apply Hi].
    apply last_Some_elem_of, list_elem_of_filter in Hl. by destruct Hl.
Qed.

(** ** Properties *)

(** The stop policy: after failures whose policy is [stop], a node that is
    not one of them is stopped exactly when no chain of [failure] or [always]
    edges leads from one of them to the node; the recursive search always
    finishes with that answer. *)
Theorem stop_policy_exact definition nodeID stopped :
  shouldStopDAGNodeAfterFailure definition nodeID stopped = true <->
  stopped <> ∅ /\ (nodeID ∉ stopped) /\
  ~ reaches (fun e => dagEdgeAllowsFailureBranch (Edge_Condition e)) (fun s => bool_decide (s ∈ stopped))
      (Def_Edges definition) nodeID.
Proof.
  unfold shouldStopDAGNodeAfterFailure, search_fuel. rewrite hasFailureBranchPath_search.
  case_bool_decide as He; [naive_solver|]. case_bool_decide as Hn; [naive_solver|].
  rewrite negb_true_iff, <-not_true_iff_false, search_iff. naive_solver.
Qed.

(** Readiness is exact: a node may start iff every predecessor has an
    outcome and its edges are satisfied (one satisfied edge in a release
    workflow, all settled or completed in a delivery batch), and it is skipped
    iff every predecessor has an outcome and they are not; it is never both. *)
Theorem readiness_exact definition nodeID statuses :
  let incoming := incomingEdgesForNode definition nodeID in
  let '(ready, skipped) := resolveDAGNodeReadiness definition incoming statuses in
  (ready = true <-> (forall e, e ∈ incoming -> edge_resolved definition statuses e = true) /\
     edges_demand definition statuses incoming = true) /\
  (skipped = true <-> (forall e, e ∈ incoming -> edge_resolved definition statuses e = true) /\
     edges_demand definition statuses incoming = false) /\
  ready && skipped = false.
Proof.
  intros incoming. rewrite readiness_spec. cbv zeta.
  pose proof (forallb_elem_of (edge_resolved definition statuses) incoming) as Hall.
  destruct (forallb _ incoming), (edges_demand _ _ incoming); simpl; naive_solver.
Qed.

(** Persisting and restoring a run loses nothing: the entries written to
    the run record restore to the same map of entries, so a restarted engine
    resumes from the same node states. *)
Theorem persist_restore_roundtrip definition nodeRuns :
  wf_entries definition nodeRuns ->
  restoreNodeRuns definition (mapNodeRunsToSlice definition nodeRuns) = nodeRuns.
Proof.
  intros [Hdom Hid]. apply map_eq. intros id. rewrite restore_lookup.
  pose proof (dom_initializeNodeRuns definition) as Hinit. rewrite <-Hdom in Hinit.
  destruct (nodeRuns !! id) as [entry|] eqn:He.
  - assert (is_Some (initializeNodeRuns definition !! id)) as [x ->].
    { apply elem_of_dom. rewrite Hinit. by apply elem_of_dom_2 in He. }
    assert (forall y, y ∈ filter (fun item => NodeRun_NodeID item = id) (mapNodeRunsToSlice definition nodeRuns) ->
      y = entry) as Hall.
    { intros y [Hy Hin]%list_elem_of_filter. apply list_elem_of_fmap in Hin as (n & -> & Hn).
      unfold lookup_default in *. destruct (nodeRuns !! Node_ID n) as [e|] eqn:Hne; simpl in *.
      - apply Hid in Hne as Hne'. subst id. rewrite Hne' in He. congruence.
      - exfalso. apply not_elem_of_dom in Hne. apply Hne. rewrite Hdom, elem_of_list_to_set.
        apply list_elem_of_fmap. eauto. }
    destruct (last _) as [y|] eqn:Hl; simpl; [by rewrite (Hall y) by by apply last_Some_elem_of|].
    apply last_None in Hl. exfalso. apply (not_elem_of_nil entry). rewrite <-Hl. apply list_elem_of_filter.
    split; [by apply Hid|].
    assert (id ∈ dom nodeRuns) as Hin by by apply elem_of_dom_2 in He.
    rewrite Hdom, elem_of_list_to_set in Hin. apply list_elem_of_fmap in Hin as (n & -> & Hn).
    apply list_elem_of_fmap. exists n. unfold lookup_default. by rewrite He.
  - apply not_elem_of_dom in He. rewrite <-Hinit in He. apply not_elem_of_dom in He. by rewrite He.
Qed.

Lemma persist_restore_roundtrip_witness :
  let definition := {| Def_SchemaVersion := 2; Def_Mode := "release_dag";
    Def_Nodes := [bare_node "build"; bare_node "deploy"]; Def_Edges := [] |} in
  restoreNodeRuns definition (mapNodeRunsToSlice definition (initializeNodeRuns definition)) =
  initializeNodeRuns definition.
Proof. intros definition. apply (persist_restore_roundtrip definition). apply initialize_wf. Defined.
