(* ===== verification/WorkflowValidation.v ===== *)
(** * Validation of workflow definitions

    [dag_validation.go]: identifiers, edges, input references and artifact
    declarations of a definition.  The resolution of the selectors of a node
    ([resolveDAGNodeSelectors]) is an argument: a value or an error. *)

From S2P Require Import Prelude GoStrings WorkflowModel WorkflowState.

Abbreviation producers := (gmap string (list string)).

Definition dagRegisterProducedRef (producersByRef : producers) (ref producerNodeID : string) : producers :=
  let ref := TrimSpace ref in
  if str_empty ref || str_empty producerNodeID then producersByRef
  else <[ref := lookup_default [] producersByRef ref ++ [producerNodeID]]> producersByRef.

(** A reference and its form qualified by the node. *)
Definition register_both (nodeID : string) (m : producers) (ref : string) : producers :=
  dagRegisterProducedRef (dagRegisterProducedRef m ref nodeID) (nodeID +:+ "." +:+ ref) nodeID.

Definition indexDAGNodeProducers (producersByRef : producers) (node : dagWorkflowNode) : producers :=
  let m := fold_left (fun m output =>
    let output := TrimSpace output in
    if str_empty output then m else register_both (Node_ID node) m output)
    (Node_Outputs node) producersByRef in
  fold_left (fun m artifact =>
    let name := sprint_field artifact "name" in
    let kind := sprint_field artifact "kind" in
    let m := if str_empty name then m else register_both (Node_ID node) m name in
    if str_empty kind then m else register_both (Node_ID node) m kind)
    (Node_ArtifactOutputs node) m.

Fixpoint index_nodes (nodeIDs : gset string) (producersByRef : producers) (nodes : list dagWorkflowNode)
    : result (gset string * producers) :=
  match nodes with
  | [] => Ok (nodeIDs, producersByRef)
  | node :: rest =>
      if blank (Node_ID node) then Err (errorf ErrInvalidArgument "workflow node id is required")
      else if bool_decide (Node_ID node ∈ nodeIDs)
      then Err (errorf ErrInvalidArgument ("duplicate workflow node id " +:+ Node_ID node))
      else index_nodes ({[Node_ID node]} ∪ nodeIDs) (indexDAGNodeProducers producersByRef node) rest
  end.

Definition indexDAGNodes (nodes : list dagWorkflowNode) : result (gset string * producers) :=
  index_nodes ∅ ∅ nodes.

Fixpoint validateDAGEdges (edges : list dagWorkflowEdge) (nodeIDs : gset string) : result unit :=
  match edges with
  | [] => Ok tt
  | edge :: rest =>
      if negb (bool_decide (Edge_Source edge ∈ nodeIDs))
      then Err (errorf ErrInvalidArgument ("edge source " +:+ Edge_Source edge +:+ " not found"))
      else if negb (bool_decide (Edge_Target edge ∈ nodeIDs))
      then Err (errorf ErrInvalidArgument ("edge target " +:+ Edge_Target edge +:+ " not found"))
      else validateDAGEdges rest nodeIDs
  end.

Definition initialDAGInputReferences (appID appKey buildSourceID bindingID : string) : gset string :=
  list_to_set ["source"; "application"; "app"; "applicationId"; "application.id"; "branch"; "ref";
    "refName"; "commit"; "image"; "imageTag"; "environment"; "environmentId"; "environmentKey"; "target";
    "cluster"; "clusterId"; "namespace"; "deployment"; "deploymentName"; "applicationEnvironment";
    "applicationEnvironmentId"] ∪
  (if str_empty appID then ∅ else {[appID]}) ∪
  (if str_empty appKey then ∅ else {[appKey]}) ∪
  (if str_empty buildSourceID then ∅ else {["buildSource"; "buildSourceId"]}) ∪
  (if str_empty bindingID then ∅ else {[bindingID]}).

Definition dagInputReferenceDeclared (inputRef : string) (declared : gset string) : bool :=
  let ref := TrimSpace inputRef in
  if str_empty ref then false else bool_decide (ref ∈ declared).

Definition dagProducedRefProducers (inputRef : string) (producersByRef : producers) : list string :=
  let ref := TrimSpace inputRef in
  if str_empty ref then [] else lookup_default [] producersByRef ref.

(** The search for an upstream node, with the visited nodes threaded through. *)
Fixpoint dagNodeHasUpstreamPath (fuel : nat) (definition : dagWorkflowDefinition)
    (nodeID upstreamNodeID : string) (seen : gset string) : bool * gset string :=
  match fuel with
  | O => (false, seen)
  | S fuel =>
      if String.eqb nodeID upstreamNodeID then (false, seen)
      else if bool_decide (nodeID ∈ seen) then (false, seen)
      else fold_left (fun '(found, seen) edge =>
        if found : bool then (found, seen)
        else if String.eqb (Edge_Source edge) upstreamNodeID then (true, seen)
        else dagNodeHasUpstreamPath fuel definition (Edge_Source edge) upstreamNodeID seen)
        (incomingEdgesForNode definition nodeID) (false, {[nodeID]} ∪ seen)
  end.

Definition dagProducedRefHasUpstreamProducer (definition : dagWorkflowDefinition) (nodeID : string)
    (producerNodes : list string) : bool :=
  existsb (fun producer =>
    fst (dagNodeHasUpstreamPath (search_fuel definition) definition nodeID producer ∅)) producerNodes.

Fixpoint validate_inputs (definition : dagWorkflowDefinition) (node : dagWorkflowNode)
    (availableRefs : gset string) (producersByRef : producers) (inputs : list string) : result unit :=
  match inputs with
  | [] => Ok tt
  | inputRef :: rest =>
      if dagInputReferenceDeclared inputRef availableRefs
      then validate_inputs definition node availableRefs producersByRef rest
      else
      let producerNodes := dagProducedRefProducers inputRef producersByRef in
      if is_empty producerNodes
      then Err (errorf ErrInvalidArgument ("delivery_dag node " +:+ Node_ID node +:+ " input reference " +:+
                  inputRef +:+ " not found"))
      else if negb (dagProducedRefHasUpstreamProducer definition (Node_ID node) producerNodes)
      then Err (errorf ErrInvalidArgument ("delivery_dag node " +:+ Node_ID node +:+ " input reference " +:+
                  inputRef +:+ " must come from an upstream node"))
      else validate_inputs definition node availableRefs producersByRef rest
  end.

Definition validateDAGNodeInputs (definition : dagWorkflowDefinition) (node : dagWorkflowNode)
    (availableRefs : gset string) (producersByRef : producers) : result unit :=
  validate_inputs definition node availableRefs producersByRef (Node_Inputs node).

Definition isAllowedDeliveryArtifactKind (kind : string) : bool :=
  contains ["image"; "test_report"; "scan_report"; "sbom"; "screenshot"; "video"; "junit"; "log"]
    (TrimSpace kind).

Fixpoint validate_artifacts (nodeID : string) (artifacts : list go_map) : result unit :=
  match artifacts with
  | [] => Ok tt
  | artifact :: rest =>
      let name := sprint_field artifact "name" in
      let kind := sprint_field artifact "kind" in
      if str_empty name
      then Err (errorf ErrInvalidArgument
                  ("delivery_dag node " +:+ nodeID +:+ " artifact output requires name"))
      else if negb (isAllowedDeliveryArtifactKind kind)
      then Err (errorf ErrInvalidArgument ("unsupported delivery_dag artifact output kind " +:+ kind))
      else validate_artifacts nodeID rest
  end.

Definition validateDAGNodeArtifactOutputs (node : dagWorkflowNode) : result unit :=
  validate_artifacts (Node_ID node) (Node_ArtifactOutputs node).

Definition normalizeDAGFanOutStrategy (strategy : string) : string :=
  let strategy := ToLower (TrimSpace strategy) in
  if contains ["parallel"; "serial"; "batch"] strategy then strategy else "".

Section validation.
Context (resolveDAGNodeSelectors : dagWorkflowNode -> result go_map).

Fixpoint validate_nodes (definition : dagWorkflowDefinition) (availableRefs : gset string)
    (producersByRef : producers) (nodes : list dagWorkflowNode) : result unit :=
  match nodes with
  | [] => Ok tt
  | node :: rest =>
      let* _ := validateDAGNodeInputs definition node availableRefs producersByRef in
      let* _ := validateDAGNodeArtifactOutputs node in
      if negb (blank (Node_FanOutStrategy node)) &&
         str_empty (normalizeDAGFanOutStrategy (Node_FanOutStrategy node))
      then Err (errorf ErrInvalidArgument ("delivery_dag node " +:+ Node_ID node +:+ " fanOut strategy " +:+
                  Node_FanOutStrategy node +:+ " is not supported"))
      else
      let* _ := resolveDAGNodeSelectors node in
      validate_nodes definition availableRefs producersByRef rest
  end.

Definition validateDAGNodeContracts (definition : dagWorkflowDefinition) (availableRefs : gset string)
    (producersByRef : producers) : result unit :=
  validate_nodes definition availableRefs producersByRef (Def_Nodes definition).

Definition validateDAGExecutionDefinition (definition : dagWorkflowDefinition)
    (appID appKey buildSourceID bindingID : string) : result unit :=
  result_bind (indexDAGNodes (Def_Nodes definition)) (fun '(nodeIDs, producersByRef) =>
    let* _ := validateDAGEdges (Def_Edges definition) nodeIDs in
    validateDAGNodeContracts definition
      (initialDAGInputReferences appID appKey buildSourceID bindingID) producersByRef).
End validation.

(** ** Specification *)

(** There is a path of edges from one node to another. *)
Inductive upstream (definition : dagWorkflowDefinition) : string -> string -> Prop :=
| upstream_edge e : e ∈ Def_Edges definition -> upstream definition (Edge_Source e) (Edge_Target e)
| upstream_trans e x :
    e ∈ Def_Edges definition -> upstream definition x (Edge_Source e) -> upstream definition x (Edge_Target e).

(** The references a node offers. *)
Definition offers (node : dagWorkflowNode) (ref : string) : Prop :=
  exists name, (name ∈ (TrimSpace <$> Node_Outputs node) \/
    exists artifact, artifact ∈ Node_ArtifactOutputs node /\
      (name = sprint_field artifact "name" \/ name = sprint_field artifact "kind")) /\
    name <> "" /\ (ref = TrimSpace name \/ ref = TrimSpace (Node_ID node +:+ "." +:+ name)).

(** ** Lemmas *)

Lemma index_nodes_ok ids m nodes ids' m' :
  index_nodes ids m nodes = Ok (ids', m') ->
  ids' = list_to_set (Node_ID <$> nodes) ∪ ids /\ NoDup (Node_ID <$> nodes) /\
  (forall n, n ∈ nodes -> blank (Node_ID n) = false /\ (Node_ID n ∉ ids)).
Proof.
  revert ids m. induction nodes as [|n nodes IH]; intros ids m; simpl.
  { intros [= <- <-]. split_and!; [set_solver|constructor|set_solver]. }
  destruct (blank (Node_ID n)) eqn:Hb; [done|]. case_bool_decide as Hn; [done|].
  intros (-> & Hnd & Hall)%IH. split_and!; [set_solver| |].
  - constructor; [|done]. intros (x & Hx & Hin)%list_elem_of_fmap. destruct (Hall x Hin) as [_ Hx'].
    apply Hx'. set_solver.
  - intros x [->|Hx]%elem_of_cons; [done|]. destruct (Hall x Hx). set_solver.
Qed.

Lemma validateDAGEdges_ok edges ids :
  validateDAGEdges edges ids = Ok tt <->
  forall e, e ∈ edges -> Edge_Source e ∈ ids /\ Edge_Target e ∈ ids.
Proof.
  induction edges as [|e edges IH]; simpl; [set_solver|].
  case_bool_decide as Hs; simpl; [|set_solver]. case_bool_decide as Ht; simpl; [|set_solver].
  rewrite IH. set_solver.
Qed.

Lemma elem_of_register m ref node r p :
  p ∈ lookup_default [] (dagRegisterProducedRef m ref node) r ->
  p ∈ lookup_default [] m r \/ p = node /\ r = TrimSpace ref /\ r <> "".
Proof.
  unfold dagRegisterProducedRef. destruct (_ || _) eqn:Hg; [by left|].
  apply orb_false_iff in Hg as [Hr%String.eqb_neq _]. unfold lookup_default.
  destruct (decide (r = TrimSpace ref)) as [->|Hne]; [rewrite lookup_insert_eq|by rewrite lookup_insert_ne; auto].
  simpl. rewrite elem_of_app, list_elem_of_singleton. intros [Hp | ->]; auto.
Qed.

Lemma elem_of_register_both node m ref r p :
  p ∈ lookup_default [] (register_both node m ref) r ->
  p ∈ lookup_default [] m r \/ p = node /\ (r = TrimSpace ref \/ r = TrimSpace (node +:+ "." +:+ ref)).
Proof. unfold register_both. intros [[?|?]%elem_of_register|?]%elem_of_register; naive_solver. Qed.

(** A recorded producer is a node that offers the reference. *)
Lemma elem_of_index_producers m node r p :
  p ∈ lookup_default [] (indexDAGNodeProducers m node) r ->
  p ∈ lookup_default [] m r \/ p = Node_ID node /\ offers node r.
Proof.
  unfold indexDAGNodeProducers.
  assert (forall outputs m0, (forall o, o ∈ outputs -> o ∈ Node_Outputs node) ->
    p ∈ lookup_default [] (fold_left (fun m output => let output := TrimSpace output in
      if str_empty output then m else register_both (Node_ID node) m output) outputs m0) r ->
    p ∈ lookup_default [] m0 r \/ p = Node_ID node /\ offers node r) as Hout.
  { induction outputs as [|o l IH]; intros m0 Hl; simpl; [auto|]. intros [Hp|?]%IH; [|auto|set_solver].
    destruct (str_empty (TrimSpace o)) eqn:He; [auto|]. apply String.eqb_neq in He.
    apply elem_of_register_both in Hp as [?|[-> Hr]]; [auto|]. right. split; [done|].
    exists (TrimSpace o). split_and!; [left; apply list_elem_of_fmap; exists o; set_solver|done|done]. }
  assert (forall artifacts m0, (forall o, o ∈ artifacts -> o ∈ Node_ArtifactOutputs node) ->
    p ∈ lookup_default [] (fold_left (fun m artifact =>
      let name := sprint_field artifact "name" in
      let kind := sprint_field artifact "kind" in
      let m := if str_empty name then m else register_both (Node_ID node) m name in
      if str_empty kind then m else register_both (Node_ID node) m kind) artifacts m0) r ->
    p ∈ lookup_default [] m0 r \/ p = Node_ID node /\ offers node r) as Hart.
  { induction artifacts as [|a l IH]; intros m0 Hl; simpl; [auto|]. intros [Hp|?]%IH; [|auto|set_solver].
    assert (a ∈ Node_ArtifactOutputs node) as Ha by (apply Hl; left).
    assert (forall name m1, name <> "" -> (name = sprint_field a "name" \/ name = sprint_field a "kind") ->
      p ∈ lookup_default [] (register_both (Node_ID node) m1 name) r ->
      p ∈ lookup_default [] m1 r \/ p = Node_ID node /\ offers node r) as Hreg.
    { intros name m1 Hne Hname [?|[-> Hr]]%elem_of_register_both; [auto|]. right. split; [done|].
      exists name. split_and!; [right; eauto|done|done]. }
    destruct (str_empty (sprint_field a "kind")) eqn:Hk; [|apply String.eqb_neq in Hk; apply Hreg in Hp as [Hp|?]; auto];
      (destruct (str_empty (sprint_field a "name")) eqn:Hn; [auto|apply String.eqb_neq in Hn; apply Hreg in Hp; auto]). }
  intros [Hp|?]%Hart; [|auto|auto]. by apply Hout in Hp.
Qed.

Lemma index_nodes_producers ids m nodes ids' m' p r :
  index_nodes ids m nodes = Ok (ids', m') -> p ∈ lookup_default [] m' r ->
  p ∈ lookup_default [] m r \/ exists n, n ∈ nodes /\ p = Node_ID n /\ offers n r.
Proof.
  revert ids m. induction nodes as [|n nodes IH]; intros ids m; simpl; [intros [= <- <-]; auto|].
  destruct (blank (Node_ID n)); [done|]. case_bool_decide; [done|].
  intros Hi Hp. destruct (IH _ _ Hi Hp) as [[?|[-> ?]]%elem_of_index_producers|(x & ? & ? & ?)]; auto.
  - right. exists n. set_solver.
  - right. exists x. set_solver.
Qed.

(** The upstream search is an instance of the backward search. *)
Lemma upstream_search fuel definition nodeID up seen :
  nodeID <> up ->
  dagNodeHasUpstreamPath fuel definition nodeID up seen =
  search (fun _ => true) (fun s => String.eqb s up) (Def_Edges definition) fuel nodeID seen.
Proof.
  revert nodeID seen. induction fuel as [|fuel IH]; intros nodeID seen Hne; [done|].
  cbn [dagNodeHasUpstreamPath search]. destruct (String.eqb_spec nodeID up); [done|].
  case_bool_decide; [done|]. unfold incomingEdgesForNode.
  generalize (false, {[nodeID]} ∪ seen). generalize (Def_Edges definition) at 1 3.
  induction l as [|e l IHl]; intros [found s]; [done|]. rewrite filter_cons. cbn [fold_left].
  unfold visit at 2. destruct (String.eqb_spec (Edge_Target e) nodeID) as [Ht|Ht].
  - rewrite decide_True by done. cbn [fold_left negb orb]. rewrite IHl. f_equal.
    destruct found; [done|]. destruct (String.eqb_spec (Edge_Source e) up); [done|]. by apply IH.
  - rewrite decide_False by done. simpl. rewrite IHl. by destruct found.
Qed.

Lemma reaches_upstream definition up n :
  reaches (fun _ => true) (fun s => String.eqb s up) (Def_Edges definition) n <-> upstream definition up n.
Proof.
  split.
  - induction 1 as [e He _ Hg|e He _ _ IH]; [|by apply upstream_trans].
    apply String.eqb_eq in Hg as <-. by apply upstream_edge.
  - induction 1 as [e He|e x He _ IH]; [|by apply reaches_step].
    apply reaches_goal; [done|done|]. apply String.eqb_refl.
Qed.

Lemma hasUpstreamPath_iff definition nodeID up :
  fst (dagNodeHasUpstreamPath (search_fuel definition) definition nodeID up ∅) = true <->
  nodeID <> up /\ upstream definition up nodeID.
Proof.
  destruct (decide (nodeID = up)) as [->|Hne].
  - unfold search_fuel. cbn [dagNodeHasUpstreamPath]. rewrite String.eqb_refl. simpl. naive_solver.
  - rewrite upstream_search by done. unfold search_fuel. rewrite search_iff, reaches_upstream. naive_solver.
Qed.

Lemma validate_inputs_ok definition node refs m inputs :
  validate_inputs definition node refs m inputs = Ok tt ->
  forall ref, ref ∈ inputs ->
    dagInputReferenceDeclared ref refs = true \/
    exists p, p ∈ lookup_default [] m (TrimSpace ref) /\ Node_ID node <> p /\
      upstream definition p (Node_ID node).
Proof.
  induction inputs as [|i inputs IH]; simpl; [set_solver|]. intros Hv ref Hin.
  destruct (dagInputReferenceDeclared i refs) eqn:Hd.
  { apply elem_of_cons in Hin as [->|Hin]; auto. }
  destruct (is_empty _) eqn:He; [done|].
  destruct (dagProducedRefHasUpstreamProducer _ _ _) eqn:Hp; simpl in Hv; [|done].
  apply elem_of_cons in Hin as [->|Hin]; [right|auto].
  apply existsb_elem_of in Hp as (p & Hp & [? ?]%hasUpstreamPath_iff).
  unfold dagProducedRefProducers in Hp. destruct (str_empty (TrimSpace i)); [by apply elem_of_nil in Hp|]. eauto.
Qed.

Lemma validate_nodes_ok resolve definition refs m nodes :
  validate_nodes resolve definition refs m nodes = Ok tt ->
  forall n, n ∈ nodes -> validateDAGNodeInputs definition n refs m = Ok tt.
Proof.
  induction nodes as [|n nodes IH]; simpl; [set_solver|].
  destruct (validateDAGNodeInputs definition n refs m) as [[]|] eqn:Hi; simpl; [|done].
  destruct (validateDAGNodeArtifactOutputs n); simpl; [|done]. case_match; [done|].
  destruct (resolve n); simpl; [|done]. intros Hv x [->|Hx]%elem_of_cons; auto.
Qed.

(** ** Sample definitions *)

Definition node_with (id : string) (inputs outputs : list string) (artifacts : list go_map)
    : dagWorkflowNode :=
  {| Node_TargetID := ""; Node_Stage := ""; Node_ID := id; Node_Name := id; Node_Type := "check";
     Node_ExecutorKind := ""; Node_TargetKind := ""; Node_CapabilityRef := ""; Node_ProviderRef := "";
     Node_TimeoutSeconds := 300; Node_ContinueOnFailure := false; Node_Config := ∅; Node_Inputs := inputs;
     Node_Outputs := outputs; Node_ServiceSelector := ∅; Node_EnvironmentSelector := ∅;
     Node_TargetSelector := ∅; Node_InputMapping := ∅; Node_ArtifactOutputs := artifacts;
     Node_ArtifactKinds := []; Node_RunCondition := ""; Node_FailurePolicy := "";
     Node_FanOutStrategy := ""; Node_FanOutBatchSize := 0; Node_FanOutFailurePolicy := "";
     Node_Observability := ∅ |}.

Definition edge_between (source target : string) : dagWorkflowEdge :=
  {| Edge_ID := source +:+ "-" +:+ target; Edge_Source := source; Edge_Target := target;
     Edge_Condition := "success" |}.

(** Build, then deploy what was built. *)
Definition sample_definition_dag : dagWorkflowDefinition :=
  {| Def_SchemaVersion := 2; Def_Mode := "release_dag";
     Def_Nodes := [node_with "deploy" ["build.bundle"] [] []; node_with "build" ["branch"] ["bundle"] []];
     Def_Edges := [edge_between "build" "deploy"] |}.

(** Two nodes that wait for each other. *)
Definition cyclic_definition : dagWorkflowDefinition :=
  {| Def_SchemaVersion := 2; Def_Mode := "release_dag";
     Def_Nodes := [node_with "a" [] [] []; node_with "b" [] [] []];
     Def_Edges := [edge_between "a" "b"; edge_between "b" "a"] |}.

Definition resolve_nothing (node : dagWorkflowNode) : result go_map := Ok ∅.

(** ** Properties *)

(** A validated definition is well formed: node identifiers are distinct
    and not blank, edges connect known nodes, and every input reference of a
    node is either one of the initial references or offered by another node
    from which a path of edges leads to it. *)
Theorem validated_definition_sound resolve definition appID appKey buildSourceID bindingID :
  validateDAGExecutionDefinition resolve definition appID appKey buildSourceID bindingID = Ok tt ->
  NoDup (Node_ID <$> Def_Nodes definition) /\
  (forall n, n ∈ Def_Nodes definition -> blank (Node_ID n) = false) /\
  (forall e, e ∈ Def_Edges definition ->
     Edge_Source e ∈ Node_ID <$> Def_Nodes definition /\ Edge_Target e ∈ Node_ID <$> Def_Nodes definition) /\
  (forall n ref, n ∈ Def_Nodes definition -> ref ∈ Node_Inputs n ->
     TrimSpace ref ∈ initialDAGInputReferences appID appKey buildSourceID bindingID \/
     exists p, p ∈ Def_Nodes definition /\ Node_ID p <> Node_ID n /\ offers p (TrimSpace ref) /\
       upstream definition (Node_ID p) (Node_ID n)).
Proof.
  unfold validateDAGExecutionDefinition, indexDAGNodes.
  destruct (index_nodes ∅ ∅ (Def_Nodes definition)) as [[ids m]|] eqn:Hi; simpl; [|done].
  destruct (validateDAGEdges (Def_Edges definition) ids) as [[]|] eqn:He; simpl; [|done]. intros Hv.
  destruct (index_nodes_ok _ _ _ _ _ Hi) as (-> & Hnd & Hall). split_and!; [done| | |].
  - intros n Hn. by destruct (Hall n Hn).
  - intros e Hin. rewrite validateDAGEdges_ok in He. destruct (He e Hin) as [Hs Ht]. set_solver.
  - intros n ref Hn Href. pose proof (validate_nodes_ok _ _ _ _ _ Hv n Hn) as Hin.
    destruct (validate_inputs_ok _ _ _ _ _ Hin ref Href) as [Hd|(p & Hp & Hne & Hup)].
    + left. unfold dagInputReferenceDeclared in Hd. destruct (str_empty _); [done|]. by apply bool_decide_eq_true in Hd.
    + right. destruct (index_nodes_producers _ _ _ _ _ _ _ Hi Hp) as [Hemp|(x & ? & -> & ?)].
      * unfold lookup_default in Hemp. rewrite lookup_empty in Hemp. by apply elem_of_nil in Hemp.
      * exists x. eauto.
Qed.

Lemma validated_definition_sound_witness :
  upstream sample_definition_dag "build" "deploy" \/
  "build.bundle" ∈ initialDAGInputReferences "" "" "" "".
Proof.
  destruct (validated_definition_sound resolve_nothing sample_definition_dag "" "" "" "")
    as (_ & _ & _ & Hin); [vm_compute; reflexivity|].
  destruct (Hin (node_with "deploy" ["build.bundle"] [] []) "build.bundle") as [Hi|(p & Hp & Hne & _ & Hup)];
    [left|left|right; exact Hi|].
  left. apply elem_of_cons in Hp as [->|Hp]; [by destruct Hne|].
  apply list_elem_of_singleton in Hp as ->. exact Hup.
Defined.

(** Validation does not enforce two of its requirements: a node parsed
    without an [id] and an artifact output without a [name] are accepted,
    because a missing key prints as ["<nil>"], which is not empty. *)
Theorem missing_keys_accepted :
  exists definition,
    parseDAGWorkflowDefinition
      {[ "nodes" := AList [AMap {[ "type" := AString "check";
           "artifactOutputs" := AList [AMap {[ "kind" := AString "log" ]}] ]}] ]} = Some definition /\
    (exists n, Def_Nodes definition = [n] /\ Node_ID n = "<nil>") /\
    validateDAGExecutionDefinition resolve_nothing definition "" "" "" "" = Ok tt.
Proof. eexists. split; [reflexivity|]. split; [eexists; split; [reflexivity|]|]; vm_compute; reflexivity. Qed.
