(* ===== verification/WorkflowTemplate.v ===== *)
(** * Validation of workflow templates

    [internal/application/catalog/service.go]: the checks a definition passes
    before a template or an application stores it, among them the search for
    cycles.  The delivery recipes of batch templates are parsed elsewhere. *)

From S2P Require Import Prelude GoStrings WorkflowModel WorkflowState.

Definition toSliceAny (value : any) : option (list any) :=
  match value with
  | AList items => Some items
  | AMaps items => Some (AMap <$> items)
  | _ => None
  end.

Definition invalid (text : string) : result unit := Err (errorf ErrInvalidArgument text).

(** A loop of checks, ended by the first that fails. *)
Fixpoint check_each {A} (check : A -> result unit) (items : list A) : result unit :=
  match items with
  | [] => Ok tt
  | item :: rest => let* _ := check item in check_each check rest
  end.

Definition allowed_step_types : list string :=
  ["manual_approval"; "deploy_update_image"; "wait_rollout"; "check_http"; "check_k8s_event"; "smoke_test";
   "notify"; "rollback_to_previous"; "restart_workload"; "scale_workload"; "delete_pod"; "evict_pod";
   "http_callback"; "create_silence"; "build"; "release"; "verify"; "check"].

Definition validateWorkflowTemplateSteps (steps : list any) : result unit :=
  check_each (fun rawStep =>
    match rawStep with
    | AMap step =>
        let stepType := sprint_field step "type" in
        if str_empty stepType then invalid "each step requires a type"
        else if negb (contains allowed_step_types stepType)
        then invalid ("unsupported step type " +:+ stepType) else Ok tt
    | _ => invalid "steps must contain objects"
    end) steps.

(** [fmt.Sprintf("%s", value)] of a dynamic value, which flags a scalar that is
    not a string. *)
Definition sprintf_s (value : any) : string :=
  match value with
  | ANil => "%!s(<nil>)"
  | ABool _ => "%!s(bool=" +:+ Sprint value +:+ ")"
  | AInt _ => "%!s(int=" +:+ Sprint value +:+ ")"
  | AFloat _ _ => "%!s(float64=" +:+ Sprint value +:+ ")"
  | _ => Sprint value
  end.

(** ** Fields of delivery nodes *)

Definition validateDeliveryDAGStringArrays (node : go_map) (keys : list string) : result unit :=
  check_each (fun key =>
    match node !! key with
    | None => Ok tt
    | Some value =>
        match toSliceAny value with
        | None => invalid ("delivery_dag node." +:+ key +:+ " must be an array")
        | Some items =>
            check_each (fun item => if blank (Sprint item)
              then invalid ("delivery_dag node." +:+ key +:+ " cannot contain empty values") else Ok tt) items
        end
    end) keys.

Definition validateDeliveryDAGObjects (node : go_map) : result unit :=
  check_each (fun key =>
    match node !! key with
    | None | Some ANil | Some (AMap _) => Ok tt
    | Some _ => invalid ("delivery_dag node." +:+ key +:+ " must be an object")
    end) ["serviceSelector"; "environmentSelector"; "targetSelector"; "inputMapping"; "observability"].

Definition isAllowedDeliveryDAGArtifactKind (kind : string) : bool :=
  contains ["image"; "test_report"; "scan_report"; "sbom"; "screenshot"; "video"; "junit"; "log"]
    (TrimSpace kind).

Definition validateDeliveryDAGArtifactKinds (node : go_map) : result unit :=
  match node !! "artifactKinds" with
  | None => Ok tt
  | Some value =>
      match toSliceAny value with
      | None => invalid "delivery_dag node.artifactKinds must be an array"
      | Some items =>
          check_each (fun item =>
            let kind := TrimSpace (Sprint item) in
            if str_empty kind then invalid "delivery_dag node.artifactKinds cannot contain empty values"
            else if negb (isAllowedDeliveryDAGArtifactKind kind)
            then invalid ("unsupported delivery_dag artifact kind " +:+ kind) else Ok tt) items
      end
  end.

Definition validateDeliveryDAGArtifactOutputs (node : go_map) : result unit :=
  match node !! "artifactOutputs" with
  | None => Ok tt
  | Some rawOutputs =>
      match toSliceAny rawOutputs with
      | None => invalid "delivery_dag node.artifactOutputs must be an array"
      | Some outputs =>
          check_each (fun rawOutput =>
            match rawOutput with
            | AMap output =>
                if str_empty (sprint_field output "name")
                then invalid "delivery_dag artifact output requires name"
                else if negb (isAllowedDeliveryDAGArtifactKind (sprint_field output "kind"))
                then invalid ("unsupported delivery_dag artifact output kind " +:+ sprintf_s (get output "kind"))
                else Ok tt
            | _ => invalid "delivery_dag node.artifactOutputs must contain objects"
            end) outputs
      end
  end.

Definition validateDeliveryDAGNode (node : go_map) : result unit :=
  let* _ := validateDeliveryDAGStringArrays node ["inputs"; "outputs"] in
  let* _ := validateDeliveryDAGObjects node in
  let* _ := validateDeliveryDAGArtifactKinds node in
  validateDeliveryDAGArtifactOutputs node.

(** ** The search for cycles *)

Abbreviation adjacency_map := (gmap string (list string)).

(** [walk] with the two maps it updates: the nodes on the current path and the
    nodes that were left; the fuel bounds the length of a path. *)
Fixpoint walk (fuel : nat) (adjacency : adjacency_map) (node : string) (st : gset string * gset string)
    : bool * (gset string * gset string) :=
  match fuel with
  | O => (false, st)
  | S fuel =>
      let '(visiting, visited) := st in
      if bool_decide (node ∈ visited) then (false, st)
      else if bool_decide (node ∈ visiting) then (true, st)
      else
      let '(found, (visiting, visited)) :=
        fold_left (fun acc next => if fst acc : bool then acc else walk fuel adjacency next (snd acc))
          (lookup_default [] adjacency node) (false, ({[node]} ∪ visiting, visited)) in
      if found : bool then (true, (visiting, visited))
      else (false, (visiting ∖ {[node]}, {[node]} ∪ visited))
  end.

(** A path repeats no node that has successors. *)
Definition walk_fuel (adjacency : adjacency_map) : nat := S (size (dom adjacency)).

Definition hasCycleInWorkflowGraph `{MapRange} (adjacency : adjacency_map) : bool :=
  fst (fold_left (fun acc node =>
    if fst acc : bool then acc else walk (walk_fuel adjacency) adjacency node (snd acc))
    (range_keys (dom adjacency)) (false, (∅, ∅))).

(** ** Graphs *)

Fixpoint template_nodes (mode : string) (nodeIDs : gset string) (nodes : list any) : result (gset string) :=
  match nodes with
  | [] => Ok nodeIDs
  | AMap node :: rest =>
      let nodeID := sprint_field node "id" in
      if str_empty nodeID then Err (errorf ErrInvalidArgument "each node requires an id")
      else if bool_decide (nodeID ∈ nodeIDs)
      then Err (errorf ErrInvalidArgument ("duplicated node id " +:+ nodeID))
      else
      let stepType := sprint_field node "type" in
      if str_empty stepType then Err (errorf ErrInvalidArgument "each node requires a type")
      else
      let* _ := validateWorkflowTemplateSteps [AMap {[ "type" := AString stepType ]}] in
      let* _ := if String.eqb mode "delivery_dag" then validateDeliveryDAGNode node else Ok tt in
      template_nodes mode ({[nodeID]} ∪ nodeIDs) rest
  | _ :: _ => Err (errorf ErrInvalidArgument "definition.nodes must contain objects")
  end.

Fixpoint template_edges (nodeIDs : gset string) (adjacency : adjacency_map) (edges : list any)
    : result adjacency_map :=
  match edges with
  | [] => Ok adjacency
  | AMap edge :: rest =>
      let source := sprint_field edge "source" in
      let target := sprint_field edge "target" in
      if str_empty source || str_empty target
      then Err (errorf ErrInvalidArgument "each edge requires source and target")
      else if negb (bool_decide (source ∈ nodeIDs))
      then Err (errorf ErrInvalidArgument ("edge source " +:+ source +:+ " not found"))
      else if negb (bool_decide (target ∈ nodeIDs))
      then Err (errorf ErrInvalidArgument ("edge target " +:+ target +:+ " not found"))
      else if String.eqb source target
      then Err (errorf ErrInvalidArgument "self-loop edge is not allowed")
      else template_edges nodeIDs (<[source := lookup_default [] adjacency source ++ [target]]> adjacency) rest
  | _ :: _ => Err (errorf ErrInvalidArgument "definition.edges must contain objects")
  end.

Definition validateWorkflowTemplateGraph `{MapRange} (mode : string) (nodes : list any) (rawEdges : any)
    : result unit :=
  let* nodeIDs := template_nodes mode ∅ nodes in
  let* adjacency := template_edges nodeIDs ∅ (default [] (toSliceAny rawEdges)) in
  if hasCycleInWorkflowGraph adjacency
  then invalid "workflow graph must be a DAG" else Ok tt.

(** A stage of the older format. *)
Definition validate_stage (rawStage : any) : result unit :=
  match rawStage with
  | AMap stage =>
      if str_empty (sprint_field stage "name") then invalid "each stage requires a name"
      else
      match toSliceAny (get stage "steps") with
      | None | Some [] => invalid "each stage requires at least one step"
      | Some steps => validateWorkflowTemplateSteps steps
      end
  | _ => invalid "definition.stages must contain objects"
  end.

Definition validateApplicationWorkflowDefinition `{MapRange} (definition : go_map) : result unit :=
  if bool_decide (dom definition = ∅) then Ok tt
  else
  let mode := sprint_field definition "mode" in
  if negb (str_empty mode) && negb (String.eqb mode "release_dag") && negb (String.eqb mode "delivery_dag")
  then invalid ("unsupported workflow definition mode " +:+ mode)
  else
  match toSliceAny (get definition "nodes") with
  | Some (node :: rest) => validateWorkflowTemplateGraph mode (node :: rest) (get definition "edges")
  | _ =>
  match toSliceAny (get definition "stages") with
  | Some [] => invalid "definition.stages cannot be empty"
  | Some stages =>
      let* _ := check_each validate_stage stages in
      match toSliceAny (get definition "onFailure") with
      | Some (step :: rest) => validateWorkflowTemplateSteps (step :: rest)
      | _ => Ok tt
      end
  | None =>
  match toSliceAny (get definition "steps") with
  | Some (step :: rest) => validateWorkflowTemplateSteps (step :: rest)
  | _ => invalid "definition must contain stages"
  end end end.

(** ** Acyclic graphs *)

Lemma tc_head {A} (R : relation A) x z : tc R x z -> R x z \/ exists y, R x y /\ tc R y z.
Proof. destruct 1; eauto. Qed.

Section cycles.
Context (adjacency : adjacency_map).

Definition succ (x y : string) : Prop := y ∈ lookup_default [] adjacency x.

(** No infinite path starts at the node. *)
Definition safe (x : string) : Prop := Acc (fun y x => succ x y) x.

Lemma safe_acyclic x : safe x -> ~ tc succ x x.
Proof.
  induction 1 as [x _ IH]. intros Hc. destruct (tc_head _ _ _ Hc) as [Hs|(y & Hs & Hyx)]; [by eapply (IH x)|].
  apply (IH y Hs). eapply tc_r; eauto.
Qed.

Definition cyclic : Prop := exists x, tc succ x x.

(** What one call promises, from the nodes on the path and the nodes left. *)
Definition walk_post (node : string) (st : gset string * gset string)
    (r : bool * (gset string * gset string)) : Prop :=
  if fst r then cyclic
  else fst (snd r) = fst st /\ snd st ⊆ snd (snd r) /\ node ∈ snd (snd r) /\
       (forall d, d ∈ snd (snd r) -> safe d).

(** The loop over successors, given the promise for the calls. *)
Lemma walk_fold (recurse : string -> gset string * gset string -> bool * (gset string * gset string)) nexts st :
  (forall next st', next ∈ nexts -> fst st' = fst st -> (forall d, d ∈ snd st' -> safe d) ->
     walk_post next st' (recurse next st')) ->
  (forall d, d ∈ snd st -> safe d) ->
  let r := fold_left (fun acc next => if fst acc : bool then acc else recurse next (snd acc)) nexts (false, st) in
  if fst r then cyclic
  else fst (snd r) = fst st /\ snd st ⊆ snd (snd r) /\ (forall next, next ∈ nexts -> next ∈ snd (snd r)) /\
       (forall d, d ∈ snd (snd r) -> safe d).
Proof.
  revert st. induction nexts as [|next nexts IH]; intros st Hrec Hsafe.
  { simpl. split_and!; try done. intros next Hn. by apply elem_of_nil in Hn. }
  cbn [fold_left fst snd]. assert (next ∈ next :: nexts) as Hin by by left.
  pose proof (Hrec next st Hin eq_refl Hsafe) as Hpost.
  destruct (recurse next st) as [[] st1] eqn:Hr; unfold walk_post in Hpost; cbn [fst snd] in Hpost |- *.
  - assert (forall l, fold_left (fun acc next => if fst acc : bool then acc else recurse next (snd acc)) l (true, st1)
      = (true, st1)) as ->; [|done]. by induction l.
  - destruct Hpost as (Hv & Hsub & Hnode & Hs1).
    specialize (IH st1). cbv zeta in IH |- *.
    assert (forall next' st', next' ∈ nexts -> fst st' = fst st1 -> (forall d, d ∈ snd st' -> safe d) ->
      walk_post next' st' (recurse next' st')) as Hrec'.
    { intros next' st' Hn Hf. apply Hrec; [by right|by rewrite Hf]. }
    specialize (IH Hrec' Hs1).
    destruct (fold_left _ nexts (false, st1)) as [[] st2]; cbn [fst snd] in *; [done|].
    destruct IH as (? & ? & Hall & ?). split_and!; [congruence|set_solver|..|done].
    intros next' [->|?]%elem_of_cons; auto.
Qed.

Lemma walk_correct fuel node st :
  size (dom adjacency ∖ fst st) < fuel ->
  (forall v, v ∈ fst st -> tc succ v node) -> (forall d, d ∈ snd st -> safe d) ->
  walk_post node st (walk fuel adjacency node st).
Proof.
  revert node st. induction fuel as [|fuel IH]; intros node [visiting visited] Hf Hpath Hsafe; [lia|].
  cbn [walk fst snd] in *. case_bool_decide as Hd; [split_and!; cbn; auto; done|].
  case_bool_decide as Hv; [exists node; auto|].
  set (loop := fold_left _ _ _).
  assert (if fst loop then cyclic else fst (snd loop) = {[node]} ∪ visiting /\ visited ⊆ snd (snd loop) /\
    (forall next, next ∈ lookup_default [] adjacency node -> next ∈ snd (snd loop)) /\
    (forall d, d ∈ snd (snd loop) -> safe d)) as Hloop.
  { pose proof (walk_fold (walk fuel adjacency) (lookup_default [] adjacency node)
      ({[node]} ∪ visiting, visited)) as Hl. cbv zeta in Hl. cbn [fst snd] in Hl. fold loop in Hl. apply Hl; [|done].
    intros next st' Hn Hst Hs'. apply IH; [|rewrite Hst; cbn [fst]|done].
    - rewrite Hst. cbn [fst]. assert (node ∈ dom adjacency) as Hdom.
      { apply elem_of_dom. unfold lookup_default in Hn. destruct (adjacency !! node); [done|]. by apply elem_of_nil in Hn. }
      assert (size (dom adjacency ∖ ({[node]} ∪ visiting)) < size (dom adjacency ∖ visiting)); [|lia].
      apply subset_size. split; [set_solver|]. intros Hc. assert (node ∈ dom adjacency ∖ visiting) as Hm by set_solver.
      apply Hc in Hm. set_solver.
    - intros v [->%elem_of_singleton|Hin]%elem_of_union; [by apply tc_once|]. eapply tc_r; eauto. }
  destruct loop as [[] [visiting' visited']]; cbn [fst snd] in *; [done|].
  destruct Hloop as (-> & Hsub & Hall & Hs'). unfold walk_post; cbn [fst snd].
  split_and!; [set_solver|set_solver|set_solver|].
  intros d [->%elem_of_singleton|Hin]%elem_of_union; [|auto].
  constructor. intros y Hy. apply Hs'. by apply Hall.
Qed.

Lemma hasCycle_iff `{MapRange} : hasCycleInWorkflowGraph adjacency = true <-> cyclic.
Proof.
  unfold hasCycleInWorkflowGraph.
  assert (let r := fold_left (fun acc node => if fst acc : bool then acc
      else walk (walk_fuel adjacency) adjacency node (snd acc)) (range_keys (dom adjacency)) (false, (∅, ∅)) in
    if fst r then cyclic else fst (snd r) = ∅ /\ ∅ ⊆ snd (snd r) /\
      (forall next, next ∈ range_keys (dom adjacency) -> next ∈ snd (snd r)) /\
      (forall d, d ∈ snd (snd r) -> safe d)) as Hloop.
  { apply (walk_fold (walk (walk_fuel adjacency) adjacency) (range_keys (dom adjacency)) (∅, ∅)); [|set_solver].
    intros next st' _ Hst Hs'. apply walk_correct; [|rewrite Hst; set_solver|done].
    rewrite Hst. unfold walk_fuel. cbn [fst]. rewrite difference_empty_L. lia. }
  cbv zeta in Hloop. destruct (fold_left _ _ _) as [[] [visiting visited]]; cbn [fst snd] in *; [done|].
  destruct Hloop as (_ & _ & Hall & Hs). split; [done|]. intros [x Hx]. exfalso.
  apply (safe_acyclic x); [|done]. apply Hs, Hall. rewrite range_keys_perm, elem_of_elements, elem_of_dom.
  destruct (tc_head _ _ _ Hx) as [Hy|(y & Hy & _)]; unfold succ, lookup_default in Hy;
    (destruct (adjacency !! x); [done|by apply elem_of_nil in Hy]).
Qed.
End cycles.

(** ** What an accepted graph looks like *)

Definition edge_relation (definition : dagWorkflowDefinition) (x y : string) : Prop :=
  exists e, e ∈ Def_Edges definition /\ Edge_Source e = x /\ Edge_Target e = y.

Lemma result_bind_Ok {A B} (m : result A) (k : A -> result B) b :
  result_bind m k = Ok b -> exists a, m = Ok a /\ k a = Ok b.
Proof. destruct m; simpl; [eauto|done]. Qed.

Lemma steps_single_ok stepType :
  validateWorkflowTemplateSteps [AMap {[ "type" := AString stepType ]}] = Ok tt ->
  TrimSpace stepType ∈ allowed_step_types.
Proof.
  unfold validateWorkflowTemplateSteps. cbn [check_each].
  assert (sprint_field {[ "type" := AString stepType ]} "type" = TrimSpace stepType) as ->.
  { unfold sprint_field, get. by rewrite lookup_singleton_eq. }
  destruct (str_empty _); [done|]. destruct (contains allowed_step_types _) eqn:Hc; [|done].
  by rewrite contains_true in Hc.
Qed.

Lemma template_nodes_ok mode ids nodes ids' :
  template_nodes mode ids nodes = Ok ids' ->
  exists maps : list go_map, nodes = AMap <$> maps /\
    ids' = list_to_set ((fun m => sprint_field m "id") <$> maps) ∪ ids /\
    NoDup ((fun m => sprint_field m "id") <$> maps) /\
    (forall m, m ∈ maps -> (sprint_field m "id" ∉ ids) /\ sprint_field m "type" ∈ allowed_step_types).
Proof.
  revert ids. induction nodes as [|v nodes IH]; intros ids; cbn [template_nodes].
  { intros [= <-]. exists []. split_and!; [done|set_solver|constructor|]. intros m Hm. by apply elem_of_nil in Hm. }
  destruct v as [| | | | | |m| | | | | | |]; try done.
  destruct (str_empty _); [done|]. case_bool_decide as Hid; [done|]. destruct (str_empty _); [done|].
  intros ([] & Hst & ([] & _ & Hr)%result_bind_Ok)%result_bind_Ok.
  apply steps_single_ok in Hst.
  destruct (IH _ Hr) as (maps & -> & -> & Hnd & Hall). exists (m :: maps). split_and!; [done|set_solver|..].
  - rewrite fmap_cons. constructor; [|done]. intros (m' & Heq & Hm')%list_elem_of_fmap.
    destruct (Hall m' Hm') as [Hn _]. rewrite <-Heq in Hn. set_solver.
  - intros m' [->|Hm']%elem_of_cons.
    + split; [done|]. unfold sprint_field in Hst |- *. by rewrite TrimSpace_idem in Hst.
    + destruct (Hall m' Hm') as [Hn ?]. set_solver.
Qed.

Lemma template_edges_ok ids adjacency edges adjacency' :
  template_edges ids adjacency edges = Ok adjacency' ->
  exists maps : list go_map, edges = AMap <$> maps /\
    (forall m, m ∈ maps -> sprint_field m "source" ∈ ids /\ sprint_field m "target" ∈ ids) /\
    forall x y, succ adjacency' x y <-> succ adjacency x y \/
      exists m, m ∈ maps /\ sprint_field m "source" = x /\ sprint_field m "target" = y.
Proof.
  revert adjacency. induction edges as [|v edges IH]; intros adjacency; cbn [template_edges].
  { intros [= <-]. exists []. split_and!; [done|intros m Hm; by apply elem_of_nil in Hm|].
    intros x y. split; [by left|]. intros [|(m & Hm & _)]; [done|]. by apply elem_of_nil in Hm. }
  destruct v as [| | | | | |m| | | | | | |]; try done.
  destruct (str_empty _ || _); [done|]. case_bool_decide as Hs; [|done]. case_bool_decide as Ht; [|done].
  simpl. destruct (String.eqb _ _); [done|]. intros Hr.
  destruct (IH _ Hr) as (maps & -> & Hin & Hsucc). exists (m :: maps). split_and!; [done|..].
  - intros m' [->|?]%elem_of_cons; auto.
  - intros x y. rewrite Hsucc. unfold succ, lookup_default at 1.
    destruct (decide (sprint_field m "source" = x)) as [<-|Hne].
    + rewrite lookup_insert_eq. simpl. rewrite elem_of_app, list_elem_of_singleton. unfold lookup_default.
      setoid_rewrite elem_of_cons. naive_solver.
    + rewrite lookup_insert_ne by done. setoid_rewrite elem_of_cons. naive_solver.
Qed.

Lemma toMapSlice_maps value (maps : list go_map) :
  toSliceAny value = Some (AMap <$> maps) -> toMapSlice value = Some maps.
Proof.
  destruct value; simpl; try done; intros [= Hl].
  - subst. by apply mapM_fmap_Some.
  - f_equal. revert maps Hl. induction l as [|m l IH]; intros [|m' maps]; simpl; intros; simplify_eq; [done|].
    f_equal. by apply IH.
Qed.

Lemma toSliceAny_maps value maps :
  toMapSlice value = Some maps -> maps <> [] -> exists v items, toSliceAny value = Some (v :: items).
Proof.
  destruct value as [| | | | |l| | |m| |l| | |]; simpl; try done.
  - destruct l as [|v l]; [|eauto]. by intros [= <-].
  - intros [= ->]. destruct maps as [|v maps]; [done|]. rewrite fmap_cons. eauto.
Qed.

Lemma toMapSliceOrEmpty_maps value (maps : list go_map) :
  default [] (toSliceAny value) = AMap <$> maps -> toMapSliceOrEmpty value = maps.
Proof.
  intros Hd. unfold toMapSliceOrEmpty. destruct (toSliceAny value) as [items|] eqn:Hs; simpl in Hd.
  - subst. by rewrite (toMapSlice_maps value maps).
  - destruct maps; [|done]. by destruct value.
Qed.

Lemma parse_node_ids (maps : list go_map) :
  Node_ID <$> (parse_node <$> maps) = (fun m => sprint_field m "id") <$> maps.
Proof. by rewrite <-list_fmap_compose. Qed.

(** A definition that is accepted and read by the engine. *)
Record accepted_graph (parsed : dagWorkflowDefinition) : Prop := {
  ag_ids : NoDup (Node_ID <$> Def_Nodes parsed);
  ag_types : forall n, n ∈ Def_Nodes parsed -> Node_Type n ∈ allowed_step_types;
  ag_edges : forall e, e ∈ Def_Edges parsed -> Edge_Source e ∈ Node_ID <$> Def_Nodes parsed /\
    Edge_Target e ∈ Node_ID <$> Def_Nodes parsed;
  ag_acyclic : forall x, ~ tc (edge_relation parsed) x x;
  ag_mode : batch_mode parsed = false
}.

(** The two readers of the mode agree. *)
Lemma accepted_mode (definition : go_map) :
  let read := match get definition "mode" with AString s => TrimSpace s | _ => "" end in
  let mode := if str_empty read then "release_dag" else read in
  let printed := sprint_field definition "mode" in
  negb (str_empty printed) && negb (String.eqb printed "release_dag") && negb (String.eqb printed "delivery_dag")
    = false ->
  mode = "release_dag" \/ mode = "delivery_dag".
Proof.
  cbv zeta. unfold sprint_field. destruct (get definition "mode") as [|t| | | | | | | | | | | |]; try (by left).
  cbn [Sprint]. destruct (str_empty (TrimSpace t)); [by left|]. simpl.
  destruct (String.eqb_spec (TrimSpace t) "release_dag"); [by left|].
  destruct (String.eqb_spec (TrimSpace t) "delivery_dag"); [by right|done].
Qed.

Lemma accepted_definition `{MapRange} definition parsed :
  validateApplicationWorkflowDefinition definition = Ok tt ->
  parseDAGWorkflowDefinition definition = Some parsed -> accepted_graph parsed.
Proof.
  intros Hv Hp. unfold parseDAGWorkflowDefinition in Hp. cbv zeta in Hp.
  destruct (negb _ && negb _ && negb _); [done|].
  destruct (toMapSlice (get definition "nodes")) as [[|m0 maps0]|] eqn:Hn; [done| |done].
  apply (inj Some) in Hp. subst parsed.
  unfold validateApplicationWorkflowDefinition in Hv. cbv zeta in Hv.
  case_bool_decide as Hdom.
  { exfalso. unfold get in Hn. apply dom_empty_iff_L in Hdom. by rewrite Hdom, lookup_empty in Hn. }
  destruct (negb _ && negb _ && negb _) eqn:Hmode; [done|].
  destruct (toSliceAny_maps _ _ Hn) as (v & items & Hs); [done|]. rewrite Hs in Hv.
  unfold validateWorkflowTemplateGraph in Hv.
  apply result_bind_Ok in Hv as (ids & Hids & (adj & Hadj & Hcyc)%result_bind_Ok).
  apply template_nodes_ok in Hids as (maps & Heq & -> & Hnd & Hall).
  rewrite Heq in Hs. apply toMapSlice_maps in Hs. rewrite Hs in Hn. apply (inj Some) in Hn. rewrite <-Hn. clear Heq Hs Hn.
  apply template_edges_ok in Hadj as (emaps & Hedges & Hin & Hsucc). rewrite (toMapSliceOrEmpty_maps _ _ Hedges).
  split; cbn [Def_Nodes Def_Edges]; rewrite ?parse_node_ids; [done|..].
  - intros n (m & -> & Hm)%list_elem_of_fmap. by apply Hall.
  - intros e (m & -> & Hm)%list_elem_of_fmap. specialize (Hin m Hm).
    rewrite union_empty_r_L, !elem_of_list_to_set in Hin. exact Hin.
  - intros x Hx. destruct (hasCycleInWorkflowGraph adj) eqn:Hc; [done|].
    assert (hasCycleInWorkflowGraph adj = true); [|congruence]. apply hasCycle_iff. exists x.
    eapply tc_congruence with (f := fun y => y); [|exact Hx].
    intros y z (e & (m & -> & Hm)%list_elem_of_fmap & <- & <-). apply Hsucc. eauto.
  - unfold batch_mode. cbn [Def_Mode]. by destruct (accepted_mode definition Hmode) as [-> | ->].
Qed.

(** ** Properties *)

(** The search for cycles is exact: it answers true precisely when some node
    reaches itself along the edges, for every order in which the map is ranged
    over. *)
Theorem cycle_search_exact `{MapRange} (adjacency : adjacency_map) :
  hasCycleInWorkflowGraph adjacency = true <->
  exists x, tc (fun x y => y ∈ lookup_default [] adjacency x) x x.
Proof. apply hasCycle_iff. Qed.

(** C36. A definition that is accepted and has nodes is read by the engine as a
    graph with distinct identifiers and known node types, whose edges connect
    its own nodes and contain no cycle. *)
Theorem accepted_template_is_dag `{MapRange} definition parsed :
  validateApplicationWorkflowDefinition definition = Ok tt ->
  parseDAGWorkflowDefinition definition = Some parsed ->
  NoDup (Node_ID <$> Def_Nodes parsed) /\
  (forall n, n ∈ Def_Nodes parsed -> Node_Type n ∈ allowed_step_types) /\
  (forall e, e ∈ Def_Edges parsed -> Edge_Source e ∈ Node_ID <$> Def_Nodes parsed /\
     Edge_Target e ∈ Node_ID <$> Def_Nodes parsed) /\
  forall x, ~ tc (edge_relation parsed) x x.
Proof. intros Hv Hp. by destruct (accepted_definition definition parsed Hv Hp). Qed.

(** Two nodes in sequence. *)
Definition template_definition : go_map :=
  {[ "mode" := AString "release_dag";
     "nodes" := AList [AMap {[ "id" := AString "build"; "type" := AString "build" ]};
                       AMap {[ "id" := AString "deploy"; "type" := AString "release" ]}];
     "edges" := AList [AMap {[ "source" := AString "build"; "target" := AString "deploy" ]}] ]}.

Lemma accepted_template_is_dag_witness :
  exists parsed, parseDAGWorkflowDefinition template_definition = Some parsed /\
    forall x, ~ tc (edge_relation parsed) x x.
Proof.
  eexists. split; [reflexivity|].
  apply (accepted_template_is_dag template_definition); vm_compute; reflexivity.
Defined.
