(* ===== verification/WorkflowWorkers.v ===== *)
(** * The workers of a round

    [dag_executor.go]: the result of a node, the goroutines that execute the
    ready nodes of one round, and the reordering of their results.  The
    execution of one node is an argument here. *)

From S2P Require Import Prelude GoStrings WorkflowModel WorkflowState.

(** ** Results of nodes *)

Record dagExecutionResult := {
  result_nodeID : string;
  result_step : Step;
  result_status : string;
  result_summary : string;
  result_inputs : go_map;
  result_outputs : go_map;
  result_artifacts : go_map;
  result_selectors : go_map;
  result_events : list go_map;
  result_nodeRun : option NodeRun;
  result_err : option error
}.

Definition newDAGExecutionResult (node : dagWorkflowNode) (status summary : string)
    (inputs outputs artifacts selectors : go_map) (events : list go_map) : dagExecutionResult :=
  {| result_nodeID := Node_ID node;
     result_step := {| Step_Name := Node_Name node; Step_Status := status; Step_Summary := summary |};
     result_status := status; result_summary := summary; result_inputs := inputs;
     result_outputs := outputs; result_artifacts := artifacts; result_selectors := selectors;
     result_events := events; result_nodeRun := None; result_err := None |}.

(** [byNodeID], filled in the order in which results arrive. *)
Definition by_node_id (results : list dagExecutionResult) : gmap string dagExecutionResult :=
  fold_left (fun m result => <[result_nodeID result := result]> m) results ∅.

(** The results in the order of the nodes. *)
Definition ordered_results (failed : dagWorkflowNode -> dagExecutionResult) (ready : list dagWorkflowNode)
    (results : list dagExecutionResult) : list dagExecutionResult :=
  let byNodeID := by_node_id results in
  (fun node => default (failed node) (byNodeID !! Node_ID node)) <$> ready.

(** ** The workers of a round

    [executeReady] as the goroutines run it: a feeder hands the ready nodes out
    in their order, each to an idle worker, and stops early when the context is
    canceled; a worker executes the node it holds and sends the result. *)

Definition defaultDAGNodeConcurrency : Z := 4.

Definition worker_count (parallelism : Z) (ready : list dagWorkflowNode) : nat :=
  let parallelism := if (parallelism <=? 0)%Z then defaultDAGNodeConcurrency else parallelism in
  Z.to_nat (Z.min parallelism (Z.of_nat (length ready))).

Record pool := {
  pool_todo : list dagWorkflowNode;
  pool_running : list dagWorkflowNode;
  pool_results : list dagExecutionResult;
  pool_feeding : bool
}.

Definition pool_start (ready : list dagWorkflowNode) : pool :=
  {| pool_todo := ready; pool_running := []; pool_results := []; pool_feeding := true |}.

(** [workers.Wait] returns. *)
Definition pool_done (p : pool) : Prop := pool_feeding p = false /\ pool_running p = [].

Section pool.
Context (workers : nat) (canceled : bool) (exec : dagWorkflowNode -> dagExecutionResult).

Inductive pool_step : pool -> pool -> Prop :=
| hand_out node todo running results :
    length running < workers ->
    pool_step {| pool_todo := node :: todo; pool_running := running; pool_results := results; pool_feeding := true |}
      {| pool_todo := todo; pool_running := running ++ [node]; pool_results := results; pool_feeding := true |}
| feeder_canceled todo running results :
    canceled = true ->
    pool_step {| pool_todo := todo; pool_running := running; pool_results := results; pool_feeding := true |}
      {| pool_todo := todo; pool_running := running; pool_results := results; pool_feeding := false |}
| close_jobs running results :
    pool_step {| pool_todo := []; pool_running := running; pool_results := results; pool_feeding := true |}
      {| pool_todo := []; pool_running := running; pool_results := results; pool_feeding := false |}
| worker_finished node before after todo results feeding :
    pool_step {| pool_todo := todo; pool_running := before ++ node :: after; pool_results := results;
                 pool_feeding := feeding |}
      {| pool_todo := todo; pool_running := before ++ after; pool_results := results ++ [exec node];
         pool_feeding := feeding |}.

(** What holds in every reachable state: a prefix of the nodes was handed out,
    and each of them is running or has its result. *)
Record pool_inv (ready : list dagWorkflowNode) (p : pool) : Prop := {
  pi_prefix : exists handed, ready = handed ++ pool_todo p /\
    pool_results p ++ (exec <$> pool_running p) ≡ₚ exec <$> handed;
  pi_workers : length (pool_running p) <= workers;
  pi_all : canceled = false -> pool_feeding p = false -> pool_todo p = []
}.

Lemma pool_inv_step ready p p' : pool_inv ready p -> pool_step p p' -> pool_inv ready p'.
Proof.
  intros [(handed & Hr & Hp) Hw Ha] Hstep. destruct Hstep; cbn [pool_todo pool_running pool_results pool_feeding] in *.
  - split; cbn [pool_todo pool_running pool_results pool_feeding].
    + exists (handed ++ [node]). rewrite <-app_assoc. split; [done|].
      rewrite !fmap_app, app_assoc, Hp. done.
    + rewrite length_app. simpl. lia.
    + done.
  - split; cbn; [by exists handed|done|congruence].
  - split; cbn; [by exists handed|done|done].
  - split; cbn.
    + exists handed. split; [done|]. rewrite <-Hp, !fmap_app, fmap_cons, <-!app_assoc. simpl.
      apply Permutation_app_head. by rewrite Permutation_middle.
    + rewrite length_app in *. simpl in Hw. lia.
    + done.
Qed.

Lemma pool_inv_reachable ready p : rtc pool_step (pool_start ready) p -> pool_inv ready p.
Proof.
  revert p. refine (rtc_ind_r (pool_inv ready) (pool_start ready) _ _); [|intros; by eapply pool_inv_step].
  split; cbn; [by exists []|lia|done].
Qed.

(** The steps left. *)
Definition pool_measure (p : pool) : nat :=
  2 * length (pool_todo p) + length (pool_running p) + (if pool_feeding p then 1 else 0).

Lemma pool_step_decreases p p' : pool_step p p' -> pool_measure p' < pool_measure p.
Proof. destruct 1; unfold pool_measure; cbn; rewrite ?length_app; simpl; rewrite ?length_app; lia. Qed.

Lemma pool_progress p : 0 < workers -> pool_done p \/ exists p', pool_step p p'.
Proof.
  intros Hw. destruct p as [todo [|n running] results feeding].
  - destruct feeding; [|by left]. right. destruct todo as [|n todo]; eexists; [apply close_jobs|].
    apply hand_out. simpl. lia.
  - right. eexists. apply (worker_finished n [] running).
Qed.
End pool.

(** What [by_node_id] finds is one of the results. *)
Lemma by_node_id_Some results id r :
  by_node_id results !! id = Some r -> r ∈ results /\ result_nodeID r = id.
Proof.
  unfold by_node_id. assert (forall m : gmap string dagExecutionResult,
    fold_left (fun m result => <[result_nodeID result := result]> m) results m !! id = Some r ->
    (r ∈ results /\ result_nodeID r = id) \/ m !! id = Some r) as Hgen.
  { induction results as [|x l IH]; intros m; simpl; [by right|].
    intros [[? ?]|[[<- <-]|[_ ?]]%lookup_insert_Some]%IH; [left|left|by right]; (split; [|done]).
    - by right.
    - by left. }
  intros Hl. destruct (Hgen ∅ Hl) as [?|He]; [done|]. by rewrite lookup_empty in He.
Qed.

(** Results found by node, whatever order they arrived in. *)
Lemma by_node_id_perm results taken (exec : dagWorkflowNode -> dagExecutionResult) node :
  (forall n, result_nodeID (exec n) = Node_ID n) -> NoDup (Node_ID <$> taken) -> results ≡ₚ exec <$> taken ->
  node ∈ taken -> by_node_id results !! Node_ID node = Some (exec node).
Proof.
  intros Hex Hnd Hp Hin. unfold by_node_id.
  assert (NoDup (result_nodeID <$> results)) as Hndr.
  { rewrite Hp. rewrite <-list_fmap_compose. erewrite list_fmap_ext; [exact Hnd|]. intros; apply Hex. }
  assert (exec node ∈ results) as Hr by (rewrite Hp; by apply list_elem_of_fmap_2).
  rewrite <-(Hex node). generalize dependent (exec node). intros r. clear -Hndr.
  generalize (∅ : gmap string dagExecutionResult). induction results as [|x l IH]; intros m Hr; [by apply elem_of_nil in Hr|].
  rewrite fmap_cons in Hndr. apply NoDup_cons in Hndr as [Hx Hndr]. cbn [fold_left].
  apply elem_of_cons in Hr as [->|Hr]; [|by apply IH].
  clear IH Hndr. assert (forall (l : list dagExecutionResult) (m : gmap string dagExecutionResult) id,
    id ∉ result_nodeID <$> l -> fold_left (fun m result => <[result_nodeID result := result]> m) l m !! id = m !! id) as Hne.
  { clear. induction l as [|y l IH]; intros m id Hid; simpl; [done|].
    rewrite fmap_cons, not_elem_of_cons in Hid. destruct Hid. rewrite IH by done. by rewrite lookup_insert_ne. }
  rewrite Hne by done. by rewrite lookup_insert_eq.
Qed.

Lemma by_node_id_None results id : id ∉ result_nodeID <$> results -> by_node_id results !! id = None.
Proof.
  intros Hn. destruct (by_node_id results !! id) as [r|] eqn:Hr; [|done].
  apply by_node_id_Some in Hr as [Hin <-]. destruct Hn. by apply list_elem_of_fmap_2.
Qed.

Lemma ordered_results_prefix failed exec handed rest results :
  (forall n, result_nodeID (exec n) = Node_ID n) -> NoDup (Node_ID <$> handed ++ rest) ->
  results ≡ₚ exec <$> handed ->
  ordered_results failed (handed ++ rest) results = (exec <$> handed) ++ (failed <$> rest).
Proof.
  intros Hex Hnd Hp. rewrite fmap_app in Hnd. apply NoDup_app in Hnd as (Hh & Hdis & _).
  unfold ordered_results. rewrite fmap_app. f_equal; apply list_fmap_ext; intros k n Hn%list_elem_of_lookup_2.
  - by rewrite (by_node_id_perm results handed exec).
  - rewrite by_node_id_None; [done|]. rewrite Hp, <-list_fmap_compose.
    intros (m & Heq & Hm)%list_elem_of_fmap. simpl in Heq. rewrite Hex in Heq.
    apply (Hdis (Node_ID m)); [by apply list_elem_of_fmap_2|]. rewrite <-Heq. by apply list_elem_of_fmap_2.
Qed.


Lemma worker_count_pos parallelism ready : ready <> [] -> 0 < worker_count parallelism ready.
Proof. destruct ready; [done|]. intros _. unfold worker_count, defaultDAGNodeConcurrency. simpl. case_match; lia. Qed.

Lemma pool_finishes workers canceled exec p :
  0 < workers -> exists q, rtc (pool_step workers canceled exec) p q /\ pool_done q.
Proof.
  intros Hw. remember (pool_measure p) as m eqn:Hm. revert p Hm. induction (lt_wf m) as [m _ IH]. intros p ->.
  destruct (pool_progress workers canceled exec p Hw) as [Hd|[p' Hs]]; [by exists p|].
  destruct (IH _ (pool_step_decreases _ _ _ _ _ Hs) p' eq_refl) as (q & Hq & Hd).
  exists q. split; [|done]. by econstructor.
Qed.

Lemma pool_steps_bounded workers canceled exec k p q :
  nsteps (pool_step workers canceled exec) k p q -> k <= pool_measure p.
Proof. induction 1 as [|k x y z Hs _ IH]; [lia|]. apply pool_step_decreases in Hs. lia. Qed.

(** ** A round of two nodes *)

Definition worker_node (id : string) : dagWorkflowNode := bare_node id.

Definition worker_result (node : dagWorkflowNode) : dagExecutionResult :=
  newDAGExecutionResult node "completed" "" ∅ ∅ ∅ ∅ [].

(** ** Properties *)

(** However the workers of a round interleave, the results are those of the
    nodes that were handed out, in the order of the ready nodes, followed by a
    failed result for each of the others; without cancellation every node is
    handed out. *)
Theorem workers_exact parallelism canceled exec failed ready p :
  NoDup (Node_ID <$> ready) -> (forall n, result_nodeID (exec n) = Node_ID n) ->
  rtc (pool_step (worker_count parallelism ready) canceled exec) (pool_start ready) p -> pool_done p ->
  exists handed rest, ready = handed ++ rest /\ (canceled = false -> rest = []) /\
    ordered_results failed ready (pool_results p) = (exec <$> handed) ++ (failed <$> rest).
Proof.
  intros Hnd Hex Hr [Hf Hrun]. apply pool_inv_reachable in Hr as [(handed & Heq & Hp) _ Ha].
  rewrite Hrun, app_nil_r in Hp. exists handed, (pool_todo p). split_and!; [done|auto|].
  rewrite Heq in Hnd |- * at 1. by apply ordered_results_prefix.
Qed.

(** The first node finishes last. *)
Lemma workers_exact_witness :
  exists handed rest, [worker_node "a"; worker_node "b"] = handed ++ rest /\ (false = false -> rest = []) /\
    ordered_results worker_result [worker_node "a"; worker_node "b"]
      [worker_result (worker_node "b"); worker_result (worker_node "a")] =
    (worker_result <$> handed) ++ (worker_result <$> rest).
Proof.
  apply (workers_exact 2 false worker_result worker_result [worker_node "a"; worker_node "b"]
    {| pool_todo := []; pool_running := []; pool_feeding := false;
       pool_results := [worker_result (worker_node "b"); worker_result (worker_node "a")] |}).
  - apply (bool_decide_unpack _). vm_compute. exact I.
  - reflexivity.
  - eapply rtc_l; [apply hand_out; vm_compute; lia|].
    eapply rtc_l; [apply hand_out; vm_compute; lia|].
    eapply rtc_l; [apply close_jobs|].
    eapply rtc_l; [apply (worker_finished _ _ _ (worker_node "b") [worker_node "a"] [])|].
    eapply rtc_l; [apply (worker_finished _ _ _ (worker_node "a") [] [])|]. apply rtc_refl.
  - split; reflexivity.
Defined.

(** The pool is bounded and always ends: in every reachable state at most
    the configured number of workers is busy, no execution takes more than the
    measure's number of steps, and one that ends [workers.Wait] is reachable. *)
Theorem workers_terminate parallelism canceled exec ready p :
  ready <> [] ->
  rtc (pool_step (worker_count parallelism ready) canceled exec) (pool_start ready) p ->
  length (pool_running p) <= worker_count parallelism ready /\
  (forall k q, nsteps (pool_step (worker_count parallelism ready) canceled exec) k p q -> k <= pool_measure p) /\
  (pool_done p \/ exists p', pool_step (worker_count parallelism ready) canceled exec p p') /\
  exists q, rtc (pool_step (worker_count parallelism ready) canceled exec) p q /\ pool_done q.
Proof.
  intros Hne Hr. apply pool_inv_reachable in Hr as [_ Hw _]. pose proof (worker_count_pos parallelism ready Hne).
  split_and!; [done|intros k q; apply pool_steps_bounded|by apply pool_progress|by apply pool_finishes].
Qed.

Lemma workers_terminate_witness :
  exists q, rtc (pool_step (worker_count 0 [worker_node "a"]) true worker_result)
    (pool_start [worker_node "a"]) q /\ pool_done q.
Proof.
  destruct (workers_terminate 0 true worker_result [worker_node "a"] (pool_start [worker_node "a"]))
    as (_ & _ & _ & H); [discriminate|apply rtc_refl|exact H].
Defined.
