(* ===== verification/WorkflowEngine.v ===== *)
(** * The workflow engine

    [dag_run_executor.go] (the loop that drives a run), [evaluateDAGRunCondition]
    of [dag_resolution.go] and [finalizeRunCancellation] of [service.go].

    The interface [EngineEnv] holds what a round takes from outside: the
    formatted time, cancellation, the execution of a node by its handler, the
    answer of the run repository and the redaction of results for the run
    record.  Delivery batches and capability tasks have executors of their own;
    this loop drives the other runs. *)

From Stdlib Require Import Ascii.
From S2P Require Import Prelude GoStrings WorkflowModel WorkflowState WorkflowValidation WorkflowWorkers.

(** ** Run conditions *)

(** The fields of the application, the input and the binding that conditions read. *)
Record RunContext := {
  App_ID : string;
  App_Key : string;
  App_Name : string;
  App_DefaultBranch : string;
  Input_RefType : string;
  Input_RefName : string;
  Input_Namespace : string;
  Input_ClusterID : string;
  Input_DeploymentName : string;
  Input_Variables : go_map;
  BuildPolicy_RefType : string;
  BuildPolicy_RefValue : string;
  Context_EnvironmentKey : string;
  Context_EnvironmentID : string
}.

Fixpoint dagArtifactRuntimeString (value : any) : string :=
  let printed := let text := TrimSpace (Sprint value) in if String.eqb text "<nil>" then "" else text in
  match value with
  | AMap mapped =>
      let direct := firstNonEmpty [workflowMetadataString mapped "ref";
        workflowMetadataString mapped "digest"; workflowMetadataString mapped "path"] in
      if negb (str_empty direct) then direct else
      let nested := map_fold (fun key x acc =>
        if String.eqb key "value" then dagArtifactRuntimeString x else acc) "" mapped in
      if negb (str_empty nested) then nested else printed
  | _ => printed
  end.

Definition dagConditionValue (key : string) (c : RunContext) (artifactState : go_map) : string :=
  let key := TrimSpace key in
  if contains ["branch"; "ref"; "refName"] key
  then firstNonEmpty [Input_RefName c; BuildPolicy_RefValue c; App_DefaultBranch c; "main"]
  else if String.eqb key "refType" then firstNonEmpty [Input_RefType c; BuildPolicy_RefType c]
  else if contains ["applicationId"; "app.id"; "application.id"] key then App_ID c
  else if contains ["application"; "app"; "app.key"; "application.key"] key
  then firstNonEmpty [App_Key c; App_Name c; App_ID c]
  else if contains ["environment"; "environmentKey"] key then Context_EnvironmentKey c
  else if String.eqb key "environmentId" then Context_EnvironmentID c
  else if contains ["image"; "artifact.image"] key
  then dagArtifactRuntimeString (get artifactState "image")
  else if String.eqb key "namespace" then Input_Namespace c
  else if contains ["cluster"; "clusterId"] key then Input_ClusterID c
  else if contains ["deployment"; "deploymentName"] key then Input_DeploymentName c
  else if HasPrefix key "variables."
  then workflowMetadataString (Input_Variables c) (TrimPrefix key "variables.")
  else match artifactState !! key with
       | Some value => dagArtifactRuntimeString value
       | None => workflowMetadataString (Input_Variables c) key
       end.

Definition trimDAGConditionLiteral (value : string) : string :=
  Trim (TrimSpace value) ["034"; "'"]%char.

(** Matched and, when not, the reason. *)
Definition evaluateDAGRunCondition (condition : string) (c : RunContext) (artifactState : go_map)
    : bool * string :=
  let expr := TrimSpace condition in
  if str_empty expr || EqualFold expr "always" || EqualFold expr "true" then (true, "")
  else if EqualFold expr "never" || EqualFold expr "false"
  then (false, "runCondition " +:+ quoted condition +:+ " is false")
  else
  let compare lhs rhs (equal : bool) :=
    let lhs := TrimSpace lhs in
    let rhs := trimDAGConditionLiteral rhs in
    let actual := dagConditionValue lhs c artifactState in
    if Bool.eqb (String.eqb actual rhs) equal then (true, "")
    else (false, "runCondition " +:+ quoted condition +:+ " not met: " +:+ lhs +:+ " is " +:+ quoted actual) in
  match Cut expr "==" with
  | Some (lhs, rhs) => compare lhs rhs true
  | None =>
  match Cut expr "!=" with
  | Some (lhs, rhs) => compare lhs rhs false
  | None =>
      let actual := dagConditionValue expr c artifactState in
      if str_empty actual || EqualFold actual "false" || String.eqb actual "0"
      then (false, "runCondition " +:+ quoted condition +:+ " not met")
      else (true, "")
  end end.

(** ** The outside of a round *)

Class EngineEnv := {
  clock : nat -> string;
  ctx_err : nat -> option string;
  dispatch : nat -> dagWorkflowNode -> Run -> go_map -> dagExecutionResult;
  handed_out : nat -> nat;
  arrival : nat -> list dagExecutionResult -> list dagExecutionResult;
  repo_Update : Run -> option Run;
  metadataDAGExecutionResult : dagExecutionResult -> go_map;
  metadataDAGArtifactState : go_map -> go_map;
  dispatch_node : forall i node run artifacts, result_nodeID (dispatch i node run artifacts) = Node_ID node;
  dispatch_status : forall i node run artifacts, result_status (dispatch i node run artifacts) <> "";
  arrival_perm : forall i results, arrival i results ≡ₚ results
}.

(** ** The state of a run *)

Record dagRunState := {
  st_run : Run;
  st_nodeRuns : gmap string NodeRun;
  st_statuses : gmap string string;
  st_artifactState : go_map;
  st_stopFailureSources : gset string
}.

Definition set_st_run (run : Run) (s : dagRunState) : dagRunState :=
  {| st_run := run; st_nodeRuns := st_nodeRuns s; st_statuses := st_statuses s;
     st_artifactState := st_artifactState s; st_stopFailureSources := st_stopFailureSources s |}.

(** A node entry and the status it is listed under. *)
Definition set_st_node (nodeID : string) (entry : NodeRun) (status : option string) (s : dagRunState)
    : dagRunState :=
  {| st_run := st_run s; st_nodeRuns := <[nodeID := entry]> (st_nodeRuns s);
     st_statuses := match status with Some x => <[nodeID := x]> (st_statuses s) | None => st_statuses s end;
     st_artifactState := st_artifactState s; st_stopFailureSources := st_stopFailureSources s |}.

Definition entry_of (s : dagRunState) (nodeID : string) : NodeRun :=
  lookup_default zero_NodeRun (st_nodeRuns s) nodeID.

Definition restoredDAGArtifactState (metadata : go_map) : go_map := metadataMap (get metadata "artifacts").

(** How the loop ends. *)
Inductive outcome_kind := Drained | Blocked | Paused | Canceled.

#[export] Instance outcome_kind_eq_dec : EqDecision outcome_kind.
Proof. solve_decision. Defined.

(** [updateRun]: the answer of the repository, or the run itself when it fails. *)
Definition updateRun `{EngineEnv} (run : Run) : Run := default run (repo_Update run).

Section engine.
Context `{EngineEnv} (context : RunContext) (definition : dagWorkflowDefinition).

Definition newDAGRunState (run : Run) : dagRunState :=
  let nodeRuns := restoreNodeRuns definition (Run_NodeRuns run) in
  {| st_run := run; st_nodeRuns := nodeRuns; st_statuses := collectNodeStatuses nodeRuns;
     st_artifactState := restoredDAGArtifactState (Run_Metadata run);
     st_stopFailureSources := dagStopFailureSourcesFromNodeRuns definition nodeRuns |}.

Definition persist (now : string) (s : dagRunState) : dagRunState :=
  let run := st_run s in
  let run := set_Run (Run_Status run) (Run_Steps run) (Run_NodeRuns run) (Run_Metadata run) now run in
  set_st_run (updateRun (syncRunNodeState run definition (st_nodeRuns s))) s.

Definition start (now : string) (s : dagRunState) : dagRunState :=
  let run := ensureDAGExecutionMetadata (set_Run_Status "running" (st_run s)) in
  let run := appendDAGRunEvent now run
    {[ "type" := AString "workflow_started"; "status" := AString "running";
       "mode" := AString (Def_Mode definition) ]} in
  persist now (set_st_run run s).

Definition skipNode (now : string) (node : dagWorkflowNode) (summary : string) (metadata : go_map)
    (s : dagRunState) : dagRunState :=
  let entry := entry_of s (Node_ID node) in
  let entry := set_NodeRun_progress "skipped" summary (NodeRun_StartedAt entry) now entry in
  let s := set_st_node (Node_ID node) entry (Some "skipped") s in
  set_st_run (appendDAGNodeEvent now (st_run s) (Node_ID node) "node_skipped" "skipped" summary metadata) s.

Definition skipRunCondition (now : string) (node : dagWorkflowNode) (reason : string) (s : dagRunState)
    : dagRunState :=
  let s := skipNode now node reason {[ "reason" := AString "run_condition";
    "runCondition" := AString (Node_RunCondition node) ]} s in
  set_st_run (recordDAGNodeOutputs (st_run s) (Node_ID node)
    {[ "runCondition" := AMap {[ "expression" := AString (Node_RunCondition node);
         "matched" := ABool false; "reason" := AString reason ]} ]}) s.

(** The body of the loop of [collectReadyNodes]. *)
Definition collect_node (now : string) (acc : dagRunState * list dagWorkflowNode * bool)
    (node : dagWorkflowNode) : dagRunState * list dagWorkflowNode * bool :=
  let '(s, ready, progressed) := acc in
  if negb (str_empty (status_of (st_statuses s) (Node_ID node))) then acc
  else
  let '(isReady, skipped) := resolveDAGNodeReadiness definition
    (incomingEdgesForNode definition (Node_ID node)) (st_statuses s) in
  if skipped : bool
  then (skipNode now node "conditions not met" {[ "reason" := AString "dependency_condition" ]} s, ready, true)
  else if negb isReady then acc
  else if negb (String.eqb (Def_Mode definition) ScopeDeliveryBatch) &&
          shouldStopDAGNodeAfterFailure definition (Node_ID node) (st_stopFailureSources s)
  then (skipNode now node "stopped after failure policy" {[ "reason" := AString "failure_policy_stop" ]} s,
        ready, true)
  else
  let '(matched, reason) := evaluateDAGRunCondition (Node_RunCondition node) context (st_artifactState s) in
  if negb matched then (skipRunCondition now node reason s, ready, true)
  else (s, ready ++ [node], progressed).

Definition collectReadyNodes (now : string) (s : dagRunState)
    : dagRunState * list dagWorkflowNode * bool :=
  fold_left (collect_node now) (Def_Nodes definition) (s, [], false).

Definition markNodesRunning (now : string) (nodes : list dagWorkflowNode) (s : dagRunState) : dagRunState :=
  fold_left (fun s node =>
    let entry := entry_of s (Node_ID node) in
    let startedAt := if str_empty (NodeRun_StartedAt entry) then now else NodeRun_StartedAt entry in
    let entry := set_NodeRun_progress "running" (NodeRun_Summary entry) startedAt
      (NodeRun_FinishedAt entry) entry in
    let s := set_st_node (Node_ID node) entry None s in
    set_st_run (appendDAGNodeEvent now (st_run s) (Node_ID node) "node_started" "running" "" ∅) s) nodes s.

Definition appendResultEvents (now : string) (result : dagExecutionResult) (s : dagRunState) : dagRunState :=
  fold_left (fun s event =>
    set_st_run (appendDAGNodeEvent now (st_run s) (result_nodeID result) (mapString event "type")
      (result_status result) (result_summary result) event) s) (result_events result) s.

Definition mergeArtifacts (result : dagExecutionResult) (s : dagRunState) : dagRunState :=
  let artifactState := result_artifacts result ∪ (result_outputs result ∪ st_artifactState s) in
  let s := {| st_run := st_run s; st_nodeRuns := st_nodeRuns s; st_statuses := st_statuses s;
              st_artifactState := artifactState; st_stopFailureSources := st_stopFailureSources s |} in
  if bool_decide (dom (result_outputs result) = ∅) && bool_decide (dom (result_artifacts result) = ∅) then s
  else set_st_run (set_Run_Metadata
         (<["artifacts" := AMap (metadataDAGArtifactState artifactState)]> (Run_Metadata (st_run s)))
         (st_run s)) s.

Definition recordFailure (now : string) (result : dagExecutionResult) (s : dagRunState) : dagRunState :=
  let nodeID := result_nodeID result in
  let policy := effectiveDAGFailurePolicy (nodeByID definition nodeID) in
  let s := if String.eqb policy "stop"
           then {| st_run := st_run s; st_nodeRuns := st_nodeRuns s; st_statuses := st_statuses s;
                   st_artifactState := st_artifactState s;
                   st_stopFailureSources := {[nodeID]} ∪ st_stopFailureSources s |}
           else s in
  set_st_run (recordDAGFailurePolicy now (st_run s) nodeID policy (result_summary result)) s.

Definition apply_result (now : string) (s : dagRunState) (result : dagExecutionResult) : dagRunState :=
  let nodeID := result_nodeID result in
  let entry := default (entry_of s nodeID) (result_nodeRun result) in
  let finishedAt :=
    if negb (String.eqb (Def_Mode definition) ScopeDeliveryBatch) || deliveryNodeTerminal (result_status result)
    then now else "" in
  let entry := set_NodeRun_progress (result_status result) (result_summary result)
    (NodeRun_StartedAt entry) finishedAt entry in
  let s := set_st_node nodeID entry (Some (result_status result)) s in
  let s := set_st_run (recordDAGNodeOutputs (st_run s) nodeID (metadataDAGExecutionResult result)) s in
  let s := mergeArtifacts result (appendResultEvents now result s) in
  if String.eqb (result_status result) "failed" then recordFailure now result s else s.

Definition applyResults (now : string) (results : list dagExecutionResult) (s : dagRunState) : dagRunState :=
  fold_left (apply_result now) results s.

(** The result of a node that was never handed to a worker. *)
Definition canceled_result (i : nat) (node : dagWorkflowNode) : dagExecutionResult :=
  let summary := default "workflow execution canceled" (ctx_err (S i)) in
  newDAGExecutionResult node "failed" summary ∅ ∅ ∅ ∅
    [{[ "type" := AString "node_finished"; "status" := AString "failed"; "summary" := AString summary ]}].

(** The workers take the first [handed_out] ready nodes (all of them unless the
    context is canceled) and their results arrive in some order. *)
Definition executeReady (i : nat) (ready : list dagWorkflowNode) (run : Run) (artifacts : go_map)
    : list dagExecutionResult :=
  let results := arrival i ((fun node => dispatch i node run artifacts) <$> take (handed_out i) ready) in
  ordered_results (canceled_result i) ready results.

Definition finalizeRunCancellation (now reason : string) (s : dagRunState) : dagRunState :=
  let s := fold_left (fun s node =>
    let entry := entry_of s (Node_ID node) in
    let status := NodeRun_Status entry in
    if contains ["completed"; "failed"; "skipped"] status
    then {| st_run := st_run s; st_nodeRuns := st_nodeRuns s;
            st_statuses := <[Node_ID node := status]> (st_statuses s);
            st_artifactState := st_artifactState s; st_stopFailureSources := st_stopFailureSources s |}
    else
      let status' := if String.eqb status "running" then "failed" else "skipped" in
      set_st_node (Node_ID node)
        (set_NodeRun_progress status' reason (NodeRun_StartedAt entry) now entry) (Some status') s)
    (Def_Nodes definition) s in
  let run := set_Run_Status "failed" (st_run s) in
  persist now (set_st_run run s).

(** ** The loop *)

(** One round: how it ended the run, if it did, and the nodes it executed. *)
Definition round (i : nat) (s : dagRunState)
    : option outcome_kind * dagRunState * list dagWorkflowNode :=
  let now := clock i in
  match ctx_err i with
  | Some reason => (Some Canceled, finalizeRunCancellation now reason s, [])
  | None =>
      let '(s, ready, progressed) := collectReadyNodes now s in
      let s := if progressed : bool then persist now s else s in
      if is_empty ready then
        if hasWaitingApproval (st_nodeRuns s)
        then (Some Paused, persist now (set_st_run (set_Run_Status workflowStatusWaitingApproval (st_run s)) s), [])
        else if hasWaitingExecution (st_nodeRuns s)
        then (Some Paused, persist now (set_st_run (set_Run_Status workflowStatusWaitingExecution (st_run s)) s), [])
        else if progressed then (None, s, []) else (Some Blocked, s, [])
      else
        let s := persist now (markNodesRunning now ready s) in
        let results := executeReady i ready (st_run s) (st_artifactState s) in
        (None, persist now (applyResults now results s), ready)
  end.

(** The loop with the nodes executed in each round; [None]: out of fuel. *)
Fixpoint run_loop (fuel i : nat) (s : dagRunState)
    : option (outcome_kind * dagRunState * list (list dagWorkflowNode)) :=
  if negb (size (st_statuses s) <? length (Def_Nodes definition)) then Some (Drained, s, [])
  else
  match fuel with
  | O => None
  | S fuel =>
      match round i s with
      | (Some outcome, s', batch) => Some (outcome, s', [batch])
      | (None, s', batch) =>
          match run_loop fuel (S i) s' with
          | Some (outcome, s'', batches) => Some (outcome, s'', batch :: batches)
          | None => None
          end
      end
  end.

(** [finalStatus]: the status of the run, with the nodes it marks skipped. *)
Fixpoint final_status (now : string) (s : dagRunState) (nodes : list dagWorkflowNode) : string * dagRunState :=
  match nodes with
  | [] => ("completed", s)
  | node :: rest =>
      let status := status_of (st_statuses s) (Node_ID node) in
      if String.eqb status workflowStatusWaitingApproval || String.eqb status workflowStatusWaitingExecution
      then (status, s)
      else if String.eqb status "failed" && dagFailureCountsAsWorkflowFailure node then ("failed", s)
      else if str_empty status then
        let entry := entry_of s (Node_ID node) in
        let entry := set_NodeRun_progress "skipped" "unresolved DAG dependency"
          (NodeRun_StartedAt entry) now entry in
        final_status now (set_st_node (Node_ID node) entry (Some "skipped") s) rest
      else final_status now s rest
  end.

Definition finish (now : string) (s : dagRunState) : dagRunState :=
  let '(status, s) := final_status now s (Def_Nodes definition) in
  persist now (set_st_run (set_Run_Status status (st_run s)) s).

(** The number of rounds never exceeds the number of nodes by more than one. *)
Definition loop_fuel : nat := S (length (Def_Nodes definition)).

Definition run_dag (run : Run) : option (outcome_kind * dagRunState * list (list dagWorkflowNode)) :=
  match run_loop loop_fuel 0 (start (clock 0) (newDAGRunState run)) with
  | Some (Drained, s, batches) => Some (Drained, finish (clock (length batches)) s, batches)
  | Some (Blocked, s, batches) => Some (Blocked, finish (clock (length batches)) s, batches)
  | r => r
  end.
End engine.

(** ** Lemmas: what changes the statuses *)

Definition all_set (st : gmap string string) : Prop := forall id x, st !! id = Some x -> x <> "".

Lemma status_of_empty st id : all_set st -> status_of st id = "" <-> st !! id = None.
Proof.
  intros Hs. unfold status_of, lookup_default. destruct (st !! id) as [x|] eqn:Hx; simpl; [|done].
  split; [|done]. intros ->. by apply Hs in Hx.
Qed.

Lemma status_of_subseteq st st' id : st ⊆ st' -> status_of st id <> "" -> status_of st' id = status_of st id.
Proof.
  intros Hsub. unfold status_of, lookup_default. destruct (st !! id) as [x|] eqn:Hx; simpl; [|done].
  intros _. by rewrite (lookup_weaken _ _ _ _ Hx Hsub).
Qed.

Lemma forallb_ext_in {A} (f g : A -> bool) l : (forall x, x ∈ l -> f x = g x) -> forallb f l = forallb g l.
Proof.
  induction l as [|x l IH]; intros Hfg; simpl; [done|]. rewrite Hfg by by left.
  f_equal. apply IH. intros; apply Hfg; by right.
Qed.

Lemma existsb_ext_in {A} (f g : A -> bool) l : (forall x, x ∈ l -> f x = g x) -> existsb f l = existsb g l.
Proof.
  induction l as [|x l IH]; intros Hfg; simpl; [done|]. rewrite Hfg by by left.
  f_equal. apply IH. intros; apply Hfg; by right.
Qed.

(** Readiness looks at the sources of the edges only. *)
Lemma readiness_ext definition incoming st st' :
  (forall e, e ∈ incoming -> status_of st (Edge_Source e) = status_of st' (Edge_Source e)) ->
  resolveDAGNodeReadiness definition incoming st = resolveDAGNodeReadiness definition incoming st'.
Proof.
  intros He. rewrite !readiness_spec. cbv zeta.
  rewrite (forallb_ext_in (edge_resolved definition st) (edge_resolved definition st') incoming)
    by (intros e Hin; unfold edge_resolved; by rewrite He).
  replace (edges_demand definition st incoming) with (edges_demand definition st' incoming); [done|].
  unfold edges_demand. case_match.
  - apply forallb_ext_in. intros e Hin. by rewrite He.
  - f_equal. apply existsb_ext_in. intros e Hin. by rewrite He.
Qed.

Abbreviation ready_in definition st node :=
  (resolveDAGNodeReadiness definition (incomingEdgesForNode definition (Node_ID node)) st = (true, false)).

Lemma ready_sources definition st incoming e :
  resolveDAGNodeReadiness definition incoming st = (true, false) -> e ∈ incoming ->
  status_of st (Edge_Source e) <> "".
Proof.
  rewrite readiness_spec. cbv zeta. intros [= [Hr _]%andb_true_iff _] Hin He.
  rewrite forallb_elem_of in Hr. apply Hr in Hin. unfold edge_resolved in Hin. rewrite He in Hin.
  by destruct (batch_mode definition).
Qed.

(** A ready node stays ready as statuses are added. *)
Lemma readiness_mono definition incoming st st' :
  st ⊆ st' -> resolveDAGNodeReadiness definition incoming st = (true, false) ->
  resolveDAGNodeReadiness definition incoming st' = (true, false).
Proof.
  intros Hsub Hr. rewrite <-Hr. apply readiness_ext. intros e Hin.
  apply status_of_subseteq; [done|]. by eapply ready_sources.
Qed.

Section engine_lemmas.
Context `{EngineEnv} (context : RunContext) (definition : dagWorkflowDefinition).

Lemma appendResultEvents_statuses now r s :
  st_statuses (appendResultEvents now r s) = st_statuses s /\
  st_nodeRuns (appendResultEvents now r s) = st_nodeRuns s /\
  st_stopFailureSources (appendResultEvents now r s) = st_stopFailureSources s.
Proof.
  unfold appendResultEvents. revert s. induction (result_events r) as [|e l IH]; intros s; simpl; [done|].
  by rewrite !(proj1 (IH _)), !(proj1 (proj2 (IH _))), !(proj2 (proj2 (IH _))).
Qed.

Lemma mergeArtifacts_statuses r s : st_statuses (mergeArtifacts r s) = st_statuses s.
Proof. unfold mergeArtifacts. by case_match. Qed.

Lemma apply_result_statuses now s r :
  st_statuses (apply_result definition now s r) = <[result_nodeID r := result_status r]> (st_statuses s).
Proof.
  unfold apply_result, recordFailure.
  repeat case_match; simpl; rewrite mergeArtifacts_statuses, (proj1 (appendResultEvents_statuses _ _ _)); done.
Qed.

Lemma applyResults_statuses now results s :
  st_statuses (applyResults definition now results s) =
  fold_left (fun st r => <[result_nodeID r := result_status r]> st) results (st_statuses s).
Proof.
  unfold applyResults. revert s. induction results as [|r l IH]; intros s; simpl; [done|].
  by rewrite IH, apply_result_statuses.
Qed.

Lemma markNodesRunning_statuses now nodes s : st_statuses (markNodesRunning now nodes s) = st_statuses s.
Proof. unfold markNodesRunning. revert s. induction nodes as [|n l IH]; intros s; simpl; [done|]. by rewrite IH. Qed.

(** The statuses written by a list of results. *)
Definition written (results : list dagExecutionResult) (st : gmap string string) : gmap string string :=
  fold_left (fun st r => <[result_nodeID r := result_status r]> st) results st.

Lemma written_ne results st id :
  id ∉ result_nodeID <$> results -> written results st !! id = st !! id.
Proof.
  unfold written. revert st. induction results as [|r l IH]; intros st Hn; simpl; [done|].
  rewrite fmap_cons, not_elem_of_cons in Hn. destruct Hn as [Hne Hn].
  rewrite IH by done. by rewrite lookup_insert_ne.
Qed.

Lemma dom_written results st :
  dom (written results st) = list_to_set (result_nodeID <$> results) ∪ dom st.
Proof.
  unfold written. revert st. induction results as [|r l IH]; intros st; simpl; [by rewrite union_empty_l_L|].
  rewrite IH, dom_insert_L. set_solver.
Qed.

Lemma written_set results st :
  (forall r, r ∈ results -> result_status r <> "") -> all_set st -> all_set (written results st).
Proof.
  unfold written. revert st. induction results as [|r l IH]; intros st Hr Hs; simpl; [done|].
  apply IH; [intros; apply Hr; by right|].
  intros id x [[<- <-]|[_ ?]]%lookup_insert_Some; [apply Hr; by left|eauto].
Qed.

(** Every result of a round is about its node and has a status. *)
Lemma executeReady_nodes i ready run artifacts :
  result_nodeID <$> executeReady i ready run artifacts = Node_ID <$> ready.
Proof.
  unfold executeReady, ordered_results. rewrite <-list_fmap_compose. apply list_fmap_ext. intros k n _. simpl.
  destruct (_ !! _) as [r|] eqn:Hr; [|done]. by apply by_node_id_Some in Hr as [_ ?].
Qed.

Lemma executeReady_status i ready run artifacts r :
  r ∈ executeReady i ready run artifacts -> result_status r <> "".
Proof.
  unfold executeReady, ordered_results. intros (n & -> & _)%list_elem_of_fmap.
  destruct (_ !! _) as [r|] eqn:Hr; [|done]. apply by_node_id_Some in Hr as [Hin _]. simpl.
  rewrite arrival_perm in Hin. apply list_elem_of_fmap in Hin as (m & -> & _). apply dispatch_status.
Qed.

(** ** Collecting the ready nodes *)

Record collect_inv (s0 : dagRunState) (seen : list dagWorkflowNode)
    (acc : dagRunState * list dagWorkflowNode * bool) : Prop := {
  ci_grow : st_statuses s0 ⊆ st_statuses (acc.1.1);
  ci_set : all_set (st_statuses (acc.1.1));
  ci_new : forall id, id ∈ dom (st_statuses (acc.1.1)) ->
    id ∈ dom (st_statuses s0) \/ id ∈ Node_ID <$> seen;
  ci_ready : (acc.1.2) `sublist_of` seen;
  ci_pending : forall n, n ∈ acc.1.2 -> st_statuses s0 !! Node_ID n = None;
  ci_resolved : forall n, n ∈ acc.1.2 -> ready_in definition (st_statuses (acc.1.1)) n;
  ci_fresh : NoDup (Node_ID <$> seen) -> forall n, n ∈ acc.1.2 -> st_statuses (acc.1.1) !! Node_ID n = None;
  ci_progress : acc.2 = true -> exists id, id ∈ dom (st_statuses (acc.1.1)) /\ (id ∉ dom (st_statuses s0))
}.

Lemma elem_of_sublist_of {A} (l1 l2 : list A) x : l1 `sublist_of` l2 -> x ∈ l1 -> x ∈ l2.
Proof. intros Hsub Hx. eapply elem_of_submseteq; [done|]. by apply sublist_submseteq. Qed.

(** A skipped node gets a status and nothing else changes. *)
Lemma collect_skip s0 seen node s ready progressed s' :
  collect_inv s0 seen (s, ready, progressed) ->
  status_of (st_statuses s) (Node_ID node) = "" ->
  st_statuses s' = <[Node_ID node := "skipped"]> (st_statuses s) ->
  collect_inv s0 (seen ++ [node]) (s', ready, true).
Proof.
  intros [Hg Hs Hn Hr Hp He Hf _] Hemp Hs'. cbn [fst snd] in *.
  apply status_of_empty in Hemp; [|done].
  assert (st_statuses s ⊆ st_statuses s') as Hsub by (rewrite Hs'; by apply insert_subseteq).
  split; cbn [fst snd].
  - by etrans.
  - rewrite Hs'. intros id x [[<- <-]|[_ ?]]%lookup_insert_Some; [done|eauto].
  - rewrite Hs', dom_insert_L, fmap_app. intros id [->%elem_of_singleton|[Hin|Hin]%Hn]%elem_of_union.
    + right. apply elem_of_app. right. by left.
    + by left.
    + right. apply elem_of_app. by left.
  - by apply sublist_inserts_r.
  - done.
  - intros n Hin. eapply readiness_mono; eauto.
  - intros Hnd n Hin. rewrite fmap_app in Hnd. apply NoDup_app in Hnd as (Hnd & Hdis & _).
    rewrite Hs'. apply lookup_insert_None. split; [auto|]. intros Heq.
    apply (Hdis (Node_ID n)).
    + apply list_elem_of_fmap. exists n. split; [done|]. by eapply elem_of_sublist_of.
    + rewrite <-Heq. by left.
  - intros _. exists (Node_ID node). rewrite Hs', dom_insert_L. split; [set_solver|].
    apply not_elem_of_dom. destruct (st_statuses s0 !! Node_ID node) eqn:E; [|done].
    by rewrite (lookup_weaken _ _ _ _ E Hg) in Hemp.
Qed.

(** A node that is passed over. *)
Lemma collect_pass s0 seen node acc :
  collect_inv s0 seen acc -> collect_inv s0 (seen ++ [node]) acc.
Proof.
  intros [Hg Hs Hn Hr Hp He Hf Hpr]. split; try done.
  - intros id [Hin|Hin]%Hn; [by left|right]. rewrite fmap_app. apply elem_of_app. by left.
  - by apply sublist_inserts_r.
  - intros Hnd. apply Hf. rewrite fmap_app in Hnd. by apply NoDup_app in Hnd as [? _].
Qed.

(** A node that is ready. *)
Lemma collect_take s0 seen node s ready progressed :
  collect_inv s0 seen (s, ready, progressed) ->
  status_of (st_statuses s) (Node_ID node) = "" -> ready_in definition (st_statuses s) node ->
  collect_inv s0 (seen ++ [node]) (s, ready ++ [node], progressed).
Proof.
  intros [Hg Hs Hn Hr Hp He Hf Hpr] Hemp Hready. cbn [fst snd] in *.
  apply status_of_empty in Hemp; [|done].
  split; cbn [fst snd]; try done.
  - intros id [Hin|Hin]%Hn; [by left|right]. rewrite fmap_app. apply elem_of_app. by left.
  - by apply sublist_app.
  - intros n [Hin| ->%list_elem_of_singleton]%elem_of_app; [auto|].
    destruct (st_statuses s0 !! Node_ID node) eqn:E; [|done].
    by rewrite (lookup_weaken _ _ _ _ E Hg) in Hemp.
  - intros n [Hin| ->%list_elem_of_singleton]%elem_of_app; auto.
  - intros Hnd n [Hin| ->%list_elem_of_singleton]%elem_of_app; [|done].
    rewrite fmap_app in Hnd. apply NoDup_app in Hnd as [? _]. auto.
Qed.

Lemma collect_step now s0 seen acc node :
  collect_inv s0 seen acc -> collect_inv s0 (seen ++ [node]) (collect_node context definition now acc node).
Proof.
  destruct acc as [[s ready] progressed]. intros Hinv. unfold collect_node.
  destruct (str_empty (status_of (st_statuses s) (Node_ID node))) eqn:Hemp; simpl; [|by apply collect_pass].
  apply String.eqb_eq in Hemp.
  destruct (resolveDAGNodeReadiness _ _ _) as [isReady skipped] eqn:Hr.
  destruct skipped; [by eapply collect_skip|]. destruct isReady; simpl; [|by apply collect_pass].
  case_match; [by eapply collect_skip|]. destruct (evaluateDAGRunCondition _ _ _) as [[] reason]; simpl.
  - by apply collect_take.
  - by eapply collect_skip.
Qed.

Lemma collectReadyNodes_inv now s :
  all_set (st_statuses s) -> collect_inv s (Def_Nodes definition) (collectReadyNodes context definition now s).
Proof.
  intros Hs. unfold collectReadyNodes.
  assert (forall l seen acc, collect_inv s seen acc ->
    collect_inv s (seen ++ l) (fold_left (collect_node context definition now) l acc)) as Hfold.
  { induction l as [|n l IH]; intros seen acc Hacc; simpl; [by rewrite app_nil_r|].
    rewrite cons_middle, app_assoc. apply IH. by apply collect_step. }
  apply (Hfold _ []). split; cbn [fst snd]; try done.
  - by left.
  - intros n Hn. by apply elem_of_nil in Hn.
  - intros n Hn. by apply elem_of_nil in Hn.
  - intros _ n Hn. by apply elem_of_nil in Hn.
Qed.

(** ** One round *)

Lemma persist_statuses now s : st_statuses (persist definition now s) = st_statuses s.
Proof. done. Qed.

(** What a round that was not canceled does to the statuses. *)
Record round_spec (s s' : dagRunState) (batch : list dagWorkflowNode) : Prop := {
  rs_set : all_set (st_statuses s');
  rs_dom : dom (st_statuses s) ⊆ dom (st_statuses s');
  rs_new : forall id, id ∈ dom (st_statuses s') ->
    id ∈ dom (st_statuses s) \/ id ∈ Node_ID <$> Def_Nodes definition;
  rs_batch : batch `sublist_of` Def_Nodes definition;
  rs_pending : forall n, n ∈ batch -> st_statuses s !! Node_ID n = None;
  rs_done : forall n, n ∈ batch -> Node_ID n ∈ dom (st_statuses s');
  rs_keep : NoDup (Node_ID <$> Def_Nodes definition) -> st_statuses s ⊆ st_statuses s';
  rs_ready : NoDup (Node_ID <$> Def_Nodes definition) -> forall n, n ∈ batch ->
    ready_in definition (st_statuses s') n;
  rs_before : NoDup (Node_ID <$> Def_Nodes definition) -> forall n m e, n ∈ batch -> m ∈ batch ->
    e ∈ incomingEdgesForNode definition (Node_ID n) -> Node_ID m <> Edge_Source e
}.

Lemma round_spec_intro (s sm s' : dagRunState) ready progressed results :
  collect_inv s (Def_Nodes definition) (sm, ready, progressed) ->
  st_statuses s' = written results (st_statuses sm) ->
  result_nodeID <$> results = Node_ID <$> ready ->
  (forall r, r ∈ results -> result_status r <> "") ->
  round_spec s s' ready.
Proof.
  intros [Hg Hs Hn Hr Hp He Hf _] Hs' Hids Hst. cbn [fst snd] in *.
  assert (dom (st_statuses s') = list_to_set (Node_ID <$> ready) ∪ dom (st_statuses sm)) as Hdom
    by by rewrite Hs', dom_written, Hids.
  assert (NoDup (Node_ID <$> Def_Nodes definition) -> st_statuses sm ⊆ st_statuses s') as Hkeep.
  { intros Hnd. apply map_subseteq_spec. intros id x Hx. rewrite Hs', written_ne; [done|].
    rewrite Hids. intros (n & -> & Hin)%list_elem_of_fmap. by rewrite (Hf Hnd n Hin) in Hx. }
  split.
  - rewrite Hs'. by apply written_set.
  - rewrite Hdom. apply subseteq_dom in Hg. intros id Hid. apply elem_of_union_r. by apply Hg.
  - intros id. rewrite Hdom. intros [(n & -> & Hin)%elem_of_list_to_set%list_elem_of_fmap|Hin]%elem_of_union; [|auto].
    right. apply list_elem_of_fmap. exists n. split; [done|]. by eapply elem_of_sublist_of.
  - done.
  - done.
  - intros n Hin. rewrite Hdom. apply elem_of_union_l, elem_of_list_to_set, list_elem_of_fmap. eauto.
  - intros Hnd. etrans; [done|auto].
  - intros Hnd n Hin. eapply readiness_mono; [by apply Hkeep|auto].
  - intros Hnd n m e Hin Hm He' Heq.
    eapply ready_sources in He'; [|by apply He]. rewrite <-Heq in He'. apply He'.
    apply status_of_empty; [done|]. auto.
Qed.

Lemma round_sound i s o s' batch :
  all_set (st_statuses s) -> round context definition i s = (o, s', batch) -> o <> Some Canceled ->
  round_spec s s' batch /\
  (o = None -> dom (st_statuses s) ⊂ dom (st_statuses s')).
Proof.
  intros Hs. unfold round. destruct (ctx_err i); [by intros [= <- <- <-]|].
  pose proof (collectReadyNodes_inv (clock i) s Hs) as Hc.
  destruct (collectReadyNodes context definition (clock i) s) as [[sm ready] progressed].
  destruct (is_empty ready) eqn:Hready.
  - apply is_empty_true in Hready as ->. intros Hround Ho.
    assert (st_statuses s' = st_statuses sm /\ batch = [] /\ (o = None -> progressed = true)) as (Hs' & -> & Hp).
    { destruct progressed; repeat case_match; by simplify_eq. }
    pose proof (round_spec_intro s sm s' [] progressed [] Hc Hs' eq_refl) as Hspec.
    split; [apply Hspec; intros r Hin; by apply elem_of_nil in Hin|].
    intros Hnone. destruct Hc as [Hg _ _ _ _ _ _ Hpr]. cbn [fst snd] in *.
    destruct (Hpr (Hp Hnone)) as (id & Hin & Hnin). rewrite Hs'. split; [by apply subseteq_dom|].
    intros Hsub. by apply Hnin, Hsub.
  - apply is_empty_false in Hready. intros [= <- <- <-] _.
    match goal with |- context [applyResults _ _ (executeReady ?i ?rd ?run ?art) ?st] =>
      set (results := executeReady i rd run art); set (started := st) end.
    assert (st_statuses started = st_statuses sm) as Hst.
    { unfold started. rewrite persist_statuses, markNodesRunning_statuses. by destruct progressed. }
    assert (round_spec s (persist definition (clock i) (applyResults definition (clock i) results started)) ready)
      as Hspec.
    { eapply (round_spec_intro s sm _ ready progressed results); [done| | |].
      - by rewrite persist_statuses, applyResults_statuses, Hst.
      - apply executeReady_nodes.
      - intros r. apply executeReady_status. }
    split; [done|]. intros _. destruct ready as [|n ready]; [done|].
    destruct Hspec as [_ Hdom _ _ Hp Hd _ _ _]. split; [exact Hdom|]. intros Hsub.
    assert (n ∈ n :: ready) as Hin by by left.
    specialize (Hd n Hin). apply Hsub, elem_of_dom in Hd. rewrite (Hp n Hin) in Hd. by destruct Hd.
Qed.

(** ** The loop *)

Definition node_ids : gset string := list_to_set (Node_ID <$> Def_Nodes definition).

(** What is left to resolve. *)
Definition left_over (s : dagRunState) : nat := size (node_ids ∖ dom (st_statuses s)).

Lemma left_over_decreases s s' :
  (forall id, id ∈ dom (st_statuses s') -> id ∈ node_ids) ->
  dom (st_statuses s) ⊂ dom (st_statuses s') -> left_over s' < left_over s.
Proof.
  intros Hin [Hsub Hn]. unfold left_over. apply subset_size. split; [set_solver|].
  intros Hc. apply Hn. intros id Hid. destruct (decide (id ∈ dom (st_statuses s))) as [|Hno]; [done|].
  assert (id ∈ node_ids ∖ dom (st_statuses s)) as Hid' by (apply elem_of_difference; auto).
  apply Hc, elem_of_difference in Hid'. by destruct Hid'.
Qed.

Lemma loop_fuel_enough s : left_over s < loop_fuel definition.
Proof.
  unfold left_over, loop_fuel. apply Nat.lt_succ_r.
  etrans; [apply subseteq_size, subseteq_difference_l; reflexivity|].
  unfold node_ids. etrans; [apply size_list_to_set_length|]. by rewrite length_fmap.
Qed.

(** Enough fuel for the nodes that have no status. *)
Lemma run_loop_terminates fuel i s :
  all_set (st_statuses s) -> (forall id, id ∈ dom (st_statuses s) -> id ∈ node_ids) ->
  left_over s < fuel -> is_Some (run_loop context definition fuel i s).
Proof.
  revert i s. induction fuel as [|fuel IH]; intros i s Hs Hd Hf; [lia|]. cbn [run_loop].
  case_match; [by eexists|]. destruct (round context definition i s) as [[[o|] s'] batch] eqn:Hr; [by eexists|].
  destruct (round_sound i s None s' batch Hs Hr) as [Hspec Hgrow]; [done|].
  assert (forall id, id ∈ dom (st_statuses s') -> id ∈ node_ids) as Hd'.
  { intros id [Hid|Hid]%(rs_new _ _ _ Hspec); [by apply Hd|by apply elem_of_list_to_set]. }
  destruct (IH (S i) s') as [[[o s''] batches] ->]; [by apply (rs_set _ _ _ Hspec)|done| |by eexists].
  pose proof (left_over_decreases s s' Hd' (Hgrow eq_refl)). lia.
Qed.

Record loop_spec (s s' : dagRunState) (batches : list (list dagWorkflowNode)) : Prop := {
  ls_keep : st_statuses s ⊆ st_statuses s';
  ls_set : all_set (st_statuses s');
  ls_pending : forall n, n ∈ concat batches -> st_statuses s !! Node_ID n = None;
  ls_node : forall n, n ∈ concat batches -> n ∈ Def_Nodes definition;
  ls_once : NoDup (Node_ID <$> concat batches);
  ls_done : forall n, n ∈ concat batches -> Node_ID n ∈ dom (st_statuses s');
  ls_ready : forall n, n ∈ concat batches -> ready_in definition (st_statuses s') n;
  ls_before : forall i j b1 b2 n m e, batches !! i = Some b1 -> batches !! j = Some b2 ->
    n ∈ b1 -> m ∈ b2 -> e ∈ incomingEdgesForNode definition (Node_ID n) ->
    Node_ID m = Edge_Source e -> j < i
}.

Lemma loop_spec_idle s batches :
  all_set (st_statuses s) -> concat batches = [] -> loop_spec s s batches.
Proof.
  intros Hs Hc. assert (forall n, n ∉ concat batches) as Hno.
  { intros n. rewrite Hc. apply not_elem_of_nil. }
  split; try done; try (intros n Hn; by destruct (Hno n)).
  - rewrite Hc. constructor.
  - intros i j b1 b2 n m e Hi _ Hn. destruct (Hno n). apply list_elem_of_In, in_concat.
    exists b1. rewrite <-!list_elem_of_In. split; [|done]. by eapply list_elem_of_lookup_2.
Qed.

Lemma loop_spec_cons s s1 s' batch batches :
  NoDup (Node_ID <$> Def_Nodes definition) ->
  round_spec s s1 batch -> loop_spec s1 s' batches -> loop_spec s s' (batch :: batches).
Proof.
  intros Hnd [_ _ _ Hsub Hp Hd Hk Hr Hb] [Lk Ls Lp Ln Lo Ld Lr Lb].
  specialize (Hk Hnd). specialize (Hr Hnd). specialize (Hb Hnd).
  assert (forall n b j, batches !! j = Some b -> n ∈ b -> n ∈ concat batches) as Hcat.
  { intros n b j Hj Hn. apply list_elem_of_In, in_concat. exists b. rewrite <-!list_elem_of_In.
    split; [|done]. by eapply list_elem_of_lookup_2. }
  assert (forall n m, n ∈ batch -> m ∈ concat batches -> Node_ID n <> Node_ID m) as Hdis.
  { intros n m Hn Hm Heq. apply Hd in Hn. rewrite Heq in Hn. apply elem_of_dom in Hn.
    rewrite (Lp m Hm) in Hn. by destruct Hn. }
  split; cbn [concat].
  - by etrans.
  - done.
  - intros n [Hn|Hn]%elem_of_app; [auto|]. destruct (st_statuses s !! Node_ID n) eqn:E; [|done].
    pose proof (Lp n Hn) as Hl. by rewrite (lookup_weaken _ _ _ _ E Hk) in Hl.
  - intros n [Hn|Hn]%elem_of_app; [by eapply elem_of_sublist_of|auto].
  - rewrite fmap_app. apply NoDup_app. split_and!; [|intros id|done].
    + eapply sublist_NoDup; [exact Hnd|]. by apply fmap_sublist.
    + intros (n & -> & Hn)%list_elem_of_fmap (m & Heq & Hm)%list_elem_of_fmap. by eapply Hdis.
  - intros n [Hn|Hn]%elem_of_app; [|auto]. apply (subseteq_dom _ _ Lk). auto.
  - intros n [Hn|Hn]%elem_of_app; [|auto]. eapply readiness_mono; [exact Lk|auto].
  - intros [|i] [|j] b1 b2 n m e Hi Hj Hn Hm He Heq; simpl in Hi, Hj; simplify_eq.
    + by destruct (Hb n m e Hn Hm He Heq).
    + exfalso. apply (ready_sources _ _ _ _ (Hr n Hn)) in He. apply He. rewrite <-Heq.
      unfold status_of, lookup_default. by rewrite (Lp m) by eauto.
    + lia.
    + apply -> Nat.succ_lt_mono. eauto.
Qed.

Lemma run_loop_sound fuel i s o s' batches :
  NoDup (Node_ID <$> Def_Nodes definition) -> all_set (st_statuses s) ->
  run_loop context definition fuel i s = Some (o, s', batches) ->
  exists s1, loop_spec s s1 batches /\ (o <> Canceled -> s' = s1).
Proof.
  intros Hnd. revert i s s' batches. induction fuel as [|fuel IH]; intros i s s' batches Hs; cbn [run_loop].
  { case_match; [|done]. intros [= <- <- <-]. exists s. split; [by apply loop_spec_idle|done]. }
  case_match; [intros [= <- <- <-]; exists s; split; [by apply loop_spec_idle|done]|].
  destruct (round context definition i s) as [[[o'|] s1] batch] eqn:Hr.
  - intros [= <- <- <-]. destruct (decide (Some o' = Some Canceled)) as [[= ->]|Hne].
    + exists s. split; [|done]. apply loop_spec_idle; [done|].
      unfold round in Hr. repeat case_match; by simplify_eq.
    + destruct (round_sound i s (Some o') s1 batch Hs Hr Hne) as [Hspec _]. exists s1. split; [|done].
      eapply loop_spec_cons; [done|exact Hspec|]. apply loop_spec_idle; [by apply (rs_set _ _ _ Hspec)|done].
  - destruct (round_sound i s None s1 batch Hs Hr) as [Hspec _]; [done|].
    destruct (run_loop context definition fuel (S i) s1) as [[[o' s2] bs]|] eqn:Hl; [|done].
    intros [= <- <- <-]. destruct (IH _ _ _ _ (rs_set _ _ _ Hspec) Hl) as (s3 & Hspec' & Heq).
    exists s3. split; [|done]. by eapply loop_spec_cons.
Qed.

Lemma initial_statuses run :
  all_set (st_statuses (start definition (clock 0) (newDAGRunState definition run))) /\
  (forall id, id ∈ dom (st_statuses (start definition (clock 0) (newDAGRunState definition run))) ->
     id ∈ node_ids).
Proof.
  change (st_statuses (start _ _ _)) with (st_statuses (newDAGRunState definition run)).
  unfold newDAGRunState, collectNodeStatuses. cbn [st_statuses]. split.
  - intros id x [_ [? _]]%map_lookup_filter_Some. done.
  - intros id [x [Hx _]%map_lookup_filter_Some]%elem_of_dom.
    destruct (restore_wf definition (Run_NodeRuns run)) as [Hd _]. unfold node_ids. rewrite <-Hd.
    apply elem_of_dom. rewrite lookup_fmap in Hx. apply fmap_Some in Hx as (e & He & _). by rewrite He.
Qed.

(** ** The final status *)

(** The verdict of one node. *)
Definition node_verdict (st : gmap string string) (node : dagWorkflowNode) : option string :=
  let status := status_of st (Node_ID node) in
  if String.eqb status workflowStatusWaitingApproval || String.eqb status workflowStatusWaitingExecution
  then Some status
  else if String.eqb status "failed" && dagFailureCountsAsWorkflowFailure node then Some "failed" else None.

Lemma node_verdict_Some st n x :
  node_verdict st n = Some x ->
  (x = "failed" /\ status_of st (Node_ID n) = "failed" /\ effectiveDAGFailurePolicy n <> "continue") \/
  (x ∈ [workflowStatusWaitingApproval; workflowStatusWaitingExecution] /\ status_of st (Node_ID n) = x).
Proof.
  unfold node_verdict, dagFailureCountsAsWorkflowFailure. cbv zeta. case_guards; intros [= <-]; bool_prop.
  - right. split; [|done]. apply orb_true_iff in Heqb as [Hw|Hw]; apply String.eqb_eq in Hw as ->.
    + by left.
    + right. by left.
  - left. split_and!; [done|by apply String.eqb_eq|by apply String.eqb_neq].
Qed.

Lemma node_verdict_None st n :
  node_verdict st n = None ->
  status_of st (Node_ID n) <> workflowStatusWaitingApproval /\
  status_of st (Node_ID n) <> workflowStatusWaitingExecution /\
  (status_of st (Node_ID n) = "failed" -> effectiveDAGFailurePolicy n = "continue").
Proof.
  unfold node_verdict, dagFailureCountsAsWorkflowFailure. cbv zeta.
  destruct (String.eqb_spec (status_of st (Node_ID n)) workflowStatusWaitingApproval); [done|].
  destruct (String.eqb_spec (status_of st (Node_ID n)) workflowStatusWaitingExecution); [done|]. simpl.
  destruct (String.eqb_spec (status_of st (Node_ID n)) "failed"); [|done].
  by destruct (String.eqb_spec (effectiveDAGFailurePolicy n) "continue").
Qed.

(** The status is the verdict of the first node that has one; a run without
    verdicts leaves no node without a status. *)
Lemma final_status_spec now s nodes status s' :
  final_status now s nodes = (status, s') -> all_set (st_statuses s) ->
  st_statuses s ⊆ st_statuses s' /\ all_set (st_statuses s') /\
  ((exists n, n ∈ nodes /\ node_verdict (st_statuses s') n = Some status) \/
   (status = "completed" /\ forall n, n ∈ nodes ->
      node_verdict (st_statuses s') n = None /\ status_of (st_statuses s') (Node_ID n) <> "")).
Proof.
  revert s. induction nodes as [|n nodes IH]; intros s; cbn [final_status].
  { intros [= <- <-] Hs. split_and!; [done|done|]. right. split; [done|]. intros n Hn. by apply elem_of_nil in Hn. }
  pose proof (eq_refl (node_verdict (st_statuses s) n)) as Hv. unfold node_verdict in Hv at 2.
  assert (forall s1, st_statuses s ⊆ st_statuses s1 -> all_set (st_statuses s1) ->
    node_verdict (st_statuses s1) n = None -> status_of (st_statuses s1) (Node_ID n) <> "" ->
    final_status now s1 nodes = (status, s') ->
    st_statuses s ⊆ st_statuses s' /\ all_set (st_statuses s') /\
    ((exists n', n' ∈ n :: nodes /\ node_verdict (st_statuses s') n' = Some status) \/
     (status = "completed" /\ forall n', n' ∈ n :: nodes ->
      node_verdict (st_statuses s') n' = None /\ status_of (st_statuses s') (Node_ID n') <> ""))) as Hnext.
  { intros s1 Hsub Hs1 Hnv Hne Hf. destruct (IH s1 Hf Hs1) as (Hsub' & Hset & Hcase).
    split_and!; [by etrans|done|]. destruct Hcase as [(n' & ? & ?)|[-> Hall]].
    - left. exists n'. split; [by right|done].
    - right. split; [done|]. intros n' [->|Hin]%elem_of_cons; [|by apply Hall].
      unfold node_verdict in *. by rewrite (status_of_subseteq _ _ _ Hsub' Hne). }
  cbv zeta. destruct (String.eqb _ workflowStatusWaitingApproval || _) eqn:Hw; cbv zeta in Hv; rewrite ?Hw in Hv.
  { intros [= <- <-] Hs. split_and!; [done|done|]. left. exists n. split; [by left|done]. }
  destruct (String.eqb _ "failed" && _) eqn:Hfail.
  { intros [= <- <-] Hs. split_and!; [done|done|]. left. exists n. split; [by left|done]. }
  intros Hf Hs. destruct (str_empty _) eqn:Hemp.
  - apply String.eqb_eq in Hemp. rewrite status_of_empty in Hemp by done.
    refine (Hnext _ _ _ _ _ Hf); cbn [st_statuses set_st_node].
    + by apply insert_subseteq.
    + intros id x [[<- <-]|[_ ?]]%lookup_insert_Some; [done|eauto].
    + unfold node_verdict, status_of, lookup_default. by rewrite lookup_insert_eq.
    + unfold status_of, lookup_default. by rewrite lookup_insert_eq.
  - refine (Hnext s _ Hs _ _ Hf); [done|done|]. intros Hx. unfold str_empty in Hemp. by rewrite Hx in Hemp.
Qed.

Lemma finish_statuses now s :
  all_set (st_statuses s) -> st_statuses s ⊆ st_statuses (finish definition now s).
Proof.
  intros Hs. unfold finish. destruct (final_status now s (Def_Nodes definition)) as [status s'] eqn:Hf.
  rewrite persist_statuses. cbn [set_st_run st_statuses]. by apply final_status_spec in Hf as (? & _).
Qed.

(** What a run leaves behind, from what its loop did. *)
Lemma run_dag_sound run o s batches :
  NoDup (Node_ID <$> Def_Nodes definition) -> run_dag context definition run = Some (o, s, batches) ->
  exists s1, loop_spec (newDAGRunState definition run) s1 batches /\
    (o <> Canceled -> st_statuses s1 ⊆ st_statuses s) /\
    (o = Drained \/ o = Blocked -> s = finish definition (clock (length batches)) s1).
Proof.
  intros Hnd. unfold run_dag. destruct (run_loop _ _ _ _ _) as [[[o' s'] bs]|] eqn:Hl; [|done].
  destruct (run_loop_sound _ _ _ _ _ _ Hnd (proj1 (initial_statuses run)) Hl) as (s1 & Hspec & Heq).
  assert (loop_spec (newDAGRunState definition run) s1 bs) as Hspec' by (destruct Hspec; by split). intros Hr.
  exists s1. destruct o'; simplify_eq.
  - rewrite (Heq ltac:(done)). split_and!; [done|intros _; by apply finish_statuses, (ls_set _ _ _ Hspec)|done].
  - rewrite (Heq ltac:(done)). split_and!; [done|intros _; by apply finish_statuses, (ls_set _ _ _ Hspec)|done].
  - rewrite (Heq ltac:(done)). split_and!; [done|done|by intros [|]].
  - split_and!; [done|done|by intros [|]].
Qed.
End engine_lemmas.

(** ** Runs in an environment where every node completes *)

Definition steady_result (node : dagWorkflowNode) : dagExecutionResult :=
  newDAGExecutionResult node "completed" "" ∅ ∅ ∅ ∅ [].

#[export] Instance steady_env : EngineEnv := {
  clock _ := "2026-01-01T00:00:00Z";
  ctx_err _ := None;
  dispatch _ node _ _ := steady_result node;
  handed_out _ := 64;
  arrival _ results := reverse results;
  repo_Update run := Some run;
  metadataDAGExecutionResult _ := ∅;
  metadataDAGArtifactState artifacts := artifacts;
  dispatch_node _ _ _ _ := eq_refl;
  dispatch_status _ _ _ _ := ltac:(discriminate);
  arrival_perm _ results := reverse_Permutation results
}.

Definition empty_context : RunContext :=
  {| App_ID := ""; App_Key := ""; App_Name := ""; App_DefaultBranch := ""; Input_RefType := "";
     Input_RefName := ""; Input_Namespace := ""; Input_ClusterID := ""; Input_DeploymentName := "";
     Input_Variables := ∅; BuildPolicy_RefType := ""; BuildPolicy_RefValue := "";
     Context_EnvironmentKey := ""; Context_EnvironmentID := "" |}.

Definition new_run : Run :=
  {| Run_GatewayAuthorization := ""; Run_Version := 1; Run_LeaseOwner := ""; Run_LeaseUntil := None;
     Run_FencingToken := 0; Run_StopReason := ""; Run_StopSummary := ""; Run_Scope := "";
     Run_DeliveryBatchID := ""; Run_ID := "run-1"; Run_ApplicationID := ""; Run_WorkflowName := "";
     Run_ClusterID := ""; Run_Namespace := ""; Run_DeploymentName := ""; Run_Status := "pending";
     Run_Steps := []; Run_NodeRuns := []; Run_Metadata := ∅; Run_CreatedAt := ""; Run_UpdatedAt := "" |}.

(** The outcome of a run, the nodes it executed, its status and those of its nodes. *)
Definition outline (definition : dagWorkflowDefinition)
    (r : outcome_kind * dagRunState * list (list dagWorkflowNode))
    : outcome_kind * list (list string) * string * list string :=
  let '(o, s, batches) := r in
  (o, map (map Node_ID) batches, Run_Status (st_run s),
   map (fun n => status_of (st_statuses s) (Node_ID n)) (Def_Nodes definition)).

Lemma sample_outcome :
  option_map (outline sample_definition_dag) (run_dag empty_context sample_definition_dag new_run) =
  Some (Drained, [["build"]; ["deploy"]], "completed", ["completed"; "completed"]).
Proof. vm_compute. reflexivity. Qed.

Lemma cyclic_outcome :
  option_map (outline cyclic_definition) (run_dag empty_context cyclic_definition new_run) =
  Some (Blocked, [[]], "completed", ["skipped"; "skipped"]).
Proof. vm_compute. reflexivity. Qed.

(** ** Properties *)

(** C34. Every run ends: whatever its definition (cycles, duplicate identifiers
    and edges to unknown nodes included) and whatever its nodes do, the loop
    reaches an outcome within one round per node and one more. *)
Theorem engine_terminates `{EngineEnv} context definition run :
  is_Some (run_dag context definition run).
Proof.
  unfold run_dag. destruct (initial_statuses definition run) as [Hs Hd].
  destruct (run_loop_terminates context definition (loop_fuel definition) 0 _ Hs Hd) as [[[o s] batches] ->].
  - apply loop_fuel_enough.
  - destruct o; by eexists.
Qed.

(** C35. When identifiers are distinct a run executes each node at most once,
    and none whose outcome was already recorded when the run was resumed. *)
Theorem engine_executes_once `{EngineEnv} context definition run o s batches :
  NoDup (Node_ID <$> Def_Nodes definition) -> run_dag context definition run = Some (o, s, batches) ->
  NoDup (Node_ID <$> concat batches) /\
  forall n, n ∈ concat batches -> n ∈ Def_Nodes definition /\
    contains [""; "pending"]
      (NodeRun_Status (lookup_default zero_NodeRun (restoreNodeRuns definition (Run_NodeRuns run)) (Node_ID n))) = true.
Proof.
  intros Hnd Hr. destruct (run_dag_sound _ _ _ _ _ _ Hnd Hr) as (s1 & [_ _ Hp Hn Ho _ _ _] & _).
  split; [done|]. intros n Hin. split; [auto|]. apply contains_true. specialize (Hp n Hin).
  unfold newDAGRunState, collectNodeStatuses in Hp. cbn [st_statuses] in Hp.
  rewrite map_lookup_filter_None, lookup_fmap in Hp. unfold lookup_default.
  destruct (restoreNodeRuns definition (Run_NodeRuns run) !! Node_ID n) as [e|]; [|by left].
  destruct Hp as [|Hp]; [done|]. simpl in *. specialize (Hp _ eq_refl).
  destruct (decide (NodeRun_Status e = "")) as [->|?]; [by left|]. right. apply list_elem_of_singleton.
  destruct (decide (NodeRun_Status e = "pending")); [done|]. by destruct Hp.
Qed.

Lemma engine_executes_once_witness :
  exists o s batches, run_dag empty_context sample_definition_dag new_run = Some (o, s, batches) /\
    NoDup (Node_ID <$> concat batches).
Proof.
  pose proof sample_outcome as Ho.
  destruct (run_dag empty_context sample_definition_dag new_run) as [[[o s] batches]|] eqn:E; [|discriminate Ho].
  exists o, s, batches. split; [reflexivity|].
  apply (engine_executes_once empty_context sample_definition_dag new_run o s batches); [|exact E].
  apply (bool_decide_unpack _). vm_compute. exact I.
Defined.

(** Dependencies are respected: a node is executed strictly after every
    predecessor that the run executes, and a run that was not canceled only
    executed nodes whose predecessors' final statuses make them ready. *)
Theorem engine_respects_dependencies `{EngineEnv} context definition run o s batches :
  NoDup (Node_ID <$> Def_Nodes definition) -> run_dag context definition run = Some (o, s, batches) ->
  (forall i j b1 b2 n m e, batches !! i = Some b1 -> batches !! j = Some b2 -> n ∈ b1 -> m ∈ b2 ->
     e ∈ Def_Edges definition -> Edge_Target e = Node_ID n -> Edge_Source e = Node_ID m -> j < i) /\
  (o <> Canceled -> forall n, n ∈ concat batches ->
     resolveDAGNodeReadiness definition (incomingEdgesForNode definition (Node_ID n)) (st_statuses s)
     = (true, false)).
Proof.
  intros Hnd Hr. destruct (run_dag_sound _ _ _ _ _ _ Hnd Hr) as (s1 & [_ _ _ _ _ _ Hre Hb] & Hkeep & _).
  split.
  - intros i j b1 b2 n m e Hi Hj Hn Hm He Ht Hs. eapply (Hb i j b1 b2 n m e); try done.
    unfold incomingEdgesForNode. by apply list_elem_of_filter.
  - intros Ho n Hin. eapply readiness_mono; [by apply Hkeep|auto].
Qed.

Lemma engine_respects_dependencies_witness :
  exists o s batches, run_dag empty_context sample_definition_dag new_run = Some (o, s, batches) /\
    forall n, n ∈ concat batches ->
      resolveDAGNodeReadiness sample_definition_dag (incomingEdgesForNode sample_definition_dag (Node_ID n))
        (st_statuses s) = (true, false).
Proof.
  pose proof sample_outcome as Ho.
  destruct (run_dag empty_context sample_definition_dag new_run) as [[[o s] batches]|] eqn:E; [|discriminate Ho].
  injection Ho as -> _ _ _. exists Drained, s, batches. split; [reflexivity|].
  apply (engine_respects_dependencies empty_context sample_definition_dag new_run Drained s batches);
    [|exact E|discriminate].
  apply (bool_decide_unpack _). vm_compute. exact I.
Defined.

(** The outcome that is recorded at the end of a run: [completed] means that
    every node has a final status and that no failure counts, [failed] that some
    failure counts, and a waiting status that some node waits. *)
Theorem engine_outcome `{EngineEnv} context definition run o s batches :
  NoDup (Node_ID <$> Def_Nodes definition) -> run_dag context definition run = Some (o, s, batches) ->
  o = Drained \/ o = Blocked ->
  exists record, st_run s = updateRun record /\
  let status n := status_of (st_statuses s) (Node_ID n) in
  (Run_Status record = "completed" /\ forall n, n ∈ Def_Nodes definition ->
     status n <> "" /\ status n <> workflowStatusWaitingApproval /\ status n <> workflowStatusWaitingExecution /\
     (status n = "failed" -> effectiveDAGFailurePolicy n = "continue")) \/
  (Run_Status record = "failed" /\ exists n, n ∈ Def_Nodes definition /\ status n = "failed" /\
     effectiveDAGFailurePolicy n <> "continue") \/
  (Run_Status record ∈ [workflowStatusWaitingApproval; workflowStatusWaitingExecution] /\
     exists n, n ∈ Def_Nodes definition /\ status n = Run_Status record).
Proof.
  intros Hnd Hr Ho. destruct (run_dag_sound _ _ _ _ _ _ Hnd Hr) as (s1 & Hspec & _ & Hfin).
  rewrite (Hfin Ho). clear Hfin Hr. unfold finish.
  destruct (final_status _ s1 (Def_Nodes definition)) as [status s2] eqn:Hf.
  rewrite persist_statuses. cbn [set_st_run st_statuses].
  destruct (final_status_spec _ _ _ _ _ Hf (ls_set _ _ _ _ Hspec)) as (_ & _ & Hcase).
  eexists. split; [reflexivity|]. cbv zeta. cbn [set_st_run st_run syncRunNodeState set_Run set_Run_Status Run_Status].
  destruct Hcase as [(n & Hn & Hv)|[-> Hall]].
  - right. apply node_verdict_Some in Hv as [(-> & ? & ?)|[? ?]]; [left|right]; eauto.
  - left. split; [done|]. intros n Hn. destruct (Hall n Hn) as [Hv%node_verdict_None Hne]. tauto.
Qed.

Lemma engine_outcome_witness :
  exists s batches, run_dag empty_context sample_definition_dag new_run = Some (Drained, s, batches) /\
    exists record, st_run s = updateRun record.
Proof.
  pose proof sample_outcome as Ho.
  destruct (run_dag empty_context sample_definition_dag new_run) as [[[o s] batches]|] eqn:E; [|discriminate Ho].
  injection Ho as -> _ _ _. exists s, batches. split; [reflexivity|].
  destruct (engine_outcome empty_context sample_definition_dag new_run Drained s batches) as (record & Hr & _);
    [|exact E|left; reflexivity|exists record; exact Hr].
  apply (bool_decide_unpack _). vm_compute. exact I.
Defined.

(** Without the acyclicity that templates are checked for, a run can end
    [completed] although it executed nothing: nodes that wait for each other are
    skipped as unresolved. *)
Remark cyclic_run_completes :
  validateDAGExecutionDefinition resolve_nothing cyclic_definition "" "" "" "" = Ok tt /\
  exists s, run_dag empty_context cyclic_definition new_run = Some (Blocked, s, [[]]) /\
    Run_Status (st_run s) = "completed" /\
    status_of (st_statuses s) "a" = "skipped" /\ status_of (st_statuses s) "b" = "skipped".
Proof.
  split; [vm_compute; reflexivity|].
  destruct (run_dag empty_context cyclic_definition new_run) as [[[o s] batches]|] eqn:E; [|by vm_compute in E].
  pose proof cyclic_outcome as Hc. rewrite E in Hc. injection Hc as -> Hb Hs Ha Hb'.
  destruct batches as [|[|] [|]]; try discriminate Hb. eauto 10.
Qed.
