(* ===== verification/WorkflowProgress.v ===== *)
(** * Progress of accepted workflows

    What the checks of the catalog buy the engine: a run of an accepted template
    never ends blocked while no node waits, so it drains when every node ends. *)

From S2P Require Import Prelude GoStrings WorkflowModel WorkflowState WorkflowValidation WorkflowWorkers.
From S2P Require Import WorkflowEngine WorkflowTemplate.

(** ** Finite acyclic relations *)

Section acyclic.
Context (R : relation string) (Hacyclic : forall x, ~ tc R x x).

Lemma sorted_tc_NoDup l : StronglySorted (tc R) l -> NoDup l.
Proof.
  induction 1 as [|x l Hs IH Hx]; [constructor|]. constructor; [|done].
  intros Hin. rewrite Forall_forall in Hx. by apply (Hacyclic x), Hx.
Qed.

(** A path of any length, going backwards. *)
Lemma backward_path (U : gset string) x0 k :
  (forall x, x ∈ U -> exists y, y ∈ U /\ R y x) -> x0 ∈ U ->
  exists y l, StronglySorted (tc R) (y :: l) /\ length l = k /\ (forall z, z ∈ y :: l -> z ∈ U).
Proof.
  intros Hpred Hx0. induction k as [|k (y & l & Hs & Hl & Hin)].
  - exists x0, []. split_and!; [by repeat constructor|done|]. by intros z ->%list_elem_of_singleton.
  - destruct (Hpred y) as (z & Hz & HR); [apply Hin; by left|].
    exists z, (y :: l). split_and!; [|simpl; lia|].
    + constructor; [done|]. apply Forall_cons. split; [by apply tc_once|].
      apply StronglySorted_inv in Hs as [_ Hy]. eapply Forall_impl; [exact Hy|].
      intros w Hw. by eapply tc_l.
    + intros w [->|Hw]%elem_of_cons; auto.
Qed.

Lemma acyclic_minimal (U : gset string) x0 :
  x0 ∈ U -> ~ (forall x, x ∈ U -> exists y, y ∈ U /\ R y x).
Proof.
  intros Hx0 Hpred. destruct (backward_path U x0 (size U) Hpred Hx0) as (y & l & Hs & Hl & Hin).
  apply sorted_tc_NoDup in Hs. assert (size (list_to_set (y :: l) : gset string) <= size U) as Hle.
  { apply subseteq_size. intros z Hz%elem_of_list_to_set. auto. }
  rewrite size_list_to_set in Hle by done. simpl in Hle. lia.
Qed.
End acyclic.

(** ** Rounds that change nothing *)

Section blocked.
Context `{EngineEnv} (context : RunContext) (definition : dagWorkflowDefinition).

Definition stuck_in (st : gmap string string) (node : dagWorkflowNode) : Prop :=
  status_of st (Node_ID node) <> "" \/
  fst (resolveDAGNodeReadiness definition (incomingEdgesForNode definition (Node_ID node)) st) = false /\
  snd (resolveDAGNodeReadiness definition (incomingEdgesForNode definition (Node_ID node)) st) = false.

Lemma collect_nothing now l acc sm :
  fold_left (collect_node context definition now) l acc = (sm, [], false) ->
  acc = (sm, [], false) /\ forall n, n ∈ l -> stuck_in (st_statuses sm) n.
Proof.
  revert acc. induction l as [|n l IH]; intros acc; simpl.
  { intros ->. split; [done|]. intros n Hn. by apply elem_of_nil in Hn. }
  intros [Hacc Hl]%IH. destruct acc as [[s ready] progressed]. unfold collect_node in Hacc.
  destruct (str_empty (status_of (st_statuses s) (Node_ID n))) eqn:Hemp; simpl in Hacc.
  - destruct (resolveDAGNodeReadiness _ _ _) as [isReady skipped] eqn:Hr.
    destruct skipped; [by simplify_eq|]. destruct isReady; simpl in Hacc.
    + destruct (negb _ && _); [by simplify_eq|].
      destruct (evaluateDAGRunCondition _ _ _) as [[] reason]; simpl in Hacc; [|by simplify_eq].
      exfalso. simplify_eq. by destruct ready.
    + simplify_eq. split; [done|]. intros n' [->|Hn']%elem_of_cons; [|auto]. right. by rewrite Hr.
  - simplify_eq. split; [done|]. intros n' [->|Hn']%elem_of_cons; [|auto]. left.
    by apply String.eqb_neq.
Qed.

Lemma round_blocked i s s' batch :
  round context definition i s = (Some Blocked, s', batch) ->
  s' = s /\ forall n, n ∈ Def_Nodes definition -> stuck_in (st_statuses s) n.
Proof.
  unfold round. destruct (ctx_err i); [discriminate|].
  destruct (collectReadyNodes context definition (clock i) s) as [[sm ready] progressed] eqn:Hc.
  destruct (is_empty ready) eqn:Hr; [|discriminate]. apply is_empty_true in Hr as ->.
  destruct (hasWaitingApproval _); [discriminate|]. destruct (hasWaitingExecution _); [discriminate|].
  destruct progressed; [discriminate|]. intros Heq. unfold collectReadyNodes in Hc.
  destruct (collect_nothing _ _ _ _ Hc) as [Hacc Hall].
  injection Hacc as ->. injection Heq as <- _. split; [reflexivity|exact Hall].
Qed.

Lemma run_loop_blocked fuel i s s' batches :
  all_set (st_statuses s) -> (forall id, id ∈ dom (st_statuses s) -> id ∈ node_ids definition) ->
  run_loop context definition fuel i s = Some (Blocked, s', batches) ->
  all_set (st_statuses s') /\ size (st_statuses s') < length (Def_Nodes definition) /\
  forall n, n ∈ Def_Nodes definition -> stuck_in (st_statuses s') n.
Proof.
  revert i s batches. induction fuel as [|fuel IH]; intros i s batches Hs Hd; cbn [run_loop].
  { case_match; discriminate. }
  destruct (size (st_statuses s) <? length (Def_Nodes definition)) eqn:Hsize; simpl; [|discriminate].
  apply Nat.ltb_lt in Hsize.
  destruct (round context definition i s) as [[[o|] s1] batch] eqn:Hr.
  - intros [= -> -> _]. apply round_blocked in Hr as [-> Hall]. done.
  - destruct (round_sound context definition i s None s1 batch Hs Hr) as [Hspec _]; [discriminate|].
    destruct (run_loop context definition fuel (S i) s1) as [[[o' s2] bs]|] eqn:Hl; [|discriminate].
    intros [= -> -> _]. eapply (IH _ _ _ (rs_set _ _ _ _ Hspec)); [|exact Hl].
    intros id [Hid|Hid]%(rs_new _ _ _ _ Hspec); [by apply Hd|by apply elem_of_list_to_set].
Qed.

(** The statuses in which a node has started and not ended. *)
Definition waits (st : gmap string string) (node : dagWorkflowNode) : Prop :=
  status_of st (Node_ID node) ∈
    ["pending"; "running"; workflowStatusWaitingApproval; workflowStatusWaitingExecution].

#[export] Instance waits_dec st node : Decision (waits st node).
Proof. unfold waits. apply _. Defined.

(** A node without a status that is stuck has a predecessor without an outcome. *)
Lemma stuck_predecessor st node :
  batch_mode definition = false -> stuck_in st node -> status_of st (Node_ID node) = "" ->
  exists e, e ∈ Def_Edges definition /\ Edge_Target e = Node_ID node /\
    unresolved (status_of st (Edge_Source e)) = true.
Proof.
  intros Hm [?|[Hf Hs]] Hemp; [done|]. rewrite readiness_spec in Hf, Hs. cbv zeta in Hf, Hs. simpl in Hf, Hs.
  destruct (forallb (edge_resolved definition st) (incomingEdgesForNode definition (Node_ID node))) eqn:Hall.
  { by destruct (edges_demand _ _ _). }
  assert (existsb (fun e => negb (edge_resolved definition st e))
    (incomingEdgesForNode definition (Node_ID node)) = true) as (e & Hin & He)%existsb_elem_of.
  { revert Hall. induction (incomingEdgesForNode _ _) as [|e l IH]; simpl; [done|].
    destruct (edge_resolved definition st e); simpl; auto. }
  apply list_elem_of_filter in Hin as [Ht Hin]. exists e. split_and!; [done|done|].
  unfold edge_resolved in He. rewrite Hm, negb_involutive in He. exact He.
Qed.

Lemma blocked_waits st :
  accepted_graph definition -> all_set st -> size st < length (Def_Nodes definition) ->
  (forall n, n ∈ Def_Nodes definition -> stuck_in st n) ->
  exists n, n ∈ Def_Nodes definition /\ waits st n.
Proof.
  intros [Hnd _ Hedges Hac Hm] Hset Hsize Hstuck.
  destruct (decide (Exists (waits st) (Def_Nodes definition))) as [(n & ? & ?)%Exists_exists|Hno]; [eauto|].
  exfalso. set (U := node_ids definition ∖ dom st).
  assert (exists x0, x0 ∈ U) as [x0 Hx0].
  { destruct (set_choose_or_empty U) as [?|He]; [done|]. exfalso.
    assert (node_ids definition ⊆ dom st) as Hsub by set_solver.
    apply subseteq_size in Hsub. unfold node_ids in Hsub.
    rewrite size_list_to_set, length_fmap, size_dom in Hsub by done. lia. }
  apply (acyclic_minimal _ Hac U x0 Hx0). intros x [Hx Hxd]%elem_of_difference.
  apply elem_of_list_to_set, list_elem_of_fmap in Hx as (n & -> & Hn).
  apply not_elem_of_dom in Hxd. apply status_of_empty in Hxd; [|done].
  destruct (stuck_predecessor st n Hm (Hstuck n Hn) Hxd) as (e & He & Ht & Hun).
  exists (Edge_Source e). split; [|by exists e].
  destruct (Hedges e He) as [(m & Hsrc & Hin)%list_elem_of_fmap _].
  apply elem_of_difference. split; [apply elem_of_list_to_set, list_elem_of_fmap; eauto|].
  apply not_elem_of_dom, status_of_empty; [done|].
  apply contains_true, elem_of_cons in Hun as [?|Hw]; [done|].
  exfalso. apply Hno, Exists_exists. exists m. split; [done|]. unfold waits. by rewrite <-Hsrc.
Qed.
End blocked.

(** ** Runs whose nodes end *)

Abbreviation ended_statuses := ["completed"; "failed"; "skipped"].

(** Nothing waits: recorded statuses are final, and entries are final or local
    to the engine. *)
Record quiet (s : dagRunState) : Prop := {
  quiet_statuses : forall id x, st_statuses s !! id = Some x -> x ∈ ended_statuses;
  quiet_entries : forall id e, st_nodeRuns s !! id = Some e ->
    NodeRun_Status e ∈ [""; "pending"; "running"] ++ ended_statuses
}.

Lemma quiet_set_run run s : quiet s -> quiet (set_st_run run s).
Proof. intros [Hs He]. by split. Qed.

Lemma quiet_set_node id e status s :
  quiet s -> NodeRun_Status e ∈ [""; "pending"; "running"] ++ ended_statuses ->
  (forall x, status = Some x -> x ∈ ended_statuses) -> quiet (set_st_node id e status s).
Proof.
  intros [Hs He] Hentry Hst. split; cbn [set_st_node st_statuses st_nodeRuns].
  - intros id' x. destruct status as [y|]; [|apply Hs].
    intros [[<- <-]|[_ ?]]%lookup_insert_Some; eauto.
  - intros id' e' [[<- <-]|[_ ?]]%lookup_insert_Some; eauto.
Qed.

Lemma quiet_persist `{EngineEnv} definition now s : quiet s -> quiet (persist definition now s).
Proof. apply quiet_set_run. Qed.

Create HintDb quiet.
#[export] Hint Resolve quiet_set_run quiet_persist : quiet.

Lemma quiet_skipNode now node summary metadata s : quiet s -> quiet (skipNode now node summary metadata s).
Proof.
  intros Hq. unfold skipNode. apply quiet_set_run, quiet_set_node; [done|..].
  - apply (bool_decide_unpack _). vm_compute. exact I.
  - intros x [= <-]. apply (bool_decide_unpack _). vm_compute. exact I.
Qed.
#[export] Hint Resolve quiet_skipNode : quiet.

Section quiet_engine.
Context `{EngineEnv} (context : RunContext) (definition : dagWorkflowDefinition).
Context (Hended : forall i node run artifacts, node ∈ Def_Nodes definition ->
  result_status (dispatch i node run artifacts) ∈ ended_statuses).
Context (Hctx : forall i, ctx_err i = None).

Lemma quiet_collect now s : quiet s -> quiet (collectReadyNodes context definition now s).1.1.
Proof.
  unfold collectReadyNodes. assert (forall l acc, quiet acc.1.1 ->
    quiet (fold_left (collect_node context definition now) l acc).1.1) as Hfold; [|intros Hq; by apply Hfold].
  induction l as [|n l IH]; intros acc Hq; [done|]. cbn [fold_left]. apply IH.
  destruct acc as [[s' ready] progressed]. unfold collect_node.
  destruct (str_empty _); [|done]. cbn [negb]. destruct (resolveDAGNodeReadiness _ _ _) as [isReady []].
  { cbn [fst] in *. auto with quiet. }
  destruct isReady; [|done]. cbn [negb]. destruct (negb _ && _).
  { cbn [fst] in *. auto with quiet. }
  destruct (evaluateDAGRunCondition _ _ _) as [[] reason]; cbn [negb fst] in *; [done|].
  unfold skipRunCondition. auto with quiet.
Qed.

Lemma quiet_mark now nodes s : quiet s -> quiet (markNodesRunning now nodes s).
Proof.
  unfold markNodesRunning. revert s. induction nodes as [|n l IH]; intros s Hq; [done|]. cbn [fold_left]. apply IH.
  apply quiet_set_run, quiet_set_node; [done| |done]. apply (bool_decide_unpack _). vm_compute. exact I.
Qed.

Lemma quiet_apply now s r : quiet s -> result_status r ∈ ended_statuses -> quiet (apply_result definition now s r).
Proof.
  intros [Hs He] Hr. split.
  - rewrite apply_result_statuses. intros id x [[<- <-]|[_ ?]]%lookup_insert_Some; eauto.
  - assert (st_nodeRuns (apply_result definition now s r) = <[result_nodeID r := set_NodeRun_progress
      (result_status r) (result_summary r) (NodeRun_StartedAt (default (entry_of s (result_nodeID r)) (result_nodeRun r)))
      (if negb (String.eqb (Def_Mode definition) ScopeDeliveryBatch) || deliveryNodeTerminal (result_status r)
       then now else "") (default (entry_of s (result_nodeID r)) (result_nodeRun r))]> (st_nodeRuns s)) as ->.
    { unfold apply_result, recordFailure, mergeArtifacts.
      repeat case_match; cbn [st_nodeRuns set_st_run];
        rewrite (proj1 (proj2 (appendResultEvents_statuses _ _ _))); reflexivity. }
    intros id e [[<- <-]|[_ ?]]%lookup_insert_Some; [|eauto]. cbn [NodeRun_Status set_NodeRun_progress].
    apply elem_of_app. by right.
Qed.

(** The nodes handed out are nodes of the definition. *)
Lemma collect_nodes now s n : n ∈ (collectReadyNodes context definition now s).1.2 -> n ∈ Def_Nodes definition.
Proof.
  unfold collectReadyNodes. assert (forall l acc, n ∈ (fold_left (collect_node context definition now) l acc).1.2 ->
    n ∈ acc.1.2 \/ n ∈ l) as Hfold; [|intros [Hn|Hn]%Hfold; [by apply elem_of_nil in Hn|done]].
  induction l as [|m l IH]; intros acc Hn; [by left|]. cbn [fold_left] in Hn. apply IH in Hn as [Hn|Hn]; [|right; by right].
  destruct acc as [[s' ready] progressed]. unfold collect_node in Hn. repeat case_match; cbn [fst snd] in *; auto.
  all: apply elem_of_app in Hn as [Hn|Hn%list_elem_of_singleton]; [by left|subst; right; by left].
Qed.

Lemma executeReady_ended i ready run artifacts r :
  (forall n, n ∈ ready -> n ∈ Def_Nodes definition) -> r ∈ executeReady i ready run artifacts -> result_status r ∈ ended_statuses.
Proof.
  intros Hready. unfold executeReady, ordered_results. intros (n & -> & _)%list_elem_of_fmap.
  destruct (_ !! _) as [r|] eqn:Hr.
  - apply by_node_id_Some in Hr as [Hin _]. simpl. rewrite arrival_perm in Hin.
    apply list_elem_of_fmap in Hin as (m & -> & Hm). apply Hended, Hready.
    rewrite <-(take_drop (handed_out i) ready). apply elem_of_app. by left.
  - apply (bool_decide_unpack _). vm_compute. exact I.
Qed.

Lemma quiet_not_waiting s :
  quiet s -> hasWaitingApproval (st_nodeRuns s) = false /\ hasWaitingExecution (st_nodeRuns s) = false.
Proof.
  intros [_ He]. unfold hasWaitingApproval, hasWaitingExecution.
  split; apply bool_decide_eq_false; intros (id & e & Hl & Heq); apply He in Hl; rewrite Heq in Hl;
    revert Hl; apply (bool_decide_unpack _); vm_compute; exact I.
Qed.

(** A quiet state stays quiet, and its round neither pauses nor cancels the run. *)
Lemma quiet_round i s o s' batch :
  quiet s -> round context definition i s = (o, s', batch) -> quiet s' /\ (o = None \/ o = Some Blocked).
Proof.
  intros Hq. unfold round. rewrite Hctx. pose proof (quiet_collect (clock i) s Hq) as Hc.
  pose proof (collect_nodes (clock i) s) as Hready.
  destruct (collectReadyNodes context definition (clock i) s) as [[sm ready] progressed]. cbn [fst snd] in Hc, Hready.
  assert (quiet (if progressed then persist definition (clock i) sm else sm)) as Hc'
    by (destruct progressed; auto with quiet).
  revert Hc'. generalize (if progressed then persist definition (clock i) sm else sm). clear Hc. intros s1 Hc.
  destruct (is_empty ready).
  - destruct (quiet_not_waiting s1 Hc) as [-> ->]. destruct progressed; intros [= <- <- <-]; auto.
  - intros [= <- <- <-]. split; [|by left]. apply quiet_persist.
    match goal with |- quiet (applyResults _ _ ?results ?st) =>
      assert (forall r, r ∈ results -> result_status r ∈ ended_statuses) as Hres by (intros r; by apply executeReady_ended);
      assert (quiet st) as Hst by auto using quiet_mark with quiet; revert Hres Hst;
      generalize results; generalize st end.
    intros st results. unfold applyResults. revert st. induction results as [|r l IH]; intros st Hres Hst; [done|].
    cbn [fold_left]. apply IH; [intros; apply Hres; by right|]. apply quiet_apply; [done|]. apply Hres. by left.
Qed.

(** The states of a loop all of whose nodes end. *)
Lemma quiet_loop fuel i s o s' batches :
  quiet s -> all_set (st_statuses s) -> (forall id, id ∈ dom (st_statuses s) -> id ∈ node_ids definition) ->
  run_loop context definition fuel i s = Some (o, s', batches) ->
  quiet s' /\ all_set (st_statuses s') /\ (forall id, id ∈ dom (st_statuses s') -> id ∈ node_ids definition) /\
  (o = Drained /\ length (Def_Nodes definition) <= size (st_statuses s') \/ o = Blocked).
Proof.
  revert i s batches. induction fuel as [|fuel IH]; intros i s batches Hq Hs Hd; cbn [run_loop].
  all: destruct (size (st_statuses s) <? length (Def_Nodes definition)) eqn:Hsize; cbn [negb].
  - discriminate.
  - intros [= <- <- _]. apply Nat.ltb_ge in Hsize. auto 10.
  - destruct (round context definition i s) as [[o1 s1] batch] eqn:Hr.
    destruct (quiet_round i s o1 s1 batch Hq Hr) as [Hq1 Ho].
    destruct (round_sound context definition i s o1 s1 batch Hs Hr) as [Hspec _]; [by destruct Ho as [-> | ->]|].
    assert (forall id, id ∈ dom (st_statuses s1) -> id ∈ node_ids definition) as Hd1.
    { intros id [Hid|Hid]%(rs_new _ _ _ _ Hspec); [by apply Hd|by apply elem_of_list_to_set]. }
    destruct Ho as [-> | ->].
    + destruct (run_loop context definition fuel (S i) s1) as [[[o' s2] bs]|] eqn:Hl; [|discriminate].
      intros [= <- <- _]. eapply IH; [exact Hq1|by apply (rs_set _ _ _ _ Hspec)|exact Hd1|exact Hl].
    + intros [= <- <- _]. split_and!; [done|by apply (rs_set _ _ _ _ Hspec)|done|by right].
  - intros [= <- <- _]. apply Nat.ltb_ge in Hsize. auto 10.
Qed.

(** A run that starts fresh. *)
Lemma quiet_start run :
  collectNodeStatuses (restoreNodeRuns definition (Run_NodeRuns run)) = ∅ ->
  quiet (start definition (clock 0) (newDAGRunState definition run)).
Proof.
  intros Hemp. apply quiet_persist, quiet_set_run. split; cbn [newDAGRunState st_statuses st_nodeRuns].
  - intros id x. by rewrite Hemp, lookup_empty.
  - intros id e He. unfold collectNodeStatuses in Hemp.
    assert (filter (fun '(_, status) => status <> "" /\ status <> "pending")
      (NodeRun_Status <$> restoreNodeRuns definition (Run_NodeRuns run)) !! id = None) as Hn
      by by rewrite Hemp, lookup_empty.
    rewrite map_lookup_filter_None, lookup_fmap, He in Hn. destruct Hn as [|Hn]; [done|].
    specialize (Hn _ eq_refl). apply elem_of_app. left.
    destruct (decide (NodeRun_Status e = "")) as [->|?]; [by left|]. right.
    destruct (decide (NodeRun_Status e = "pending")) as [->|?]; [by left|]. by destruct Hn.
Qed.
End quiet_engine.

Lemma ended_not_waiting x :
  x ∈ ended_statuses -> x ∉ ["pending"; "running"; workflowStatusWaitingApproval; workflowStatusWaitingExecution].
Proof.
  revert x. apply Forall_forall. apply (bool_decide_unpack _). vm_compute. exact I.
Qed.

(** When no node is left, every node has a status. *)
Lemma drained_status definition (st : gmap string string) n :
  NoDup (Node_ID <$> Def_Nodes definition) -> (forall id, id ∈ dom st -> id ∈ node_ids definition) ->
  length (Def_Nodes definition) <= size st -> n ∈ Def_Nodes definition -> is_Some (st !! Node_ID n).
Proof.
  intros Hnd Hd Hsize Hn. apply elem_of_dom.
  assert (dom st = node_ids definition) as ->; [|apply elem_of_list_to_set; by apply list_elem_of_fmap_2].
  apply set_subseteq_size_eq; [exact Hd|]. unfold node_ids.
  by rewrite size_list_to_set, length_fmap, size_dom by done.
Qed.

Lemma run_dag_loop `{EngineEnv} context definition run :
  exists o s batches, run_loop context definition (loop_fuel definition) 0
    (start definition (clock 0) (newDAGRunState definition run)) = Some (o, s, batches).
Proof.
  destruct (initial_statuses definition run) as [Hs Hd].
  destruct (run_loop_terminates context definition (loop_fuel definition) 0 _ Hs Hd) as [[[o s] batches] ->]; [|eauto].
  apply loop_fuel_enough.
Qed.

(** ** Properties *)

(** A run of an accepted template ends blocked only when some node was left
    between its start and its outcome (a run resumed in the middle of a node, or
    a handler that answers with such a status): dependencies alone never block
    it. *)
Theorem accepted_run_blocked_waits `{EngineEnv, MapRange} context definition parsed run s batches :
  validateApplicationWorkflowDefinition definition = Ok tt ->
  parseDAGWorkflowDefinition definition = Some parsed ->
  run_dag context parsed run = Some (Blocked, s, batches) ->
  exists n, n ∈ Def_Nodes parsed /\ status_of (st_statuses s) (Node_ID n) ∈
    ["pending"; "running"; workflowStatusWaitingApproval; workflowStatusWaitingExecution].
Proof.
  intros Hv Hp Hr. pose proof (accepted_definition _ _ Hv Hp) as Hg.
  destruct (initial_statuses parsed run) as [Hs Hd]. unfold run_dag in Hr.
  destruct (run_loop _ _ _ _ _) as [[[o s1] bs]|] eqn:Hl; [|done].
  destruct o; simplify_eq. destruct (run_loop_blocked _ _ _ _ _ _ _ Hs Hd Hl) as (Hset & Hsize & Hstuck).
  destruct (blocked_waits _ _ Hg Hset Hsize Hstuck) as (n & Hn & Hw). exists n. split; [done|].
  rewrite (status_of_subseteq (st_statuses s1)); [exact Hw|by apply finish_statuses|].
  intros He. unfold waits in Hw. rewrite He in Hw. revert Hw. apply (bool_decide_unpack _). vm_compute. exact I.
Qed.

(** A run that was resumed while [build] was being executed. *)
Definition interrupted_run : Run :=
  set_Run "running" [] [set_NodeRun_progress "running" "" "" "" (initial_entry (worker_node "build"))] ∅ "" new_run.

Lemma accepted_run_blocked_waits_witness :
  exists parsed s batches, parseDAGWorkflowDefinition template_definition = Some parsed /\
    run_dag empty_context parsed interrupted_run = Some (Blocked, s, batches) /\
    exists n, n ∈ Def_Nodes parsed /\ status_of (st_statuses s) (Node_ID n) ∈
      ["pending"; "running"; workflowStatusWaitingApproval; workflowStatusWaitingExecution].
Proof.
  destruct (parseDAGWorkflowDefinition template_definition) as [parsed|] eqn:Hp; [|vm_compute in Hp; discriminate Hp].
  assert (option_map (fun r => r.1.1)
    (parseDAGWorkflowDefinition template_definition ≫= fun d => run_dag empty_context d interrupted_run) =
    Some Blocked) as Ho by (vm_compute; reflexivity).
  rewrite Hp in Ho. cbn [mbind option_bind] in Ho.
  destruct (run_dag empty_context parsed interrupted_run) as [[[o s] batches]|] eqn:Hr; [|discriminate Ho].
  injection Ho as ->. exists parsed, s, batches. split; [reflexivity|]. split; [exact Hr|].
  apply (accepted_run_blocked_waits empty_context template_definition parsed interrupted_run s batches);
    [vm_compute; reflexivity|exact Hp|exact Hr].
Defined.

(** A fresh run of an accepted template that is not canceled, and whose
    handlers end every node, drains: it reaches an outcome for every node. *)
Theorem accepted_run_drains `{EngineEnv, MapRange} context definition parsed run :
  validateApplicationWorkflowDefinition definition = Ok tt ->
  parseDAGWorkflowDefinition definition = Some parsed ->
  collectNodeStatuses (restoreNodeRuns parsed (Run_NodeRuns run)) = ∅ ->
  (forall i, ctx_err i = None) ->
  (forall i node run artifacts, node ∈ Def_Nodes parsed ->
     result_status (dispatch i node run artifacts) ∈ ["completed"; "failed"; "skipped"]) ->
  exists s batches, run_dag context parsed run = Some (Drained, s, batches) /\
    forall n, n ∈ Def_Nodes parsed ->
      status_of (st_statuses s) (Node_ID n) ∈ ["completed"; "failed"; "skipped"].
Proof.
  intros Hv Hp Hfresh Hctx Hended. pose proof (accepted_definition _ _ Hv Hp) as Hg.
  destruct (initial_statuses parsed run) as [Hs Hd].
  destruct (run_dag_loop context parsed run) as (o & s1 & bs & Hl).
  destruct (quiet_loop context parsed Hended Hctx _ _ _ _ _ _ (quiet_start parsed run Hfresh) Hs Hd Hl)
    as (Hq & Hset & Hdom & Ho).
  destruct Ho as [[-> Hsize]| ->].
  - unfold run_dag. rewrite Hl. eexists _, _. split; [reflexivity|]. intros n Hn.
    destruct (drained_status parsed (st_statuses s1) n (ag_ids _ Hg) Hdom Hsize Hn) as [x Hx].
    assert (status_of (st_statuses s1) (Node_ID n) = x) as Hst by (unfold status_of, lookup_default; by rewrite Hx).
    rewrite (status_of_subseteq (st_statuses s1)); [rewrite Hst; by eapply quiet_statuses|by apply finish_statuses|].
    rewrite Hst. by eapply Hset.
  - exfalso. destruct (run_loop_blocked _ _ _ _ _ _ _ Hs Hd Hl) as (_ & Hsize & Hstuck).
    destruct (blocked_waits _ _ Hg Hset Hsize Hstuck) as (n & Hn & Hw). unfold waits, status_of, lookup_default in Hw.
    destruct (st_statuses s1 !! Node_ID n) as [x|] eqn:Hx; simpl in Hw.
    + apply (quiet_statuses _ Hq) in Hx. by apply ended_not_waiting in Hx.
    + revert Hw. apply (bool_decide_unpack _). vm_compute. exact I.
Qed.

Lemma accepted_run_drains_witness :
  exists parsed s batches, parseDAGWorkflowDefinition template_definition = Some parsed /\
    run_dag empty_context parsed new_run = Some (Drained, s, batches).
Proof.
  destruct (parseDAGWorkflowDefinition template_definition) as [parsed|] eqn:Hp; [|vm_compute in Hp; discriminate Hp].
  destruct (accepted_run_drains empty_context template_definition parsed new_run) as (s & batches & Hr & _).
  - vm_compute. reflexivity.
  - exact Hp.
  - vm_compute in Hp. injection Hp as <-. vm_compute. reflexivity.
  - reflexivity.
  - intros. left.
  - exists parsed, s, batches. split; [reflexivity|exact Hr].
Defined.
