(* ===== verification/WorkflowNode.v ===== *)
(** * Workflow nodes: retries, artifacts and dispatch

    The execution of one node of a workflow: the retry policy
    (dag_node_policy.go), the registry of handlers (dag_node_registry.go),
    inputs (dag_resolution.go), artifacts and the metadata kept of a result
    (dag_artifact.go), and the dispatcher (dag_node_dispatcher.go), all in
    [internal/application/workflow].  What a handler does, the state of the
    context around each attempt, selectors and the artifact store are the
    interface [NodeWorld].  The dispatcher discharges the contract that the
    engine's theorems assume of [EngineEnv]. *)

From Stdlib Require Import Ascii.
From stdpp Require Import pretty.
From S2P Require Import Prelude GoStrings WorkflowModel WorkflowState WorkflowValidation WorkflowTemplate WorkflowWorkers WorkflowEngine WorkflowProgress.

(** ** Execution policies *)

Definition time_Second : Z := 10 ^ 9.
Definition time_Millisecond : Z := 10 ^ 6.

Definition defaultDAGNodeTimeout : Z := 300 * time_Second.

Record dagNodeExecutionPolicy := {
  policy_timeout : Z;
  policy_maxAttempts : Z;
  policy_retryDelay : Z
}.

Definition dagNodePolicy (node : dagWorkflowNode) : dagNodeExecutionPolicy :=
  let config := Node_Config node in
  let configured := toInt (get config "timeoutSeconds") 0 in
  let timeoutSeconds := if (0 <? configured)%Z then configured else Node_TimeoutSeconds node in
  let timeout := wrap64 (timeoutSeconds * time_Second) in
  let retry := toConfigMap (get config "retry") in
  let maxAttempts := firstPositiveInt [toInt (get retry "maxAttempts") 0; toInt (get config "retryMaxAttempts") 0; 1%Z] in
  let maxRetries := toInt (get config "maxRetries") (-1) in
  let delayMilliseconds := firstPositiveInt [toInt (get retry "delayMilliseconds") 0; toInt (get config "retryDelayMilliseconds") 0] in
  let retryDelay := wrap64 (delayMilliseconds * time_Millisecond) in
  {| policy_timeout := if (timeout <=? 0)%Z then defaultDAGNodeTimeout else timeout;
     policy_maxAttempts := if (0 <=? maxRetries)%Z then wrap64 (maxRetries + 1) else maxAttempts;
     policy_retryDelay :=
       if (retryDelay <=? 0)%Z
       then wrap64 (firstPositiveInt [toInt (get retry "delaySeconds") 0; toInt (get config "retryDelaySeconds") 0] * time_Second)
       else retryDelay |}.

(** ** Handlers *)

Record dagNodeHandlerResult := {
  handler_status : string;
  handler_summary : string;
  handler_outputs : go_map;
  handler_events : list go_map;
  handler_err : option string
}.

Definition completedDAGNode (summary : string) : dagNodeHandlerResult :=
  {| handler_status := "completed"; handler_summary := summary; handler_outputs := ∅; handler_events := []; handler_err := None |}.

Definition skippedDAGNode (summary : string) : dagNodeHandlerResult :=
  {| handler_status := "skipped"; handler_summary := summary; handler_outputs := ∅; handler_events := []; handler_err := None |}.

Definition failedDAGNode (err : string) : dagNodeHandlerResult :=
  {| handler_status := "failed"; handler_summary := err; handler_outputs := ∅; handler_events := []; handler_err := Some err |}.

Definition set_handler (status : string) (events : list go_map) (r : dagNodeHandlerResult) : dagNodeHandlerResult :=
  {| handler_status := status; handler_summary := handler_summary r; handler_outputs := handler_outputs r;
     handler_events := events; handler_err := handler_err r |}.

(** The handlers of the registry. *)
Inductive dagNodeHandler :=
| externalDAGNodeHandler
| manualApprovalDAGNodeHandler
| releaseDAGNodeHandler
| buildDAGNodeHandler
| rolloutDAGNodeHandler
| checkDAGNodeHandler
| k8sEventDAGNodeHandler
| rollbackDAGNodeHandler
| restartDAGNodeHandler
| scaleDAGNodeHandler
| deletePodDAGNodeHandler
| callbackDAGNodeHandler
| silenceDAGNodeHandler
| notifyDAGNodeHandler
| unsupportedDAGNodeHandler.

Definition register (nodeTypes : list string) (handler : dagNodeHandler) (handlers : gmap string dagNodeHandler)
    : gmap string dagNodeHandler :=
  fold_left (fun handlers nodeType => <[TrimSpace nodeType := handler]> handlers) nodeTypes handlers.

Definition newDAGNodeHandlerRegistry : gmap string dagNodeHandler :=
  register ["notify"] notifyDAGNodeHandler (register ["create_silence"] silenceDAGNodeHandler
  (register ["http_callback"] callbackDAGNodeHandler (register ["delete_pod"; "evict_pod"] deletePodDAGNodeHandler
  (register ["scale_workload"] scaleDAGNodeHandler (register ["restart_workload"] restartDAGNodeHandler
  (register ["rollback_to_previous"] rollbackDAGNodeHandler (register ["check_k8s_event"] k8sEventDAGNodeHandler
  (register ["check_http"; "smoke_test"; "verify"; "check"] checkDAGNodeHandler
  (register ["wait_rollout"] rolloutDAGNodeHandler (register ["build"] buildDAGNodeHandler
  (register ["deploy_update_image"; "release"] releaseDAGNodeHandler
  (register ["manual_approval"] manualApprovalDAGNodeHandler (register ["external"] externalDAGNodeHandler ∅))))))))))))).

Definition registry_handler (registry : gmap string dagNodeHandler) (nodeType : string) : dagNodeHandler :=
  default unsupportedDAGNodeHandler (registry !! TrimSpace nodeType).

#[export] Instance dagNodeHandler_eq_dec : EqDecision dagNodeHandler.
Proof. solve_decision. Defined.

(** What a handler is given; the principal, the application, the input and the
    binding are fixed for a run and part of the world. *)
Record dagNodeExecutionInput := {
  exec_node : dagWorkflowNode;
  exec_run : Run;
  exec_resolvedInputs : go_map;
  exec_selectors : go_map;
  exec_artifactState : go_map
}.

Definition manualApproval_execute (input : dagNodeExecutionInput) : dagNodeHandlerResult :=
  set_handler workflowStatusWaitingApproval [] (completedDAGNode "waiting for approval").

Definition unsupported_execute (input : dagNodeExecutionInput) : dagNodeHandlerResult :=
  skippedDAGNode ("node type " +:+ Node_Type (exec_node input) +:+ " is not executable yet").

(** The world around one attempt: the error of the context before it, what the
    handler returned, whether the attempt's own context ran out of time or was
    canceled, the error of the context after it, and the error of the context
    if it ended during the delay before the next attempt. *)
Record attempt_world := {
  ctx_before : option string;
  handled : dagNodeHandlerResult;
  timed_out : bool;
  attempt_canceled : bool;
  ctx_after : option string;
  ctx_waiting : option string
}.

(** The result of one attempt before a status is filled in. *)
Definition attempt_result (duration_text : Z -> string) (timeout : Z) (w : attempt_world) : dagNodeHandlerResult :=
  if timed_out w then failedDAGNode ("node timed out after " +:+ duration_text timeout)
  else match ctx_after w with
  | Some err => if attempt_canceled w then failedDAGNode err else handled w
  | None => handled w
  end.

Definition completed_status (r : dagNodeHandlerResult) : dagNodeHandlerResult :=
  set_handler (if str_empty (handler_status r) then "completed" else handler_status r) (handler_events r) r.

Definition retry_event (attempt maxAttempts : Z) (r : dagNodeHandlerResult) : go_map :=
  {[ "type" := AString "node_retry_scheduled"; "attempt" := AInt attempt; "maxAttempts" := AInt maxAttempts;
     "summary" := AString (handler_summary r) ]}.

(** The attempts from number [attempt] on, with the retry events so far; also
    how many attempts were made.  The fuel is the number of attempts left. *)
Fixpoint attempt_loop (duration_text : Z -> string) (timeout maxAttempts retryDelay : Z) (world : Z -> attempt_world)
    (fuel : nat) (attempt : Z) (retryEvents : list go_map) : dagNodeHandlerResult * nat :=
  match fuel with
  | O => (failedDAGNode "node execution exhausted retry policy", 0)
  | S fuel =>
      let w := world attempt in
      match ctx_before w with
      | Some err => (set_handler "failed" retryEvents (failedDAGNode err), 0)
      | None =>
          let result := completed_status (attempt_result duration_text timeout w) in
          if negb (String.eqb (handler_status result) "failed") || (attempt =? maxAttempts)%Z || bool_decide (is_Some (ctx_after w))
          then (set_handler (handler_status result) (retryEvents ++ handler_events result) result, 1)
          else
            let retryEvents := retryEvents ++ [retry_event attempt maxAttempts result] in
            match (if (0 <? retryDelay)%Z then ctx_waiting w else None) with
            | Some err => (set_handler "failed" retryEvents (failedDAGNode err), 1)
            | None =>
                let '(result, n) := attempt_loop duration_text timeout maxAttempts retryDelay world fuel (attempt + 1) retryEvents in
                (result, S n)
            end
      end
  end.

(** The largest capacity of a slice of maps that [make] accepts: 48 bits of
    address space for elements of 8 bytes. *)
Definition max_capacity : Z := 2 ^ 45.

(** [execute]; [None] is the panic of [make] on a capacity out of range. *)
Definition policy_execute (duration_text : Z -> string) (p : dagNodeExecutionPolicy) (world : Z -> attempt_world)
    : option (dagNodeHandlerResult * nat) :=
  let timeout := if (policy_timeout p <=? 0)%Z then defaultDAGNodeTimeout else policy_timeout p in
  let maxAttempts := if (policy_maxAttempts p <=? 0)%Z then 1%Z else policy_maxAttempts p in
  if (max_capacity <? maxAttempts - 1)%Z then None
  else Some (attempt_loop duration_text timeout maxAttempts (policy_retryDelay p) world (Z.to_nat maxAttempts) 1 []).

(** ** Inputs *)

(** The further fields of the input and the binding that inputs read. *)
Record ResolveContext := {
  resolve_run : RunContext;
  Input_BuildSourceID : string;
  Input_ImageTag : string;
  BuildPolicy_SourceID : string;
  Binding_ID : string
}.

Definition string_map (entries : list (string * string)) : any := AMap (list_to_map (prod_map id AString <$> entries)).

Definition resolveDAGInputReference (ref : string) (c : ResolveContext) (artifactState : go_map) : option any :=
  let r := resolve_run c in
  let refName := firstNonEmpty [Input_RefName r; BuildPolicy_RefValue r; App_DefaultBranch r; "main"] in
  match artifactState !! ref with
  | Some value => Some value
  | None =>
  match find_first (fun part => bool_decide (is_Some (artifactState !! TrimSpace part))) (split_byte "."%char ref) with
  | Some part => artifactState !! TrimSpace part
  | None =>
      if String.eqb ref "source" then
        Some (string_map [("refType", firstNonEmpty [Input_RefType r; BuildPolicy_RefType r; "branch"]);
          ("refName", refName); ("buildSourceId", firstNonEmpty [Input_BuildSourceID c; BuildPolicy_SourceID c])])
      else if contains ["application"; "app"] ref then
        Some (string_map [("id", App_ID r); ("key", App_Key r); ("name", App_Name r)])
      else if contains ["applicationId"; "application.id"; "app.id"] ref then Some (AString (App_ID r))
      else if contains ["branch"; "ref"; "refName"] ref then Some (AString refName)
      else if contains ["image"; "imageTag"] ref then Some (AString (Input_ImageTag c))
      else if contains ["environment"; "applicationEnvironment"] ref then
        Some (string_map [("id", Binding_ID c); ("environmentId", Context_EnvironmentID r); ("environmentKey", Context_EnvironmentKey r)])
      else if String.eqb ref "environmentId" then Some (AString (Context_EnvironmentID r))
      else if String.eqb ref "environmentKey" then Some (AString (Context_EnvironmentKey r))
      else if String.eqb ref "target" then
        Some (string_map [("clusterId", Input_ClusterID r); ("namespace", Input_Namespace r); ("workloadName", Input_DeploymentName r)])
      else if contains ["cluster"; "clusterId"] ref then Some (AString (Input_ClusterID r))
      else if String.eqb ref "namespace" then Some (AString (Input_Namespace r))
      else if contains ["deployment"; "deploymentName"] ref then Some (AString (Input_DeploymentName r))
      else match (if HasPrefix ref "variables." then Input_Variables r !! TrimPrefix ref "variables." else None) with
      | Some value => Some value
      | None => Input_Variables r !! ref
      end
  end end.

Definition resolveDAGNodeInputs (node : dagWorkflowNode) (c : ResolveContext) (artifactState : go_map) : go_map :=
  fold_left (fun resolved ref =>
    let ref := TrimSpace ref in
    if str_empty ref then resolved
    else match resolveDAGInputReference ref c artifactState with
    | Some value => <[ref := value]> resolved
    | None => resolved
    end) (Node_Inputs node) ∅.

(** ** Artifacts *)

Definition firstArtifactValue (name kind : string) (outputs artifactState : go_map) : any :=
  let look key := if str_empty key then None
    else match outputs !! key with Some value => Some value | None => artifactState !! key end in
  match look name with
  | Some value => value
  | None => default ANil (look kind)
  end.

(** Fields of [source] that are set, copied into [m]. *)
Definition copy_fields (source : go_map) (keys : list string) (m : go_map) : go_map :=
  fold_left (fun m key =>
    match source !! key with
    | Some raw => if is_nil raw then m else <[key := raw]> m
    | None => m
    end) keys m.

(** The record of one artifact. *)
Definition artifact_record (node : dagWorkflowNode) (artifact : go_map) (name kind status : string) (value : any) : go_map :=
  let base : go_map := {[ "name" := AString name; "kind" := AString kind; "value" := value; "nodeId" := AString (Node_ID node) ]} in
  let base := copy_fields artifact ["ref"; "digest"; "path"; "retentionUntil"; "retention"] base in
  if str_empty status then base else <["status" := AString status]> base.

Fixpoint materialize_each (node : dagWorkflowNode) (outputs artifactState : go_map) (status : string)
    (declared : list go_map) (artifacts : go_map) : go_map + string :=
  match declared with
  | [] => inl artifacts
  | artifact :: declared =>
      let name := TrimSpace (Sprint (get artifact "name")) in
      let kind := TrimSpace (Sprint (get artifact "kind")) in
      if str_empty name || negb (isAllowedDeliveryArtifactKind kind)
      then materialize_each node outputs artifactState status declared artifacts
      else
        let value := firstArtifactValue name kind outputs artifactState in
        if is_nil value && toBool (get artifact "required") && String.eqb status "completed"
        then inr ("required artifact output " +:+ name +:+ " (" +:+ kind +:+ ") is missing")
        else if is_nil value then materialize_each node outputs artifactState status declared artifacts
        else
          let record := AMap (artifact_record node artifact name kind status value) in
          let artifacts := <[name := record]> artifacts in
          materialize_each node outputs artifactState status declared
            (if String.eqb kind name then artifacts else <[kind := record]> artifacts)
  end.

Definition materializeDAGArtifactOutputs (node : dagWorkflowNode) (outputs artifactState : go_map) (status : string)
    : go_map + string :=
  materialize_each node outputs artifactState status (Node_ArtifactOutputs node) ∅.

(** *** Metadata kept of artifacts *)

Definition artifactValue (value : any) (key : string) : any :=
  match value with AMap mapped => get mapped key | _ => ANil end.

Definition artifactValueString (value : any) (key : string) : string :=
  let raw := artifactValue value key in
  if is_nil raw then ""
  else let text := TrimSpace (Sprint raw) in if String.eqb text "<nil>" then "" else text.

(** The short form of a record: its descriptive fields, completed from its value. *)
Definition lightweight_record (key : string) (recordMap : go_map) : go_map :=
  let fields := copy_fields recordMap ["id"; "kind"; "name"; "ref"; "digest"; "path"; "status"; "workflowRunId";
    "workflowNodeId"; "nodeId"; "retentionUntil"; "retention"] ∅ in
  let complete field (m : go_map) (text : string) :=
    if is_nil (get m field) && negb (str_empty text) then <[field := AString text]> m else m in
  let fields :=
    match recordMap !! "value" with
    | None => fields
    | Some raw =>
        let ref := artifactValueString raw "ref" in
        let printed := TrimSpace (Sprint raw) in
        let ref := if negb (str_empty ref) then ref else if String.eqb printed "<nil>" then "" else printed in
        complete "path" (complete "digest" (complete "ref" fields ref) (artifactValueString raw "digest"))
          (artifactValueString raw "path")
    end in
  if bool_decide (fields = ∅) then ∅
  else if is_nil (get fields "name") && negb (str_empty (TrimSpace key)) then <["name" := AString (TrimSpace key)]> fields
  else fields.

(** A record that carries references is replaced by the reference under its
    own key.  The reference is the one that the loop meets last in the order of
    keys when several keys differ only by white space. *)
Fixpoint metadataDAGArtifactValue (key : string) (value : any) : any :=
  match value with
  | AMap recordMap =>
      let reference := map_fold (fun k x acc =>
        if String.eqb k "artifactReferences" then
          match x with
          | AMap references => map_fold (fun refKey refValue found =>
              if String.eqb (TrimSpace refKey) (TrimSpace key) then Some (metadataDAGArtifactValue refKey refValue) else found)
              None references
          | _ => None
          end
        else acc) None recordMap in
      match reference with
      | Some short => short
      | None =>
          let lightweight := lightweight_record key recordMap in
          if bool_decide (lightweight = ∅) then value else AMap lightweight
      end
  | _ => value
  end.

Definition metadata_each (m : go_map) : go_map := map_imap (fun key value => Some (metadataDAGArtifactValue key value)) m.

Definition metadataDAGInputState (inputs : go_map) : go_map := metadata_each inputs.

Definition metadataDAGOutputState (outputs : go_map) : go_map :=
  map_imap (fun key value => Some (if String.eqb key "artifactReferences" then value else metadataDAGArtifactValue key value)) outputs.

Definition metadataDAGArtifactReferences (outputs : go_map) : go_map :=
  match get outputs "artifactReferences" with AMap references => metadata_each references | _ => ∅ end.

Definition artifact_state_metadata (artifactState : go_map) : go_map :=
  metadataDAGArtifactReferences artifactState ∪ metadata_each (delete "artifactReferences" artifactState).

Definition execution_result_metadata (result : dagExecutionResult) : go_map :=
  let references := metadataDAGArtifactReferences (result_outputs result) in
  {[ "inputs" := AMap (metadataDAGInputState (result_inputs result));
     "outputs" := AMap (references ∪ metadataDAGOutputState (result_outputs result));
     "artifacts" := AMap (references ∪ artifact_state_metadata (result_artifacts result));
     "selectors" := AMap (result_selectors result); "status" := AString (result_status result);
     "summary" := AString (result_summary result) ]}.

(** ** Dispatch *)

(** What the artifact store answers. *)
Record StoredArtifact := {
  Stored_ID : string;
  Stored_Kind : string;
  Stored_Name : string;
  Stored_Ref : string;
  Stored_Digest : string;
  Stored_Path : string;
  Stored_Status : string;
  Stored_WorkflowRunID : string;
  Stored_WorkflowNodeID : string
}.

(** The world of the nodes of a run: attempts of handlers, the text of a
    duration, the resolution of selectors, nodes of delivery batches, and the
    artifact store ([None] when there is none). *)
Class NodeWorld := {
  world_attempts : dagNodeHandler -> dagNodeExecutionInput -> Z -> attempt_world;
  duration_text : Z -> string;
  world_context : ResolveContext;
  resolveSelectors : dagWorkflowNode -> go_map * option string;
  executeDeliveryNode : dagWorkflowNode -> Run -> dagExecutionResult;
  UpsertExecutionArtifact : option (dagWorkflowNode -> Run -> go_map -> string -> result StoredArtifact)
}.

Definition stored_reference (stored : StoredArtifact) : any :=
  string_map [("id", Stored_ID stored); ("kind", Stored_Kind stored); ("name", Stored_Name stored); ("ref", Stored_Ref stored);
    ("digest", Stored_Digest stored); ("path", Stored_Path stored); ("status", Stored_Status stored);
    ("workflowRunId", Stored_WorkflowRunID stored); ("workflowNodeId", Stored_WorkflowNodeID stored)].

(** The loop over the artifacts, with the references and the names seen so far. *)
Definition persist_one (upsert : go_map -> result StoredArtifact) (artifacts : go_map)
    (acc : go_map * gset string) (key : string) : go_map * gset string :=
  let '(references, seen) := acc in
  match artifacts !! key with
  | Some (AMap recordMap) =>
      let name := firstNonEmpty [workflowMetadataString recordMap "name"; key] in
      let kind := workflowMetadataString recordMap "kind" in
      if str_empty name || str_empty kind then acc
      else if bool_decide (kind +:+ ":" +:+ name ∈ seen) then acc
      else
        let seen := {[ kind +:+ ":" +:+ name ]} ∪ seen in
        match upsert recordMap with
        | Err _ => (references, seen)
        | Ok stored => (<[name := stored_reference stored]> references, seen)
        end
  | _ => acc
  end.

Definition persistDAGArtifactOutputs `{MapRange, NodeWorld} (node : dagWorkflowNode) (run : Run) (artifacts : go_map)
    (status : string) : go_map :=
  match UpsertExecutionArtifact with
  | None => ∅
  | Some upsert =>
      if bool_decide (artifacts = ∅) || str_empty (Run_ID run) then ∅
      else fst (fold_left (persist_one (fun recordMap => upsert node run recordMap status) artifacts)
                  (range_keys (dom artifacts)) (∅, ∅))
  end.

(** Outputs declared by the node that earlier nodes left in the artifact state. *)
Definition inherit_outputs (node : dagWorkflowNode) (artifactState outputs : go_map) : go_map :=
  fold_left (fun outputs outputName =>
    let outputName := TrimSpace outputName in
    if str_empty outputName then outputs
    else match outputs !! outputName with
    | Some _ => outputs
    | None => match artifactState !! outputName with Some value => <[outputName := value]> outputs | None => outputs end
    end) (Node_Outputs node) outputs.

Definition event (entries : list (string * any)) : go_map := list_to_map entries.

(** The last part of the dispatcher: continuation after a failure, artifacts
    and inherited outputs. *)
Definition conclude_node `{MapRange, NodeWorld} (node : dagWorkflowNode) (run : Run) (resolvedInputs selectors artifactState : go_map)
    (events : list go_map) (result : dagNodeHandlerResult) : dagExecutionResult :=
  let events := events ++ handler_events result in
  let continued := String.eqb (handler_status result) "failed" && Node_ContinueOnFailure node in
  let summary := if continued then "continued after failure: " +:+ handler_summary result else handler_summary result in
  let status := if continued then "completed" else handler_status result in
  let events := if String.eqb status "failed" && String.eqb (effectiveDAGFailurePolicy node) "continue"
    then events ++ [event [("type", AString "node_failure_continued"); ("originalStatus", AString "failed"); ("summary", AString summary)]]
    else events in
  let '(status, summary, outputs, artifactOutputs, events) :=
    if is_empty (Node_ArtifactOutputs node) then (status, summary, handler_outputs result, ∅, events)
    else match materializeDAGArtifactOutputs node (handler_outputs result) artifactState status with
    | inr err =>
        ("failed", err, ∅, ∅, events ++ [event [("type", AString "artifact_outputs_missing"); ("error", AString err)]])
    | inl artifactOutputs =>
        let outputs := artifactOutputs ∪ handler_outputs result in
        if bool_decide (artifactOutputs = ∅) then (status, summary, outputs, artifactOutputs, events)
        else
          let events := events ++ [event [("type", AString "artifact_outputs_recorded");
            ("artifacts", AMap (artifact_state_metadata artifactOutputs))]] in
          let references := persistDAGArtifactOutputs node run artifactOutputs status in
          if bool_decide (references = ∅) then (status, summary, outputs, artifactOutputs, events)
          else (status, summary, <["artifactReferences" := AMap references]> outputs, artifactOutputs,
                events ++ [event [("type", AString "artifact_outputs_persisted"); ("artifacts", AMap references)]])
    end in
  newDAGExecutionResult node status summary resolvedInputs (inherit_outputs node artifactState outputs) artifactOutputs selectors
    (events ++ [event [("type", AString "node_finished"); ("status", AString status); ("summary", AString summary)]]).

(** The execution of a node of a release run; [None] is a panic of the retry policy. *)
Definition execute_node `{MapRange, NodeWorld} (node : dagWorkflowNode) (run : Run) (artifactState : go_map)
    : option dagExecutionResult :=
  let resolvedInputs := resolveDAGNodeInputs node world_context artifactState in
  let '(selectors, selectorErr) := resolveSelectors node in
  let events := [event [("type", AString "node_inputs_resolved"); ("inputs", AMap (metadataDAGInputState resolvedInputs))]] ++
    (if bool_decide (selectors = ∅) then []
     else [event [("type", AString "node_selectors_resolved"); ("selectors", AMap selectors)]]) in
  match selectorErr with
  | Some err => Some (newDAGExecutionResult node "failed" err resolvedInputs ∅ ∅ selectors
      (events ++ [event [("type", AString "node_selector_resolution_failed"); ("error", AString err)]]))
  | None =>
      let input := {| exec_node := node; exec_run := run; exec_resolvedInputs := resolvedInputs;
                      exec_selectors := selectors; exec_artifactState := artifactState |} in
      '(result, _) ← policy_execute duration_text (dagNodePolicy node)
        (world_attempts (registry_handler newDAGNodeHandlerRegistry (Node_Type node)) input);
      Some (conclude_node node run resolvedInputs selectors artifactState events result)
  end.

(** [dagNodeDispatcher.execute]. *)
Definition dispatcher_execute `{MapRange, NodeWorld} (node : dagWorkflowNode) (run : Run) (artifactState : go_map)
    : option dagExecutionResult :=
  if String.eqb (Run_Scope run) ScopeDeliveryBatch then Some (executeDeliveryNode node run)
  else execute_node node run artifactState.

(** ** Lemmas on the retry policy *)

Section attempts.
Context (duration_text : Z -> string) (timeout maxAttempts retryDelay : Z) (world : Z -> attempt_world).

(** The result of attempt [k] as the policy sees it. *)
Definition attempted (k : Z) : dagNodeHandlerResult := completed_status (attempt_result duration_text timeout (world k)).

Definition retry_events (first : Z) (n : nat) : list go_map :=
  (fun k => retry_event k maxAttempts (attempted k)) <$> seqZ first (Z.of_nat n).

(** The result reported when the policy stops at attempt [k]. *)
Definition reported (events : list go_map) (k : Z) : dagNodeHandlerResult :=
  set_handler (handler_status (attempted k)) (events ++ handler_events (attempted k)) (attempted k).

(** A context that does not end. *)
Definition calm (w : attempt_world) : Prop := ctx_before w = None /\ ctx_after w = None /\ ctx_waiting w = None.

Lemma attempted_status k : handler_status (attempted k) <> "".
Proof.
  unfold attempted, completed_status. cbn. destruct (str_empty _) eqn:E; [done|].
  intros Hs. rewrite Hs in E. done.
Qed.

Lemma retry_events_S first n :
  retry_events first (S n) = retry_event first maxAttempts (attempted first) :: retry_events (first + 1) n.
Proof. unfold retry_events. by rewrite seqZ_cons by lia; replace (Z.pred (Z.of_nat (S n))) with (Z.of_nat n) by lia. Qed.

(** What the loop from attempt [attempt] on reports, after [n] attempts. *)
Record attempts_spec (fuel : nat) (attempt : Z) (events : list go_map) (result : dagNodeHandlerResult) (n : nat) : Prop := {
  spec_bound : n <= fuel;
  spec_retried k : (attempt <= k < attempt + Z.of_nat n - 1)%Z ->
    handler_status (attempted k) = "failed" /\ ctx_before (world k) = None /\ ctx_after (world k) = None;
  spec_status : handler_status result <> "";
  spec_last : handler_status result <> "failed" ->
    0 < n /\ result = reported (events ++ retry_events attempt (n - 1)) (attempt + Z.of_nat n - 1);
  spec_calm : (forall k, (attempt <= k <= maxAttempts)%Z -> calm (world k)) ->
    0 < n /\ result = reported (events ++ retry_events attempt (n - 1)) (attempt + Z.of_nat n - 1) /\
    (handler_status (attempted (attempt + Z.of_nat n - 1)) <> "failed" \/ n = fuel)
}.

Lemma attempts_spec_stop fuel attempt events :
  handler_status (attempted attempt) <> "failed" \/ fuel = 0 \/ ctx_after (world attempt) <> None ->
  (fuel = 0 -> attempt = maxAttempts) -> (attempt <= maxAttempts)%Z ->
  attempts_spec (S fuel) attempt events (reported events attempt) 1.
Proof.
  intros Hstop Hf Ha. split; cbn [Nat.sub].
  - lia.
  - intros k Hk. lia.
  - apply attempted_status.
  - intros _. split; [lia|]. replace (attempt + Z.of_nat 1 - 1)%Z with attempt by lia. by rewrite app_nil_r.
  - intros Hc. split; [lia|]. replace (attempt + Z.of_nat 1 - 1)%Z with attempt by lia. split; [by rewrite app_nil_r|].
    destruct Hstop as [|[->|Hn]]; [by left|by right|]. destruct (Hc attempt) as (_ & He & _); [lia|done].
Qed.

Lemma attempts_spec_fail fuel attempt events evs err n :
  n <= 1 -> (attempt <= maxAttempts)%Z -> ~ calm (world attempt) ->
  attempts_spec (S fuel) attempt events (set_handler "failed" evs (failedDAGNode err)) n.
Proof.
  intros Hn Ha Hc. split; cbn; [lia|lia|done|done|]. intros Hall. destruct Hc. apply Hall. lia.
Qed.

Lemma attempts_spec_retry fuel attempt events result n :
  handler_status (attempted attempt) = "failed" -> ctx_before (world attempt) = None -> ctx_after (world attempt) = None ->
  attempts_spec fuel (attempt + 1) (events ++ [retry_event attempt maxAttempts (attempted attempt)]) result n ->
  attempts_spec (S fuel) attempt events result (S n).
Proof.
  intros Hs Hb Ha [Hn Hr Hst Hl Hc].
  assert (Hev : 0 < n -> (events ++ [retry_event attempt maxAttempts (attempted attempt)]) ++ retry_events (attempt + 1) (n - 1)
    = events ++ retry_events attempt (S n - 1)).
  { intros H0. replace (S n - 1) with (S (n - 1)) by lia. by rewrite retry_events_S, <- app_assoc. }
  assert (Hk : (attempt + Z.of_nat (S n) - 1 = attempt + 1 + Z.of_nat n - 1)%Z) by lia.
  rewrite ?Hk. split; rewrite ?Hk.
  - lia.
  - intros k Hk'. destruct (decide (k = attempt)) as [->|]; [done|]. apply Hr. lia.
  - done.
  - intros H0. destruct (Hl H0) as [H1 ->]. split; [lia|]. by rewrite Hev.
  - intros Hall. destruct Hc as (H1 & -> & H2); [intros k Hk'; apply Hall; lia|].
    split; [lia|]. split; [by rewrite Hev|]. destruct H2; [by left|right; lia].
Qed.

Lemma attempt_loop_spec fuel : forall attempt events result n,
  (attempt + Z.of_nat fuel = maxAttempts + 1)%Z -> 0 < fuel ->
  attempt_loop duration_text timeout maxAttempts retryDelay world fuel attempt events = (result, n) ->
  attempts_spec fuel attempt events result n.
Proof.
  induction fuel as [|fuel IH]; intros attempt events result n Hm Hf Hl; [lia|]. cbn [attempt_loop] in Hl.
  destruct (ctx_before (world attempt)) as [err|] eqn:Hb.
  { simplify_eq. apply attempts_spec_fail; [lia|lia|]. intros (? & _). congruence. }
  fold (attempted attempt) in Hl.
  destruct (negb (String.eqb (handler_status (attempted attempt)) "failed") || (attempt =? maxAttempts)%Z
    || bool_decide (is_Some (ctx_after (world attempt)))) eqn:Hstop.
  - simplify_eq. apply attempts_spec_stop; [|lia|lia].
    apply orb_true_iff in Hstop as [[Hs|Hs]%orb_true_iff|Hs].
    + left. by apply negb_true_iff, String.eqb_neq in Hs.
    + right; left. lia.
    + right; right. apply bool_decide_eq_true in Hs as [? ->]. done.
  - apply orb_false_iff in Hstop as [[Hs Hneq]%orb_false_iff Ha].
    apply negb_false_iff, String.eqb_eq in Hs. apply Z.eqb_neq in Hneq.
    apply bool_decide_eq_false in Ha. rewrite <- eq_None_not_Some in Ha.
    destruct (if (0 <? retryDelay)%Z then ctx_waiting (world attempt) else None) as [err|] eqn:Hw.
    { simplify_eq. apply attempts_spec_fail; [lia|lia|]. intros (_ & _ & Hn). rewrite Hn in Hw. by destruct (0 <? retryDelay)%Z. }
    destruct (attempt_loop _ _ _ _ _ fuel _ _) as [r m] eqn:Hrec. simplify_eq.
    apply attempts_spec_retry; [done..|]. apply IH; [lia|lia|done].
Qed.

End attempts.

(** The bounds that the policy falls back to. *)
Definition effective_timeout (p : dagNodeExecutionPolicy) : Z :=
  if (policy_timeout p <=? 0)%Z then defaultDAGNodeTimeout else policy_timeout p.

Definition effective_attempts (p : dagNodeExecutionPolicy) : Z := Z.max 1 (policy_maxAttempts p).

Lemma policy_execute_spec duration_text p world result n :
  policy_execute duration_text p world = Some (result, n) ->
  attempts_spec duration_text (effective_timeout p) (effective_attempts p) world (Z.to_nat (effective_attempts p)) 1 [] result n.
Proof.
  unfold policy_execute. fold (effective_timeout p).
  replace (if (policy_maxAttempts p <=? 0)%Z then 1%Z else policy_maxAttempts p) with (effective_attempts p)
    by (unfold effective_attempts; destruct (Z.leb_spec (policy_maxAttempts p) 0); lia).
  assert (1 <= effective_attempts p)%Z by (unfold effective_attempts; lia).
  destruct (_ <? _)%Z; intros Hp; [done|]. apply (inj Some) in Hp.
  eapply attempt_loop_spec; [| |exact Hp]; lia.
Qed.

Lemma policy_execute_total duration_text p world :
  (effective_attempts p <= max_capacity)%Z -> is_Some (policy_execute duration_text p world).
Proof.
  intros Hc. unfold policy_execute. rewrite (proj2 (Z.ltb_ge _ _)); [exact (ex_intro _ _ eq_refl)|].
  unfold effective_attempts in Hc. destruct (Z.leb_spec (policy_maxAttempts p) 0); lia.
Qed.

(** ** Lemmas on artifacts *)

Definition record_holds (value : any) : Prop := exists m, value = AMap m /\ is_nil (get m "value") = false.

Lemma copy_fields_get source keys m key : key ∉ keys -> get (copy_fields source keys m) key = get m key.
Proof.
  revert m. induction keys as [|k keys IH]; intros m Hk; [done|]. apply not_elem_of_cons in Hk as [Hk1 Hk2].
  unfold copy_fields in *. cbn [fold_left]. rewrite IH by done. destruct (source !! k) as [raw|]; [|done]. destruct (is_nil raw); [done|].
  unfold get. by rewrite lookup_insert_ne.
Qed.

Lemma artifact_record_holds node artifact name kind status value :
  is_nil value = false -> record_holds (AMap (artifact_record node artifact name kind status value)).
Proof.
  intros Hv. eexists. split; [done|]. unfold artifact_record.
  set (m := copy_fields _ _ _). assert (get m "value" = value) as Hm.
  { unfold m. rewrite copy_fields_get by by rewrite <- contains_false. done. }
  destruct (str_empty status); [by rewrite Hm|]. unfold get in *. rewrite lookup_insert_ne by done. by rewrite Hm.
Qed.

(** An artifact that must be produced. *)
Definition must_produce (artifact : go_map) (name : string) : Prop :=
  name = TrimSpace (Sprint (get artifact "name")) /\ name <> "" /\
  isAllowedDeliveryArtifactKind (TrimSpace (Sprint (get artifact "kind"))) = true /\ toBool (get artifact "required") = true.

Lemma materialize_each_spec node outputs artifactState status declared : forall artifacts final,
  materialize_each node outputs artifactState status declared artifacts = inl final ->
  map_Forall (fun _ => record_holds) artifacts ->
  map_Forall (fun _ => record_holds) final /\ dom artifacts ⊆ dom final /\
  (status = "completed" -> forall artifact name, artifact ∈ declared -> must_produce artifact name -> name ∈ dom final).
Proof.
  induction declared as [|artifact declared IH]; intros artifacts final Hm Ha; simpl in Hm.
  { simplify_eq. split_and!; [done|done|]. intros _ ? ? Hin. by apply not_elem_of_nil in Hin. }
  set (name := TrimSpace (Sprint (get artifact "name"))) in *. set (kind := TrimSpace (Sprint (get artifact "kind"))) in *.
  set (value := firstArtifactValue name kind outputs artifactState) in *.
  destruct (str_empty name || negb (isAllowedDeliveryArtifactKind kind)) eqn:Hskip.
  { destruct (IH _ _ Hm Ha) as (H1 & H2 & H3). split_and!; [done|done|]. intros Hc a n [->|Hin]%elem_of_cons Hp; [|by eapply H3].
    exfalso. destruct Hp as (-> & Hn & Hk & _). fold kind in Hk. fold name in Hn. rewrite Hk, orb_false_r in Hskip.
    by destruct name. }
  destruct (is_nil value) eqn:Hv; simpl in Hm.
  - destruct (toBool (get artifact "required") && String.eqb status "completed") eqn:Hr; [done|].
    destruct (IH _ _ Hm Ha) as (H1 & H2 & H3). split_and!; [done|done|]. intros Hc a n [->|Hin]%elem_of_cons Hp; [|by eapply H3].
    exfalso. destruct Hp as (_ & _ & _ & Hreq). by rewrite Hreq, Hc in Hr.
  - set (record := AMap (artifact_record node artifact name kind status value)) in *.
    assert (Hrec : record_holds record) by by apply artifact_record_holds.
    assert (Hins : map_Forall (fun _ => record_holds) (<[name := record]> artifacts)) by by apply map_Forall_insert_2.
    assert (Hins' : map_Forall (fun _ => record_holds)
      (if String.eqb kind name then <[name := record]> artifacts else <[kind := record]> (<[name := record]> artifacts)))
      by (destruct (String.eqb kind name); [done|by apply map_Forall_insert_2]).
    destruct (IH _ _ Hm Hins') as (H1 & H2 & H3).
    assert (name ∈ dom final /\ dom artifacts ⊆ dom final) as [Hnm Hdom].
    { destruct (String.eqb kind name); set_solver. }
    split_and!; [done|done|]. intros Hc a n [->|Hin]%elem_of_cons Hp; [|by eapply H3]. destruct Hp as (-> & _). done.
Qed.

(** The contract of a concluded node. *)
Record node_contract (node : dagWorkflowNode) (r : dagExecutionResult) : Prop := {
  contract_node : result_nodeID r = Node_ID node;
  contract_status : result_status r <> "";
  contract_step : Step_Status (result_step r) = result_status r;
  contract_artifacts : map_Forall (fun _ => record_holds) (result_artifacts r);
  contract_required : result_status r = "completed" -> forall artifact name,
    artifact ∈ Node_ArtifactOutputs node -> must_produce artifact name -> name ∈ dom (result_artifacts r);
  contract_outputs : result_status r = "completed" -> dom (result_artifacts r) ⊆ dom (result_outputs r)
}.

Lemma inherit_outputs_dom node artifactState outputs : dom outputs ⊆ dom (inherit_outputs node artifactState outputs).
Proof.
  unfold inherit_outputs. revert outputs. induction (Node_Outputs node) as [|o os IH]; intros outputs; simpl; [done|].
  etransitivity; [|apply IH]. repeat case_match; set_solver.
Qed.

Section dispatch.
Context `{MapRange, NodeWorld}.

Lemma conclude_node_contract node run inputs selectors artifactState events result :
  handler_status result <> "" -> node_contract node (conclude_node node run inputs selectors artifactState events result).
Proof.
  intros Hs. unfold conclude_node.
  set (status := if _ && _ then "completed" else handler_status result).
  assert (status <> "") as Hst by (unfold status; by destruct (_ && _)).
  destruct (is_empty (Node_ArtifactOutputs node)) eqn:He.
  { apply is_empty_true in He. split; cbn; [done..|apply map_Forall_empty| |].
    - intros _ a n Hin. rewrite He in Hin. by apply not_elem_of_nil in Hin.
    - intros _. set_solver. }
  destruct (materializeDAGArtifactOutputs _ _ _ _) as [artifacts|err] eqn:Hm.
  2: { split; cbn; [done..|apply map_Forall_empty|done|done]. }
  destruct (materialize_each_spec _ _ _ _ _ _ _ Hm (map_Forall_empty _)) as (Hf & _ & Hr).
  assert (Ho : dom artifacts ⊆ dom (artifacts ∪ handler_outputs result)) by set_solver.
  destruct (bool_decide (artifacts = ∅)); [|destruct (bool_decide (persistDAGArtifactOutputs _ _ _ _ = ∅))];
    (split; cbn; [done..| | |]; [done|done|intros _; etransitivity; [|apply inherit_outputs_dom]; set_solver]).
Qed.

Lemma execute_node_contract node run artifactState r :
  execute_node node run artifactState = Some r -> node_contract node r.
Proof.
  unfold execute_node. destruct (resolveSelectors node) as [selectors [err|]]; intros Hr.
  { simplify_eq. split; cbn; [done..|apply map_Forall_empty|done|set_solver]. }
  destruct (policy_execute _ _ _) as [[result n]|] eqn:Hp; [|done]. simplify_eq/=.
  apply conclude_node_contract. by apply policy_execute_spec, spec_status in Hp.
Qed.

Lemma execute_node_total node run artifactState :
  (effective_attempts (dagNodePolicy node) <= max_capacity)%Z -> is_Some (execute_node node run artifactState).
Proof.
  intros Hc. unfold execute_node. destruct (resolveSelectors node) as [selectors [err|]]; [by eexists|].
  edestruct (policy_execute_total duration_text (dagNodePolicy node)) as [[result n] Hp]; [done|]. rewrite Hp. by eexists.
Qed.

Lemma conclude_node_ended node run inputs selectors artifactState events result :
  handler_status result ∈ ended_statuses ->
  result_status (conclude_node node run inputs selectors artifactState events result) ∈ ended_statuses.
Proof.
  intros Hs. unfold conclude_node.
  set (status := if _ && _ then "completed" else handler_status result).
  assert (status ∈ ended_statuses) by (unfold status; destruct (_ && _); [left|done]).
  destruct (is_empty _); [done|]. destruct (materializeDAGArtifactOutputs _ _ _ _) as [artifacts|err]; [|right; left].
  destruct (bool_decide (artifacts = ∅)); [done|]. by destruct (bool_decide (persistDAGArtifactOutputs _ _ _ _ = ∅)).
Qed.

End dispatch.

(** Attempts that end: a handler that answers no status has completed. *)
Definition ending (w : attempt_world) : Prop := handler_status (handled w) ∈ "" :: ended_statuses.

Lemma attempted_ended duration_text timeout world k :
  ending (world k) -> handler_status (attempted duration_text timeout world k) ∈ ended_statuses.
Proof.
  intros Hw. unfold attempted, completed_status. cbn.
  assert (handler_status (attempt_result duration_text timeout (world k)) ∈ "" :: ended_statuses) as Hs.
  { unfold attempt_result. destruct (timed_out _); [right; right; left|].
    destruct (ctx_after _); [|done]. destruct (attempt_canceled _); [right; right; left|done]. }
  apply elem_of_cons in Hs as [->|Hs]; [left|]. destruct (str_empty _); [left|done].
Qed.

Lemma policy_execute_ended duration_text p world result n :
  policy_execute duration_text p world = Some (result, n) -> (forall k, ending (world k)) ->
  handler_status result ∈ ended_statuses.
Proof.
  intros Hp Hw. apply policy_execute_spec in Hp as [_ _ _ Hl _].
  destruct (decide (handler_status result = "failed")) as [->|Hne]; [right; left|].
  destruct (Hl Hne) as [_ ->]. by apply attempted_ended.
Qed.

Lemma execute_node_ended `{MapRange, NodeWorld} node run artifactState r :
  (forall input k, exec_node input = node ->
     ending (world_attempts (registry_handler newDAGNodeHandlerRegistry (Node_Type node)) input k)) ->
  execute_node node run artifactState = Some r -> result_status r ∈ ended_statuses.
Proof.
  intros Hw. unfold execute_node. destruct (resolveSelectors node) as [selectors [err|]]; intros Hr.
  { simplify_eq. right; left. }
  destruct (policy_execute _ _ _) as [[result n]|] eqn:Hp; [|done]. simplify_eq/=.
  apply conclude_node_ended. eapply policy_execute_ended; [exact Hp|]. intros k. by apply Hw.
Qed.

(** A world in which the two handlers that consult nothing answer as they are written. *)
Record plain_handlers (w : NodeWorld) : Prop := {
  manual_waits : forall input k, handled (world_attempts manualApprovalDAGNodeHandler input k) = manualApproval_execute input;
  unsupported_skips : forall input k, handled (world_attempts unsupportedDAGNodeHandler input k) = unsupported_execute input
}.

(** ** The dispatcher behind the engine *)

(** What remains outside a run whose nodes go through the dispatcher: a world
    for each round, the clock, cancellation, the order of arrival and the
    repository. *)
Class RunWorld := {
  round_world : nat -> NodeWorld;
  run_clock : nat -> string;
  run_ctx_err : nat -> option string;
  run_handed_out : nat -> nat;
  run_arrival : nat -> list dagExecutionResult -> list dagExecutionResult;
  run_repo_Update : Run -> option Run;
  run_arrival_perm : forall i results, run_arrival i results ≡ₚ results
}.

(** A node whose policy panics has no result; a run that meets one is excluded below. *)
Definition no_result (node : dagWorkflowNode) : dagExecutionResult := newDAGExecutionResult node "failed" "" ∅ ∅ ∅ ∅ [].

Definition dispatch_release `{MapRange, RunWorld} (i : nat) (node : dagWorkflowNode) (run : Run) (artifacts : go_map)
    : dagExecutionResult :=
  let _ := round_world i in default (no_result node) (execute_node node run artifacts).

Lemma dispatch_release_contract `{MapRange, RunWorld} i node run artifacts :
  result_nodeID (dispatch_release i node run artifacts) = Node_ID node /\
  result_status (dispatch_release i node run artifacts) <> "".
Proof.
  unfold dispatch_release. destruct (@execute_node _ (round_world i) node run artifacts) as [r|] eqn:Hr; [|done].
  apply execute_node_contract in Hr as [Hn Hs]. done.
Qed.

(** The dispatcher is an environment of the engine. *)
#[export] Instance dispatcher_env `{MapRange, RunWorld} : EngineEnv := {
  clock := run_clock;
  ctx_err := run_ctx_err;
  dispatch := dispatch_release;
  handed_out := run_handed_out;
  arrival := run_arrival;
  repo_Update := run_repo_Update;
  metadataDAGExecutionResult := execution_result_metadata;
  metadataDAGArtifactState := artifact_state_metadata;
  dispatch_node i node run artifacts := proj1 (dispatch_release_contract i node run artifacts);
  dispatch_status i node run artifacts := proj2 (dispatch_release_contract i node run artifacts);
  arrival_perm := run_arrival_perm
}.

(** ** Sample worlds *)

(** The second attempt succeeds. *)
Definition flaky_attempt (k : Z) : attempt_world :=
  {| ctx_before := None;
     handled := if (k <? 2)%Z then failedDAGNode "unreachable"
       else {| handler_status := ""; handler_summary := "done"; handler_outputs := {[ "image" := AString "registry/app:1" ]};
               handler_events := []; handler_err := None |};
     timed_out := false; attempt_canceled := false; ctx_after := None; ctx_waiting := None |}.

Definition three_attempts : dagNodeExecutionPolicy :=
  {| policy_timeout := 0; policy_maxAttempts := 3; policy_retryDelay := time_Second |}.

(** A handler that answers at once. *)
Definition at_once (r : dagNodeHandlerResult) : attempt_world :=
  {| ctx_before := None; handled := r; timed_out := false; attempt_canceled := false; ctx_after := None; ctx_waiting := None |}.

#[export] Instance flaky_world : NodeWorld :=
  {| world_attempts handler input k :=
       match handler with
       | manualApprovalDAGNodeHandler => at_once (manualApproval_execute input)
       | unsupportedDAGNodeHandler => at_once (unsupported_execute input)
       | _ => flaky_attempt k
       end; duration_text d := pretty d;
     world_context := {| resolve_run := empty_context; Input_BuildSourceID := ""; Input_ImageTag := "";
       BuildPolicy_SourceID := ""; Binding_ID := "" |};
     resolveSelectors _ := (∅, None); executeDeliveryNode := fun node _ => no_result node;
     UpsertExecutionArtifact := None |}.

#[export] Instance flaky_runs : RunWorld := {
  round_world _ := flaky_world;
  run_clock _ := "2026-01-01T00:00:00Z";
  run_ctx_err _ := None;
  run_handed_out _ := 64;
  run_arrival _ results := results;
  run_repo_Update run := Some run;
  run_arrival_perm _ results := reflexivity results
}.

(** A template whose one node is to leave an image, with [retries] further attempts. *)
Definition image_template (retries : any) : go_map :=
  {[ "mode" := AString "release_dag";
     "nodes" := AList [AMap {[ "id" := AString "build"; "type" := AString "build"; "config" := AMap {[ "maxRetries" := retries ]};
       "artifactOutputs" := AList [AMap {[ "name" := AString "app"; "kind" := AString "image"; "required" := ABool true ]}] ]}];
     "edges" := AList [] ]}.

Definition template_node (definition : go_map) : dagWorkflowNode :=
  default (bare_node "") (d ← parseDAGWorkflowDefinition definition; head (Def_Nodes d)).

(** ** Properties *)

(** The retry policy runs the handler at most the configured number of times
    (once when none is configured).  Every attempt but the last failed while
    the context was alive; a result that is not a failure is the result of the
    last attempt, with the events of the retries before its own; the status is
    never empty.  When the context does not end, the result is that of the first
    attempt that did not fail, or of the last allowed one. *)
Theorem retry_policy_exact duration_text p world result n :
  policy_execute duration_text p world = Some (result, n) ->
  let attempted := attempted duration_text (effective_timeout p) world in
  let last := reported duration_text (effective_timeout p) world
    (retry_events duration_text (effective_timeout p) (effective_attempts p) world 1 (n - 1)) (Z.of_nat n) in
  (Z.of_nat n <= effective_attempts p)%Z /\ handler_status result <> "" /\
  (forall k, (1 <= k < Z.of_nat n)%Z -> handler_status (attempted k) = "failed" /\ ctx_after (world k) = None) /\
  (handler_status result <> "failed" -> 0 < n /\ result = last) /\
  ((forall k, (1 <= k <= effective_attempts p)%Z -> calm (world k)) ->
     0 < n /\ result = last /\ (handler_status (attempted (Z.of_nat n)) <> "failed" \/ Z.of_nat n = effective_attempts p)).
Proof.
  intros Hp. apply policy_execute_spec in Hp as [Hn Hr Hs Hl Hc].
  assert (1 <= effective_attempts p)%Z by (unfold effective_attempts; lia).
  replace (1 + Z.of_nat n - 1)%Z with (Z.of_nat n) in * by lia. split_and!; [lia|done| |done|].
  - intros k Hk. destruct (Hr k Hk) as (? & _ & ?). done.
  - intros Hall. destruct (Hc Hall) as (? & ? & [| ->]); split_and!; auto. right. lia.
Qed.

Lemma retry_policy_exact_witness :
  exists result, policy_execute pretty three_attempts flaky_attempt = Some (result, 2) /\
    (Z.of_nat 2 <= effective_attempts three_attempts)%Z /\ handler_status result = "completed".
Proof.
  eexists. split; [vm_compute; reflexivity|]. split; [|reflexivity].
  eapply (retry_policy_exact pretty three_attempts flaky_attempt). vm_compute. reflexivity.
Defined.

(** The dispatcher keeps its contract with the engine: the result of a node
    of a release run is filed under the node, has a status, and reports it in
    its step.  The artifacts recorded all hold a value; a node recorded as
    completed has recorded every artifact it is required to produce, and
    handed it on among its outputs. *)
Theorem dispatch_contract `{MapRange, NodeWorld} node run artifactState :
  Run_Scope run <> ScopeDeliveryBatch -> (effective_attempts (dagNodePolicy node) <= max_capacity)%Z ->
  exists r, dispatcher_execute node run artifactState = Some r /\
    result_nodeID r = Node_ID node /\ result_status r <> "" /\ Step_Status (result_step r) = result_status r /\
    (forall name value, result_artifacts r !! name = Some value -> record_holds value) /\
    (result_status r = "completed" -> forall artifact name,
      artifact ∈ Node_ArtifactOutputs node -> must_produce artifact name ->
      name ∈ dom (result_artifacts r) /\ name ∈ dom (result_outputs r)).
Proof.
  intros Hscope Hc. unfold dispatcher_execute. apply String.eqb_neq in Hscope. rewrite Hscope.
  destruct (execute_node_total node run artifactState Hc) as [r Hr]. exists r. split; [done|].
  apply execute_node_contract in Hr as [Hn Hs Hst Ha Hreq Ho]. split_and!; [done..|].
  intros Hcomp a n Hin Hp. pose proof (Hreq Hcomp a n Hin Hp). split; [done|]. by apply Ho.
Qed.

Lemma dispatch_contract_witness :
  exists r, dispatcher_execute (template_node (image_template (AInt 1))) new_run ∅ = Some r /\
    result_nodeID r = "build" /\ result_status r = "completed" /\ "app" ∈ dom (result_outputs r).
Proof.
  destruct (dispatch_contract (template_node (image_template (AInt 1))) new_run ∅) as (r & Hr & Hn & _ & _ & _ & Hreq);
    [discriminate|vm_compute; discriminate|].
  assert (Hs : result_status r = "completed") by (vm_compute in Hr; injection Hr as <-; reflexivity).
  exists r. split; [exact Hr|]. split; [rewrite Hn; vm_compute; reflexivity|]. split; [exact Hs|].
  eapply (Hreq Hs {[ "name" := AString "app"; "kind" := AString "image"; "required" := ABool true ]}).
  - vm_compute. left.
  - split_and!; [reflexivity|discriminate|reflexivity|reflexivity].
Defined.

(** C37. From an accepted template to the end of its run: when no node of the
    template is a manual approval, whose handler always waits, the handler that
    the type of each other node selects ends the attempts it makes on that node
    (a node of no known type is skipped by itself), retries are bounded and the
    run is not canceled, a fresh run drains through the dispatcher, with every
    node dispatched to a result and every node completed, failed or skipped.
    Nothing is assumed of the handlers of other types. *)
Theorem dispatched_run_drains `{MapRange, RunWorld} context definition parsed run :
  let handler n := registry_handler newDAGNodeHandlerRegistry (Node_Type n) in
  validateApplicationWorkflowDefinition definition = Ok tt ->
  parseDAGWorkflowDefinition definition = Some parsed ->
  collectNodeStatuses (restoreNodeRuns parsed (Run_NodeRuns run)) = ∅ ->
  (forall i, run_ctx_err i = None) -> (forall i, plain_handlers (round_world i)) ->
  (forall n, n ∈ Def_Nodes parsed -> handler n <> manualApprovalDAGNodeHandler) ->
  (forall i n input k, n ∈ Def_Nodes parsed -> exec_node input = n -> handler n ∉ [manualApprovalDAGNodeHandler; unsupportedDAGNodeHandler] ->
     ending (@world_attempts (round_world i) (handler n) input k)) ->
  (forall n, n ∈ Def_Nodes parsed -> (effective_attempts (dagNodePolicy n) <= max_capacity)%Z) ->
  exists s batches, run_dag (H := dispatcher_env) context parsed run = Some (Drained, s, batches) /\
    (forall n, n ∈ Def_Nodes parsed -> status_of (st_statuses s) (Node_ID n) ∈ ended_statuses) /\
    (forall i n run artifacts, n ∈ Def_Nodes parsed -> is_Some (@execute_node _ (round_world i) n run artifacts)).
Proof.
  intros handler Hv Hp Hfresh Hctx Hplain Hmanual Hend Hcap.
  destruct (accepted_run_drains (H := dispatcher_env) context definition parsed run Hv Hp Hfresh) as (s & batches & Hr & Hs); [done| |].
  - intros i node run' artifacts Hin. cbn. unfold dispatch_release.
    destruct (@execute_node _ (round_world i) node run' artifacts) as [r|] eqn:Hn; [|by apply contains_true].
    apply (execute_node_ended (H0 := round_world i) node run' artifacts r); [|done]. intros input k Hnode.
    destruct (decide (handler node = unsupportedDAGNodeHandler)) as [He|Hne]; [|apply Hend; [done|done|rewrite !not_elem_of_cons; auto using not_elem_of_nil]].
    unfold handler in He. rewrite He. unfold ending. rewrite (unsupported_skips _ (Hplain i)). apply contains_true. reflexivity.
  - exists s, batches. split_and!; [done|done|]. intros i n run' artifacts Hin. apply execute_node_total. by apply Hcap.
Qed.
(** A build, then a check. *)
Definition two_step_template : go_map :=
  {[ "mode" := AString "release_dag";
     "nodes" := AList [AMap {[ "id" := AString "build"; "type" := AString "build"; "config" := AMap {[ "maxRetries" := AInt 1 ]} ]};
       AMap {[ "id" := AString "extra"; "type" := AString "verify" ]}];
     "edges" := AList [AMap {[ "source" := AString "build"; "target" := AString "extra" ]}] ]}.

Lemma dispatched_run_drains_witness :
  exists parsed s batches, parseDAGWorkflowDefinition two_step_template = Some parsed /\
    run_dag (H := dispatcher_env) empty_context parsed new_run = Some (Drained, s, batches) /\
    Node_ID <$> Def_Nodes parsed = ["build"; "extra"].
Proof.
  destruct (parseDAGWorkflowDefinition two_step_template) as [parsed|] eqn:Hp; [|vm_compute in Hp; discriminate Hp].
  assert (forallb (fun n => negb (bool_decide (registry_handler newDAGNodeHandlerRegistry (Node_Type n) = manualApprovalDAGNodeHandler)) &&
    (effective_attempts (dagNodePolicy n) <=? max_capacity)%Z) (Def_Nodes parsed) = true) as Hall
    by (vm_compute in Hp; injection Hp as <-; vm_compute; reflexivity).
  rewrite forallb_elem_of in Hall.
  destruct (dispatched_run_drains empty_context two_step_template parsed new_run) as (s & batches & Hr & _).
  - vm_compute. reflexivity.
  - exact Hp.
  - vm_compute in Hp. injection Hp as <-. vm_compute. reflexivity.
  - reflexivity.
  - intros i. split; reflexivity.
  - intros n Hn. specialize (Hall n Hn). apply andb_true_iff in Hall as [Hm%negb_true_iff%bool_decide_eq_false _]. exact Hm.
  - intros i n input k _ _ Hh. rewrite !not_elem_of_cons in Hh. destruct Hh as (Hm & Hu & _).
    destruct (registry_handler _ _); try done; unfold ending; cbn; (destruct (k <? 2)%Z; [right; right; left|left]).
  - intros n Hn. specialize (Hall n Hn). apply andb_true_iff in Hall as [_ Hc%Z.leb_le]. exact Hc.
  - exists parsed, s, batches. split; [reflexivity|]. split; [exact Hr|]. vm_compute in Hp. injection Hp as <-. reflexivity.
Defined.

(** The configured number of retries is not bounded: the catalog accepts a
    template with 10^15 retries, and its node panics the dispatcher in every
    world where its selectors resolve, before the handler is called. *)
Theorem retry_capacity_panics `{NodeWorld} run artifactState :
  Run_Scope run <> ScopeDeliveryBatch -> (forall node, snd (resolveSelectors node) = None) ->
  let definition := image_template (AFloat "1e+15" (10 ^ 15)) in
  validateApplicationWorkflowDefinition definition = Ok tt /\
  dispatcher_execute (template_node definition) run artifactState = None.
Proof.
  intros Hscope Hsel definition. split; [vm_compute; reflexivity|].
  unfold dispatcher_execute. apply String.eqb_neq in Hscope. rewrite Hscope. unfold execute_node.
  specialize (Hsel (template_node definition)).
  destruct (resolveSelectors (template_node definition)) as [selectors [err|]]; [discriminate Hsel|].
  assert (Hp : policy_maxAttempts (dagNodePolicy (template_node definition)) = (10 ^ 15 + 1)%Z) by (vm_compute; reflexivity).
  unfold policy_execute. rewrite Hp. reflexivity.
Qed.

Lemma retry_capacity_panics_witness :
  dispatcher_execute (template_node (image_template (AFloat "1e+15" (10 ^ 15)))) new_run ∅ = None.
Proof. apply (retry_capacity_panics new_run ∅); [discriminate|reflexivity]. Defined.
