(* ===== verification/AgentHarness.v ===== *)
(** * Agent runs

    [internal/application/agentharness/state_machine.go]: the states of an agent
    run, its budget, the tracker of repeated actions and the resumption from a
    checkpoint.  Times are instants in nanoseconds, [int] and [int64] are 64-bit
    integers with wrap-around, and costs are IEEE doubles. *)

From Stdlib Require Import SpecFloat.
From S2P Require Import Prelude GoStrings.

(** ** Data *)

Abbreviation RunState := string (only parsing).
Definition RunQueued : RunState := "queued".
Definition RunPreparing : RunState := "preparing".
Definition RunRunning : RunState := "running".
Definition RunWaitingApproval : RunState := "waiting_approval".
Definition RunWaitingEnvironment : RunState := "waiting_environment".
Definition RunPaused : RunState := "paused".
Definition RunRejected : RunState := "rejected".
Definition RunCompleted : RunState := "completed".
Definition RunFailed : RunState := "failed".
Definition RunCancelled : RunState := "cancelled".
Definition RunBudgetExceeded : RunState := "budget_exceeded".
Definition RunTimedOut : RunState := "timed_out".

Abbreviation StopReason := string (only parsing).
Definition StopMaxSteps : StopReason := "max_steps".
Definition StopMaxTokens : StopReason := "max_tokens".
Definition StopMaxToolCalls : StopReason := "max_tool_calls".
Definition StopMaxCost : StopReason := "max_cost".
Definition StopDeadline : StopReason := "deadline".
Definition StopNoProgress : StopReason := "no_progress".

(** IEEE 754 doubles, with the addition and the comparisons of the hardware. *)
Abbreviation float64 := spec_float (only parsing).
Definition float_zero : float64 := S754_zero false.
Definition float_add (x y : float64) : float64 := SFadd 53 1024 x y.
Definition float_leb (x y : float64) : bool := SFleb x y.
Definition float_ltb (x y : float64) : bool := SFltb x y.

Record Budget := {
  MaxSteps : Z;
  MaxTokens : Z;
  MaxToolCalls : Z;
  MaxCost : float64;
  Deadline : Z
}.

Record Usage := {
  Usage_Steps : Z;
  Usage_Tokens : Z;
  Usage_ToolCalls : Z;
  Usage_Cost : float64
}.

Definition zero_Usage : Usage :=
  {| Usage_Steps := 0; Usage_Tokens := 0; Usage_ToolCalls := 0; Usage_Cost := float_zero |}.

Record AgentRun := {
  AgentRun_ID : string;
  AgentRun_Attempt : Z;
  AgentRun_State : RunState;
  AgentRun_StopReason : StopReason;
  AgentRun_ProviderID : string;
  AgentRun_ProviderVersion : string;
  AgentRun_PluginVersion : string;
  AgentRun_AdapterProtocolVersion : string;
  AgentRun_CatalogRevision : Z;
  AgentRun_Budget : Budget;
  AgentRun_Usage : Usage;
  AgentRun_CheckpointRef : string;
  AgentRun_UpdatedAt : Z
}.

Record Checkpoint := {
  Checkpoint_SchemaVersion : string;
  Checkpoint_ID : string;
  Checkpoint_RunID : string;
  Checkpoint_StepID : string;
  Checkpoint_Attempt : Z;
  Checkpoint_Sequence : Z;
  Checkpoint_StateHash : string;
  Checkpoint_ContextRef : string;
  Checkpoint_CreatedAt : Z
}.

(** The fields the operations write; the identity of a run is pinned. *)
Definition set_AgentRun (state : RunState) (reason : StopReason) (usage : Usage) (updatedAt : Z)
    (r : AgentRun) : AgentRun :=
  {| AgentRun_ID := AgentRun_ID r; AgentRun_Attempt := AgentRun_Attempt r; AgentRun_State := state;
     AgentRun_StopReason := reason; AgentRun_ProviderID := AgentRun_ProviderID r;
     AgentRun_ProviderVersion := AgentRun_ProviderVersion r; AgentRun_PluginVersion := AgentRun_PluginVersion r;
     AgentRun_AdapterProtocolVersion := AgentRun_AdapterProtocolVersion r;
     AgentRun_CatalogRevision := AgentRun_CatalogRevision r; AgentRun_Budget := AgentRun_Budget r;
     AgentRun_Usage := usage; AgentRun_CheckpointRef := AgentRun_CheckpointRef r;
     AgentRun_UpdatedAt := updatedAt |}.

Inductive harness_error :=
| ErrTerminalRun
| ErrInvalidTransition (text : string)
| ErrBudgetExceeded
| ErrRejected (text : string).

(** ** Repeated actions *)

Record ProgressTracker := {
  MaxIdenticalActions : Z;
  LastFingerprint : string;
  Repeated : Z
}.

(** The tracker after the call, and the stop reason or an error. *)
Definition Observe (t : ProgressTracker) (actionFingerprint : string)
    : ProgressTracker * (StopReason + string) :=
  let actionFingerprint := TrimSpace actionFingerprint in
  if str_empty actionFingerprint then (t, inr "action fingerprint is required")
  else if (MaxIdenticalActions t <=? 0)%Z then (t, inr "max identical actions must be bounded")
  else
  let t := if String.eqb actionFingerprint (LastFingerprint t)
           then {| MaxIdenticalActions := MaxIdenticalActions t; LastFingerprint := LastFingerprint t;
                   Repeated := wrap64 (Repeated t + 1) |}
           else {| MaxIdenticalActions := MaxIdenticalActions t; LastFingerprint := actionFingerprint;
                   Repeated := 1 |} in
  if (MaxIdenticalActions t <=? Repeated t)%Z then (t, inl StopNoProgress) else (t, inl "").

(** ** The state machine *)

Definition NewRun (run : AgentRun) (now : Z) : AgentRun + harness_error :=
  if blank (AgentRun_ID run) || blank (AgentRun_ProviderID run) || blank (AgentRun_ProviderVersion run)
  then inr (ErrRejected "run id and pinned provider identity are required")
  else if (AgentRun_CatalogRevision run =? 0)%Z || blank (AgentRun_AdapterProtocolVersion run)
  then inr (ErrRejected "catalog revision and adapter protocol version are required")
  else
  let budget := AgentRun_Budget run in
  if (MaxSteps budget <=? 0)%Z || (MaxTokens budget <=? 0)%Z || (MaxToolCalls budget <=? 0)%Z ||
     float_leb (MaxCost budget) float_zero || negb (now <? Deadline budget)%Z
  then inr (ErrRejected "agent run budget must be bounded")
  else inl {| AgentRun_ID := AgentRun_ID run; AgentRun_Attempt := 1; AgentRun_State := RunQueued;
    AgentRun_StopReason := AgentRun_StopReason run; AgentRun_ProviderID := AgentRun_ProviderID run;
    AgentRun_ProviderVersion := AgentRun_ProviderVersion run; AgentRun_PluginVersion := AgentRun_PluginVersion run;
    AgentRun_AdapterProtocolVersion := AgentRun_AdapterProtocolVersion run;
    AgentRun_CatalogRevision := AgentRun_CatalogRevision run; AgentRun_Budget := budget;
    AgentRun_Usage := AgentRun_Usage run; AgentRun_CheckpointRef := AgentRun_CheckpointRef run;
    AgentRun_UpdatedAt := now |}.

Definition Terminal (r : AgentRun) : bool :=
  contains [RunRejected; RunCompleted; RunFailed; RunCancelled; RunBudgetExceeded; RunTimedOut]
    (AgentRun_State r).

Definition allowed_targets (from : RunState) : list RunState :=
  if String.eqb from RunQueued then [RunPreparing; RunCancelled]
  else if String.eqb from RunPreparing then [RunRunning; RunFailed; RunCancelled]
  else if String.eqb from RunRunning
  then [RunWaitingApproval; RunWaitingEnvironment; RunPaused; RunCompleted; RunFailed; RunCancelled;
        RunBudgetExceeded; RunTimedOut]
  else if String.eqb from RunWaitingApproval then [RunRunning; RunRejected; RunCancelled; RunTimedOut]
  else if String.eqb from RunWaitingEnvironment then [RunRunning; RunFailed; RunCancelled; RunTimedOut]
  else if String.eqb from RunPaused then [RunRunning; RunCancelled; RunTimedOut]
  else [].

Definition allowedTransition (from to : RunState) : bool := contains (allowed_targets from) to.

(** The run after the call, and its error. *)
Definition Transition (r : AgentRun) (next : RunState) (reason : StopReason) (now : Z)
    : AgentRun * option harness_error :=
  if Terminal r then (r, Some ErrTerminalRun)
  else if negb (allowedTransition (AgentRun_State r) next)
  then (r, Some (ErrInvalidTransition ("invalid agent run transition: " +:+ AgentRun_State r +:+ " -> " +:+ next)))
  else (set_AgentRun next reason (AgentRun_Usage r) now r, None).

Definition budgetStopReason (r : AgentRun) (now : Z) : StopReason :=
  let budget := AgentRun_Budget r in
  let usage := AgentRun_Usage r in
  if negb (now <? Deadline budget)%Z then StopDeadline
  else if (MaxSteps budget <=? Usage_Steps usage)%Z then StopMaxSteps
  else if (MaxTokens budget <=? Usage_Tokens usage)%Z then StopMaxTokens
  else if (MaxToolCalls budget <=? Usage_ToolCalls usage)%Z then StopMaxToolCalls
  else if float_leb (MaxCost budget) (Usage_Cost usage) then StopMaxCost
  else "".

Definition add_usage (u delta : Usage) : Usage :=
  {| Usage_Steps := wrap64 (Usage_Steps u + Usage_Steps delta);
     Usage_Tokens := wrap64 (Usage_Tokens u + Usage_Tokens delta);
     Usage_ToolCalls := wrap64 (Usage_ToolCalls u + Usage_ToolCalls delta);
     Usage_Cost := float_add (Usage_Cost u) (Usage_Cost delta) |}.

Definition ApplyUsage (r : AgentRun) (delta : Usage) (now : Z) : AgentRun * option harness_error :=
  if Terminal r then (r, Some ErrTerminalRun)
  else if (Usage_Steps delta <? 0)%Z || (Usage_Tokens delta <? 0)%Z || (Usage_ToolCalls delta <? 0)%Z ||
          float_ltb (Usage_Cost delta) float_zero
  then (r, Some (ErrRejected "usage delta cannot be negative"))
  else
  let r := set_AgentRun (AgentRun_State r) (AgentRun_StopReason r) (add_usage (AgentRun_Usage r) delta)
    (AgentRun_UpdatedAt r) r in
  let reason := budgetStopReason r now in
  if str_empty reason
  then (set_AgentRun (AgentRun_State r) (AgentRun_StopReason r) (AgentRun_Usage r) now r, None)
  else
  let state := if String.eqb reason StopDeadline then RunTimedOut else RunBudgetExceeded in
  (set_AgentRun state reason (AgentRun_Usage r) now r, Some ErrBudgetExceeded).

Definition ResumeFromCheckpoint (original : AgentRun) (checkpoint : Checkpoint) (newRunID : string) (now : Z)
    : AgentRun + harness_error :=
  if negb (Terminal original) && negb (String.eqb (AgentRun_State original) RunPaused)
  then inr (ErrRejected "run must be paused or terminal before resume")
  else if negb (String.eqb (Checkpoint_RunID checkpoint) (AgentRun_ID original)) ||
          blank (Checkpoint_StateHash checkpoint) || blank newRunID
  then inr (ErrRejected "checkpoint does not belong to original run")
  else inl {| AgentRun_ID := newRunID; AgentRun_Attempt := wrap64 (AgentRun_Attempt original + 1);
    AgentRun_State := RunQueued; AgentRun_StopReason := ""; AgentRun_ProviderID := AgentRun_ProviderID original;
    AgentRun_ProviderVersion := AgentRun_ProviderVersion original;
    AgentRun_PluginVersion := AgentRun_PluginVersion original;
    AgentRun_AdapterProtocolVersion := AgentRun_AdapterProtocolVersion original;
    AgentRun_CatalogRevision := AgentRun_CatalogRevision original; AgentRun_Budget := AgentRun_Budget original;
    AgentRun_Usage := zero_Usage; AgentRun_CheckpointRef := Checkpoint_ID checkpoint; AgentRun_UpdatedAt := now |}.

(** ** The life of a run *)

Inductive agent_step : AgentRun -> AgentRun -> Prop :=
| agent_transition r next reason now : agent_step r (fst (Transition r next reason now))
| agent_usage r delta now : agent_step r (fst (ApplyUsage r delta now)).

Definition run_states : list RunState :=
  [RunQueued; RunPreparing; RunRunning; RunWaitingApproval; RunWaitingEnvironment; RunPaused; RunRejected;
   RunCompleted; RunFailed; RunCancelled; RunBudgetExceeded; RunTimedOut].

(** What a budget limits, below its limits. *)
Record under_budget (b : Budget) (u : Usage) : Prop := {
  ub_steps : (Usage_Steps u < MaxSteps b)%Z;
  ub_tokens : (Usage_Tokens u < MaxTokens b)%Z;
  ub_toolCalls : (Usage_ToolCalls u < MaxToolCalls b)%Z;
  ub_cost : float_leb (MaxCost b) (Usage_Cost u) = false
}.

(** The identity of a run and its budget. *)
Definition pinned (r : AgentRun) :=
  (AgentRun_ID r, AgentRun_Attempt r, AgentRun_ProviderID r, AgentRun_ProviderVersion r,
   AgentRun_PluginVersion r, AgentRun_AdapterProtocolVersion r, AgentRun_CatalogRevision r,
   AgentRun_Budget r, AgentRun_CheckpointRef r).

Lemma budgetStopReason_empty r now :
  budgetStopReason r now = "" <->
  (now < Deadline (AgentRun_Budget r))%Z /\ under_budget (AgentRun_Budget r) (AgentRun_Usage r).
Proof.
  unfold budgetStopReason. split.
  - destruct (Z.ltb_spec now (Deadline (AgentRun_Budget r))); cbn [negb]; [|done].
    do 3 (match goal with |- context [(?x <=? ?y)%Z] => destruct (Z.leb_spec x y) end; [done|]).
    destruct (float_leb _ _) eqn:?; [done|]. intros _.
    split; [done|]. by split.
  - intros (Hd & [Hs Ht Hc Hf]).
    by rewrite (proj2 (Z.ltb_lt _ _) Hd), (proj2 (Z.leb_gt _ _) Hs), (proj2 (Z.leb_gt _ _) Ht),
      (proj2 (Z.leb_gt _ _) Hc), Hf.
Qed.

Lemma allowed_known from to : allowedTransition from to = true -> to ∈ run_states.
Proof.
  unfold allowedTransition, allowed_targets. rewrite contains_true.
  assert (forall l, bool_decide (Forall (fun x => x ∈ run_states) l) = true -> to ∈ l -> to ∈ run_states) as Hsub.
  { intros l Hl Hin. apply bool_decide_eq_true in Hl. rewrite Forall_forall in Hl. auto. }
  repeat case_match; apply Hsub; vm_compute; reflexivity.
Qed.

(** What every step keeps. *)
Definition agent_inv (r0 r : AgentRun) : Prop :=
  pinned r = pinned r0 /\ AgentRun_State r ∈ run_states /\
  (Terminal r = false -> under_budget (AgentRun_Budget r) (AgentRun_Usage r)).

Lemma agent_step_inv r0 r r' : agent_inv r0 r -> agent_step r r' -> agent_inv r0 r'.
Proof.
  intros Hinv Hstep. destruct Hstep as [r next reason now|r delta now]; pose proof Hinv as (Hp & Hs & Hb).
  - unfold Transition. destruct (Terminal r) eqn:Ht; [exact Hinv|].
    destruct (allowedTransition (AgentRun_State r) next) eqn:Ha; [|exact Hinv].
    split_and!; [done|by eapply allowed_known|auto].
  - unfold ApplyUsage. destruct (Terminal r) eqn:Ht; [exact Hinv|]. destruct (_ || _); [exact Hinv|]. cbv zeta.
    set (r1 := set_AgentRun _ _ (add_usage _ _) _ r). destruct (str_empty (budgetStopReason r1 now)) eqn:He.
    + apply String.eqb_eq, budgetStopReason_empty in He as [_ Hub]. split_and!; [done|done|auto].
    + split_and!; [done| |].
      * cbn. case_match; apply (bool_decide_unpack _); vm_compute; exact I.
      * intros Hnt. exfalso. revert Hnt. unfold Terminal. cbn. by case_match.
Qed.

Lemma terminal_step r r' : Terminal r = true -> agent_step r r' -> r' = r.
Proof. intros Ht. destruct 1; unfold Transition, ApplyUsage; by rewrite Ht. Qed.

(** ** Repeated actions, against the history *)

(** The length of the run of equal actions that ends the history, which lists
    the most recent action first. *)
Fixpoint run_length (x : string) (history : list string) : nat :=
  match history with
  | y :: rest => if String.eqb (TrimSpace y) x then S (run_length x rest) else 0
  | [] => 0
  end.

Definition streak (history : list string) : nat :=
  match history with [] => 0 | x :: rest => S (run_length (TrimSpace x) rest) end.

Definition fresh_tracker (k : Z) : ProgressTracker :=
  {| MaxIdenticalActions := k; LastFingerprint := ""; Repeated := 0 |}.

(** The tracker after a history. *)
Fixpoint tracker_after (k : Z) (history : list string) : ProgressTracker :=
  match history with
  | [] => fresh_tracker k
  | x :: rest => fst (Observe (tracker_after k rest) x)
  end.

Lemma run_length_le x h : run_length x h <= length h.
Proof. induction h as [|y h IH]; simpl; [done|]. case_match; lia. Qed.

Lemma tracker_spec k history :
  (0 < k)%Z -> (forall x, x ∈ history -> blank x = false) -> (Z.of_nat (length history) < 2 ^ 63)%Z ->
  tracker_after k history =
  {| MaxIdenticalActions := k;
     LastFingerprint := match history with [] => "" | x :: _ => TrimSpace x end;
     Repeated := Z.of_nat (streak history) |}.
Proof.
  intros Hk. induction history as [|x h IH]; intros Hb Hl; [done|]. cbn [tracker_after].
  rewrite IH by (try (intros; apply Hb; by right); simpl in Hl; lia). unfold Observe.
  assert (str_empty (TrimSpace x) = false) as Hx by (apply Hb; by left). rewrite Hx. cbn [MaxIdenticalActions].
  rewrite (proj2 (Z.leb_gt _ _) Hk). cbn [LastFingerprint Repeated].
  destruct h as [|y h].
  - destruct (String.eqb_spec (TrimSpace x) "") as [He|]; [by rewrite He in Hx|]. by case_match.
  - cbn [streak run_length]. pose proof (run_length_le (TrimSpace y) h). simpl in Hl.
    rewrite (String.eqb_sym (TrimSpace y)).
    destruct (String.eqb_spec (TrimSpace x) (TrimSpace y)) as [->|Hne]; [|by case_match].
    rewrite wrap64_id by (unfold int64_range; lia).
    replace (Z.of_nat (S (S (run_length (TrimSpace y) h)))) with (Z.of_nat (S (run_length (TrimSpace y) h)) + 1)%Z by lia.
    by case_match.
Qed.

(** ** Properties *)

(** A run for the examples. *)
Definition sample_run (tokens : Z) : AgentRun :=
  {| AgentRun_ID := "run-1"; AgentRun_Attempt := 1; AgentRun_State := RunQueued; AgentRun_StopReason := "";
     AgentRun_ProviderID := "provider"; AgentRun_ProviderVersion := "1"; AgentRun_PluginVersion := "";
     AgentRun_AdapterProtocolVersion := "1"; AgentRun_CatalogRevision := 1;
     AgentRun_Budget := {| MaxSteps := 10; MaxTokens := 1000; MaxToolCalls := 10;
       MaxCost := S754_finite false 1 0; Deadline := 100 |};
     AgentRun_Usage := {| Usage_Steps := 0; Usage_Tokens := tokens; Usage_ToolCalls := 0; Usage_Cost := float_zero |};
     AgentRun_CheckpointRef := ""; AgentRun_UpdatedAt := 0 |}.

(** A run that starts with no usage keeps its identity and its budget, stays
    in a known state, is below every limit of its budget as long as it is not
    terminal, and never changes once it is terminal. *)
Theorem agent_run_safe run now r0 r :
  NewRun run now = inl r0 -> AgentRun_Usage run = zero_Usage -> rtc agent_step r0 r ->
  pinned r = pinned r0 /\ AgentRun_State r ∈ run_states /\
  (Terminal r = false -> under_budget (AgentRun_Budget r) (AgentRun_Usage r)) /\
  (Terminal r = true -> forall r', rtc agent_step r r' -> r' = r).
Proof.
  intros Hnew Hu Hr.
  assert (agent_inv r0 r0) as H0.
  { unfold NewRun in Hnew. destruct (_ || _); [done|]. destruct (_ || _); [done|].
    destruct (_ || _) eqn:Hb; [done|]. injection Hnew as <-. bool_prop.
    split; [done|]. split; [apply (bool_decide_unpack _); vm_compute; exact I|]. intros _.
    cbn [AgentRun_Budget AgentRun_Usage]. rewrite Hu.
    split; cbn; [by apply Z.leb_gt..|]. done. }
  assert (agent_inv r0 r) as (? & ? & ?).
  { revert r Hr. refine (rtc_ind_r (agent_inv r0) r0 H0 _). intros; by eapply agent_step_inv. }
  split_and!; [done..|]. intros Ht r' Hr'. clear Hr.
  induction Hr' as [|x y z Hxy _ IH]; [done|]. apply terminal_step in Hxy as ->; auto.
Qed.

Lemma agent_run_safe_witness :
  under_budget (AgentRun_Budget (sample_run 0)) (AgentRun_Usage (fst (Transition (sample_run 0) RunPreparing "" 1))).
Proof.
  destruct (agent_run_safe (sample_run 0) 0 (sample_run 0) (fst (Transition (sample_run 0) RunPreparing "" 1)))
    as (_ & _ & Hb & _).
  - vm_compute. reflexivity.
  - reflexivity.
  - apply rtc_once, agent_transition.
  - apply Hb. vm_compute. reflexivity.
Defined.

(** While the sums stay within 64 bits, applied usage is the exact sum, and
    the run is stopped precisely when the deadline has passed or some limit of
    the budget is reached. *)
Theorem usage_exact r delta now :
  Terminal r = false ->
  (forall f, f ∈ [Usage_Steps; Usage_Tokens; Usage_ToolCalls] ->
     0 <= f delta /\ int64_range (f (AgentRun_Usage r) + f delta))%Z ->
  float_ltb (Usage_Cost delta) float_zero = false ->
  let r' := fst (ApplyUsage r delta now) in
  (forall f, f ∈ [Usage_Steps; Usage_Tokens; Usage_ToolCalls] ->
     f (AgentRun_Usage r') = (f (AgentRun_Usage r) + f delta)%Z) /\
  Usage_Cost (AgentRun_Usage r') = float_add (Usage_Cost (AgentRun_Usage r)) (Usage_Cost delta) /\
  (Terminal r' = true <->
     ~ ((now < Deadline (AgentRun_Budget r))%Z /\ under_budget (AgentRun_Budget r) (AgentRun_Usage r'))) /\
  (snd (ApplyUsage r delta now) = if Terminal r' then Some ErrBudgetExceeded else None).
Proof.
  intros Ht Hf Hc. cbv zeta.
  destruct (Hf Usage_Steps ltac:(by left)) as [Hs Hs']. destruct (Hf Usage_Tokens ltac:(right; by left)) as [Htk Htk'].
  destruct (Hf Usage_ToolCalls ltac:(do 2 right; by left)) as [Htc Htc'].
  unfold ApplyUsage. rewrite Ht, Hc, (proj2 (Z.ltb_ge _ _) Hs), (proj2 (Z.ltb_ge _ _) Htk), (proj2 (Z.ltb_ge _ _) Htc).
  cbn [orb]. cbv zeta. set (r1 := set_AgentRun _ _ (add_usage _ _) _ r).
  pose proof (budgetStopReason_empty r1 now) as Hiff.
  assert (forall f, f ∈ [Usage_Steps; Usage_Tokens; Usage_ToolCalls] ->
    f (AgentRun_Usage r1) = (f (AgentRun_Usage r) + f delta)%Z) as Hsum.
  { intros f [->|[->|[->|Hn%elem_of_nil]%elem_of_cons]%elem_of_cons]%elem_of_cons; [..|done];
      cbn; by apply wrap64_id. }
  destruct (str_empty (budgetStopReason r1 now)) eqn:He.
  - apply String.eqb_eq, Hiff in He. split_and!; [exact Hsum|done| |].
    + split; [|intros Hn; by destruct Hn]. change (Terminal _) with (Terminal r). by rewrite Ht.
    + change (Terminal _) with (Terminal r). by rewrite Ht.
  - apply String.eqb_neq in He.
    match goal with |- context [Terminal (fst (?x, _))] => assert (Terminal x = true) as Hterm end.
    { unfold Terminal. cbn [AgentRun_State set_AgentRun]. by case_match. }
    split_and!; [exact Hsum|done| |].
    + cbn [fst]. rewrite Hterm. split; [|done]. intros _ Hn. apply He, Hiff. exact Hn.
    + cbn [fst snd]. by rewrite Hterm.
Qed.

Lemma usage_exact_witness :
  Usage_Tokens (AgentRun_Usage (fst (ApplyUsage (sample_run 400) (AgentRun_Usage (sample_run 600)) 1))) = 1000%Z.
Proof.
  destruct (usage_exact (sample_run 400) (AgentRun_Usage (sample_run 600)) 1) as [Hs _].
  - vm_compute. reflexivity.
  - intros f [->|[->|[->|Hn%elem_of_nil]%elem_of_cons]%elem_of_cons]%elem_of_cons; [..|destruct Hn];
      unfold int64_range; cbn; lia.
  - vm_compute. reflexivity.
  - apply (Hs Usage_Tokens). right. left.
Defined.

(** Usage is added without a check for overflow: a delta of the largest
    64-bit integer makes the recorded tokens negative and the run goes on,
    although the budget is exceeded. *)
Theorem usage_overflow_escapes_budget :
  let delta := AgentRun_Usage (sample_run (2 ^ 63 - 1)) in
  exists r, ApplyUsage (sample_run 500) delta 1 = (r, None) /\ Terminal r = false /\
    (Usage_Tokens (AgentRun_Usage r) < 0)%Z /\
    (MaxTokens (AgentRun_Budget r) <= 500 + Usage_Tokens delta)%Z.
Proof. eexists. split; [reflexivity|]. vm_compute. repeat split; discriminate. Qed.

(** The tracker stops a run exactly when the action that is observed ends a
    sequence of as many identical actions as the limit, whatever came before. *)
Theorem no_progress_exact k history action :
  (0 < k)%Z -> (forall x, x ∈ action :: history -> blank x = false) ->
  (Z.of_nat (length (action :: history)) < 2 ^ 63)%Z ->
  snd (Observe (tracker_after k history) action) =
  inl (if (k <=? Z.of_nat (streak (action :: history)))%Z then StopNoProgress else "").
Proof.
  intros Hk Hb Hl. pose proof (tracker_spec k (action :: history) Hk Hb Hl) as Hspec. cbn [tracker_after] in Hspec.
  assert (str_empty (TrimSpace action) = false) as Hx by (apply Hb; by left).
  assert (MaxIdenticalActions (tracker_after k history) = k) as Hm.
  { rewrite tracker_spec; [done|done|intros; apply Hb; by right|simpl in Hl; lia]. }
  revert Hspec. unfold Observe. rewrite Hx, Hm, (proj2 (Z.leb_gt _ _) Hk).
  destruct (String.eqb _ _); cbn [MaxIdenticalActions Repeated]; rewrite ?Hm;
    destruct (k <=? _)%Z eqn:Hle; cbn [fst snd]; intros Hrep%(f_equal Repeated); cbn [Repeated] in Hrep; by rewrite <-Hrep, Hle.
Qed.

Lemma no_progress_exact_witness :
  snd (Observe (tracker_after 2 ["read "; "write"]) "read") = inl StopNoProgress.
Proof.
  rewrite (no_progress_exact 2 ["read "; "write"] "read"); [vm_compute; reflexivity|lia| |cbn; lia].
  intros x [->|[->|[->|Hn%elem_of_nil]%elem_of_cons]%elem_of_cons]%elem_of_cons; [..|destruct Hn];
    vm_compute; reflexivity.
Defined.
