(* ===== verification/GoLib.v ===== *)
(** * Parts of Go's library used by the network components

    Rune counts of [unicode/utf8], the contract of [sort.Slice], the errors of
    [platform/apperrors.NewBusiness] and the nil checks of pointers. *)

From Stdlib Require Import Ascii.
From S2P Require Import Prelude GoStrings.


(** ** Runes *)

Definition byte_between (lo hi : nat) (c : ascii) : bool :=
  (lo <=? Ascii.nat_of_ascii c) && (Ascii.nat_of_ascii c <=? hi).

Definition continuation (c : ascii) : bool := byte_between 128 191 c.

(** The width of the first rune; an invalid byte is a rune of width one. *)
Definition rune_width (s : string) : nat :=
  match s with
  | "" => 0
  | String c rest =>
      if byte_between 194 223 c then
        match rest with String d _ => if continuation d then 2 else 1 | "" => 1 end
      else if byte_between 224 239 c then
        match rest with
        | String d (String e _) =>
            let lo := if Ascii.nat_of_ascii c =? 224 then 160 else 128 in
            let hi := if Ascii.nat_of_ascii c =? 237 then 159 else 191 in
            if byte_between lo hi d && continuation e then 3 else 1
        | _ => 1
        end
      else if byte_between 240 244 c then
        match rest with
        | String d (String e (String f _)) =>
            let lo := if Ascii.nat_of_ascii c =? 240 then 144 else 128 in
            let hi := if Ascii.nat_of_ascii c =? 244 then 143 else 191 in
            if byte_between lo hi d && continuation e && continuation f then 4 else 1
        | _ => 1
        end
      else 1
  end.

Fixpoint count_runes (skip : nat) (s : string) : nat :=
  match s with
  | "" => 0
  | String _ rest =>
      match skip with
      | S k => count_runes k rest
      | O => S (count_runes (Nat.pred (rune_width s)) rest)
      end
  end.

Definition RuneCountInString (s : string) : nat := count_runes 0 s.

Lemma RuneCountInString_empty s : RuneCountInString s = 0 <-> s = "".
Proof. destruct s; [done|]. split; [|done]. unfold RuneCountInString. cbn [count_runes]. done. Qed.

Lemma count_runes_length k s : count_runes k s <= String.length s.
Proof.
  revert k. induction s as [|c s IH]; intros k; [done|]. cbn [count_runes String.length].
  destruct k as [|k]; [specialize (IH (Nat.pred (rune_width (String c s))))|specialize (IH k)]; lia.
Qed.

(** ** [sort.Slice] *)

(** What [sort.Slice] promises for a strict weak order: a permutation in which
    no element is less than an earlier one. *)
Class SliceSort {A} (less : A -> A -> bool) := {
  slice_sort : list A -> list A;
  slice_sort_perm : forall l, slice_sort l ≡ₚ l;
  slice_sort_sorted : forall l, StronglySorted (fun x y => less y x = false) (slice_sort l)
}.
Arguments slice_sort {A} less {_} l.

Definition not_after {A} (less : A -> A -> bool) (x y : A) : Prop := less y x = false.

#[export] Instance not_after_dec {A} (less : A -> A -> bool) x y : Decision (not_after less x y).
Proof. unfold not_after. apply _. Defined.

(** Merge sort meets the contract when [less] is a strict weak order. *)
Definition merge_slice_sort {A} (less : A -> A -> bool)
    (Htotal : Total (not_after less)) (Htrans : Transitive (not_after less)) : SliceSort less :=
  {| slice_sort := merge_sort (not_after less);
     slice_sort_perm := merge_sort_Permutation (not_after less);
     slice_sort_sorted := StronglySorted_merge_sort (not_after less) |}.

(** ** Errors *)

(** [apperrors.NewBusiness]: the category, the code and the English message;
    the Chinese message is chosen at the HTTP boundary only. *)
Definition NewBusiness (kind : error_kind) (code englishMessage : string) : error :=
  let code := TrimSpace code in
  mk_error kind (if str_empty code then TrimSpace englishMessage
                 else code +:+ ": " +:+ TrimSpace englishMessage).

(** Functions that only return an error. *)
Definition seq_err (a b : option error) : option error :=
  match a with Some e => Some e | None => b end.

(** The first error of a loop that stops at an error. *)
Fixpoint first_err {A} (f : A -> option error) (l : list A) : option error :=
  match l with [] => None | x :: l => seq_err (f x) (first_err f l) end.

Lemma seq_err_None a b : seq_err a b = None <-> a = None /\ b = None.
Proof. destruct a; cbn; naive_solver. Qed.

Lemma first_err_None {A} (f : A -> option error) l :
  first_err f l = None <-> forall x, x ∈ l -> f x = None.
Proof.
  induction l as [|x l IH]; cbn [first_err]; [split; [intros _ ? Hx; by apply elem_of_nil in Hx|done]|].
  rewrite seq_err_None, IH. setoid_rewrite elem_of_cons. naive_solver.
Qed.
