(* ===== verification/NetIP.v ===== *)
(** * Go's [net/netip]

    Addresses and prefixes with the operations the network code uses: parsing,
    printing, classification, [Contains], [Masked] and [Overlaps], written
    after the library's algorithms on bits.  An IPv4 address is a 32-bit
    integer, an IPv6 address a 128-bit integer with a zone; the prefix length
    of an invalid prefix is -1.  The lemmas relate the operations on bits to
    ranges of integers. *)

From Stdlib Require Import Ascii.
From stdpp Require Import pretty.
From S2P Require Import Prelude GoStrings.

(** ** Addresses *)

Inductive Addr :=
| AddrZero
| Addr4 (v : Z)
| Addr6 (v : Z) (zone : string).

#[export] Instance Addr_eq_dec : EqDecision Addr.
Proof. solve_decision. Defined.

Definition BitLen (ip : Addr) : Z :=
  match ip with AddrZero => 0 | Addr4 _ => 32 | Addr6 _ _ => 128 end.

Definition Is4 (ip : Addr) : bool := match ip with Addr4 _ => true | _ => false end.
Definition Is6 (ip : Addr) : bool := match ip with Addr6 _ _ => true | _ => false end.

Definition addr_value (ip : Addr) : Z :=
  match ip with AddrZero => 0 | Addr4 v => v | Addr6 v _ => v end.

Definition hasZone (ip : Addr) : bool :=
  match ip with Addr6 _ zone => negb (str_empty zone) | _ => false end.

Definition withoutZone (ip : Addr) : Addr :=
  match ip with Addr6 v _ => Addr6 v "" | _ => ip end.

(** An IPv4-mapped IPv6 address: 80 zero bits and 16 one bits. *)
Definition Is4In6 (ip : Addr) : bool :=
  match ip with Addr6 v _ => (Z.shiftr v 32 =? 65535)%Z | _ => false end.

Definition Unmap (ip : Addr) : Addr :=
  if Is4In6 ip then Addr4 (Z.land (addr_value ip) (Z.ones 32)) else ip.

(** The byte [i] from the left of an IPv4 address, the group [i] of 16 bits
    from the left of an IPv6 address. *)
Definition v4_byte (v : Z) (i : Z) : Z := Z.land (Z.shiftr v (8 * (3 - i))) 255.
Definition v6_group (v : Z) (i : Z) : Z := Z.land (Z.shiftr v (16 * (7 - i))) 65535.

Definition IsUnspecified (ip : Addr) : bool :=
  bool_decide (ip = Addr4 0) || bool_decide (ip = Addr6 0 "").

Definition IsLoopback (ip : Addr) : bool :=
  match Unmap ip with
  | Addr4 v => (v4_byte v 0 =? 127)%Z
  | Addr6 v _ => (v =? 1)%Z
  | AddrZero => false
  end.

Definition IsPrivate (ip : Addr) : bool :=
  match Unmap ip with
  | Addr4 v =>
      (v4_byte v 0 =? 10)%Z ||
      ((v4_byte v 0 =? 172)%Z && (Z.land (v4_byte v 1) 240 =? 16)%Z) ||
      ((v4_byte v 0 =? 192)%Z && (v4_byte v 1 =? 168)%Z)
  | Addr6 v _ => (Z.land (v6_group v 0) 65024 =? 64512)%Z
  | AddrZero => false
  end.

Definition IsLinkLocalUnicast (ip : Addr) : bool :=
  match Unmap ip with
  | Addr4 v => (v4_byte v 0 =? 169)%Z && (v4_byte v 1 =? 254)%Z
  | Addr6 v _ => (Z.land (v6_group v 0) 65472 =? 65152)%Z
  | AddrZero => false
  end.

Definition IsMulticast (ip : Addr) : bool :=
  match Unmap ip with
  | Addr4 v => (Z.land (v4_byte v 0) 240 =? 224)%Z
  | Addr6 v _ => (Z.shiftr (v6_group v 0) 8 =? 255)%Z
  | AddrZero => false
  end.

Definition IsGlobalUnicast (ip : Addr) : bool :=
  match ip with
  | AddrZero => false
  | _ =>
      let ip := Unmap ip in
      if Is4 ip && ((addr_value ip =? 0)%Z || (addr_value ip =? 4294967295)%Z) then false
      else negb (IsUnspecified ip) && negb (IsLoopback ip) && negb (IsMulticast ip) && negb (IsLinkLocalUnicast ip)
  end.

(** ** Prefixes *)

Record Prefix := mk_prefix { prefix_Addr : Addr; prefix_Bits : Z }.

#[export] Instance Prefix_eq_dec : EqDecision Prefix.
Proof. solve_decision. Defined.

Definition zero_Prefix : Prefix := mk_prefix AddrZero (-1).

Definition prefix_IsValid (p : Prefix) : bool := (0 <=? prefix_Bits p)%Z.

Definition PrefixFrom (ip : Addr) (bits : Z) : Prefix :=
  mk_prefix (withoutZone ip)
    (if negb (bool_decide (ip = AddrZero)) && (0 <=? bits)%Z && (bits <=? BitLen ip)%Z then bits else (-1)%Z).

(** The mask of the [n] leading bits of [width]. *)
Definition mask (width n : Z) : Z := Z.shiftl (Z.ones n) (width - n).

(** [Addr.Prefix]: the address cut to its [b] leading bits; [None] is an error. *)
Definition addr_Prefix (ip : Addr) (b : Z) : option Prefix :=
  if (b <? 0)%Z then None
  else match ip with
  | AddrZero => Some zero_Prefix
  | Addr4 v => if (32 <? b)%Z then None else Some (PrefixFrom (Addr4 (Z.land v (mask 32 b))) b)
  | Addr6 v zone => if (128 <? b)%Z then None else Some (PrefixFrom (Addr6 (Z.land v (mask 128 b)) zone) b)
  end.

Definition Masked (p : Prefix) : Prefix := default zero_Prefix (addr_Prefix (prefix_Addr p) (prefix_Bits p)).

Definition prefix_Contains (p : Prefix) (ip : Addr) : bool :=
  if negb (prefix_IsValid p) || hasZone ip then false
  else match prefix_Addr p, ip with
  | Addr4 v, Addr4 w => (Z.shiftr (Z.lxor w v) (32 - prefix_Bits p) =? 0)%Z
  | Addr6 v _, Addr6 w _ => (Z.land (Z.lxor w v) (mask 128 (prefix_Bits p)) =? 0)%Z
  | _, _ => false
  end.

Definition prefix_Overlaps (p o : Prefix) : bool :=
  if negb (prefix_IsValid p) || negb (prefix_IsValid o) then false
  else if bool_decide (p = o) then true
  else if negb (Bool.eqb (Is4 (prefix_Addr p)) (Is4 (prefix_Addr o))) then false
  else
    let minBits := Z.min (prefix_Bits p) (prefix_Bits o) in
    if (minBits =? 0)%Z then true
    else match addr_Prefix (prefix_Addr p) minBits, addr_Prefix (prefix_Addr o) minBits with
    | Some p, Some o => bool_decide (prefix_Addr p = prefix_Addr o)
    | _, _ => false
    end.

(** ** Parsing *)

Definition ascii_code (c : ascii) : Z := Z.of_nat (nat_of_ascii c).

Definition digit (c : ascii) : option Z :=
  let n := ascii_code c in
  if (48 <=? n)%Z && (n <=? 57)%Z then Some (n - 48)%Z else None.

Definition hex_digit (c : ascii) : option Z :=
  let n := ascii_code c in
  if (48 <=? n)%Z && (n <=? 57)%Z then Some (n - 48)%Z
  else if (97 <=? n)%Z && (n <=? 102)%Z then Some (n - 97 + 10)%Z
  else if (65 <=? n)%Z && (n <=? 70)%Z then Some (n - 65 + 10)%Z
  else None.

(** The loop of [parseIPv4Fields]: the fields so far, the current value, its
    number of digits, and whether the last character was a dot or the start. *)
Fixpoint parse_fields (fields : list Z) (val : Z) (digLen : nat) (dot : bool) (s : string) : option (list Z) :=
  match s with
  | "" => if (length fields =? 3) then Some (fields ++ [val]) else None
  | String c rest =>
      match digit c with
      | Some d =>
          if (digLen =? 1) && (val =? 0)%Z then None
          else let val := (val * 10 + d)%Z in
               if (255 <? val)%Z then None else parse_fields fields val (S digLen) false rest
      | None =>
          if Ascii.eqb c "." then
            if dot || str_empty rest || (length fields =? 3) then None
            else parse_fields (fields ++ [val]) 0 0 true rest
          else None
      end
  end.

Definition parseIPv4Fields (s : string) : option (list Z) := parse_fields [] 0 0 true s.

(** Bytes, most significant first. *)
Definition bytes_value (l : list Z) : Z := fold_left (fun acc b => acc * 256 + b)%Z l 0%Z.

Definition parseIPv4 (s : string) : option Addr := Addr4 ∘ bytes_value <$> parseIPv4Fields s.

(** A hexadecimal group: its value, its number of digits and the rest, or an
    error for more than four digits. *)
Fixpoint read_group (off : nat) (acc : Z) (s : string) : option (Z * nat * string) :=
  match s with
  | "" => Some (acc, off, "")
  | String c rest =>
      match hex_digit c with
      | None => Some (acc, off, s)
      | Some d =>
          let acc := (acc * 16 + d)%Z in
          if (3 <? off) || (65535 <? acc)%Z then None else read_group (S off) acc rest
      end
  end.

(** The rest of a string that starts with a character. *)
Definition strip_char (a : ascii) (s : string) : option string :=
  match s with String c rest => if Ascii.eqb c a then Some rest else None | "" => None end.

(** The loop of [parseIPv6]: at most eight groups; the bytes read, the
    position of the ellipsis and what is left of the string. *)
Fixpoint parse_groups (fuel : nat) (ip : list Z) (ellipsis : option nat) (s : string)
    : option (list Z * option nat * string) :=
  match fuel with
  | O => Some (ip, ellipsis, s)
  | S fuel =>
      '(acc, off, after) ← read_group 0 0 s;
      if (off =? 0) then None
      else if bool_decide (is_Some (strip_char "." after)) then
        if (bool_decide (ellipsis = None) && negb (length ip =? 12)) || (16 <? length ip + 4) then None
        else (fun fields => (ip ++ fields, ellipsis, "")) <$> parseIPv4Fields s
      else
        let ip := ip ++ [Z.shiftr acc 8; Z.land acc 255] in
        if str_empty after then Some (ip, ellipsis, "")
        else
          rest ← strip_char ":" after;
          if str_empty rest then None
          else match strip_char ":" rest with
          | Some rest =>
              if bool_decide (ellipsis = None) then
                if str_empty rest then Some (ip, Some (length ip), "")
                else parse_groups fuel ip (Some (length ip)) rest
              else None
          | None => parse_groups fuel ip ellipsis rest
          end
  end.

(** The address without its zone. *)
Definition parse_unzoned (s : string) : option Z :=
  let '(s, ellipsis) := match strip_char ":" s ≫= strip_char ":" with Some rest => (rest, Some 0) | None => (s, None) end in
  if str_empty s && bool_decide (ellipsis = Some 0) then Some 0%Z
  else
    '(ip, ellipsis, rest) ← parse_groups 8 [] ellipsis s;
    if negb (str_empty rest) then None
    else if (length ip <? 16) then
      (fun at_ => bytes_value (take at_ ip ++ replicate (16 - length ip) 0%Z ++ drop at_ ip)) <$> ellipsis
    else if bool_decide (ellipsis = None) then Some (bytes_value ip) else None.

Definition parseIPv6 (s : string) : option Addr :=
  match Cut s "%" with
  | None => (fun v => Addr6 v "") <$> parse_unzoned s
  | Some (s, zone) => if str_empty zone then None else (fun v => Addr6 v zone) <$> parse_unzoned s
  end.

Fixpoint parse_addr_from (s rest : string) : option Addr :=
  match rest with
  | "" => None
  | String c rest =>
      if Ascii.eqb c "." then parseIPv4 s
      else if Ascii.eqb c ":" then parseIPv6 s
      else if Ascii.eqb c "%" then None
      else parse_addr_from s rest
  end.

Definition ParseAddr (s : string) : option Addr := parse_addr_from s s.

(** [strconv.Atoi] on a text without a sign. *)
Fixpoint digits_value (acc : Z) (s : string) : option Z :=
  match s with
  | "" => Some acc
  | String c rest => d ← digit c; digits_value (acc * 10 + d)%Z rest
  end.

(** The parts around the last slash. *)
Fixpoint cut_last_slash (s : string) : option (string * string) :=
  match s with
  | "" => None
  | String c rest =>
      match cut_last_slash rest with
      | Some (a, b) => Some (String c a, b)
      | None => if Ascii.eqb c "/" then Some ("", rest) else None
      end
  end.

Definition ParsePrefix (s : string) : option Prefix :=
  '(address, bits) ← cut_last_slash s;
  ip ← ParseAddr address;
  if hasZone ip then None
  else match bits with
  | "" => None
  | String c (String _ _) =>
      if (ascii_code c <? 49)%Z || (57 <? ascii_code c)%Z then None
      else b ← digits_value 0 bits; if (BitLen ip <? b)%Z then None else Some (PrefixFrom ip b)
  | _ => b ← digits_value 0 bits; if (BitLen ip <? b)%Z then None else Some (PrefixFrom ip b)
  end.

(** ** Printing *)

Definition hex_char (d : Z) : ascii :=
  ascii_of_nat (Z.to_nat (if (d <? 10)%Z then 48 + d else 87 + d)).

(** A group in hexadecimal without leading zeros. *)
Definition group_string (x : Z) : string :=
  let d3 := Z.land (Z.shiftr x 12) 15 in let d2 := Z.land (Z.shiftr x 8) 15 in
  let d1 := Z.land (Z.shiftr x 4) 15 in let d0 := Z.land x 15 in
  if (4096 <=? x)%Z then String (hex_char d3) (String (hex_char d2) (String (hex_char d1) (String (hex_char d0) "")))
  else if (256 <=? x)%Z then String (hex_char d2) (String (hex_char d1) (String (hex_char d0) ""))
  else if (16 <=? x)%Z then String (hex_char d1) (String (hex_char d0) "")
  else String (hex_char d0) "".

Fixpoint zero_run (l : list Z) : nat :=
  match l with x :: l => if (x =? 0)%Z then S (zero_run l) else 0 | [] => 0 end.

(** The first of the longest runs of at least two zero groups. *)
Fixpoint longest_run (i : nat) (start len : nat) (l : list Z) : nat * nat :=
  match l with
  | [] => (start, len)
  | _ :: l' =>
      let n := zero_run l in
      if (2 <=? n) && (len <? n) then longest_run (S i) i n l' else longest_run (S i) start len l'
  end.

Definition v6_string (v : Z) : string :=
  let groups := (fun i => v6_group v (Z.of_nat i)) <$> seq 0 8 in
  let '(start, len) := longest_run 0 255 0 groups in
  if (len =? 0) then Join (group_string <$> groups) ":"
  else Join (group_string <$> take start groups) ":" +:+ "::" +:+
       Join (group_string <$> drop (start + len) groups) ":".

Definition v4_string (v : Z) : string :=
  Join ((fun i => pretty (v4_byte v (Z.of_nat i))) <$> seq 0 4) ".".

Definition addr_String (ip : Addr) : string :=
  match ip with
  | AddrZero => "invalid IP"
  | Addr4 v => v4_string v
  | Addr6 v zone =>
      (if Is4In6 ip then "::ffff:" +:+ v4_string (Z.land v (Z.ones 32)) else v6_string v) +:+
      (if str_empty zone then "" else "%" +:+ zone)
  end.

Definition prefix_String (p : Prefix) : string :=
  if prefix_IsValid p then addr_String (prefix_Addr p) +:+ "/" +:+ pretty (prefix_Bits p) else "invalid Prefix".

(** ** Well-formed values *)

Definition addr_ok (ip : Addr) : Prop :=
  match ip with
  | AddrZero => False
  | Addr4 v => (0 <= v < 2 ^ 32)%Z
  | Addr6 v _ => (0 <= v < 2 ^ 128)%Z
  end.

Record prefix_ok (p : Prefix) : Prop := {
  prefix_addr_ok : addr_ok (prefix_Addr p);
  prefix_no_zone : hasZone (prefix_Addr p) = false;
  prefix_bits_ok : (0 <= prefix_Bits p <= BitLen (prefix_Addr p))%Z
}.

Lemma addr_ok_range ip : addr_ok ip -> (0 <= addr_value ip < 2 ^ BitLen ip)%Z.
Proof. by destruct ip. Qed.

Lemma BitLen_pos ip : addr_ok ip -> (0 < BitLen ip)%Z.
Proof. by destruct ip. Qed.

Lemma PrefixFrom_ok ip bits :
  addr_ok ip -> (0 <= bits <= BitLen ip)%Z ->
  prefix_ok (PrefixFrom ip bits) /\ prefix_Bits (PrefixFrom ip bits) = bits.
Proof.
  intros Hip Hb. unfold PrefixFrom. rewrite bool_decide_false by (intros ->; done).
  rewrite (proj2 (Z.leb_le _ _)), (proj2 (Z.leb_le _ _)) by lia. cbn [negb andb prefix_Bits]. split; [|done].
  by destruct ip; split; cbn.
Qed.

(** *** What is parsed is well formed *)

Lemma digit_range c d : digit c = Some d -> (0 <= d <= 9)%Z.
Proof. unfold digit. destruct (_ && _) eqn:Hc; [|done]. intros [= <-]. apply andb_true_iff in Hc as [?%Z.leb_le ?%Z.leb_le]. lia. Qed.

Lemma hex_digit_range c d : hex_digit c = Some d -> (0 <= d <= 15)%Z.
Proof.
  unfold hex_digit. repeat (destruct (_ && _) eqn:Hc; [intros [= <-]; apply andb_true_iff in Hc as [?%Z.leb_le ?%Z.leb_le]; lia|clear Hc]).
  done.
Qed.

Definition bytes_ok (l : list Z) : Prop := Forall (fun b => 0 <= b < 256)%Z l.

Lemma parse_fields_ok s : forall fields val digLen dot l,
  bytes_ok fields -> (0 <= val < 256)%Z -> parse_fields fields val digLen dot s = Some l ->
  bytes_ok l /\ length l = 4.
Proof.
  induction s as [|c s IH]; intros fields val digLen dot l Hf Hv; cbn [parse_fields].
  - destruct (length fields =? 3) eqn:Hlen; [|done]. apply Nat.eqb_eq in Hlen. intros [= <-].
    split; [apply Forall_app; split; [done|by constructor]|rewrite length_app; simpl; lia].
  - destruct (digit c) as [d|] eqn:Hd.
    + destruct (_ && _); [done|]. destruct (255 <? _)%Z eqn:Hlt; [done|]. apply digit_range in Hd. apply Z.ltb_ge in Hlt.
      intros Hp. eapply IH; [exact Hf| |exact Hp]. lia.
    + destruct (Ascii.eqb c "."); [|done]. destruct (_ || _ || _); [done|]. intros Hp.
      eapply IH; [| |exact Hp]; [apply Forall_app; split; [done|by constructor]|lia].
Qed.

Lemma parseIPv4Fields_ok s l : parseIPv4Fields s = Some l -> bytes_ok l /\ length l = 4.
Proof. apply parse_fields_ok; [constructor|lia]. Qed.

Lemma bytes_value_range l : bytes_ok l -> (0 <= bytes_value l < 256 ^ Z.of_nat (length l))%Z.
Proof.
  induction l as [|b l IH] using rev_ind; intros Hl; [done|]. apply Forall_app in Hl as [Hl Hb].
  apply Forall_cons in Hb as [Hb _]. specialize (IH Hl).
  unfold bytes_value in *. rewrite fold_left_app, length_app. cbn [fold_left length].
  replace (Z.of_nat (length l + 1)) with (Z.succ (Z.of_nat (length l))) by lia.
  rewrite Z.pow_succ_r by lia. lia.
Qed.

Lemma read_group_range s : forall off acc x n rest,
  (0 <= acc <= 65535)%Z -> read_group off acc s = Some (x, n, rest) -> (0 <= x <= 65535)%Z.
Proof.
  induction s as [|c s IH]; intros off acc x n rest Ha; cbn [read_group]; [by intros [= <- _ _]|].
  destruct (hex_digit c) as [d|] eqn:Hd; [|by intros [= <- _ _]]. apply hex_digit_range in Hd.
  destruct (_ || _) eqn:Hg; [done|]. apply orb_false_iff in Hg as [_ Hg%Z.ltb_ge]. apply IH. lia.
Qed.

Lemma group_bytes_ok x : (0 <= x <= 65535)%Z -> bytes_ok [Z.shiftr x 8; Z.land x 255].
Proof.
  intros Hx. change 255%Z with (Z.ones 8). rewrite Z.land_ones, Z.shiftr_div_pow2 by lia. change (2 ^ 8)%Z with 256%Z.
  pose proof (Z.mod_pos_bound x 256). pose proof (Z.div_pos x 256). pose proof (Z.div_lt_upper_bound x 256 256).
  constructor; [lia|]. constructor; [lia|constructor].
Qed.

(** Eight groups are sixteen bytes; the ellipsis lies within what was read. *)
Lemma parse_groups_ok fuel : forall ip ellipsis s ip' ellipsis' rest,
  bytes_ok ip -> length ip + 2 * fuel = 16 -> (forall e, ellipsis = Some e -> e <= length ip) ->
  parse_groups fuel ip ellipsis s = Some (ip', ellipsis', rest) ->
  bytes_ok ip' /\ length ip' <= 16 /\ (forall e, ellipsis' = Some e -> e <= length ip').
Proof.
  induction fuel as [|fuel IH]; intros ip ellipsis s ip' ellipsis' rest Hip Hlen He; cbn [parse_groups].
  { intros [= <- <- <-]. split_and!; [done|lia|done]. }
  destruct (read_group 0 0 s) as [[[x off] after]|] eqn:Hr; [|done]. cbn [mbind option_bind].
  apply read_group_range in Hr; [|lia]. destruct (off =? 0); [done|].
  assert (bytes_ok (ip ++ [Z.shiftr x 8; Z.land x 255])) as Hip2 by (apply Forall_app; split; [done|by apply group_bytes_ok]).
  assert (length (ip ++ [Z.shiftr x 8; Z.land x 255]) = length ip + 2) as Hl2 by (by rewrite length_app).
  set (ip2 := ip ++ [Z.shiftr x 8; Z.land x 255]) in *. clearbody ip2.
  destruct (bool_decide (is_Some _)).
  { destruct (_ || _) eqn:Hg; [done|]. apply orb_false_iff in Hg as [_ Hg%Nat.ltb_ge].
    destruct (parseIPv4Fields s) as [fields|] eqn:Hf; [|done]. apply parseIPv4Fields_ok in Hf as [Hfo Hfl].
    intros [= <- <- <-]. rewrite length_app. split_and!; [by apply Forall_app|lia|]. intros e Hee. specialize (He e Hee). lia. }
  destruct (str_empty after).
  { intros [= <- <- <-]. split_and!; [done|lia|]. intros e Hee. specialize (He e Hee). lia. }
  destruct (strip_char ":" after) as [r|]; [|done]. cbn [mbind option_bind]. destruct (str_empty r); [done|].
  destruct (strip_char ":" r) as [r2|].
  - destruct (bool_decide _); [|done]. destruct (str_empty r2).
    + intros [= <- <- <-]. split_and!; [done|lia|]. by intros e [= <-].
    + apply IH; [done|lia|]. by intros e [= <-].
  - apply IH; [done|lia|]. intros e Hee. specialize (He e Hee). lia.
Qed.

Lemma parse_unzoned_ok s v : parse_unzoned s = Some v -> (0 <= v < 2 ^ 128)%Z.
Proof.
  unfold parse_unzoned. destruct (match _ with Some _ => _ | None => _ end) as [s' e0] eqn:He0.
  destruct (_ && _); [intros [= <-]; done|].
  destruct (parse_groups 8 [] e0 s') as [[[ip e] rest]|] eqn:Hg; [|done]. cbn [mbind option_bind].
  apply parse_groups_ok in Hg as (Hip & Hlen & He); [|constructor|done|].
  2: { intros e' ->. destruct (_ ≫= _); [injection He0 as _ <-; lia|done]. }
  destruct (negb _); [done|]. destruct (length ip <? 16) eqn:Hlt.
  - destruct e as [e|]; [|done]. apply Nat.ltb_lt in Hlt. specialize (He e eq_refl). intros [= <-].
    set (l := take e ip ++ replicate (16 - length ip) 0%Z ++ drop e ip).
    assert (length l = 16) as Hl by (unfold l; rewrite !length_app, length_take, length_replicate, length_drop; lia).
    change (2 ^ 128)%Z with (256 ^ Z.of_nat 16)%Z. rewrite <-Hl.
    apply bytes_value_range. apply Forall_app; split; [by apply Forall_take|]. apply Forall_app; split; [|by apply Forall_drop].
    apply Forall_replicate. lia.
  - apply Nat.ltb_ge in Hlt. destruct (bool_decide _); [|done]. intros [= <-].
    change (2 ^ 128)%Z with (256 ^ Z.of_nat 16)%Z. replace 16 with (length ip) by lia. by apply bytes_value_range.
Qed.

Lemma ParseAddr_ok s ip : ParseAddr s = Some ip -> addr_ok ip.
Proof.
  unfold ParseAddr. generalize s at 2 as rest. intros rest. induction rest as [|c rest IH]; cbn [parse_addr_from]; [done|].
  destruct (Ascii.eqb c "."); [|destruct (Ascii.eqb c ":"); [|by destruct (Ascii.eqb c "%")]].
  - unfold parseIPv4. destruct (parseIPv4Fields s) as [l|] eqn:Hl; [|done]. apply parseIPv4Fields_ok in Hl as [Hl H4].
    intros [= <-]. cbn. pose proof (bytes_value_range l Hl) as Hr. by rewrite H4 in Hr.
  - unfold parseIPv6. destruct (Cut s "%") as [[a zone]|]; [destruct (str_empty zone); [done|]|];
      (destruct (parse_unzoned _) as [v|] eqn:Hv; [|done]); intros [= <-]; by apply parse_unzoned_ok in Hv.
Qed.

Lemma digits_value_nonneg s : forall acc v, (0 <= acc)%Z -> digits_value acc s = Some v -> (0 <= v)%Z.
Proof.
  induction s as [|c s IH]; intros acc v Ha; cbn [digits_value]; [by intros [= <-]|].
  destruct (digit c) as [d|] eqn:Hd; [|done]. apply digit_range in Hd. cbn [mbind option_bind]. apply IH. lia.
Qed.

Lemma ParsePrefix_ok s p : ParsePrefix s = Some p -> prefix_ok p.
Proof.
  unfold ParsePrefix. destruct (cut_last_slash s) as [[a bits]|]; [|done]. cbn [mbind option_bind].
  destruct (ParseAddr a) as [ip|] eqn:Ha; [|done]. apply ParseAddr_ok in Ha. cbn [mbind option_bind].
  destruct (hasZone ip); [done|].
  assert (forall bits, (b ← digits_value 0 bits; if (BitLen ip <? b)%Z then None else Some (PrefixFrom ip b)) = Some p ->
    prefix_ok p) as Hgo.
  { intros bits'. destruct (digits_value 0 bits') as [b|] eqn:Hb; [|done]. apply digits_value_nonneg in Hb; [|lia].
    cbn [mbind option_bind]. destruct (_ <? b)%Z eqn:Hlt; [done|]. apply Z.ltb_ge in Hlt. intros [= <-].
    by apply PrefixFrom_ok. }
  destruct bits as [|c [|c' bits]]; [done|apply Hgo|]. destruct (_ || _); [done|]. apply Hgo.
Qed.

(** *** Prefixes as blocks of addresses *)

(** The [b] leading bits of a value of [w] bits. *)
Definition block (w b v : Z) : Z := Z.shiftr v (w - b).

Lemma land_shiftl x m k : (0 <= k)%Z -> Z.land x (Z.shiftl m k) = Z.shiftl (Z.land (Z.shiftr x k) m) k.
Proof.
  intros Hk. apply Z.bits_inj'. intros n Hn. rewrite Z.land_spec, !Z.shiftl_spec by done.
  destruct (Z.lt_ge_cases n k) as [Hlt|Hge].
  - rewrite !(Z.testbit_neg_r _ (n - k)) by lia. by rewrite andb_false_r.
  - rewrite Z.land_spec, Z.shiftr_spec by lia. by replace (n - k + k)%Z with n by lia.
Qed.

Lemma block_range w b v : (0 <= b <= w)%Z -> (0 <= v < 2 ^ w)%Z -> (0 <= block w b v < 2 ^ b)%Z.
Proof.
  intros Hb Hv. pose proof (Z.pow_pos_nonneg 2 (w - b)). unfold block. rewrite Z.shiftr_div_pow2 by lia. split; [apply Z.div_pos; lia|].
  apply Z.div_lt_upper_bound; [lia|]. rewrite <-Z.pow_add_r by lia. replace (w - b + b)%Z with w by lia. lia.
Qed.

Lemma land_mask w b v :
  (0 <= b <= w)%Z -> (0 <= v < 2 ^ w)%Z -> Z.land v (mask w b) = Z.shiftl (block w b v) (w - b).
Proof.
  intros Hb Hv. unfold mask. rewrite land_shiftl by lia. f_equal. fold (block w b v).
  rewrite Z.land_ones by lia. apply Z.mod_small. by apply block_range.
Qed.

Lemma shiftl_inj x y k : (0 <= k)%Z -> Z.shiftl x k = Z.shiftl y k -> x = y.
Proof. intros Hk Hxy. apply (f_equal (fun z => Z.shiftr z k)) in Hxy. by rewrite !Z.shiftr_shiftl_l, Z.sub_diag, !Z.shiftl_0_r in Hxy by done. Qed.

Lemma land_mask_eq w b v v' :
  (0 <= b <= w)%Z -> (0 <= v < 2 ^ w)%Z -> (0 <= v' < 2 ^ w)%Z ->
  Z.land v (mask w b) = Z.land v' (mask w b) <-> block w b v = block w b v'.
Proof.
  intros Hb Hv Hv'. rewrite !land_mask by done. split; [apply shiftl_inj; lia|by intros ->].
Qed.

Lemma block_lxor w b v v' : (0 <= b <= w)%Z -> block w b (Z.lxor v v') = 0%Z <-> block w b v = block w b v'.
Proof.
  intros Hb. unfold block. rewrite Z.shiftr_lxor. split; [apply Z.lxor_eq|]. intros ->. apply Z.lxor_nilpotent.
Qed.

Lemma lxor_range v v' w : (0 <= w)%Z -> (0 <= v < 2 ^ w)%Z -> (0 <= v' < 2 ^ w)%Z -> (0 <= Z.lxor v v' < 2 ^ w)%Z.
Proof.
  intros Hw Hv Hv'. split; [apply Z.lxor_nonneg; lia|].
  assert (Z.lxor v v' = Z.land (Z.lxor v v') (Z.ones w)) as ->.
  { apply Z.bits_inj'. intros n Hn. rewrite Z.land_spec, Z.lxor_spec.
    destruct (Z.lt_ge_cases n w); [by rewrite Z.ones_spec_low, andb_true_r by lia|].
    rewrite <-(Z.mod_small v (2 ^ w)), <-(Z.mod_small v' (2 ^ w)) by done.
    by rewrite !Z.mod_pow2_bits_high by lia. }
  rewrite Z.land_ones by done. apply Z.mod_pos_bound. by apply Z.pow_pos_nonneg.
Qed.

Lemma block_coarser w b b' v v' : (0 <= b' <= b)%Z -> (b <= w)%Z -> block w b v = block w b v' -> block w b' v = block w b' v'.
Proof.
  intros Hb Hw He. unfold block in *. replace (w - b')%Z with ((w - b) + (b - b'))%Z by lia.
  rewrite <-!Z.shiftr_shiftr by lia. by rewrite He.
Qed.

Definition same_block (p : Prefix) (ip : Addr) : Prop :=
  BitLen ip = BitLen (prefix_Addr p) /\
  block (BitLen ip) (prefix_Bits p) (addr_value ip) = block (BitLen ip) (prefix_Bits p) (addr_value (prefix_Addr p)).

(** A prefix contains the addresses without a zone that share its leading bits. *)
Lemma contains_iff p ip :
  prefix_ok p -> addr_ok ip -> prefix_Contains p ip = true <-> hasZone ip = false /\ same_block p ip.
Proof.
  intros [Hp Hz Hb] Hip. unfold prefix_Contains, prefix_IsValid, same_block. rewrite (proj2 (Z.leb_le 0 _)) by lia. cbn [negb orb].
  destruct (hasZone ip) eqn:Hzone; [naive_solver|].
  destruct (prefix_Addr p) as [|v|v z], ip as [|w|w z']; cbn [BitLen addr_value] in *; try naive_solver.
  - rewrite Z.eqb_eq. fold (block 32 (prefix_Bits p) (Z.lxor w v)). rewrite block_lxor by done. naive_solver.
  - rewrite Z.eqb_eq, land_mask by (done || by apply lxor_range).
    rewrite Z.shiftl_eq_0_iff by lia. rewrite block_lxor by done. naive_solver.
Qed.

(** The test of [Overlaps]: one family, and equal bits up to the shorter prefix. *)
Lemma overlaps_blocks p o :
  prefix_ok p -> prefix_ok o ->
  let w := BitLen (prefix_Addr p) in
  let b := Z.min (prefix_Bits p) (prefix_Bits o) in
  prefix_Overlaps p o = true <->
  w = BitLen (prefix_Addr o) /\ block w b (addr_value (prefix_Addr p)) = block w b (addr_value (prefix_Addr o)).
Proof.
  intros [Hp Hzp Hbp] [Ho Hzo Hbo]. cbv zeta. unfold prefix_Overlaps, prefix_IsValid.
  rewrite (proj2 (Z.leb_le 0 _)), (proj2 (Z.leb_le 0 _)) by lia. cbn [negb orb].
  destruct (bool_decide (p = o)) eqn:Heq; [apply bool_decide_eq_true in Heq as ->; done|]. clear Heq.
  destruct (Bool.eqb _ _) eqn:Hfam; cbn [negb]; [apply Bool.eqb_prop in Hfam|].
  2: { apply Bool.eqb_false_iff in Hfam. destruct (prefix_Addr p), (prefix_Addr o); naive_solver. }
  pose proof (addr_ok_range _ Hp) as Hvp. pose proof (addr_ok_range _ Ho) as Hvo.
  assert (BitLen (prefix_Addr p) = BitLen (prefix_Addr o)) as Hw by (destruct (prefix_Addr p), (prefix_Addr o); naive_solver).
  rewrite <-Hw in Hbo, Hvo. set (b := Z.min _ _) in *. assert (0 <= b <= BitLen (prefix_Addr p))%Z as Hb by lia.
  destruct (b =? 0)%Z eqn:H0.
  { apply Z.eqb_eq in H0. split; [intros _; split; [done|]|done]. rewrite H0.
    assert (0 <= 0 <= BitLen (prefix_Addr p))%Z as Hz by lia.
    pose proof (block_range _ 0 _ Hz Hvp). pose proof (block_range _ 0 _ Hz Hvo). lia. }
  clearbody b. clear H0. unfold addr_Prefix. rewrite (proj2 (Z.ltb_ge b 0)) by lia.
  destruct (prefix_Addr p) as [|v|v z], (prefix_Addr o) as [|v'|v' z']; try done; cbn [BitLen addr_value] in *;
    rewrite (proj2 (Z.ltb_ge _ b)) by lia; unfold PrefixFrom; cbn [prefix_Addr withoutZone];
    rewrite bool_decide_eq_true; rewrite <-land_mask_eq by done;
    (split; [intros [= He]; by rewrite He|intros [_ He]; by rewrite He]).
Qed.

(** Two prefixes overlap exactly when some address lies in both. *)
Lemma overlaps_iff p o :
  prefix_ok p -> prefix_ok o ->
  prefix_Overlaps p o = true <-> exists ip, addr_ok ip /\ prefix_Contains p ip = true /\ prefix_Contains o ip = true.
Proof.
  intros Hp Ho. pose proof Hp as [Hpa Hpz Hpb]. pose proof Ho as [Hoa Hoz Hob]. rewrite overlaps_blocks by done. cbv zeta. split.
  - intros [Hw Hb]. destruct (Z.le_ge_cases (prefix_Bits p) (prefix_Bits o)).
    + exists (prefix_Addr o). rewrite !contains_iff by done. unfold same_block. rewrite Z.min_l, Hw in Hb by lia. by split_and!.
    + exists (prefix_Addr p). rewrite !contains_iff by done. unfold same_block. rewrite Z.min_r in Hb by lia.
      by split_and!.
  - intros (ip & Hip & Hcp & Hco). rewrite contains_iff in Hcp, Hco by done.
    destruct Hcp as [_ [Hlp Hbp]], Hco as [_ [Hlo Hbo]]. split; [congruence|]. rewrite Hlp in Hbp, Hbo.
    assert (BitLen (prefix_Addr p) = BitLen (prefix_Addr o)) as Hw by congruence.
    transitivity (block (BitLen (prefix_Addr p)) (Z.min (prefix_Bits p) (prefix_Bits o)) (addr_value ip)).
    + symmetry. eapply (block_coarser _ (prefix_Bits p)); [lia|lia|done].
    + eapply (block_coarser _ (prefix_Bits o)); [lia|lia|done].
Qed.

(** A longer prefix whose address lies in a shorter one lies in it as a whole. *)
Lemma contains_subprefix sp p ip :
  prefix_ok sp -> prefix_ok p -> addr_ok ip ->
  (prefix_Bits sp <= prefix_Bits p)%Z -> prefix_Contains sp (prefix_Addr p) = true ->
  prefix_Contains p ip = true -> prefix_Contains sp ip = true.
Proof.
  intros Hsp Hp Hip Hb Hc1 Hc2. pose proof Hp as [Hpa _ Hpb]. pose proof Hsp as [_ _ Hspb].
  rewrite contains_iff in Hc1, Hc2 |- * by done. destruct Hc1 as [_ [Hl1 Hb1]], Hc2 as [Hz [Hl2 Hb2]].
  split; [done|]. split; [congruence|]. rewrite <-Hl2 in Hb1. etransitivity; [|exact Hb1].
  eapply (block_coarser _ (prefix_Bits p)); [lia|rewrite Hl2; lia|done].
Qed.
