(* ===== verification/NetworkModel.v ===== *)
(** * Network access: data

    The records and constants of [domain/networkaccess] (models.go,
    device_governance.go, nas_admission.go) and of [networkprotocol], with the
    same names.  A [time.Time] is its number of nanoseconds, a pointer an
    [option]; the server trust of a NAS binding belongs to the generated API
    package and is read by no modelled function, so it is left out. *)

From S2P Require Import Prelude GoStrings GoLib.

(** States of sites, spaces, bindings and devices. *)
Definition StatusActive : string := "active".
Definition DeviceStatusActive : string := "active".
Definition DeviceStatusPending : string := "pending".
Definition DeviceStatusQuarantined : string := "quarantined".
Definition DeviceStatusRevoked : string := "revoked".
Definition PostureCompliant : string := "compliant".
Definition PostureNoncompliant : string := "non_compliant".
Definition PostureUnknown : string := "unknown".

(** Access modes and the paths they take. *)
Definition ModeInternalDirect : string := "internal_direct".
Definition ModeInternalZTNA : string := "internal_ztna".
Definition ModeExternalVPN : string := "external_vpn".
Definition ModeExternalVPNZTNA : string := "external_vpn_ztna".
Definition ModeExternalDirectZTNA : string := "external_direct_ztna".
Definition PathAutomatic : string := "automatic".
Definition PathSiteDirect : string := "site_direct".
Definition PathAccessProxy : string := "access_proxy".
Definition PathWireGuard : string := "wireguard".
Definition PathWireGuardZTNA : string := "wireguard_ztna".
Definition PathDeny : string := "deny".

(** Decisions, access profiles and policy effects. *)
Definition DecisionAllow : string := "allow".
Definition DecisionDeny : string := "deny".
Definition ProfileOnboarding : string := "onboarding".
Definition ProfileFull : string := "full".
Definition ProfileRestricted : string := "restricted".
Definition ProfileQuarantine : string := "quarantine".
Definition ProfileDeny : string := "deny".
Definition PolicyEffectAllow : string := "allow".
Definition PolicyEffectDeny : string := "deny".

(** Access media. *)
Definition AccessMediumWiFi : string := "wifi".
Definition AccessMediumWired : string := "wired".
Definition ConnectionAuthenticationRadius8021X : string := "radius_802_1x".

(** Session commands. *)
Definition SessionActionCoA : string := "coa".
Definition SessionActionDisconnect : string := "disconnect".
Definition SessionCommandPending : string := "pending".
Definition SessionCommandDelivered : string := "delivered".
Definition SessionCommandApplied : string := "applied".
Definition SessionCommandRejected : string := "rejected".
Definition SessionCommandUnsupported : string := "unsupported".
Definition SessionCommandTimedOut : string := "timed-out".
Definition SessionCommandExpired : string := "expired".

(** Management of devices. *)
Definition DeviceManagementManaged : string := "managed".
Definition DeviceManagementUnmanaged : string := "unmanaged".
Definition DeviceManagementUnknown : string := "unknown".
Definition DeviceGovernanceLegacy : string := "legacy".
Definition DeviceGovernanceVerified : string := "verified_managed_only".
Definition DeviceGovernanceManaged : string := "managed_only".
Definition DeviceGovernanceRestricted : string := "restricted_unmanaged".

(** ** Places, resources and devices *)

Record Site := {
  Site_ManagementIssuerKey : string;
  Site_DeviceGovernance : string;
  Site_ID : string;
  Site_Name : string;
  Site_Description : string;
  Site_Location : string;
  Site_Status : string;
  Site_CreatedAt : Z;
  Site_UpdatedAt : Z
}.

Record Space := {
  Space_ID : string;
  Space_SiteID : string;
  Space_Name : string;
  Space_CIDRs : list string;
  Space_Status : string;
  Space_CreatedAt : Z;
  Space_UpdatedAt : Z
}.

Record Resource := {
  Resource_TrustedAddresses : list string;
  Resource_DNSExpiresAt : Z;
  Resource_ID : string;
  Resource_SpaceID : string;
  Resource_Name : string;
  Resource_Kind : string;
  Resource_Target : string;
  Resource_Protocol : string;
  Resource_Ports : list Z;
  Resource_Protected : bool;
  Resource_PathMode : string;
  Resource_CreatedAt : Z;
  Resource_UpdatedAt : Z
}.

Record DeviceNetworkInterface := {
  DeviceNetworkInterface_Name : string;
  DeviceNetworkInterface_DisplayName : string;
  DeviceNetworkInterface_Kind : string;
  DeviceNetworkInterface_Status : string;
  DeviceNetworkInterface_MACAddress : string;
  DeviceNetworkInterface_IPv4Addresses : list string;
  DeviceNetworkInterface_IPv6Addresses : list string;
  DeviceNetworkInterface_DNSServers : list string
}.

Record DeviceReportedFacts := {
  DeviceReportedFacts_OSName : string;
  DeviceReportedFacts_OSVersion : string;
  DeviceReportedFacts_OSBuild : string;
  DeviceReportedFacts_Architecture : string;
  DeviceReportedFacts_Manufacturer : string;
  DeviceReportedFacts_Model : string;
  DeviceReportedFacts_SerialNumber : string;
  DeviceReportedFacts_AgentVersion : string;
  DeviceReportedFacts_CollectedAt : Z;
  DeviceReportedFacts_NetworkInterfaces : list DeviceNetworkInterface
}.

Record Device := {
  Device_ManagementVerifiedUntil : option Z;
  Device_ManagementIssuerKey : string;
  Device_ManagementState : string;
  Device_ID : string;
  Device_OwnerUserID : string;
  Device_Name : string;
  Device_Hostname : string;
  Device_Platform : string;
  Device_DeviceType : string;
  Device_OwnershipType : string;
  Device_SiteID : string;
  Device_Status : string;
  Device_PostureStatus : string;
  Device_PostureVersion : Z;
  Device_CredentialGeneration : Z;
  Device_LastSeenAt : option Z;
  Device_ReportedFacts : option DeviceReportedFacts;
  Device_CreatedAt : Z;
  Device_UpdatedAt : Z
}.

(** ** Policies *)

Record Subject := {
  Subject_UserID : string;
  Subject_Status : string;
  Subject_Roles : list string;
  Subject_Teams : list string;
  Subject_Tags : list string
}.

Record PolicySubjects := {
  PolicySubjects_Roles : list string;
  PolicySubjects_Users : list string;
  PolicySubjects_Teams : list string;
  PolicySubjects_Tags : list string
}.

Record Policy := {
  Policy_DeviceManagementStates : list string;
  Policy_ID : string;
  Policy_Name : string;
  Policy_Enabled : bool;
  Policy_Priority : Z;
  Policy_Effect : string;
  Policy_Subjects : PolicySubjects;
  Policy_SiteIDs : list string;
  Policy_ResourceIDs : list string;
  Policy_Modes : list string;
  Policy_DeviceStatuses : list string;
  Policy_PostureStatuses : list string;
  Policy_AccessProfile : string;
  Policy_Version : Z;
  Policy_CreatedAt : Z;
  Policy_UpdatedAt : Z
}.

Record PolicyInput := {
  PolicyInput_DeviceManagementStates : list string;
  PolicyInput_Name : string;
  PolicyInput_Enabled : bool;
  PolicyInput_Priority : Z;
  PolicyInput_Effect : string;
  PolicyInput_Subjects : PolicySubjects;
  PolicyInput_SiteIDs : list string;
  PolicyInput_ResourceIDs : list string;
  PolicyInput_Modes : list string;
  PolicyInput_DeviceStatuses : list string;
  PolicyInput_PostureStatuses : list string;
  PolicyInput_AccessProfile : string
}.

Record PolicySnapshot := {
  PolicySnapshot_PolicyVersion : Z;
  PolicySnapshot_ContentHash : string;
  PolicySnapshot_PolicyCount : Z;
  PolicySnapshot_ProtectedResourceCount : Z;
  PolicySnapshot_PublishedAt : Z;
  PolicySnapshot_Policies : list Policy;
  PolicySnapshot_ProtectedResourceIDs : list string
}.

Record PolicyPreview := {
  PolicyPreview_AttributeVersion : string;
  PolicyPreview_EvaluatedAt : option Z;
  PolicyPreview_Decision : string;
  PolicyPreview_Path : string;
  PolicyPreview_NetworkProfile : string;
  PolicyPreview_PolicyVersion : Z;
  PolicyPreview_Protected : bool;
  PolicyPreview_NetworkLeaseRequired : bool;
  PolicyPreview_ResourceLeaseRequired : bool;
  PolicyPreview_Reasons : list string
}.

(** ** Sessions at network access servers *)

Record NASBinding := {
  NASBinding_ID : string;
  NASBinding_NASID : string;
  NASBinding_RuntimeID : string;
  NASBinding_SiteID : string;
  NASBinding_Name : string;
  NASBinding_AccessMedium : string;
  NASBinding_DeviceType : string;
  NASBinding_SSID : string;
  NASBinding_ManagementAddress : string;
  NASBinding_Status : string;
  NASBinding_CoASupported : bool;
  NASBinding_DisconnectSupported : bool;
  NASBinding_CreatedAt : Z;
  NASBinding_UpdatedAt : Z
}.

Record RadiusAttributes := {
  RadiusAttributes_VLANID : Z;
  RadiusAttributes_FilterID : string;
  RadiusAttributes_SessionTimeoutSeconds : Z
}.

Record SiteProfileBinding := {
  SiteProfileBinding_ID : string;
  SiteProfileBinding_SiteID : string;
  SiteProfileBinding_AccessProfile : string;
  SiteProfileBinding_VLANID : Z;
  SiteProfileBinding_FilterID : string;
  SiteProfileBinding_SessionTimeoutSeconds : Z;
  SiteProfileBinding_CreatedAt : Z;
  SiteProfileBinding_UpdatedAt : Z
}.

Record SessionCommand := {
  SessionCommand_StationID : string;
  SessionCommand_AccountingSessionID : string;
  SessionCommand_NASPortID : string;
  SessionCommand_ID : string;
  SessionCommand_SessionID : string;
  SessionCommand_RuntimeID : string;
  SessionCommand_NASID : string;
  SessionCommand_SubjectID : string;
  SessionCommand_DeviceID : string;
  SessionCommand_Action : string;
  SessionCommand_TargetAccessProfile : string;
  SessionCommand_PolicyVersion : Z;
  SessionCommand_Status : string;
  SessionCommand_ReasonCode : string;
  SessionCommand_PlanHash : string;
  SessionCommand_RadiusAttributes : option RadiusAttributes;
  SessionCommand_EffectiveAt : Z;
  SessionCommand_ExpiresAt : Z;
  SessionCommand_CompletedAt : option Z;
  SessionCommand_CreatedAt : Z
}.

Record Session := {
  Session_AdmissionPolicyVersion : Z;
  Session_AdmissionAttributeVersion : string;
  Session_RestrictionProfile : string;
  Session_RestrictionReason : string;
  Session_LatestCommand : option SessionCommand;
  Session_ID : string;
  Session_RuntimeID : string;
  Session_SubjectID : string;
  Session_DeviceID : string;
  Session_SiteID : string;
  Session_GatewayID : string;
  Session_NASID : string;
  Session_Mode : string;
  Session_Path : string;
  Session_AccessProfile : string;
  Session_Status : string;
  Session_PolicyVersion : Z;
  Session_NetworkLeaseIDs : list string;
  Session_ResourceLeaseIDs : list string;
  Session_ReasonCode : string;
  Session_StartedAt : Z;
  Session_ExpiresAt : Z;
  Session_UpdatedAt : Z
}.

Record ConnectionOption := {
  ConnectionOption_SiteID : string;
  ConnectionOption_SiteName : string;
  ConnectionOption_AccessMedium : string;
  ConnectionOption_SSID : string;
  ConnectionOption_Authentication : string;
  ConnectionOption_AccessProfile : string;
  ConnectionOption_PolicyVersion : Z
}.

Record NASAdmissionSnapshot := {
  NASAdmissionSnapshot_Session : Session;
  NASAdmissionSnapshot_Subject : Subject;
  NASAdmissionSnapshot_Device : Device;
  NASAdmissionSnapshot_Site : Site;
  NASAdmissionSnapshot_Binding : NASBinding;
  NASAdmissionSnapshot_Policies : PolicySnapshot;
  NASAdmissionSnapshot_Profiles : gmap string SiteProfileBinding;
  NASAdmissionSnapshot_StrongBinding : bool;
  NASAdmissionSnapshot_CredentialActive : bool;
  NASAdmissionSnapshot_FloorProfile : string;
  NASAdmissionSnapshot_InputsHash : string;
  NASAdmissionSnapshot_RadiusAttributes : option RadiusAttributes;
  NASAdmissionSnapshot_Revision : Z;
  NASAdmissionSnapshot_Attempts : Z
}.

Record NASAdmissionMutation := {
  NASAdmissionMutation_Profile : string;
  NASAdmissionMutation_InputsHash : string;
  NASAdmissionMutation_Reason : string;
  NASAdmissionMutation_PolicyVersion : Z;
  NASAdmissionMutation_RadiusAttributes : option RadiusAttributes;
  NASAdmissionMutation_Command : option SessionCommand;
  NASAdmissionMutation_Attempts : Z
}.

(** ** Device governance *)

(** [time.Time.After]. *)
Definition time_after (t now : Z) : bool := (now <? t)%Z.

Definition EffectiveManagementState (now : Z) (device : Device) : string :=
  if from_option (fun until => time_after until now) false (Device_ManagementVerifiedUntil device)
  then DeviceManagementManaged
  else if contains [DeviceManagementManaged; DeviceManagementUnmanaged] (Device_ManagementState device)
  then Device_ManagementState device
  else DeviceManagementUnknown.

Definition EffectiveDeviceGovernance (site : Site) : string :=
  let governance := Site_DeviceGovernance site in
  if contains [""; DeviceGovernanceLegacy] governance then DeviceGovernanceLegacy
  else if String.eqb governance DeviceGovernanceRestricted then DeviceGovernanceRestricted
  else DeviceGovernanceManaged.
