(* ===== verification/NetworkPolicy.v ===== *)
(** * Network access: policies

    The decisions of [application/networkaccess]: [EvaluatePolicy] for a
    resource, [EvaluateAdmission] for a network, the governance of unmanaged
    devices, and the compilation of a policy snapshot with its validation
    (policy.go, device_governance.go, snapshot.go and the policy part of
    validation.go).  [time.Now] is read once per decision, as the argument
    [now]. *)

From stdpp Require Import pretty.
From S2P Require Import Prelude GoStrings GoLib NetworkModel.

Record PreviewInput := {
  PreviewInput_NASBindingID : string;
  PreviewInput_SubjectUserID : string;
  PreviewInput_DeviceID : string;
  PreviewInput_ResourceID : string;
  PreviewInput_SiteID : string;
  PreviewInput_Mode : string
}.

Record AdmissionInput := {
  AdmissionInput_SubjectUserID : string;
  AdmissionInput_DeviceID : string;
  AdmissionInput_SiteID : string;
  AdmissionInput_Mode : string
}.

(** ** Matching *)

Definition matchNetworkValue (allowed : list string) (actual : string) : bool :=
  is_empty allowed || contains allowed actual.

Definition matchNetworkSlice (allowed actual : list string) : bool :=
  is_empty allowed || existsb (matchNetworkValue allowed) actual.

Section decisions.
Context (now : Z).

Definition matchesPolicySelectors (policy : Policy) (subjectUserID mode : string) (subject : Subject)
    (device : Device) (site : Site) : bool :=
  let subjects := Policy_Subjects policy in
  String.eqb (Subject_UserID subject) subjectUserID &&
  matchNetworkSlice (PolicySubjects_Roles subjects) (Subject_Roles subject) &&
  matchNetworkValue (PolicySubjects_Users subjects) (Subject_UserID subject) &&
  matchNetworkSlice (PolicySubjects_Teams subjects) (Subject_Teams subject) &&
  matchNetworkSlice (PolicySubjects_Tags subjects) (Subject_Tags subject) &&
  matchNetworkValue (Policy_SiteIDs policy) (Site_ID site) &&
  matchNetworkValue (Policy_Modes policy) mode &&
  matchNetworkValue (Policy_DeviceStatuses policy) (Device_Status device) &&
  matchNetworkValue (Policy_PostureStatuses policy) (Device_PostureStatus device) &&
  matchNetworkValue (Policy_DeviceManagementStates policy) (EffectiveManagementState now device).

Definition matchesNetworkPolicy (policy : Policy) (input : PreviewInput) (subject : Subject)
    (device : Device) (site : Site) (resource : Resource) : bool :=
  matchesPolicySelectors policy (PreviewInput_SubjectUserID input) (PreviewInput_Mode input) subject device site &&
  matchNetworkValue (Policy_ResourceIDs policy) (Resource_ID resource).

(** ** Governance of devices *)

Definition governedUnmanaged (site : Site) (device : Device) : bool :=
  let unproved :=
    match Device_ManagementVerifiedUntil device with
    | None => true
    | Some until => negb (time_after until now) ||
                    negb (String.eqb (Device_ManagementIssuerKey device) (Site_ManagementIssuerKey site))
    end in
  if String.eqb (Site_DeviceGovernance site) DeviceGovernanceVerified && unproved then true
  else negb (String.eqb (EffectiveDeviceGovernance site) DeviceGovernanceLegacy) &&
       negb (String.eqb (EffectiveManagementState now device) DeviceManagementManaged).

Definition resourceGovernanceReason (site : Site) (device : Device) (resource : Resource)
    (networkLease resourceLease : bool) : string :=
  if negb (governedUnmanaged site device) then ""
  else if String.eqb (EffectiveDeviceGovernance site) DeviceGovernanceManaged || Resource_Protected resource
  then "managed_device_required"
  else if networkLease || negb resourceLease then "unmanaged_device_requires_resource_ztna"
  else "".

Definition governancePolicyAllows (site : Site) (device : Device) (policy : Policy) (resourceID : string) : bool :=
  let profile := Policy_AccessProfile policy in
  if negb (governedUnmanaged site device) then true
  else if negb (String.eqb (EffectiveDeviceGovernance site) DeviceGovernanceRestricted) ||
          negb (contains (Policy_DeviceManagementStates policy) (EffectiveManagementState now device)) then false
  else if negb (str_empty resourceID) && negb (String.eqb profile ProfileRestricted) then false
  else if negb (String.eqb profile ProfileRestricted) && negb (String.eqb profile ProfileQuarantine) &&
          negb (String.eqb profile ProfileOnboarding) then false
  else str_empty resourceID || contains (Policy_ResourceIDs policy) resourceID.

Definition admissionGovernanceReason (site : Site) (device : Device) (networkLease resourceLease : bool) : string :=
  if negb (governedUnmanaged site device) then ""
  else if String.eqb (EffectiveDeviceGovernance site) DeviceGovernanceManaged then "managed_device_required"
  else if networkLease || resourceLease then "unmanaged_device_requires_resource_ztna"
  else "".

(** ** Selection of a policy *)

(** The loop over the policies, for the policies that [considered] keeps and
    the allow policies that [permitted] accepts: the allow policy chosen so
    far, or the reason of a deny. *)
Fixpoint select_policy (considered permitted : Policy -> bool) (allow : option Policy) (policies : list Policy)
    : option Policy + string :=
  match policies with
  | [] => inl allow
  | policy :: policies =>
      if negb (Policy_Enabled policy) || negb (considered policy)
      then select_policy considered permitted allow policies
      else if String.eqb (Policy_Effect policy) PolicyEffectDeny then inr ("policy_deny:" +:+ Policy_ID policy)
      else if String.eqb (Policy_Effect policy) PolicyEffectAllow && permitted policy &&
              match allow with None => true | Some a => (Policy_Priority policy <? Policy_Priority a)%Z end
      then select_policy considered permitted (Some policy) policies
      else select_policy considered permitted allow policies
  end.

Definition selectResourcePolicy (policies : list Policy) (input : PreviewInput) (subject : Subject)
    (device : Device) (site : Site) (resource : Resource) : option Policy + string :=
  select_policy (fun policy => matchesNetworkPolicy policy input subject device site resource)
    (fun policy => governancePolicyAllows site device policy (Resource_ID resource)) None policies.

(** The path of an access mode and the leases it needs. *)
Definition accessModePath (mode : string) : option (string * bool * bool) :=
  if String.eqb mode ModeInternalDirect then Some (PathSiteDirect, false, false)
  else if String.eqb mode ModeInternalZTNA then Some (PathWireGuardZTNA, false, true)
  else if String.eqb mode ModeExternalVPN then Some (PathWireGuard, true, false)
  else if String.eqb mode ModeExternalVPNZTNA then Some (PathWireGuardZTNA, true, true)
  else if String.eqb mode ModeExternalDirectZTNA then Some (PathWireGuardZTNA, false, true)
  else None.

Definition admissionDenyReason (input : AdmissionInput) (subject : Subject) (device : Device) (site : Site)
    (snapshot : PolicySnapshot) : string :=
  if (PolicySnapshot_PolicyVersion snapshot <? 1)%Z then "policy_snapshot_unavailable"
  else if negb (String.eqb (Subject_UserID subject) (AdmissionInput_SubjectUserID input)) ||
          negb (String.eqb (Subject_Status subject) StatusActive) then "subject_not_active"
  else if negb (String.eqb (Device_ID device) (AdmissionInput_DeviceID input)) ||
          negb (String.eqb (Device_OwnerUserID device) (AdmissionInput_SubjectUserID input)) then "device_owner_mismatch"
  else if negb (String.eqb (Device_Status device) DeviceStatusActive) then "device_not_active"
  else if negb (String.eqb (Site_Status site) StatusActive) then "network_scope_not_active"
  else if negb (str_empty (AdmissionInput_SiteID input)) &&
          negb (String.eqb (AdmissionInput_SiteID input) (Site_ID site)) then "requested_site_mismatch"
  else if (String.eqb (AdmissionInput_Mode input) ModeInternalDirect ||
           String.eqb (AdmissionInput_Mode input) ModeInternalZTNA) &&
          negb (String.eqb (Device_SiteID device) (Site_ID site)) then "device_site_mismatch"
  else "".

(** ** Decisions *)

Definition deny_preview (snapshot : PolicySnapshot) (protected : bool) (reason : string) : PolicyPreview :=
  {| PolicyPreview_AttributeVersion := ""; PolicyPreview_EvaluatedAt := None;
     PolicyPreview_Decision := DecisionDeny; PolicyPreview_Path := PathDeny; PolicyPreview_NetworkProfile := "";
     PolicyPreview_PolicyVersion := PolicySnapshot_PolicyVersion snapshot; PolicyPreview_Protected := protected;
     PolicyPreview_NetworkLeaseRequired := false; PolicyPreview_ResourceLeaseRequired := false;
     PolicyPreview_Reasons := [reason] |}.

Definition allow_preview (snapshot : PolicySnapshot) (protected : bool) (path : string)
    (networkLease resourceLease : bool) (allow : Policy) : PolicyPreview :=
  {| PolicyPreview_AttributeVersion := ""; PolicyPreview_EvaluatedAt := None;
     PolicyPreview_Decision := DecisionAllow; PolicyPreview_Path := path;
     PolicyPreview_NetworkProfile := Policy_AccessProfile allow;
     PolicyPreview_PolicyVersion := PolicySnapshot_PolicyVersion snapshot; PolicyPreview_Protected := protected;
     PolicyPreview_NetworkLeaseRequired := networkLease; PolicyPreview_ResourceLeaseRequired := resourceLease;
     PolicyPreview_Reasons := ["policy_allow:" +:+ Policy_ID allow] |}.

Definition EvaluatePolicy (input : PreviewInput) (subject : Subject) (device : Device) (site : Site)
    (space : Space) (resource : Resource) (snapshot : PolicySnapshot) : PolicyPreview :=
  let deny := deny_preview snapshot (Resource_Protected resource) in
  let reason := admissionDenyReason
    {| AdmissionInput_SubjectUserID := PreviewInput_SubjectUserID input;
       AdmissionInput_DeviceID := PreviewInput_DeviceID input;
       AdmissionInput_SiteID := PreviewInput_SiteID input;
       AdmissionInput_Mode := PreviewInput_Mode input |} subject device site snapshot in
  if negb (str_empty reason) then deny reason
  else if negb (String.eqb (Space_Status space) StatusActive) then deny "network_scope_not_active"
  else if negb (String.eqb (Space_SiteID space) (Site_ID site)) ||
          negb (String.eqb (Resource_SpaceID resource) (Space_ID space)) then deny "network_scope_mismatch"
  else match accessModePath (PreviewInput_Mode input) with
  | None => deny "unsupported_access_mode"
  | Some (path, networkLease, resourceLease) =>
      let reason := resourceGovernanceReason site device resource networkLease resourceLease in
      if negb (str_empty reason) then deny reason
      else if Resource_Protected resource &&
              (String.eqb path PathSiteDirect || String.eqb path PathWireGuard)
      then deny "protected_resource_requires_ztna"
      else if negb (str_empty (Resource_PathMode resource)) &&
              negb (String.eqb (Resource_PathMode resource) PathAutomatic) &&
              negb (String.eqb (Resource_PathMode resource) path)
      then deny "resource_path_mode_mismatch"
      else match selectResourcePolicy (PolicySnapshot_Policies snapshot) input subject device site resource with
      | inr denyReason => deny denyReason
      | inl None => deny "no_matching_allow_policy"
      | inl (Some allow) =>
          if String.eqb (Policy_AccessProfile allow) ProfileDeny then deny "invalid_allow_policy_profile"
          else allow_preview snapshot (Resource_Protected resource) path networkLease resourceLease allow
      end
  end.

Definition EvaluateAdmission (input : AdmissionInput) (subject : Subject) (device : Device) (site : Site)
    (snapshot : PolicySnapshot) : PolicyPreview :=
  let deny := deny_preview snapshot false in
  let reason := admissionDenyReason input subject device site snapshot in
  if negb (str_empty reason) then deny reason
  else match select_policy
    (fun policy => is_empty (Policy_ResourceIDs policy) &&
       matchesPolicySelectors policy (AdmissionInput_SubjectUserID input) (AdmissionInput_Mode input) subject device site)
    (fun policy => governancePolicyAllows site device policy "") None (PolicySnapshot_Policies snapshot) with
  | inr reason => deny reason
  | inl None => deny "no_matching_allow_policy"
  | inl (Some allow) =>
      if String.eqb (Policy_AccessProfile allow) ProfileDeny then deny "invalid_allow_policy_profile"
      else match accessModePath (AdmissionInput_Mode input) with
      | None => deny "unsupported_access_mode"
      | Some (path, networkLease, resourceLease) =>
          let reason := admissionGovernanceReason site device networkLease resourceLease in
          if negb (str_empty reason) then deny reason
          else allow_preview snapshot false path networkLease resourceLease allow
      end
  end.

End decisions.

(** ** Validation of policies *)

Definition invalid (message : string) : error := errorf ErrInvalidArgument message.

Definition requiredText (name value : string) (maxLength : nat) : option error :=
  let length := RuneCountInString (TrimSpace value) in
  if (length =? 0) || (maxLength <? length)
  then Some (invalid (name +:+ " must contain between 1 and " +:+ pretty maxLength +:+ " characters"))
  else None.

Definition oneOf (value : string) (allowed : list string) : bool := contains allowed value.

(** The loop of [validateStringList], with the values seen so far. *)
Fixpoint check_values (name : string) (allowed : option (list string)) (seen values : list string) : option error :=
  match values with
  | [] => None
  | value :: values =>
      match requiredText name value 128 with
      | Some e => Some e
      | None =>
          if from_option (fun allowed => negb (oneOf value allowed)) false allowed
          then Some (invalid (name +:+ " contains an invalid value"))
          else if contains seen value then Some (invalid (name +:+ " must be unique"))
          else check_values name allowed (value :: seen) values
      end
  end.

Definition validateStringList (name : string) (values : list string) (maxItems : nat)
    (allowed : option (list string)) : option error :=
  if (maxItems <? length values)
  then Some (invalid (name +:+ " cannot contain more than " +:+ pretty maxItems +:+ " entries"))
  else check_values name allowed [] values.

(** The selectors a policy may list freely, by name. *)
Definition free_selectors (input : PolicyInput) : gmap string (list string) :=
  let subjects := PolicyInput_Subjects input in
  {[ "subjects.users" := PolicySubjects_Users subjects; "subjects.roles" := PolicySubjects_Roles subjects;
     "subjects.teams" := PolicySubjects_Teams subjects; "subjects.tags" := PolicySubjects_Tags subjects;
     "siteIds" := PolicyInput_SiteIDs input; "resourceIds" := PolicyInput_ResourceIDs input ]}.

Definition validatePolicyInput `{MapRange} (input : PolicyInput) : option error :=
  seq_err (validateStringList "deviceManagementStates" (PolicyInput_DeviceManagementStates input) 3
             (Some [DeviceManagementManaged; DeviceManagementUnmanaged; DeviceManagementUnknown]))
  (seq_err (requiredText "name" (PolicyInput_Name input) 200)
  (if (PolicyInput_Priority input <? 1)%Z || (10000 <? PolicyInput_Priority input)%Z
   then Some (invalid "priority must be between 1 and 10000")
   else if negb (String.eqb (PolicyInput_Effect input) PolicyEffectAllow) &&
           negb (String.eqb (PolicyInput_Effect input) PolicyEffectDeny)
   then Some (invalid "effect is invalid")
   else if negb (oneOf (PolicyInput_AccessProfile input)
                   [ProfileOnboarding; ProfileFull; ProfileRestricted; ProfileQuarantine; ProfileDeny])
   then Some (invalid "accessProfile is invalid")
   else if String.eqb (PolicyInput_Effect input) PolicyEffectAllow &&
           String.eqb (PolicyInput_AccessProfile input) ProfileDeny
   then Some (invalid "allow policy cannot use deny profile")
   else if String.eqb (PolicyInput_Effect input) PolicyEffectDeny &&
           negb (String.eqb (PolicyInput_AccessProfile input) ProfileDeny)
   then Some (invalid "deny policy must use deny profile")
   else
    seq_err (first_err (fun name =>
        validateStringList name (lookup_default [] (free_selectors input) name)
          (if String.eqb name "resourceIds" then 256 else 128) None)
        (range_keys (dom (free_selectors input))))
    (seq_err (validateStringList "modes" (PolicyInput_Modes input) 5
                (Some [ModeInternalDirect; ModeInternalZTNA; ModeExternalVPN; ModeExternalVPNZTNA; ModeExternalDirectZTNA]))
    (seq_err (validateStringList "deviceStatuses" (PolicyInput_DeviceStatuses input) 4
                (Some [DeviceStatusPending; DeviceStatusActive; DeviceStatusQuarantined; DeviceStatusRevoked]))
      (validateStringList "postureStatuses" (PolicyInput_PostureStatuses input) 3
                (Some [PostureUnknown; PostureCompliant; PostureNoncompliant])))))).

(** ** Snapshots *)

Definition sortedStrings (values : list string) : list string :=
  if is_empty values then [] else sort_strings values.

Definition policySelectorsOverlap (left right : list string) : bool :=
  is_empty left || is_empty right || existsb (contains right) left.

Definition ambiguous (left right : Policy) : bool :=
  negb (negb (Policy_Enabled right) || negb (String.eqb (Policy_Effect right) PolicyEffectAllow) ||
        negb (Policy_Priority left =? Policy_Priority right)%Z ||
        String.eqb (Policy_AccessProfile left) (Policy_AccessProfile right)) &&
  policySelectorsOverlap (PolicySubjects_Users (Policy_Subjects left)) (PolicySubjects_Users (Policy_Subjects right)) &&
  policySelectorsOverlap (Policy_SiteIDs left) (Policy_SiteIDs right) &&
  policySelectorsOverlap (Policy_ResourceIDs left) (Policy_ResourceIDs right) &&
  policySelectorsOverlap (Policy_Modes left) (Policy_Modes right) &&
  policySelectorsOverlap (Policy_DeviceManagementStates left) (Policy_DeviceManagementStates right) &&
  policySelectorsOverlap (Policy_DeviceStatuses left) (Policy_DeviceStatuses right) &&
  policySelectorsOverlap (Policy_PostureStatuses left) (Policy_PostureStatuses right).

Fixpoint validateAllowPrecedence (policies : list Policy) : option error :=
  match policies with
  | [] => None
  | policy :: rest =>
      if negb (Policy_Enabled policy) || negb (String.eqb (Policy_Effect policy) PolicyEffectAllow)
      then validateAllowPrecedence rest
      else match find_first (ambiguous policy) rest with
      | Some other => Some (NewBusiness ErrInvalidArgument "network_policy_ambiguous"
          ("Allow policies " +:+ Policy_ID policy +:+ " and " +:+ Policy_ID other +:+
           " may match at the same priority with different access profiles; assign distinct priorities or disjoint scopes."))
      | None => validateAllowPrecedence rest
      end
  end.

Definition sort_selectors (policy : Policy) : Policy :=
  let subjects := Policy_Subjects policy in
  {| Policy_DeviceManagementStates := sortedStrings (Policy_DeviceManagementStates policy);
     Policy_ID := Policy_ID policy; Policy_Name := Policy_Name policy; Policy_Enabled := Policy_Enabled policy;
     Policy_Priority := Policy_Priority policy; Policy_Effect := Policy_Effect policy;
     Policy_Subjects := {| PolicySubjects_Roles := sortedStrings (PolicySubjects_Roles subjects);
                           PolicySubjects_Users := sortedStrings (PolicySubjects_Users subjects);
                           PolicySubjects_Teams := sortedStrings (PolicySubjects_Teams subjects);
                           PolicySubjects_Tags := sortedStrings (PolicySubjects_Tags subjects) |};
     Policy_SiteIDs := sortedStrings (Policy_SiteIDs policy);
     Policy_ResourceIDs := sortedStrings (Policy_ResourceIDs policy);
     Policy_Modes := sortedStrings (Policy_Modes policy);
     Policy_DeviceStatuses := sortedStrings (Policy_DeviceStatuses policy);
     Policy_PostureStatuses := sortedStrings (Policy_PostureStatuses policy);
     Policy_AccessProfile := Policy_AccessProfile policy; Policy_Version := Policy_Version policy;
     Policy_CreatedAt := Policy_CreatedAt policy; Policy_UpdatedAt := Policy_UpdatedAt policy |}.

Definition policy_input (policy : Policy) : PolicyInput :=
  {| PolicyInput_DeviceManagementStates := Policy_DeviceManagementStates policy;
     PolicyInput_Name := Policy_Name policy; PolicyInput_Enabled := Policy_Enabled policy;
     PolicyInput_Priority := Policy_Priority policy; PolicyInput_Effect := Policy_Effect policy;
     PolicyInput_Subjects := Policy_Subjects policy; PolicyInput_SiteIDs := Policy_SiteIDs policy;
     PolicyInput_ResourceIDs := Policy_ResourceIDs policy; PolicyInput_Modes := Policy_Modes policy;
     PolicyInput_DeviceStatuses := Policy_DeviceStatuses policy;
     PolicyInput_PostureStatuses := Policy_PostureStatuses policy;
     PolicyInput_AccessProfile := Policy_AccessProfile policy |}.

Definition policy_before (left right : Policy) : bool :=
  if (Policy_Priority left =? Policy_Priority right)%Z then String.ltb (Policy_ID left) (Policy_ID right)
  else (Policy_Priority left <? Policy_Priority right)%Z.

(** [json.Marshal] followed by SHA-256, printed in hexadecimal. *)
Class SnapshotDigest := { snapshot_digest : list Policy -> list string -> result string }.

Definition newPolicySnapshot `{MapRange, SnapshotDigest, !SliceSort policy_before} (policies : list Policy)
    (protectedResourceIDs : list string) (publishedAt : Z) : result PolicySnapshot :=
  let policies := slice_sort policy_before (sort_selectors <$> policies) in
  let protectedResourceIDs := sort_strings protectedResourceIDs in
  match first_err (fun policy => wrapf ("compile network policy " +:+ Policy_ID policy) <$>
                     validatePolicyInput (policy_input policy)) policies with
  | Some e => Err e
  | None =>
      match validateAllowPrecedence policies with
      | Some e => Err e
      | None =>
          match snapshot_digest policies protectedResourceIDs with
          | Err e => Err e
          | Ok digest => Ok
              {| PolicySnapshot_PolicyVersion := 0; PolicySnapshot_ContentHash := "sha256:" +:+ digest;
                 PolicySnapshot_PolicyCount := Z.of_nat (length policies);
                 PolicySnapshot_ProtectedResourceCount := Z.of_nat (length protectedResourceIDs);
                 PolicySnapshot_PublishedAt := publishedAt; PolicySnapshot_Policies := policies;
                 PolicySnapshot_ProtectedResourceIDs := protectedResourceIDs |}
          end
      end
  end.

(** ** Selection, declaratively *)

Definition denies (considered : Policy -> bool) (p : Policy) : Prop :=
  Policy_Enabled p = true /\ considered p = true /\ Policy_Effect p = PolicyEffectDeny.

Definition grants (considered permitted : Policy -> bool) (p : Policy) : Prop :=
  Policy_Enabled p = true /\ considered p = true /\ Policy_Effect p = PolicyEffectAllow /\ permitted p = true.

(** The loop stops at a deny; otherwise it yields a granting policy of least
    priority number, if there is one. *)
Lemma select_policy_spec considered permitted policies : forall acc,
  match select_policy considered permitted acc policies with
  | inr _ => exists p, p ∈ policies /\ denies considered p
  | inl chosen =>
      (forall p, p ∈ policies -> ~ denies considered p) /\
      match chosen with
      | None => acc = None /\ forall p, p ∈ policies -> ~ grants considered permitted p
      | Some a =>
          (acc = Some a \/ (a ∈ policies /\ grants considered permitted a)) /\
          forall p, acc = Some p \/ (p ∈ policies /\ grants considered permitted p) ->
            (Policy_Priority a <= Policy_Priority p)%Z
      end
  end.
Proof.
  induction policies as [|q policies IH]; intros acc; cbn [select_policy].
  { split; [intros p Hp; by apply elem_of_nil in Hp|]. destruct acc as [a|].
    - split; [by left|]. intros p [[= ->]|[Hp _]]; [lia|by apply elem_of_nil in Hp].
    - split; [done|]. intros p Hp; by apply elem_of_nil in Hp. }
  destruct (_ || _) eqn:Hskip.
  { specialize (IH acc). assert (~ denies considered q /\ ~ grants considered permitted q) as [Hd Hg].
    { unfold denies, grants. destruct (Policy_Enabled q), (considered q); naive_solver. }
    destruct (select_policy _ _ _ _) as [[a|]|r]; [..|set_solver]; destruct IH as [H1 IH];
      (split; [set_solver|]); destruct IH as [H2 H3]; (split; [set_solver|]); set_solver. }
  bool_prop. destruct (String.eqb _ PolicyEffectDeny) eqn:Hdeny.
  { apply String.eqb_eq in Hdeny. exists q. split; [by left|]. by split_and!. }
  apply String.eqb_neq in Hdeny. assert (~ denies considered q) as Hd by (intros (_ & _ & ?); done).
  destruct (String.eqb _ PolicyEffectAllow && permitted q) eqn:Hallow; cbn [andb].
  - apply andb_true_iff in Hallow as [Ha%String.eqb_eq Hp].
    assert (grants considered permitted q) as Hg by (by split_and!).
    destruct acc as [a0|]; [destruct (_ <? _)%Z eqn:Hlt|].
    + apply Z.ltb_lt in Hlt. specialize (IH (Some q)).
      destruct (select_policy _ _ _ _) as [[a|]|r]; [..|set_solver]; destruct IH as [H1 [H2 H3]]; [|done].
      split; [set_solver|]. split; [destruct H2 as [[= ->]|]; set_solver|].
      assert (Policy_Priority a <= Policy_Priority q)%Z by (apply H3; by left).
      intros p [[= ->]|[[->|Hin]%elem_of_cons Hgp]]; [lia|done|apply H3; by right].
    + apply Z.ltb_ge in Hlt. specialize (IH (Some a0)).
      destruct (select_policy _ _ _ _) as [[a|]|r]; [..|set_solver]; destruct IH as [H1 [H2 H3]]; [|done].
      split; [set_solver|]. split; [set_solver|].
      assert (Policy_Priority a <= Policy_Priority a0)%Z by (apply H3; by left).
      intros p [[= ->]|[[->|Hin]%elem_of_cons Hgp]]; [done|lia|apply H3; by right].
    + specialize (IH (Some q)).
      destruct (select_policy _ _ _ _) as [[a|]|r]; [..|set_solver]; destruct IH as [H1 [H2 H3]]; [|done].
      split; [set_solver|]. split; [destruct H2 as [[= ->]|]; set_solver|].
      intros p [[=]|[[->|Hin]%elem_of_cons Hgp]]; [apply H3; by left|apply H3; by right].
  - assert (~ grants considered permitted q) as Hg.
    { intros (_ & _ & He & Hp). by rewrite He, Hp in Hallow. }
    specialize (IH acc). destruct (select_policy _ _ _ _) as [[a|]|r]; [..|set_solver]; destruct IH as [H1 [H2 H3]];
      (split; [set_solver|]); (split; [set_solver|]); set_solver.
Qed.

(** ** Requests, declaratively *)

(** What every request needs, whatever the policies say. *)
Record admission_ok (input : AdmissionInput) (subject : Subject) (device : Device) (site : Site)
    (snapshot : PolicySnapshot) : Prop := {
  ok_version : (1 <= PolicySnapshot_PolicyVersion snapshot)%Z;
  ok_subject : Subject_UserID subject = AdmissionInput_SubjectUserID input;
  ok_subject_active : Subject_Status subject = StatusActive;
  ok_device : Device_ID device = AdmissionInput_DeviceID input;
  ok_owner : Device_OwnerUserID device = AdmissionInput_SubjectUserID input;
  ok_device_active : Device_Status device = DeviceStatusActive;
  ok_site_active : Site_Status site = StatusActive;
  ok_site : AdmissionInput_SiteID input = "" \/ AdmissionInput_SiteID input = Site_ID site;
  ok_local : AdmissionInput_Mode input = ModeInternalDirect \/ AdmissionInput_Mode input = ModeInternalZTNA ->
             Device_SiteID device = Site_ID site
}.

Lemma negb_eqb_false s t : negb (String.eqb s t) = false <-> s = t.
Proof. by rewrite negb_false_iff, String.eqb_eq. Qed.

Lemma negb_eqb_true s t : negb (String.eqb s t) = true <-> s <> t.
Proof. by rewrite negb_true_iff, String.eqb_neq. Qed.

(** A chain of guards that yields no reason passes every guard. *)
Lemma guard_reason (b : bool) (r x : string) : r <> "" -> (if b then r else x) = "" <-> b = false /\ x = "".
Proof. destruct b; naive_solver. Qed.

Lemma eqb_false_dec s t : String.eqb s t = false <-> s <> t.
Proof. apply String.eqb_neq. Qed.

Create Rewrite HintDb guards.
#[local] Hint Rewrite orb_false_iff orb_true_iff andb_false_iff andb_true_iff negb_eqb_false negb_eqb_true
  eqb_false_dec String.eqb_eq Z.ltb_ge negb_true_iff negb_false_iff : guards.

Lemma admissionDenyReason_empty input subject device site snapshot :
  admissionDenyReason input subject device site snapshot = "" <->
  admission_ok input subject device site snapshot.
Proof.
  unfold admissionDenyReason, str_empty. rewrite !guard_reason by done. autorewrite with guards. split.
  - intros (? & [] & [] & ? & ? & Hsite & Hlocal & _). split; [tauto..|]. destruct Hlocal as [[]|]; tauto.
  - intros []. split_and!; try tauto; try done.
    destruct (decide (AdmissionInput_Mode input = ModeInternalDirect \/ AdmissionInput_Mode input = ModeInternalZTNA));
      [right; auto|left; tauto].
Qed.

Definition admission_input (input : PreviewInput) : AdmissionInput :=
  {| AdmissionInput_SubjectUserID := PreviewInput_SubjectUserID input;
     AdmissionInput_DeviceID := PreviewInput_DeviceID input;
     AdmissionInput_SiteID := PreviewInput_SiteID input;
     AdmissionInput_Mode := PreviewInput_Mode input |}.

(** What a request for a resource needs besides: an active space of the site
    that holds the resource, a path that the resource accepts, ZTNA for a
    protected resource, and for a device that its site does not count as
    managed an unprotected resource over a resource lease alone. *)
Record resource_ok (now : Z) (input : PreviewInput) (subject : Subject) (device : Device) (site : Site)
    (space : Space) (resource : Resource) (snapshot : PolicySnapshot)
    (path : string) (networkLease resourceLease : bool) : Prop := {
  ok_admission : admission_ok (admission_input input) subject device site snapshot;
  ok_space_active : Space_Status space = StatusActive;
  ok_space_site : Space_SiteID space = Site_ID site;
  ok_resource_space : Resource_SpaceID resource = Space_ID space;
  ok_path : accessModePath (PreviewInput_Mode input) = Some (path, networkLease, resourceLease);
  ok_governance : governedUnmanaged now site device = true ->
    EffectiveDeviceGovernance site <> DeviceGovernanceManaged /\ Resource_Protected resource = false /\
    networkLease = false /\ resourceLease = true;
  ok_protected : Resource_Protected resource = true -> path <> PathSiteDirect /\ path <> PathWireGuard;
  ok_path_mode : Resource_PathMode resource = "" \/ Resource_PathMode resource = PathAutomatic \/
                 Resource_PathMode resource = path
}.

Lemma resourceGovernanceReason_empty now site device resource networkLease resourceLease :
  resourceGovernanceReason now site device resource networkLease resourceLease = "" <->
  (governedUnmanaged now site device = true ->
    EffectiveDeviceGovernance site <> DeviceGovernanceManaged /\ Resource_Protected resource = false /\
    networkLease = false /\ resourceLease = true).
Proof.
  unfold resourceGovernanceReason. destruct (governedUnmanaged _ _ _); cbn [negb]; [|naive_solver].
  rewrite !guard_reason by done. autorewrite with guards. naive_solver.
Qed.

(** The conditions of a request for a resource in the order of the code, up to
    the selection of a policy. *)
Definition resource_guards (now : Z) (input : PreviewInput) (subject : Subject) (device : Device) (site : Site)
    (space : Space) (resource : Resource) (snapshot : PolicySnapshot) : option (string * bool * bool) :=
  if negb (str_empty (admissionDenyReason (admission_input input) subject device site snapshot)) then None
  else if negb (String.eqb (Space_Status space) StatusActive) then None
  else if negb (String.eqb (Space_SiteID space) (Site_ID site)) ||
          negb (String.eqb (Resource_SpaceID resource) (Space_ID space)) then None
  else match accessModePath (PreviewInput_Mode input) with
  | None => None
  | Some (path, networkLease, resourceLease) =>
      if negb (str_empty (resourceGovernanceReason now site device resource networkLease resourceLease)) then None
      else if Resource_Protected resource && (String.eqb path PathSiteDirect || String.eqb path PathWireGuard) then None
      else if negb (str_empty (Resource_PathMode resource)) && negb (String.eqb (Resource_PathMode resource) PathAutomatic) &&
              negb (String.eqb (Resource_PathMode resource) path) then None
      else Some (path, networkLease, resourceLease)
  end.

Lemma guard_some {A} (b : bool) (m : option A) x : (if b then None else m) = Some x <-> b = false /\ m = Some x.
Proof. destruct b; naive_solver. Qed.

Lemma resource_guards_spec now input subject device site space resource snapshot path nl rl :
  resource_guards now input subject device site space resource snapshot = Some (path, nl, rl) <->
  resource_ok now input subject device site space resource snapshot path nl rl.
Proof.
  unfold resource_guards. rewrite !guard_some.
  destruct (accessModePath _) as [[[p n] r]|] eqn:Hp.
  - rewrite !guard_some. unfold str_empty at 1 2. autorewrite with guards.
    rewrite admissionDenyReason_empty, resourceGovernanceReason_empty. unfold str_empty. autorewrite with guards. split.
    + intros (? & ? & [] & ? & Hpr & ? & [= -> -> ->]). split; try done; [|tauto].
      destruct Hpr as [|[]]; [congruence|done].
    + intros [Ha Hs Hss Hrs Hpath Hg Hpr Hm]. rewrite Hp in Hpath. injection Hpath as -> -> ->.
      split_and!; try done; [|tauto].
      destruct (Resource_Protected resource); [right; by apply Hpr|by left].
  - split; [intros (_ & _ & _ & ?)|intros []]; congruence.
Qed.

Lemma EvaluatePolicy_guards now input subject device site space resource snapshot :
  match resource_guards now input subject device site space resource snapshot with
  | None => exists reason, EvaluatePolicy now input subject device site space resource snapshot =
                           deny_preview snapshot (Resource_Protected resource) reason
  | Some (path, networkLease, resourceLease) =>
      EvaluatePolicy now input subject device site space resource snapshot =
      match selectResourcePolicy now (PolicySnapshot_Policies snapshot) input subject device site resource with
      | inr denyReason => deny_preview snapshot (Resource_Protected resource) denyReason
      | inl None => deny_preview snapshot (Resource_Protected resource) "no_matching_allow_policy"
      | inl (Some allow) =>
          if String.eqb (Policy_AccessProfile allow) ProfileDeny
          then deny_preview snapshot (Resource_Protected resource) "invalid_allow_policy_profile"
          else allow_preview snapshot (Resource_Protected resource) path networkLease resourceLease allow
      end
  end.
Proof.
  unfold resource_guards, EvaluatePolicy, admission_input.
  repeat (match goal with |- context [if ?b then None else _] => destruct b; [by eexists|] end).
  destruct (accessModePath _) as [[[path nl] rl]|]; [|by eexists].
  repeat (match goal with |- context [if ?b then None else _] => destruct b; [by eexists|] end). done.
Qed.

Definition granting (now : Z) (input : PreviewInput) (subject : Subject) (device : Device) (site : Site)
    (resource : Resource) (p : Policy) : Prop :=
  grants (fun policy => matchesNetworkPolicy now policy input subject device site resource)
    (fun policy => governancePolicyAllows now site device policy (Resource_ID resource)) p.

Definition denying (now : Z) (input : PreviewInput) (subject : Subject) (device : Device) (site : Site)
    (resource : Resource) (p : Policy) : Prop :=
  denies (fun policy => matchesNetworkPolicy now policy input subject device site resource) p.

(** An allow, in terms of the policies of the snapshot. *)
Lemma EvaluatePolicy_allow now input subject device site space resource snapshot :
  let preview := EvaluatePolicy now input subject device site space resource snapshot in
  let ps := PolicySnapshot_Policies snapshot in
  PolicyPreview_Decision preview = DecisionAllow ->
  exists path networkLease resourceLease allow,
    resource_ok now input subject device site space resource snapshot path networkLease resourceLease /\
    (forall p, p ∈ ps -> ~ denying now input subject device site resource p) /\
    allow ∈ ps /\ granting now input subject device site resource allow /\
    (forall p, p ∈ ps -> granting now input subject device site resource p ->
       (Policy_Priority allow <= Policy_Priority p)%Z) /\
    Policy_AccessProfile allow <> ProfileDeny /\
    preview = allow_preview snapshot (Resource_Protected resource) path networkLease resourceLease allow.
Proof.
  cbv zeta. pose proof (EvaluatePolicy_guards now input subject device site space resource snapshot) as Hg.
  destruct (resource_guards _ _ _ _ _ _ _ _) as [[[path nl] rl]|] eqn:Hok; [|destruct Hg as [? ->]; done].
  apply resource_guards_spec in Hok. rewrite Hg. clear Hg. unfold selectResourcePolicy.
  pose proof (select_policy_spec (fun policy => matchesNetworkPolicy now policy input subject device site resource)
    (fun policy => governancePolicyAllows now site device policy (Resource_ID resource))
    (PolicySnapshot_Policies snapshot) None) as Hs.
  destruct (select_policy _ _ _ _) as [[allow|]|]; [|done..]. destruct Hs as (Hd & [[=]|[Hin Hgr]] & Hmin).
  destruct (String.eqb _ ProfileDeny) eqn:Hprofile; [done|]. apply String.eqb_neq in Hprofile. intros _.
  exists path, nl, rl, allow. split_and!; try done. intros p Hp Hg. apply Hmin. by right.
Qed.

(** ** Compiled snapshots *)

Lemma elem_of_sortedStrings l x : x ∈ sortedStrings l <-> x ∈ l.
Proof. destruct l; [done|]. unfold sortedStrings. cbn [is_empty]. apply elem_of_sort_strings. Qed.

Lemma contains_sorted l x : contains (sortedStrings l) x = contains l x.
Proof. apply contains_ext, elem_of_sortedStrings. Qed.

Lemma is_empty_sorted l : is_empty (sortedStrings l) = is_empty l.
Proof.
  destruct l as [|s l]; [done|]. apply is_empty_false. intros He.
  assert (s ∈ sortedStrings (s :: l)) as Hs by (apply elem_of_sortedStrings; by left).
  rewrite He in Hs. by apply elem_of_nil in Hs.
Qed.

Lemma matchNetworkValue_sorted l x : matchNetworkValue (sortedStrings l) x = matchNetworkValue l x.
Proof. unfold matchNetworkValue. by rewrite is_empty_sorted, contains_sorted. Qed.

Lemma matchNetworkSlice_sorted l xs : matchNetworkSlice (sortedStrings l) xs = matchNetworkSlice l xs.
Proof.
  unfold matchNetworkSlice. rewrite is_empty_sorted. f_equal.
  induction xs as [|x xs IH]; [done|]. cbn [existsb]. by rewrite IH, matchNetworkValue_sorted.
Qed.

(** Sorting the selectors changes no decision. *)
Lemma sort_selectors_matches now policy input subject device site resource :
  matchesNetworkPolicy now (sort_selectors policy) input subject device site resource =
  matchesNetworkPolicy now policy input subject device site resource.
Proof.
  unfold matchesNetworkPolicy, matchesPolicySelectors, sort_selectors.
  cbn -[sortedStrings matchNetworkValue matchNetworkSlice].
  by rewrite !matchNetworkValue_sorted, !matchNetworkSlice_sorted.
Qed.

Lemma sort_selectors_governance now site device policy resourceID :
  governancePolicyAllows now site device (sort_selectors policy) resourceID =
  governancePolicyAllows now site device policy resourceID.
Proof.
  unfold governancePolicyAllows, sort_selectors. cbn -[sortedStrings contains]. by rewrite !contains_sorted.
Qed.

Lemma sort_selectors_granting now input subject device site resource p :
  granting now input subject device site resource (sort_selectors p) <->
  granting now input subject device site resource p.
Proof. unfold granting, grants. by rewrite sort_selectors_matches, sort_selectors_governance. Qed.

Lemma sort_selectors_denying now input subject device site resource p :
  denying now input subject device site resource (sort_selectors p) <->
  denying now input subject device site resource p.
Proof. unfold denying, denies. by rewrite sort_selectors_matches. Qed.

Lemma overlap_match l r x :
  matchNetworkValue l x = true -> matchNetworkValue r x = true -> policySelectorsOverlap l r = true.
Proof.
  unfold matchNetworkValue, policySelectorsOverlap.
  destruct (is_empty l); [done|]. destruct (is_empty r); [done|]. cbn [orb]. intros Hl Hr.
  apply existsb_elem_of. exists x. split; [by apply contains_true|done].
Qed.

(** Two policies that apply to one request at one priority have one profile,
    unless the pair is ambiguous. *)
Lemma ambiguous_false now input subject device site resource p q :
  granting now input subject device site resource p -> granting now input subject device site resource q ->
  Policy_Priority p = Policy_Priority q -> ambiguous p q = false -> Policy_AccessProfile p = Policy_AccessProfile q.
Proof.
  intros (_ & Hp & _ & _) (Henq & Hq & Heq & _) Hprio. unfold ambiguous. rewrite Henq, Heq, Hprio, Z.eqb_refl.
  unfold matchesNetworkPolicy, matchesPolicySelectors in Hp, Hq. bool_prop.
  repeat match goal with
  | |- context [policySelectorsOverlap ?l ?r] => erewrite (overlap_match l r) by eassumption
  end.
  destruct (String.eqb (Policy_AccessProfile p) _) eqn:He; [|done]. intros _. by apply String.eqb_eq.
Qed.

Lemma precedence_pairs ps :
  validateAllowPrecedence ps = None ->
  ForallOrdPairs (fun p q => Policy_Enabled p = true -> Policy_Effect p = PolicyEffectAllow -> ambiguous p q = false) ps.
Proof.
  induction ps as [|p ps IH]; cbn [validateAllowPrecedence]; [constructor|].
  destruct (_ || _) eqn:Hskip; [|destruct (find_first _ _) eqn:Hfind; [done|]]; intros Hv; constructor; auto;
    apply List.Forall_forall; intros q Hq%list_elem_of_In He Ha.
  - by rewrite He, Ha in Hskip.
  - by apply (proj1 (find_first_None _ _) Hfind).
Qed.

Section published.
Context `{MapRange, SnapshotDigest, !SliceSort policy_before}.

(** What compiling a snapshot establishes. *)
Lemma newPolicySnapshot_ok policies ids t s :
  newPolicySnapshot policies ids t = Ok s ->
  PolicySnapshot_Policies s ≡ₚ sort_selectors <$> policies /\
  (forall p, p ∈ PolicySnapshot_Policies s -> validatePolicyInput (policy_input p) = None) /\
  validateAllowPrecedence (PolicySnapshot_Policies s) = None.
Proof.
  unfold newPolicySnapshot. destruct (first_err _ _) eqn:Hv; [done|].
  destruct (validateAllowPrecedence _) eqn:Hp; [done|]. destruct (snapshot_digest _ _); [|done].
  intros [= <-]. cbn [PolicySnapshot_Policies]. split_and!; [apply slice_sort_perm| |done].
  intros p Hin. apply (proj1 (first_err_None _ _) Hv) in Hin. by apply fmap_None in Hin.
Qed.

Lemma valid_allow_profile input :
  validatePolicyInput input = None -> PolicyInput_Effect input = PolicyEffectAllow ->
  PolicyInput_AccessProfile input <> ProfileDeny.
Proof.
  unfold validatePolicyInput. intros Hv He Hp. apply seq_err_None in Hv as [_ Hv].
  apply seq_err_None in Hv as [_ Hv]. rewrite He, Hp in Hv. destruct (_ || _); [done|]. by cbn in Hv.
Qed.

(** In a compiled snapshot the granting policies of one priority agree. *)
Lemma snapshot_unambiguous now input subject device site resource policies ids t s p q :
  newPolicySnapshot policies ids t = Ok s ->
  p ∈ PolicySnapshot_Policies s -> q ∈ PolicySnapshot_Policies s ->
  granting now input subject device site resource p -> granting now input subject device site resource q ->
  Policy_Priority p = Policy_Priority q -> Policy_AccessProfile p = Policy_AccessProfile q.
Proof.
  intros (_ & _ & Hpairs%precedence_pairs)%newPolicySnapshot_ok Hp%list_elem_of_In Hq%list_elem_of_In Hgp Hgq Hprio.
  destruct (ForallOrdPairs_In Hpairs _ _ Hp Hq) as [->|[Ha|Ha]]; [done|..].
  - eapply ambiguous_false; [done..|]. apply Ha; apply Hgp.
  - symmetry. eapply ambiguous_false; [done..|]. apply Ha; apply Hgq.
Qed.

End published.

(** An admission, in terms of the policies that name no resource. *)
Lemma EvaluateAdmission_allow now input subject device site snapshot :
  let preview := EvaluateAdmission now input subject device site snapshot in
  let considered policy := is_empty (Policy_ResourceIDs policy) && matchesPolicySelectors now policy
    (AdmissionInput_SubjectUserID input) (AdmissionInput_Mode input) subject device site in
  let permitted policy := governancePolicyAllows now site device policy "" in
  let ps := PolicySnapshot_Policies snapshot in
  PolicyPreview_Decision preview = DecisionAllow ->
  admission_ok input subject device site snapshot /\
  (forall p, p ∈ ps -> ~ denies considered p) /\
  exists allow, allow ∈ ps /\ grants considered permitted allow /\
    (forall p, p ∈ ps -> grants considered permitted p -> (Policy_Priority allow <= Policy_Priority p)%Z) /\
    PolicyPreview_NetworkProfile preview = Policy_AccessProfile allow /\
    Policy_AccessProfile allow <> ProfileDeny.
Proof.
  cbv zeta. unfold EvaluateAdmission. destruct (str_empty _) eqn:He; [|done]. cbn [negb].
  apply String.eqb_eq, admissionDenyReason_empty in He.
  pose proof (select_policy_spec (fun policy => is_empty (Policy_ResourceIDs policy) && matchesPolicySelectors now policy
    (AdmissionInput_SubjectUserID input) (AdmissionInput_Mode input) subject device site)
    (fun policy => governancePolicyAllows now site device policy "") (PolicySnapshot_Policies snapshot) None) as Hs.
  destruct (select_policy _ _ _ _) as [[allow|]|]; [|done..]. destruct Hs as (Hd & [[=]|[Hin Hgr]] & Hmin).
  destruct (String.eqb _ ProfileDeny) eqn:Hprofile; [done|]. apply String.eqb_neq in Hprofile.
  destruct (accessModePath _) as [[[path nl] rl]|]; [|done]. destruct (negb _); [done|]. intros _.
  split_and!; [done..|]. exists allow. split_and!; try done. intros p Hp Hg. apply Hmin. by right.
Qed.

Lemma published_elem `{MapRange, SnapshotDigest, !SliceSort policy_before} policies ids t s p :
  newPolicySnapshot policies ids t = Ok s ->
  p ∈ PolicySnapshot_Policies s <-> exists p0, p = sort_selectors p0 /\ p0 ∈ policies.
Proof. intros (Hperm & _)%newPolicySnapshot_ok. by rewrite Hperm, list_elem_of_fmap. Qed.

(** ** Properties *)

(** C38. Against a compiled snapshot, a request for a resource is allowed exactly
    when its subject, device, site, space, path and governance are in order, no
    enabled matching policy denies it and some enabled matching policy grants
    it; the access profile is then the one of every granting policy of least
    priority number, so neither ties nor the listing order matter. *)
Theorem network_policy_exact `{MapRange, SnapshotDigest, !SliceSort policy_before}
    now input subject device site space resource policies ids t s snapshot :
  newPolicySnapshot policies ids t = Ok s -> PolicySnapshot_Policies snapshot = PolicySnapshot_Policies s ->
  let preview := EvaluatePolicy now input subject device site space resource snapshot in
  let granting := granting now input subject device site resource in
  (PolicyPreview_Decision preview = DecisionAllow <->
     (exists path networkLease resourceLease,
        resource_ok now input subject device site space resource snapshot path networkLease resourceLease) /\
     (forall p, p ∈ policies -> ~ denying now input subject device site resource p) /\
     (exists p, p ∈ policies /\ granting p)) /\
  (PolicyPreview_Decision preview = DecisionAllow ->
     forall p, p ∈ policies -> granting p ->
       (forall q, q ∈ policies -> granting q -> (Policy_Priority p <= Policy_Priority q)%Z) ->
       PolicyPreview_NetworkProfile preview = Policy_AccessProfile p).
Proof.
  intros Hnew Hps. cbv zeta. pose proof (fun p => published_elem _ _ _ _ p Hnew) as Hin.
  split; [split|].
  - intros (path & nl & rl & allow & Hok & Hd & Ha & Hg & _)%EvaluatePolicy_allow. rewrite Hps in Hd, Ha.
    split_and!; [by exists path, nl, rl| |].
    + intros p Hp. rewrite <-sort_selectors_denying. apply Hd, Hin. eauto.
    + apply Hin in Ha as (p0 & -> & Hp0). exists p0. by rewrite sort_selectors_granting in Hg.
  - intros ((path & nl & rl & Hok%resource_guards_spec) & Hd & (p & Hp & Hg)).
    pose proof (EvaluatePolicy_guards now input subject device site space resource snapshot) as He.
    rewrite Hok in He. rewrite He. clear He Hok. unfold selectResourcePolicy. rewrite Hps.
    match goal with |- context [select_policy ?c ?m None ?l] => pose proof (select_policy_spec c m l None) as Hs end.
    destruct (select_policy _ _ _ _) as [[allow|]|reason].
    + destruct Hs as (_ & [[=]|[Ha Hga]] & _). destruct (String.eqb _ ProfileDeny) eqn:Hprofile; [|done].
      apply String.eqb_eq in Hprofile. destruct (newPolicySnapshot_ok _ _ _ _ Hnew) as (_ & Hvalid & _).
      destruct (valid_allow_profile _ (Hvalid _ Ha)); [|done]. apply Hga.
    + destruct Hs as (_ & _ & Hnone). destruct (Hnone (sort_selectors p)); [apply Hin; eauto|].
      by apply sort_selectors_granting.
    + destruct Hs as (d & Hdin & Hdd). apply Hin in Hdin as (d0 & -> & Hd0). destruct (Hd d0 Hd0).
      by apply sort_selectors_denying.
  - intros (path & nl & rl & allow & Hok & Hd & Ha & Hg & Hmin & _ & ->)%EvaluatePolicy_allow p Hp Hgp Hleast.
    rewrite Hps in Ha, Hmin. cbn [allow_preview PolicyPreview_NetworkProfile].
    change (Policy_AccessProfile p) with (Policy_AccessProfile (sort_selectors p)).
    assert (granting now input subject device site resource (sort_selectors p)) as Hgp' by by apply sort_selectors_granting.
    assert (sort_selectors p ∈ PolicySnapshot_Policies s) as Hp' by (apply Hin; eauto).
    eapply (snapshot_unambiguous now input subject device site resource); [done..|].
    specialize (Hmin _ Hp' Hgp'). apply Hin in Ha as (a0 & -> & Ha0). rewrite sort_selectors_granting in Hg.
    specialize (Hleast _ Ha0 Hg). cbn [sort_selectors Policy_Priority] in *. lia.
Qed.

(** Data for the examples: one user, one laptop, one protected resource. *)
Definition sample_subject : Subject :=
  {| Subject_UserID := "alice"; Subject_Status := StatusActive; Subject_Roles := ["ops"]; Subject_Teams := []; Subject_Tags := [] |}.

Definition sample_site (governance : string) : Site :=
  {| Site_ManagementIssuerKey := ""; Site_DeviceGovernance := governance; Site_ID := "hq"; Site_Name := "HQ";
     Site_Description := ""; Site_Location := ""; Site_Status := StatusActive; Site_CreatedAt := 0; Site_UpdatedAt := 0 |}.

Definition sample_device (management : string) : Device :=
  {| Device_ManagementVerifiedUntil := None; Device_ManagementIssuerKey := ""; Device_ManagementState := management;
     Device_ID := "laptop"; Device_OwnerUserID := "alice"; Device_Name := ""; Device_Hostname := "";
     Device_Platform := "linux"; Device_DeviceType := ""; Device_OwnershipType := ""; Device_SiteID := "hq";
     Device_Status := DeviceStatusActive; Device_PostureStatus := PostureCompliant; Device_PostureVersion := 1;
     Device_CredentialGeneration := 1; Device_LastSeenAt := None; Device_ReportedFacts := None;
     Device_CreatedAt := 0; Device_UpdatedAt := 0 |}.

Definition sample_space : Space :=
  {| Space_ID := "lan"; Space_SiteID := "hq"; Space_Name := ""; Space_CIDRs := []; Space_Status := StatusActive;
     Space_CreatedAt := 0; Space_UpdatedAt := 0 |}.

Definition sample_resource (protected : bool) : Resource :=
  {| Resource_TrustedAddresses := []; Resource_DNSExpiresAt := 0; Resource_ID := "db"; Resource_SpaceID := "lan";
     Resource_Name := ""; Resource_Kind := ""; Resource_Target := ""; Resource_Protocol := ""; Resource_Ports := [];
     Resource_Protected := protected; Resource_PathMode := ""; Resource_CreatedAt := 0; Resource_UpdatedAt := 0 |}.

Definition sample_policy (id : string) (priority : Z) (roles resources states : list string) (profile : string) : Policy :=
  {| Policy_DeviceManagementStates := states; Policy_ID := id; Policy_Name := id; Policy_Enabled := true;
     Policy_Priority := priority; Policy_Effect := PolicyEffectAllow;
     Policy_Subjects := {| PolicySubjects_Roles := roles; PolicySubjects_Users := []; PolicySubjects_Teams := [];
                           PolicySubjects_Tags := [] |};
     Policy_SiteIDs := []; Policy_ResourceIDs := resources; Policy_Modes := []; Policy_DeviceStatuses := [];
     Policy_PostureStatuses := []; Policy_AccessProfile := profile; Policy_Version := 1; Policy_CreatedAt := 0;
     Policy_UpdatedAt := 0 |}.

Definition sample_snapshot (policies : list Policy) : PolicySnapshot :=
  {| PolicySnapshot_PolicyVersion := 1; PolicySnapshot_ContentHash := "sha256:";
     PolicySnapshot_PolicyCount := Z.of_nat (length policies); PolicySnapshot_ProtectedResourceCount := 0;
     PolicySnapshot_PublishedAt := 0; PolicySnapshot_Policies := policies; PolicySnapshot_ProtectedResourceIDs := [] |}.

Definition sample_input (mode : string) : PreviewInput :=
  {| PreviewInput_NASBindingID := ""; PreviewInput_SubjectUserID := "alice"; PreviewInput_DeviceID := "laptop";
     PreviewInput_ResourceID := "db"; PreviewInput_SiteID := "hq"; PreviewInput_Mode := mode |}.

Definition sample_policies : list Policy :=
  [sample_policy "wide" 20 [] [] [] ProfileFull; sample_policy "ops" 10 ["ops"] ["db"] [] ProfileRestricted].

Definition sample_digest : SnapshotDigest := {| snapshot_digest := fun _ _ => Ok "" |}.

Lemma not_ltb_le s t : String.ltb t s = false <-> String.le s t.
Proof.
  unfold String.ltb, String.le, String.leb. rewrite (String.compare_antisym s t).
  destruct (String.compare _ _); cbn; naive_solver.
Qed.

Lemma not_after_before p q :
  not_after policy_before p q <->
  (Policy_Priority p < Policy_Priority q)%Z \/
  (Policy_Priority p = Policy_Priority q /\ String.le (Policy_ID p) (Policy_ID q)).
Proof.
  unfold not_after, policy_before. destruct (Z.eqb_spec (Policy_Priority q) (Policy_Priority p)).
  - rewrite not_ltb_le. intuition lia.
  - rewrite Z.ltb_ge. intuition lia.
Qed.

#[export] Instance policy_before_total : Total (not_after policy_before).
Proof.
  intros p q. rewrite !not_after_before.
  destruct (total String.le (Policy_ID p) (Policy_ID q)), (Z.lt_total (Policy_Priority p) (Policy_Priority q)) as [|[]];
    intuition lia.
Qed.

#[export] Instance policy_before_trans : Transitive (not_after policy_before).
Proof.
  intros p q r. rewrite !not_after_before. intros [|[]] [|[]]; [left; lia..|right].
  split; [congruence|]. by transitivity (Policy_ID q).
Qed.

Definition sample_sort : SliceSort policy_before := merge_slice_sort policy_before _ _.

Lemma network_policy_exact_witness :
  PolicyPreview_NetworkProfile (EvaluatePolicy 0 (sample_input ModeInternalZTNA) sample_subject
    (sample_device DeviceManagementManaged) (sample_site DeviceGovernanceManaged) sample_space (sample_resource true)
    (sample_snapshot (sort_selectors <$> reverse sample_policies))) = ProfileRestricted.
Proof.
  destruct (@network_policy_exact elements_map_range sample_digest sample_sort 0 (sample_input ModeInternalZTNA)
    sample_subject (sample_device DeviceManagementManaged) (sample_site DeviceGovernanceManaged) sample_space
    (sample_resource true) sample_policies [] 0
    (match @newPolicySnapshot elements_map_range sample_digest sample_sort sample_policies [] 0 with
     | Ok s => s | Err _ => sample_snapshot [] end)
    (sample_snapshot (sort_selectors <$> reverse sample_policies))) as [_ Hp].
  - vm_compute. reflexivity.
  - vm_compute. reflexivity.
  - apply (Hp ltac:(vm_compute; reflexivity) (sample_policy "ops" 10 ["ops"] ["db"] [] ProfileRestricted)).
    + right. left.
    + split_and!; vm_compute; reflexivity.
    + intros q [->|[->|Hq%elem_of_nil]%elem_of_cons]%elem_of_cons _; [..|destruct Hq]; cbn; lia.
Defined.

(** An allowed request comes from an active subject with an active device of
    its own; a protected resource is reached only over ZTNA with a resource
    lease, from a device its site counts as managed; a device that is not
    managed gets the restricted profile, no network lease, and only resources
    that the granting policy lists together with its management state. *)
Theorem network_allow_confined now input subject device site space resource snapshot :
  Resource_ID resource <> "" ->
  let preview := EvaluatePolicy now input subject device site space resource snapshot in
  PolicyPreview_Decision preview = DecisionAllow ->
  (Subject_Status subject = StatusActive /\ Device_OwnerUserID device = Subject_UserID subject /\
   Device_Status device = DeviceStatusActive /\ Resource_SpaceID resource = Space_ID space /\
   Space_SiteID space = Site_ID site) /\
  (Resource_Protected resource = true ->
     PolicyPreview_Path preview = PathWireGuardZTNA /\ PolicyPreview_ResourceLeaseRequired preview = true /\
     governedUnmanaged now site device = false) /\
  (governedUnmanaged now site device = true ->
     PolicyPreview_NetworkProfile preview = ProfileRestricted /\
     PolicyPreview_NetworkLeaseRequired preview = false /\ PolicyPreview_ResourceLeaseRequired preview = true /\
     EffectiveDeviceGovernance site = DeviceGovernanceRestricted /\
     exists p, p ∈ PolicySnapshot_Policies snapshot /\ Resource_ID resource ∈ Policy_ResourceIDs p /\
       EffectiveManagementState now device ∈ Policy_DeviceManagementStates p).
Proof.
  intros Hid. cbv zeta. intros (path & nl & rl & allow & Hok & _ & Hin & Hg & _ & _ & ->)%EvaluatePolicy_allow.
  destruct Hok as [Hadm Hsp Hss Hrs Hpath Hgov Hprot _]. destruct Hadm as [_ Hs Hsa _ Ho Hda _ _ _].
  cbn [allow_preview PolicyPreview_Path PolicyPreview_ResourceLeaseRequired PolicyPreview_NetworkProfile
       PolicyPreview_NetworkLeaseRequired].
  split_and!; try done; [congruence|..].
  - intros Hp. specialize (Hprot Hp). split_and!.
    1,2: revert Hpath; unfold accessModePath; repeat case_match; naive_solver.
    destruct (governedUnmanaged _ _ _); [|done]. destruct Hgov as (_ & ? & _); [done|congruence].
  - intros Hu. destruct (Hgov Hu) as (_ & _ & -> & ->). destruct Hg as (_ & _ & _ & Hperm).
    unfold governancePolicyAllows in Hperm. rewrite Hu in Hperm. cbn [negb] in Hperm.
    destruct (_ || _) eqn:H1 in Hperm; [done|]. apply orb_false_iff in H1 as [H1%negb_eqb_false H2%negb_false_iff].
    assert (str_empty (Resource_ID resource) = false) as He by (by apply String.eqb_neq). rewrite He in Hperm.
    cbn [negb andb orb] in Hperm. destruct (negb _) eqn:H3 in Hperm; [done|]. apply negb_eqb_false in H3.
    rewrite H3 in Hperm. cbn [String.eqb negb andb] in Hperm.
    split_and!; try done. exists allow. split_and!; [done|..]; by apply contains_true.
Qed.

Lemma network_allow_confined_witness :
  PolicyPreview_NetworkProfile (EvaluatePolicy 0 (sample_input ModeInternalZTNA) sample_subject
    (sample_device DeviceManagementUnmanaged) (sample_site DeviceGovernanceRestricted) sample_space (sample_resource false)
    (sample_snapshot [sample_policy "byod" 10 [] ["db"] [DeviceManagementUnmanaged] ProfileRestricted])) = ProfileRestricted.
Proof.
  destruct (network_allow_confined 0 (sample_input ModeInternalZTNA) sample_subject
    (sample_device DeviceManagementUnmanaged) (sample_site DeviceGovernanceRestricted) sample_space (sample_resource false)
    (sample_snapshot [sample_policy "byod" 10 [] ["db"] [DeviceManagementUnmanaged] ProfileRestricted])) as (_ & _ & Hu).
  - discriminate.
  - vm_compute. reflexivity.
  - apply Hu. vm_compute. reflexivity.
Defined.
