(* ===== verification/NasAdmission.v ===== *)
(** * Network access: sessions at network access servers

    The periodic revalidation of a session ([reconcileNASAdmission] of
    application/networkaccess/nas_admission.go) with the intersection of access
    profiles ([RestrictAccessProfile]) and the digest of the attributes of an
    admission.  A nil dereference of the code is [None] of the outer [option].
    SHA-256 and the JSON encoding, the text of a time and new identifiers are
    the interface [AdmissionDigest]. *)

From stdpp Require Import pretty.
From S2P Require Import Prelude GoStrings GoLib NetworkModel NetworkPolicy.

(** ** Access profiles *)

Definition RestrictAccessProfile (profile floor : string) : string :=
  if str_empty floor || String.eqb profile floor then profile
  else if String.eqb profile ProfileDeny || String.eqb floor ProfileDeny then ProfileDeny
  else if String.eqb profile ProfileFull then floor
  else if String.eqb floor ProfileFull then profile
  else if String.eqb profile ProfileRestricted && String.eqb floor ProfileQuarantine ||
          String.eqb profile ProfileQuarantine && String.eqb floor ProfileRestricted
  then ProfileQuarantine
  else ProfileDeny.

(** ** Times *)

Definition second : Z := 10 ^ 9.
Definition minute : Z := 60 * second.

(** [time.Time.Sub] saturates at the ends of a 64-bit duration. *)
Definition time_sub (t u : Z) : Z := Z.max (- 2 ^ 63) (Z.min (2 ^ 63 - 1) (t - u)).

Definition time_before (t u : Z) : bool := (t <? u)%Z.

(** ** The attributes of an admission *)

Record AdmissionAttributes := {
  Attributes_ManagementProof : string;
  Attributes_Subject : Subject;
  Attributes_DeviceID : string;
  Attributes_OwnerID : string;
  Attributes_DeviceSite : string;
  Attributes_DeviceStatus : string;
  Attributes_Posture : string;
  Attributes_ManagementState : string;
  Attributes_DeviceGovernance : string;
  Attributes_PostureVersion : Z;
  Attributes_CredentialGeneration : Z;
  Attributes_SiteID : string;
  Attributes_SiteStatus : string;
  Attributes_BindingID : string;
  Attributes_RuntimeID : string;
  Attributes_NASID : string;
  Attributes_BindingSite : string;
  Attributes_BindingStatus : string;
  Attributes_Profile : option SiteProfileBinding;
  Attributes_CoASupported : bool;
  Attributes_DisconnectSupported : bool
}.

Class AdmissionDigest := {
  attributes_digest : AdmissionAttributes -> string;
  text_digest : string -> string;
  time_text : Z -> string;
  new_uuid : string
}.

Section admission.
Context `{AdmissionDigest}.

Definition admission_attributes (now : Z) (subject : Subject) (device : Device) (site : Site)
    (binding : NASBinding) (profile : option SiteProfileBinding) : AdmissionAttributes :=
  let management := EffectiveManagementState now device in
  let governance := EffectiveDeviceGovernance site in
  let hidden := String.eqb management DeviceManagementUnknown && String.eqb governance DeviceGovernanceLegacy in
  {| Attributes_ManagementProof :=
       if String.eqb (Site_DeviceGovernance site) DeviceGovernanceVerified
       then Site_DeviceGovernance site +:+ "/" +:+ Site_ManagementIssuerKey site +:+ "/" +:+
            Device_ManagementIssuerKey device +:+ "/" +:+
            from_option time_text "<nil>" (Device_ManagementVerifiedUntil device)
       else "";
     Attributes_Subject :=
       {| Subject_UserID := Subject_UserID subject; Subject_Status := Subject_Status subject;
          Subject_Roles := sort_strings (Subject_Roles subject); Subject_Teams := sort_strings (Subject_Teams subject);
          Subject_Tags := sort_strings (Subject_Tags subject) |};
     Attributes_DeviceID := Device_ID device; Attributes_OwnerID := Device_OwnerUserID device;
     Attributes_DeviceSite := Device_SiteID device; Attributes_DeviceStatus := Device_Status device;
     Attributes_Posture := Device_PostureStatus device;
     Attributes_ManagementState := if hidden then "" else management;
     Attributes_DeviceGovernance := if hidden then "" else governance;
     Attributes_PostureVersion := Device_PostureVersion device;
     Attributes_CredentialGeneration := Device_CredentialGeneration device;
     Attributes_SiteID := Site_ID site; Attributes_SiteStatus := Site_Status site;
     Attributes_BindingID := NASBinding_ID binding; Attributes_RuntimeID := NASBinding_RuntimeID binding;
     Attributes_NASID := NASBinding_NASID binding; Attributes_BindingSite := NASBinding_SiteID binding;
     Attributes_BindingStatus := NASBinding_Status binding; Attributes_Profile := profile;
     Attributes_CoASupported := NASBinding_CoASupported binding;
     Attributes_DisconnectSupported := NASBinding_DisconnectSupported binding |}.

Definition AdmissionAttributesHash (now : Z) (subject : Subject) (device : Device) (site : Site)
    (binding : NASBinding) (profile : option SiteProfileBinding) : string :=
  "sha256:" +:+ attributes_digest (admission_attributes now subject device site binding profile).

(** ** Revalidation *)

Definition session_input (session : Session) : AdmissionInput :=
  {| AdmissionInput_SubjectUserID := Session_SubjectID session; AdmissionInput_DeviceID := Session_DeviceID session;
     AdmissionInput_SiteID := Session_SiteID session; AdmissionInput_Mode := ModeInternalDirect |}.

Definition radius_of (binding : SiteProfileBinding) : RadiusAttributes :=
  {| RadiusAttributes_VLANID := SiteProfileBinding_VLANID binding;
     RadiusAttributes_FilterID := SiteProfileBinding_FilterID binding;
     RadiusAttributes_SessionTimeoutSeconds := SiteProfileBinding_SessionTimeoutSeconds binding |}.

(** The profile and the reason before the profile is intersected with the
    profile of the session and its floor. *)
Definition admitted_profile (snapshot : NASAdmissionSnapshot) (now : Z) : string * string :=
  let session := NASAdmissionSnapshot_Session snapshot in
  let preview := EvaluateAdmission now (session_input session) (NASAdmissionSnapshot_Subject snapshot)
    (NASAdmissionSnapshot_Device snapshot) (NASAdmissionSnapshot_Site snapshot) (NASAdmissionSnapshot_Policies snapshot) in
  let '(profile, reason) :=
    if String.eqb (PolicyPreview_Decision preview) DecisionAllow
    then (PolicyPreview_NetworkProfile preview, "nas_admission_revalidated")
    else (ProfileDeny, match PolicyPreview_Reasons preview with r :: _ => r | [] => "nas_admission_revalidated" end) in
  if (time_sub (Session_ExpiresAt session) now <? second)%Z then (ProfileDeny, "nas_authorization_expired")
  else if negb (NASAdmissionSnapshot_CredentialActive snapshot) then (ProfileDeny, "endpoint_credential_inactive")
  else if negb (String.eqb (NASBinding_Status (NASAdmissionSnapshot_Binding snapshot)) StatusActive) ||
          negb (String.eqb (NASBinding_SiteID (NASAdmissionSnapshot_Binding snapshot)) (Session_SiteID session))
  then (ProfileDeny, "nas_binding_inactive")
  else (profile, reason).

Definition evaluateNASAdmission (snapshot : NASAdmissionSnapshot) (now : Z) : NASAdmissionMutation :=
  let session := NASAdmissionSnapshot_Session snapshot in
  let preview := EvaluateAdmission now (session_input session) (NASAdmissionSnapshot_Subject snapshot)
    (NASAdmissionSnapshot_Device snapshot) (NASAdmissionSnapshot_Site snapshot) (NASAdmissionSnapshot_Policies snapshot) in
  let '(profile, reason) := admitted_profile snapshot now in
  let profile := RestrictAccessProfile profile
    (RestrictAccessProfile (Session_AccessProfile session) (NASAdmissionSnapshot_FloorProfile snapshot)) in
  let '(profile, reason, binding) :=
    if String.eqb profile ProfileDeny then (profile, reason, None)
    else match NASAdmissionSnapshot_Profiles snapshot !! profile with
    | None => (ProfileDeny, "nas_profile_unavailable", None)
    | Some current => (profile, reason, Some current)
    end in
  {| NASAdmissionMutation_Profile := profile;
     NASAdmissionMutation_InputsHash := AdmissionAttributesHash now (NASAdmissionSnapshot_Subject snapshot)
       (NASAdmissionSnapshot_Device snapshot) (NASAdmissionSnapshot_Site snapshot)
       (NASAdmissionSnapshot_Binding snapshot) binding;
     NASAdmissionMutation_Reason := reason;
     NASAdmissionMutation_PolicyVersion :=
       Z.max (PolicyPreview_PolicyVersion preview) (Session_PolicyVersion session);
     NASAdmissionMutation_RadiusAttributes := radius_of <$> binding;
     NASAdmissionMutation_Command := None;
     NASAdmissionMutation_Attempts := NASAdmissionSnapshot_Attempts snapshot |}.

Definition nasAdmissionMappingChanged (snapshot : NASAdmissionSnapshot) (attributes : option RadiusAttributes)
    (profile oldProfile : string) : bool :=
  match attributes, NASAdmissionSnapshot_RadiusAttributes snapshot with
  | Some a, Some old =>
      String.eqb profile oldProfile &&
      (negb (RadiusAttributes_VLANID a =? RadiusAttributes_VLANID old)%Z ||
       negb (String.eqb (RadiusAttributes_FilterID a) (RadiusAttributes_FilterID old)) ||
       (0 <? NASAdmissionSnapshot_Revision snapshot)%Z &&
       negb (RadiusAttributes_SessionTimeoutSeconds a =? RadiusAttributes_SessionTimeoutSeconds old)%Z)
  | _, _ => false
  end.

Definition set_mutation (m : NASAdmissionMutation) (profile reason : string) (command : option SessionCommand)
    (attempts : Z) : NASAdmissionMutation :=
  {| NASAdmissionMutation_Profile := profile;
     NASAdmissionMutation_InputsHash := NASAdmissionMutation_InputsHash m;
     NASAdmissionMutation_Reason := reason;
     NASAdmissionMutation_PolicyVersion := NASAdmissionMutation_PolicyVersion m;
     NASAdmissionMutation_RadiusAttributes := NASAdmissionMutation_RadiusAttributes m;
     NASAdmissionMutation_Command := command;
     NASAdmissionMutation_Attempts := attempts |}.

(** The command that enforces a mutation, with the mutation it updates.  The
    session's latest command and the mutation's attributes are dereferenced. *)
Definition nasAdmissionCommand (snapshot : NASAdmissionSnapshot) (mutation : NASAdmissionMutation)
    (mappingChanged retry : bool) (now : Z) : option (NASAdmissionMutation * SessionCommand) :=
  let session := NASAdmissionSnapshot_Session snapshot in
  let binding := NASAdmissionSnapshot_Binding snapshot in
  retried ← (if String.eqb (NASAdmissionMutation_Profile mutation) ProfileDeny || mappingChanged ||
                negb (NASBinding_CoASupported binding) then Some true
             else if retry then
               (fun command => String.eqb (SessionCommand_Action command) SessionActionCoA) <$> Session_LatestCommand session
             else Some false);
  let action := if retried : bool then SessionActionDisconnect else SessionActionCoA in
  let mutation := if mappingChanged
    then set_mutation mutation ProfileDeny "nas_mapping_changed_reauthenticate" (NASAdmissionMutation_Command mutation)
           (NASAdmissionMutation_Attempts mutation)
    else mutation in
  let digest := text_digest ("nas-admission:" +:+ Session_ID session +:+ ":" +:+
    pretty (NASAdmissionSnapshot_Revision snapshot + 1)%Z +:+ ":" +:+ action +:+ ":" +:+
    NASAdmissionMutation_Profile mutation +:+ ":" +:+ NASAdmissionMutation_InputsHash mutation) in
  attributes ← (if String.eqb action SessionActionCoA then
      (fun a => Some {| RadiusAttributes_VLANID := RadiusAttributes_VLANID a;
                        RadiusAttributes_FilterID := RadiusAttributes_FilterID a;
                        RadiusAttributes_SessionTimeoutSeconds :=
                          Z.min (RadiusAttributes_SessionTimeoutSeconds a)
                                (Z.quot (time_sub (Session_ExpiresAt session) now) second) |})
      <$> NASAdmissionMutation_RadiusAttributes mutation
    else Some None);
  let unsupported := negb (NASAdmissionSnapshot_StrongBinding snapshot) ||
    String.eqb action SessionActionDisconnect && negb (NASBinding_DisconnectSupported binding) in
  Some (mutation,
    {| SessionCommand_StationID := ""; SessionCommand_AccountingSessionID := ""; SessionCommand_NASPortID := "";
       SessionCommand_ID := new_uuid; SessionCommand_SessionID := Session_ID session;
       SessionCommand_RuntimeID := Session_RuntimeID session; SessionCommand_NASID := Session_NASID session;
       SessionCommand_SubjectID := ""; SessionCommand_DeviceID := ""; SessionCommand_Action := action;
       SessionCommand_TargetAccessProfile := NASAdmissionMutation_Profile mutation;
       SessionCommand_PolicyVersion := NASAdmissionMutation_PolicyVersion mutation;
       SessionCommand_Status := if unsupported then SessionCommandUnsupported else SessionCommandPending;
       SessionCommand_ReasonCode := if unsupported then "nas_enforcement_unsupported"
                                    else NASAdmissionMutation_Reason mutation;
       SessionCommand_PlanHash := "sha256:" +:+ digest;
       SessionCommand_RadiusAttributes := if String.eqb action SessionActionDisconnect then None else attributes;
       SessionCommand_EffectiveAt := now; SessionCommand_ExpiresAt := now + minute;
       SessionCommand_CompletedAt := if unsupported then Some now else None;
       SessionCommand_CreatedAt := now |}).

Definition retryNASAdmissionCommand (command : option SessionCommand) (attempts now : Z) : bool :=
  match command with
  | None => false
  | Some command =>
      let status := SessionCommand_Status command in
      if (3 <=? attempts)%Z || String.eqb status SessionCommandApplied || String.eqb status SessionCommandUnsupported
      then false
      else
        let failedAt := default (SessionCommand_ExpiresAt command) (SessionCommand_CompletedAt command) in
        if time_before now (failedAt + Z.max attempts 1 * 30 * second) then false
        else String.eqb status SessionCommandExpired || String.eqb status SessionCommandRejected ||
             String.eqb status SessionCommandTimedOut || negb (time_before now (SessionCommand_ExpiresAt command))
  end.

Definition reconcileNASAdmission (snapshot : NASAdmissionSnapshot) (now : Z) : option (option NASAdmissionMutation) :=
  let session := NASAdmissionSnapshot_Session snapshot in
  if String.eqb (Session_Status session) "expired" || String.eqb (Session_Status session) "revoked" then Some None
  else
    let decision := evaluateNASAdmission snapshot now in
    let unchanged :=
      String.eqb (NASAdmissionMutation_InputsHash decision) (NASAdmissionSnapshot_InputsHash snapshot) &&
      String.eqb (NASAdmissionMutation_Profile decision) (NASAdmissionSnapshot_FloorProfile snapshot) &&
      (NASAdmissionMutation_PolicyVersion decision =? Session_PolicyVersion session)%Z in
    let retry := retryNASAdmissionCommand (Session_LatestCommand session) (NASAdmissionSnapshot_Attempts snapshot) now in
    if unchanged && negb retry then Some None
    else
      let oldProfile := RestrictAccessProfile (Session_AccessProfile session) (NASAdmissionSnapshot_FloorProfile snapshot) in
      let mappingChanged := nasAdmissionMappingChanged snapshot (NASAdmissionMutation_RadiusAttributes decision)
        (NASAdmissionMutation_Profile decision) oldProfile in
      let retryUnsupported := negb unchanged &&
        from_option (fun command => String.eqb (SessionCommand_Status command) SessionCommandUnsupported) false
          (Session_LatestCommand session) in
      if String.eqb (NASAdmissionMutation_Profile decision) oldProfile && negb mappingChanged && negb retry &&
         negb retryUnsupported
      then Some (Some decision)
      else
        let attempts := if unchanged then (NASAdmissionSnapshot_Attempts snapshot + 1)%Z else 1%Z in
        let mutation := set_mutation decision (NASAdmissionMutation_Profile decision)
          (NASAdmissionMutation_Reason decision) None attempts in
        '(mutation, command) ← nasAdmissionCommand snapshot mutation mappingChanged retry now;
        Some (Some (set_mutation mutation (NASAdmissionMutation_Profile mutation)
          (NASAdmissionMutation_Reason mutation) (Some command) (NASAdmissionMutation_Attempts mutation))).

End admission.

(** The floor of a snapshot, as the repository loads it: the stored floor of
    the session, intersected with a restriction of the endpoint if there is
    one. *)
Definition loaded_floor (sessionProfile storedFloor restriction : string) : string :=
  if str_empty restriction then storedFloor
  else RestrictAccessProfile (RestrictAccessProfile sessionProfile storedFloor) restriction.

(** ** The order of profiles *)

(** At most as much access: denial is below everything, full access above
    everything, quarantine below the restricted profile. *)
Definition profile_le (p q : string) : Prop :=
  p = q \/ p = ProfileDeny \/ q = ProfileFull \/ (p = ProfileQuarantine /\ q = ProfileRestricted).

#[export] Instance profile_le_dec p q : Decision (profile_le p q).
Proof. unfold profile_le. apply _. Defined.

#[export] Instance profile_le_preorder : PreOrder profile_le.
Proof.
  split; [by left|]. intros p q r [->|[->|[->|[-> ->]]]] [<-|[H|[->|[H1 H2]]]]; unfold profile_le; auto;
    try (by (right; left)); try discriminate; auto 6.
Qed.

Lemma profile_le_deny p : profile_le p ProfileDeny -> p = ProfileDeny.
Proof. intros [->|[->|[[=]|[_ [=]]]]]; done. Qed.

(** ** Intersection of profiles *)

Lemma restrict_no_floor p : RestrictAccessProfile p "" = p.
Proof. done. Qed.

Ltac profile_cases :=
  repeat match goal with
  | |- context [String.eqb ?x ?y] =>
      destruct (String.eqb x y) eqn:?; [rewrite String.eqb_eq in *|rewrite String.eqb_neq in *]
  end; cbn [orb andb].

Lemma restrict_lower p f : f <> "" -> profile_le (RestrictAccessProfile p f) p /\ profile_le (RestrictAccessProfile p f) f.
Proof.
  intros Hf. unfold RestrictAccessProfile, str_empty, profile_le. profile_cases; subst; naive_solver.
Qed.

Lemma restrict_le p f : profile_le (RestrictAccessProfile p f) p.
Proof. destruct (decide (f = "")) as [->|Hf]; [by rewrite restrict_no_floor|by apply restrict_lower]. Qed.

Lemma restrict_greatest p f x : f <> "" -> profile_le x p -> profile_le x f -> profile_le x (RestrictAccessProfile p f).
Proof.
  intros Hf. unfold RestrictAccessProfile, str_empty, profile_le. profile_cases; subst; naive_solver.
Qed.

Lemma restrict_nonempty p f : p <> "" -> RestrictAccessProfile p f <> "".
Proof. intros Hp. unfold RestrictAccessProfile, str_empty. profile_cases; subst; done. Qed.

Section lemmas.
Context `{AdmissionDigest}.

Definition revalidated (snapshot : NASAdmissionSnapshot) (now : Z) : PolicyPreview :=
  EvaluateAdmission now (session_input (NASAdmissionSnapshot_Session snapshot)) (NASAdmissionSnapshot_Subject snapshot)
    (NASAdmissionSnapshot_Device snapshot) (NASAdmissionSnapshot_Site snapshot) (NASAdmissionSnapshot_Policies snapshot).

(** What an admission that is not denied rests on. *)
Record still_admitted (snapshot : NASAdmissionSnapshot) (now : Z) (profile : string) : Prop := {
  admitted_decision : PolicyPreview_Decision (revalidated snapshot now) = DecisionAllow;
  admitted_below : profile_le profile (PolicyPreview_NetworkProfile (revalidated snapshot now));
  admitted_credential : NASAdmissionSnapshot_CredentialActive snapshot = true;
  admitted_binding : NASBinding_Status (NASAdmissionSnapshot_Binding snapshot) = StatusActive;
  admitted_site : NASBinding_SiteID (NASAdmissionSnapshot_Binding snapshot) =
                  Session_SiteID (NASAdmissionSnapshot_Session snapshot);
  admitted_time : (now + second <= Session_ExpiresAt (NASAdmissionSnapshot_Session snapshot))%Z;
  admitted_mapped : is_Some (NASAdmissionSnapshot_Profiles snapshot !! profile)
}.

Lemma admitted_profile_spec snapshot now :
  fst (admitted_profile snapshot now) = ProfileDeny \/
  (PolicyPreview_Decision (revalidated snapshot now) = DecisionAllow /\
   fst (admitted_profile snapshot now) = PolicyPreview_NetworkProfile (revalidated snapshot now) /\
   NASAdmissionSnapshot_CredentialActive snapshot = true /\
   NASBinding_Status (NASAdmissionSnapshot_Binding snapshot) = StatusActive /\
   NASBinding_SiteID (NASAdmissionSnapshot_Binding snapshot) = Session_SiteID (NASAdmissionSnapshot_Session snapshot) /\
   (now + second <= Session_ExpiresAt (NASAdmissionSnapshot_Session snapshot))%Z).
Proof.
  unfold admitted_profile. fold (revalidated snapshot now).
  destruct (String.eqb (PolicyPreview_Decision _) _) eqn:Hd;
    (destruct (_ <? second)%Z eqn:Hs; [by left|]); (destruct (negb _) eqn:Hc; [by left|]);
    (destruct (_ || _) eqn:Hb; [by left|]); [right|by left].
  apply String.eqb_eq in Hd. apply Z.ltb_ge in Hs. apply negb_false_iff in Hc.
  apply orb_false_iff in Hb as [Hb1%negb_eqb_false Hb2%negb_eqb_false].
  split_and!; try done. unfold time_sub, second in *. lia.
Qed.

(** The outcome of an evaluation: a denial without attributes, or a mapped
    profile below the admitted one, the session's and the floor. *)
Lemma evaluateNASAdmission_spec snapshot now :
  let m := evaluateNASAdmission snapshot now in
  let session := NASAdmissionSnapshot_Session snapshot in
  (NASAdmissionMutation_Profile m = ProfileDeny /\ NASAdmissionMutation_RadiusAttributes m = None) \/
  (NASAdmissionMutation_Profile m <> ProfileDeny /\
   NASAdmissionMutation_Profile m = RestrictAccessProfile (fst (admitted_profile snapshot now))
     (RestrictAccessProfile (Session_AccessProfile session) (NASAdmissionSnapshot_FloorProfile snapshot)) /\
   exists b, NASAdmissionSnapshot_Profiles snapshot !! NASAdmissionMutation_Profile m = Some b /\
     NASAdmissionMutation_RadiusAttributes m = Some (radius_of b)).
Proof.
  cbv zeta. unfold evaluateNASAdmission. destruct (admitted_profile snapshot now) as [p reason]. cbn [fst].
  destruct (String.eqb _ ProfileDeny) eqn:Hp.
  - left. apply String.eqb_eq in Hp. by cbn.
  - apply String.eqb_neq in Hp. destruct (_ !! _) as [b|] eqn:Hb; [right|by left]. cbn. eauto.
Qed.

(** The command is built without a nil dereference, and targets the profile of
    the mutation. *)
Lemma nasAdmissionCommand_spec snapshot mutation mappingChanged retry now :
  (NASAdmissionMutation_Profile mutation <> ProfileDeny -> is_Some (NASAdmissionMutation_RadiusAttributes mutation)) ->
  (retry = true -> is_Some (Session_LatestCommand (NASAdmissionSnapshot_Session snapshot))) ->
  exists m c, nasAdmissionCommand snapshot mutation mappingChanged retry now = Some (m, c) /\
    NASAdmissionMutation_Profile m =
      (if mappingChanged then ProfileDeny else NASAdmissionMutation_Profile mutation) /\
    SessionCommand_TargetAccessProfile c = NASAdmissionMutation_Profile m /\
    (SessionCommand_Action c = SessionActionCoA -> NASAdmissionMutation_Profile m <> ProfileDeny /\
       exists a, NASAdmissionMutation_RadiusAttributes mutation = Some a /\
       SessionCommand_RadiusAttributes c = Some
         {| RadiusAttributes_VLANID := RadiusAttributes_VLANID a; RadiusAttributes_FilterID := RadiusAttributes_FilterID a;
            RadiusAttributes_SessionTimeoutSeconds := Z.min (RadiusAttributes_SessionTimeoutSeconds a)
              (Z.quot (time_sub (Session_ExpiresAt (NASAdmissionSnapshot_Session snapshot)) now) second) |}) /\
    (SessionCommand_Action c <> SessionActionCoA -> SessionCommand_RadiusAttributes c = None).
Proof.
  intros Hattr Hretry. unfold nasAdmissionCommand.
  destruct (String.eqb _ ProfileDeny || mappingChanged || _) eqn:Hd; cbn [mbind option_bind].
  { do 2 eexists. split; [reflexivity|]. cbn [SessionCommand_TargetAccessProfile SessionCommand_Action
      SessionCommand_RadiusAttributes]. split_and!; [by destruct mappingChanged|done|done|done]. }
  apply orb_false_iff in Hd as [[Hd1%String.eqb_neq ->]%orb_false_iff _].
  destruct (Hattr Hd1) as [a Ha].
  assert (exists retried, (if retry then (fun command => String.eqb (SessionCommand_Action command) SessionActionCoA) <$>
    Session_LatestCommand (NASAdmissionSnapshot_Session snapshot) else Some false) = Some retried) as [retried Hr].
  { destruct retry; [|by eexists]. destruct (Hretry eq_refl) as [c ->]. by eexists. }
  rewrite Hr. cbn [mbind option_bind]. destruct retried; cbn [String.eqb]; rewrite ?Ha;
    (do 2 eexists; split; [reflexivity|]);
    cbn [SessionCommand_TargetAccessProfile SessionCommand_Action SessionCommand_RadiusAttributes];
    (split_and!; [done..| |done]); [done|]. intros _. split; [done|]. by exists a.
Qed.

(** The decided profile, and a denial, are below the session's profile and its
    floor, and a profile other than the denial is admitted. *)
Lemma decided_profile_safe snapshot now q :
  Session_AccessProfile (NASAdmissionSnapshot_Session snapshot) <> "" ->
  q = NASAdmissionMutation_Profile (evaluateNASAdmission snapshot now) \/ q = ProfileDeny ->
  profile_le q (Session_AccessProfile (NASAdmissionSnapshot_Session snapshot)) /\
  (NASAdmissionSnapshot_FloorProfile snapshot <> "" -> profile_le q (NASAdmissionSnapshot_FloorProfile snapshot)) /\
  (q <> ProfileDeny -> still_admitted snapshot now q).
Proof.
  intros Hsession. assert (forall x, profile_le ProfileDeny x) as Hdeny by (by right; left).
  intros [->| ->]; [|by split_and!].
  destruct (evaluateNASAdmission_spec snapshot now) as [[-> _]|(Hne & Heq & b & Hb & _)]; [by split_and!|].
  pose proof (restrict_nonempty _ (NASAdmissionSnapshot_FloorProfile snapshot) Hsession) as Hn.
  destruct (restrict_lower (fst (admitted_profile snapshot now)) _ Hn) as [Hl1 Hl2]. rewrite <-Heq in Hl1, Hl2.
  split_and!.
  - etransitivity; [exact Hl2|]. apply restrict_le.
  - intros Hf. etransitivity; [exact Hl2|]. by apply restrict_lower.
  - intros _. destruct (admitted_profile_spec snapshot now) as [Hd|(H1 & H2 & H3 & H4 & H5 & H6)].
    { rewrite Hd in Hl1. destruct Hne. by apply profile_le_deny. }
    rewrite H2 in Hl1. by split.
Qed.

Lemma evaluate_no_command snapshot now : NASAdmissionMutation_Command (evaluateNASAdmission snapshot now) = None.
Proof.
  unfold evaluateNASAdmission. destruct (admitted_profile _ _). destruct (String.eqb _ _); [done|]. by destruct (_ !! _).
Qed.

Lemma timeout_within timeout expires now :
  (now + second <= expires)%Z ->
  (now + Z.min timeout (Z.quot (time_sub expires now) second) * second <= expires)%Z.
Proof.
  intros Ht. unfold time_sub, second in *.
  assert (0 <= Z.max (- 2 ^ 63) (Z.min (2 ^ 63 - 1) (expires - now)))%Z as H0 by lia.
  pose proof (Z.mul_quot_le _ (10 ^ 9) H0). nia.
Qed.

(** A revalidation leaves the session alone, records the decision, or records
    it with a command. *)
Lemma reconcile_cases snapshot now :
  let decision := evaluateNASAdmission snapshot now in
  reconcileNASAdmission snapshot now = Some None \/
  reconcileNASAdmission snapshot now = Some (Some decision) \/
  exists m c, reconcileNASAdmission snapshot now = Some (Some (set_mutation m (NASAdmissionMutation_Profile m)
                (NASAdmissionMutation_Reason m) (Some c) (NASAdmissionMutation_Attempts m))) /\
    (NASAdmissionMutation_Profile m = NASAdmissionMutation_Profile decision \/
     NASAdmissionMutation_Profile m = ProfileDeny) /\
    SessionCommand_TargetAccessProfile c = NASAdmissionMutation_Profile m /\
    (SessionCommand_Action c = SessionActionCoA -> NASAdmissionMutation_Profile m <> ProfileDeny /\
       exists a, NASAdmissionMutation_RadiusAttributes decision = Some a /\
       SessionCommand_RadiusAttributes c = Some
         {| RadiusAttributes_VLANID := RadiusAttributes_VLANID a; RadiusAttributes_FilterID := RadiusAttributes_FilterID a;
            RadiusAttributes_SessionTimeoutSeconds := Z.min (RadiusAttributes_SessionTimeoutSeconds a)
              (Z.quot (time_sub (Session_ExpiresAt (NASAdmissionSnapshot_Session snapshot)) now) second) |}).
Proof.
  cbv zeta. unfold reconcileNASAdmission. destruct (_ || _); [by left|].
  destruct (_ && negb (retryNASAdmissionCommand _ _ _)); [by left|]. destruct (_ && _); [by right; left|]. right; right.
  match goal with |- context [nasAdmissionCommand snapshot ?mu ?mc ?rt now] =>
    destruct (nasAdmissionCommand_spec snapshot mu mc rt now) as (m & c & Hm & Hp & Ht & Hcoa & _) end.
  { cbn [set_mutation NASAdmissionMutation_Profile NASAdmissionMutation_RadiusAttributes]. intros Hne.
    destruct (evaluateNASAdmission_spec snapshot now) as [[He _]|(_ & _ & b & _ & ->)]; [congruence|by eexists]. }
  { unfold retryNASAdmissionCommand. destruct (Session_LatestCommand _); [by eexists|done]. }
  exists m, c. rewrite Hm. split; [done|]. split; [|done]. rewrite Hp. destruct (nasAdmissionMappingChanged _ _ _ _); [by right|by left].
Qed.

End lemmas.

(** ** Properties *)

(** Profiles form a lattice in which [RestrictAccessProfile] is the meet:
    the result allows at most what the profile and the floor allow, and it is
    the largest such profile. *)
Theorem restrict_is_meet p f :
  f <> "" -> forall x, profile_le x (RestrictAccessProfile p f) <-> profile_le x p /\ profile_le x f.
Proof.
  intros Hf x. split; [|intros []; by apply restrict_greatest].
  intros Hx. destruct (restrict_lower p f Hf). split; by etransitivity.
Qed.

Lemma restrict_is_meet_witness : profile_le ProfileDeny (RestrictAccessProfile ProfileOnboarding ProfileQuarantine).
Proof.
  apply (restrict_is_meet ProfileOnboarding ProfileQuarantine); [discriminate|].
  split; right; left; reflexivity.
Defined.

(** Revalidating a session never fails on a nil pointer and never widens it:
    a new profile is below the session's profile and below its floor, and
    unless it is a denial it rests on a current admission, an active credential
    and binding, a second of remaining time and a mapped profile.  A command
    carries the new profile, and a change of authorization carries the
    attributes of its mapping with a timeout that ends within the session. *)
Theorem nas_revalidation_safe `{AdmissionDigest} snapshot now :
  let session := NASAdmissionSnapshot_Session snapshot in
  Session_AccessProfile session <> "" ->
  exists r, reconcileNASAdmission snapshot now = Some r /\
  forall m, r = Some m ->
    let profile := NASAdmissionMutation_Profile m in
    profile_le profile (Session_AccessProfile session) /\
    (NASAdmissionSnapshot_FloorProfile snapshot <> "" -> profile_le profile (NASAdmissionSnapshot_FloorProfile snapshot)) /\
    (profile <> ProfileDeny -> still_admitted snapshot now profile) /\
    forall c, NASAdmissionMutation_Command m = Some c ->
      SessionCommand_TargetAccessProfile c = profile /\
      (SessionCommand_Action c = SessionActionCoA -> profile <> ProfileDeny /\
         exists b a, NASAdmissionSnapshot_Profiles snapshot !! profile = Some b /\
           SessionCommand_RadiusAttributes c = Some a /\
           RadiusAttributes_VLANID a = SiteProfileBinding_VLANID b /\
           RadiusAttributes_FilterID a = SiteProfileBinding_FilterID b /\
           (now + RadiusAttributes_SessionTimeoutSeconds a * second <= Session_ExpiresAt session)%Z).
Proof.
  cbv zeta. intros Hsession. pose proof (decided_profile_safe snapshot now) as Hsafe.
  destruct (reconcile_cases snapshot now) as [->|[->|(m & c & -> & Hp & Ht & Hcoa)]].
  - by exists None.
  - eexists. split; [done|]. intros m [= <-]. rewrite evaluate_no_command.
    destruct (Hsafe _ Hsession ltac:(by left)) as (? & ? & ?). done.
  - eexists. split; [done|]. intros m' [= <-].
    cbn [set_mutation NASAdmissionMutation_Profile NASAdmissionMutation_Command].
    destruct (Hsafe _ Hsession Hp) as (? & ? & Hadm). split_and!; try done. intros c' [= <-]. split; [done|].
    intros (Hne & a & Ha & Hc)%Hcoa. split; [done|]. pose proof (admitted_time _ _ _ (Hadm Hne)) as Htime.
    destruct Hp as [->|]; [|done].
    destruct (evaluateNASAdmission_spec snapshot now) as [[_ Hnone]|(_ & _ & b & Hb & Hrad)]; [congruence|].
    rewrite Hrad in Ha. injection Ha as <-. exists b. eexists. split_and!; [done|exact Hc|done|done|].
    by apply timeout_within.
Qed.

(** Data for the examples: a wired session of the sample device. *)
Definition sample_binding : NASBinding :=
  {| NASBinding_ID := "nas-1"; NASBinding_NASID := "switch"; NASBinding_RuntimeID := "rt"; NASBinding_SiteID := "hq";
     NASBinding_Name := ""; NASBinding_AccessMedium := AccessMediumWired; NASBinding_DeviceType := ""; NASBinding_SSID := "";
     NASBinding_ManagementAddress := ""; NASBinding_Status := StatusActive; NASBinding_CoASupported := true;
     NASBinding_DisconnectSupported := true; NASBinding_CreatedAt := 0; NASBinding_UpdatedAt := 0 |}.

Definition sample_session : Session :=
  {| Session_AdmissionPolicyVersion := 1; Session_AdmissionAttributeVersion := ""; Session_RestrictionProfile := "";
     Session_RestrictionReason := ""; Session_LatestCommand := None; Session_ID := "s-1"; Session_RuntimeID := "rt";
     Session_SubjectID := "alice"; Session_DeviceID := "laptop"; Session_SiteID := "hq"; Session_GatewayID := "";
     Session_NASID := "switch"; Session_Mode := ModeInternalDirect; Session_Path := PathSiteDirect;
     Session_AccessProfile := ProfileFull; Session_Status := "active"; Session_PolicyVersion := 1;
     Session_NetworkLeaseIDs := []; Session_ResourceLeaseIDs := []; Session_ReasonCode := ""; Session_StartedAt := 0;
     Session_ExpiresAt := 100 * second; Session_UpdatedAt := 0 |}.

Definition sample_profile_binding : SiteProfileBinding :=
  {| SiteProfileBinding_ID := "b"; SiteProfileBinding_SiteID := "hq"; SiteProfileBinding_AccessProfile := ProfileRestricted;
     SiteProfileBinding_VLANID := 20; SiteProfileBinding_FilterID := ""; SiteProfileBinding_SessionTimeoutSeconds := 3600;
     SiteProfileBinding_CreatedAt := 0; SiteProfileBinding_UpdatedAt := 0 |}.

Definition sample_nas_snapshot (floor : string) : NASAdmissionSnapshot :=
  {| NASAdmissionSnapshot_Session := sample_session; NASAdmissionSnapshot_Subject := sample_subject;
     NASAdmissionSnapshot_Device := sample_device DeviceManagementManaged;
     NASAdmissionSnapshot_Site := sample_site DeviceGovernanceManaged; NASAdmissionSnapshot_Binding := sample_binding;
     NASAdmissionSnapshot_Policies := sample_snapshot [sample_policy "base" 10 [] [] [] ProfileRestricted];
     NASAdmissionSnapshot_Profiles := {[ ProfileRestricted := sample_profile_binding ]};
     NASAdmissionSnapshot_StrongBinding := true; NASAdmissionSnapshot_CredentialActive := true;
     NASAdmissionSnapshot_FloorProfile := floor; NASAdmissionSnapshot_InputsHash := "";
     NASAdmissionSnapshot_RadiusAttributes := None; NASAdmissionSnapshot_Revision := 0; NASAdmissionSnapshot_Attempts := 0 |}.

Definition sample_admission_digest : AdmissionDigest :=
  {| attributes_digest := fun _ => ""; text_digest := fun _ => ""; time_text := fun _ => ""; new_uuid := "" |}.

(** Full access is narrowed to the restricted profile by a change of
    authorization that times out with the session. *)
Lemma nas_revalidation_safe_witness :
  exists m, @reconcileNASAdmission sample_admission_digest (sample_nas_snapshot "") 0 = Some (Some m) /\
    NASAdmissionMutation_Profile m = ProfileRestricted /\
    profile_le (NASAdmissionMutation_Profile m) ProfileFull /\
    from_option (fun c => from_option RadiusAttributes_SessionTimeoutSeconds 0%Z (SessionCommand_RadiusAttributes c)) 0%Z
      (NASAdmissionMutation_Command m) = 100%Z.
Proof.
  destruct (@nas_revalidation_safe sample_admission_digest (sample_nas_snapshot "") 0) as (r & Hr & Hsafe).
  - discriminate.
  - destruct r as [m|]; [|vm_compute in Hr; discriminate]. exists m. split; [exact Hr|].
    destruct (Hsafe m eq_refl) as [Hle _]. clear Hsafe.
    split; [|split; [exact Hle|]]; vm_compute in Hr; injection Hr as <-; reflexivity.
Defined.

(** One revalidation that changes a session, seen from its stored floor; all
    else of the snapshot is as the store has it at that time. *)
Inductive nas_step `{AdmissionDigest} (floor : string) : string -> Prop :=
| nas_revalidated snapshot restriction now m :
    Session_AccessProfile (NASAdmissionSnapshot_Session snapshot) <> "" ->
    NASAdmissionSnapshot_Profiles snapshot !! "" = None ->
    NASAdmissionSnapshot_FloorProfile snapshot =
      loaded_floor (Session_AccessProfile (NASAdmissionSnapshot_Session snapshot)) floor restriction ->
    reconcileNASAdmission snapshot now = Some (Some m) ->
    nas_step floor (NASAdmissionMutation_Profile m).

Lemma loaded_floor_le session floor restriction :
  session <> "" -> floor <> "" ->
  loaded_floor session floor restriction <> "" /\ profile_le (loaded_floor session floor restriction) floor.
Proof.
  intros Hs Hf. unfold loaded_floor. destruct (str_empty restriction) eqn:He; [done|].
  split; [by apply restrict_nonempty, restrict_nonempty|].
  etransitivity; [apply restrict_le|]. by apply restrict_lower.
Qed.

Lemma reconcile_profile `{AdmissionDigest} snapshot now m :
  reconcileNASAdmission snapshot now = Some (Some m) ->
  NASAdmissionMutation_Profile m = NASAdmissionMutation_Profile (evaluateNASAdmission snapshot now) \/
  NASAdmissionMutation_Profile m = ProfileDeny.
Proof. destruct (reconcile_cases snapshot now) as [->|[->|(? & ? & -> & ? & _)]]; intros [= <-]; auto. Qed.

(** The floor stored for a session only descends: after any number of
    revalidations, with any policies, bindings and restrictions in between, it
    is below every earlier floor. *)
Theorem nas_floor_descends `{AdmissionDigest} floor floor' :
  floor <> "" -> rtc nas_step floor floor' -> floor' <> "" /\ profile_le floor' floor.
Proof.
  intros Hne Hr. induction Hr as [|f f1 f2 Hstep _ IH]; [done|].
  assert (f1 <> "" /\ profile_le f1 f) as [H1 Hle].
  { destruct Hstep as [snapshot restriction now m Hs Hmap Hload Hrec%reconcile_profile].
    destruct (loaded_floor_le _ _ restriction Hs Hne) as [Hn Hl]. rewrite <-Hload in Hn, Hl.
    destruct (decided_profile_safe snapshot now _ Hs Hrec) as (_ & Hf & Hadm). split.
    - intros He. destruct (admitted_mapped _ _ _ (Hadm ltac:(by rewrite He))) as [b Hb]. congruence.
    - etransitivity; [by apply Hf|done]. }
  destruct (IH H1). split; [done|]. by etransitivity.
Qed.

Lemma nas_floor_descends_witness : profile_le ProfileRestricted ProfileFull.
Proof.
  apply (@nas_floor_descends sample_admission_digest ProfileFull ProfileRestricted); [discriminate|].
  apply rtc_once.
  pose (m := match @reconcileNASAdmission sample_admission_digest (sample_nas_snapshot ProfileFull) 0 with
             | Some (Some m) => m
             | _ => @evaluateNASAdmission sample_admission_digest (sample_nas_snapshot ProfileFull) 0
             end).
  replace ProfileRestricted with (NASAdmissionMutation_Profile m) by (vm_compute; reflexivity).
  apply (@nas_revalidated sample_admission_digest ProfileFull (sample_nas_snapshot ProfileFull) "" 0 m);
    [discriminate|vm_compute; reflexivity|vm_compute; reflexivity|vm_compute; reflexivity].
Defined.
