(* ===== verification/NetworkAddress.v ===== *)
(** * Network access: addresses

    Where addresses decide: the targets a WireGuard path may reach
    (domain/networkaccess/resource.go), conflicts between address ranges
    (application/networkaccess/conflicts.go), the validation of spaces and
    resources (validation.go) and the outbound guard
    (platform/netguard/netguard.go), over the model of [net/netip]. *)

From Stdlib Require Import Ascii.
From stdpp Require Import pretty.
From S2P Require Import Prelude GoStrings GoLib NetIP NetworkModel NetworkPolicy.

(** ** Targets of resources *)

Definition validWireGuardProtocol (protocol : string) (ports : list Z) : bool :=
  if String.eqb protocol "any" then is_empty ports
  else if (negb (String.eqb protocol "tcp") && negb (String.eqb protocol "udp")) || is_empty ports then false
  else forallb (fun port => negb ((port <? 1) || (65535 <? port))%Z) ports.

Definition wireGuardTargetPrefix (resource : Resource) : option Prefix :=
  let kind := Resource_Kind resource in
  target ←
    (if String.eqb kind "ip" then
       (fun address => if Is4In6 address then zero_Prefix else PrefixFrom address (BitLen address))
         <$> ParseAddr (Resource_Target resource)
     else if String.eqb kind "cidr" then ParsePrefix (Resource_Target resource)
     else None);
  if negb (prefix_IsValid target) || Is4In6 (prefix_Addr target) || negb (bool_decide (target = Masked target)) ||
     (prefix_Bits target =? 0)%Z
  then None else Some target.

Definition prefixWithinSpace (target : Prefix) (cidrs : list string) : bool :=
  existsb (fun raw =>
    match ParsePrefix raw with
    | None => false
    | Some spacePrefix =>
        (BitLen (prefix_Addr spacePrefix) =? BitLen (prefix_Addr target))%Z &&
        bool_decide (spacePrefix = Masked spacePrefix) &&
        (prefix_Bits spacePrefix <=? prefix_Bits target)%Z &&
        prefix_Contains spacePrefix (prefix_Addr target)
    end) cidrs.

(** The loop over the resolved addresses of a host name. *)
Fixpoint resolved_targets (cidrs : list string) (addresses : list string) : option (list string) :=
  match addresses with
  | [] => Some []
  | raw :: addresses =>
      address ← ParseAddr raw;
      if negb (IsGlobalUnicast address) || Is4In6 address then None
      else
        let target := PrefixFrom address (BitLen address) in
        if negb (prefixWithinSpace target cidrs) then None
        else cons (prefix_String target) <$> resolved_targets cidrs addresses
  end.

Definition resolvedResourceTargets (now : Z) (resource : Resource) (space : Space) : option (list string) :=
  let addresses := Resource_TrustedAddresses resource in
  if negb (time_after (Resource_DNSExpiresAt resource) now) || is_empty addresses || (32 <? length addresses) then None
  else resolved_targets (Space_CIDRs space) addresses.

Definition WireGuardResourceTargets (now : Z) (resource : Resource) (space : Space) : option (list string) :=
  if negb (String.eqb (Resource_SpaceID resource) (Space_ID space)) ||
     negb (validWireGuardProtocol (Resource_Protocol resource) (Resource_Ports resource)) then None
  else if String.eqb (Resource_Kind resource) "fqdn" then resolvedResourceTargets now resource space
  else
    target ← wireGuardTargetPrefix resource;
    if negb (prefixWithinSpace target (Space_CIDRs space)) then None else Some [prefix_String target].

Definition WireGuardResourceTarget (now : Z) (resource : Resource) (space : Space) : option string :=
  targets ← WireGuardResourceTargets now resource space; head targets.

(** Pools of overlay addresses. *)
Definition ValidOverlayPrefix (prefix : Prefix) : bool :=
  if negb (prefix_IsValid prefix) || negb (bool_decide (prefix = Masked prefix)) ||
     negb (IsGlobalUnicast (prefix_Addr prefix)) || Is4In6 (prefix_Addr prefix) then false
  else if Is4 (prefix_Addr prefix) then (16 <=? prefix_Bits prefix)%Z && (prefix_Bits prefix <=? 30)%Z
  else (64 <=? prefix_Bits prefix)%Z && (prefix_Bits prefix <=? 126)%Z.

(** ** Conflicts between ranges *)

Definition ConflictDuplicate : string := "duplicate".
Definition ConflictOverlap : string := "overlap".

Record ConflictRange := {
  ConflictRange_SourceType : string;
  ConflictRange_SourceID : string;
  ConflictRange_Name : string;
  ConflictRange_CIDR : string
}.

Record Conflict := {
  Conflict_Left : ConflictRange;
  Conflict_Right : ConflictRange;
  Conflict_Reason : string
}.

Record ConflictAnalysis := {
  ConflictAnalysis_Valid : bool;
  ConflictAnalysis_RangesAnalyzed : Z;
  ConflictAnalysis_Conflicts : list Conflict;
  ConflictAnalysis_Warnings : list string
}.

(** A canonical prefix of one family. *)
Definition canonical_prefix (cidr : string) : option Prefix :=
  prefix ← ParsePrefix cidr;
  if Is4In6 (prefix_Addr prefix) || negb (bool_decide (prefix = Masked prefix)) then None else Some prefix.

Fixpoint range_prefixes (ranges : list ConflictRange) : result (list (ConflictRange * Prefix)) :=
  match ranges with
  | [] => Ok []
  | item :: ranges =>
      match canonical_prefix (ConflictRange_CIDR item) with
      | None => Err (errorf ErrInvalidArgument ("invalid canonical IP CIDR " +:+ quoted (ConflictRange_CIDR item)))
      | Some prefix => result_bind (range_prefixes ranges) (fun rest => Ok ((item, prefix) :: rest))
      end
  end.

(** The conflicts of one range with the ranges after it. *)
Definition conflicts_with (left : ConflictRange * Prefix) (rights : list (ConflictRange * Prefix)) : list Conflict :=
  (fun right => {| Conflict_Left := fst left; Conflict_Right := fst right;
                   Conflict_Reason := if bool_decide (snd left = snd right) then ConflictDuplicate else ConflictOverlap |})
  <$> List.filter (fun right => prefix_Overlaps (snd left) (snd right)) rights.

Fixpoint all_conflicts (ranges : list (ConflictRange * Prefix)) : list Conflict :=
  match ranges with
  | [] => []
  | item :: ranges => conflicts_with item ranges ++ all_conflicts ranges
  end.

Definition analyzeConflictRanges (ranges : list ConflictRange) : result ConflictAnalysis :=
  result_bind (range_prefixes ranges) (fun prefixed =>
    let conflicts := all_conflicts prefixed in
    Ok {| ConflictAnalysis_Valid := is_empty conflicts; ConflictAnalysis_RangesAnalyzed := Z.of_nat (length ranges);
          ConflictAnalysis_Conflicts := conflicts; ConflictAnalysis_Warnings := [] |}).

(** ** Validation of spaces and resources *)

Fixpoint cidr_prefixes (name : string) (seen : list string) (values : list string) : result (list Prefix) :=
  match values with
  | [] => Ok []
  | value :: values =>
      let value := TrimSpace value in
      match ParsePrefix value with
      | None => Err (invalid (name +:+ " must contain canonical non-default IPv4 or IPv6 prefixes"))
      | Some prefix =>
          if Is4In6 (prefix_Addr prefix) || negb (IsGlobalUnicast (prefix_Addr prefix)) ||
             negb (bool_decide (prefix = Masked prefix)) || (prefix_Bits prefix =? 0)%Z
          then Err (invalid (name +:+ " must contain canonical non-default IPv4 or IPv6 prefixes"))
          else if contains seen value then Err (invalid (name +:+ " must be unique"))
          else result_bind (cidr_prefixes name (value :: seen) values) (fun rest => Ok (prefix :: rest))
      end
  end.

Fixpoint overlapping (prefixes : list Prefix) : bool :=
  match prefixes with
  | [] => false
  | p :: prefixes => existsb (prefix_Overlaps p) prefixes || overlapping prefixes
  end.

Definition validateIPCIDRs (name : string) (values : list string) (allowEmpty : bool) : option error :=
  if (negb allowEmpty && is_empty values) || (64 <? length values)
  then Some (invalid "cidrs must contain between 1 and 64 entries")
  else match cidr_prefixes name [] values with
  | Err e => Some e
  | Ok prefixes => if overlapping prefixes then Some (invalid (name +:+ " must not overlap")) else None
  end.

Definition fqdn_char (c : ascii) : bool :=
  let n := ascii_code c in
  Ascii.eqb c "-" || ((48 <=? n)%Z && (n <=? 57)%Z) || ((65 <=? n)%Z && (n <=? 90)%Z) || ((97 <=? n)%Z && (n <=? 122)%Z).

Definition fqdn_label (label : string) : bool :=
  negb ((String.length label =? 0) || (63 <? String.length label) || HasPrefix label "-" || HasSuffix label "-") &&
  forallb fqdn_char (chars label).

Definition validFQDN (value : string) : bool :=
  if str_empty value || (253 <? String.length value) || HasSuffix value "." then false
  else forallb fqdn_label (split_byte "." value).

Definition validateResourceTarget (kind target : string) : option error :=
  if String.eqb kind "cidr" then
    match ParsePrefix target with
    | Some prefix =>
        if Is4In6 (prefix_Addr prefix) || negb (IsGlobalUnicast (prefix_Addr prefix)) ||
           negb (bool_decide (prefix = Masked prefix))
        then Some (invalid "CIDR target must be a canonical IPv4 or IPv6 prefix") else None
    | None => Some (invalid "CIDR target must be a canonical IPv4 or IPv6 prefix")
    end
  else if String.eqb kind "ip" then
    match ParseAddr target with
    | Some address =>
        if Is4In6 address || negb (IsGlobalUnicast address)
        then Some (invalid "IP target must be an IPv4 or IPv6 address") else None
    | None => Some (invalid "IP target must be an IPv4 or IPv6 address")
    end
  else if String.eqb kind "fqdn" then
    if validFQDN target then None else Some (invalid "FQDN target is invalid")
  else Some (invalid "kind is invalid").

Fixpoint check_ports (seen ports : list Z) : option error :=
  match ports with
  | [] => None
  | port :: ports =>
      if (port <? 1)%Z || (65535 <? port)%Z then Some (invalid "ports must be between 1 and 65535")
      else if contains seen port then Some (invalid "ports must be unique")
      else check_ports (port :: seen) ports
  end.

Definition validateResourcePorts (protocol : string) (ports : list Z) : option error :=
  if (64 <? length ports) then Some (invalid "ports cannot contain more than 64 entries")
  else match check_ports [] ports with
  | Some e => Some e
  | None =>
      if contains ["tcp"; "udp"] protocol then
        if is_empty ports then Some (invalid "tcp and udp resources require at least one port") else None
      else if contains ["any"; "icmp"] protocol then
        if negb (is_empty ports) then Some (invalid "any and icmp resources cannot declare ports") else None
      else Some (invalid "protocol is invalid")
  end.

Definition validateResourcePath (protected : bool) (pathMode : string) : option error :=
  if negb (contains [PathAutomatic; PathSiteDirect; PathAccessProxy; PathWireGuard; PathWireGuardZTNA] pathMode)
  then Some (invalid "pathMode is invalid")
  else if protected && (String.eqb pathMode PathSiteDirect || String.eqb pathMode PathWireGuard)
  then Some (invalid "protected resources cannot use a broad network path")
  else None.

Record ResourceInput := {
  ResourceInput_SpaceID : string;
  ResourceInput_Name : string;
  ResourceInput_Kind : string;
  ResourceInput_Target : string;
  ResourceInput_Protocol : string;
  ResourceInput_Ports : list Z;
  ResourceInput_Protected : bool;
  ResourceInput_PathMode : string
}.

Definition validateResourceInput (input : ResourceInput) : option error :=
  seq_err (requiredText "spaceId" (ResourceInput_SpaceID input) 128)
  (seq_err (requiredText "name" (ResourceInput_Name input) 200)
  (seq_err (requiredText "target" (ResourceInput_Target input) 512)
  (seq_err (validateResourceTarget (ResourceInput_Kind input) (TrimSpace (ResourceInput_Target input)))
  (seq_err (validateResourcePorts (ResourceInput_Protocol input) (ResourceInput_Ports input))
    (validateResourcePath (ResourceInput_Protected input) (ResourceInput_PathMode input)))))).

(** ** The outbound guard *)

(** [netip.AddrFromSlice]. *)
Definition AddrFromSlice (ip : list Z) : option Addr :=
  if (length ip =? 4) then Some (Addr4 (bytes_value ip))
  else if (length ip =? 16) then Some (Addr6 (bytes_value ip) "")
  else None.

(** [netip.MustParsePrefix] on constants. *)
Definition reservedPrefixes : list Prefix :=
  omap ParsePrefix
    ["100.64.0.0/10"; "192.0.0.0/24"; "192.0.2.0/24"; "198.18.0.0/15"; "198.51.100.0/24"; "203.0.113.0/24";
     "240.0.0.0/4"; "2001:db8::/32"].

Definition BlockedOutboundIP (ip : list Z) : bool :=
  match AddrFromSlice ip with
  | None => true
  | Some address =>
      let address := Unmap address in
      if IsLoopback address || IsPrivate address || IsLinkLocalUnicast address || IsUnspecified address ||
         IsMulticast address then true
      else existsb (fun prefix => prefix_Contains prefix address) reservedPrefixes
  end.

(** ** Lemmas *)

(** A target accepted for a space lies in one of its ranges. *)
Lemma prefixWithinSpace_sound target cidrs :
  prefix_ok target -> prefixWithinSpace target cidrs = true ->
  exists raw sp, raw ∈ cidrs /\ ParsePrefix raw = Some sp /\
    forall ip, addr_ok ip -> prefix_Contains target ip = true -> prefix_Contains sp ip = true.
Proof.
  intros Ht (raw & Hin & Hraw)%existsb_elem_of. destruct (ParsePrefix raw) as [sp|] eqn:Hsp; [|done].
  bool_prop. exists raw, sp. split_and!; [done..|]. intros ip Hip Hc.
  apply (contains_subprefix sp target ip); try done; [by eapply ParsePrefix_ok|by apply Z.leb_le].
Qed.

Lemma single_prefix_ok address :
  addr_ok address -> prefix_ok (PrefixFrom address (BitLen address)) /\
  prefix_Bits (PrefixFrom address (BitLen address)) = BitLen address.
Proof. intros Ha. apply PrefixFrom_ok; [done|]. pose proof (BitLen_pos _ Ha). lia. Qed.

Lemma wireGuardTargetPrefix_ok resource target :
  wireGuardTargetPrefix resource = Some target -> prefix_ok target /\ (0 < prefix_Bits target)%Z.
Proof.
  unfold wireGuardTargetPrefix. intros Ht. apply bind_Some in Ht as (t & Hparse & Ht).
  destruct (_ || _) eqn:Hg in Ht; [done|]. injection Ht as <-.
  apply orb_false_iff in Hg as [Hg Hz%Z.eqb_neq]. apply orb_false_iff in Hg as [Hg _].
  apply orb_false_iff in Hg as [Hv%negb_false_iff _]. apply Z.leb_le in Hv.
  assert (prefix_ok t) as Hok; [|split; [done|lia]].
  destruct (String.eqb _ "ip").
  - destruct (ParseAddr _) as [a|] eqn:Ha; [|done]. injection Hparse as <-. apply ParseAddr_ok in Ha.
    destruct (Is4In6 a); [done|]. by apply single_prefix_ok.
  - destruct (String.eqb _ "cidr"); [|done]. by eapply ParsePrefix_ok.
Qed.

Lemma resolved_targets_sound cidrs addresses targets :
  resolved_targets cidrs addresses = Some targets ->
  length targets = length addresses /\
  forall t, t ∈ targets -> exists p, t = prefix_String p /\ prefix_ok p /\ (0 < prefix_Bits p)%Z /\
    prefix_Bits p = BitLen (prefix_Addr p) /\ prefixWithinSpace p cidrs = true.
Proof.
  revert targets. induction addresses as [|raw addresses IH]; intros targets; cbn [resolved_targets].
  { intros [= <-]. split; [done|]. intros t Ht. by apply elem_of_nil in Ht. }
  destruct (ParseAddr raw) as [a|] eqn:Ha; [|done]. cbn [mbind option_bind]. apply ParseAddr_ok in Ha.
  destruct (_ || _); [done|]. destruct (prefixWithinSpace _ _) eqn:Hw; [|done]. cbn [negb].
  destruct (resolved_targets cidrs addresses) as [rest|]; [|done]. intros [= <-].
  destruct (IH rest eq_refl) as [Hlen Hall]. split; [cbn; by rewrite Hlen|].
  intros t [->|Ht]%elem_of_cons; [|by apply Hall]. destruct (single_prefix_ok a Ha) as [Hok Hbits].
  pose proof (BitLen_pos _ Ha). exists (PrefixFrom a (BitLen a)). split_and!; try done; [lia|].
  rewrite Hbits. by destruct a.
Qed.

(** *** Conflicts *)

Lemma range_prefixes_Ok ranges l :
  range_prefixes ranges = Ok l ->
  l.*1 = ranges /\ forall r p, (r, p) ∈ l -> canonical_prefix (ConflictRange_CIDR r) = Some p /\ prefix_ok p.
Proof.
  revert l. induction ranges as [|item ranges IH]; intros l; cbn [range_prefixes].
  { intros [= <-]. split; [done|]. intros r p Hr. by apply elem_of_nil in Hr. }
  destruct (canonical_prefix _) as [prefix|] eqn:Hc; [|done].
  destruct (range_prefixes ranges) as [rest|]; [|done]. cbn [result_bind]. intros [= <-].
  destruct (IH rest eq_refl) as [Hfst Hall]. split; [cbn; by rewrite Hfst|].
  intros r p [[= -> ->]|Hr]%elem_of_cons; [|by apply Hall]. split; [done|].
  unfold canonical_prefix in Hc. destruct (ParsePrefix _) as [q|] eqn:Hq; [|done]. cbn [mbind option_bind] in Hc.
  destruct (_ || _); [done|]. injection Hc as <-. by eapply ParsePrefix_ok.
Qed.

Lemma range_prefixes_Err ranges :
  (exists e, range_prefixes ranges = Err e) <->
  exists r, r ∈ ranges /\ canonical_prefix (ConflictRange_CIDR r) = None.
Proof.
  induction ranges as [|item ranges IH]; cbn [range_prefixes].
  { split; [intros [e He]; done|intros (r & Hr & _); by apply elem_of_nil in Hr]. }
  destruct (canonical_prefix (ConflictRange_CIDR item)) eqn:Hc.
  - destruct (range_prefixes ranges) as [l|e]; cbn [result_bind]; split.
    + intros [e He]; done.
    + intros (r & [->|Hr]%elem_of_cons & Hn); [congruence|]. destruct (proj2 IH) as [e He]; [eauto|done].
    + intros _. destruct (proj1 IH) as (r & Hr & Hn); [eauto|]. exists r. split; [by right|done].
    + eauto.
  - split; [intros _; exists item; split; [by left|done]|eauto].
Qed.

Definition conflict_of (left right : ConflictRange * Prefix) : Conflict :=
  {| Conflict_Left := fst left; Conflict_Right := fst right;
     Conflict_Reason := if bool_decide (snd left = snd right) then ConflictDuplicate else ConflictOverlap |}.

Lemma all_conflicts_spec ranges c :
  c ∈ all_conflicts ranges <->
  exists i j l r, i < j /\ ranges !! i = Some l /\ ranges !! j = Some r /\
    prefix_Overlaps (snd l) (snd r) = true /\ c = conflict_of l r.
Proof.
  induction ranges as [|item ranges IH]; cbn [all_conflicts].
  { split; [intros Hc; by apply elem_of_nil in Hc|]. by intros (i & j & l & r & _ & Hl & _). }
  rewrite elem_of_app, IH. unfold conflicts_with. rewrite list_elem_of_fmap. split.
  - intros [(r & -> & Hr%list_elem_of_In%List.filter_In)|(i & j & l & r & Hij & Hl & Hr & Ho & ->)].
    + destruct Hr as [[j Hj]%list_elem_of_In%list_elem_of_lookup Ho]. exists 0, (S j), item, r. by split_and!; [lia|..].
    + exists (S i), (S j), l, r. by split_and!; [lia|..].
  - intros ([|i] & [|j] & l & r & Hij & Hl & Hr & Ho & ->); try lia.
    + left. injection Hl as <-. exists r. split; [done|]. apply list_elem_of_In, List.filter_In. split; [|done].
      by eapply list_elem_of_In, list_elem_of_lookup_2.
    + right. exists i, j, l, r. by split_and!; [lia|..].
Qed.

(** *** The guard as one list of prefixes *)

(** What the guard blocks, family by family. *)
Definition blocked_v4 : list Prefix :=
  omap ParsePrefix
    ["127.0.0.0/8"; "10.0.0.0/8"; "172.16.0.0/12"; "192.168.0.0/16"; "169.254.0.0/16"; "0.0.0.0/32"; "224.0.0.0/4";
     "100.64.0.0/10"; "192.0.0.0/24"; "192.0.2.0/24"; "198.18.0.0/15"; "198.51.100.0/24"; "203.0.113.0/24"; "240.0.0.0/4"].

Definition blocked_v6 : list Prefix :=
  omap ParsePrefix ["::1/128"; "fc00::/7"; "fe80::/10"; "::/128"; "ff00::/8"; "2001:db8::/32"].

(** Bytes and 16-bit groups, checked value by value. *)
Lemma byte_check (f g : Z -> bool) n :
  forallb (fun x => Bool.eqb (f x) (g x)) (seqZ 0 n) = true -> forall x, (0 <= x < n)%Z -> f x = g x.
Proof.
  intros Hall x Hx. apply Bool.eqb_prop. apply (proj1 (forallb_elem_of _ _) Hall). apply elem_of_seqZ. lia.
Qed.

Lemma word_check (f g : Z -> bool) :
  forallb (fun hi => forallb (fun lo => Bool.eqb (f (hi * 256 + lo)%Z) (g (hi * 256 + lo)%Z)) (seqZ 0 256)) (seqZ 0 256)
    = true -> forall x, (0 <= x < 65536)%Z -> f x = g x.
Proof.
  intros Hall x Hx. pose proof (Z.div_mod x 256 ltac:(lia)) as Hd. pose proof (Z.mod_pos_bound x 256 ltac:(lia)).
  rewrite Hd, (Z.mul_comm 256). apply Bool.eqb_prop.
  pose proof (proj1 (forallb_elem_of _ _) Hall (x / 256)%Z) as Hhi.
  apply (proj1 (forallb_elem_of _ _) (Hhi ltac:(apply elem_of_seqZ; lia))). apply elem_of_seqZ. lia.
Qed.

Lemma shiftr_range v w k : (0 <= k <= w)%Z -> (0 <= v < 2 ^ w)%Z -> (0 <= Z.shiftr v k < 2 ^ (w - k))%Z.
Proof. intros Hk Hv. pose proof (block_range w (w - k) v ltac:(lia) Hv) as Hb. unfold block in Hb. by replace (w - (w - k))%Z with k in Hb by lia. Qed.

Lemma v4_byte0 v : (0 <= v < 2 ^ 32)%Z -> v4_byte v 0 = Z.shiftr v 24.
Proof.
  intros Hv. unfold v4_byte. change 255%Z with (Z.ones 8). rewrite Z.land_ones by lia. apply Z.mod_small.
  by apply (shiftr_range v 32 24).
Qed.

Lemma v6_group0 v : (0 <= v < 2 ^ 128)%Z -> v6_group v 0 = Z.shiftr v 112.
Proof.
  intros Hv. unfold v6_group. change 65535%Z with (Z.ones 16). rewrite Z.land_ones by lia. apply Z.mod_small.
  by apply (shiftr_range v 128 112).
Qed.

Lemma contains_v4 v b w : (0 <= b <= 32)%Z -> (0 <= v < 2 ^ 32)%Z -> (0 <= w < 2 ^ 32)%Z ->
  prefix_Contains (mk_prefix (Addr4 w) b) (Addr4 v) = (Z.shiftr v (32 - b) =? Z.shiftr w (32 - b))%Z.
Proof.
  intros Hb Hv Hw. apply Bool.eq_iff_eq_true. rewrite Z.eqb_eq, contains_iff by (done || by split).
  unfold same_block, block. cbn. naive_solver.
Qed.

Lemma contains_v6 v b w : (0 <= b <= 128)%Z -> (0 <= v < 2 ^ 128)%Z -> (0 <= w < 2 ^ 128)%Z ->
  prefix_Contains (mk_prefix (Addr6 w "") b) (Addr6 v "") = (Z.shiftr v (128 - b) =? Z.shiftr w (128 - b))%Z.
Proof.
  intros Hb Hv Hw. apply Bool.eq_iff_eq_true. rewrite Z.eqb_eq, contains_iff by (done || by split).
  unfold same_block, block. cbn. naive_solver.
Qed.

(** The two leading bytes of an IPv4 address. *)
Lemma v4_halves v : (0 <= v < 2 ^ 32)%Z ->
  let x := Z.shiftr v 16 in
  (0 <= x < 65536)%Z /\ Z.shiftr v 24 = Z.shiftr x 8 /\ v4_byte v 1 = Z.land x 255 /\ Z.shiftr v 20 = Z.shiftr x 4.
Proof.
  intros Hv. cbv zeta. split_and!; [by apply (shiftr_range v 32 16)..|by rewrite Z.shiftr_shiftr|done|by rewrite Z.shiftr_shiftr].
Qed.

Definition in4 (w b v : Z) : bool := prefix_Contains (mk_prefix (Addr4 w) b) (Addr4 v).
Definition in6 (w b v : Z) : bool := prefix_Contains (mk_prefix (Addr6 w "") b) (Addr6 v "").

Section v4.
Context (v : Z) (Hv : (0 <= v < 2 ^ 32)%Z).

Lemma loopback_v4 : IsLoopback (Addr4 v) = in4 2130706432 8 v.
Proof. unfold in4. rewrite contains_v4 by done. cbn. by rewrite v4_byte0. Qed.

Lemma private_v4 : IsPrivate (Addr4 v) = in4 167772160 8 v || in4 2886729728 12 v || in4 3232235520 16 v.
Proof.
  unfold in4. rewrite !contains_v4 by done. cbn -[Z.shiftr v4_byte Z.land]. rewrite !v4_byte0 by done.
  destruct (v4_halves v Hv) as (Hx & -> & -> & Hs). change (32 - 12)%Z with 20%Z. rewrite Hs.
  change (32 - 8)%Z with 24%Z. change (32 - 16)%Z with 16%Z. destruct (v4_halves v Hv) as (_ & -> & _).
  revert Hx. generalize (Z.shiftr v 16). apply word_check. vm_compute. reflexivity.
Qed.

Lemma link_local_v4 : IsLinkLocalUnicast (Addr4 v) = in4 2851995648 16 v.
Proof.
  unfold in4. rewrite !contains_v4 by done. cbn -[Z.shiftr v4_byte Z.land]. rewrite !v4_byte0 by done.
  destruct (v4_halves v Hv) as (Hx & -> & -> & _). change (32 - 16)%Z with 16%Z.
  revert Hx. generalize (Z.shiftr v 16). apply word_check. vm_compute. reflexivity.
Qed.

Lemma unspecified_v4 : IsUnspecified (Addr4 v) = in4 0 32 v.
Proof.
  unfold in4. rewrite contains_v4 by done. unfold IsUnspecified. rewrite (bool_decide_false (Addr4 v = Addr6 0 "")) by done.
  rewrite orb_false_r. change (32 - 32)%Z with 0%Z. rewrite !Z.shiftr_0_r.
  apply Bool.eq_iff_eq_true. rewrite bool_decide_eq_true, Z.eqb_eq. naive_solver.
Qed.

Lemma multicast_v4 : IsMulticast (Addr4 v) = in4 3758096384 4 v.
Proof.
  unfold in4. rewrite contains_v4 by done. cbn -[Z.shiftr v4_byte Z.land]. rewrite v4_byte0 by done.
  change (32 - 4)%Z with (24 + 4)%Z. rewrite <-Z.shiftr_shiftr by lia. pose proof (shiftr_range v 32 24 ltac:(lia) Hv) as Hx.
  revert Hx. generalize (Z.shiftr v 24). apply byte_check. vm_compute. reflexivity.
Qed.

End v4.

Section v6.
Context (v : Z) (Hv : (0 <= v < 2 ^ 128)%Z) (H46 : Is4In6 (Addr6 v "") = false).

Lemma Unmap_v6 : Unmap (Addr6 v "") = Addr6 v "".
Proof. unfold Unmap. by rewrite H46. Qed.

Lemma exact_v6 w : (0 <= w < 2 ^ 128)%Z -> in6 w 128 v = (v =? w)%Z.
Proof. intros Hw. unfold in6. rewrite contains_v6 by done. by rewrite Z.sub_diag, !Z.shiftr_0_r. Qed.

Lemma loopback_v6 : IsLoopback (Addr6 v "") = in6 1 128 v.
Proof. unfold IsLoopback. by rewrite Unmap_v6, exact_v6. Qed.

Lemma unspecified_v6 : IsUnspecified (Addr6 v "") = in6 0 128 v.
Proof.
  rewrite exact_v6 by done. unfold IsUnspecified. rewrite (bool_decide_false (Addr6 v "" = Addr4 0)) by done.
  apply Bool.eq_iff_eq_true. rewrite orb_true_iff, bool_decide_eq_true, Z.eqb_eq.
  split; [intros [[=]|[= He]]; exact He|intros He; rewrite He; by right].
Qed.

Ltac group_check k :=
  rewrite Unmap_v6, v6_group0 by done; unfold in6; rewrite contains_v6 by done;
  replace (128 - _)%Z with (112 + k)%Z by reflexivity; rewrite <-(Z.shiftr_shiftr v) by lia;
  generalize (shiftr_range v 128 112 ltac:(lia) Hv); generalize (Z.shiftr v 112);
  apply word_check; vm_compute; reflexivity.

Lemma private_v6 : IsPrivate (Addr6 v "") = in6 (126 * 2 ^ 121) 7 v.
Proof. unfold IsPrivate. group_check 9%Z. Qed.

Lemma link_local_v6 : IsLinkLocalUnicast (Addr6 v "") = in6 (1018 * 2 ^ 118) 10 v.
Proof. unfold IsLinkLocalUnicast. group_check 6%Z. Qed.

Lemma multicast_v6 : IsMulticast (Addr6 v "") = in6 (255 * 2 ^ 120) 8 v.
Proof. unfold IsMulticast. group_check 8%Z. Qed.

End v6.

Lemma reservedPrefixes_eq : reservedPrefixes =
  [mk_prefix (Addr4 1681915904) 10; mk_prefix (Addr4 3221225472) 24; mk_prefix (Addr4 3221225984) 24;
   mk_prefix (Addr4 3323068416) 15; mk_prefix (Addr4 3325256704) 24; mk_prefix (Addr4 3405803776) 24;
   mk_prefix (Addr4 4026531840) 4; mk_prefix (Addr6 42540766411282592856903984951653826560 "") 32].
Proof. vm_compute. reflexivity. Qed.

Lemma blocked_v4_eq : blocked_v4 =
  [mk_prefix (Addr4 2130706432) 8; mk_prefix (Addr4 167772160) 8; mk_prefix (Addr4 2886729728) 12;
   mk_prefix (Addr4 3232235520) 16; mk_prefix (Addr4 2851995648) 16; mk_prefix (Addr4 0) 32; mk_prefix (Addr4 3758096384) 4] ++
  take 7 reservedPrefixes.
Proof. vm_compute. reflexivity. Qed.

Lemma blocked_v6_eq : blocked_v6 =
  [mk_prefix (Addr6 1 "") 128; mk_prefix (Addr6 (126 * 2 ^ 121) "") 7; mk_prefix (Addr6 (1018 * 2 ^ 118) "") 10;
   mk_prefix (Addr6 0 "") 128; mk_prefix (Addr6 (255 * 2 ^ 120) "") 8] ++ drop 7 reservedPrefixes.
Proof. vm_compute. reflexivity. Qed.

Lemma guard_v4 v : (0 <= v < 2 ^ 32)%Z ->
  (IsLoopback (Addr4 v) || IsPrivate (Addr4 v) || IsLinkLocalUnicast (Addr4 v) || IsUnspecified (Addr4 v) ||
   IsMulticast (Addr4 v)) || existsb (fun prefix => prefix_Contains prefix (Addr4 v)) reservedPrefixes =
  existsb (fun prefix => prefix_Contains prefix (Addr4 v)) blocked_v4.
Proof.
  intros Hv. rewrite loopback_v4, private_v4, link_local_v4, unspecified_v4, multicast_v4 by done.
  rewrite blocked_v4_eq, existsb_app. rewrite <-(take_drop 7 reservedPrefixes) at 1. rewrite existsb_app, (orb_assoc _ (existsb _ _)).
  replace (existsb _ (drop 7 reservedPrefixes)) with false.
  - rewrite orb_false_r. cbn [existsb]. unfold in4. by rewrite !orb_assoc, orb_false_r.
  - rewrite reservedPrefixes_eq. reflexivity.
Qed.

Lemma guard_v6 v : (0 <= v < 2 ^ 128)%Z -> Is4In6 (Addr6 v "") = false ->
  (IsLoopback (Addr6 v "") || IsPrivate (Addr6 v "") || IsLinkLocalUnicast (Addr6 v "") || IsUnspecified (Addr6 v "") ||
   IsMulticast (Addr6 v "")) || existsb (fun prefix => prefix_Contains prefix (Addr6 v "")) reservedPrefixes =
  existsb (fun prefix => prefix_Contains prefix (Addr6 v "")) blocked_v6.
Proof.
  intros Hv H46. rewrite loopback_v6, private_v6, link_local_v6, unspecified_v6, multicast_v6 by done.
  rewrite blocked_v6_eq, existsb_app. rewrite <-(take_drop 7 reservedPrefixes) at 1. rewrite existsb_app.
  replace (existsb _ (take 7 reservedPrefixes)) with false.
  - cbn [orb existsb]. unfold in6. by rewrite !orb_assoc, orb_false_r.
  - rewrite reservedPrefixes_eq. reflexivity.
Qed.

Lemma bytes_value_app l l' : bytes_value (l ++ l') = (bytes_value l * 256 ^ Z.of_nat (length l') + bytes_value l')%Z.
Proof.
  unfold bytes_value. rewrite fold_left_app. generalize (fold_left (fun acc b => acc * 256 + b)%Z l 0%Z). intros x.
  induction l' as [|b l' IH] using rev_ind; [cbn; lia|]. rewrite !fold_left_app, IH, length_app. cbn [fold_left length].
  replace (Z.of_nat (length l' + 1)) with (Z.succ (Z.of_nat (length l'))) by lia. rewrite Z.pow_succ_r by lia. lia.
Qed.

(** ** Properties *)

(** C39. The outbound guard blocks exactly the byte slices that are no address and
    the addresses of a fixed list of prefixes, IPv4 addresses written as IPv6
    included, and a blocked or permitted IPv4 address stays so when it is
    written in its IPv4-mapped form. *)
Theorem outbound_guard_exact ip :
  bytes_ok ip ->
  BlockedOutboundIP ip =
    match Unmap <$> AddrFromSlice ip with
    | None => true
    | Some (Addr4 v) => existsb (fun prefix => prefix_Contains prefix (Addr4 v)) blocked_v4
    | Some address => existsb (fun prefix => prefix_Contains prefix address) blocked_v6
    end /\
  (length ip = 4 -> BlockedOutboundIP (replicate 10 0%Z ++ [255; 255]%Z ++ ip) = BlockedOutboundIP ip).
Proof.
  intros Hip. pose proof (bytes_value_range ip Hip) as Hr. split.
  - unfold BlockedOutboundIP, AddrFromSlice. destruct (length ip =? 4) eqn:H4; [|destruct (length ip =? 16) eqn:H16; [|done]].
    + apply Nat.eqb_eq in H4. rewrite H4 in Hr. change (256 ^ Z.of_nat 4)%Z with (2 ^ 32)%Z in Hr.
      cbn [fmap option_fmap option_map]. change (Unmap (Addr4 (bytes_value ip))) with (Addr4 (bytes_value ip)).
      cbv beta iota zeta. rewrite <-guard_v4 by done. by destruct (_ || _).
    + apply Nat.eqb_eq in H16. rewrite H16 in Hr. change (256 ^ Z.of_nat 16)%Z with (2 ^ 128)%Z in Hr.
      cbn [fmap option_fmap option_map]. destruct (Is4In6 (Addr6 (bytes_value ip) "")) eqn:H46; unfold Unmap; rewrite H46;
        cbv beta iota zeta.
      * cbn [addr_value]. rewrite <-guard_v4; [by destruct (_ || _)|].
        rewrite Z.land_ones by lia. by apply Z.mod_pos_bound.
      * rewrite <-guard_v6 by done. by destruct (_ || _).
  - intros H4. unfold BlockedOutboundIP, AddrFromSlice. rewrite !length_app, H4. cbn [length Nat.eqb Nat.add replicate].
    rewrite H4 in Hr. rewrite app_assoc, bytes_value_app, H4. 
    match goal with |- context [bytes_value (?l ++ _)] => change (bytes_value (l ++ [255; 255]%Z)) with 65535%Z end.
    change (256 ^ Z.of_nat 4)%Z with (2 ^ 32)%Z in *. set (v := bytes_value ip) in *. clearbody v.
    replace (Unmap (Addr6 (65535 * 2 ^ 32 + v) "")) with (Addr4 v); [reflexivity|]. unfold Unmap, Is4In6.
    rewrite Z.shiftr_div_pow2, Z.div_add_l, Z.div_small, Z.eqb_refl by lia. cbn [addr_value].
    rewrite Z.land_ones, Z.add_comm, Z.mod_add, Z.mod_small by lia. done.
Qed.

Lemma outbound_guard_exact_witness :
  BlockedOutboundIP (replicate 10 0%Z ++ [255; 255]%Z ++ [169; 254; 169; 254]%Z) = BlockedOutboundIP [169; 254; 169; 254]%Z.
Proof.
  apply (outbound_guard_exact [169; 254; 169; 254]%Z); [|reflexivity].
  repeat (apply Forall_cons; split; [lia|]). apply Forall_nil. exact I.
Defined.

(** The targets of a resource belong to its space: every target is the text
    of a prefix that is not a default route, all addresses of which lie in one
    range of the space; a host name yields single addresses only. *)
Theorem wireguard_targets_confined now resource space targets :
  WireGuardResourceTargets now resource space = Some targets ->
  Resource_SpaceID resource = Space_ID space /\ targets <> [] /\
  forall t, t ∈ targets -> exists p raw sp,
    t = prefix_String p /\ prefix_ok p /\ (0 < prefix_Bits p)%Z /\
    (Resource_Kind resource = "fqdn" -> prefix_Bits p = BitLen (prefix_Addr p)) /\
    raw ∈ Space_CIDRs space /\ ParsePrefix raw = Some sp /\
    forall ip, addr_ok ip -> prefix_Contains p ip = true -> prefix_Contains sp ip = true.
Proof.
  unfold WireGuardResourceTargets. destruct (_ || _) eqn:Hg; [done|].
  apply orb_false_iff in Hg as [Hid%negb_eqb_false _]. split; [done|].
  destruct (String.eqb (Resource_Kind resource) "fqdn") eqn:Hk.
  - unfold resolvedResourceTargets in *. destruct (_ || _) eqn:Hg in H; [done|].
    apply orb_false_iff in Hg as [Hg _]. apply orb_false_iff in Hg as [_ Hne%is_empty_false].
    apply resolved_targets_sound in H as [Hlen Hall]. split; [intros ->; by destruct (Resource_TrustedAddresses resource)|].
    intros t (p & -> & Hp & H0 & Hb & Hw)%Hall. destruct (prefixWithinSpace_sound _ _ Hp Hw) as (raw & sp & ? & ? & ?).
    exists p, raw, sp. by split_and!.
  - apply String.eqb_neq in Hk. destruct (wireGuardTargetPrefix resource) as [p|] eqn:Hp; [|done].
    cbn [mbind option_bind] in H. destruct (prefixWithinSpace _ _) eqn:Hw in H; [|done]. injection H as <-.
    apply wireGuardTargetPrefix_ok in Hp as [Hp H0].
    split; [done|]. intros t [->|Ht%elem_of_nil]%elem_of_cons; [|done].
    destruct (prefixWithinSpace_sound _ _ Hp Hw) as (raw & sp & ? & ? & ?). exists p, raw, sp. by split_and!.
Qed.

Lemma wireguard_targets_confined_witness :
  exists p raw sp, "10.1.2.0/24" = prefix_String p /\ raw ∈ ["10.1.0.0/16"; "fd00::/8"] /\ ParsePrefix raw = Some sp /\ (0 < prefix_Bits p)%Z.
Proof.
  destruct (wireguard_targets_confined 0
    {| Resource_TrustedAddresses := []; Resource_DNSExpiresAt := 0; Resource_ID := "db"; Resource_SpaceID := "lan";
       Resource_Name := ""; Resource_Kind := "cidr"; Resource_Target := "10.1.2.0/24"; Resource_Protocol := "tcp";
       Resource_Ports := [5432]%Z; Resource_Protected := false; Resource_PathMode := ""; Resource_CreatedAt := 0;
       Resource_UpdatedAt := 0 |}
    {| Space_ID := "lan"; Space_SiteID := "hq"; Space_Name := ""; Space_CIDRs := ["10.1.0.0/16"; "fd00::/8"];
       Space_Status := StatusActive; Space_CreatedAt := 0; Space_UpdatedAt := 0 |} ["10.1.2.0/24"]) as (_ & _ & Hall).
  - vm_compute. reflexivity.
  - destruct (Hall _ (list_elem_of_here _ _)) as (p & raw & sp & ? & ? & ? & ? & ? & ? & ?). exists p, raw, sp. repeat split; assumption.
Defined.

(** Two of the ranges, in this order, are prefixes with a common address. *)
Definition share_address (ranges : list ConflictRange) (i j : nat) (p q : Prefix) : Prop :=
  i < j /\
  (canonical_prefix ∘ ConflictRange_CIDR <$> ranges !! i) = Some (Some p) /\
  (canonical_prefix ∘ ConflictRange_CIDR <$> ranges !! j) = Some (Some q) /\
  exists ip, addr_ok ip /\ prefix_Contains p ip = true /\ prefix_Contains q ip = true.

Lemma share_address_overlaps l i j p q :
  (forall r p, (r, p) ∈ l -> canonical_prefix (ConflictRange_CIDR r) = Some p /\ prefix_ok p) ->
  share_address l.*1 i j p q <->
  i < j /\ exists r s, l !! i = Some (r, p) /\ l !! j = Some (s, q) /\ prefix_Overlaps p q = true.
Proof.
  intros Hok. assert (forall i r p, l !! i = Some (r, p) -> canonical_prefix (ConflictRange_CIDR r) = Some p /\ prefix_ok p) as Hok'.
  { intros k r p' Hk. eapply Hok, list_elem_of_lookup_2, Hk. }
  unfold share_address. rewrite !list_lookup_fmap. split.
  - intros (Hij & Hi & Hj & Hip). split; [done|].
    destruct (l !! i) as [[r p']|] eqn:Hli; [|done]. destruct (l !! j) as [[s q']|] eqn:Hlj; [|done].
    destruct (Hok' _ _ _ Hli) as [Hcp Hpok], (Hok' _ _ _ Hlj) as [Hcq Hqok]. cbn in Hi, Hj.
    assert (p' = p) as -> by congruence. assert (q' = q) as -> by congruence.
    exists r, s. split_and!; [done..|]. by apply overlaps_iff.
  - intros (Hij & r & s & Hi & Hj & Ho). rewrite Hi, Hj. cbn.
    destruct (Hok' _ _ _ Hi) as [Hcp Hpok], (Hok' _ _ _ Hj) as [Hcq Hqok].
    split_and!; [done|by rewrite Hcp|by rewrite Hcq|]. by apply overlaps_iff.
Qed.

(** The analysis of address ranges fails exactly when some range is not a
    canonical prefix; otherwise it reports exactly the pairs of ranges, in
    their order, that have an address in common, as a duplicate when they are
    the same prefix, and is valid exactly when no two ranges share an address. *)
Theorem conflicts_exact ranges :
  ((exists e, analyzeConflictRanges ranges = Err e) <->
     exists r, r ∈ ranges /\ canonical_prefix (ConflictRange_CIDR r) = None) /\
  forall analysis, analyzeConflictRanges ranges = Ok analysis ->
    (forall c, c ∈ ConflictAnalysis_Conflicts analysis <->
       exists i j p q, share_address ranges i j p q /\
         ranges !! i = Some (Conflict_Left c) /\ ranges !! j = Some (Conflict_Right c) /\
         Conflict_Reason c = (if bool_decide (p = q) then ConflictDuplicate else ConflictOverlap)) /\
    (ConflictAnalysis_Valid analysis = true <-> ~ exists i j p q, share_address ranges i j p q).
Proof.
  unfold analyzeConflictRanges. split.
  { rewrite <-range_prefixes_Err. destruct (range_prefixes ranges); cbn [result_bind]; naive_solver. }
  intros analysis Ha. destruct (range_prefixes ranges) as [l|] eqn:Hl; [|done]. cbn [result_bind] in Ha. injection Ha as <-.
  apply range_prefixes_Ok in Hl as [<- Hok]. cbn [ConflictAnalysis_Conflicts ConflictAnalysis_Valid]. split.
  - intros c. rewrite all_conflicts_spec. split.
    + intros (i & j & [r p] & [s q] & Hij & Hi & Hj & Ho & ->). exists i, j, p, q. rewrite !list_lookup_fmap, Hi, Hj.
      split_and!; try done. apply share_address_overlaps; [done|]. split; [done|]. by exists r, s.
    + intros (i & j & p & q & Hs & Hi & Hj & Hr). apply share_address_overlaps in Hs as (Hij & r & s & Hli & Hlj & Ho); [|done].
      exists i, j, (r, p), (s, q). split_and!; [done..|]. rewrite list_lookup_fmap, Hli in Hi. rewrite list_lookup_fmap, Hlj in Hj.
      cbn in Hi, Hj. destruct c. cbn in *. unfold conflict_of. cbn. congruence.
  - rewrite is_empty_true. split.
    + intros Hn (i & j & p & q & Hs). apply share_address_overlaps in Hs as (Hij & r & s & Hli & Hlj & Ho); [|done].
      apply (elem_of_nil (conflict_of (r, p) (s, q))). rewrite <-Hn. apply all_conflicts_spec.
      exists i, j, (r, p), (s, q). by split_and!.
    + intros Hn. destruct (all_conflicts l) as [|c cs] eqn:Hc; [done|]. destruct Hn.
      assert (c ∈ all_conflicts l) as Hin by (rewrite Hc; by left).
      apply all_conflicts_spec in Hin as (i & j & [r p] & [s q] & Hij & Hi & Hj & Ho & _). exists i, j, p, q.
      apply share_address_overlaps; [done|]. split; [done|]. by exists r, s.
Qed.
