(* ===== verification/AccessGrant.v ===== *)
(** * Network access: grants

    [AccessGrantService] of application/networkaccess/access_grant.go: a user
    asks for short-lived access to resources.  The service composes the
    permission resolver, the step-up check, the policy decision for every
    resource and the targets of the WireGuard path.  The stores, the step-up
    verifier, random tokens and SHA-256 are interfaces; audit records are left
    out, their errors are discarded by the code.  The clock is read once. *)

From stdpp Require Import pretty.
From S2P Require Import Prelude GoStrings GoLib AccessModel PermissionTables PermissionResolver.
From S2P Require Import NetIP NetworkModel NetworkPolicy NasAdmission NetworkAddress.

Definition defaultAccessGrantTTL : Z := 5 * minute.

Definition AccessGrantIssued : string := "issued".
Definition AccessGrantConsumed : string := "consumed".
Definition AccessGrantRevoked : string := "revoked".
Definition AccessGrantExpired : string := "expired".

Record AccessGrant := {
  AccessGrant_ID : string;
  AccessGrant_SubjectID : string;
  AccessGrant_AuthSessionID : string;
  AccessGrant_DeviceID : string;
  AccessGrant_SiteID : string;
  AccessGrant_NetworkSpaceID : string;
  AccessGrant_Mode : string;
  AccessGrant_ResourceIDs : list string;
  AccessGrant_PolicyVersion : Z;
  AccessGrant_Status : string;
  AccessGrant_TokenHash : string;
  AccessGrant_SessionID : string;
  AccessGrant_ResourceLeaseIDs : list string;
  AccessGrant_ReasonCode : string;
  AccessGrant_ExpiresAt : Z;
  AccessGrant_ConsumedAt : option Z;
  AccessGrant_RevokedAt : option Z;
  AccessGrant_CreatedBy : string;
  AccessGrant_CreatedAt : Z;
  AccessGrant_UpdatedAt : Z
}.

Record AccessGrantFilter := {
  AccessGrantFilter_SubjectID : string;
  AccessGrantFilter_DeviceID : string;
  AccessGrantFilter_Status : string;
  AccessGrantFilter_Limit : Z
}.

Record AccessGrantSecret := {
  AccessGrantSecret_Grant : AccessGrant;
  AccessGrantSecret_Token : string
}.

Record AccessGrantInput := {
  AccessGrantInput_DeviceID : string;
  AccessGrantInput_SiteID : string;
  AccessGrantInput_NetworkSpaceID : string;
  AccessGrantInput_Mode : string;
  AccessGrantInput_ResourceIDs : list string;
  AccessGrantInput_TTL : Z
}.

(** ** Interfaces *)

Class AccessGrantStore (store : Type) := {
  CreateAccessGrant : AccessGrant -> store -> option error * store;
  GetAccessGrant : string -> Z -> store -> result AccessGrant;
  ListAccessGrants : AccessGrantFilter -> Z -> store -> result (list AccessGrant);
  RevokeAccessGrant : string -> Z -> store -> option error * store
}.

Class AccessGrantPolicyStore := {
  GetSubject : string -> result Subject;
  GetDevice : string -> result Device;
  GetSite : string -> result Site;
  GetSpace : string -> result Space;
  GetResource : string -> result Resource;
  GetPolicySnapshot : result PolicySnapshot
}.

(** The step-up verifier, 32 random bytes in base64 without padding, SHA-256 in
    hexadecimal, and a new identifier. *)
Class GrantSecrets := {
  RequireRecentStepUp : string -> string -> option error;
  random_token : result string;
  token_digest : string -> string;
  grant_uuid : string
}.

(** ** Operations *)

Definition networkUserSubject (id : string) : option error :=
  if HasPrefix (TrimSpace id) "service_account:"
  then Some (NewBusiness ErrAccessDenied "network_user_subject_required"
    "This network path requires a user-owned device; service accounts require a separate workload identity.")
  else None.

Definition normalizeAccessGrantInput (input : AccessGrantInput) : AccessGrantInput :=
  {| AccessGrantInput_DeviceID := TrimSpace (AccessGrantInput_DeviceID input);
     AccessGrantInput_SiteID := TrimSpace (AccessGrantInput_SiteID input);
     AccessGrantInput_NetworkSpaceID := TrimSpace (AccessGrantInput_NetworkSpaceID input);
     AccessGrantInput_Mode := TrimSpace (AccessGrantInput_Mode input);
     AccessGrantInput_ResourceIDs := sort_strings (TrimSpace <$> AccessGrantInput_ResourceIDs input);
     AccessGrantInput_TTL := AccessGrantInput_TTL input |}.

Definition default_ttl (input : AccessGrantInput) : AccessGrantInput :=
  {| AccessGrantInput_DeviceID := AccessGrantInput_DeviceID input;
     AccessGrantInput_SiteID := AccessGrantInput_SiteID input;
     AccessGrantInput_NetworkSpaceID := AccessGrantInput_NetworkSpaceID input;
     AccessGrantInput_Mode := AccessGrantInput_Mode input;
     AccessGrantInput_ResourceIDs := AccessGrantInput_ResourceIDs input;
     AccessGrantInput_TTL := if (AccessGrantInput_TTL input =? 0)%Z then defaultAccessGrantTTL
                             else AccessGrantInput_TTL input |}.

Definition grant_identifiers (authSessionID : string) (input : AccessGrantInput) : gmap string string :=
  {[ "sessionId" := authSessionID; "deviceId" := AccessGrantInput_DeviceID input;
     "siteId" := AccessGrantInput_SiteID input; "networkSpaceId" := AccessGrantInput_NetworkSpaceID input ]}.

Definition validateAccessGrantInput `{MapRange} (authSessionID : string) (input : AccessGrantInput) : option error :=
  let identifiers := grant_identifiers authSessionID input in
  seq_err (first_err (fun name => requiredText name (lookup_default "" identifiers name) 128)
             (range_keys (dom identifiers)))
  (if negb (oneOf (AccessGrantInput_Mode input) [ModeInternalZTNA; ModeExternalVPNZTNA; ModeExternalDirectZTNA])
   then Some (invalid "mode is invalid")
   else if (AccessGrantInput_TTL input <? minute)%Z || (defaultAccessGrantTTL <? AccessGrantInput_TTL input)%Z
   then Some (invalid "ttlSeconds must be between 60 and 300")
   else if is_empty (AccessGrantInput_ResourceIDs input)
   then Some (invalid "resourceIds must contain between 1 and 256 entries")
   else validateStringList "resourceIds" (AccessGrantInput_ResourceIDs input) 256 None).

Definition publicAccessGrant (grant : AccessGrant) : AccessGrant :=
  {| AccessGrant_ID := AccessGrant_ID grant; AccessGrant_SubjectID := AccessGrant_SubjectID grant;
     AccessGrant_AuthSessionID := ""; AccessGrant_DeviceID := AccessGrant_DeviceID grant;
     AccessGrant_SiteID := AccessGrant_SiteID grant; AccessGrant_NetworkSpaceID := AccessGrant_NetworkSpaceID grant;
     AccessGrant_Mode := AccessGrant_Mode grant; AccessGrant_ResourceIDs := AccessGrant_ResourceIDs grant;
     AccessGrant_PolicyVersion := AccessGrant_PolicyVersion grant; AccessGrant_Status := AccessGrant_Status grant;
     AccessGrant_TokenHash := ""; AccessGrant_SessionID := AccessGrant_SessionID grant;
     AccessGrant_ResourceLeaseIDs := AccessGrant_ResourceLeaseIDs grant; AccessGrant_ReasonCode := AccessGrant_ReasonCode grant;
     AccessGrant_ExpiresAt := AccessGrant_ExpiresAt grant; AccessGrant_ConsumedAt := AccessGrant_ConsumedAt grant;
     AccessGrant_RevokedAt := AccessGrant_RevokedAt grant; AccessGrant_CreatedBy := AccessGrant_CreatedBy grant;
     AccessGrant_CreatedAt := AccessGrant_CreatedAt grant; AccessGrant_UpdatedAt := AccessGrant_UpdatedAt grant |}.

Definition boundedLimit (limit : Z) : Z :=
  if (limit <=? 0)%Z then 100 else Z.min limit 200.

Definition validateListFilter (search : string) (limit : Z) : option error :=
  if (200 <? RuneCountInString search) then Some (invalid "search cannot exceed 200 characters")
  else if (limit <? 0)%Z || (200 <? limit)%Z then Some (invalid "limit must be between 1 and 200")
  else None.

Definition optionalText (name value : string) (maxLength : nat) : option error :=
  if str_empty value then None else requiredText name value maxLength.

Definition validateAccessGrantFilter `{MapRange} (filter : AccessGrantFilter) : option error :=
  let texts : gmap string string :=
    {[ "subjectId" := AccessGrantFilter_SubjectID filter; "deviceId" := AccessGrantFilter_DeviceID filter ]} in
  seq_err (validateListFilter "" (AccessGrantFilter_Limit filter))
  (seq_err (first_err (fun name => optionalText name (lookup_default "" texts name) 128) (range_keys (dom texts)))
  (if negb (str_empty (AccessGrantFilter_Status filter)) &&
      negb (oneOf (AccessGrantFilter_Status filter) [AccessGrantIssued; AccessGrantConsumed; AccessGrantRevoked; AccessGrantExpired])
   then Some (invalid "status is invalid") else None)).

Section service.
Context `{CatalogSource, MapRange, AccessGrantPolicyStore, GrantSecrets, AccessGrantStore store} (now : Z).

(** The loop over the requested resources, with the access profile so far. *)
Fixpoint authorize_each (subjectID : string) (input : AccessGrantInput) (subject : Subject) (device : Device)
    (site : Site) (space : Space) (snapshot : PolicySnapshot) (accessProfile : string) (resourceIDs : list string)
    : option error :=
  match resourceIDs with
  | [] => None
  | resourceID :: rest =>
      match GetResource resourceID with
      | Err e => Some e
      | Ok resource =>
          match WireGuardResourceTarget now resource space with
          | None => Some (NewBusiness ErrInvalidArgument "resource_transport_not_supported"
              "The resource cannot be enforced by the WireGuard ZTNA path.")
          | Some _ =>
              let preview := EvaluatePolicy now
                {| PreviewInput_NASBindingID := ""; PreviewInput_SubjectUserID := subjectID;
                   PreviewInput_DeviceID := AccessGrantInput_DeviceID input; PreviewInput_ResourceID := resourceID;
                   PreviewInput_SiteID := AccessGrantInput_SiteID input; PreviewInput_Mode := AccessGrantInput_Mode input |}
                subject device site space resource snapshot in
              if negb (String.eqb (PolicyPreview_Decision preview) DecisionAllow) ||
                 negb (PolicyPreview_ResourceLeaseRequired preview) ||
                 negb (Bool.eqb (PolicyPreview_NetworkLeaseRequired preview)
                         (String.eqb (AccessGrantInput_Mode input) ModeExternalVPNZTNA))
              then Some (NewBusiness ErrAccessDenied "network_access_denied" "The requested resource access is not allowed.")
              else if negb (str_empty accessProfile) &&
                      negb (String.eqb accessProfile (PolicyPreview_NetworkProfile preview))
              then Some (NewBusiness ErrConflict "resource_access_profile_conflict"
                     "The requested resources require different access profiles.")
              else authorize_each subjectID input subject device site space snapshot
                     (PolicyPreview_NetworkProfile preview) rest
          end
      end
  end.

Definition authorizeNetworkResources (subjectID : string) (input : AccessGrantInput) : result PolicySnapshot :=
  let* subject := GetSubject subjectID in
  let* device := GetDevice (AccessGrantInput_DeviceID input) in
  let* site := GetSite (AccessGrantInput_SiteID input) in
  let* space := GetSpace (AccessGrantInput_NetworkSpaceID input) in
  let* snapshot := GetPolicySnapshot in
  match authorize_each subjectID input subject device site space snapshot "" (AccessGrantInput_ResourceIDs input) with
  | Some e => Err e
  | None => Ok snapshot
  end.

(** A new grant, and what becomes of the store and of the permission cache. *)
Definition grant_Create (permissions : PermissionResolver) (principal : Principal) (authSessionID : string)
    (input : AccessGrantInput) (cache : RoleMatrixCache) (s : store)
    : result AccessGrantSecret * RoleMatrixCache * store :=
  match networkUserSubject (Principal_UserID principal) with
  | Some e => (Err e, cache, s)
  | None =>
  let '(authorized, cache) :=
    AuthorizeRuntimePermission permissions principal PermNetworkAccessAccessGrantsCreate cache in
  match authorized with
  | Err e => (Err e, cache, s)
  | Ok _ =>
  let input := default_ttl (normalizeAccessGrantInput input) in
  let authSessionID := TrimSpace authSessionID in
  match validateAccessGrantInput authSessionID input with
  | Some e => (Err e, cache, s)
  | None =>
  match RequireRecentStepUp (Principal_UserID principal) authSessionID with
  | Some e => (Err e, cache, s)
  | None =>
  match authorizeNetworkResources (Principal_UserID principal) input with
  | Err e => (Err e, cache, s)
  | Ok snapshot =>
  match random_token with
  | Err e => (Err (wrapf "generate network access grant token" e), cache, s)
  | Ok token =>
  let grant :=
    {| AccessGrant_ID := grant_uuid; AccessGrant_SubjectID := Principal_UserID principal;
       AccessGrant_AuthSessionID := authSessionID; AccessGrant_DeviceID := AccessGrantInput_DeviceID input;
       AccessGrant_SiteID := AccessGrantInput_SiteID input;
       AccessGrant_NetworkSpaceID := AccessGrantInput_NetworkSpaceID input;
       AccessGrant_Mode := AccessGrantInput_Mode input; AccessGrant_ResourceIDs := AccessGrantInput_ResourceIDs input;
       AccessGrant_PolicyVersion := PolicySnapshot_PolicyVersion snapshot; AccessGrant_Status := AccessGrantIssued;
       AccessGrant_TokenHash := "sha256:" +:+ token_digest token; AccessGrant_SessionID := "";
       AccessGrant_ResourceLeaseIDs := []; AccessGrant_ReasonCode := "policy_allowed";
       AccessGrant_ExpiresAt := now + AccessGrantInput_TTL input; AccessGrant_ConsumedAt := None;
       AccessGrant_RevokedAt := None; AccessGrant_CreatedBy := Principal_UserID principal;
       AccessGrant_CreatedAt := now; AccessGrant_UpdatedAt := now |} in
  match CreateAccessGrant grant s with
  | (Some e, s) => (Err e, cache, s)
  | (None, s) => (Ok {| AccessGrantSecret_Grant := publicAccessGrant grant; AccessGrantSecret_Token := token |}, cache, s)
  end end end end end end end.

Definition grant_List (permissions : PermissionResolver) (principal : Principal) (filter : AccessGrantFilter)
    (cache : RoleMatrixCache) (s : store) : result (list AccessGrant) * RoleMatrixCache :=
  let '(authorized, cache) := AuthorizeRuntimePermission permissions principal PermNetworkAccessAccessGrantsView cache in
  match authorized with
  | Err e => (Err e, cache)
  | Ok _ =>
      let filter := {| AccessGrantFilter_SubjectID := TrimSpace (AccessGrantFilter_SubjectID filter);
                       AccessGrantFilter_DeviceID := TrimSpace (AccessGrantFilter_DeviceID filter);
                       AccessGrantFilter_Status := TrimSpace (AccessGrantFilter_Status filter);
                       AccessGrantFilter_Limit := AccessGrantFilter_Limit filter |} in
      match validateAccessGrantFilter filter with
      | Some e => (Err e, cache)
      | None =>
          let filter := {| AccessGrantFilter_SubjectID := AccessGrantFilter_SubjectID filter;
                           AccessGrantFilter_DeviceID := AccessGrantFilter_DeviceID filter;
                           AccessGrantFilter_Status := AccessGrantFilter_Status filter;
                           AccessGrantFilter_Limit := boundedLimit (AccessGrantFilter_Limit filter) |} in
          (let* items := ListAccessGrants filter now s in Ok (publicAccessGrant <$> items), cache)
      end
  end.

Definition grant_Get (permissions : PermissionResolver) (principal : Principal) (id : string)
    (cache : RoleMatrixCache) (s : store) : result AccessGrant * RoleMatrixCache :=
  let '(authorized, cache) := AuthorizeRuntimePermission permissions principal PermNetworkAccessAccessGrantsView cache in
  match authorized with
  | Err e => (Err e, cache)
  | Ok _ =>
      let id := TrimSpace id in
      match requiredText "grantId" id 128 with
      | Some e => (Err e, cache)
      | None => (let* grant := GetAccessGrant id now s in Ok (publicAccessGrant grant), cache)
      end
  end.

Definition grant_Revoke (permissions : PermissionResolver) (principal : Principal) (id : string)
    (cache : RoleMatrixCache) (s : store) : result AccessGrant * RoleMatrixCache * store :=
  let '(authorized, cache) := AuthorizeRuntimePermission permissions principal PermNetworkAccessAccessGrantsRevoke cache in
  match authorized with
  | Err e => (Err e, cache, s)
  | Ok _ =>
      let id := TrimSpace id in
      match requiredText "grantId" id 128 with
      | Some e => (Err e, cache, s)
      | None =>
          match GetAccessGrant id now s with
          | Err e => (Err e, cache, s)
          | Ok grant =>
              match RevokeAccessGrant (AccessGrant_ID grant) now s with
              | (Some e, s) => (Err e, cache, s)
              | (None, s) =>
                  (let* grant := GetAccessGrant (AccessGrant_ID grant) now s in Ok (publicAccessGrant grant), cache, s)
              end
          end
      end
  end.

End service.

(** ** Lemmas *)

Lemma check_values_None name allowed seen values :
  check_values name allowed seen values = None -> NoDup values /\ forall v, v ∈ values -> v ∉ seen.
Proof.
  revert seen. induction values as [|value values IH]; intros seen; cbn [check_values].
  { intros _. split; [constructor|]. intros v Hv. by apply elem_of_nil in Hv. }
  destruct (requiredText _ _ _); [done|]. destruct (from_option _ _ _); [done|].
  destruct (contains seen value) eqn:Hs; [done|]. apply contains_false in Hs. intros [Hn Hout]%IH.
  split; [constructor; [|done]|].
  - intros Hin. destruct (Hout value Hin). by left.
  - intros v [->|Hv]%elem_of_cons; [done|]. intros Hin. destruct (Hout v Hv). by right.
Qed.

Section lemmas.
Context `{CatalogSource, MapRange, AccessGrantPolicyStore, GrantSecrets} (now : Z).

(** The decision for one resource of a grant. *)
Definition grant_preview (subjectID : string) (input : AccessGrantInput) (subject : Subject) (device : Device)
    (site : Site) (space : Space) (snapshot : PolicySnapshot) (resource : Resource) (id : string) : PolicyPreview :=
  EvaluatePolicy now
    {| PreviewInput_NASBindingID := ""; PreviewInput_SubjectUserID := subjectID;
       PreviewInput_DeviceID := AccessGrantInput_DeviceID input; PreviewInput_ResourceID := id;
       PreviewInput_SiteID := AccessGrantInput_SiteID input; PreviewInput_Mode := AccessGrantInput_Mode input |}
    subject device site space resource snapshot.

(** One resource of a grant: it can be enforced on the WireGuard path and the
    policies allow it under a resource lease, with a network lease exactly in
    the VPN mode. *)
Definition resource_granted (subjectID : string) (input : AccessGrantInput) (subject : Subject) (device : Device)
    (site : Site) (space : Space) (snapshot : PolicySnapshot) (id profile : string) : Prop :=
  exists resource target, GetResource id = Ok resource /\ WireGuardResourceTarget now resource space = Some target /\
    let preview := grant_preview subjectID input subject device site space snapshot resource id in
    PolicyPreview_Decision preview = DecisionAllow /\ PolicyPreview_ResourceLeaseRequired preview = true /\
    PolicyPreview_NetworkLeaseRequired preview = String.eqb (AccessGrantInput_Mode input) ModeExternalVPNZTNA /\
    PolicyPreview_NetworkProfile preview = profile.

Lemma authorize_each_sound subjectID input subject device site space snapshot ids profile :
  authorize_each now subjectID input subject device site space snapshot profile ids = None ->
  exists profiles, length profiles = length ids /\
    (forall i id p, ids !! i = Some id -> profiles !! i = Some p ->
       resource_granted subjectID input subject device site space snapshot id p) /\
    (forall i p q, (profile :: profiles) !! i = Some p -> (profile :: profiles) !! S i = Some q -> p <> "" -> p = q).
Proof.
  revert profile. induction ids as [|id ids IH]; intros profile; cbn [authorize_each].
  { intros _. exists []. split_and!; [done|done|]. by intros [|i] p q. }
  destruct (GetResource id) as [resource|] eqn:Hres; [|done].
  destruct (WireGuardResourceTarget now resource space) as [target|] eqn:Htarget; [|done].
  fold (grant_preview subjectID input subject device site space snapshot resource id).
  set (preview := grant_preview _ _ _ _ _ _ _ _ _). destruct (_ || _) eqn:Hg; [done|].
  apply orb_false_iff in Hg as [Hg Hn%negb_false_iff%Bool.eqb_prop].
  apply orb_false_iff in Hg as [Hd%negb_eqb_false Hr%negb_false_iff].
  destruct (_ && _) eqn:Hp; [done|]. intros (profiles & Hlen & Hall & Hchain)%IH.
  exists (PolicyPreview_NetworkProfile preview :: profiles). split_and!.
  - cbn. by rewrite Hlen.
  - intros [|i] id' p; [|apply Hall]. intros [= <-] [= <-]. exists resource, target. by split_and!.
  - intros [|i] p q; [|apply Hchain]. intros [= <-] [= <-] Hne.
    apply andb_false_iff in Hp as [Hp%negb_false_iff|Hp%negb_eqb_false]; [by apply String.eqb_eq in Hp|done].
Qed.

(** A chain of equal neighbours has one value. *)
Lemma chain_equal (profiles : list string) :
  (forall i p q, profiles !! i = Some p -> profiles !! S i = Some q -> p <> "" -> p = q) ->
  (forall p, p ∈ profiles -> p <> "") -> forall p q, p ∈ profiles -> q ∈ profiles -> p = q.
Proof.
  intros Hc Hne. assert (forall i p, profiles !! i = Some p -> profiles !! 0 = Some p) as Hfirst.
  { induction i as [|i IH]; intros p Hi; [done|].
    destruct (lookup_lt_is_Some_2 profiles i) as [q Hq]; [apply lookup_lt_Some in Hi; lia|].
    rewrite (IH _ Hq). f_equal. apply (Hc i); [done..|]. eapply Hne, list_elem_of_lookup_2, Hq. }
  intros p q [i Hi]%list_elem_of_lookup [j Hj]%list_elem_of_lookup. apply Hfirst in Hi, Hj. congruence.
Qed.

End lemmas.

(** ** Properties *)

(** A grant is created only after the step-up verifier agreed. *)
Lemma grant_create_step_up `{CatalogSource, MapRange, AccessGrantPolicyStore, GrantSecrets, AccessGrantStore store}
    now permissions principal authSessionID input cache s secret cache' s' :
  grant_Create now permissions principal authSessionID input cache s = (Ok secret, cache', s') ->
  RequireRecentStepUp (Principal_UserID principal) (TrimSpace authSessionID) = None.
Proof.
  unfold grant_Create. cbv zeta. destruct (networkUserSubject _); [done|].
  destruct (AuthorizeRuntimePermission _ _ _ _) as [[u|e] c]; [|done].
  destruct (validateAccessGrantInput _ _); [done|]. by destruct (RequireRecentStepUp _ _).
Qed.

(** C40. A grant is issued only to a user, not a service account, who holds the
    permission and has stepped up recently; it names at least one resource and
    none twice, each of which the policies allow for that user, device, site and
    mode and the WireGuard path can enforce, all under one access profile; it
    lives between one and five minutes; and what is returned hides the digest
    of the token and the session that the stored grant keeps. *)
Theorem grant_create_sound `{CatalogSource, MapRange, AccessGrantPolicyStore, GrantSecrets, AccessGrantStore store}
    now permissions principal authSessionID input cache s secret cache' s' :
  grant_Create now permissions principal authSessionID input cache s = (Ok secret, cache', s') ->
  let user := Principal_UserID principal in
  let request := default_ttl (normalizeAccessGrantInput input) in
  let grant := AccessGrantSecret_Grant secret in
  HasPrefix (TrimSpace user) "service_account:" = false /\
  (exists keys, PermissionKeys permissions principal cache = (Ok keys, cache') /\
     PermNetworkAccessAccessGrantsCreate ∈ keys) /\
  RequireRecentStepUp user (TrimSpace authSessionID) = None /\
  (exists subject device site space snapshot profiles,
     GetSubject user = Ok subject /\ GetDevice (AccessGrantInput_DeviceID request) = Ok device /\
     GetSite (AccessGrantInput_SiteID request) = Ok site /\
     GetSpace (AccessGrantInput_NetworkSpaceID request) = Ok space /\ GetPolicySnapshot = Ok snapshot /\
     length profiles = length (AccessGrant_ResourceIDs grant) /\
     (forall i id profile, AccessGrant_ResourceIDs grant !! i = Some id -> profiles !! i = Some profile ->
        resource_granted now user request subject device site space snapshot id profile) /\
     ((forall p, p ∈ profiles -> p <> "") -> forall p q, p ∈ profiles -> q ∈ profiles -> p = q)) /\
  (AccessGrant_ResourceIDs grant <> [] /\ NoDup (AccessGrant_ResourceIDs grant)) /\
  (now + minute <= AccessGrant_ExpiresAt grant <= now + 5 * minute)%Z /\
  (exists stored, CreateAccessGrant stored s = (None, s') /\ publicAccessGrant stored = grant /\
     AccessGrant_TokenHash stored = "sha256:" +:+ token_digest (AccessGrantSecret_Token secret) /\
     AccessGrant_TokenHash grant = "" /\ AccessGrant_AuthSessionID grant = "" /\ AccessGrant_SubjectID grant = user).
Proof.
  unfold grant_Create. cbv zeta.
  destruct (networkUserSubject _) eqn:Huser; [done|].
  destruct (AuthorizeRuntimePermission _ _ _ _) as [[u|e] c] eqn:Hauth; [|done].
  apply authorized_key in Hauth as (keys & Hkeys & Hin); [|reflexivity].
  set (request := default_ttl (normalizeAccessGrantInput input)).
  destruct (validateAccessGrantInput _ _) eqn:Hvalid; [done|].
  destruct (RequireRecentStepUp _ _) eqn:Hstep; [done|].
  destruct (authorizeNetworkResources _ _ _) as [snapshot|e] eqn:Hres; [|done].
  destruct random_token as [token|e]; [|done].
  destruct (CreateAccessGrant _ s) as [[e|] s1] eqn:Hcreate; [done|]. intros [= <- <- <-].
  cbn [AccessGrantSecret_Grant AccessGrantSecret_Token publicAccessGrant AccessGrant_ResourceIDs AccessGrant_ExpiresAt
       AccessGrant_TokenHash AccessGrant_AuthSessionID AccessGrant_SubjectID].
  apply seq_err_None in Hvalid as [_ Hvalid]. destruct (negb _); [done|].
  destruct (_ || _) eqn:Httl; [done|]. destruct (is_empty _) eqn:Hne; [done|]. apply is_empty_false in Hne.
  apply orb_false_iff in Httl as [Hmin%Z.ltb_ge Hmax%Z.ltb_ge]. unfold defaultAccessGrantTTL in Hmax.
  unfold validateStringList in Hvalid. destruct (_ <? _); [done|]. apply check_values_None in Hvalid as [Hnodup _].
  split_and!; try done; [by unfold networkUserSubject in Huser; destruct (HasPrefix _ _)|by exists keys| |
    unfold request in Hmin, Hmax; cbn [default_ttl normalizeAccessGrantInput AccessGrantInput_TTL] in *;
    unfold defaultAccessGrantTTL in *; lia..|by eexists].
  unfold authorizeNetworkResources in Hres.
  destruct (GetSubject _) as [subject|] eqn:Hsub; [|done]. destruct (GetDevice _) as [device|] eqn:Hdev; [|done].
  destruct (GetSite _) as [site|] eqn:Hsite; [|done]. destruct (GetSpace _) as [space|] eqn:Hspace; [|done].
  destruct GetPolicySnapshot as [snap|] eqn:Hsnap; [|done]. cbn [result_bind] in Hres.
  destruct (authorize_each _ _ _ _ _ _ _ _ _ _) eqn:Heach; [done|]. injection Hres as ->.
  apply authorize_each_sound in Heach as (profiles & Hlen & Hall & Hchain).
  exists subject, device, site, space, snapshot, profiles. split_and!; try done.
  intros Hp. apply chain_equal; [|done]. intros i p q Hi Hj. by apply (Hchain (S i)).
Qed.

(** Data for the witness: the sample user of [PermissionResolver] with the
    permission, the sample policies of [NetworkPolicy], one resource. *)
Definition grant_catalog : CatalogSource :=
  {| decoded_catalog := Ok {| Catalog_ContentHash := ""; Catalog_Permissions := [] |}; PermissionStatusActive := "active" |}.

Definition grant_principal : Principal :=
  {| Principal_UserID := "alice"; Principal_UserName := ""; Principal_Email := ""; Principal_AvatarURL := "";
     Principal_AvatarFit := ""; Principal_Roles := ["net"]; Principal_Teams := []; Principal_Projects := [];
     Principal_Tags := []; Principal_PermissionKeys := []; Principal_AccessTokenID := "" |}.

Definition grant_policy_store : AccessGrantPolicyStore :=
  {| GetSubject := fun _ => Ok sample_subject; GetDevice := fun _ => Ok (sample_device DeviceManagementManaged);
     GetSite := fun _ => Ok (sample_site DeviceGovernanceManaged);
     GetSpace := fun _ => Ok {| Space_ID := "lan"; Space_SiteID := "hq"; Space_Name := ""; Space_CIDRs := ["10.1.0.0/16"];
       Space_Status := StatusActive; Space_CreatedAt := 0; Space_UpdatedAt := 0 |};
     GetResource := fun _ => Ok {| Resource_TrustedAddresses := []; Resource_DNSExpiresAt := 0; Resource_ID := "db";
       Resource_SpaceID := "lan"; Resource_Name := ""; Resource_Kind := "ip"; Resource_Target := "10.1.2.3";
       Resource_Protocol := "tcp"; Resource_Ports := [5432]%Z; Resource_Protected := true; Resource_PathMode := "";
       Resource_CreatedAt := 0; Resource_UpdatedAt := 0 |};
     GetPolicySnapshot := Ok (sample_snapshot sample_policies) |}.

Definition grant_secrets : GrantSecrets :=
  {| RequireRecentStepUp := fun _ _ => None; random_token := Ok "t"; token_digest := fun s => s; grant_uuid := "g" |}.

Definition grant_store : AccessGrantStore (list AccessGrant) :=
  {| CreateAccessGrant := fun g s => (None, g :: s);
     GetAccessGrant := fun _ _ s => match s with g :: _ => Ok g | [] => Err (sentinel ErrNotFound) end;
     ListAccessGrants := fun _ _ s => Ok s; RevokeAccessGrant := fun _ _ s => (None, s) |}.

Definition grant_input : AccessGrantInput :=
  {| AccessGrantInput_DeviceID := " laptop "; AccessGrantInput_SiteID := "hq"; AccessGrantInput_NetworkSpaceID := "lan";
     AccessGrantInput_Mode := ModeInternalZTNA; AccessGrantInput_ResourceIDs := ["db"]; AccessGrantInput_TTL := 0 |}.

Definition grant_permissions : PermissionResolver :=
  Some (Ok {[ "net" := [PermNetworkAccessAccessGrantsCreate] ]}).

Lemma grant_create_sound_witness :
  exists secret cache s, @grant_Create grant_catalog elements_map_range grant_policy_store grant_secrets _ grant_store 0
    grant_permissions grant_principal "session" grant_input None [] = (Ok secret, cache, s) /\
    AccessGrant_ResourceIDs (AccessGrantSecret_Grant secret) <> [] /\
    (AccessGrant_ExpiresAt (AccessGrantSecret_Grant secret) <= 0 + 5 * minute)%Z.
Proof.
  destruct (@grant_Create grant_catalog elements_map_range grant_policy_store grant_secrets _ grant_store 0
    grant_permissions grant_principal "session" grant_input None []) as [[r c] s] eqn:Hc.
  destruct r as [secret|e]; [|vm_compute in Hc; discriminate]. exists secret, c, s. split; [reflexivity|].
  destruct (@grant_create_sound grant_catalog elements_map_range grant_policy_store grant_secrets _ grant_store 0
    grant_permissions grant_principal "session" grant_input None [] secret c s Hc) as (_ & _ & _ & _ & [Hne _] & [_ Hle] & _).
  split; assumption.
Defined.
