(* ===== verification/GatewayModel.v ===== *)
(** * AI gateway: data

    The records of [domain/aigateway/models.go] that decisions read, and the
    readers of dynamic values shared by [application/aigateway] (policies.go,
    redaction.go, approval.go, tokens.go, manifest.go).  Numbers written as
    text are read by [strconv.ParseFloat], which is the interface
    [NumberText]. *)

From Stdlib Require Import Ascii.
From stdpp Require Import pretty.
From S2P Require Import Prelude GoStrings AccessModel WorkflowModel.

(** ** Records *)

Definition RiskLevelRead : string := "read".
Definition RiskLevelAnalyze : string := "analyze".
Definition RiskLevelMutate : string := "mutate".
Definition RiskLevelExecute : string := "execute".
Definition RiskLevelHigh : string := "high".

(** The part of a value semantic (of the generated contract) that is read here. *)
Record CapabilityValueSemantic := { CapabilityValueSemantic_ScopePaths : gmap string string }.

Record ToolExecutionContract := {
  ToolExecutionContract_Checks : list string;
  ToolExecutionContract_RecoveryMode : string;
  ToolExecutionContract_Mode : string;
  ToolExecutionContract_Idempotent : bool;
  ToolExecutionContract_IdempotencyKeyField : string;
  ToolExecutionContract_TaskKind : string;
  ToolExecutionContract_StatusTool : string;
  ToolExecutionContract_CancelTool : string
}.

Record ToolCapability := {
  ToolCapability_Name : string;
  ToolCapability_Title : string;
  ToolCapability_Description : string;
  ToolCapability_Domain : string;
  ToolCapability_Action : string;
  ToolCapability_RiskLevel : string;
  ToolCapability_PermissionKeys : list string;
  ToolCapability_RequiredScopes : list string;
  ToolCapability_MCPAdapterID : string;
  ToolCapability_MCPToolName : string;
  ToolCapability_RequiresApproval : bool;
  ToolCapability_InputSchema : go_map;
  ToolCapability_OutputSchema : go_map;
  ToolCapability_Version : string;
  ToolCapability_Execution : option ToolExecutionContract;
  ToolCapability_InputSemantics : list CapabilityValueSemantic;
  ToolCapability_OutputSemantics : list CapabilityValueSemantic;
  ToolCapability_Effects : list string;
  ToolCapability_ProducesAssessment : bool
}.

Record ResourceCapability := {
  ResourceCapability_Name : string;
  ResourceCapability_Description : string;
  ResourceCapability_PermissionKeys : list string;
  ResourceCapability_RequiredScopes : list string;
  ResourceCapability_ContextSchema : go_map
}.

Record PromptCapability := {
  PromptCapability_Name : string;
  PromptCapability_Description : string;
  PromptCapability_PermissionKeys : list string;
  PromptCapability_RequiredScopes : list string;
  PromptCapability_ArgumentSchema : go_map;
  PromptCapability_ContextSchema : go_map
}.

Record SkillCapability := {
  SkillCapability_ID : string;
  SkillCapability_Name : string;
  SkillCapability_Category : string;
  SkillCapability_Description : string;
  SkillCapability_CapabilityRefs : list string;
  SkillCapability_PermissionKeys : list string;
  SkillCapability_RequiredScopes : list string
}.

Record ToolInvocationRequest := {
  ToolInvocationRequest_CapabilityVersion : string;
  ToolInvocationRequest_ToolName : string;
  ToolInvocationRequest_Input : go_map;
  ToolInvocationRequest_SecretRefs : gmap string string;
  ToolInvocationRequest_AIClientID : string;
  ToolInvocationRequest_AIClientName : string;
  ToolInvocationRequest_SkillID : string;
  ToolInvocationRequest_RequestID : string;
  ToolInvocationRequest_SessionID : string
}.

Record AIClient := {
  AIClient_ID : string;
  AIClient_Name : string;
  AIClient_Kind : string;
  AIClient_Status : string;
  AIClient_RedirectURIs : list string;
  AIClient_AllowedOrigins : list string;
  AIClient_Metadata : go_map;
  AIClient_CreatedBy : string;
  AIClient_CreatedAt : Z;
  AIClient_UpdatedAt : Z
}.

Record AIClientInput := {
  AIClientInput_ID : string;
  AIClientInput_Name : string;
  AIClientInput_Kind : string;
  AIClientInput_Status : string;
  AIClientInput_RedirectURIs : list string;
  AIClientInput_AllowedOrigins : list string;
  AIClientInput_Metadata : go_map
}.

Record ToolGrant := {
  ToolGrant_ID : string;
  ToolGrant_SubjectType : string;
  ToolGrant_SubjectID : string;
  ToolGrant_AIClientID : string;
  ToolGrant_ToolName : string;
  ToolGrant_Effect : string;
  ToolGrant_RiskLevel : string;
  ToolGrant_PermissionKeys : list string;
  ToolGrant_ResourceScopes : go_map;
  ToolGrant_RequiresApproval : bool;
  ToolGrant_ExpiresAt : option Z;
  ToolGrant_CreatedBy : string;
  ToolGrant_CreatedAt : Z;
  ToolGrant_UpdatedAt : Z
}.

Record ToolGrantInput := {
  ToolGrantInput_SubjectType : string;
  ToolGrantInput_SubjectID : string;
  ToolGrantInput_AIClientID : string;
  ToolGrantInput_ToolName : string;
  ToolGrantInput_Effect : string;
  ToolGrantInput_RiskLevel : string;
  ToolGrantInput_PermissionKeys : list string;
  ToolGrantInput_ResourceScopes : go_map;
  ToolGrantInput_RequiresApproval : bool;
  ToolGrantInput_ExpiresAt : option Z
}.

Record AccessPolicy := {
  AccessPolicy_ID : string;
  AccessPolicy_Name : string;
  AccessPolicy_Description : string;
  AccessPolicy_Enabled : bool;
  AccessPolicy_SubjectType : string;
  AccessPolicy_SubjectID : string;
  AccessPolicy_AIClientID : string;
  AccessPolicy_Effect : string;
  AccessPolicy_ToolPatterns : list string;
  AccessPolicy_SkillIDs : list string;
  AccessPolicy_ResourceScopes : go_map;
  AccessPolicy_RiskLevels : list string;
  AccessPolicy_ApprovalPolicy : go_map;
  AccessPolicy_Conditions : go_map;
  AccessPolicy_CreatedBy : string;
  AccessPolicy_CreatedAt : Z;
  AccessPolicy_UpdatedAt : Z
}.

Record AccessPolicyInput := {
  AccessPolicyInput_Name : string;
  AccessPolicyInput_Description : string;
  AccessPolicyInput_Enabled : option bool;
  AccessPolicyInput_SubjectType : string;
  AccessPolicyInput_SubjectID : string;
  AccessPolicyInput_AIClientID : string;
  AccessPolicyInput_Effect : string;
  AccessPolicyInput_ToolPatterns : list string;
  AccessPolicyInput_SkillIDs : list string;
  AccessPolicyInput_ResourceScopes : go_map;
  AccessPolicyInput_RiskLevels : list string;
  AccessPolicyInput_ApprovalPolicy : go_map;
  AccessPolicyInput_Conditions : go_map
}.

Record SkillBinding := {
  SkillBinding_ID : string;
  SkillBinding_SubjectType : string;
  SkillBinding_SubjectID : string;
  SkillBinding_AIClientID : string;
  SkillBinding_SkillID : string;
  SkillBinding_CapabilityRefs : list string;
  SkillBinding_Enabled : bool;
  SkillBinding_Metadata : go_map;
  SkillBinding_CreatedBy : string;
  SkillBinding_CreatedAt : Z;
  SkillBinding_UpdatedAt : Z
}.

Record SkillBindingInput := {
  SkillBindingInput_SubjectType : string;
  SkillBindingInput_SubjectID : string;
  SkillBindingInput_AIClientID : string;
  SkillBindingInput_SkillID : string;
  SkillBindingInput_CapabilityRefs : list string;
  SkillBindingInput_Enabled : option bool;
  SkillBindingInput_Metadata : go_map
}.

Record ApprovalDecisionTrace := {
  ApprovalDecisionTrace_UserID : string;
  ApprovalDecisionTrace_UserName : string;
  ApprovalDecisionTrace_Roles : list string;
  ApprovalDecisionTrace_Teams : list string;
  ApprovalDecisionTrace_Result : string;
  ApprovalDecisionTrace_Comment : string;
  ApprovalDecisionTrace_StageIndex : option Z;
  ApprovalDecisionTrace_StageName : string;
  ApprovalDecisionTrace_DecidedAt : option Z
}.

Record ApprovalStageTrace := {
  ApprovalStageTrace_StageIndex : option Z;
  ApprovalStageTrace_StageName : string;
  ApprovalStageTrace_Result : string;
  ApprovalStageTrace_CompletedAt : option Z
}.

Record ApprovalTrace := {
  ApprovalTrace_ApprovalMode : string;
  ApprovalTrace_CurrentStageIndex : option Z;
  ApprovalTrace_CurrentStageName : string;
  ApprovalTrace_StageCount : Z;
  ApprovalTrace_ApprovedCount : Z;
  ApprovalTrace_RequiredApprovals : Z;
  ApprovalTrace_PendingRequirements : list string;
  ApprovalTrace_SatisfiedRequirements : list string;
  ApprovalTrace_RoleApprovedCounts : gmap string Z;
  ApprovalTrace_TeamApprovedCounts : gmap string Z;
  ApprovalTrace_CandidateUserIDs : list string;
  ApprovalTrace_CandidateRoles : list string;
  ApprovalTrace_CandidateTeams : list string;
  ApprovalTrace_OnCallCandidateUserIDs : list string;
  ApprovalTrace_WorkflowRunID : string;
  ApprovalTrace_ExecutionTaskID : string;
  ApprovalTrace_ReleaseBundleID : string;
  ApprovalTrace_Decisions : list ApprovalDecisionTrace;
  ApprovalTrace_StageHistory : list ApprovalStageTrace
}.

Record ApprovalRequest := {
  ApprovalRequest_ID : string;
  ApprovalRequest_Status : string;
  ApprovalRequest_Strategy : string;
  ApprovalRequest_PolicyID : string;
  ApprovalRequest_ApprovalPolicyRef : string;
  ApprovalRequest_ActorType : string;
  ApprovalRequest_ActorID : string;
  ApprovalRequest_ActorSessionID : string;
  ApprovalRequest_ActorName : string;
  ApprovalRequest_ActorRoles : list string;
  ApprovalRequest_ActorTeams : list string;
  ApprovalRequest_AIClientID : string;
  ApprovalRequest_AIClientName : string;
  ApprovalRequest_SkillID : string;
  ApprovalRequest_ToolName : string;
  ApprovalRequest_RiskLevel : string;
  ApprovalRequest_RequiresApproval : bool;
  ApprovalRequest_ResourceScope : go_map;
  ApprovalRequest_ToolInput : go_map;
  ApprovalRequest_SecretRefs : gmap string string;
  ApprovalRequest_RelatedIDs : go_map;
  ApprovalRequest_ApprovalTrace : option ApprovalTrace;
  ApprovalRequest_Output : any;
  ApprovalRequest_Summary : string;
  ApprovalRequest_RequestID : string;
  ApprovalRequest_SourceIP : string;
  ApprovalRequest_DecidedBy : string;
  ApprovalRequest_DecidedByName : string;
  ApprovalRequest_DecidedAt : option Z;
  ApprovalRequest_DecisionComment : string;
  ApprovalRequest_ExpiresAt : option Z;
  ApprovalRequest_CreatedAt : Z;
  ApprovalRequest_UpdatedAt : Z
}.

Record ApprovalRequestUpdate := {
  ApprovalRequestUpdate_ExpectedStatus : string;
  ApprovalRequestUpdate_Status : string;
  ApprovalRequestUpdate_Summary : string;
  ApprovalRequestUpdate_RelatedIDs : go_map;
  ApprovalRequestUpdate_Output : any;
  ApprovalRequestUpdate_DecidedBy : string;
  ApprovalRequestUpdate_DecidedByName : string;
  ApprovalRequestUpdate_DecidedAt : option Z;
  ApprovalRequestUpdate_DecisionComment : string;
  ApprovalRequestUpdate_UpdatedAt : Z
}.

Record ApprovalDecisionInput := {
  ApprovalDecisionInput_Comment : string
}.
(** ** Texts *)

(** [strings.ReplaceAll] of one byte by another. *)
Fixpoint replace_byte (a b : ascii) (s : string) : string :=
  match s with
  | "" => ""
  | String c s => String (if Ascii.eqb c a then b else c) (replace_byte a b s)
  end.

(** The bytes of [s] outside a set: a replacer of single bytes by nothing. *)
Fixpoint remove_bytes (cut : list ascii) (s : string) : string :=
  match s with
  | "" => ""
  | String c s => if contains cut c then remove_bytes cut s else String c (remove_bytes cut s)
  end.

(** [strings.FieldsFunc] for separators of one byte; no field is empty. *)
Definition fields_bytes (seps : list ascii) (s : string) : list string :=
  filter (fun field => field <> "")
    (split_byte ","%char (String.concat "" ((fun c => String (if contains seps c then ","%char else c) "") <$> chars s))).

Definition underscored (value : string) : string :=
  replace_byte " "%char "_"%char (replace_byte "-"%char "_"%char (ToLower (TrimSpace value))).

(** Trimmed texts that are not blank, each once, in the order of first occurrence. *)
Definition add_text (out : list string) (value : string) : list string :=
  let value := TrimSpace value in
  if str_empty value || contains out value then out else out ++ [value].

Definition normalizeStringSlice (values : list string) : list string := sort_strings (fold_left add_text values []).

Definition intersectStringSlices (left right : list string) : list string :=
  filter (fun value => contains (normalizeStringSlice right) value = true) (normalizeStringSlice left).

(** Additions to [values] whose lower-case form is new. *)
Definition add_unique (acc : list string * gset string) (value : string) : list string * gset string :=
  let '(out, seen) := acc in
  let text := TrimSpace value in
  let key := ToLower text in
  if str_empty text || bool_decide (key ∈ seen) then acc else (out ++ [text], {[key]} ∪ seen).

Definition gatewayAppendUniqueStrings (values additions : list string) : list string :=
  fst (fold_left add_unique (values ++ additions) ([], ∅)).

Definition normalizeSubjectType (value : string) : string :=
  let normalized := ToLower (TrimSpace value) in
  if contains ["org"; "organization"; "organizations"; "group"; "groups"; "team_id"; "org_unit"] normalized then "team"
  else normalized.

Definition validStatus (value : string) (allowed : list string) : bool := contains allowed (TrimSpace value).

Definition validRiskLevel (value : string) : bool :=
  contains [RiskLevelRead; RiskLevelAnalyze; RiskLevelMutate; RiskLevelExecute; RiskLevelHigh] value.

Definition grantEffect (effect : string) : string :=
  let effect := ToLower (TrimSpace effect) in if str_empty effect then "allow" else effect.

(** ** Dynamic values *)

Class NumberText := {
  (** The integer part of what [strconv.ParseFloat] reads. *)
  parse_number : string -> option Z
}.

Definition mapValue (value : any) : go_map := match value with AMap m => m | _ => ∅ end.

Definition mergeAnyMaps (left right : go_map) : go_map := right ∪ left.

Definition boolFromAny (value : any) : bool :=
  match value with
  | ABool b => b
  | AString s => EqualFold (TrimSpace s) "true" || EqualFold (TrimSpace s) "yes"
  | _ => false
  end.

Definition stringsFromAny (value : any) : list string :=
  match value with
  | ANil => []
  | AString s => [s]
  | AStrings l => l
  | AList l => (fun item => TrimSpace (Sprint item)) <$> l
  | _ => let text := TrimSpace (Sprint value) in if str_empty text then [] else [text]
  end.

Fixpoint firstMapString (values : go_map) (keys : list string) : string :=
  match keys with
  | [] => ""
  | key :: keys =>
      match values !! key with
      | Some raw =>
          let text := TrimSpace (Sprint raw) in
          if negb (str_empty text) && negb (String.eqb text "<nil>") then text else firstMapString values keys
      | None => firstMapString values keys
      end
  end.

Definition gatewayStringList (value : any) : list string :=
  match value with
  | AStrings l => l
  | AList l => filter (fun text => text <> "" /\ text <> "<nil>") ((fun item => TrimSpace (Sprint item)) <$> l)
  | AString s => filter (fun text => text <> "") (TrimSpace <$> fields_bytes [","%char; "010"%char; ";"%char] s)
  | _ => []
  end.

Definition normalizeGatewayConditionKey (key : string) : string :=
  remove_bytes ["_"%char; "-"%char; " "%char; "."%char] (ToLower (TrimSpace key)).

(** A key, or the first key in the order of the map that is the same up to case and separators. *)
Definition gatewayConditionRaw `{MapRange} (values : go_map) (key : string) : option any :=
  match values !! key with
  | Some value => Some value
  | None =>
      candidate ← find_first (fun candidate =>
        String.eqb (normalizeGatewayConditionKey candidate) (normalizeGatewayConditionKey key)) (range_keys (dom values));
      values !! candidate
  end.

Definition gatewayInt `{NumberText} (value : any) (valid : Z -> bool) : Z * bool :=
  match value with
  | AInt n | AFloat _ n => (n, valid n)
  | AString s =>
      let text := TrimSpace s in
      if str_empty text then (0%Z, false)
      else match parse_number text with None => (0%Z, false) | Some n => (n, valid n) end
  | _ => (0%Z, false)
  end.

Definition gatewayPositiveInt `{NumberText} (value : any) : Z * bool := gatewayInt value (fun n => 0 <? n)%Z.
Definition gatewayNonNegativeInt `{NumberText} (value : any) : Z * bool := gatewayInt value (fun n => 0 <=? n)%Z.

Fixpoint gatewayFirstPositiveInt `{MapRange, NumberText} (values : go_map) (keys : list string) : Z * bool :=
  match keys with
  | [] => (0%Z, false)
  | key :: keys =>
      match gatewayConditionRaw values key with
      | None => gatewayFirstPositiveInt values keys
      | Some raw =>
          let '(value, ok) := gatewayPositiveInt raw in
          if ok : bool then (value, true) else gatewayFirstPositiveInt values keys
      end
  end.

Fixpoint gatewayFirstString `{MapRange} (values : go_map) (keys : list string) : string :=
  match keys with
  | [] => ""
  | key :: keys =>
      match gatewayConditionRaw values key with
      | None | Some ANil => gatewayFirstString values keys
      | Some raw =>
          let text := TrimSpace (Sprint raw) in
          if negb (str_empty text) && negb (String.eqb text "<nil>") then text else gatewayFirstString values keys
      end
  end.

Definition gatewayConditionStringList `{MapRange} (values : go_map) (keys : list string) : list string :=
  fold_left add_text
    (key ← keys; match gatewayConditionRaw values key with None => [] | Some raw => gatewayStringList raw end) [].

(** ** Lemmas *)

Lemma existsb_false_elem {A} (f : A -> bool) l : existsb f l = false <-> forall x, x ∈ l -> f x = false.
Proof.
  rewrite <- not_true_iff_false, existsb_elem_of. setoid_rewrite <- not_true_iff_false. naive_solver.
Qed.

Lemma elem_of_add_text values : forall out x,
  x ∈ fold_left add_text values out <-> x ∈ out \/ exists v, v ∈ values /\ x = TrimSpace v /\ x <> "".
Proof.
  induction values as [|v values IH]; intros out x; simpl; [set_solver|]. rewrite IH.
  unfold add_text. destruct (str_empty (TrimSpace v) || contains out (TrimSpace v)) eqn:E.
  - split; [set_solver|]. intros [?|(w & [->|Hw]%elem_of_cons & -> & Hne)]; [by left| |right; set_solver].
    apply orb_true_iff in E as [E|E]; [by destruct (TrimSpace v)|]. left. by apply contains_true in E.
  - apply orb_false_iff in E as [E _].
    assert (TrimSpace v <> "") by (intros He; by rewrite He in E). set_solver.
Qed.

Lemma elem_of_normalizeStringSlice values x :
  x ∈ normalizeStringSlice values <-> exists v, v ∈ values /\ x = TrimSpace v /\ x <> "".
Proof. unfold normalizeStringSlice. rewrite elem_of_sort_strings, elem_of_add_text. set_solver. Qed.

Lemma elem_of_intersectStringSlices l r x :
  x ∈ intersectStringSlices l r <-> x ∈ normalizeStringSlice l /\ x ∈ normalizeStringSlice r.
Proof. unfold intersectStringSlices. rewrite list_elem_of_filter, contains_true. tauto. Qed.

Lemma normalizeStringSlice_ext l1 l2 :
  (forall x, x ∈ l1 <-> x ∈ l2) -> forall x, x ∈ normalizeStringSlice l1 <-> x ∈ normalizeStringSlice l2.
Proof. intros Hl x. rewrite !elem_of_normalizeStringSlice. set_solver. Qed.

(** ** Equality *)

(** [reflect.DeepEqual] of the values a request carries; slices of workflow
    records do not occur there and compare unequal. *)
Fixpoint any_equal (a b : any) {struct a} : bool :=
  let map_equal (m m' : go_map) := Nat.eqb (size m) (size m') &&
    map_fold (fun k x acc => acc && match m' !! k with Some y => any_equal x y | None => false end) true m in
  match a, b with
  | ANil, ANil => true
  | AString s, AString s' => String.eqb s s'
  | ABool x, ABool x' => Bool.eqb x x'
  | AInt n, AInt n' => Z.eqb n n'
  | AFloat text n, AFloat text' n' => String.eqb text text' && Z.eqb n n'
  | AList l, AList l' =>
      (fix go l l' := match l, l' with [], [] => true | x :: l, y :: l' => any_equal x y && go l l' | _, _ => false end) l l'
  | AMap m, AMap m' => map_equal m m'
  | AStrings l, AStrings l' => bool_decide (l = l')
  | AStringMap m, AStringMap m' => bool_decide (m = m')
  | AIntMap m, AIntMap m' => bool_decide (m = m')
  | AMaps l, AMaps l' =>
      (fix go l l' := match l, l' with [], [] => true | x :: l, y :: l' => map_equal x y && go l l' | _, _ => false end) l l'
  | _, _ => false
  end.

Definition DeepEqual (a b : go_map) : bool := any_equal (AMap a) (AMap b).

Fixpoint any_size (v : any) : nat :=
  let map_size (m : go_map) := map_fold (fun _ x acc => any_size x + acc) 0 m in
  match v with
  | AList l => S (sum_list_with any_size l)
  | AMap m => S (map_size m)
  | AMaps l => S (sum_list_with (fun m => S (map_size m)) l)
  | _ => 1
  end.

Lemma map_fold_and (f : string -> any -> bool) (m : go_map) :
  map_fold (fun k x acc => acc && f k x) true m = true -> forall k x, m !! k = Some x -> f k x = true.
Proof.
  apply (map_fold_weak_ind (fun r m => r = true -> forall k x, m !! k = Some x -> f k x = true)).
  - intros _ k x Hx. by rewrite lookup_empty in Hx.
  - intros i x m' r Hi IH [Hr Hf]%andb_true_iff k y [[<- <-]|[_ Hy]]%lookup_insert_Some; [done|by apply IH].
Qed.

Lemma map_fold_size (m : go_map) k x : m !! k = Some x -> any_size x <= map_fold (fun _ x acc => any_size x + acc) 0 m.
Proof.
  revert k x. apply (map_fold_weak_ind (fun r m => forall k x, m !! k = Some x -> any_size x <= r)).
  - intros k x Hx. by rewrite lookup_empty in Hx.
  - intros i y m' r Hi IH k x [[<- <-]|[_ Hx]]%lookup_insert_Some; [lia|]. specialize (IH k x Hx). lia.
Qed.

Lemma map_equal_sound (m m' : go_map) :
  (forall k x, m !! k = Some x -> forall y, any_equal x y = true -> x = y) ->
  Nat.eqb (size m) (size m') &&
    map_fold (fun k x acc => acc && match m' !! k with Some y => any_equal x y | None => false end) true m = true -> m = m'.
Proof.
  intros IH [Hs%Nat.eqb_eq Hf]%andb_true_iff. pose proof (map_fold_and _ _ Hf) as Hall. apply map_subseteq_size_eq; [|lia].
  apply map_subseteq_spec. intros k x Hx. specialize (Hall k x Hx). simpl in Hall.
  destruct (m' !! k) as [y|]; [|done]. by rewrite (IH k x Hx y Hall).
Qed.

Lemma any_equal_sound a b : any_equal a b = true -> a = b.
Proof.
  remember (any_size a) as n eqn:Hn. revert a b Hn. induction (lt_wf n) as [n _ IH]. intros a b Hn.
  assert (IH' : forall x, any_size x < any_size a -> forall y, any_equal x y = true -> x = y) by (intros x Hx y; eapply IH; [|done]; lia).
  clear IH. destruct a as [|s|x|k|text k|l|m|l|m|m|l| | |], b as [|s'|x'|k'|text' k'|l'|m'|l'|m'|m'|l'| | |]; try done; cbn [any_equal].
  - by intros ->%String.eqb_eq.
  - by intros ->%eqb_prop.
  - by intros ->%Z.eqb_eq.
  - by intros [->%String.eqb_eq ->%Z.eqb_eq]%andb_true_iff.
  - intros Hl. f_equal. revert l' Hl. clear Hn. induction l as [|x l IHl]; intros [|y l'] Hl; try done.
    apply andb_true_iff in Hl as [Hx Hl]. f_equal; [apply IH'; [simpl; lia|done]|]. apply IHl; [|done]. intros z Hz. apply IH'. simpl in *. lia.
  - intros Hm. f_equal. apply map_equal_sound; [|done]. intros k x Hx y. apply IH'. simpl. pose proof (map_fold_size m k x Hx). lia.
  - by intros ->%bool_decide_eq_true.
  - by intros ->%bool_decide_eq_true.
  - by intros ->%bool_decide_eq_true.
  - intros Hl. f_equal. revert l' Hl. clear Hn. induction l as [|m l IHl]; intros [|m' l'] Hl; try done.
    apply andb_true_iff in Hl as [Hx Hl]. f_equal.
    + apply map_equal_sound; [|done]. intros k x Hk y. apply IH'. simpl. pose proof (map_fold_size m k x Hk). lia.
    + apply IHl; [|done]. intros z Hz. apply IH'. simpl in *. lia.
Qed.

Lemma DeepEqual_sound a b : DeepEqual a b = true -> a = b.
Proof. intros Hab%any_equal_sound. by simplify_eq. Qed.
