(* ===== verification/GatewayPolicy.v ===== *)
(** * AI gateway: grants, policies and skill bindings

    [application/aigateway/policies.go] with the risk decisions of approval.go
    and the sanitizing of audit.go: which tools a subject may call, under which
    strategy, and with which capabilities of a skill. *)

From Stdlib Require Import Ascii.
From S2P Require Import Prelude GoStrings AccessModel WorkflowModel GatewayModel.

(** ** Patterns *)

Definition grantMatchesTool (pattern toolName : string) : bool :=
  let pattern := TrimSpace pattern in
  let toolName := TrimSpace toolName in
  if str_empty pattern then false
  else if String.eqb pattern "*" || String.eqb pattern toolName then true
  else if HasSuffix pattern ".*" then HasPrefix toolName (TrimSuffix pattern "*")
  else false.

Definition matchesToolPatternList (patterns : list string) (toolName : string) : bool :=
  existsb (fun pattern => grantMatchesTool pattern toolName) patterns.

Definition matchesStringPatternList (patterns : list string) (value : string) : bool :=
  let value := TrimSpace value in
  existsb (fun pattern => let pattern := TrimSpace pattern in String.eqb pattern "*" || String.eqb pattern value) patterns.

Definition hasAllPermissions (granted required : list string) : bool :=
  forallb (fun permissionKey => contains granted (TrimSpace permissionKey)) required.

(** ** Resource scopes *)

Record gatewayScopeAlias := { alias_key : string; alias_names : list string }.

Definition gatewayScopeAliases : list gatewayScopeAlias := [
  {| alias_key := "businessLineId"; alias_names := ["businessLineId"; "businessLineID"; "businessLine"; "businessLineIds"; "businessLineIDs"] |};
  {| alias_key := "applicationId"; alias_names := ["applicationId"; "applicationID"; "application"; "applicationIds"; "applicationIDs"] |};
  {| alias_key := "applicationEnvironmentId"; alias_names := ["applicationEnvironmentId"; "applicationEnvironmentID";
       "applicationEnvironment"; "applicationEnvironmentIds"; "applicationEnvironmentIDs"; "bindingId"; "bindingID"] |};
  {| alias_key := "environmentId"; alias_names := ["environmentId"; "environmentID"; "environment"; "environmentIds"; "environmentIDs"] |};
  {| alias_key := "clusterId"; alias_names := ["clusterId"; "clusterID"; "cluster"; "clusterIds"; "clusterIDs"] |};
  {| alias_key := "namespace"; alias_names := ["namespace"; "namespaces"] |};
  {| alias_key := "releaseBundleId"; alias_names := ["releaseBundleId"; "releaseBundleID"; "releaseBundle"; "releaseBundleIds";
       "releaseBundleIDs"; "bundleId"; "bundleID"] |};
  {| alias_key := "executionTaskId"; alias_names := ["executionTaskId"; "executionTaskID"; "executionTask"; "executionTaskIds";
       "executionTaskIDs"; "taskId"; "taskID"] |};
  {| alias_key := "runtimeId"; alias_names := ["runtimeId"; "runtimeID"] |};
  {| alias_key := "enrollmentId"; alias_names := ["enrollmentId"; "enrollmentID"] |};
  {| alias_key := "deviceId"; alias_names := ["deviceId"; "deviceID"] |};
  {| alias_key := "subjectUserId"; alias_names := ["subjectUserId"; "subjectUserID"; "subjectId"; "subjectID"] |};
  {| alias_key := "siteId"; alias_names := ["siteId"; "siteID"] |};
  {| alias_key := "networkResourceId"; alias_names := ["networkResourceId"; "networkResourceID"; "resourceId"; "resourceID"] |};
  {| alias_key := "hostId"; alias_names := ["hostId"; "dockerHostId"; "dockerHost"] |};
  {| alias_key := "projectId"; alias_names := ["projectId"; "dockerProject"] |};
  {| alias_key := "serviceId"; alias_names := ["serviceId"; "dockerService"] |};
  {| alias_key := "connectionId"; alias_names := ["connectionId"; "virtualizationConnectionId"; "virtualizationConnection"] |};
  {| alias_key := "vmId"; alias_names := ["vmId"; "vmID"; "virtualMachine"] |};
  {| alias_key := "operationId"; alias_names := ["operationId"; "dockerOperation"; "afterOperationId"] |}
].

Definition known_alias (name : string) : bool := existsb (fun item => contains (alias_names item) name) gatewayScopeAliases.

Definition gatewayPolicyScopeAliases `{MapRange} (scopes : go_map) : list gatewayScopeAlias :=
  gatewayScopeAliases ++
  ((fun key => {| alias_key := key; alias_names := [key] |}) <$>
   filter (fun key => known_alias key = false) (range_keys (dom scopes))).

Definition gatewayResourceScopeValues (values : go_map) (aliases : list string) : list string :=
  normalizeStringSlice (alias ← aliases; match values !! alias with Some raw => stringsFromAny raw | None => [] end).

Definition gatewayScopeValueAllowed (allowedValues : list string) (requestedValue : string) : bool :=
  let requestedValue := TrimSpace requestedValue in
  existsb (fun allowed => let allowed := TrimSpace allowed in String.eqb allowed "*" || String.eqb allowed requestedValue) allowedValues.

(** The loop over the dimensions, with whether one constrained the call so far. *)
Fixpoint scope_dimensions (resourceScopes : go_map) (invocationScope : gmap string string) (hasConstraint : bool)
    (items : list gatewayScopeAlias) : bool :=
  match items with
  | [] => hasConstraint
  | item :: items =>
      let allowedValues := gatewayResourceScopeValues resourceScopes (alias_names item) in
      if is_empty allowedValues then scope_dimensions resourceScopes invocationScope hasConstraint items
      else
        let requestedValue := TrimSpace (lookup_default "" invocationScope (alias_key item)) in
        if str_empty requestedValue then false
        else if negb (gatewayScopeValueAllowed allowedValues requestedValue) then false
        else scope_dimensions resourceScopes invocationScope true items
  end.

Definition gatewayResourceScopeMatches `{MapRange} (resourceScopes : go_map) (invocationScope : gmap string string) : bool :=
  if bool_decide (resourceScopes = ∅) then true
  else scope_dimensions resourceScopes invocationScope false (gatewayPolicyScopeAliases resourceScopes).

Definition gatewayResourceScopesConstrained `{MapRange} (resourceScopes : go_map) : bool :=
  negb (bool_decide (resourceScopes = ∅)) &&
  existsb (fun item => existsb (fun value => let value := TrimSpace value in negb (str_empty value) && negb (String.eqb value "*"))
    (gatewayResourceScopeValues resourceScopes (alias_names item))) (gatewayPolicyScopeAliases resourceScopes).

(** ** Risk strategies *)

Definition gatewayRiskAllow : string := "allow".
Definition gatewayRiskDeny : string := "deny".
Definition gatewayRiskRequireApproval : string := "require_approval".
Definition gatewayRiskRequireHumanConfirm : string := "require_human_confirm".
Definition gatewayRiskDryRunOnly : string := "dry_run_only".

Definition parseGatewayRiskStrategy (value : string) : option string :=
  let normalized := underscored value in
  if contains [""; "none"; "not_required"] normalized then Some ""
  else if contains ["allow"; "direct"; "execute"] normalized then Some gatewayRiskAllow
  else if contains ["deny"; "block"; "blocked"; "forbid"; "forbidden"] normalized then Some gatewayRiskDeny
  else if contains ["require_approval"; "required"; "approval_required"; "approval"; "pending_approval"] normalized
  then Some gatewayRiskRequireApproval
  else if contains ["require_human_confirm"; "human_confirm"; "human_confirmation"; "confirm"; "confirmation_required";
                    "pending_human_confirm"] normalized then Some gatewayRiskRequireHumanConfirm
  else if contains ["dry_run_only"; "dry_run"; "dryrun"; "preview_only"] normalized then Some gatewayRiskDryRunOnly
  else None.

Definition strategy_keys : list string := ["strategy"; "mode"; "action"; "approval"; "state"].

(** The strategy that the flags of an approval policy ask for. *)
Definition flag_strategy (policy : go_map) : option string :=
  if boolFromAny (get policy "dryRunOnly") then Some gatewayRiskDryRunOnly
  else if boolFromAny (get policy "requiresHumanConfirm") || boolFromAny (get policy "humanConfirmRequired")
  then Some gatewayRiskRequireHumanConfirm
  else if boolFromAny (get policy "requiresApproval") then Some gatewayRiskRequireApproval
  else None.

Fixpoint strategy_of_keys (policy : go_map) (keys : list string) : option string :=
  match keys with
  | [] => None
  | key :: keys =>
      match policy !! key with
      | None => strategy_of_keys policy keys
      | Some raw =>
          match parseGatewayRiskStrategy (Sprint raw) with
          | Some strategy => Some strategy
          | None => strategy_of_keys policy keys
          end
      end
  end.

Definition approvalPolicyRiskStrategy (policy : go_map) : option string :=
  if bool_decide (policy = ∅) then None
  else match strategy_of_keys policy strategy_keys with
  | Some strategy => Some strategy
  | None => flag_strategy policy
  end.

Fixpoint first_printed (policy : go_map) (keys : list string) : string :=
  match keys with
  | [] => ""
  | key :: keys =>
      let value := TrimSpace (Sprint (get policy key)) in
      if negb (str_empty value) && negb (String.eqb value "<nil>") then value else first_printed policy keys
  end.

Definition approvalPolicyRef (policy : go_map) : string := first_printed policy ["approvalPolicyRef"; "policyRef"; "policyKey"].

(** Secrets in free text are found by a regular expression. *)
Class SensitiveText := { redactSensitiveText : string -> string }.

Definition gatewaySensitiveKey (key : string) : bool :=
  let normalized := ToLower (TrimSpace key) in
  existsb (str_contains normalized) ["token"; "password"; "passwd"; "secret"; "credential"; "apikey"; "api_key"; "authorization";
    "kubeconfig"; "envvar"; "environmentvariable"] ||
  String.eqb normalized "env" || HasPrefix normalized "env_".

Fixpoint sanitizeGatewayValue `{SensitiveText} (value : any) : any :=
  let sanitize_map (m : go_map) :=
    map_imap (fun key x => Some (if gatewaySensitiveKey key then AString "[REDACTED]" else sanitizeGatewayValue x)) m in
  match value with
  | AMap m => AMap (sanitize_map m)
  | AList l => AList (sanitizeGatewayValue <$> l)
  | AMaps l => AMaps (sanitize_map <$> l)
  | AString s => AString (redactSensitiveText s)
  | _ => value
  end.

Definition sanitizeGatewayMap `{SensitiveText} (values : go_map) : go_map :=
  match sanitizeGatewayValue (AMap values) with AMap m => m | _ => ∅ end.

Record gatewayRiskDecision := {
  Risk_Strategy : string;
  Risk_PolicyID : string;
  Risk_ApprovalPolicyRef : string;
  Risk_Reason : string;
  Risk_ApprovalPolicy : go_map
}.

Definition no_decision : gatewayRiskDecision :=
  {| Risk_Strategy := ""; Risk_PolicyID := ""; Risk_ApprovalPolicyRef := ""; Risk_Reason := "";
     Risk_ApprovalPolicy := ∅ |}.

Definition risk_decision (strategy reason : string) : gatewayRiskDecision :=
  {| Risk_Strategy := strategy; Risk_PolicyID := ""; Risk_ApprovalPolicyRef := ""; Risk_Reason := reason;
     Risk_ApprovalPolicy := ∅ |}.

Definition gatewayRiskDecisionForTool (tool : ToolCapability) : gatewayRiskDecision :=
  if ToolCapability_RequiresApproval tool then risk_decision gatewayRiskRequireApproval "tool catalog requires approval"
  else risk_decision gatewayRiskAllow "".

Definition gatewayRiskStrictness (strategy : string) : Z :=
  if String.eqb strategy gatewayRiskDeny then 5
  else if String.eqb strategy gatewayRiskDryRunOnly then 4
  else if String.eqb strategy gatewayRiskRequireApproval then 3
  else if String.eqb strategy gatewayRiskRequireHumanConfirm then 2
  else if String.eqb strategy gatewayRiskAllow then 1
  else 0.

Definition mergeGatewayRiskDecision (current next : gatewayRiskDecision) : gatewayRiskDecision :=
  if str_empty (Risk_Strategy next) then current
  else if str_empty (Risk_Strategy current) ||
          (gatewayRiskStrictness (Risk_Strategy current) <=? gatewayRiskStrictness (Risk_Strategy next))%Z
  then next else current.

Definition requiresApproval (d : gatewayRiskDecision) : bool :=
  contains [gatewayRiskRequireApproval; gatewayRiskRequireHumanConfirm] (Risk_Strategy d).

Definition shouldHoldExecution (d : gatewayRiskDecision) : bool :=
  contains [gatewayRiskRequireApproval; gatewayRiskRequireHumanConfirm; gatewayRiskDryRunOnly] (Risk_Strategy d).

Definition accessPolicyRiskDecision `{SensitiveText} (policy : AccessPolicy) : gatewayRiskDecision :=
  match approvalPolicyRiskStrategy (AccessPolicy_ApprovalPolicy policy) with
  | None => no_decision
  | Some strategy =>
      {| Risk_Strategy := strategy; Risk_PolicyID := AccessPolicy_ID policy;
         Risk_ApprovalPolicyRef := approvalPolicyRef (AccessPolicy_ApprovalPolicy policy);
         Risk_Reason := "matched access policy " +:+ AccessPolicy_ID policy;
         Risk_ApprovalPolicy := sanitizeGatewayMap (AccessPolicy_ApprovalPolicy policy) |}
  end.

(** ** Tool grants *)

(** Whether the scopes of a grant or policy fit; without an invocation (in
    listings) they are not looked at. *)
Definition scope_fits `{MapRange} (invocation : option (gmap string string)) (resourceScopes : go_map) : bool :=
  match invocation with
  | None => true
  | Some invocationScope => gatewayResourceScopeMatches resourceScopes invocationScope
  end.

(** What the loop over the allow grants has seen. *)
Record grant_scan := {
  hasAllowGrant : bool;
  matchedAllowGrant : bool;
  matchedAllowNeedsPermission : bool;
  matchedAllowScopeMismatch : bool;
  grantRequiresApproval : bool
}.

Definition scan_grant `{MapRange} (toolName : string) (permissionKeys : list string) (invocation : option (gmap string string))
    (seen : grant_scan) (grant : ToolGrant) : grant_scan :=
  if negb (String.eqb (grantEffect (ToolGrant_Effect grant)) "allow") then seen
  else if negb (grantMatchesTool (ToolGrant_ToolName grant) toolName) then
    {| hasAllowGrant := true; matchedAllowGrant := matchedAllowGrant seen;
       matchedAllowNeedsPermission := matchedAllowNeedsPermission seen;
       matchedAllowScopeMismatch := matchedAllowScopeMismatch seen; grantRequiresApproval := grantRequiresApproval seen |}
  else if negb (scope_fits invocation (ToolGrant_ResourceScopes grant)) then
    {| hasAllowGrant := true; matchedAllowGrant := matchedAllowGrant seen;
       matchedAllowNeedsPermission := matchedAllowNeedsPermission seen;
       matchedAllowScopeMismatch := true; grantRequiresApproval := grantRequiresApproval seen |}
  else if hasAllPermissions permissionKeys (ToolGrant_PermissionKeys grant) then
    {| hasAllowGrant := true; matchedAllowGrant := true; matchedAllowNeedsPermission := matchedAllowNeedsPermission seen;
       matchedAllowScopeMismatch := matchedAllowScopeMismatch seen;
       grantRequiresApproval := ToolGrant_RequiresApproval grant || grantRequiresApproval seen |}
  else
    {| hasAllowGrant := true; matchedAllowGrant := matchedAllowGrant seen; matchedAllowNeedsPermission := true;
       matchedAllowScopeMismatch := matchedAllowScopeMismatch seen; grantRequiresApproval := grantRequiresApproval seen |}.

Definition denying_grant `{MapRange} (toolName : string) (invocation : option (gmap string string)) (grant : ToolGrant) : bool :=
  String.eqb (grantEffect (ToolGrant_Effect grant)) "deny" && grantMatchesTool (ToolGrant_ToolName grant) toolName &&
  scope_fits invocation (ToolGrant_ResourceScopes grant).

Definition evaluate_grants `{MapRange} (tool : ToolCapability) (grants : list ToolGrant) (permissionKeys : list string)
    (invocation : option (gmap string string)) : bool * bool * string :=
  let seen := fold_left (scan_grant (ToolCapability_Name tool) permissionKeys invocation) grants
    {| hasAllowGrant := false; matchedAllowGrant := false; matchedAllowNeedsPermission := false;
       matchedAllowScopeMismatch := false; grantRequiresApproval := false |} in
  match find_first (denying_grant (ToolCapability_Name tool) invocation) grants with
  | Some grant => (false, grantRequiresApproval seen, "matched deny grant " +:+ ToolGrant_ID grant)
  | None =>
      if hasAllowGrant seen && negb (matchedAllowGrant seen) then
        (false, grantRequiresApproval seen,
         if matchedAllowNeedsPermission seen then "matching allow grant requires permissions not granted to the subject"
         else if matchedAllowScopeMismatch seen then "matching allow grant does not allow the requested resource scope"
         else "no matching allow grant")
      else (true, grantRequiresApproval seen, "")
  end.

Definition toolAllowedByGrants `{MapRange} (tool : ToolCapability) (grants : list ToolGrant) (permissionKeys : list string)
    : bool * bool * string :=
  evaluate_grants tool grants permissionKeys None.

Definition toolAllowedByGrantsForInvocation `{MapRange} (tool : ToolCapability) (grants : list ToolGrant)
    (permissionKeys : list string) (invocationScope : gmap string string) : bool * bool * string :=
  evaluate_grants tool grants permissionKeys (Some invocationScope).

(** ** Access policies *)

Definition skillByIDFrom (id : string) (skills : list SkillCapability) : option SkillCapability :=
  find_first (fun item => String.eqb (SkillCapability_ID item) (TrimSpace id)) skills.

Fixpoint toolInAnySkillWithSkills (skillIDs : list string) (toolName : string) (knownSkills : list SkillCapability) : bool :=
  match skillIDs with
  | [] => false
  | skillID :: skillIDs =>
      let skillID := TrimSpace skillID in
      if str_empty skillID then toolInAnySkillWithSkills skillIDs toolName knownSkills
      else if String.eqb skillID "*" then true
      else match skillByIDFrom skillID knownSkills with
      | None => toolInAnySkillWithSkills skillIDs toolName knownSkills
      | Some skill =>
          if matchesToolPatternList (SkillCapability_CapabilityRefs skill) toolName then true
          else toolInAnySkillWithSkills skillIDs toolName knownSkills
      end
  end.

Definition policyHasNoSelectors (policy : AccessPolicy) : bool :=
  is_empty (AccessPolicy_ToolPatterns policy) && is_empty (AccessPolicy_RiskLevels policy) && is_empty (AccessPolicy_SkillIDs policy).

Definition accessPolicyToolSelectorsMatchWithSkills (policy : AccessPolicy) (tool : ToolCapability) (skillID : string)
    (knownSkills : list SkillCapability) : bool :=
  let name := ToolCapability_Name tool in
  if negb (is_empty (AccessPolicy_ToolPatterns policy)) && negb (matchesToolPatternList (AccessPolicy_ToolPatterns policy) name) then false
  else if negb (is_empty (AccessPolicy_RiskLevels policy)) && negb (contains (AccessPolicy_RiskLevels policy) (ToolCapability_RiskLevel tool))
  then false
  else if negb (is_empty (AccessPolicy_SkillIDs policy)) then
    let skillID := TrimSpace skillID in
    if negb (str_empty skillID) then matchesStringPatternList (AccessPolicy_SkillIDs policy) skillID
    else toolInAnySkillWithSkills (AccessPolicy_SkillIDs policy) name knownSkills
  else negb (is_empty (AccessPolicy_ToolPatterns policy)) || negb (is_empty (AccessPolicy_RiskLevels policy)) ||
       negb (is_empty (AccessPolicy_SkillIDs policy)) || policyHasNoSelectors policy.

Record policyEvaluationContext := {
  eval_Tool : ToolCapability;
  eval_SkillID : string;
  eval_InvocationScope : option (gmap string string);
  eval_skills : list SkillCapability
}.

Definition policy_selected (c : policyEvaluationContext) (effect : string) (policy : AccessPolicy) : bool :=
  String.eqb (grantEffect (AccessPolicy_Effect policy)) effect &&
  accessPolicyToolSelectorsMatchWithSkills policy (eval_Tool c) (eval_SkillID c) (eval_skills c).

(** The second loop: allow policies in their order, with whether one matched,
    whether one was out of scope, and the decision so far. *)
Fixpoint allow_policies `{MapRange, SensitiveText} (c : policyEvaluationContext) (policies : list AccessPolicy)
    (matched mismatch : bool) (decision : gatewayRiskDecision) : (bool * bool * gatewayRiskDecision) + string * gatewayRiskDecision :=
  match policies with
  | [] => inl (matched, mismatch, decision)
  | policy :: policies =>
      if negb (policy_selected c "allow" policy) then allow_policies c policies matched mismatch decision
      else if negb (scope_fits (eval_InvocationScope c) (AccessPolicy_ResourceScopes policy))
      then allow_policies c policies matched true decision
      else
        let policyDecision := accessPolicyRiskDecision policy in
        if String.eqb (Risk_Strategy policyDecision) gatewayRiskDeny
        then inr ("matched deny strategy policy " +:+ AccessPolicy_ID policy, decision)
        else allow_policies c policies true mismatch (mergeGatewayRiskDecision decision policyDecision)
  end.

Definition denying_policy `{MapRange} (c : policyEvaluationContext) (policy : AccessPolicy) : bool :=
  policy_selected c "deny" policy && scope_fits (eval_InvocationScope c) (AccessPolicy_ResourceScopes policy).

Definition evaluateToolAccessPolicies `{MapRange, SensitiveText} (c : policyEvaluationContext) (policies : list AccessPolicy)
    : bool * gatewayRiskDecision * string :=
  match find_first (denying_policy c) policies with
  | Some policy => (false, no_decision, "matched deny policy " +:+ AccessPolicy_ID policy)
  | None =>
      match allow_policies c policies false false no_decision with
      | inr (reason, decision) => (false, decision, reason)
      | inl (matched, mismatch, decision) =>
          if existsb (fun policy => String.eqb (grantEffect (AccessPolicy_Effect policy)) "allow") policies && negb matched
          then (false, decision,
                if bool_decide (is_Some (eval_InvocationScope c)) && mismatch
                then "matching allow policy does not allow the requested resource scope"
                else "no matching allow policy")
          else (true, decision, "")
      end
  end.

Definition toolAllowedByAccessPoliciesWithSkills `{MapRange, SensitiveText} (tool : ToolCapability) (policies : list AccessPolicy)
    (skillID : string) (knownSkills : list SkillCapability) : bool * gatewayRiskDecision * string :=
  evaluateToolAccessPolicies {| eval_Tool := tool; eval_SkillID := skillID; eval_InvocationScope := None; eval_skills := knownSkills |} policies.

Definition toolAllowedByAccessPoliciesForInvocationWithSkills `{MapRange, SensitiveText} (tool : ToolCapability)
    (policies : list AccessPolicy) (skillID : string) (invocationScope : gmap string string) (knownSkills : list SkillCapability)
    : bool * gatewayRiskDecision * string :=
  evaluateToolAccessPolicies {| eval_Tool := tool; eval_SkillID := skillID; eval_InvocationScope := Some invocationScope;
    eval_skills := knownSkills |} policies.

Definition skillAllowedByAccessPolicies (skill : SkillCapability) (policies : list AccessPolicy) : bool * string :=
  let with_skills := filter (fun policy => AccessPolicy_SkillIDs policy <> []) policies in
  let matches effect policy := String.eqb (grantEffect (AccessPolicy_Effect policy)) effect &&
    matchesStringPatternList (AccessPolicy_SkillIDs policy) (SkillCapability_ID skill) in
  match find_first (matches "deny") with_skills with
  | Some policy => (false, "matched deny policy " +:+ AccessPolicy_ID policy)
  | None =>
      if existsb (fun policy => String.eqb (grantEffect (AccessPolicy_Effect policy)) "allow") with_skills &&
         negb (existsb (matches "allow") with_skills)
      then (false, "no matching allow policy")
      else (true, "")
  end.

(** ** Skill bindings *)

Definition binding_refs (knownSkills : list SkillCapability) (binding : SkillBinding) : list string :=
  let refs := normalizeStringSlice (SkillBinding_CapabilityRefs binding) in
  if is_empty refs then
    match skillByIDFrom (SkillBinding_SkillID binding) knownSkills with
    | Some skill => normalizeStringSlice (SkillCapability_CapabilityRefs skill)
    | None => refs
    end
  else refs.

Definition skillBindingRefsWithSkills (bindings : list SkillBinding) (skillID : string) (knownSkills : list SkillCapability)
    : gmap string (list string) :=
  let skillID := TrimSpace skillID in
  fold_left (fun out binding =>
    let bindingSkillID := TrimSpace (SkillBinding_SkillID binding) in
    if negb (SkillBinding_Enabled binding) then out
    else if str_empty bindingSkillID || (negb (str_empty skillID) && negb (String.eqb bindingSkillID skillID)) then out
    else <[bindingSkillID := normalizeStringSlice (lookup_default [] out bindingSkillID ++ binding_refs knownSkills binding)]> out)
    bindings ∅.

Definition allowedCapabilityRefsForBindingsWithSkills `{MapRange} (bindings : list SkillBinding) (skillID : string)
    (knownSkills : list SkillCapability) : list string :=
  let refsBySkill := skillBindingRefsWithSkills bindings skillID knownSkills in
  normalizeStringSlice (skill ← range_keys (dom refsBySkill); lookup_default [] refsBySkill skill).

Definition toolAllowedBySkillBindingsWithSkills `{MapRange} (tool : ToolCapability) (bindings : list SkillBinding) (skillID : string)
    (knownSkills : list SkillCapability) : bool * string :=
  let allowedRefs := allowedCapabilityRefsForBindingsWithSkills bindings skillID knownSkills in
  if is_empty allowedRefs
  then (false, if negb (blank skillID) then "skill is not bound" else "no capabilities are bound")
  else if matchesToolPatternList allowedRefs (ToolCapability_Name tool) then (true, "")
  else (false, if negb (blank skillID) then "tool is outside bound skill capabilities" else "tool is outside bound capability refs").

Definition capabilityRefsAllowedBySkillBindingsWithSkills `{MapRange} (capabilityRefs : list string) (bindings : list SkillBinding)
    (skillID : string) (knownSkills : list SkillCapability) : bool :=
  let allowedRefs := allowedCapabilityRefsForBindingsWithSkills bindings skillID knownSkills in
  if is_empty allowedRefs || is_empty capabilityRefs then false
  else existsb (matchesToolPatternList allowedRefs) capabilityRefs.

(** The filters of the manifest keep items and count the others. *)
Definition keep_count {A} (keep : A -> option A) (items : list A) : list A * nat :=
  (omap keep items, length (filter (fun item => keep item = None) items)).

Definition set_tool_approval (required : bool) (tool : ToolCapability) : ToolCapability :=
  {| ToolCapability_Name := ToolCapability_Name tool; ToolCapability_Title := ToolCapability_Title tool;
     ToolCapability_Description := ToolCapability_Description tool; ToolCapability_Domain := ToolCapability_Domain tool;
     ToolCapability_Action := ToolCapability_Action tool; ToolCapability_RiskLevel := ToolCapability_RiskLevel tool;
     ToolCapability_PermissionKeys := ToolCapability_PermissionKeys tool;
     ToolCapability_RequiredScopes := ToolCapability_RequiredScopes tool; ToolCapability_MCPAdapterID := ToolCapability_MCPAdapterID tool;
     ToolCapability_MCPToolName := ToolCapability_MCPToolName tool; ToolCapability_RequiresApproval := required;
     ToolCapability_InputSchema := ToolCapability_InputSchema tool; ToolCapability_OutputSchema := ToolCapability_OutputSchema tool;
     ToolCapability_Version := ToolCapability_Version tool; ToolCapability_Execution := ToolCapability_Execution tool;
     ToolCapability_InputSemantics := ToolCapability_InputSemantics tool; ToolCapability_OutputSemantics := ToolCapability_OutputSemantics tool;
     ToolCapability_Effects := ToolCapability_Effects tool; ToolCapability_ProducesAssessment := ToolCapability_ProducesAssessment tool |}.

Definition set_skill_refs (refs : list string) (skill : SkillCapability) : SkillCapability :=
  {| SkillCapability_ID := SkillCapability_ID skill; SkillCapability_Name := SkillCapability_Name skill;
     SkillCapability_Category := SkillCapability_Category skill; SkillCapability_Description := SkillCapability_Description skill;
     SkillCapability_CapabilityRefs := refs; SkillCapability_PermissionKeys := SkillCapability_PermissionKeys skill;
     SkillCapability_RequiredScopes := SkillCapability_RequiredScopes skill |}.

Definition filterTools (items : list ToolCapability) (permissionKeys : list string) : list ToolCapability * nat :=
  keep_count (fun item => if hasAllPermissions permissionKeys (ToolCapability_PermissionKeys item) then Some item else None) items.

Definition filterResources (items : list ResourceCapability) (permissionKeys : list string) : list ResourceCapability * nat :=
  keep_count (fun item => if hasAllPermissions permissionKeys (ResourceCapability_PermissionKeys item) then Some item else None) items.

Definition filterPrompts (items : list PromptCapability) (permissionKeys : list string) : list PromptCapability * nat :=
  keep_count (fun item => if hasAllPermissions permissionKeys (PromptCapability_PermissionKeys item) then Some item else None) items.

Definition filterSkills (items : list SkillCapability) (permissionKeys : list string) : list SkillCapability * nat :=
  keep_count (fun item => if hasAllPermissions permissionKeys (SkillCapability_PermissionKeys item) then Some item else None) items.

Definition filterToolsByGrants `{MapRange} (grants : list ToolGrant) (tools : list ToolCapability) (permissionKeys : list string)
    : list ToolCapability * nat :=
  if is_empty grants then (tools, 0)
  else keep_count (fun tool =>
    let '(allowed, requiresApproval, _) := toolAllowedByGrants tool grants permissionKeys in
    if allowed : bool then Some (if requiresApproval : bool then set_tool_approval true tool else tool) else None) tools.

Definition filterToolsByAccessPolicies `{MapRange, SensitiveText} (policies : list AccessPolicy) (skillID : string)
    (knownSkills : list SkillCapability) (tools : list ToolCapability) : list ToolCapability * nat :=
  if is_empty policies then (tools, 0)
  else keep_count (fun tool =>
    let '(allowed, decision, _) := toolAllowedByAccessPoliciesWithSkills tool policies skillID knownSkills in
    if allowed : bool
    then Some (if str_empty (Risk_Strategy decision) then tool else set_tool_approval (requiresApproval decision) tool)
    else None) tools.

Definition filterSkillsByAccessPolicies (policies : list AccessPolicy) (skills : list SkillCapability) : list SkillCapability * nat :=
  if is_empty policies then (skills, 0)
  else keep_count (fun skill => if fst (skillAllowedByAccessPolicies skill policies) then Some skill else None) skills.

Definition filterSkillsByBindingsWithSkills (skills : list SkillCapability) (bindings : list SkillBinding)
    (knownSkills : list SkillCapability) : list SkillCapability * nat :=
  if is_empty bindings then (skills, 0)
  else
    let bindingRefs := skillBindingRefsWithSkills bindings "" knownSkills in
    keep_count (fun skill =>
      match bindingRefs !! SkillCapability_ID skill with
      | None => None
      | Some refs =>
          Some (if is_empty refs then skill
                else set_skill_refs (intersectStringSlices (SkillCapability_CapabilityRefs skill) refs) skill)
      end) skills.

Definition filterToolsBySkillBindingsWithSkills `{MapRange} (tools : list ToolCapability) (bindings : list SkillBinding)
    (skillID : string) (knownSkills : list SkillCapability) : list ToolCapability * nat :=
  if is_empty bindings then (tools, 0)
  else
    let allowedRefs := allowedCapabilityRefsForBindingsWithSkills bindings skillID knownSkills in
    keep_count (fun tool => if matchesToolPatternList allowedRefs (ToolCapability_Name tool) then Some tool else None) tools.

Definition filterToolRefsBySkillBindingsWithSkills `{MapRange} (refs : list string) (bindings : list SkillBinding)
    (skillID : string) (knownSkills : list SkillCapability) : list string :=
  if is_empty bindings then refs
  else
    let allowedRefs := allowedCapabilityRefsForBindingsWithSkills bindings skillID knownSkills in
    filter (fun ref => matchesToolPatternList allowedRefs ref = true) refs.

Definition filterSkillRefsByBindingsWithSkills (refs : list string) (bindings : list SkillBinding) (skillID : string)
    (knownSkills : list SkillCapability) : list string :=
  if is_empty bindings then refs
  else filter (fun ref => is_Some (skillBindingRefsWithSkills bindings skillID knownSkills !! ref)) refs.

(** ** Subjects *)

Definition gatewaySubject (principal : Principal) : string * string :=
  let userID := TrimSpace (Principal_UserID principal) in
  if HasPrefix userID "service_account:" then ("service_account", TrimPrefix userID "service_account:") else ("user", userID).

(** The subjects whose items apply to a principal. *)
Definition gateway_subjects (principal : Principal) (aiClientID : string) : list (string * string) :=
  let aiClientID := TrimSpace aiClientID in
  [gatewaySubject principal] ++ ((fun role => ("role", role)) <$> Principal_Roles principal) ++
  ((fun team => ("team", team)) <$> Principal_Teams principal) ++
  (if str_empty aiClientID then [] else [("ai_client", aiClientID)]).

(** The items listed for each subject, the first of each identifier. *)
Fixpoint active_items {T} (list_items : string -> string -> string -> result (list T)) (itemID : T -> string) (aiClientID : string)
    (subjects : list (string * string)) (out : list T) (seen : gset string) : result (list T) :=
  match subjects with
  | [] => Ok out
  | (typeName, id) :: subjects =>
      let typeName := normalizeSubjectType typeName in
      let id := TrimSpace id in
      if str_empty typeName || str_empty id then active_items list_items itemID aiClientID subjects out seen
      else
        let* items := list_items typeName id aiClientID in
        let '(out, seen) := fold_left (fun '(out, seen) item =>
          if bool_decide (itemID item ∈ seen) then (out, seen) else (out ++ [item], {[itemID item]} ∪ seen)) items (out, seen) in
        active_items list_items itemID aiClientID subjects out seen
  end.

Definition activeItemsForPrincipal {T} (principal : Principal) (aiClientID : string)
    (list_items : string -> string -> string -> result (list T)) (itemID : T -> string) : result (list T) :=
  active_items list_items itemID (TrimSpace aiClientID) (gateway_subjects principal aiClientID) [] ∅.

(** ** Construction of stored items *)

Definition invalid (text : string) : error := errorf ErrInvalidArgument text.

Definition subject_types : list string := ["user"; "service_account"; "role"; "team"; "ai_client"].

Fixpoint collect_risk_levels (values out : list string) : result (list string) :=
  match values with
  | [] => Ok out
  | value :: values =>
      let value := TrimSpace value in
      if str_empty value then collect_risk_levels values out
      else if negb (validRiskLevel value) then Err (invalid ("invalid riskLevel " +:+ value))
      else if contains out value then collect_risk_levels values out
      else collect_risk_levels values (out ++ [value])
  end.

Definition normalizeRiskLevels (values : list string) : result (list string) :=
  let* out := collect_risk_levels values [] in Ok (sort_strings out).

(** The first strategy key that is set decides. *)
Fixpoint normalize_keys (out : go_map) (keys : list string) : option (result go_map) :=
  match keys with
  | [] => None
  | key :: keys =>
      match out !! key with
      | None => normalize_keys out keys
      | Some raw =>
          if blank (Sprint raw) then normalize_keys out keys
          else match parseGatewayRiskStrategy (Sprint raw) with
          | None => Some (Err (invalid ("invalid approval strategy " +:+ Sprint raw)))
          | Some strategy => Some (Ok (if str_empty strategy then out else <["strategy" := AString strategy]> out))
          end
      end
  end.

Definition normalizeApprovalPolicy (value : go_map) : result go_map :=
  match normalize_keys value strategy_keys with
  | Some r => r
  | None =>
      match flag_strategy value with
      | Some strategy => Ok (<["strategy" := AString strategy]> value)
      | None => Ok value
      end
  end.

Definition check_subject (subjectType subjectID : string) : option error :=
  if negb (validStatus (normalizeSubjectType subjectType) subject_types)
  then Some (invalid "subjectType must be user, service_account, role, team, or ai_client")
  else if blank subjectID then Some (invalid "subjectId is required")
  else None.

(** [uuid] and [now] are the identifier and the time that the call reads. *)
Definition buildToolGrantWithToolLookup (uuid : string) (now : Z) (principal : Principal) (input : ToolGrantInput)
    (lookup : option (string -> option ToolCapability)) : result ToolGrant :=
  match check_subject (ToolGrantInput_SubjectType input) (ToolGrantInput_SubjectID input) with
  | Some e => Err e
  | None =>
  let toolName := TrimSpace (ToolGrantInput_ToolName input) in
  if str_empty toolName then Err (invalid "toolName is required")
  else if negb (validStatus (grantEffect (ToolGrantInput_Effect input)) ["allow"; "deny"]) then Err (invalid "effect must be allow or deny")
  else
  let exactTool := lookup ← lookup; lookup toolName in
  let riskLevel := match exactTool with
    | Some tool => if str_empty (ToolGrantInput_RiskLevel input) then ToolCapability_RiskLevel tool else ToolGrantInput_RiskLevel input
    | None => ToolGrantInput_RiskLevel input
    end in
  let required := match exactTool with
    | Some tool => ToolCapability_RequiresApproval tool || ToolGrantInput_RequiresApproval input
    | None => ToolGrantInput_RequiresApproval input
    end in
  let riskLevel := if str_empty riskLevel then RiskLevelRead else riskLevel in
  if negb (validRiskLevel riskLevel) then Err (invalid "invalid riskLevel")
  else Ok {| ToolGrant_ID := uuid; ToolGrant_SubjectType := normalizeSubjectType (ToolGrantInput_SubjectType input);
    ToolGrant_SubjectID := TrimSpace (ToolGrantInput_SubjectID input); ToolGrant_AIClientID := TrimSpace (ToolGrantInput_AIClientID input);
    ToolGrant_ToolName := toolName; ToolGrant_Effect := grantEffect (ToolGrantInput_Effect input); ToolGrant_RiskLevel := riskLevel;
    ToolGrant_PermissionKeys := normalizeStringSlice (ToolGrantInput_PermissionKeys input);
    ToolGrant_ResourceScopes := ToolGrantInput_ResourceScopes input; ToolGrant_RequiresApproval := required;
    ToolGrant_ExpiresAt := ToolGrantInput_ExpiresAt input; ToolGrant_CreatedBy := Principal_UserID principal;
    ToolGrant_CreatedAt := now; ToolGrant_UpdatedAt := now |}
  end.

Definition buildAccessPolicy (uuid : string) (now : Z) (principal : Principal) (input : AccessPolicyInput) (forcedID : string)
    : result AccessPolicy :=
  let id := if blank forcedID then uuid else TrimSpace forcedID in
  let name := TrimSpace (AccessPolicyInput_Name input) in
  if str_empty name then Err (invalid "policy name is required")
  else match check_subject (AccessPolicyInput_SubjectType input) (AccessPolicyInput_SubjectID input) with
  | Some e => Err e
  | None =>
  if negb (validStatus (grantEffect (AccessPolicyInput_Effect input)) ["allow"; "deny"]) then Err (invalid "effect must be allow or deny")
  else
  let* riskLevels := normalizeRiskLevels (AccessPolicyInput_RiskLevels input) in
  let* approvalPolicy := normalizeApprovalPolicy (AccessPolicyInput_ApprovalPolicy input) in
  Ok {| AccessPolicy_ID := id; AccessPolicy_Name := name; AccessPolicy_Description := TrimSpace (AccessPolicyInput_Description input);
    AccessPolicy_Enabled := default true (AccessPolicyInput_Enabled input);
    AccessPolicy_SubjectType := normalizeSubjectType (AccessPolicyInput_SubjectType input);
    AccessPolicy_SubjectID := TrimSpace (AccessPolicyInput_SubjectID input);
    AccessPolicy_AIClientID := TrimSpace (AccessPolicyInput_AIClientID input); AccessPolicy_Effect := grantEffect (AccessPolicyInput_Effect input);
    AccessPolicy_ToolPatterns := normalizeStringSlice (AccessPolicyInput_ToolPatterns input);
    AccessPolicy_SkillIDs := normalizeStringSlice (AccessPolicyInput_SkillIDs input);
    AccessPolicy_ResourceScopes := AccessPolicyInput_ResourceScopes input; AccessPolicy_RiskLevels := riskLevels;
    AccessPolicy_ApprovalPolicy := approvalPolicy; AccessPolicy_Conditions := AccessPolicyInput_Conditions input;
    AccessPolicy_CreatedBy := Principal_UserID principal; AccessPolicy_CreatedAt := now; AccessPolicy_UpdatedAt := now |}
  end.

Definition buildSkillBindingWithSkillLookup (uuid : string) (now : Z) (principal : Principal) (input : SkillBindingInput)
    (forcedID : string) (lookup : string -> option SkillCapability) : result SkillBinding :=
  let id := if blank forcedID then uuid else TrimSpace forcedID in
  match check_subject (SkillBindingInput_SubjectType input) (SkillBindingInput_SubjectID input) with
  | Some e => Err e
  | None =>
  let skillID := TrimSpace (SkillBindingInput_SkillID input) in
  if str_empty skillID then Err (invalid "skillId is required")
  else match lookup skillID with
  | None => Err (invalid ("unknown AI Gateway skill " +:+ skillID))
  | Some _ =>
  Ok {| SkillBinding_ID := id; SkillBinding_SubjectType := normalizeSubjectType (SkillBindingInput_SubjectType input);
    SkillBinding_SubjectID := TrimSpace (SkillBindingInput_SubjectID input); SkillBinding_AIClientID := TrimSpace (SkillBindingInput_AIClientID input);
    SkillBinding_SkillID := skillID; SkillBinding_CapabilityRefs := normalizeStringSlice (SkillBindingInput_CapabilityRefs input);
    SkillBinding_Enabled := default true (SkillBindingInput_Enabled input); SkillBinding_Metadata := SkillBindingInput_Metadata input;
    SkillBinding_CreatedBy := Principal_UserID principal; SkillBinding_CreatedAt := now; SkillBinding_UpdatedAt := now |}
  end end.

Definition normalizeAIClientStatus (value : string) : string :=
  let value := underscored value in if String.eqb value "approval_required" then "pending_approval" else value.

Definition validAIClientStatus (value : string) : bool := validStatus value ["active"; "disabled"; "pending"; "pending_approval"; "rejected"].

Definition aiClientRegistrationApprovalPending (client : AIClient) : bool :=
  let status := normalizeAIClientStatus (AIClient_Status client) in
  String.eqb status "pending" || String.eqb status "pending_approval" ||
  boolFromAny (get (AIClient_Metadata client) "registrationApprovalRequired") ||
  boolFromAny (get (AIClient_Metadata client) "requiresApproval").

Definition buildAIClient (uuid : string) (now : Z) (principal : Principal) (input : AIClientInput) (forcedID : string) : result AIClient :=
  let id := firstNonEmpty [forcedID; AIClientInput_ID input; uuid] in
  let name := TrimSpace (AIClientInput_Name input) in
  if str_empty name then Err (invalid "AI client name is required")
  else
  let kind := if blank (AIClientInput_Kind input) then "mcp_client" else TrimSpace (AIClientInput_Kind input) in
  let status := normalizeAIClientStatus (if blank (AIClientInput_Status input) then "active" else TrimSpace (AIClientInput_Status input)) in
  if negb (validAIClientStatus status)
  then Err (invalid "AI client status must be active, disabled, pending, pending_approval, or rejected")
  else Ok {| AIClient_ID := id; AIClient_Name := name; AIClient_Kind := kind; AIClient_Status := status;
    AIClient_RedirectURIs := normalizeStringSlice (AIClientInput_RedirectURIs input);
    AIClient_AllowedOrigins := normalizeStringSlice (AIClientInput_AllowedOrigins input); AIClient_Metadata := AIClientInput_Metadata input;
    AIClient_CreatedBy := Principal_UserID principal; AIClient_CreatedAt := now; AIClient_UpdatedAt := now |}.

(** ** Lemmas: resource scopes *)

(** The dimensions that the scopes of a policy can name. *)
Definition scope_dimension (scopes : go_map) (item : gatewayScopeAlias) : Prop :=
  item ∈ gatewayScopeAliases \/
  exists key, key ∈ dom scopes /\ known_alias key = false /\ item = {| alias_key := key; alias_names := [key] |}.

(** A dimension that the scopes constrain. *)
Definition constrains (scopes : go_map) (item : gatewayScopeAlias) : Prop :=
  scope_dimension scopes item /\ gatewayResourceScopeValues scopes (alias_names item) <> [].

(** The value an invocation gives to a dimension is allowed. *)
Definition admits (scopes : go_map) (invocation : gmap string string) (item : gatewayScopeAlias) : Prop :=
  let requested := TrimSpace (lookup_default "" invocation (alias_key item)) in
  requested <> "" /\ exists v, v ∈ gatewayResourceScopeValues scopes (alias_names item) /\ (v = "*" \/ v = requested).

Lemma elem_of_range_keys' `{MapRange} s x : x ∈ range_keys s <-> x ∈ s.
Proof. by rewrite (range_keys_perm s), elem_of_elements. Qed.

Lemma elem_of_policy_aliases `{MapRange} scopes item :
  item ∈ gatewayPolicyScopeAliases scopes <-> scope_dimension scopes item.
Proof.
  unfold gatewayPolicyScopeAliases, scope_dimension. rewrite elem_of_app, list_elem_of_fmap.
  setoid_rewrite list_elem_of_filter. setoid_rewrite elem_of_range_keys'. naive_solver.
Qed.

Lemma normalized_trimmed values x : x ∈ normalizeStringSlice values -> TrimSpace x = x /\ x <> "".
Proof. intros (v & _ & -> & Hne)%elem_of_normalizeStringSlice. split; [apply TrimSpace_idem|done]. Qed.

Lemma scope_value_allowed scopes names requested :
  gatewayScopeValueAllowed (gatewayResourceScopeValues scopes names) (TrimSpace requested) = true <->
  exists v, v ∈ gatewayResourceScopeValues scopes names /\ (v = "*" \/ v = TrimSpace requested).
Proof.
  unfold gatewayScopeValueAllowed. rewrite existsb_elem_of, TrimSpace_idem.
  split; intros (v & Hv & Hm); exists v; (split; [done|]); destruct (normalized_trimmed _ _ Hv) as [Ht _]; rewrite ?Ht in *.
  - apply orb_true_iff in Hm as [?%String.eqb_eq|?%String.eqb_eq]; auto.
  - apply orb_true_iff. destruct Hm as [->| ->]; [left|right]; apply String.eqb_refl.
Qed.

Lemma scope_dimensions_spec scopes invocation items : forall hc,
  scope_dimensions scopes invocation hc items = true <->
  (hc = true \/ exists item, item ∈ items /\ gatewayResourceScopeValues scopes (alias_names item) <> []) /\
  forall item, item ∈ items -> gatewayResourceScopeValues scopes (alias_names item) <> [] -> admits scopes invocation item.
Proof.
  induction items as [|item items IH]; intros hc; cbn [scope_dimensions].
  { split; [intros ->; split; [by left|]; intros ? Hi; by apply not_elem_of_nil in Hi|].
    intros [[?|(? & Hi & _)] _]; [done|by apply not_elem_of_nil in Hi]. }
  setoid_rewrite elem_of_cons.
  destruct (is_empty (gatewayResourceScopeValues scopes (alias_names item))) eqn:He.
  { apply is_empty_true in He. rewrite IH. naive_solver. }
  apply is_empty_false in He. unfold admits at 1.
  destruct (str_empty (TrimSpace (lookup_default "" invocation (alias_key item)))) eqn:Hr.
  { split; [done|]. intros [_ Hall]. destruct (Hall item (or_introl eq_refl) He) as [Hn _]. by rewrite (proj1 (String.eqb_eq _ _) Hr) in Hn. }
  assert (TrimSpace (lookup_default "" invocation (alias_key item)) <> "") as Hne by by apply String.eqb_neq.
  destruct (gatewayScopeValueAllowed _ _) eqn:Ha; cbn [negb].
  - apply scope_value_allowed in Ha. rewrite IH. split.
    + intros [_ Hall]. split; [right; exists item; auto|]. intros i [->|Hi] Hv; [done|by apply Hall].
    + intros [_ Hall]. split; [by left|]. intros i Hi Hv. apply Hall; auto.
  - split; [done|]. intros [_ Hall]. destruct (Hall item (or_introl eq_refl) He) as [_ Hv].
    apply scope_value_allowed in Hv. congruence.
Qed.

Lemma resource_scope_spec `{MapRange} scopes invocation :
  gatewayResourceScopeMatches scopes invocation = true <->
  scopes = ∅ \/ (exists item, constrains scopes item) /\ forall item, constrains scopes item -> admits scopes invocation item.
Proof.
  unfold gatewayResourceScopeMatches, constrains. case_bool_decide as He; [split; auto|].
  rewrite scope_dimensions_spec. setoid_rewrite elem_of_policy_aliases. naive_solver.
Qed.

(** ** Lemmas: grants *)

Section grants.
Context `{MapRange} (toolName : string) (permissionKeys : list string) (invocation : option (gmap string string)).

Definition allow_grant (g : ToolGrant) : bool := String.eqb (grantEffect (ToolGrant_Effect g)) "allow".

(** An allow grant that applies to the call. *)
Definition applying_grant (g : ToolGrant) : bool :=
  allow_grant g && grantMatchesTool (ToolGrant_ToolName g) toolName && scope_fits invocation (ToolGrant_ResourceScopes g) &&
  hasAllPermissions permissionKeys (ToolGrant_PermissionKeys g).

Lemma scan_grants grants : forall seen,
  let seen' := fold_left (scan_grant toolName permissionKeys invocation) grants seen in
  hasAllowGrant seen' = hasAllowGrant seen || existsb allow_grant grants /\
  matchedAllowGrant seen' = matchedAllowGrant seen || existsb applying_grant grants /\
  grantRequiresApproval seen' =
    grantRequiresApproval seen || existsb (fun g => applying_grant g && ToolGrant_RequiresApproval g) grants.
Proof.
  induction grants as [|g grants IH]; intros seen; cbn [fold_left existsb]; [by rewrite !orb_false_r|].
  destruct (IH (scan_grant toolName permissionKeys invocation seen g)) as (-> & -> & ->).
  unfold scan_grant, applying_grant, allow_grant.
  destruct (String.eqb _ "allow"); cbn [negb andb orb]; [|done].
  destruct (grantMatchesTool _ _); cbn [negb andb orb]; [|by rewrite orb_true_r].
  destruct (scope_fits _ _); cbn [negb andb orb]; [|by rewrite orb_true_r].
  destruct (hasAllPermissions _ _); cbn; rewrite ?orb_true_r; split_and!; try done.
  by rewrite orb_assoc, (orb_comm (grantRequiresApproval seen)).
Qed.

End grants.

(** ** Lemmas: policies *)

Lemma parse_canonical v s : parseGatewayRiskStrategy v = Some s ->
  s ∈ [""; gatewayRiskAllow; gatewayRiskDeny; gatewayRiskRequireApproval; gatewayRiskRequireHumanConfirm; gatewayRiskDryRunOnly].
Proof.
  unfold parseGatewayRiskStrategy. intros Hs. apply contains_true. revert Hs.
  repeat (destruct (contains _ (underscored v)); [intros [= <-]; vm_compute; reflexivity|]). done.
Qed.

Definition strategies : list string :=
  [""; gatewayRiskAllow; gatewayRiskDeny; gatewayRiskRequireApproval; gatewayRiskRequireHumanConfirm; gatewayRiskDryRunOnly].

Lemma flag_canonical policy s : flag_strategy policy = Some s -> s ∈ strategies.
Proof.
  unfold flag_strategy. intros Hs. apply contains_true. revert Hs.
  destruct (boolFromAny (get policy "dryRunOnly")); [intros [= <-]; vm_compute; reflexivity|].
  destruct (_ || _); [intros [= <-]; vm_compute; reflexivity|].
  destruct (boolFromAny _); [intros [= <-]; vm_compute; reflexivity|done].
Qed.

Lemma strategy_of_keys_canonical policy keys s : strategy_of_keys policy keys = Some s -> s ∈ strategies.
Proof.
  induction keys as [|key keys IH]; simpl; [done|]. destruct (policy !! key) as [raw|]; [|done].
  destruct (parseGatewayRiskStrategy _) eqn:Hp; [intros [= <-]; by eapply parse_canonical|done].
Qed.

Lemma policy_strategy_canonical policy s : approvalPolicyRiskStrategy policy = Some s -> s ∈ strategies.
Proof.
  unfold approvalPolicyRiskStrategy. case_bool_decide; [done|].
  destruct (strategy_of_keys _ _) eqn:Hk; [intros [= <-]; by eapply strategy_of_keys_canonical|apply flag_canonical].
Qed.

Lemma strictness_positive s : s ∈ strategies -> s <> "" -> (0 < gatewayRiskStrictness s)%Z.
Proof.
  intros Hs Hne. assert (forallb (fun s => str_empty s || (0 <? gatewayRiskStrictness s)%Z) strategies = true) as Hall by (vm_compute; reflexivity).
  rewrite forallb_elem_of in Hall. apply Hall in Hs. apply orb_true_iff in Hs as [Hs|Hs]; [by apply String.eqb_eq in Hs|lia].
Qed.

Section policies.
Context `{MapRange, SensitiveText} (c : policyEvaluationContext).

(** An allow policy that applies to the call. *)
Definition applying_policy (p : AccessPolicy) : bool :=
  policy_selected c "allow" p && scope_fits (eval_InvocationScope c) (AccessPolicy_ResourceScopes p).

Definition strategy_of (p : AccessPolicy) : string := Risk_Strategy (accessPolicyRiskDecision p).

Lemma strategy_of_canonical p : strategy_of p ∈ strategies.
Proof.
  unfold strategy_of, accessPolicyRiskDecision. destruct (approvalPolicyRiskStrategy _) eqn:Hp; [by eapply policy_strategy_canonical|left].
Qed.

(** A decision that is as strict as every policy of a list, and comes from one of them. *)
Record strictest (ps : list AccessPolicy) (d : gatewayRiskDecision) : Prop := {
  strictest_bound : forall p, p ∈ ps -> (gatewayRiskStrictness (strategy_of p) <= gatewayRiskStrictness (Risk_Strategy d))%Z;
  strictest_origin : d = no_decision \/ exists p, p ∈ ps /\ d = accessPolicyRiskDecision p
}.

Lemma merge_strictest ps d p :
  strictest ps d -> strictest (ps ++ [p]) (mergeGatewayRiskDecision d (accessPolicyRiskDecision p)).
Proof.
  intros [Hb Ho]. unfold mergeGatewayRiskDecision. fold (strategy_of p).
  assert (gatewayRiskStrictness "" = 0%Z) as Hzero by done.
  assert (forall s, 0 <= gatewayRiskStrictness s)%Z as Hpos by (intros s; unfold gatewayRiskStrictness; repeat case_match; lia).
  destruct (str_empty (strategy_of p)) eqn:He.
  { apply String.eqb_eq in He. split; [|set_solver]. intros q [Hq|Hq%list_elem_of_singleton]%elem_of_app; [by apply Hb|]. subst q. rewrite He, Hzero. apply Hpos. }
  destruct (str_empty (Risk_Strategy d) || _) eqn:Hm.
  - split; [|right; exists p; set_solver]. intros q [Hq|Hq%list_elem_of_singleton]%elem_of_app; [|by subst q].
    apply orb_true_iff in Hm as [Hm|Hm]; [apply String.eqb_eq in Hm|]; specialize (Hb q Hq); rewrite ?Hm, ?Hzero in *.
    + etransitivity; [exact Hb|]. apply Hpos.
    + unfold strategy_of in *. lia.
  - apply orb_false_iff in Hm as [_ Hm]. split; [|set_solver].
    intros q [Hq|Hq%list_elem_of_singleton]%elem_of_app; [by apply Hb|]. subst q. unfold strategy_of in *. lia.
Qed.

Lemma allow_policies_spec policies : forall prior mismatch decision,
  strictest prior decision ->
  match allow_policies c policies (negb (is_empty prior)) mismatch decision with
  | inl (matched, _, d) =>
      let applied := prior ++ filter (fun p => applying_policy p = true) policies in
      matched = negb (is_empty applied) /\ strictest applied d /\
      forall p, p ∈ policies -> applying_policy p = true -> strategy_of p <> gatewayRiskDeny
  | inr _ => exists p, p ∈ policies /\ applying_policy p = true /\ strategy_of p = gatewayRiskDeny
  end.
Proof.
  induction policies as [|p policies IH]; intros prior mismatch decision Hs; cbn [allow_policies].
  { rewrite filter_nil, app_nil_r. split_and!; [done|done|]. intros ? Hi. by apply not_elem_of_nil in Hi. }
  rewrite filter_cons.
  assert (Hap : applying_policy p = policy_selected c "allow" p && scope_fits (eval_InvocationScope c) (AccessPolicy_ResourceScopes p)) by done.
  destruct (policy_selected c "allow" p) eqn:Hsel; cbn [negb andb] in *.
  2: { rewrite decide_False by (rewrite Hap; done). specialize (IH prior mismatch decision Hs). destruct (allow_policies c policies _ _ _) as [[[m mm] d]|].
    - destruct IH as (? & ? & Hd). split_and!; [done|done|].
      intros q [->|Hq]%elem_of_cons Ha; [|by apply Hd]. unfold applying_policy in Ha. by rewrite Hsel in Ha.
    - destruct IH as (q & ? & ?). exists q. set_solver. }
  destruct (scope_fits _ _) eqn:Hfit; cbn [negb].
  2: { rewrite decide_False by (rewrite Hap; done). specialize (IH prior true decision Hs). destruct (allow_policies c policies _ _ _) as [[[m mm] d]|].
    - destruct IH as (? & ? & Hd). split_and!; [done|done|].
      intros q [->|Hq]%elem_of_cons Ha; [|by apply Hd]. unfold applying_policy in Ha. by rewrite Hsel, Hfit in Ha.
    - destruct IH as (q & ? & ?). exists q. set_solver. }
  rewrite decide_True by done. fold (strategy_of p).
  destruct (String.eqb (strategy_of p) gatewayRiskDeny) eqn:Hd.
  { exists p. apply String.eqb_eq in Hd. set_solver. }
  apply String.eqb_neq in Hd. specialize (IH (prior ++ [p]) mismatch _ (merge_strictest prior decision p Hs)).
  assert (negb (is_empty (prior ++ [p])) = true) as Hne by by destruct prior. rewrite Hne in IH.
  destruct (allow_policies c policies _ _ _) as [[[m mm] d]|].
  - destruct IH as (-> & Hst & Hd'). rewrite <- app_assoc in Hst. rewrite <- app_assoc. split_and!; [done|done|].
    intros q [->|Hq]%elem_of_cons Ha; [done|by apply Hd'].
  - destruct IH as (q & ? & ?). exists q. set_solver.
Qed.

End policies.

(** ** Lemmas: skill bindings *)

Definition normal_texts (l : list string) : Prop := forall x, x ∈ l -> TrimSpace x = x /\ x <> "".

Lemma elem_of_normalize_normal l x : normal_texts l -> x ∈ normalizeStringSlice l <-> x ∈ l.
Proof.
  intros Hn. rewrite elem_of_normalizeStringSlice. split.
  - intros (v & Hv & -> & _). by destruct (Hn v Hv) as [-> _].
  - intros Hx. destruct (Hn x Hx) as [Ht Hne]. by exists x.
Qed.

Lemma binding_refs_normal skills b : normal_texts (binding_refs skills b).
Proof.
  unfold binding_refs. intros x. destruct (is_empty _) eqn:He; [|apply normalized_trimmed].
  destruct (skillByIDFrom _ _); [apply normalized_trimmed|].
  apply is_empty_true in He. rewrite He. intros Hx. by apply not_elem_of_nil in Hx.
Qed.

(** A binding in force, for the skill that was asked for if any. *)
Definition bound (skillID : string) (b : SkillBinding) : Prop :=
  SkillBinding_Enabled b = true /\ TrimSpace (SkillBinding_SkillID b) <> "" /\
  (TrimSpace skillID = "" \/ TrimSpace (SkillBinding_SkillID b) = TrimSpace skillID).

Lemma bound_guard skillID b :
  negb (negb (SkillBinding_Enabled b)) && negb (str_empty (TrimSpace (SkillBinding_SkillID b)) ||
    (negb (str_empty (TrimSpace skillID)) && negb (String.eqb (TrimSpace (SkillBinding_SkillID b)) (TrimSpace skillID)))) = true <->
  bound skillID b.
Proof.
  unfold bound, str_empty. rewrite andb_true_iff, negb_involutive, negb_orb, andb_true_iff, negb_andb, orb_true_iff, !negb_involutive,
    negb_true_iff, String.eqb_neq, !String.eqb_eq. done.
Qed.

Lemma skill_refs_spec skills skillID bindings : forall out,
  (forall k l, out !! k = Some l -> normal_texts l) ->
  let out' := fold_left (fun out binding =>
    let bindingSkillID := TrimSpace (SkillBinding_SkillID binding) in
    if negb (SkillBinding_Enabled binding) then out
    else if str_empty bindingSkillID || (negb (str_empty (TrimSpace skillID)) && negb (String.eqb bindingSkillID (TrimSpace skillID))) then out
    else <[bindingSkillID := normalizeStringSlice (lookup_default [] out bindingSkillID ++ binding_refs skills binding)]> out)
    bindings out in
  (forall k l, out' !! k = Some l -> normal_texts l) /\
  (forall x, (exists k l, out' !! k = Some l /\ x ∈ l) <->
     (exists k l, out !! k = Some l /\ x ∈ l) \/ exists b, b ∈ bindings /\ bound skillID b /\ x ∈ binding_refs skills b).
Proof.
  induction bindings as [|b bindings IH]; intros out Hout; cbn [fold_left].
  { split; [done|]. intros x. split; [by left|]. intros [?|(? & Hb & _)]; [done|by apply not_elem_of_nil in Hb]. }
  pose proof (bound_guard skillID b) as Hg. cbv zeta.
  destruct (SkillBinding_Enabled b) eqn:He; cbn [negb andb] in *.
  2: { destruct (IH out Hout) as [H1 H2]. split; [done|]. intros x. rewrite H2. split; [set_solver|].
    intros [?|(q & [->|Hq]%elem_of_cons & Hb & Hx)]; [by left|by apply Hg in Hb|right; eauto]. }
  destruct (str_empty _ || _) eqn:Hs; cbn [negb] in *.
  { destruct (IH out Hout) as [H1 H2]. split; [done|]. intros x. rewrite H2. split; [set_solver|].
    intros [?|(q & [->|Hq]%elem_of_cons & Hb & Hx)]; [by left|by apply Hg in Hb|right; eauto]. }
  set (id := TrimSpace (SkillBinding_SkillID b)) in *.
  assert (Hold : normal_texts (lookup_default [] out id)).
  { unfold lookup_default. destruct (out !! id) as [l|] eqn:Hl; [by eapply Hout|]. intros x Hx. by apply not_elem_of_nil in Hx. }
  assert (Happ : normal_texts (lookup_default [] out id ++ binding_refs skills b)).
  { intros x [Hx|Hx]%elem_of_app; [by apply Hold|by eapply binding_refs_normal]. }
  assert (Hnew : forall k l, <[id := normalizeStringSlice (lookup_default [] out id ++ binding_refs skills b)]> out !! k = Some l -> normal_texts l).
  { intros k l [[<- <-]|[_ Hl]]%lookup_insert_Some; [intros x; apply normalized_trimmed|by eapply Hout]. }
  destruct (IH _ Hnew) as [H1 H2]. split; [done|]. intros x. rewrite H2. clear IH H1 H2 Hnew.
  assert (Hlook : x ∈ lookup_default [] out id <-> exists l, out !! id = Some l /\ x ∈ l).
  { unfold lookup_default. destruct (out !! id); simpl; [naive_solver|]. split; [intros Hx; by apply not_elem_of_nil in Hx|naive_solver]. }
  split.
  - intros [(k & l & [[<- <-]|[_ Hl]]%lookup_insert_Some & Hx)|(q & ? & ? & ?)]; [|by left; eauto|right; exists q; set_solver].
    rewrite (elem_of_normalize_normal _ _ Happ) in Hx. apply elem_of_app in Hx as [Hx|Hx].
    + apply Hlook in Hx as (l & ? & ?). left; eauto.
    + right. exists b. split; [left|]. split; [by apply Hg|done].
  - intros [(k & l & Hl & Hx)|(q & [->|Hq]%elem_of_cons & Hb & Hx)]; [left|left|right; eauto].
    + destruct (decide (k = id)) as [->|Hne].
      * eexists id, _. rewrite lookup_insert_eq. split; [done|]. apply elem_of_normalize_normal; [done|].
        apply elem_of_app. left. apply Hlook. eauto.
      * exists k, l. by rewrite lookup_insert_ne.
    + eexists id, _. rewrite lookup_insert_eq. split; [done|]. apply elem_of_normalize_normal; [done|].
      apply elem_of_app. by right.
Qed.

Lemma allowed_refs_spec `{MapRange} bindings skillID skills x :
  x ∈ allowedCapabilityRefsForBindingsWithSkills bindings skillID skills <->
  exists b, b ∈ bindings /\ bound skillID b /\ x ∈ binding_refs skills b.
Proof.
  unfold allowedCapabilityRefsForBindingsWithSkills.
  set (refs := skillBindingRefsWithSkills bindings skillID skills).
  assert (He : forall k l, (∅ : gmap string (list string)) !! k = Some l -> normal_texts l) by (intros k l Hl; by rewrite lookup_empty in Hl).
  assert ((forall k l, refs !! k = Some l -> normal_texts l) /\
    forall x, (exists k l, refs !! k = Some l /\ x ∈ l) <-> (exists k l, (∅ : gmap string (list string)) !! k = Some l /\ x ∈ l) \/
      exists b, b ∈ bindings /\ bound skillID b /\ x ∈ binding_refs skills b) as [Hn Hx]
    by exact (skill_refs_spec skills skillID bindings ∅ He).
  assert (Hflat : forall y, y ∈ (skill ← range_keys (dom refs); lookup_default [] refs skill) <-> exists k l, refs !! k = Some l /\ y ∈ l).
  { intros y. rewrite list_elem_of_bind. setoid_rewrite elem_of_range_keys'. setoid_rewrite elem_of_dom. unfold lookup_default. split.
    - intros (k & Hy & [l Hl]). rewrite Hl in Hy. eauto.
    - intros (k & l & Hl & Hy). exists k. rewrite Hl. split; [done|by eexists]. }
  rewrite elem_of_normalize_normal, Hflat, Hx.
  - split; [|by right]. intros [(k & l & Hl & _)|?]; [by rewrite lookup_empty in Hl|done].
  - intros y (k & l & Hl & Hy)%Hflat. by eapply Hn.
Qed.

(** ** Lemmas: construction *)

Lemma collect_risk_spec values : forall out levels,
  (forall x, x ∈ out -> validRiskLevel x = true) -> NoDup out -> collect_risk_levels values out = Ok levels ->
  (forall x, x ∈ levels -> validRiskLevel x = true) /\ NoDup levels.
Proof.
  induction values as [|v values IH]; intros out levels Hv Hn Hc; cbn [collect_risk_levels] in Hc; [by simplify_eq|].
  destruct (str_empty _); [by eapply IH|]. destruct (validRiskLevel (TrimSpace v)) eqn:Hr; [|done]. cbn [negb] in Hc.
  destruct (contains out (TrimSpace v)) eqn:Hin; [by eapply IH|]. eapply IH in Hc; [done| |].
  - intros x [Hx|Hx%list_elem_of_singleton]%elem_of_app; [by apply Hv|by subst x].
  - apply NoDup_app. split_and!; [done| |apply NoDup_singleton].
    intros x Hx ->%list_elem_of_singleton. by apply contains_false in Hin.
Qed.

Lemma parse_strategy_fixed s : s ∈ strategies -> s <> "" -> parseGatewayRiskStrategy s = Some s /\ blank s = false.
Proof.
  intros Hs Hne.
  assert (forallb (fun s => str_empty s || (bool_decide (parseGatewayRiskStrategy s = Some s) && negb (blank s))) strategies = true) as Hall
    by (vm_compute; reflexivity).
  rewrite forallb_elem_of in Hall. apply Hall in Hs. apply orb_true_iff in Hs as [Hs|Hs]; [by apply String.eqb_eq in Hs|].
  apply andb_true_iff in Hs as [Hs ?%negb_true_iff]. by apply bool_decide_eq_true in Hs.
Qed.

Lemma normalize_insert s m : s ∈ strategies -> s <> "" ->
  normalizeApprovalPolicy (<["strategy" := AString s]> m) = Ok (<["strategy" := AString s]> m) /\
  approvalPolicyRiskStrategy (<["strategy" := AString s]> m) = Some s.
Proof.
  intros Hs Hne. destruct (parse_strategy_fixed s Hs Hne) as [Hp Hb].
  unfold normalizeApprovalPolicy, approvalPolicyRiskStrategy, strategy_keys.
  cbn [normalize_keys strategy_of_keys]. rewrite lookup_insert_eq. cbn [Sprint]. rewrite Hb, Hp.
  rewrite (proj2 (String.eqb_neq s "") Hne : str_empty s = false). rewrite insert_insert_eq. split; [done|].
  rewrite bool_decide_eq_false_2; [done|]. intros He. pose proof (lookup_insert_eq m "strategy" (AString s)) as Hl. by rewrite He in Hl.
Qed.

Lemma normalize_keys_cases keys v r : normalize_keys v keys = Some (Ok r) ->
  r = v \/ exists s, s ∈ strategies /\ s <> "" /\ r = <["strategy" := AString s]> v.
Proof.
  induction keys as [|key keys IH]; cbn [normalize_keys]; [done|]. destruct (v !! key) as [raw|]; [|done].
  destruct (blank _); [done|]. destruct (parseGatewayRiskStrategy _) as [s|] eqn:Hp; [|done]. intros [= <-].
  destruct (str_empty s) eqn:He; [by left|]. right. exists s. split; [by eapply parse_canonical|]. split; [by apply String.eqb_neq|done].
Qed.

Lemma normalize_policy_cases v r : normalizeApprovalPolicy v = Ok r ->
  (r = v /\ normalizeApprovalPolicy v = Ok v) \/ exists s, s ∈ strategies /\ s <> "" /\ r = <["strategy" := AString s]> v.
Proof.
  intros Hr. pose proof Hr as Hr'. unfold normalizeApprovalPolicy in Hr.
  destruct (normalize_keys v strategy_keys) as [[out|e]|] eqn:Hk; [|done|].
  - simplify_eq. apply normalize_keys_cases in Hk as [->|(s & ? & ? & ->)]; [by left|right; eauto].
  - destruct (flag_strategy v) as [s|] eqn:Hf; simplify_eq; [|by left]. right. exists s. split; [by eapply flag_canonical|].
    split; [|done]. unfold flag_strategy in Hf. repeat case_match; simplify_eq; done.
Qed.

Lemma unscoped_values names : gatewayResourceScopeValues ∅ names = [].
Proof. unfold gatewayResourceScopeValues. induction names as [|n names IH]; [done|]. by rewrite bind_cons, lookup_empty. Qed.

(** Trimmed texts that are not blank, each once and in order. *)
Definition canonical_texts (l : list string) : Prop :=
  (forall x, x ∈ l -> TrimSpace x = x /\ x <> "") /\ NoDup l /\ StronglySorted String.le l.

Lemma add_text_NoDup values : forall out, NoDup out -> NoDup (fold_left add_text values out).
Proof.
  induction values as [|v values IH]; intros out Hn; [done|]. apply IH. unfold add_text.
  destruct (str_empty _ || contains out _) eqn:E; [done|]. apply orb_false_iff in E as [_ E].
  apply NoDup_app. split_and!; [done| |apply NoDup_singleton]. intros x Hx ->%list_elem_of_singleton. by apply contains_false in E.
Qed.

Lemma sort_strings_NoDup l : NoDup l -> NoDup (sort_strings l).
Proof. unfold sort_strings. by rewrite merge_sort_Permutation. Qed.

Lemma normalize_canonical values : canonical_texts (normalizeStringSlice values).
Proof.
  split_and!; [apply normalized_trimmed| |apply sort_strings_sorted]. apply sort_strings_NoDup, add_text_NoDup. constructor.
Qed.

Lemma valid_level_trimmed x : validRiskLevel x = true -> TrimSpace x = x /\ x <> "".
Proof.
  unfold validRiskLevel. rewrite contains_true. intros Hx.
  assert (forallb (fun x => String.eqb (TrimSpace x) x && negb (str_empty x)) [RiskLevelRead; RiskLevelAnalyze; RiskLevelMutate;
    RiskLevelExecute; RiskLevelHigh] = true) as Hall by (vm_compute; reflexivity).
  rewrite forallb_elem_of in Hall. apply Hall, andb_true_iff in Hx as [?%String.eqb_eq ?%negb_true_iff]. split; [done|by apply String.eqb_neq].
Qed.

Lemma risk_levels_canonical values levels : normalizeRiskLevels values = Ok levels ->
  canonical_texts levels /\ forall x, x ∈ levels -> validRiskLevel x = true.
Proof.
  unfold normalizeRiskLevels. destruct (collect_risk_levels values []) as [out|] eqn:Hc; [|done]. intros [= <-].
  apply collect_risk_spec in Hc as [Hv Hn]; [|intros x Hx; by apply not_elem_of_nil in Hx|constructor].
  assert (forall x, x ∈ sort_strings out -> validRiskLevel x = true) as Hall by (intros x; rewrite elem_of_sort_strings; apply Hv).
  split; [|done]. split_and!; [|by apply sort_strings_NoDup|apply sort_strings_sorted]. intros x Hx. by apply valid_level_trimmed, Hall.
Qed.

Lemma normalize_approval_fixed v r : normalizeApprovalPolicy v = Ok r -> normalizeApprovalPolicy r = Ok r.
Proof. intros [[-> Hv]|(s & Hs & Hne & ->)]%normalize_policy_cases; [done|]. by apply normalize_insert. Qed.

Lemma check_subject_None typeName id : check_subject typeName id = None ->
  validStatus (normalizeSubjectType typeName) subject_types = true /\ TrimSpace id <> "".
Proof.
  unfold check_subject. destruct (validStatus _ _); [|done]. cbn [negb]. destruct (blank id) eqn:Hb; [done|].
  intros _. split; [done|]. by apply String.eqb_neq.
Qed.

(** What [buildAccessPolicy] has checked when it returns a policy. *)
Lemma build_policy_Ok uuid now principal input forcedID p :
  buildAccessPolicy uuid now principal input forcedID = Ok p ->
  exists levels approval,
    TrimSpace (AccessPolicyInput_Name input) <> "" /\
    check_subject (AccessPolicyInput_SubjectType input) (AccessPolicyInput_SubjectID input) = None /\
    validStatus (grantEffect (AccessPolicyInput_Effect input)) ["allow"; "deny"] = true /\
    normalizeRiskLevels (AccessPolicyInput_RiskLevels input) = Ok levels /\
    normalizeApprovalPolicy (AccessPolicyInput_ApprovalPolicy input) = Ok approval /\
    p = {| AccessPolicy_ID := if blank forcedID then uuid else TrimSpace forcedID;
      AccessPolicy_Name := TrimSpace (AccessPolicyInput_Name input);
      AccessPolicy_Description := TrimSpace (AccessPolicyInput_Description input);
      AccessPolicy_Enabled := default true (AccessPolicyInput_Enabled input);
      AccessPolicy_SubjectType := normalizeSubjectType (AccessPolicyInput_SubjectType input);
      AccessPolicy_SubjectID := TrimSpace (AccessPolicyInput_SubjectID input);
      AccessPolicy_AIClientID := TrimSpace (AccessPolicyInput_AIClientID input);
      AccessPolicy_Effect := grantEffect (AccessPolicyInput_Effect input);
      AccessPolicy_ToolPatterns := normalizeStringSlice (AccessPolicyInput_ToolPatterns input);
      AccessPolicy_SkillIDs := normalizeStringSlice (AccessPolicyInput_SkillIDs input);
      AccessPolicy_ResourceScopes := AccessPolicyInput_ResourceScopes input; AccessPolicy_RiskLevels := levels;
      AccessPolicy_ApprovalPolicy := approval; AccessPolicy_Conditions := AccessPolicyInput_Conditions input;
      AccessPolicy_CreatedBy := Principal_UserID principal; AccessPolicy_CreatedAt := now; AccessPolicy_UpdatedAt := now |}.
Proof.
  unfold buildAccessPolicy. destruct (str_empty (TrimSpace (AccessPolicyInput_Name input))) eqn:Hn; [done|].
  destruct (check_subject _ _) eqn:Hc; [done|]. destruct (validStatus _ _) eqn:He; [|done]. cbn [negb].
  destruct (normalizeRiskLevels _) as [levels|]; [|done]. simpl. destruct (normalizeApprovalPolicy _) as [approval|]; [|done].
  simpl. intros [= <-]. exists levels, approval. by split_and!; [apply String.eqb_neq|..].
Qed.

(** A grant or policy of an effect that fits a call: its tool and its scope. *)
Definition fitting_grant `{MapRange} (effect toolName : string) (scope : gmap string string) (g : ToolGrant) : Prop :=
  grantEffect (ToolGrant_Effect g) = effect /\ grantMatchesTool (ToolGrant_ToolName g) toolName = true /\
  gatewayResourceScopeMatches (ToolGrant_ResourceScopes g) scope = true.

Definition fitting_policy `{MapRange} (effect : string) (c : policyEvaluationContext) (p : AccessPolicy) : Prop :=
  grantEffect (AccessPolicy_Effect p) = effect /\
  accessPolicyToolSelectorsMatchWithSkills p (eval_Tool c) (eval_SkillID c) (eval_skills c) = true /\
  forall scope, eval_InvocationScope c = Some scope -> gatewayResourceScopeMatches (AccessPolicy_ResourceScopes p) scope = true.

Lemma denying_grant_false `{MapRange} toolName scope g :
  denying_grant toolName (Some scope) g = false <-> ~ fitting_grant "deny" toolName scope g.
Proof.
  rewrite <- not_true_iff_false. apply not_iff_compat. unfold denying_grant, fitting_grant, scope_fits.
  rewrite !andb_true_iff, String.eqb_eq. tauto.
Qed.

Lemma denying_policy_false `{MapRange} c p : denying_policy c p = false <-> ~ fitting_policy "deny" c p.
Proof.
  rewrite <- not_true_iff_false. apply not_iff_compat. unfold denying_policy, policy_selected, fitting_policy, scope_fits.
  rewrite !andb_true_iff, String.eqb_eq. destruct (eval_InvocationScope c) as [scope|].
  - split; [intros [[He Ht] Hs]; split_and!; [done|done|by intros ? [= <-]]|intros (He & Ht & Hs); split_and!; auto].
  - split; [intros [[He Ht] _]; by split_and!|intros (He & Ht & _); by split_and!].
Qed.

(** ** Properties *)

(** C31. What a subject's grants decide about a call. No deny grant may fit it, and
    once the subject has any allow grant, one of them must apply: match the
    tool and the resource scope, and have its permissions held. Approval is
    asked for exactly when an applying grant asks for it. *)
Theorem gateway_grants_exact `{MapRange} (tool : ToolCapability) (grants : list ToolGrant) (keys : list string)
    (scope : gmap string string) allowed approval reason :
  toolAllowedByGrantsForInvocation tool grants keys scope = (allowed, approval, reason) ->
  (allowed = true <->
     (forall g, g ∈ grants -> ~ fitting_grant "deny" (ToolCapability_Name tool) scope g) /\
     ((forall g, g ∈ grants -> allow_grant g = false) \/
      exists g, g ∈ grants /\ applying_grant (ToolCapability_Name tool) keys (Some scope) g = true)) /\
  (approval = true <->
     exists g, g ∈ grants /\ applying_grant (ToolCapability_Name tool) keys (Some scope) g = true /\ ToolGrant_RequiresApproval g = true) /\
  (allowed = true <-> reason = "").
Proof.
  unfold toolAllowedByGrantsForInvocation, evaluate_grants.
  pose proof (scan_grants (ToolCapability_Name tool) keys (Some scope) grants
    {| hasAllowGrant := false; matchedAllowGrant := false; matchedAllowNeedsPermission := false;
       matchedAllowScopeMismatch := false; grantRequiresApproval := false |}) as (Hany & Hmatch & Hreq).
  cbv zeta. destruct (fold_left _ _ _) as [any matched needs mismatch req]. simpl in *.
  setoid_rewrite <- denying_grant_false.
  assert (Happroval : req = true <-> exists g, g ∈ grants /\
      applying_grant (ToolCapability_Name tool) keys (Some scope) g = true /\ ToolGrant_RequiresApproval g = true).
  { rewrite Hreq, existsb_elem_of. split; [intros (g & Hg & Ha%andb_true_iff)|intros (g & Hg & Ha)]; exists g; [done|by rewrite andb_true_iff]. }
  destruct (find_first _ grants) as [g|] eqn:Hf; [|destruct (any && negb matched) eqn:Hc]; intros [= <- <- <-]; (split; [|split; [done|]]).
  - apply find_first_Some in Hf as [Hin Hd]. split; [done|]. intros [Hnone _]. by rewrite (Hnone g Hin) in Hd.
  - done.
  - split; [done|]. apply andb_true_iff in Hc as [Ha Hm%negb_true_iff]. rewrite Hmatch in Hm. rewrite Hany in Ha.
    apply existsb_elem_of in Ha as (g & Hg & Ha). intros [_ [Hno|(q & Hq & Happ)]]; [by rewrite (Hno g Hg) in Ha|].
    rewrite existsb_false_elem in Hm. by rewrite (Hm q Hq) in Happ.
  - by repeat case_match.
  - split; [|done]. intros _. split; [by apply find_first_None|].
    destruct any eqn:Ea; [right; destruct matched; [|done]; symmetry in Hmatch; by apply existsb_elem_of in Hmatch|left].
    intros g Hg. symmetry in Hany. rewrite existsb_false_elem in Hany. by apply Hany.
  - done.
Qed.

(** What the access policies decide about a call. No deny policy may fit it, no
    allow policy that fits it may have the deny strategy, and once there is an
    allow policy one must fit. The decision then has the strictest strategy of
    the fitting allow policies, and is that of one of them. *)
Theorem gateway_policies_exact `{MapRange, SensitiveText} (c : policyEvaluationContext) (policies : list AccessPolicy)
    allowed decision reason :
  evaluateToolAccessPolicies c policies = (allowed, decision, reason) ->
  (allowed = true <->
     (forall p, p ∈ policies -> ~ fitting_policy "deny" c p) /\
     (forall p, p ∈ policies -> applying_policy c p = true -> strategy_of p <> gatewayRiskDeny) /\
     ((forall p, p ∈ policies -> grantEffect (AccessPolicy_Effect p) <> "allow") \/
      exists p, p ∈ policies /\ applying_policy c p = true)) /\
  (allowed = true -> strictest (filter (fun p => applying_policy c p = true) policies) decision).
Proof.
  setoid_rewrite <- denying_policy_false.
  unfold evaluateToolAccessPolicies. destruct (find_first _ _) as [p|] eqn:Hf.
  { intros [= <- <- <-]. apply find_first_Some in Hf as [Hin Hd]. split; [|done]. split; [done|].
    intros [Hnone _]. by rewrite (Hnone p Hin) in Hd. }
  rewrite find_first_None in Hf.
  pose proof (allow_policies_spec c policies [] false no_decision) as Hspec. simpl in Hspec.
  destruct (allow_policies c policies false false no_decision) as [[[matched mismatch] d]|[r d]].
  2: { intros [= <- <- <-]. split; [|done]. split; [done|]. intros (_ & Hno & _).
       destruct Hspec as (p & Hp & Ha & Hd); [|by destruct (Hno p Hp Ha)]. split; [|by left]. intros p Hp. by apply not_elem_of_nil in Hp. }
  destruct Hspec as (Hmatched & Hst & Hno); [split; [intros p Hp; by apply not_elem_of_nil in Hp|by left]|].
  assert (matched = true <-> exists p, p ∈ policies /\ applying_policy c p = true) as Hm.
  { rewrite Hmatched. rewrite negb_true_iff, is_empty_false. split.
    - intros Hne. destruct (filter _ _) as [|p l] eqn:Hfl; [done|].
      assert (p ∈ filter (fun p => applying_policy c p = true) policies) as Hp by (rewrite Hfl; left).
      apply list_elem_of_filter in Hp as [? ?]. eauto.
    - intros (p & Hp & Ha) He. assert (p ∈ filter (fun p => applying_policy c p = true) policies) as Hx by by apply list_elem_of_filter.
      rewrite He in Hx. by apply not_elem_of_nil in Hx. }
  destruct (existsb _ policies && negb matched) eqn:Hc; intros [= <- <- <-]; (split; [|done]).
  - split; [done|]. intros (_ & _ & Hx). apply andb_true_iff in Hc as [Ha Hn%negb_true_iff].
    apply existsb_elem_of in Ha as (p & Hp & Ha%String.eqb_eq). destruct Hx as [Hx|Hx]; [by destruct (Hx p Hp)|].
    apply Hm in Hx. congruence.
  - split; [|done]. intros _. split_and!; [done|done|]. apply andb_false_iff in Hc as [Hc|Hc%negb_false_iff]; [left|right; by apply Hm].
    rewrite existsb_false_elem in Hc. intros p Hp. by apply String.eqb_neq, Hc.
Qed.

(** The policy constrains a dimension for which the call supplies nothing. *)
Definition unsupplied `{MapRange} (scope : gmap string string) (p : AccessPolicy) : Prop :=
  exists item, constrains (AccessPolicy_ResourceScopes p) item /\ TrimSpace (lookup_default "" scope (alias_key item)) = "".

Lemma unsupplied_unfit `{MapRange} scope p : unsupplied scope p -> scope_fits (Some scope) (AccessPolicy_ResourceScopes p) = false.
Proof.
  intros (item & Hcon & Hno). unfold scope_fits. apply not_true_iff_false. rewrite resource_scope_spec. intros [He|[_ Hall]].
  - destruct Hcon as [_ Hv]. apply Hv. rewrite He. apply unscoped_values.
  - by apply Hall in Hcon as [? _].
Qed.

(** A policy that neither denies the call nor has the effect [allow] does not count. *)
Lemma find_first_skip {A} (f : A -> bool) before x after : f x = false -> find_first f (before ++ x :: after) = find_first f (before ++ after).
Proof. intros Hx. induction before as [|y before IH]; cbn; [by rewrite Hx|]. by destruct (f y). Qed.

Lemma allow_policies_skip `{MapRange, SensitiveText} c before p after matched mismatch decision :
  policy_selected c "allow" p = false ->
  allow_policies c (before ++ p :: after) matched mismatch decision = allow_policies c (before ++ after) matched mismatch decision.
Proof.
  intros Hp. revert matched mismatch decision. induction before as [|q before IH]; intros matched mismatch decision; cbn [app allow_policies].
  - by rewrite Hp.
  - rewrite !IH. done.
Qed.

Lemma evaluate_skips `{MapRange, SensitiveText} c before p after :
  denying_policy c p = false -> grantEffect (AccessPolicy_Effect p) <> "allow" ->
  evaluateToolAccessPolicies c (before ++ p :: after) = evaluateToolAccessPolicies c (before ++ after).
Proof.
  intros Hd Heff%String.eqb_neq. unfold evaluateToolAccessPolicies. rewrite (find_first_skip _ before p after Hd), allow_policies_skip.
  - rewrite !existsb_app. cbn [existsb]. by rewrite Heff.
  - unfold policy_selected. by rewrite Heff.
Qed.

(** C32. A dimension that a policy constrains and the call does not supply fails
    closed for allow policies and open for deny policies, wherever they stand in
    the list: an allow policy that constrains it does not apply; a deny policy
    that constrains it is passed over.  So when every deny policy constrains a
    dimension that is not supplied, the call is decided as if there were no deny
    policy, and goes through when the allow policies let it. *)
Theorem deny_scope_fails_open `{MapRange, SensitiveText} (c : policyEvaluationContext) (policies : list AccessPolicy)
    (scope : gmap string string) :
  eval_InvocationScope c = Some scope ->
  (forall p, unsupplied scope p -> applying_policy c p = false) /\
  (forall before p after, policies = before ++ p :: after -> grantEffect (AccessPolicy_Effect p) = "deny" -> unsupplied scope p ->
     evaluateToolAccessPolicies c policies = evaluateToolAccessPolicies c (before ++ after)) /\
  ((forall p, p ∈ policies -> grantEffect (AccessPolicy_Effect p) = "deny" -> unsupplied scope p) ->
   (forall p, p ∈ policies -> applying_policy c p = true -> strategy_of p <> gatewayRiskDeny) ->
   ((forall p, p ∈ policies -> grantEffect (AccessPolicy_Effect p) <> "allow") \/ exists p, p ∈ policies /\ applying_policy c p = true) ->
   fst (fst (evaluateToolAccessPolicies c policies)) = true).
Proof.
  intros Hscope. split_and!.
  - intros p Hun. unfold applying_policy. by rewrite Hscope, unsupplied_unfit, andb_false_r.
  - intros before p after -> Heff Hun. apply evaluate_skips; [|by rewrite Heff].
    unfold denying_policy. by rewrite Hscope, unsupplied_unfit, andb_false_r.
  - intros Hdeny Hstrategy Hallow. destruct (evaluateToolAccessPolicies c policies) as [[allowed decision] reason] eqn:He. cbn [fst].
    apply (gateway_policies_exact c policies allowed decision reason He). split_and!; [|done|done].
    intros p Hp. apply denying_policy_false. unfold denying_policy, policy_selected.
    destruct (String.eqb_spec (grantEffect (AccessPolicy_Effect p)) "deny") as [Hd|]; [|done].
    by rewrite Hscope, unsupplied_unfit, andb_false_r by auto.
Qed.

(** The tools that skill bindings open: those that a reference of a binding in
    force matches, for the skill that was asked for if any. A binding without
    references stands for the skill's own. *)
Theorem gateway_bindings_exact `{MapRange} (tool : ToolCapability) (bindings : list SkillBinding) (skillID : string)
    (skills : list SkillCapability) :
  fst (toolAllowedBySkillBindingsWithSkills tool bindings skillID skills) = true <->
  exists b ref, b ∈ bindings /\ bound skillID b /\ ref ∈ binding_refs skills b /\ grantMatchesTool ref (ToolCapability_Name tool) = true.
Proof.
  assert (matchesToolPatternList (allowedCapabilityRefsForBindingsWithSkills bindings skillID skills) (ToolCapability_Name tool) = true <->
    exists b ref, b ∈ bindings /\ bound skillID b /\ ref ∈ binding_refs skills b /\ grantMatchesTool ref (ToolCapability_Name tool) = true) as Hm.
  { unfold matchesToolPatternList. rewrite existsb_elem_of. setoid_rewrite allowed_refs_spec. naive_solver. }
  rewrite <- Hm. unfold toolAllowedBySkillBindingsWithSkills.
  destruct (is_empty _) eqn:He; [apply is_empty_true in He; by rewrite He|]. by destruct (matchesToolPatternList _ _).
Qed.

(** What a stored policy looks like. *)
Record policy_wf (p : AccessPolicy) : Prop := {
  wf_name : TrimSpace (AccessPolicy_Name p) = AccessPolicy_Name p /\ AccessPolicy_Name p <> "";
  wf_subject : validStatus (AccessPolicy_SubjectType p) subject_types = true;
  wf_subject_id : TrimSpace (AccessPolicy_SubjectID p) = AccessPolicy_SubjectID p /\ AccessPolicy_SubjectID p <> "";
  wf_effect : validStatus (AccessPolicy_Effect p) ["allow"; "deny"] = true;
  wf_tools : canonical_texts (AccessPolicy_ToolPatterns p);
  wf_skills : canonical_texts (AccessPolicy_SkillIDs p);
  wf_levels : canonical_texts (AccessPolicy_RiskLevels p) /\
    forall level, level ∈ AccessPolicy_RiskLevels p -> validRiskLevel level = true;
  wf_approval : normalizeApprovalPolicy (AccessPolicy_ApprovalPolicy p) = Ok (AccessPolicy_ApprovalPolicy p)
}.

(** A policy that is built from any input is well formed. *)
Theorem built_policy_wf (uuid : string) (now : Z) (principal : Principal) (input : AccessPolicyInput) (forcedID : string)
    (p : AccessPolicy) :
  buildAccessPolicy uuid now principal input forcedID = Ok p -> policy_wf p.
Proof.
  intros Hb. apply build_policy_Ok in Hb as (levels & approval & Hname & Hsubject & Heffect & Hlevels & Happroval & ->).
  apply check_subject_None in Hsubject as [Ht Hid].
  split; simpl; try done; try apply normalize_canonical.
  - by rewrite TrimSpace_idem.
  - by rewrite TrimSpace_idem.
  - by eapply risk_levels_canonical.
  - by eapply normalize_approval_fixed.
Qed.

(** ** Concrete instances *)

(** Texts without secrets. *)
#[export] Instance plain_text : SensitiveText := {| redactSensitiveText := fun s => s |}.

Definition sample_tool : ToolCapability := {|
  ToolCapability_Name := "k8s.pods.restart"; ToolCapability_Title := ""; ToolCapability_Description := "";
  ToolCapability_Domain := "k8s"; ToolCapability_Action := "restart"; ToolCapability_RiskLevel := RiskLevelMutate;
  ToolCapability_PermissionKeys := ["k8s.pods.restart"]; ToolCapability_RequiredScopes := []; ToolCapability_MCPAdapterID := "";
  ToolCapability_MCPToolName := ""; ToolCapability_RequiresApproval := false; ToolCapability_InputSchema := ∅;
  ToolCapability_OutputSchema := ∅; ToolCapability_Version := ""; ToolCapability_Execution := None;
  ToolCapability_InputSemantics := []; ToolCapability_OutputSemantics := []; ToolCapability_Effects := [];
  ToolCapability_ProducesAssessment := false |}.

Definition sample_grant (id tool effect : string) (scopes : go_map) : ToolGrant := {|
  ToolGrant_ID := id; ToolGrant_SubjectType := "role"; ToolGrant_SubjectID := "operator"; ToolGrant_AIClientID := "";
  ToolGrant_ToolName := tool; ToolGrant_Effect := effect; ToolGrant_RiskLevel := RiskLevelMutate;
  ToolGrant_PermissionKeys := ["k8s.pods.restart"]; ToolGrant_ResourceScopes := scopes; ToolGrant_RequiresApproval := true;
  ToolGrant_ExpiresAt := None; ToolGrant_CreatedBy := ""; ToolGrant_CreatedAt := 0; ToolGrant_UpdatedAt := 0 |}.

Definition sample_policy (id effect : string) (scopes approval : go_map) : AccessPolicy := {|
  AccessPolicy_ID := id; AccessPolicy_Name := id; AccessPolicy_Description := ""; AccessPolicy_Enabled := true;
  AccessPolicy_SubjectType := "role"; AccessPolicy_SubjectID := "operator"; AccessPolicy_AIClientID := "";
  AccessPolicy_Effect := effect; AccessPolicy_ToolPatterns := ["k8s.*"]; AccessPolicy_SkillIDs := [];
  AccessPolicy_ResourceScopes := scopes; AccessPolicy_RiskLevels := []; AccessPolicy_ApprovalPolicy := approval;
  AccessPolicy_Conditions := ∅; AccessPolicy_CreatedBy := ""; AccessPolicy_CreatedAt := 0; AccessPolicy_UpdatedAt := 0 |}.

Definition sample_scope : gmap string string := {["clusterId" := "prod"]}.

Definition sample_context : policyEvaluationContext :=
  {| eval_Tool := sample_tool; eval_SkillID := ""; eval_InvocationScope := Some sample_scope; eval_skills := [] |}.

Definition sample_grants : list ToolGrant :=
  [sample_grant "g1" "k8s.*" "allow" {["clusters" := AString "dev"]};
   sample_grant "g2" "k8s.*" "" {["clusterIds" := AStrings ["staging"; "prod"]]};
   sample_grant "g3" "k8s.pods.restart" "deny" {["namespace" := AString "kube-system"]}].

Lemma gateway_grants_exact_witness :
  toolAllowedByGrantsForInvocation sample_tool sample_grants ["k8s.pods.restart"] sample_scope = (true, true, "") /\
  exists g, g ∈ sample_grants /\ applying_grant (ToolCapability_Name sample_tool) ["k8s.pods.restart"] (Some sample_scope) g = true /\
    ToolGrant_RequiresApproval g = true.
Proof.
  assert (toolAllowedByGrantsForInvocation sample_tool sample_grants ["k8s.pods.restart"] sample_scope = (true, true, "")) as Hd
    by (vm_compute; reflexivity).
  split; [exact Hd|]. destruct (gateway_grants_exact _ _ _ _ _ _ _ Hd) as (_ & Hreq & _). by apply Hreq.
Defined.

Definition sample_policies : list AccessPolicy :=
  [sample_policy "p1" "allow" ∅ {["strategy" := AString "confirm"]};
   sample_policy "p2" "allow" {["clusterId" := AString "*"]} {["strategy" := AString "require-approval"]};
   sample_policy "p3" "allow" {["clusterId" := AString "dev"]} {["strategy" := AString "deny"]}].

Lemma gateway_policies_exact_witness :
  exists decision, evaluateToolAccessPolicies sample_context sample_policies = (true, decision, "") /\
    strictest (filter (fun p => applying_policy sample_context p = true) sample_policies) decision /\
    Risk_Strategy decision = gatewayRiskRequireApproval.
Proof.
  eexists. split; [vm_compute; reflexivity|]. split; [|reflexivity].
  eapply gateway_policies_exact; [vm_compute; reflexivity|reflexivity].
Defined.

(** A deny policy on a region, which the call does not name, after the allow policies. *)
Lemma deny_scope_fails_open_witness :
  let deny := sample_policy "d" "deny" {["region" := AString "*"]} ∅ in
  evaluateToolAccessPolicies sample_context (sample_policies ++ [deny]) = evaluateToolAccessPolicies sample_context sample_policies /\
  fst (fst (evaluateToolAccessPolicies sample_context (sample_policies ++ [deny]))) = true.
Proof.
  intros deny.
  assert (unsupplied sample_scope deny) as Hun.
  { exists {| alias_key := "region"; alias_names := ["region"] |}. split; [|reflexivity].
    split; [right; exists "region"; split_and!; [set_solver|vm_compute; reflexivity|done]|vm_compute; discriminate]. }
  destruct (deny_scope_fails_open sample_context (sample_policies ++ [deny]) sample_scope eq_refl) as (_ & Hskip & Hallow). split.
  - rewrite (Hskip sample_policies deny [] eq_refl eq_refl Hun). by rewrite app_nil_r.
  - apply Hallow.
    + assert (forallb (fun p => negb (String.eqb (grantEffect (AccessPolicy_Effect p)) "deny")) sample_policies = true) as Hno
        by (vm_compute; reflexivity). rewrite forallb_elem_of in Hno.
      intros p Hp Heff. apply elem_of_app in Hp as [Hp|Hp]; [|apply list_elem_of_singleton in Hp; by rewrite Hp].
      specialize (Hno p Hp). rewrite Heff in Hno. discriminate Hno.
    + assert (forallb (fun p => implb (applying_policy sample_context p) (negb (String.eqb (strategy_of p) gatewayRiskDeny)))
        (sample_policies ++ [deny]) = true) as Hno by (vm_compute; reflexivity). rewrite forallb_elem_of in Hno.
      intros p Hp Happ Hs. specialize (Hno p Hp). rewrite Happ, Hs in Hno. discriminate Hno.
    + right. exists (sample_policy "p1" "allow" ∅ {["strategy" := AString "confirm"]}). split; [left|vm_compute; reflexivity].
Defined.

Definition sample_user (id : string) (roles teams : list string) : Principal := {|
  Principal_UserID := id; Principal_UserName := id; Principal_Email := ""; Principal_AvatarURL := ""; Principal_AvatarFit := "";
  Principal_Roles := roles; Principal_Teams := teams; Principal_Projects := []; Principal_Tags := [];
  Principal_PermissionKeys := []; Principal_AccessTokenID := "" |}.

Definition sample_principal : Principal := sample_user "u1" ["operator"] [].

Definition sample_policy_input : AccessPolicyInput := {|
  AccessPolicyInput_Name := " writes "; AccessPolicyInput_Description := ""; AccessPolicyInput_Enabled := None;
  AccessPolicyInput_SubjectType := "Group"; AccessPolicyInput_SubjectID := "sre"; AccessPolicyInput_AIClientID := "";
  AccessPolicyInput_Effect := ""; AccessPolicyInput_ToolPatterns := ["k8s.*"; " docker.* "; "k8s.*"]; AccessPolicyInput_SkillIDs := [];
  AccessPolicyInput_ResourceScopes := ∅; AccessPolicyInput_RiskLevels := ["mutate"; "execute"; "mutate"];
  AccessPolicyInput_ApprovalPolicy := {["mode" := AString "Dry Run"]}; AccessPolicyInput_Conditions := ∅ |}.

Lemma built_policy_wf_witness :
  exists p, buildAccessPolicy "id" 0 sample_principal sample_policy_input "" = Ok p /\ policy_wf p /\
    AccessPolicy_SubjectType p = "team" /\ AccessPolicy_ToolPatterns p = ["docker.*"; "k8s.*"] /\
    approvalPolicyRiskStrategy (AccessPolicy_ApprovalPolicy p) = Some gatewayRiskDryRunOnly.
Proof.
  eexists. split; [vm_compute; reflexivity|].
  split; [eapply (built_policy_wf "id" 0 sample_principal sample_policy_input ""); vm_compute; reflexivity|].
  split_and!; vm_compute; reflexivity.
Defined.
