(* ===== verification/GatewayQuorum.v ===== *)
(** * AI gateway: approval routing and quorums

    The routing part of [application/aigateway/approval.go]: which approvers an
    approval policy names, how the votes on a request are counted against its
    quotas, and how a request moves through its stages. A routing is the dynamic
    map that the request carries under [approvalRouting]. *)

From Stdlib Require Import Ascii.
From stdpp Require Import pretty.
From S2P Require Import Prelude GoStrings AccessModel WorkflowModel GatewayModel GatewayPolicy.

(** Times as texts: [Format(time.RFC3339)], and the layouts that
    [parseGatewayApprovalWindowTime] tries. *)
Class TimeText := { format_rfc3339 : Z -> string; parse_time : string -> option Z }.

Definition sortedStringKeys {T} (values : gmap string T) : list string := sort_strings (elements (dom values)).

(** ** Quotas *)

Definition gatewayApprovalQuotaMapFromAnyMap `{MapRange, NumberText} (values : go_map) : gmap string Z :=
  fold_left (fun out key =>
    let name := TrimSpace key in
    let '(required, ok) := gatewayPositiveInt (get values key) in
    if negb (str_empty name) && ok then <[name := required]> out else out) (range_keys (dom values)) ∅.

Definition gatewayApprovalQuotaMapFromIntMap `{MapRange} (values : gmap string Z) : gmap string Z :=
  fold_left (fun out key =>
    let name := TrimSpace key in
    let required := lookup_default 0%Z values key in
    if negb (str_empty name) && (0 <? required)%Z then <[name := required]> out else out) (range_keys (dom values)) ∅.

Definition gatewayApprovalQuotaMapFromAnySlice `{MapRange, NumberText} (values : list any) : gmap string Z :=
  fold_left (fun out item =>
    let mapped := mapValue item in
    if bool_decide (mapped <> ∅) then
      let name := gatewayFirstString mapped ["name"; "id"; "role"; "roleId"; "team"; "teamId"; "group"; "groupId"] in
      let '(required, ok) := gatewayFirstPositiveInt mapped ["requiredApprovals"; "minApprovals"; "required"; "count"; "quorum"] in
      if negb (str_empty name) && ok then <[name := required]> out else out
    else
      let name := TrimSpace (Sprint item) in
      if negb (str_empty name) && negb (String.eqb name "<nil>") then <[name := 1%Z]> out else out) values ∅.

Definition gatewayApprovalQuotaMapFromStrings (values : list string) : gmap string Z :=
  fold_left (fun out item => let name := TrimSpace item in if str_empty name then out else <[name := 1%Z]> out) values ∅.

Definition gatewayApprovalQuotaMapFromValue `{MapRange, NumberText} (value : any) : gmap string Z :=
  match value with
  | AMap m => gatewayApprovalQuotaMapFromAnyMap m
  | AIntMap m => gatewayApprovalQuotaMapFromIntMap m
  | AList l => gatewayApprovalQuotaMapFromAnySlice l
  | AStrings l => gatewayApprovalQuotaMapFromStrings l
  | AString s => gatewayApprovalQuotaMapFromStrings (gatewayStringList (AString s))
  | _ => ∅
  end.

Fixpoint gatewayApprovalQuotaMap `{MapRange, NumberText} (values : go_map) (keys : list string) : gmap string Z :=
  match keys with
  | [] => ∅
  | key :: keys =>
      match gatewayConditionRaw values key with
      | None => gatewayApprovalQuotaMap values keys
      | Some raw =>
          let quotas := gatewayApprovalQuotaMapFromValue raw in
          if bool_decide (quotas = ∅) then gatewayApprovalQuotaMap values keys else quotas
      end
  end.

Definition gatewayApprovalQuotaNames (values : gmap string Z) : list string :=
  filter (fun key => TrimSpace key <> "") (sortedStringKeys values).

Definition gatewayIntMapToAnyMap (values : gmap string Z) : go_map := AInt <$> values.

Definition role_quota_keys : list string :=
  ["requiredRoleApprovals"; "minRoleApprovals"; "roleApprovalQuorum"; "roleApprovals"; "roleQuotas"; "requiredRoles"].
Definition team_quota_keys : list string :=
  ["requiredTeamApprovals"; "minTeamApprovals"; "teamApprovalQuorum"; "teamApprovals"; "teamQuotas"; "requiredTeams"].
Definition required_keys : list string := ["requiredApprovals"; "minApprovals"; "approvalQuorum"; "quorum"; "minApproverCount"].
Definition stage_name_keys : list string := ["name"; "id"; "stage"; "label"].

(** ** Routing of a policy *)

Definition gatewayApprovalMode `{MapRange} (values : go_map) : string :=
  let text := ToLower (gatewayFirstString values ["approvalMode"; "approvalType"; "quorumMode"; "decisionMode"; "mode"]) in
  if contains ["any"; "or"; "anyof"; "any_of"; "oneof"; "one_of"; "atleastone"; "at_least_one"] text then "any"
  else if contains ["all"; "and"; "allof"; "all_of"; "unanimous"; "joint"; "jointapproval"; "joint_approval"] text then "all"
  else "".

(** A key set when its value is there. *)
Definition set_if (present : bool) (key : string) (value : any) (out : go_map) : go_map :=
  if present then <[key := value]> out else out.

Definition gatewayApprovalChangeWindow `{MapRange} (values : go_map) : go_map :=
  let window := mapValue (get values "changeWindow") in
  let window := if bool_decide (window = ∅) then mapValue (get values "approvalWindow") else window in
  let window := if bool_decide (window = ∅) then mapValue (get values "window") else window in
  let merged := mergeAnyMaps values window in
  let put key keys out := let text := gatewayFirstString merged keys in set_if (negb (str_empty text)) key (AString text) out in
  put "timezone" ["timezone"; "timeZone"; "tz"]
    (put "endsAt" ["endsAt"; "endAt"; "end"; "to"; "until"; "notAfter"]
      (put "startsAt" ["startsAt"; "startAt"; "start"; "from"; "notBefore"; "beginAt"] ∅)).

Definition gatewayApprovalPolicyValues (policy : go_map) : go_map :=
  fold_left (fun values alias => mergeAnyMaps values (mapValue (get policy alias)))
    ["routing"; "approvalRouting"; "approvers"; "candidates"; "candidateApprovers"] policy.

(** The candidates and their quotas, as a policy and each of its stages name them. *)
Definition put_candidates `{MapRange, NumberText} (values out : go_map) : go_map :=
  let users := normalizeStringSlice (gatewayConditionStringList values ["approverUsers"; "approverUserIds"; "candidateUsers";
    "candidateUserIds"; "approvalUsers"; "approvalUserIds"; "userIds"; "users"]) in
  let out := set_if (negb (is_empty users)) "candidateUserIds" (AStrings users) out in
  let roles := normalizeStringSlice (gatewayConditionStringList values ["approverRoles"; "candidateRoles"; "approvalRoles"; "roles"; "roleIds"]) in
  let roleQuotas := gatewayApprovalQuotaMap values role_quota_keys in
  let quoted := bool_decide (roleQuotas <> ∅) in
  let out := set_if quoted "requiredRoleApprovals" (AIntMap roleQuotas) out in
  let roles := if quoted then gatewayAppendUniqueStrings roles (gatewayApprovalQuotaNames roleQuotas) else roles in
  let out := set_if (negb (is_empty roles)) "candidateRoles" (AStrings (normalizeStringSlice roles)) out in
  let teams := normalizeStringSlice (gatewayConditionStringList values ["approverTeams"; "candidateTeams"; "approvalTeams"; "teams";
    "teamIds"; "groups"; "groupIds"]) in
  let teamQuotas := gatewayApprovalQuotaMap values team_quota_keys in
  let quoted := bool_decide (teamQuotas <> ∅) in
  let out := set_if quoted "requiredTeamApprovals" (AIntMap teamQuotas) out in
  let teams := if quoted then gatewayAppendUniqueStrings teams (gatewayApprovalQuotaNames teamQuotas) else teams in
  set_if (negb (is_empty teams)) "candidateTeams" (AStrings teams) out.

Definition put_mode_and_count `{MapRange, NumberText} (values out : go_map) : go_map :=
  let mode := gatewayApprovalMode values in
  let out := set_if (negb (str_empty mode)) "approvalMode" (AString mode) out in
  let '(required, ok) := gatewayFirstPositiveInt values required_keys in
  set_if ok "requiredApprovals" (AInt required) out.

Definition put_window `{MapRange} (values out : go_map) : go_map :=
  let changeWindow := gatewayApprovalChangeWindow values in
  set_if (bool_decide (changeWindow <> ∅)) "changeWindow" (AMap changeWindow) out.

Definition gatewayApprovalStageFromValue `{MapRange, NumberText} (value : any) (index : Z) : go_map :=
  let values := mapValue value in
  if bool_decide (values = ∅) then ∅
  else
    let name := gatewayFirstString values stage_name_keys in
    let stage := set_if (negb (str_empty name)) "name" (AString name) {["index" := AInt index]} in
    let stage := put_window values (put_mode_and_count values (put_candidates values stage)) in
    if bool_decide (size stage = 1) then ∅ else stage.

Definition gatewayApprovalStagesFromValues `{MapRange, NumberText} (values : go_map) : list go_map :=
  match omap (gatewayConditionRaw values) ["approvalStages"; "stages"; "approvalSteps"; "steps"] with
  | AList items :: _ =>
      filter (fun stage => stage <> ∅) (imap (fun index item => gatewayApprovalStageFromValue item (Z.of_nat index)) items)
  | _ => []
  end.

Definition gatewayApprovalRoutingFromPolicy `{MapRange, NumberText} (policy : go_map) : go_map :=
  if bool_decide (policy = ∅) then ∅
  else
    let values := gatewayApprovalPolicyValues policy in
    let out := put_candidates values ∅ in
    let onCallRef := gatewayFirstString values ["onCallRef"; "oncallRef"; "onCall"; "oncall"; "dutyRef"; "routeRef"; "scheduleRef"] in
    let out := set_if (negb (str_empty onCallRef)) "onCallRef" (AString onCallRef) out in
    let out := put_mode_and_count values out in
    let out := match gatewayApprovalStagesFromValues values with
      | [] => out
      | first :: _ as stages =>
          let out := <["currentStageIndex" := AInt 0]> (<["approvalStages" := AMaps stages]> out) in
          let stageName := TrimSpace (Sprint (get first "name")) in
          set_if (negb (str_empty stageName) && negb (String.eqb stageName "<nil>")) "currentStageName" (AString stageName) out
      end in
    put_window values out.

(** ** Merging *)

(** The maps of a slice; entries that are not maps, or are empty, are dropped. *)
Definition map_items (raw : any) : list go_map :=
  match raw with
  | AList items => filter (fun mapped => mapped <> ∅) (mapValue <$> items)
  | AMaps maps => maps
  | _ => []
  end.

Definition gatewayApprovalStages (routing : go_map) : list go_map := map_items (get routing "approvalStages").

Definition gatewayApprovalStageHistory (routing : go_map) : list go_map := map_items (get routing "stageHistory").

Definition gatewayApprovalDecisions (routing : go_map) : list go_map :=
  map_items (match routing !! "decisions" with Some raw => raw | None => get routing "approvals" end).

Definition gatewayApprovalQuotaAnyMap (value : any) : go_map :=
  match value with
  | AMap m => m
  | AIntMap m => gatewayIntMapToAnyMap m
  | _ => ∅
  end.

(** The larger of two counts; a count that is not positive adds nothing. *)
Definition raise_count `{NumberText} (out : go_map) (key : string) (value : any) : go_map :=
  let current := fst (gatewayPositiveInt (get out key)) in
  let '(next, ok) := gatewayPositiveInt value in
  if ok && (current <? next)%Z then <[key := AInt next]> out
  else if bool_decide (out !! key = None) && ok then <[key := AInt next]> out
  else out.

Definition gatewayMergeApprovalQuotaMaps `{MapRange, NumberText} (base override : any) : go_map :=
  let additions := gatewayApprovalQuotaAnyMap override in
  fold_left (fun out key => raise_count out key (get additions key)) (range_keys (dom additions)) (gatewayApprovalQuotaAnyMap base).

Definition gatewayMergeApprovalRouting `{MapRange, NumberText} (base override : go_map) : go_map :=
  fold_left (fun out key =>
    let value := get override key in
    if contains ["candidateUserIds"; "candidateRoles"; "candidateTeams"; "onCallCandidateUserIds"] key then
      <[key := AStrings (normalizeStringSlice (gatewayAppendUniqueStrings (gatewayStringList (get out key)) (gatewayStringList value)))]> out
    else if String.eqb key "requiredApprovals" then raise_count out key value
    else if contains ["requiredRoleApprovals"; "requiredTeamApprovals"] key then
      <[key := AMap (gatewayMergeApprovalQuotaMaps (get out key) value)]> out
    else if String.eqb key "approvalStages" then
      (if is_empty (gatewayApprovalStages out) then <[key := value]> out else out)
    else <[key := value]> out) (range_keys (dom override)) base.

Definition gatewayApprovalRoutingFromDecision `{MapRange, NumberText} (decision : gatewayRiskDecision) : go_map :=
  let inline := gatewayApprovalRoutingFromPolicy (Risk_ApprovalPolicy decision) in
  if bool_decide (inline = ∅) then ∅ else gatewayMergeApprovalRouting ∅ inline.

(** ** Stages *)

Definition gatewayApprovalCurrentStageIndex `{NumberText} (routing : go_map) : Z * bool :=
  if is_empty (gatewayApprovalStages routing) then (0%Z, false)
  else
    let '(value, ok) := gatewayNonNegativeInt (get routing "currentStageIndex") in
    if ok : bool then (value, true) else (0%Z, true).

Definition gatewayApprovalStageAt (routing : go_map) (stageIndex : Z) : option go_map :=
  if (stageIndex <? 0)%Z then None else gatewayApprovalStages routing !! Z.to_nat stageIndex.

Definition gatewayApprovalCurrentStageName `{MapRange} (routing : go_map) (stageIndex : Z) : string :=
  match gatewayApprovalStageAt routing stageIndex with
  | None => ""
  | Some stage => gatewayFirstString stage stage_name_keys
  end.

Definition gatewayApprovalDecisionMatchesStage `{NumberText} (decision : go_map) (stageIndex : Z) (hasStage : bool) : bool :=
  if negb hasStage then true
  else
    let '(value, ok) := gatewayNonNegativeInt (get decision "stageIndex") in
    ok && (value =? stageIndex)%Z.

Definition stage_keys : list string :=
  ["candidateUserIds"; "candidateRoles"; "candidateTeams"; "approvalMode"; "requiredApprovals"; "requiredRoleApprovals";
   "requiredTeamApprovals"].

Definition gatewayApprovalActiveRouting `{NumberText} (routing : go_map) : go_map :=
  let '(stageIndex, ok) := gatewayApprovalCurrentStageIndex routing in
  if negb ok then routing
  else match gatewayApprovalStageAt routing stageIndex with
  | None => routing
  | Some stage =>
      let active := fold_left (fun active key => delete key active) stage_keys routing in
      let decisions := filter (fun decision => gatewayApprovalDecisionMatchesStage decision stageIndex true = true)
        (gatewayApprovalDecisions routing) in
      <["decisions" := AMaps decisions]> (mergeAnyMaps active stage)
  end.

(** ** Counting *)

Definition approved (decision : go_map) : bool := EqualFold (TrimSpace (Sprint (get decision "result"))) "approved".

Definition gatewayApprovalDecisionUserIDs (routing : go_map) : list string :=
  fold_left (fun out decision =>
    if negb (approved decision) then out
    else
      let userID := TrimSpace (Sprint (get decision "userId")) in
      if negb (str_empty userID) && negb (String.eqb userID "<nil>") then gatewayAppendUniqueStrings out [userID] else out)
    (gatewayApprovalDecisions routing) [].

Definition gatewayApprovalRequiredCount `{MapRange, NumberText} (routing : go_map) : Z * bool :=
  let '(required, ok) := gatewayFirstPositiveInt routing required_keys in
  if negb ok || (required <=? 1)%Z then (1%Z, ok)
  else
    let candidateCount := Z.of_nat (length (gatewayAppendUniqueStrings [] (gatewayStringList (get routing "candidateUserIds")))) in
    if (0 <? candidateCount)%Z && (candidateCount <? required)%Z then (candidateCount, true) else (required, true).

Record gatewayApprovalQuorumStatus := {
  Quorum_Ready : bool;
  Quorum_Mode : string;
  Quorum_RequiredApprovals : Z;
  Quorum_HasApprovalQuota : bool;
  Quorum_ApprovedCount : Z;
  Quorum_RoleQuotas : gmap string Z;
  Quorum_TeamQuotas : gmap string Z;
  Quorum_RoleApprovedCounts : gmap string Z;
  Quorum_TeamApprovedCounts : gmap string Z;
  Quorum_PendingRequirements : list string;
  Quorum_SatisfiedRequirements : list string;
  Quorum_StageIndex : Z;
  Quorum_StageName : string;
  Quorum_StageCount : Z
}.

(** The names of one decision that have a quota. *)
Definition count_names (quotas : gmap string Z) (names : list string) (counts : gmap string Z) : gmap string Z :=
  fold_left (fun counts name =>
    if bool_decide (is_Some (quotas !! name)) then <[name := (lookup_default 0 counts name + 1)%Z]> counts else counts) names counts.

(** The counts of one kind of quota, whose names a decision carries under [key]. *)
Definition gatewayCountApprovalQuotaDecisions (key : string) (quotas : gmap string Z) (routing : go_map) : gmap string Z :=
  fold_left (fun counts decision =>
    if negb (approved decision) then counts
    else count_names quotas (normalizeStringSlice (gatewayStringList (get decision key))) counts)
    (gatewayApprovalDecisions routing) ∅.

Definition requirement (name : string) (approvedCount required : Z) : string :=
  name +:+ ":" +:+ pretty approvedCount +:+ "/" +:+ pretty required.

(** The requirements so far: those satisfied and those pending. *)
Definition requirements : Type := list string * list string.

Definition note_requirement (name : string) (approvedCount required : Z) (acc : requirements) : requirements :=
  let '(satisfied, pending) := acc in
  if (required <=? approvedCount)%Z then (satisfied ++ [requirement name approvedCount required], pending)
  else (satisfied, pending ++ [requirement name approvedCount required]).

Definition gatewayEvaluateApprovalQuotas (quotaKind : string) (quotas approvedCounts : gmap string Z) (acc : requirements)
    : requirements :=
  fold_left (fun acc name =>
    note_requirement (quotaKind +:+ ":" +:+ name) (lookup_default 0%Z approvedCounts name) (lookup_default 0%Z quotas name) acc)
    (sortedStringKeys quotas) acc.

Definition gatewayPrefixApprovalRequirements (values : list string) (prefix : string) : list string :=
  if str_empty prefix || is_empty values then values else (fun value => prefix +:+ ":" +:+ value) <$> values.

Definition gatewayApprovalQuorumStatusFromRouting `{MapRange, NumberText} (routing : go_map) : gatewayApprovalQuorumStatus :=
  let activeRouting := gatewayApprovalActiveRouting routing in
  let '(stageIndex, hasStage) := gatewayApprovalCurrentStageIndex routing in
  let '(requiredApprovals, hasApprovalQuota) := gatewayApprovalRequiredCount activeRouting in
  let mode := gatewayApprovalMode activeRouting in
  let mode := if str_empty mode then "all" else mode in
  let approvedCount := Z.of_nat (length (gatewayApprovalDecisionUserIDs activeRouting)) in
  let roleQuotas := gatewayApprovalQuotaMap activeRouting role_quota_keys in
  let teamQuotas := gatewayApprovalQuotaMap activeRouting team_quota_keys in
  let totalQuotaApplies := hasApprovalQuota ||
    (negb (String.eqb mode "any") || (bool_decide (roleQuotas = ∅) && bool_decide (teamQuotas = ∅))) in
  let roleCounts := gatewayCountApprovalQuotaDecisions "roles" roleQuotas activeRouting in
  let teamCounts := gatewayCountApprovalQuotaDecisions "teams" teamQuotas activeRouting in
  let total := if totalQuotaApplies then note_requirement "approvals" approvedCount requiredApprovals ([], []) else ([], []) in
  let '(satisfied, pending) :=
    gatewayEvaluateApprovalQuotas "team" teamQuotas teamCounts (gatewayEvaluateApprovalQuotas "role" roleQuotas roleCounts total) in
  let ready := if String.eqb mode "any" then negb (is_empty satisfied) else is_empty pending in
  let prefix values := if hasStage : bool then gatewayPrefixApprovalRequirements values ("stage:" +:+ pretty stageIndex) else values in
  {| Quorum_Ready := ready; Quorum_Mode := mode; Quorum_RequiredApprovals := requiredApprovals;
     Quorum_HasApprovalQuota := hasApprovalQuota; Quorum_ApprovedCount := approvedCount; Quorum_RoleQuotas := roleQuotas;
     Quorum_TeamQuotas := teamQuotas; Quorum_RoleApprovedCounts := roleCounts; Quorum_TeamApprovedCounts := teamCounts;
     Quorum_PendingRequirements := prefix pending; Quorum_SatisfiedRequirements := prefix satisfied;
     Quorum_StageIndex := stageIndex; Quorum_StageName := gatewayApprovalCurrentStageName routing stageIndex;
     Quorum_StageCount := Z.of_nat (length (gatewayApprovalStages routing)) |}.

(** ** Voting *)

(** A key set when its value is there, and removed otherwise. *)
Definition set_or_delete (present : bool) (key : string) (value : any) (out : go_map) : go_map :=
  if present then <[key := value]> out else delete key out.

Definition gatewayApplyApprovalStatusToRouting (routing : go_map) (status : gatewayApprovalQuorumStatus) : go_map :=
  let routing := <["approvedCount" := AInt (Quorum_ApprovedCount status)]> routing in
  let routing := <["requiredApprovals" := AInt (Quorum_RequiredApprovals status)]> routing in
  let routing := set_or_delete (bool_decide (Quorum_RoleApprovedCounts status <> ∅)) "roleApprovedCounts"
    (AMap (gatewayIntMapToAnyMap (Quorum_RoleApprovedCounts status))) routing in
  let routing := set_or_delete (bool_decide (Quorum_TeamApprovedCounts status <> ∅)) "teamApprovedCounts"
    (AMap (gatewayIntMapToAnyMap (Quorum_TeamApprovedCounts status))) routing in
  let routing := set_or_delete (negb (is_empty (Quorum_PendingRequirements status))) "pendingRequirements"
    (AStrings (Quorum_PendingRequirements status)) routing in
  let routing := set_or_delete (negb (is_empty (Quorum_SatisfiedRequirements status))) "satisfiedRequirements"
    (AStrings (Quorum_SatisfiedRequirements status)) routing in
  let routing := <["approvalMode" := AString (Quorum_Mode status)]> routing in
  if (0 <? Quorum_StageCount status)%Z then
    let routing := <["currentStageIndex" := AInt (Quorum_StageIndex status)]> routing in
    let routing := set_if (negb (str_empty (Quorum_StageName status))) "currentStageName" (AString (Quorum_StageName status)) routing in
    <["stageCount" := AInt (Quorum_StageCount status)]> routing
  else routing.

Definition vote_of `{MapRange, NumberText, TimeText} (routing : go_map) (principal : Principal) (comment : string) (now : Z) : go_map :=
  let decision : go_map :=
    <["userId" := AString (TrimSpace (Principal_UserID principal))]>
    (<["userName" := AString (TrimSpace (Principal_UserName principal))]>
    (<["roles" := AStrings (normalizeStringSlice (Principal_Roles principal))]>
    (<["teams" := AStrings (normalizeStringSlice (Principal_Teams principal))]>
    (<["comment" := AString (TrimSpace comment)]>
    (<["decidedAt" := AString (format_rfc3339 now)]>
    {["result" := AString "approved"]}))))) in
  let '(stageIndex, hasStage) := gatewayApprovalCurrentStageIndex routing in
  if hasStage : bool then
    let decision := <["stageIndex" := AInt stageIndex]> decision in
    let stageName := gatewayApprovalCurrentStageName routing stageIndex in
    set_if (negb (str_empty stageName)) "stageName" (AString stageName) decision
  else decision.

(** The first of the decisions that matches, replaced; or the vote at the end. *)
Fixpoint replace_vote (same : go_map -> bool) (vote : go_map) (decisions : list go_map) : list go_map :=
  match decisions with
  | [] => [vote]
  | decision :: decisions => if same decision then vote :: decisions else decision :: replace_vote same vote decisions
  end.

Definition same_vote `{NumberText} (routing : go_map) (principal : Principal) (decision : go_map) : bool :=
  let '(stageIndex, hasStage) := gatewayApprovalCurrentStageIndex routing in
  EqualFold (TrimSpace (Sprint (get decision "userId"))) (Principal_UserID principal) &&
  gatewayApprovalDecisionMatchesStage decision stageIndex hasStage.

Definition with_decisions `{MapRange, NumberText, TimeText} (routing : go_map) (principal : Principal) (comment : string) (now : Z)
    : go_map :=
  <["decisions" := AMaps (replace_vote (same_vote routing principal) (vote_of routing principal comment now)
    (gatewayApprovalDecisions routing))]> routing.

Definition gatewayApprovalRoutingWithVote `{MapRange, NumberText, TimeText} (relatedIDs : go_map) (principal : Principal)
    (comment : string) (now : Z) : go_map * go_map :=
  let routing := with_decisions (mapValue (get relatedIDs "approvalRouting")) principal comment now in
  let routing := gatewayApplyApprovalStatusToRouting routing (gatewayApprovalQuorumStatusFromRouting routing) in
  (<["approvalRouting" := AMap routing]> relatedIDs, routing).

Definition gatewayApprovalHasNextStage (status : gatewayApprovalQuorumStatus) : bool :=
  (0 <? Quorum_StageCount status)%Z && (Quorum_StageIndex status + 1 <? Quorum_StageCount status)%Z.

Definition gatewayApprovalAdvanceStage `{MapRange, NumberText, TimeText} (relatedIDs : go_map) (status : gatewayApprovalQuorumStatus)
    (now : Z) : go_map * gatewayApprovalQuorumStatus :=
  let routing := mapValue (get relatedIDs "approvalRouting") in
  let nextStageIndex := (Quorum_StageIndex status + 1)%Z in
  let routing := <["currentStageIndex" := AInt nextStageIndex]> routing in
  let stageName := gatewayApprovalCurrentStageName routing nextStageIndex in
  let routing := set_or_delete (negb (str_empty stageName)) "currentStageName" (AString stageName) routing in
  let completed : go_map := <["stageIndex" := AInt (Quorum_StageIndex status)]> (<["stageName" := AString (Quorum_StageName status)]>
    (<["completedAt" := AString (format_rfc3339 now)]> {["result" := AString "approved"]})) in
  let routing := <["stageHistory" := AMaps (gatewayApprovalStageHistory routing ++ [completed])]> routing in
  let nextStatus := gatewayApprovalQuorumStatusFromRouting routing in
  (<["approvalRouting" := AMap (gatewayApplyApprovalStatusToRouting routing nextStatus)]> relatedIDs, nextStatus).

Definition gatewayApprovalPendingSummary (status : gatewayApprovalQuorumStatus) : string :=
  if is_empty (Quorum_PendingRequirements status) then
    "AI Gateway approval request approved by " +:+ pretty (Quorum_ApprovedCount status) +:+ "/" +:+
    pretty (Quorum_RequiredApprovals status) +:+ " candidates"
  else "AI Gateway approval request pending " +:+ Quorum_Mode status +:+ " quorum: " +:+ Join (Quorum_PendingRequirements status) ", ".

Definition gatewayApprovalStagePendingSummary (status : gatewayApprovalQuorumStatus) : string :=
  let stage := if str_empty (Quorum_StageName status) then pretty (Quorum_StageIndex status) else Quorum_StageName status in
  "AI Gateway approval request advanced to stage " +:+ stage +:+ ": " +:+ gatewayApprovalPendingSummary status.

(** ** Who may vote, and when *)

Definition gatewayApprovalPrincipalMatchesRouting (principal : Principal) (routing : go_map) : bool :=
  let users := normalizeStringSlice (gatewayStringList (get routing "candidateUserIds")) in
  let roles := normalizeStringSlice (gatewayStringList (get routing "candidateRoles")) in
  let teams := normalizeStringSlice (gatewayStringList (get routing "candidateTeams")) in
  if is_empty users && is_empty roles && is_empty teams then true
  else if contains users (TrimSpace (Principal_UserID principal)) then true
  else if negb (is_empty (intersectStringSlices roles (Principal_Roles principal))) then true
  else negb (is_empty (intersectStringSlices teams (Principal_Teams principal))).

Definition parseGatewayApprovalWindowTime `{TimeText} (value : any) : option Z :=
  let text := TrimSpace (Sprint value) in
  if str_empty text || String.eqb text "<nil>" then None else parse_time text.

Definition outside_window : error := errorf ErrAccessDenied "approval request is outside the configured change window".

Definition gatewayApprovalChangeWindowAllows `{TimeText} (routing : go_map) (now : Z) : option error :=
  let window := mapValue (get routing "changeWindow") in
  if bool_decide (window = ∅) then None
  else
    let early := match parseGatewayApprovalWindowTime (get window "startsAt") with Some startsAt => (now <? startsAt)%Z | None => false end in
    let late := match parseGatewayApprovalWindowTime (get window "endsAt") with Some endsAt => (endsAt <? now)%Z | None => false end in
    if early || late then Some outside_window else None.

Definition authorizeGatewayApprovalDecision `{NumberText, TimeText} (principal : Principal) (request : ApprovalRequest) (action : string)
    (now : Z) : option error :=
  let routing := mapValue (get (ApprovalRequest_RelatedIDs request) "approvalRouting") in
  if bool_decide (routing = ∅) then None
  else
    let activeRouting := gatewayApprovalActiveRouting routing in
    if negb (gatewayApprovalPrincipalMatchesRouting principal activeRouting)
    then Some (errorf ErrAccessDenied "approval request is restricted to configured candidate approvers")
    else if String.eqb action "approve" then gatewayApprovalChangeWindowAllows activeRouting now
    else None.

(** ** Lemmas: requirements *)

(** How a list of named counts splits into what is met and what is not. *)
Lemma evaluate_quotas_fold (named : string -> string) (quotas counts : gmap string Z) names : forall satisfied pending,
  let '(satisfied', pending') := fold_left (fun acc name =>
    note_requirement (named name) (lookup_default 0%Z counts name) (lookup_default 0%Z quotas name) acc) names (satisfied, pending) in
  (is_empty satisfied' = false <-> is_empty satisfied = false \/
     exists name, name ∈ names /\ (lookup_default 0 quotas name <= lookup_default 0 counts name)%Z) /\
  (is_empty pending' = true <-> is_empty pending = true /\
     forall name, name ∈ names -> (lookup_default 0 quotas name <= lookup_default 0 counts name)%Z).
Proof.
  induction names as [|name names IH]; intros satisfied pending; cbn [fold_left]; [set_solver|].
  unfold note_requirement at 2. destruct (_ <=? _)%Z eqn:Hle.
  - specialize (IH (satisfied ++ [requirement (named name) (lookup_default 0%Z counts name) (lookup_default 0%Z quotas name)]) pending).
    destruct (fold_left _ _ _) as [s' p']. destruct IH as [-> ->]. setoid_rewrite elem_of_cons. apply Z.leb_le in Hle.
    assert (forall x : string, is_empty (satisfied ++ [x]) = false) as Hne by (intros x; by destruct satisfied). rewrite Hne. naive_solver.
  - specialize (IH satisfied (pending ++ [requirement (named name) (lookup_default 0%Z counts name) (lookup_default 0%Z quotas name)])).
    destruct (fold_left _ _ _) as [s' p']. destruct IH as [-> ->]. setoid_rewrite elem_of_cons. apply Z.leb_gt in Hle.
    assert (forall x : string, is_empty (pending ++ [x]) = false) as Hne by (intros x; by destruct pending). rewrite Hne.
    split; [|split; [intros [? _]; done|intros [_ Hall]; specialize (Hall name (or_introl eq_refl)); lia]].
    split; [intros [?|(n & ? & ?)]; [by left|right; eauto]|]. intros [?|(n & [->|?] & ?)]; [by left|lia|right; eauto].
Qed.

Lemma elem_of_sortedStringKeys {T} (m : gmap string T) name : name ∈ sortedStringKeys m <-> is_Some (m !! name).
Proof. unfold sortedStringKeys. by rewrite elem_of_sort_strings, elem_of_elements, elem_of_dom. Qed.

(** A quota of a map is met, or all are. *)
Definition some_met (quotas counts : gmap string Z) : Prop :=
  exists name required, quotas !! name = Some required /\ (required <= lookup_default 0 counts name)%Z.
Definition all_met (quotas counts : gmap string Z) : Prop :=
  forall name required, quotas !! name = Some required -> (required <= lookup_default 0 counts name)%Z.

Lemma evaluate_quotas_spec kind quotas counts satisfied pending :
  let '(satisfied', pending') := gatewayEvaluateApprovalQuotas kind quotas counts (satisfied, pending) in
  (is_empty satisfied' = false <-> is_empty satisfied = false \/ some_met quotas counts) /\
  (is_empty pending' = true <-> is_empty pending = true /\ all_met quotas counts).
Proof.
  unfold gatewayEvaluateApprovalQuotas.
  pose proof (evaluate_quotas_fold (fun name => kind +:+ ":" +:+ name) quotas counts (sortedStringKeys quotas) satisfied pending) as Hf.
  destruct (fold_left _ _ _) as [s' p']. destruct Hf as [-> ->]. setoid_rewrite elem_of_sortedStringKeys.
  unfold some_met, all_met, lookup_default. split.
  - split; (intros [?|Hex]; [by left|right]).
    + destruct Hex as (name & [required Hq] & Hle). rewrite Hq in Hle. eauto.
    + destruct Hex as (name & required & Hq & Hle). exists name. rewrite Hq. split; [by eexists|done].
  - split; intros [? Hall]; (split; [done|]).
    + intros name required Hq. specialize (Hall name). rewrite Hq in Hall. apply Hall. by eexists.
    + intros name [required Hq]. rewrite Hq. by apply Hall.
Qed.

(** ** Lemmas: distinct texts *)

Lemma add_unique_fold values : forall out seen,
  seen = list_to_set (ToLower <$> out) ->
  let '(out', seen') := fold_left add_unique values (out, seen) in
  exists rest, out' = out ++ rest /\ normal_texts rest /\ seen' = list_to_set (ToLower <$> out') /\
    (NoDup (ToLower <$> out) -> NoDup (ToLower <$> out')) /\
    forall key, key ∈ seen' <-> key ∈ seen \/ exists v, v ∈ values /\ TrimSpace v <> "" /\ key = ToLower (TrimSpace v).
Proof.
  induction values as [|v values IH]; intros out seen Hs; cbn [fold_left].
  { exists []. rewrite app_nil_r. split_and!; [done|intros ? Hi; by apply not_elem_of_nil in Hi|done|done|set_solver]. }
  unfold add_unique at 2. destruct (str_empty (TrimSpace v) || _) eqn:Hc.
  - specialize (IH out seen Hs). destruct (fold_left _ _ _) as [out' seen']. destruct IH as (rest & -> & Hr & -> & Hn & Hk).
    exists rest. split_and!; [done|done|done|done|]. intros key. rewrite Hk. apply orb_true_iff in Hc as [Hc|Hc].
    + apply String.eqb_eq in Hc. set_solver.
    + apply bool_decide_eq_true in Hc. set_solver.
  - apply orb_false_iff in Hc as [Hb Hc]. apply String.eqb_neq in Hb. apply bool_decide_eq_false in Hc.
    specialize (IH (out ++ [TrimSpace v]) ({[ToLower (TrimSpace v)]} ∪ seen)).
    destruct (fold_left _ _ _) as [out' seen']. destruct IH as (rest & -> & Hr & Hs' & Hn & Hk); [subst; rewrite fmap_app; set_solver|].
    exists ([TrimSpace v] ++ rest). rewrite app_assoc. split_and!; [done| |done| |].
    + intros x [->%list_elem_of_singleton|Hx]%elem_of_app; [split; [apply TrimSpace_idem|done]|by apply Hr].
    + intros Ho. apply Hn. rewrite fmap_app. apply NoDup_app. split_and!; [done| |apply NoDup_singleton].
      intros x Hx ->%list_elem_of_singleton. apply Hc. subst seen. by apply elem_of_list_to_set.
    + intros key. rewrite Hk. set_solver.
Qed.

Lemma append_unique_spec values additions :
  let out := gatewayAppendUniqueStrings values additions in
  normal_texts out /\ NoDup (ToLower <$> out) /\
  forall key, key ∈ ToLower <$> out <-> exists v, v ∈ values ++ additions /\ TrimSpace v <> "" /\ key = ToLower (TrimSpace v).
Proof.
  unfold gatewayAppendUniqueStrings. pose proof (add_unique_fold (values ++ additions) [] ∅ eq_refl) as Hf.
  destruct (fold_left _ _ _) as [out seen]. destruct Hf as (rest & -> & Hr & Hs & Hn & Hk). simpl in *.
  split_and!; [done|apply Hn; constructor|]. intros key. rewrite <- (elem_of_list_to_set (C := gset string)), <- Hs, Hk. set_solver.
Qed.

(** ** Lemmas: counting *)

(** The user an approving decision counts for, without regard to case. *)
Definition approver (decision : go_map) : option string :=
  let userID := TrimSpace (Sprint (get decision "userId")) in
  if approved decision && negb (str_empty userID) && negb (String.eqb userID "<nil>") then Some (ToLower userID) else None.

Definition approvers (routing : go_map) : gset string := list_to_set (omap approver (gatewayApprovalDecisions routing)).

Lemma user_ids_fold decisions : forall out, normal_texts out -> NoDup (ToLower <$> out) ->
  let out' := fold_left (fun out decision =>
    if negb (approved decision) then out
    else
      let userID := TrimSpace (Sprint (get decision "userId")) in
      if negb (str_empty userID) && negb (String.eqb userID "<nil>") then gatewayAppendUniqueStrings out [userID] else out) decisions out in
  NoDup (ToLower <$> out') /\
  forall key, key ∈ ToLower <$> out' <-> key ∈ ToLower <$> out \/ key ∈ omap approver decisions.
Proof.
  induction decisions as [|d decisions IH]; intros out Ho Hn; cbn [fold_left]; [set_solver|].
  assert (Hom : omap approver (d :: decisions) = match approver d with Some u => u :: omap approver decisions | None => omap approver decisions end) by done.
  rewrite Hom. unfold approver at 1. cbv zeta. destruct (approved d); cbn [negb andb]; [|by apply IH].
  destruct (negb (str_empty _) && negb _) eqn:Hu; [|by apply IH].
  apply andb_true_iff in Hu as [Hne%negb_true_iff _]. apply String.eqb_neq in Hne.
  set (u := TrimSpace (Sprint (get d "userId"))) in *.
  destruct (append_unique_spec out [u]) as (Hn1 & Hnd & Hk). destruct (IH _ Hn1 Hnd) as [HN HK]. split; [done|].
  intros key. rewrite HK, Hk, elem_of_cons. setoid_rewrite elem_of_app. setoid_rewrite list_elem_of_singleton.
  assert (TrimSpace u = u) as Hidem by apply TrimSpace_idem.
  split.
  - intros [(v & [Hv| ->] & Hb & ->)|?]; [left| |by right; right].
    + destruct (Ho v Hv) as [-> _]. apply list_elem_of_fmap. by exists v.
    + right; left. by rewrite Hidem.
  - intros [(v & -> & Hv)%list_elem_of_fmap|[->|?]]; [left; exists v|left; exists u|by right].
    + destruct (Ho v Hv) as [-> ?]. by split_and!; [left|..].
    + rewrite Hidem. by split_and!; [right|..].
Qed.

Lemma approved_count_spec routing :
  length (gatewayApprovalDecisionUserIDs routing) = size (approvers routing).
Proof.
  unfold gatewayApprovalDecisionUserIDs.
  destruct (user_ids_fold (gatewayApprovalDecisions routing) []) as [Hn Hk]; [intros ? Hi; by apply not_elem_of_nil in Hi|constructor|].
  rewrite <- (length_fmap ToLower), <- (size_list_to_set (C := gset string)) by done.
  f_equal. apply set_eq. intros x. unfold approvers. rewrite !elem_of_list_to_set, Hk. set_solver.
Qed.

Lemma count_names_spec quotas name required names : quotas !! name = Some required -> forall counts, NoDup names ->
  lookup_default 0%Z (count_names quotas names counts) name =
  (lookup_default 0 counts name + if bool_decide (name ∈ names) then 1 else 0)%Z.
Proof.
  intros Hq. induction names as [|n names IH]; intros counts; [intros _; case_bool_decide; [set_solver|simpl; lia]|].
  intros [Hn Hnd]%NoDup_cons.
  change (count_names quotas (n :: names) counts) with (count_names quotas names
    (if bool_decide (is_Some (quotas !! n)) then <[n := (lookup_default 0 counts n + 1)%Z]> counts else counts)).
  rewrite (IH _ Hnd). clear IH.
  destruct (decide (n = name)) as [->|Hne].
  - rewrite (bool_decide_eq_true_2 (is_Some (quotas !! name))) by by eexists.
    rewrite (bool_decide_eq_false_2 (name ∈ names)) by done. rewrite (bool_decide_eq_true_2 (name ∈ name :: names)) by left.
    unfold lookup_default at 1. rewrite lookup_insert_eq. simpl. lia.
  - assert (bool_decide (name ∈ n :: names) = bool_decide (name ∈ names)) as -> by (apply bool_decide_ext; set_solver).
    case_bool_decide; [|done]. unfold lookup_default at 1. by rewrite lookup_insert_ne.
Qed.

(** The approving decisions whose [key] lists a name. *)
Definition votes_of (key name : string) (decisions : list go_map) : Z :=
  Z.of_nat (length (filter (fun d => approved d = true /\ name ∈ normalizeStringSlice (gatewayStringList (get d key))) decisions)).

Lemma count_decisions_spec key quotas routing name required : quotas !! name = Some required ->
  lookup_default 0%Z (gatewayCountApprovalQuotaDecisions key quotas routing) name = votes_of key name (gatewayApprovalDecisions routing).
Proof.
  intros Hq. unfold gatewayCountApprovalQuotaDecisions.
  assert (forall decisions counts, lookup_default 0%Z (fold_left (fun counts decision =>
    if negb (approved decision) then counts
    else count_names quotas (normalizeStringSlice (gatewayStringList (get decision key))) counts) decisions counts) name =
    (lookup_default 0 counts name + votes_of key name decisions)%Z) as Hall; [|rewrite Hall; unfold lookup_default; by rewrite lookup_empty].
  induction decisions as [|d decisions IH]; intros counts; [unfold votes_of; simpl; lia|].
  cbn [fold_left]. rewrite IH. unfold votes_of. rewrite filter_cons. destruct (approved d) eqn:Ha; cbn [negb].
  - rewrite (count_names_spec _ _ _ _ Hq) by apply normalize_canonical. destruct (bool_decide (name ∈ _)) eqn:Hb.
    + apply bool_decide_eq_true in Hb. rewrite decide_True by done. cbn [length]. lia.
    + apply bool_decide_eq_false in Hb. rewrite decide_False by tauto. lia.
  - rewrite decide_False by (intros [? _]; congruence). done.
Qed.

Lemma total_requirement (applies : bool) name count required :
  let acc := if applies then note_requirement name count required ([], []) else ([], []) in
  (is_empty (fst acc) = false <-> applies = true /\ (required <= count)%Z) /\
  (is_empty (snd acc) = true <-> (applies = true -> (required <= count)%Z)).
Proof.
  destruct applies; simpl; [|by split; split; [|intros [? _]| |]]. unfold note_requirement.
  destruct (Z.leb_spec required count) as [Hle|Hlt]; simpl; (split; split); try done; lia.
Qed.

(** ** The specification of a quorum *)

Section quorum.
Context `{MapRange, NumberText} (routing : go_map).

Let active := gatewayApprovalActiveRouting routing.
Let decisions := gatewayApprovalDecisions active.
Let role_quotas := gatewayApprovalQuotaMap active role_quota_keys.
Let team_quotas := gatewayApprovalQuotaMap active team_quota_keys.
Let required := gatewayApprovalRequiredCount active.

(** Enough distinct users approved. *)
Definition enough_approvers : Prop := (fst required <= Z.of_nat (size (approvers active)))%Z.

(** Any requirement suffices in mode [any]; there the number of approvers is
    one of them only when the routing asks for it, or asks for nothing else. *)
Definition any_requirement : Prop :=
  ((snd required = true \/ (role_quotas = ∅ /\ team_quotas = ∅)) /\ enough_approvers) \/
  (exists role n, role_quotas !! role = Some n /\ (n <= votes_of "roles" role decisions)%Z) \/
  (exists team n, team_quotas !! team = Some n /\ (n <= votes_of "teams" team decisions)%Z).

Definition all_requirements : Prop :=
  enough_approvers /\
  (forall role n, role_quotas !! role = Some n -> (n <= votes_of "roles" role decisions)%Z) /\
  (forall team n, team_quotas !! team = Some n -> (n <= votes_of "teams" team decisions)%Z).

Definition quorum_met : Prop := if decide (gatewayApprovalMode active = "any") then any_requirement else all_requirements.

Lemma some_met_votes key quotas :
  some_met quotas (gatewayCountApprovalQuotaDecisions key quotas active) <->
  exists name n, quotas !! name = Some n /\ (n <= votes_of key name decisions)%Z.
Proof.
  unfold some_met. split; intros (name & n & Hq & Hle); exists name, n; (split; [done|]).
  - by rewrite (count_decisions_spec _ _ _ _ _ Hq) in Hle.
  - by rewrite (count_decisions_spec _ _ _ _ _ Hq).
Qed.

Lemma all_met_votes key quotas :
  all_met quotas (gatewayCountApprovalQuotaDecisions key quotas active) <->
  forall name n, quotas !! name = Some n -> (n <= votes_of key name decisions)%Z.
Proof.
  unfold all_met. split; intros Hall name n Hq; specialize (Hall name n Hq).
  - by rewrite (count_decisions_spec _ _ _ _ _ Hq) in Hall.
  - by rewrite (count_decisions_spec _ _ _ _ _ Hq).
Qed.

Lemma mode_any_spec : String.eqb (let mode := gatewayApprovalMode active in if str_empty mode then "all" else mode) "any" =
  bool_decide (gatewayApprovalMode active = "any").
Proof. simpl. destruct (String.eqb_spec (gatewayApprovalMode active) "any") as [->|Hne]; [done|]. 
  rewrite bool_decide_eq_false_2 by done. unfold str_empty. destruct (String.eqb_spec (gatewayApprovalMode active) ""); [done|by apply String.eqb_neq].
Qed.
End quorum.

(** ** Lemmas: what a vote writes *)

Lemma lookup_set_or_delete_ne b k k' v (m : go_map) : k <> k' -> set_or_delete b k v m !! k' = m !! k'.
Proof. intros Hk. unfold set_or_delete. destruct b; [by rewrite lookup_insert_ne|by rewrite lookup_delete_ne]. Qed.

Lemma lookup_set_if_ne b k k' v (m : go_map) : k <> k' -> set_if b k v m !! k' = m !! k'.
Proof. intros Hk. unfold set_if. destruct b; [by rewrite lookup_insert_ne|done]. Qed.

(** Lookups through updates of other keys. *)
Ltac lookup_past tac :=
  repeat first [rewrite lookup_insert_ne by tac | rewrite lookup_set_or_delete_ne by tac | rewrite lookup_set_if_ne by tac].
Ltac lookup_keys := lookup_past discriminate; rewrite ?lookup_insert_eq.

Definition status_keys : list string :=
  ["approvedCount"; "requiredApprovals"; "roleApprovedCounts"; "teamApprovedCounts"; "pendingRequirements"; "satisfiedRequirements";
   "approvalMode"; "currentStageIndex"; "currentStageName"; "stageCount"].

Lemma apply_status_other routing status key : contains status_keys key = false ->
  gatewayApplyApprovalStatusToRouting routing status !! key = routing !! key.
Proof.
  intros Hk%contains_false.
  assert (forall k, k ∈ status_keys -> k <> key) as Hne by (intros k Hin ->; done). clear Hk.
  unfold gatewayApplyApprovalStatusToRouting. cbv zeta.
  case_match; by lookup_past ltac:(apply Hne, contains_true; vm_compute; reflexivity).
Qed.

Lemma apply_status_decisions routing status :
  gatewayApprovalDecisions (gatewayApplyApprovalStatusToRouting routing status) = gatewayApprovalDecisions routing.
Proof. unfold gatewayApprovalDecisions, get. by rewrite !apply_status_other. Qed.

Lemma apply_status_stages routing status :
  gatewayApprovalStages (gatewayApplyApprovalStatusToRouting routing status) = gatewayApprovalStages routing.
Proof. unfold gatewayApprovalStages, get. by rewrite apply_status_other. Qed.

Lemma apply_status_required routing status :
  gatewayApplyApprovalStatusToRouting routing status !! "requiredApprovals" = Some (AInt (Quorum_RequiredApprovals status)).
Proof.
  unfold gatewayApplyApprovalStatusToRouting. cbv zeta. case_match; by lookup_keys.
Qed.

Lemma apply_status_mode routing status :
  gatewayApplyApprovalStatusToRouting routing status !! "approvalMode" = Some (AString (Quorum_Mode status)).
Proof.
  unfold gatewayApplyApprovalStatusToRouting. cbv zeta. case_match; by lookup_keys.
Qed.

Lemma apply_status_index routing status : (0 < Quorum_StageCount status)%Z ->
  gatewayApplyApprovalStatusToRouting routing status !! "currentStageIndex" = Some (AInt (Quorum_StageIndex status)).
Proof.
  intros Hc. unfold gatewayApplyApprovalStatusToRouting. cbv zeta.
  rewrite (proj2 (Z.ltb_lt _ _) Hc). by lookup_keys.
Qed.

Lemma stage_index_nonnegative `{NumberText} routing : (0 <= fst (gatewayApprovalCurrentStageIndex routing))%Z.
Proof.
  unfold gatewayApprovalCurrentStageIndex. destruct (is_empty _); [done|]. unfold gatewayNonNegativeInt, gatewayInt.
  destruct (get routing "currentStageIndex") as [|s| |n|text n| | | | | | | | |]; try done; simpl.
  - destruct (str_empty _); [done|]. destruct (parse_number _) as [n|]; [|done]. destruct (Z.leb_spec 0 n); simpl; lia.
  - destruct (Z.leb_spec 0 n); simpl; lia.
  - destruct (Z.leb_spec 0 n); simpl; lia.
Qed.

Lemma stage_index_set `{NumberText} routing n : gatewayApprovalStages routing <> [] -> (0 <= n)%Z ->
  routing !! "currentStageIndex" = Some (AInt n) -> gatewayApprovalCurrentStageIndex routing = (n, true).
Proof.
  intros Hs Hn Hl. unfold gatewayApprovalCurrentStageIndex, get. rewrite Hl. simpl. destruct (gatewayApprovalStages routing); [done|].
  simpl. by rewrite (proj2 (Z.leb_le _ _) Hn).
Qed.

(** Nothing but the stages and their index decides the current stage. *)
Lemma stage_index_ext `{NumberText} r1 r2 :
  gatewayApprovalStages r1 = gatewayApprovalStages r2 -> get r1 "currentStageIndex" = get r2 "currentStageIndex" ->
  gatewayApprovalCurrentStageIndex r1 = gatewayApprovalCurrentStageIndex r2.
Proof. intros Hs Hi. unfold gatewayApprovalCurrentStageIndex. by rewrite Hs, Hi. Qed.

Lemma status_stage `{MapRange, NumberText} routing :
  Quorum_StageIndex (gatewayApprovalQuorumStatusFromRouting routing) = fst (gatewayApprovalCurrentStageIndex routing) /\
  Quorum_StageCount (gatewayApprovalQuorumStatusFromRouting routing) = Z.of_nat (length (gatewayApprovalStages routing)).
Proof.
  unfold gatewayApprovalQuorumStatusFromRouting. destruct (gatewayApprovalCurrentStageIndex routing) as [i b].
  destruct (gatewayApprovalRequiredCount _) as [req e]. cbv zeta. by destruct (gatewayEvaluateApprovalQuotas "team" _ _ _).
Qed.

Lemma apply_own_status_stage `{MapRange, NumberText} routing :
  gatewayApprovalCurrentStageIndex (gatewayApplyApprovalStatusToRouting routing (gatewayApprovalQuorumStatusFromRouting routing)) =
  gatewayApprovalCurrentStageIndex routing.
Proof.
  set (status := gatewayApprovalQuorumStatusFromRouting routing).
  destruct (status_stage routing) as [Hi Hc]. fold status in Hi, Hc.
  pose proof (apply_status_stages routing status) as Hs. destruct (gatewayApprovalStages routing) as [|stage stages] eqn:Hst.
  - unfold gatewayApprovalCurrentStageIndex. by rewrite Hs, Hst.
  - rewrite (stage_index_set _ (Quorum_StageIndex status)).
    + rewrite Hi. unfold gatewayApprovalCurrentStageIndex. rewrite Hst. simpl. by destruct (gatewayNonNegativeInt _) as [? []].
    + by rewrite Hs.
    + rewrite Hi. apply stage_index_nonnegative.
    + apply apply_status_index. rewrite Hc. simpl. lia.
Qed.

(** ** Lemmas: the votes of one user *)

Section votes.
Context `{MapRange, NumberText, TimeText} (routing : go_map) (principal : Principal) (comment : string) (now : Z).

Let vote := vote_of routing principal comment now.

Lemma vote_fields : vote !! "userId" = Some (AString (TrimSpace (Principal_UserID principal))) /\ vote !! "result" = Some (AString "approved").
Proof.
  unfold vote, vote_of. destruct (gatewayApprovalCurrentStageIndex routing) as [i []]; [|done].
  cbv zeta. unfold set_if. case_match; by rewrite ?(lookup_insert_ne _ "stageName"), !(lookup_insert_ne _ "stageIndex").
Qed.

Lemma vote_matches_stage :
  let '(stageIndex, hasStage) := gatewayApprovalCurrentStageIndex routing in
  gatewayApprovalDecisionMatchesStage vote stageIndex hasStage = true.
Proof.
  unfold vote, vote_of. pose proof (stage_index_nonnegative routing) as Hi.
  destruct (gatewayApprovalCurrentStageIndex routing) as [i []]; [|done]. simpl in Hi. cbv zeta.
  unfold gatewayApprovalDecisionMatchesStage, get. cbn [negb].
  assert (forall m : go_map, set_if (negb (str_empty (gatewayApprovalCurrentStageName routing i))) "stageName"
    (AString (gatewayApprovalCurrentStageName routing i)) (<["stageIndex" := AInt i]> m) !! "stageIndex" = Some (AInt i)) as Hl.
  { intros m. unfold set_if. case_match; by rewrite ?(lookup_insert_ne _ "stageName"), lookup_insert_eq. }
  rewrite Hl. simpl. by rewrite (proj2 (Z.leb_le _ _) Hi), Z.eqb_refl.
Qed.

Lemma own_vote : TrimSpace (Principal_UserID principal) = Principal_UserID principal -> same_vote routing principal vote = true.
Proof.
  intros Ht. unfold same_vote. pose proof vote_matches_stage as Hm. destruct (gatewayApprovalCurrentStageIndex routing) as [i b].
  rewrite Hm, andb_true_r. unfold get. rewrite (proj1 vote_fields). simpl. rewrite TrimSpace_idem, Ht. apply String.eqb_refl.
Qed.

Lemma same_vote_fold q d : same_vote routing q d = true -> EqualFold (Principal_UserID q) (Principal_UserID principal) = true ->
  same_vote routing principal d = true.
Proof.
  unfold same_vote. destruct (gatewayApprovalCurrentStageIndex routing) as [i b]. rewrite !andb_true_iff.
  unfold EqualFold. rewrite !String.eqb_eq. intros [-> ?] ->. done.
Qed.

Lemma replace_vote_same same decisions : same vote = true -> length (filter (fun d => same d = true) decisions) <= 1 ->
  filter (fun d => same d = true) (replace_vote same vote decisions) = [vote].
Proof.
  intros Hv. induction decisions as [|d decisions IH]; simpl; [intros _; by rewrite filter_cons_True|].
  rewrite filter_cons. destruct (same d) eqn:Hd; simpl.
  - rewrite filter_cons_True by done. intros Hl. f_equal. apply length_zero_iff_nil. lia.
  - rewrite filter_cons_False by congruence. done.
Qed.

Lemma replace_vote_other same (other : go_map -> bool) decisions : other vote = false -> (forall d, same d = true -> other d = false) ->
  filter (fun d => other d = true) (replace_vote same vote decisions) = filter (fun d => other d = true) decisions.
Proof.
  intros Hv Hd. induction decisions as [|d decisions IH]; simpl; [by rewrite filter_cons_False by congruence|].
  destruct (same d) eqn:Hs; [rewrite !filter_cons_False; [done|by rewrite Hd|congruence]|]. rewrite !filter_cons. by rewrite IH.
Qed.

Lemma elem_of_replace_vote same decisions : vote ∈ replace_vote same vote decisions.
Proof. induction decisions as [|d decisions IH]; simpl; [left|]. destruct (same d); [left|by right]. Qed.

End votes.

(** The votes of a user in the current stage. *)
Definition votes_by `{NumberText} (routing : go_map) (principal : Principal) : list go_map :=
  filter (fun d => same_vote routing principal d = true) (gatewayApprovalDecisions routing).

Definition one_vote_each `{NumberText} (routing : go_map) : Prop := forall principal, length (votes_by routing principal) <= 1.

Lemma with_decisions_decisions `{MapRange, NumberText, TimeText} routing principal comment now :
  gatewayApprovalDecisions (with_decisions routing principal comment now) =
  replace_vote (same_vote routing principal) (vote_of routing principal comment now) (gatewayApprovalDecisions routing).
Proof. unfold gatewayApprovalDecisions at 1, with_decisions. by rewrite lookup_insert_eq. Qed.

Lemma with_decisions_stage `{MapRange, NumberText, TimeText} routing principal comment now :
  gatewayApprovalCurrentStageIndex (with_decisions routing principal comment now) = gatewayApprovalCurrentStageIndex routing.
Proof. apply stage_index_ext; unfold gatewayApprovalStages, get, with_decisions; by rewrite lookup_insert_ne. Qed.

Lemma same_vote_apart `{NumberText} routing p q d :
  same_vote routing q d = true -> same_vote routing p d = true -> EqualFold (Principal_UserID q) (Principal_UserID p) = false -> False.
Proof.
  unfold same_vote. destruct (gatewayApprovalCurrentStageIndex routing) as [i b]. rewrite !andb_true_iff.
  unfold EqualFold. rewrite !String.eqb_eq, String.eqb_neq. intros [Hq _] [Hp _]. congruence.
Qed.

Lemma vote_approver `{MapRange, NumberText, TimeText} routing principal comment now :
  TrimSpace (Principal_UserID principal) <> "" -> TrimSpace (Principal_UserID principal) <> "<nil>" ->
  approver (vote_of routing principal comment now) = Some (ToLower (TrimSpace (Principal_UserID principal))).
Proof.
  intros Hne Hnil. destruct (vote_fields routing principal comment now) as [Hu Hr].
  unfold approver, approved, get. rewrite Hu, Hr. cbn [from_option id Sprint]. rewrite TrimSpace_idem.
  assert (EqualFold (TrimSpace "approved") "approved" = true) as -> by (vm_compute; reflexivity).
  rewrite (proj2 (String.eqb_neq _ _) Hne : str_empty _ = false), (proj2 (String.eqb_neq _ _) Hnil). done.
Qed.

Lemma implicit_required `{MapRange, NumberText} routing :
  Quorum_HasApprovalQuota (gatewayApprovalQuorumStatusFromRouting routing) = false ->
  Quorum_RequiredApprovals (gatewayApprovalQuorumStatusFromRouting routing) = 1%Z.
Proof.
  unfold gatewayApprovalQuorumStatusFromRouting. destruct (gatewayApprovalCurrentStageIndex routing) as [i b].
  assert (snd (gatewayApprovalRequiredCount (gatewayApprovalActiveRouting routing)) = false ->
    fst (gatewayApprovalRequiredCount (gatewayApprovalActiveRouting routing)) = 1%Z) as Hr.
  { unfold gatewayApprovalRequiredCount. destruct (gatewayFirstPositiveInt _ _) as [r []]; simpl; [|done].
    destruct (r <=? 1)%Z; [done|]. by case_match. }
  destruct (gatewayApprovalRequiredCount _) as [req e]. cbv zeta. by destruct (gatewayEvaluateApprovalQuotas "team" _ _ _).
Qed.

Lemma first_string_head `{MapRange} values key keys text :
  values !! key = Some (AString text) -> TrimSpace text = text -> text <> "" -> text <> "<nil>" ->
  gatewayFirstString values (key :: keys) = text.
Proof.
  intros Hl Ht Hne Hnil. cbn [gatewayFirstString]. unfold gatewayConditionRaw at 1. rewrite Hl. cbn [Sprint]. rewrite Ht.
  by rewrite (proj2 (String.eqb_neq _ _) Hne : str_empty _ = false), (proj2 (String.eqb_neq _ _) Hnil).
Qed.

Lemma first_int_head `{MapRange, NumberText} values key keys n :
  values !! key = Some (AInt n) -> (0 < n)%Z -> gatewayFirstPositiveInt values (key :: keys) = (n, true).
Proof.
  intros Hl Hn. cbn [gatewayFirstPositiveInt]. unfold gatewayConditionRaw at 1. rewrite Hl. unfold gatewayPositiveInt, gatewayInt.
  by rewrite (proj2 (Z.ltb_lt _ _) Hn).
Qed.

(** ** Properties *)

(** C30. A request is ready exactly when the declarative quorum of its active stage
    is met: distinct approvers against the required number, and approving
    decisions against the quota of each role and team. *)
Theorem quorum_exact `{MapRange, NumberText} (routing : go_map) :
  Quorum_Ready (gatewayApprovalQuorumStatusFromRouting routing) = true <-> quorum_met routing.
Proof.
  unfold gatewayApprovalQuorumStatusFromRouting, quorum_met.
  destruct (gatewayApprovalCurrentStageIndex routing) as [stageIndex hasStage].
  set (active := gatewayApprovalActiveRouting routing).
  destruct (gatewayApprovalRequiredCount active) as [required explicit] eqn:Hreq.
  pose proof (mode_any_spec routing) as Hmode. cbv zeta in Hmode |- *. fold active in Hmode.
  set (mode := if str_empty (gatewayApprovalMode active) then "all" else gatewayApprovalMode active) in *.
  set (total := if explicit || _ then _ else _).
  pose proof (evaluate_quotas_spec "role" (gatewayApprovalQuotaMap active role_quota_keys)
    (gatewayCountApprovalQuotaDecisions "roles" (gatewayApprovalQuotaMap active role_quota_keys) active) (fst total) (snd total)) as Hr.
  rewrite <- surjective_pairing in Hr. destruct (gatewayEvaluateApprovalQuotas "role" _ _ total) as [s1 p1].
  pose proof (evaluate_quotas_spec "team" (gatewayApprovalQuotaMap active team_quota_keys)
    (gatewayCountApprovalQuotaDecisions "teams" (gatewayApprovalQuotaMap active team_quota_keys) active) s1 p1) as Ht.
  destruct (gatewayEvaluateApprovalQuotas "team" _ _ (s1, p1)) as [s2 p2]. cbn [Quorum_Ready].
  rewrite (some_met_votes routing "roles" _ : some_met _ (gatewayCountApprovalQuotaDecisions _ _ active) <-> _),
    (all_met_votes routing "roles" _ : all_met _ (gatewayCountApprovalQuotaDecisions _ _ active) <-> _) in Hr.
  rewrite (some_met_votes routing "teams" _ : some_met _ (gatewayCountApprovalQuotaDecisions _ _ active) <-> _),
    (all_met_votes routing "teams" _ : all_met _ (gatewayCountApprovalQuotaDecisions _ _ active) <-> _) in Ht.
  destruct Hr as [Hs1 Hp1], Ht as [Hs2 Hp2].
  assert (Hcount : Z.of_nat (length (gatewayApprovalDecisionUserIDs active)) = Z.of_nat (size (approvers active))) by by rewrite approved_count_spec.
  rewrite Hmode. case_bool_decide as Hany; [rewrite decide_True by done|rewrite decide_False by done].
  - rewrite negb_true_iff, Hs2, Hs1. unfold any_requirement, enough_approvers. fold active. rewrite Hreq. cbn [fst snd].
    assert (is_empty (fst total) = false <-> (explicit = true \/ gatewayApprovalQuotaMap active role_quota_keys = ∅ /\
      gatewayApprovalQuotaMap active team_quota_keys = ∅) /\ (required <= Z.of_nat (size (approvers active)))%Z) as ->; [|tauto].
    subst total. rewrite (proj1 (total_requirement _ _ _ _)), <- Hcount, Hmode. cbn [negb orb].
    by rewrite orb_true_iff, andb_true_iff, !bool_decide_eq_true.
  - rewrite Hp2, Hp1. unfold all_requirements, enough_approvers. fold active. rewrite Hreq. cbn [fst snd].
    assert (is_empty (snd total) = true <-> (required <= Z.of_nat (size (approvers active)))%Z) as ->; [|tauto].
    subst total. rewrite (proj2 (total_requirement _ _ _ _)), <- Hcount, Hmode. cbn [negb orb].
    rewrite orb_true_r. tauto.
Qed.

(** One vote per user and stage: the vote of a user replaces an earlier one of
    that user in the current stage, leaves the votes of the others alone, and
    keeps the users' votes unique. *)
Theorem vote_once `{MapRange, NumberText, TimeText} (relatedIDs : go_map) (principal : Principal) (comment : string) (now : Z) :
  TrimSpace (Principal_UserID principal) = Principal_UserID principal ->
  one_vote_each (mapValue (get relatedIDs "approvalRouting")) ->
  let routing := mapValue (get relatedIDs "approvalRouting") in
  let voted := snd (gatewayApprovalRoutingWithVote relatedIDs principal comment now) in
  one_vote_each voted /\
  votes_by voted principal = [vote_of routing principal comment now] /\
  forall q, EqualFold (Principal_UserID q) (Principal_UserID principal) = false -> votes_by voted q = votes_by routing q.
Proof.
  intros Ht Hone. cbv zeta. set (routing := mapValue _) in *. unfold gatewayApprovalRoutingWithVote. fold routing. cbv zeta. cbn [snd].
  set (voted := with_decisions routing principal comment now). set (final := gatewayApplyApprovalStatusToRouting voted _).
  assert (Hsame : forall q d, same_vote final q d = same_vote routing q d).
  { intros q d. unfold same_vote. unfold final, voted. by rewrite apply_own_status_stage, with_decisions_stage. }
  assert (Hdec : gatewayApprovalDecisions final =
    replace_vote (same_vote routing principal) (vote_of routing principal comment now) (gatewayApprovalDecisions routing)).
  { unfold final. rewrite apply_status_decisions. apply with_decisions_decisions. }
  assert (Hq : forall q, votes_by final q = filter (fun d => same_vote routing q d = true)
    (replace_vote (same_vote routing principal) (vote_of routing principal comment now) (gatewayApprovalDecisions routing))).
  { intros q. unfold votes_by. rewrite Hdec. apply list_filter_iff. intros d. by rewrite Hsame. }
  pose proof (own_vote routing principal comment now Ht) as Hown.
  assert (Hp : votes_by final principal = [vote_of routing principal comment now]).
  { rewrite Hq. apply replace_vote_same; [done|apply Hone]. }
  assert (Hother : forall q, EqualFold (Principal_UserID q) (Principal_UserID principal) = false -> votes_by final q = votes_by routing q).
  { intros q Hne. rewrite Hq. apply replace_vote_other; [|intros d Hd]; apply not_true_iff_false; intros Hqd.
    - eapply same_vote_apart; [exact Hqd|exact Hown|done].
    - eapply same_vote_apart; [exact Hqd|exact Hd|done]. }
  split_and!; [|done|done]. intros q. destruct (EqualFold (Principal_UserID q) (Principal_UserID principal)) eqn:Hf; [|rewrite Hother by done; apply Hone].
  assert (votes_by final q = votes_by final principal) as ->; [|by rewrite Hp].
  rewrite !Hq. apply list_filter_iff. intros d. split; intros Hd; [by eapply same_vote_fold|eapply same_vote_fold; [done|]].
  unfold EqualFold in *. by rewrite String.eqb_sym.
Qed.

(** In mode [any], a routing that sets quotas for roles or teams but no number
    of approvers is satisfied by any single vote: counting the vote writes the
    default of one required approval into the routing, and the count that
    follows takes it for a requirement of its own. *)
Theorem any_quota_bypassed `{MapRange, NumberText, TimeText} (relatedIDs : go_map) (principal : Principal) (comment : string) (now : Z) :
  let voted := with_decisions (mapValue (get relatedIDs "approvalRouting")) principal comment now in
  let counted := gatewayApprovalQuorumStatusFromRouting voted in
  TrimSpace (Principal_UserID principal) <> "" -> TrimSpace (Principal_UserID principal) <> "<nil>" ->
  gatewayApprovalStages voted = [] -> Quorum_Mode counted = "any" -> Quorum_HasApprovalQuota counted = false ->
  Quorum_Ready (gatewayApprovalQuorumStatusFromRouting (snd (gatewayApprovalRoutingWithVote relatedIDs principal comment now))) = true.
Proof.
  intros voted counted Hne Hnil Hst Hmode Hquota. unfold gatewayApprovalRoutingWithVote. cbv zeta. cbn [snd]. fold voted. fold counted.
  set (final := gatewayApplyApprovalStatusToRouting voted counted).
  assert (Hactive : gatewayApprovalActiveRouting final = final).
  { unfold gatewayApprovalActiveRouting, gatewayApprovalCurrentStageIndex. unfold final. by rewrite apply_status_stages, Hst. }
  assert (Hreq1 : Quorum_RequiredApprovals counted = 1%Z) by by apply implicit_required.
  assert (Hreq : gatewayApprovalRequiredCount final = (1%Z, true)).
  { unfold gatewayApprovalRequiredCount, required_keys. rewrite (first_int_head _ _ _ 1); [done| |done].
    unfold final. by rewrite apply_status_required, Hreq1. }
  apply quorum_exact. unfold quorum_met. rewrite Hactive, decide_True.
  - left. rewrite Hactive, Hreq. split; [by left|]. unfold enough_approvers. rewrite Hactive, Hreq. cbn [fst].
    enough (size (approvers final) <> 0) by lia. apply size_non_empty_iff. intros He.
    assert (ToLower (TrimSpace (Principal_UserID principal)) ∈ approvers final) as Hin; [|set_solver].
    unfold approvers, final. rewrite elem_of_list_to_set, apply_status_decisions, list_elem_of_omap.
    exists (vote_of (mapValue (get relatedIDs "approvalRouting")) principal comment now). split; [|by apply vote_approver].
    unfold voted. rewrite with_decisions_decisions. apply elem_of_replace_vote.
  - unfold gatewayApprovalMode. rewrite (first_string_head _ _ _ "any"); [vm_compute; reflexivity| |vm_compute; reflexivity|done|done].
    unfold final. by rewrite apply_status_mode, Hmode.
Qed.

(** ** Concrete instances *)

(** Numbers as decimal digits, times as such numbers. *)
Definition digits (s : string) : option Z :=
  fold_left (fun acc c => n ← acc; if Ascii.leb "0" c && Ascii.leb c "9" then Some (10 * n + (Z.of_nat (nat_of_ascii c) - 48))%Z else None)
    (chars s) (Some 0%Z).

#[export] Instance decimal_numbers : NumberText := {| parse_number := digits |}.
#[export] Instance decimal_times : TimeText := {| format_rfc3339 := fun t => pretty t; parse_time := digits |}.

(** Two release managers, or two votes of the team on call. *)
Definition sample_routing (mode : string) : go_map := gatewayApprovalRoutingFromPolicy
  {["approvers" := AMap {["mode" := AString mode; "requiredRoleApprovals" := AMap {["release-manager" := AInt 2]};
    "requiredTeamApprovals" := AList [AMap {["name" := AString "sre"; "count" := AString "2"]}]]}]}.

Definition sample_related (mode : string) : go_map := {["approvalRouting" := AMap (sample_routing mode)]}.

Definition manager (id : string) : Principal := sample_user id ["release-manager"] [].

Example routing_of_policy :
  gatewayApprovalQuotaMap (sample_routing "any") role_quota_keys = {["release-manager" := 2%Z]} /\
  gatewayStringList (get (sample_routing "any") "candidateTeams") = ["sre"].
Proof. vm_compute. split; reflexivity. Qed.

(** One vote, seen before and after its status is written back. *)
Lemma any_quota_bypassed_witness :
  let relatedIDs := sample_related "any" in
  Quorum_Ready (gatewayApprovalQuorumStatusFromRouting (with_decisions (sample_routing "any") (manager "ada") "" 0)) = false /\
  Quorum_Ready (gatewayApprovalQuorumStatusFromRouting (snd (gatewayApprovalRoutingWithVote relatedIDs (manager "ada") "" 0))) = true.
Proof.
  split; [vm_compute; reflexivity|].
  apply any_quota_bypassed; vm_compute; [discriminate|discriminate|reflexivity|reflexivity|reflexivity].
Defined.

Lemma vote_once_witness :
  let relatedIDs := fst (gatewayApprovalRoutingWithVote (sample_related "all") (manager "ada") "" 0) in
  let voted := snd (gatewayApprovalRoutingWithVote relatedIDs (manager "Ada") "again" 7) in
  length (votes_by voted (manager "ADA")) <= 1 /\ length (gatewayApprovalDecisions voted) = 1.
Proof.
  split; [|vm_compute; reflexivity]. eapply (vote_once _ (manager "Ada") "again" 7); [vm_compute; reflexivity|].
  intros p. etransitivity; [apply length_filter|]. vm_compute. lia.
Defined.
