(* ===== verification/GatewayInvoke.v ===== *)
(** * AI gateway: invocation of a tool

    [invokeTool] of [application/aigateway/tools.go] with the authorization it
    runs through ([policies.go], [capability_scopes.go], [capability_task_scope.go],
    [capability_contract.go], [workbench_authorization.go]): which scopes a call
    has, and the checks between a request and the provider that carries it out. *)

From Stdlib Require Import Ascii.
From stdpp Require Import pretty.
From S2P Require Import Prelude GoStrings Stateful AccessModel PermissionTables PermissionResolver WorkflowModel GatewayModel GatewayPolicy GatewayQuorum.

(** ** Scopes of a call *)

(** The escapes of a JSON pointer: [~0] and [~1] only. *)
Fixpoint pointer_escapes (s : string) : bool :=
  match s with
  | "" => true
  | String "~" (String c s) => (Ascii.eqb c "0" || Ascii.eqb c "1") && pointer_escapes s
  | String "~" "" => false
  | String _ s => pointer_escapes s
  end.

(** [strings.ReplaceAll] of [~c] by one byte. *)
Fixpoint replace_escape (c by_ : ascii) (s : string) : string :=
  match s with
  | "" => ""
  | String a r =>
      match r with
      | String b r' => if Ascii.eqb a "~" && Ascii.eqb b c then String by_ (replace_escape c by_ r') else String a (replace_escape c by_ r)
      | "" => s
      end
  end.

Definition capabilityPointerTokens (path : string) : option (list string) :=
  match strip_prefix "/" path with
  | None => None
  | Some rest =>
      if 512 <? String.length path then None
      else
        let tokens := split_byte "/"%char rest in
        if forallb pointer_escapes tokens
        then Some ((fun token => replace_escape "0" "~" (replace_escape "1" "/" token)) <$> tokens)
        else None
  end.

(** The index that a token spells the way [strconv.Itoa] does. *)
Definition pointer_index (token : string) (bound : nat) : option nat :=
  find_first (fun index => String.eqb (pretty (Z.of_nat index)) token) (seq 0 bound).

Fixpoint pointer_walk (value : any) (tokens : list string) : option any :=
  match tokens with
  | [] => Some value
  | token :: tokens =>
      match value with
      | AMap object => value ← object !! token; pointer_walk value tokens
      | AList items => index ← pointer_index token (length items); value ← items !! index; pointer_walk value tokens
      | _ => None
      end
  end.

Definition capabilityPointerGet (value : any) (path : string) : option any := tokens ← capabilityPointerTokens path; pointer_walk value tokens.

Definition standardGatewayScope (input relatedIDs : go_map) : gmap string string :=
  fold_left (fun scope item =>
    let value := firstMapString input (alias_names item) in
    if negb (str_empty value) then <[alias_key item := value]> scope
    else
      let value := firstMapString relatedIDs (alias_names item) in
      if negb (str_empty value) then <[alias_key item := value]> scope else scope) gatewayScopeAliases ∅.

Definition canonicalCapabilityScopeDimension (dimension : string) : string :=
  match find_first (fun item => contains (alias_names item) dimension) gatewayScopeAliases with
  | Some item => alias_key item
  | None => dimension
  end.

(** A path of a semantic adds its value, or blanks a dimension that has another. *)
Definition add_semantic_scope (input : go_map) (scope : gmap string string) (key path : string) : gmap string string :=
  match capabilityPointerGet (AMap input) path with
  | Some (AString text) =>
      if blank text then scope
      else
        let canonical := canonicalCapabilityScopeDimension key in
        match scope !! canonical with
        | Some previous => if String.eqb previous text then <[canonical := text]> scope else <[canonical := ""]> scope
        | None => <[canonical := text]> scope
        end
  | _ => scope
  end.

Definition capabilityGatewayScope `{MapRange} (tool : ToolCapability) (input : go_map) : gmap string string :=
  fold_left (fun scope semantic =>
    let paths := CapabilityValueSemantic_ScopePaths semantic in
    fold_left (fun scope key => add_semantic_scope input scope key (lookup_default "" paths key)) (range_keys (dom paths)) scope)
    (ToolCapability_InputSemantics tool) (standardGatewayScope input ∅).

Definition stringInput (input : go_map) (key : string) : string :=
  match input !! key with
  | None | Some ANil => ""
  | Some value => TrimSpace (Sprint value)
  end.

Definition gatewayAuditScope (input relatedIDs : go_map) : go_map :=
  fold_left (fun scope key =>
    let value := stringInput input key in
    if negb (str_empty value) then <[key := AString value]> scope
    else
      let value := stringInput relatedIDs key in
      if negb (str_empty value) then <[key := AString value]> scope else scope)
    ["podName"; "deploymentName"; "serviceName"] (AString <$> standardGatewayScope input relatedIDs).

(** ** The context of a call *)

Record workbenchAuthorizationState := {
  Workbench_Grants : list ToolGrant;
  Workbench_Policies : list AccessPolicy;
  Workbench_Bindings : list SkillBinding
}.

Record capabilityScopeContext := { scope_tool : string; scope_scopes : list (gmap string string) }.

Record CapabilityScopeConstraint := { Constraint_Dimension : string; Constraint_Value : string }.

Record capabilityTaskScope := { task_constraints : list CapabilityScopeConstraint; task_invalid : bool }.

(** The values a Go context carries for the gateway. *)
Record InvokeContext := {
  ctx_ceiling : option string;
  ctx_workbench : option workbenchAuthorizationState;
  ctx_scope : capabilityScopeContext;
  ctx_task_scope : capabilityTaskScope;
  ctx_queued : bool
}.

Definition set_ctx_scope (scope : capabilityScopeContext) (ctx : InvokeContext) : InvokeContext :=
  {| ctx_ceiling := ctx_ceiling ctx; ctx_workbench := ctx_workbench ctx; ctx_scope := scope;
     ctx_task_scope := ctx_task_scope ctx; ctx_queued := ctx_queued ctx |}.

Definition set_ctx_workbench (state : option workbenchAuthorizationState) (ctx : InvokeContext) : InvokeContext :=
  {| ctx_ceiling := ctx_ceiling ctx; ctx_workbench := state; ctx_scope := ctx_scope ctx;
     ctx_task_scope := ctx_task_scope ctx; ctx_queued := ctx_queued ctx |}.

(** A capability provider, as far as it resolves scopes. *)
Record ScopeProvider := {
  provider_tools : list string;
  provider_builtin : bool;
  provider_resolver : option (Principal -> ToolCapability -> go_map -> result (list (gmap string string)))
}.

(** What the gateway calls: repositories, the registry of capabilities, the
    domains that resolve scopes, the conditions of policies (rates, budgets and
    redaction rules), the schema library, the secret store, and the providers
    that carry a call out. *)
Class GatewayEnv := {
  permissions : PermissionResolver;
  ListActiveToolGrants : string -> string -> string -> result (list ToolGrant);
  ListActiveAccessPolicies : string -> string -> string -> result (list AccessPolicy);
  ListActiveSkillBindings : string -> string -> string -> result (list SkillBinding);
  gatewayTools : list ToolCapability;
  gatewaySkills : list SkillCapability;
  scope_providers : list ScopeProvider;
  docker_resolver : option (Principal -> ToolCapability -> go_map -> result (list (gmap string string)));
  state_digest : workbenchAuthorizationState -> option string;
  enforce_budgets : Principal -> string -> string -> AccessPolicy -> result unit;
  enforce_rates : Principal -> string -> string -> AccessPolicy -> result unit;
  redact_input : AccessPolicy -> ToolCapability -> go_map -> result go_map;
  redact_output : AccessPolicy -> ToolCapability -> any -> result any;
  compile_schema : go_map -> result (go_map -> bool);
  PinReferences : option (Principal -> gmap string string -> string -> result (gmap string string));
  ResolvePinnedReferences : Principal -> gmap string string -> string -> result unit;
  reserveNativeCapabilityToolCall : result unit;
  registry_InvokeTool : Principal -> ToolCapability -> go_map -> option (result (any * go_map));
  domain_invoke : string -> Principal -> ToolCapability -> go_map -> string -> result (any * go_map)
}.

(** A call that reached a provider. *)
Record ProviderCall := {
  call_principal : Principal;
  call_tool : ToolCapability;
  call_input : go_map;
  call_refs : gmap string string
}.

(** The cache of permissions, and the calls made so far, the last one first. *)
Record GatewayWorld := { world_cache : RoleMatrixCache; world_calls : list ProviderCall }.

Abbreviation gateway := (stateful GatewayWorld).

(** ** Authorization *)

Definition toolByName `{GatewayEnv} (name : string) : option ToolCapability :=
  find_first (fun item => String.eqb (ToolCapability_Name item) (TrimSpace name)) gatewayTools.

Definition authorize_permission `{CatalogSource, MapRange, GatewayEnv} (principal : Principal) (key : string) : gateway unit :=
  fun w => let '(r, cache) := AuthorizeRuntimePermission permissions principal key (world_cache w) in
           (r, {| world_cache := cache; world_calls := world_calls w |}).

Definition permission_keys `{CatalogSource, MapRange, GatewayEnv} (principal : Principal) : gateway (list string) :=
  fun w => let '(r, cache) := RuntimePermissionKeys permissions principal (world_cache w) in
           (r, {| world_cache := cache; world_calls := world_calls w |}).

Fixpoint authorize_all `{CatalogSource, MapRange, GatewayEnv} (principal : Principal) (keys : list string) : gateway unit :=
  match keys with
  | [] => gret tt
  | key :: keys => do! authorize_permission principal key; authorize_all principal keys
  end.

Definition authorizeTool `{CatalogSource, MapRange, GatewayEnv} (principal : Principal) (tool : ToolCapability) : gateway unit :=
  authorize_all principal (ToolCapability_PermissionKeys tool).

(** The items in force, read from the repositories. *)
Definition stored_grants `{GatewayEnv} (principal : Principal) (aiClientID : string) : result (list ToolGrant) :=
  activeItemsForPrincipal principal aiClientID ListActiveToolGrants ToolGrant_ID.
Definition stored_policies `{GatewayEnv} (principal : Principal) (aiClientID : string) : result (list AccessPolicy) :=
  activeItemsForPrincipal principal aiClientID ListActiveAccessPolicies AccessPolicy_ID.
Definition stored_bindings `{GatewayEnv} (principal : Principal) (aiClientID : string) : result (list SkillBinding) :=
  activeItemsForPrincipal principal aiClientID ListActiveSkillBindings SkillBinding_ID.

Definition build_workbench_state `{GatewayEnv} (principal : Principal) : result (workbenchAuthorizationState * string) :=
  let* grants := stored_grants principal "" in
  let* policies := stored_policies principal "" in
  let* bindings := stored_bindings principal "" in
  let state := {| Workbench_Grants := grants; Workbench_Policies := policies; Workbench_Bindings := bindings |} in
  match state_digest state with
  | None => Err (errorf ErrInvalidArgument "Gateway authorization ceiling exceeds its bounded snapshot")
  | Some revision => Ok (state, revision)
  end.

Definition workbenchPolicyState `{GatewayEnv} (ctx : InvokeContext) (principal : Principal) (aiClientID : string)
    : result (option workbenchAuthorizationState) :=
  match ctx_workbench ctx with
  | Some state => Ok (Some state)
  | None =>
      match ctx_ceiling ctx with
      | None => Ok None
      | Some expected =>
          if negb (str_empty aiClientID) then Err (sentinel ErrAccessDenied)
          else
            let* built := build_workbench_state principal in
            let '(state, current) := built in
            if str_empty expected || negb (String.eqb expected current) then Err (sentinel ErrAccessDenied) else Ok (Some state)
      end
  end.

Definition withWorkbenchAuthorization `{GatewayEnv} (ctx : InvokeContext) (principal : Principal) (input : ToolInvocationRequest)
    : result InvokeContext :=
  match ctx_ceiling ctx with
  | None => Ok ctx
  | Some expected =>
      if negb (str_empty (ToolInvocationRequest_AIClientID input)) || negb (str_empty (ToolInvocationRequest_SkillID input))
      then Err (sentinel ErrAccessDenied)
      else
        let* built := build_workbench_state principal in
        let '(state, current) := built in
        if str_empty expected || negb (String.eqb current expected)
        then Err (errorf ErrAccessDenied "original Gateway tool scope changed")
        else Ok (set_ctx_workbench (Some state) ctx)
  end.

Definition activeToolGrants `{GatewayEnv} (ctx : InvokeContext) (principal : Principal) (aiClientID : string) : result (list ToolGrant) :=
  let* state := workbenchPolicyState ctx principal aiClientID in
  match state with Some state => Ok (Workbench_Grants state) | None => stored_grants principal aiClientID end.

Definition activeAccessPolicies `{GatewayEnv} (ctx : InvokeContext) (principal : Principal) (aiClientID : string) : result (list AccessPolicy) :=
  let* state := workbenchPolicyState ctx principal aiClientID in
  match state with Some state => Ok (Workbench_Policies state) | None => stored_policies principal aiClientID end.

Definition activeSkillBindings `{GatewayEnv} (ctx : InvokeContext) (principal : Principal) (aiClientID : string) : result (list SkillBinding) :=
  let* state := workbenchPolicyState ctx principal aiClientID in
  match state with Some state => Ok (Workbench_Bindings state) | None => stored_bindings principal aiClientID end.

Definition capabilityInvocationScopes (ctx : InvokeContext) (tool : string) (fallback : gmap string string) : list (gmap string string) :=
  if String.eqb (scope_tool (ctx_scope ctx)) tool && negb (is_empty (scope_scopes (ctx_scope ctx)))
  then scope_scopes (ctx_scope ctx) else [fallback].

Definition anyCapabilityScopeMatches `{MapRange} (ctx : InvokeContext) (tool : string) (fallback : gmap string string) (constraint : go_map)
    : bool :=
  existsb (gatewayResourceScopeMatches constraint) (capabilityInvocationScopes ctx tool fallback).

(** The first scope that the task does not cover, if any. *)
Definition validateCapabilityTaskScope `{MapRange} (ctx : InvokeContext) (tool : ToolCapability) (input : go_map) : result unit :=
  let bound := ctx_task_scope ctx in
  if task_invalid bound then Err (errorf ErrAccessDenied "task scope is unavailable")
  else if forallb (fun scope => forallb (fun constraint =>
      negb (str_empty (Constraint_Value constraint)) &&
      String.eqb (lookup_default "" scope (canonicalCapabilityScopeDimension (Constraint_Dimension constraint))) (Constraint_Value constraint))
      (task_constraints bound)) (capabilityInvocationScopes ctx (ToolCapability_Name tool) (capabilityGatewayScope tool input))
  then Ok tt
  else Err (errorf ErrAccessDenied "invocation exceeds frozen task scope").

Fixpoint merge_resolved (resolved : gmap string string) (keys : list string) (scope : gmap string string) : result (gmap string string) :=
  match keys with
  | [] => Ok scope
  | key :: keys =>
      let value := lookup_default "" resolved key in
      if blank key || blank value then Err (errorf ErrInvalidArgument "invalid domain scope")
      else match scope !! key with
      | Some supplied =>
          if String.eqb supplied value then merge_resolved resolved keys (<[key := value]> scope)
          else Err (errorf ErrAccessDenied "input scope contradicts the owning domain")
      | None => merge_resolved resolved keys (<[key := value]> scope)
      end
  end.

Definition mergeCapabilityScope `{MapRange} (base resolved : gmap string string) : result (gmap string string) :=
  if bool_decide (resolved = ∅) then Err (errorf ErrInvalidArgument "empty domain scope")
  else merge_resolved resolved (range_keys (dom resolved)) base.

Fixpoint merge_scopes `{MapRange} (base : gmap string string) (scopes : list (gmap string string)) : result (list (gmap string string)) :=
  match scopes with
  | [] => Ok []
  | scope :: scopes => let* merged := mergeCapabilityScope base scope in let* rest := merge_scopes base scopes in Ok (merged :: rest)
  end.

Definition resolve_scopes `{MapRange, GatewayEnv} (principal : Principal) (tool : ToolCapability) (input : go_map)
    : result capabilityScopeContext :=
  let none := {| scope_tool := ""; scope_scopes := [] |} in
  match find_first (fun item => contains (provider_tools item) (TrimSpace (ToolCapability_Name tool))) scope_providers with
  | None => Ok none
  | Some item =>
      let docker := provider_builtin item && String.eqb (ToolCapability_Domain tool) "docker" in
      match (if docker then docker_resolver else provider_resolver item) with
      | None => if docker then Err (sentinel ErrUnsupportedOperation) else Ok none
      | Some resolver =>
          let* scopes := resolver principal tool input in
          if is_empty scopes || (200 <? length scopes)
          then Err (errorf ErrInvalidArgument "domain must resolve 1..200 invocation scopes")
          else
            let* merged := merge_scopes (capabilityGatewayScope tool input) scopes in
            Ok {| scope_tool := ToolCapability_Name tool; scope_scopes := merged |}
      end
  end.

Definition resolveCapabilityScopeContext `{MapRange, GatewayEnv} (ctx : InvokeContext) (principal : Principal) (tool : ToolCapability)
    (input : go_map) : result InvokeContext :=
  let* scope := resolve_scopes principal tool input in
  let resolved := set_ctx_scope scope ctx in
  let* _ := validateCapabilityTaskScope resolved tool input in
  Ok resolved.

(** Grants for every scope of the call; whether one asks for approval. *)
Fixpoint grants_allow `{MapRange} (tool : ToolCapability) (grants : list ToolGrant) (keys : list string)
    (scopes : list (gmap string string)) (requiresApproval : bool) : result bool :=
  match scopes with
  | [] => Ok requiresApproval
  | scope :: scopes =>
      let '(allowed, approval, reason) := toolAllowedByGrantsForInvocation tool grants keys scope in
      if negb allowed
      then Err (errorf ErrAccessDenied ("AI Gateway tool grant rejected " +:+ ToolCapability_Name tool +:+ ": " +:+ reason))
      else grants_allow tool grants keys scopes (requiresApproval || approval)
  end.

Definition authorizeToolGrant `{CatalogSource, MapRange, GatewayEnv} (ctx : InvokeContext) (principal : Principal) (aiClientID : string)
    (tool : ToolCapability) (invocationScope : gmap string string) : gateway bool :=
  let! grants := glift (activeToolGrants ctx principal aiClientID) in
  if is_empty grants then gret false
  else
    let! keys := permission_keys principal in
    glift (grants_allow tool grants keys (capabilityInvocationScopes ctx (ToolCapability_Name tool) invocationScope) false).

Fixpoint policies_allow `{MapRange, SensitiveText, GatewayEnv} (tool : ToolCapability) (policies : list AccessPolicy) (skillID : string)
    (scopes : list (gmap string string)) (decision : gatewayRiskDecision) : result gatewayRiskDecision :=
  match scopes with
  | [] => Ok decision
  | scope :: scopes =>
      let '(allowed, next, reason) := toolAllowedByAccessPoliciesForInvocationWithSkills tool policies skillID scope gatewaySkills in
      if negb allowed
      then Err (errorf ErrAccessDenied ("AI Gateway access policy rejected " +:+ ToolCapability_Name tool +:+ ": " +:+ reason))
      else policies_allow tool policies skillID scopes (mergeGatewayRiskDecision decision next)
  end.

Definition evaluateCapabilityScopePolicies `{MapRange, SensitiveText, GatewayEnv} (ctx : InvokeContext) (tool : ToolCapability)
    (policies : list AccessPolicy) (skillID : string) (fallback : gmap string string) : result gatewayRiskDecision :=
  policies_allow tool policies skillID (capabilityInvocationScopes ctx (ToolCapability_Name tool) fallback) no_decision.

(** The allow policies whose conditions bind the call. *)
Definition conditioned `{MapRange, GatewayEnv} (ctx : InvokeContext) (skillID : string) (tool : ToolCapability)
    (invocationScope : gmap string string) (policy : AccessPolicy) : bool :=
  String.eqb (grantEffect (AccessPolicy_Effect policy)) "allow" && bool_decide (AccessPolicy_Conditions policy <> ∅) &&
  accessPolicyToolSelectorsMatchWithSkills policy tool skillID gatewaySkills &&
  anyCapabilityScopeMatches ctx (ToolCapability_Name tool) invocationScope (AccessPolicy_ResourceScopes policy).

Fixpoint enforce_each `{GatewayEnv} (principal : Principal) (aiClientID : string) (tool : ToolCapability) (policies : list AccessPolicy)
    (out : go_map) : result go_map :=
  match policies with
  | [] => Ok out
  | policy :: policies =>
      let* _ := enforce_budgets principal aiClientID (ToolCapability_Name tool) policy in
      let* out := redact_input policy tool out in
      enforce_each principal aiClientID tool policies out
  end.

Fixpoint check_rates `{GatewayEnv} (principal : Principal) (aiClientID : string) (tool : ToolCapability) (policies : list AccessPolicy)
    : result unit :=
  match policies with
  | [] => Ok tt
  | policy :: policies =>
      let* _ := enforce_rates principal aiClientID (ToolCapability_Name tool) policy in check_rates principal aiClientID tool policies
  end.

Definition enforceAccessPolicyConditions `{MapRange, GatewayEnv} (ctx : InvokeContext) (principal : Principal) (aiClientID skillID : string)
    (tool : ToolCapability) (invocationScope : gmap string string) (policies : list AccessPolicy) (toolInput : go_map) : result go_map :=
  let bound := filter (fun policy => conditioned ctx skillID tool invocationScope policy = true) policies in
  let* out := enforce_each principal aiClientID tool bound toolInput in
  let* _ := if ctx_queued ctx then Ok tt else check_rates principal aiClientID tool bound in
  Ok out.

(** The decision, the input after the policies, and the tool, which then
    requires approval if the decision does. *)
Definition authorizeAccessPolicy `{MapRange, SensitiveText, GatewayEnv} (ctx : InvokeContext) (principal : Principal)
    (aiClientID skillID : string) (tool : ToolCapability) (invocationScope : gmap string string) (toolInput : go_map)
    : result (gatewayRiskDecision * go_map * ToolCapability) :=
  let decision := gatewayRiskDecisionForTool tool in
  let* policies := activeAccessPolicies ctx principal aiClientID in
  if is_empty policies then Ok (decision, toolInput, tool)
  else
    let* policyDecision := evaluateCapabilityScopePolicies ctx tool policies skillID invocationScope in
    let* nextInput := enforceAccessPolicyConditions ctx principal aiClientID skillID tool invocationScope policies toolInput in
    let decision := if str_empty (Risk_Strategy policyDecision) then decision else policyDecision in
    Ok (decision, nextInput, if requiresApproval decision then set_tool_approval true tool else tool).

Fixpoint redact_each `{GatewayEnv} (tool : ToolCapability) (policies : list AccessPolicy) (out : any) : result any :=
  match policies with
  | [] => Ok out
  | policy :: policies => let* out := redact_output policy tool out in redact_each tool policies out
  end.

Definition sanitizeToolOutputByAccessPolicy `{MapRange, SensitiveText, GatewayEnv} (ctx : InvokeContext) (principal : Principal)
    (aiClientID skillID : string) (tool : ToolCapability) (invocationScope : gmap string string) (output : any) : result any :=
  let* policies := activeAccessPolicies ctx principal aiClientID in
  if is_empty policies then Ok output
  else
    let* _ := evaluateCapabilityScopePolicies ctx tool policies skillID invocationScope in
    redact_each tool (filter (fun policy => conditioned ctx skillID tool invocationScope policy = true) policies) output.

Definition authorizeSkillBinding `{MapRange, GatewayEnv} (ctx : InvokeContext) (principal : Principal) (aiClientID skillID : string)
    (tool : ToolCapability) : result unit :=
  let* bindings := activeSkillBindings ctx principal aiClientID in
  if is_empty bindings then Ok tt
  else
    let '(allowed, reason) := toolAllowedBySkillBindingsWithSkills tool bindings skillID gatewaySkills in
    if allowed : bool then Ok tt
    else Err (errorf ErrAccessDenied ("AI Gateway skill binding rejected " +:+ ToolCapability_Name tool +:+ ": " +:+ reason)).

Definition validateCapabilityVersion (tool : ToolCapability) (requested : string) : result unit :=
  if negb (str_empty requested) && negb (String.eqb requested (ToolCapability_Version tool))
  then Err (errorf ErrConflict ("capability version changed or is unavailable; rediscover " +:+ ToolCapability_Name tool))
  else Ok tt.

Definition compileCapabilityInputSchema `{GatewayEnv} (schema : go_map) : result (go_map -> bool) :=
  if bool_decide (schema = ∅) then Err (errorf ErrInvalidArgument "versioned capability has no input schema") else compile_schema schema.

Definition missing_idempotency_key (tool : ToolCapability) (input : go_map) : option string :=
  match ToolCapability_Execution tool with
  | None => None
  | Some contract =>
      let field := ToolExecutionContract_IdempotencyKeyField contract in
      if str_empty field then None
      else match input !! field with
      | Some (AString key) => if blank key then Some field else None
      | _ => Some field
      end
  end.

Definition validateCapabilityInput `{GatewayEnv} (tool : ToolCapability) (input : go_map) : result unit :=
  if str_empty (ToolCapability_Version tool) then Ok tt
  else match missing_idempotency_key tool input with
  | Some field => Err (errorf ErrInvalidArgument (field +:+ " is required"))
  | None =>
      let* validate := compileCapabilityInputSchema (ToolCapability_InputSchema tool) in
      if validate input then Ok tt
      else Err (errorf ErrInvalidArgument ("input does not match capability " +:+ ToolCapability_Name tool +:+ " version " +:+
        ToolCapability_Version tool))
  end.

Definition preserveCapabilityScope `{MapRange, GatewayEnv} (ctx : InvokeContext) (principal : Principal) (tool : ToolCapability)
    (before after : go_map) : result unit :=
  if DeepEqual before after then Ok tt
  else
    let* resolved := resolveCapabilityScopeContext ctx principal tool after in
    let name := ToolCapability_Name tool in
    if bool_decide (capabilityInvocationScopes ctx name (capabilityGatewayScope tool before) =
                    capabilityInvocationScopes resolved name (capabilityGatewayScope tool after))
    then Ok tt
    else Err (errorf ErrAccessDenied "input policy cannot change authorized resource scopes").

Definition pinToolSecretRefs `{GatewayEnv} (principal : Principal) (tool : ToolCapability) (refs : gmap string string)
    : result (gmap string string) :=
  if bool_decide (refs = ∅) then Ok refs
  else match PinReferences with
  | None => Err (errorf ErrInvalidArgument "secret resolver is not configured")
  | Some pin => pin principal refs (ToolCapability_Name tool)
  end.

(** ** Invocation *)

(** A call that passed every check, ready to be held or carried out. *)
Record AuthorizedCall := {
  authorized_ctx : InvokeContext;
  authorized_tool : ToolCapability;
  authorized_input : go_map;
  authorized_refs : gmap string string;
  authorized_scope : gmap string string;
  authorized_decision : gatewayRiskDecision
}.

(** The checks of [invokeTool], up to whether the call is held. *)
Definition authorize_call `{CatalogSource, MapRange, SensitiveText, GatewayEnv} (ctx : InvokeContext) (principal : Principal)
    (input : ToolInvocationRequest) (approvalOnly : bool) : gateway AuthorizedCall :=
  let! ctx := glift (withWorkbenchAuthorization ctx principal input) in
  let toolName := TrimSpace (ToolInvocationRequest_ToolName input) in
  let aiClientID := ToolInvocationRequest_AIClientID input in
  let skillID := ToolInvocationRequest_SkillID input in
  match toolByName toolName with
  | None => gfail (errorf ErrInvalidArgument ("unknown AI Gateway tool " +:+ toolName))
  | Some tool =>
      do! authorize_permission principal PermAIGatewayInvoke;
      do! authorizeTool principal tool;
      do! glift (validateCapabilityVersion tool (ToolInvocationRequest_CapabilityVersion input));
      let! ctx := glift (resolveCapabilityScopeContext ctx principal tool (ToolInvocationRequest_Input input)) in
      let invocationScope := capabilityGatewayScope tool (ToolInvocationRequest_Input input) in
      let! grantRequiresApproval := authorizeToolGrant ctx principal aiClientID tool invocationScope in
      let! outcome := glift (authorizeAccessPolicy ctx principal aiClientID skillID tool invocationScope (ToolInvocationRequest_Input input)) in
      let '(decision, policyInput, tool) := outcome in
      do! glift (preserveCapabilityScope ctx principal tool (ToolInvocationRequest_Input input) policyInput);
      do! glift (validateCapabilityInput tool policyInput);
      let held := (grantRequiresApproval || approvalOnly) && negb (requiresApproval decision) in
      let reason := if approvalOnly then "conversation change requires human approval" else "matching MCP tool grant requires approval" in
      let decision := if held then mergeGatewayRiskDecision decision (risk_decision gatewayRiskRequireApproval reason) else decision in
      let tool := if held then set_tool_approval true tool else tool in
      do! glift (authorizeSkillBinding ctx principal aiClientID skillID tool);
      let! refs := glift (pinToolSecretRefs principal tool (ToolInvocationRequest_SecretRefs input)) in
      gret {| authorized_ctx := ctx; authorized_tool := tool; authorized_input := policyInput; authorized_refs := refs;
              authorized_scope := invocationScope; authorized_decision := decision |}
  end.

(** The domain that carries out a tool no registered provider handles. *)
Definition tool_domains : list (string * string) :=
  [("network_access.", "network_access"); ("delivery.", "delivery"); ("k8s.", "kubernetes"); ("virtualization.", "virtualization");
   ("docker.", "docker"); ("compute.", "compute")].

Definition tool_domain (name : string) : option string :=
  match find_first (fun entry => HasPrefix name (fst entry)) tool_domains with
  | Some entry => Some (snd entry)
  | None =>
      if String.eqb name "diagnosis.release_failure.analyze" then Some "diagnosis"
      else if HasPrefix name "gateway." then Some "gateway"
      else None
  end.

Definition resolve_secrets `{GatewayEnv} (principal : Principal) (tool : ToolCapability) (refs : gmap string string) : result unit :=
  if bool_decide (refs = ∅) then Ok tt
  else match PinReferences with
  | None => Err (errorf ErrInvalidArgument "secret resolver is not configured")
  | Some pin =>
      let* pinned := pin principal refs (ToolCapability_Name tool) in
      ResolvePinnedReferences principal pinned (ToolCapability_Name tool)
  end.

Definition on_record (call : ProviderCall) {A} (answer : result A) : gateway A :=
  fun w => (answer, {| world_cache := world_cache w; world_calls := call :: world_calls w |}).

Definition invokeGatewayTool `{GatewayEnv} (principal : Principal) (tool : ToolCapability) (input : go_map) (refs : gmap string string)
    (sessionID : string) : gateway (any * go_map) :=
  do! glift (resolve_secrets principal tool refs);
  do! glift reserveNativeCapabilityToolCall;
  let call := {| call_principal := principal; call_tool := tool; call_input := input; call_refs := refs |} in
  match registry_InvokeTool principal tool input with
  | Some answer => on_record call answer
  | None =>
      match tool_domain (ToolCapability_Name tool) with
      | Some domain => on_record call (domain_invoke domain principal tool input sessionID)
      | None => gfail (errorf ErrInvalidArgument ("tool " +:+ ToolCapability_Name tool +:+ " is not implemented yet"))
      end
  end.

(** What the caller of a tool gets back: its output, or that the call waits. *)
Inductive invocation_result :=
| Invoked (output : any) (relatedIDs : go_map)
| Held (decision : gatewayRiskDecision) (tool : ToolCapability) (input : go_map).

Definition executeToolInvocation `{MapRange, SensitiveText, GatewayEnv} (principal : Principal) (input : ToolInvocationRequest)
    (call : AuthorizedCall) : gateway invocation_result :=
  let! answer := invokeGatewayTool principal (authorized_tool call) (authorized_input call) (authorized_refs call)
    (ToolInvocationRequest_SessionID input) in
  let '(output, relatedIDs) := answer in
  let! output := glift (sanitizeToolOutputByAccessPolicy (authorized_ctx call) principal (ToolInvocationRequest_AIClientID input)
    (ToolInvocationRequest_SkillID input) (authorized_tool call) (authorized_scope call) output) in
  gret (Invoked output relatedIDs).

Definition invokeTool `{CatalogSource, MapRange, SensitiveText, GatewayEnv} (ctx : InvokeContext) (principal : Principal)
    (input : ToolInvocationRequest) (approvalOnly : bool) : gateway invocation_result :=
  let! call := authorize_call ctx principal input approvalOnly in
  if shouldHoldExecution (authorized_decision call)
  then gret (Held (authorized_decision call) (authorized_tool call) (authorized_input call))
  else executeToolInvocation principal input call.

Definition InvokeTool `{CatalogSource, MapRange, SensitiveText, GatewayEnv} (ctx : InvokeContext) (principal : Principal)
    (input : ToolInvocationRequest) : gateway invocation_result := invokeTool ctx principal input false.

Definition RequestToolApproval `{CatalogSource, MapRange, SensitiveText, GatewayEnv} (ctx : InvokeContext) (principal : Principal)
    (input : ToolInvocationRequest) : gateway invocation_result := invokeTool ctx principal input true.

(** ** Lemmas: steps *)

(** A step that calls no provider. *)
Definition quiet {A} (m : gateway A) : Prop := forall w, world_calls (snd (m w)) = world_calls w.

Lemma quiet_glift {A} (r : result A) : quiet (glift r).
Proof. done. Qed.
Lemma quiet_gret {A} (a : A) : quiet (gret a).
Proof. done. Qed.
Lemma quiet_gfail {A} e : quiet (@gfail _ A e).
Proof. done. Qed.
Lemma quiet_gbind {A B} (m : gateway A) (f : A -> gateway B) : quiet m -> (forall a, quiet (f a)) -> quiet (gbind m f).
Proof.
  intros Hm Hf w. unfold gbind. specialize (Hm w). destruct (m w) as [[a|e] w1]; [|done]. simpl in *. by rewrite Hf.
Qed.

Create HintDb gateway.
#[export] Hint Resolve quiet_glift quiet_gret quiet_gfail : gateway.
#[export] Hint Resolve quiet_gbind : gateway.

Section invoke.
Context `{CatalogSource, MapRange, SensitiveText, GatewayEnv}.

Lemma quiet_authorize_permission principal key : quiet (authorize_permission principal key).
Proof. intros w. unfold authorize_permission. by destruct (AuthorizeRuntimePermission _ _ _ _). Qed.
Lemma quiet_permission_keys principal : quiet (permission_keys principal).
Proof. intros w. unfold permission_keys. by destruct (RuntimePermissionKeys _ _ _). Qed.
Hint Resolve quiet_authorize_permission quiet_permission_keys : gateway.

Lemma quiet_authorize_all principal keys : quiet (authorize_all principal keys).
Proof. induction keys as [|key keys IH]; simpl; eauto with gateway. Qed.
Hint Resolve quiet_authorize_all : gateway.

Lemma quiet_authorizeToolGrant ctx principal client tool scope : quiet (authorizeToolGrant ctx principal client tool scope).
Proof. apply quiet_gbind; [eauto with gateway|]. intros grants. destruct (is_empty grants); eauto with gateway. Qed.
Hint Resolve quiet_authorizeToolGrant : gateway.

Lemma quiet_authorize_call ctx principal input approvalOnly : quiet (authorize_call ctx principal input approvalOnly).
Proof.
  unfold authorize_call, authorizeTool. apply quiet_gbind; [eauto with gateway|]. intros ctx'.
  destruct (toolByName _) as [tool|]; [|eauto with gateway].
  repeat first [apply quiet_glift | apply quiet_gret | apply quiet_authorize_permission | apply quiet_authorize_all
    | apply quiet_authorizeToolGrant | apply quiet_gbind; [|intros ?] | destruct (_ : gatewayRiskDecision * go_map * ToolCapability) as [[? ?] ?]].
Qed.

(** The principal holds a permission key, as far as the resolver knows. *)
Definition holds (principal : Principal) (key : string) : Prop :=
  blank key = true \/ exists cache cache' keys, PermissionKeys permissions principal cache = (Ok keys, cache') /\ TrimSpace key ∈ keys.

(** The permission keys that the resolver gives the principal. *)
Definition resolved_keys (principal : Principal) (keys : list string) : Prop :=
  exists cache cache', RuntimePermissionKeys permissions principal cache = (Ok keys, cache').

Lemma authorize_permission_holds principal key w u w' : authorize_permission principal key w = (Ok u, w') -> holds principal key.
Proof.
  unfold authorize_permission. destruct (AuthorizeRuntimePermission _ _ _ _) as [[v|e] c] eqn:Ha; [|done]. intros _.
  destruct (blank key) eqn:Hb; [by left|right]. destruct (authorized_key _ _ _ _ _ _ Hb Ha) as (keys & Hk & Hin). eauto.
Qed.

Lemma authorize_all_holds principal keys : forall w u w',
  authorize_all principal keys w = (Ok u, w') -> forall key, key ∈ keys -> holds principal key.
Proof.
  induction keys as [|k keys IH]; simpl; intros w u w' Ha key Hk; [by apply not_elem_of_nil in Hk|].
  apply gbind_Ok in Ha as (a & w1 & Hp & Hrest). apply elem_of_cons in Hk as [->|Hk]; [by eapply authorize_permission_holds|by eapply IH].
Qed.

(** A decision that can come out of the evaluation: one of the strategies, and not a denial. *)
Definition settled (d : gatewayRiskDecision) : Prop := Risk_Strategy d ∈ strategies /\ Risk_Strategy d <> gatewayRiskDeny.

Lemma settled_strictness d : settled d -> (gatewayRiskStrictness (Risk_Strategy d) <= 4)%Z.
Proof.
  intros [Hs Hd]. unfold gatewayRiskStrictness.
  destruct (String.eqb_spec (Risk_Strategy d) gatewayRiskDeny); [done|]. repeat case_match; lia.
Qed.

Lemma mild_strategy s : (gatewayRiskStrictness s <= 1)%Z ->
  contains [gatewayRiskRequireApproval; gatewayRiskRequireHumanConfirm; gatewayRiskDryRunOnly] s = false.
Proof.
  intros Hs. apply contains_false. intros Hin. repeat (apply elem_of_cons in Hin as [->|Hin]; [by vm_compute in Hs|]). by apply not_elem_of_nil in Hin.
Qed.

Lemma mild_allow d : (gatewayRiskStrictness (Risk_Strategy d) <= 1)%Z -> settled d -> str_empty (Risk_Strategy d) = false ->
  Risk_Strategy d = gatewayRiskAllow.
Proof.
  intros Hm [Hs _] He. unfold strategies in Hs.
  repeat (apply elem_of_cons in Hs as [Hs|Hs]; [rewrite Hs in Hm, He |- *; try done|]). by apply not_elem_of_nil in Hs.
Qed.

(** A decision that is settled and does not hold the call is mild. *)
Lemma unheld_mild d : settled d -> shouldHoldExecution d = false -> (gatewayRiskStrictness (Risk_Strategy d) <= 1)%Z.
Proof.
  intros [Hs Hd] Hh. unfold shouldHoldExecution in Hh. apply contains_false in Hh. unfold strategies in Hs.
  repeat (apply elem_of_cons in Hs as [Hs|Hs]; [rewrite Hs in Hh, Hd |- *; try (by vm_compute); try (exfalso; apply Hh; apply contains_true; vm_compute; reflexivity); done|]).
  by apply not_elem_of_nil in Hs.
Qed.

Lemma merge_bounds d next :
  (gatewayRiskStrictness (Risk_Strategy d) <= gatewayRiskStrictness (Risk_Strategy (mergeGatewayRiskDecision d next)))%Z /\
  (gatewayRiskStrictness (Risk_Strategy next) <= gatewayRiskStrictness (Risk_Strategy (mergeGatewayRiskDecision d next)))%Z /\
  (mergeGatewayRiskDecision d next = d \/ mergeGatewayRiskDecision d next = next).
Proof.
  assert (forall s, 0 <= gatewayRiskStrictness s)%Z as Hpos by (intros s; unfold gatewayRiskStrictness; repeat case_match; lia).
  assert (gatewayRiskStrictness "" = 0%Z) as Hzero by done.
  unfold mergeGatewayRiskDecision. destruct (str_empty (Risk_Strategy next)) eqn:Hn.
  { apply String.eqb_eq in Hn. rewrite Hn, Hzero. split_and!; [done|apply Hpos|by left]. }
  destruct (str_empty (Risk_Strategy d) || _) eqn:Hm.
  - split_and!; [|done|by right]. apply orb_true_iff in Hm as [Hm%String.eqb_eq|Hm]; [rewrite Hm, Hzero; apply Hpos|lia].
  - apply orb_false_iff in Hm as [_ Hm]. split_and!; [done|lia|by left].
Qed.

Lemma evaluate_settled c policies decision reason :
  evaluateToolAccessPolicies c policies = (true, decision, reason) -> settled decision.
Proof.
  unfold evaluateToolAccessPolicies. destruct (find_first _ _); [done|].
  pose proof (allow_policies_spec c policies [] false no_decision) as Hspec. simpl in Hspec.
  assert (settled no_decision) as Hnone by (split; [left|done]).
  destruct (allow_policies c policies false false no_decision) as [[[matched mismatch] d]|[r d]]; [|done].
  destruct (existsb _ _ && _); [done|]. intros [= <- _].
  destruct Hspec as (_ & [_ Ho] & Hno); [split; [intros p Hp; by apply not_elem_of_nil in Hp|by left]|].
  destruct Ho as [->|(p & Hp & ->)]; [done|]. apply list_elem_of_filter in Hp as [Ha Hp].
  split; [apply strategy_of_canonical|by apply Hno].
Qed.

Lemma policies_allow_spec tool policies skillID scopes : forall decision result,
  settled decision -> policies_allow tool policies skillID scopes decision = Ok result ->
  settled result /\ (gatewayRiskStrictness (Risk_Strategy decision) <= gatewayRiskStrictness (Risk_Strategy result))%Z /\
  forall scope, scope ∈ scopes -> exists d reason,
    toolAllowedByAccessPoliciesForInvocationWithSkills tool policies skillID scope gatewaySkills = (true, d, reason) /\
    (gatewayRiskStrictness (Risk_Strategy d) <= gatewayRiskStrictness (Risk_Strategy result))%Z.
Proof.
  induction scopes as [|scope scopes IH]; intros decision result Hd; cbn [policies_allow].
  { intros [= <-]. split_and!; [done|done|]. intros s Hs. by apply not_elem_of_nil in Hs. }
  destruct (toolAllowedByAccessPoliciesForInvocationWithSkills _ _ _ _ _) as [[allowed next] reason] eqn:He.
  destruct allowed; [|done]. cbn [negb]. intros Hr.
  destruct (merge_bounds decision next) as (Hb1 & Hb2 & Hm).
  assert (settled next) as Hnext by by eapply evaluate_settled.
  assert (settled (mergeGatewayRiskDecision decision next)) as Hset by (by destruct Hm as [-> | ->]).
  destruct (IH _ _ Hset Hr) as (HS & HB & Hall). split_and!; [done|lia|].
  intros s [->|Hs]%elem_of_cons; [|by apply Hall]. exists next, reason. split; [done|lia].
Qed.

Lemma grants_allow_spec tool grants keys scopes : forall approval result,
  grants_allow tool grants keys scopes approval = Ok result ->
  (result = false -> approval = false) /\
  forall scope, scope ∈ scopes -> exists a reason,
    toolAllowedByGrantsForInvocation tool grants keys scope = (true, a, reason) /\ (result = false -> a = false).
Proof.
  induction scopes as [|scope scopes IH]; intros approval result; cbn [grants_allow].
  { intros [= <-]. split; [done|]. intros s Hs. by apply not_elem_of_nil in Hs. }
  destruct (toolAllowedByGrantsForInvocation _ _ _ _) as [[allowed a] reason] eqn:He.
  destruct allowed; [|done]. cbn [negb]. intros Hr. destruct (IH _ _ Hr) as [Ha Hall].
  split; [intros Hf; by apply Ha, orb_false_iff in Hf as [? _]|].
  intros s [->|Hs]%elem_of_cons; [|by apply Hall]. exists a, reason. split; [done|]. intros Hf. by apply Ha, orb_false_iff in Hf as [_ ?].
Qed.

Lemma policies_allow_origin tool policies skillID scopes : forall decision result,
  policies_allow tool policies skillID scopes decision = Ok result ->
  result = decision \/ exists scope reason, scope ∈ scopes /\
    toolAllowedByAccessPoliciesForInvocationWithSkills tool policies skillID scope gatewaySkills = (true, result, reason).
Proof.
  induction scopes as [|scope scopes IH]; intros decision result; cbn [policies_allow]; [intros [= <-]; by left|].
  destruct (toolAllowedByAccessPoliciesForInvocationWithSkills _ _ _ _ _) as [[[] next] reason] eqn:He; [|done]. cbn [negb].
  intros [->|(s & r & Hs & Hr)]%IH; [|right; exists s, r; set_solver].
  destruct (merge_bounds decision next) as (_ & _ & [-> | ->]); [by left|right; exists scope, reason; set_solver].
Qed.

(** ** What a call carried out has passed *)

Record allowed_call (ctx : InvokeContext) (principal : Principal) (input : ToolInvocationRequest) (tool : ToolCapability)
    (resolved : InvokeContext) (call : ProviderCall) : Prop := {
  (** The tool is in the registry, at the version asked for. *)
  allowed_tool : toolByName (TrimSpace (ToolInvocationRequest_ToolName input)) = Some tool /\
    (call_tool call = tool \/ call_tool call = set_tool_approval true tool) /\
    (ToolInvocationRequest_CapabilityVersion input = "" \/ ToolInvocationRequest_CapabilityVersion input = ToolCapability_Version tool);
  (** The caller holds the permission to invoke and those of the tool. *)
  allowed_permissions : call_principal call = principal /\ holds principal PermAIGatewayInvoke /\
    forall key, key ∈ ToolCapability_PermissionKeys tool -> holds principal key;
  (** The scopes are resolved by the owning domain, within those of the task. *)
  allowed_scopes : exists ceiling, withWorkbenchAuthorization ctx principal input = Ok ceiling /\
    resolveCapabilityScopeContext ceiling principal tool (ToolInvocationRequest_Input input) = Ok resolved;
  (** The grants, if there are any, allow every scope to the keys of the caller, without approval. *)
  allowed_grants : exists grants, activeToolGrants resolved principal (ToolInvocationRequest_AIClientID input) = Ok grants /\
    (grants = [] \/ exists keys, resolved_keys principal keys /\ forall scope,
       scope ∈ capabilityInvocationScopes resolved (ToolCapability_Name tool) (capabilityGatewayScope tool (ToolInvocationRequest_Input input)) ->
       exists reason, toolAllowedByGrantsForInvocation tool grants keys scope = (true, false, reason));
  (** So do the policies; without a policy's word the tool must not require approval. *)
  allowed_policies : exists policies, activeAccessPolicies resolved principal (ToolInvocationRequest_AIClientID input) = Ok policies /\
    (policies = [] \/ forall scope,
       scope ∈ capabilityInvocationScopes resolved (ToolCapability_Name tool) (capabilityGatewayScope tool (ToolInvocationRequest_Input input)) ->
       exists decision reason, shouldHoldExecution decision = false /\
         toolAllowedByAccessPoliciesForInvocationWithSkills tool policies (ToolInvocationRequest_SkillID input) scope gatewaySkills =
           (true, decision, reason)) /\
    (ToolCapability_RequiresApproval tool = false \/ exists scope decision reason,
       scope ∈ capabilityInvocationScopes resolved (ToolCapability_Name tool) (capabilityGatewayScope tool (ToolInvocationRequest_Input input)) /\
       Risk_Strategy decision = gatewayRiskAllow /\
       toolAllowedByAccessPoliciesForInvocationWithSkills tool policies (ToolInvocationRequest_SkillID input) scope gatewaySkills =
         (true, decision, reason));
  (** The input carried out is the caller's, or one with the same scopes. *)
  allowed_input : call_input call = ToolInvocationRequest_Input input \/ exists after,
    resolveCapabilityScopeContext resolved principal (call_tool call) (call_input call) = Ok after /\
    capabilityInvocationScopes after (ToolCapability_Name tool) (capabilityGatewayScope tool (call_input call)) =
    capabilityInvocationScopes resolved (ToolCapability_Name tool) (capabilityGatewayScope tool (ToolInvocationRequest_Input input));
  allowed_schema : validateCapabilityInput tool (call_input call) = Ok tt;
  (** A binding of a skill, if there are any, opens the tool. *)
  allowed_binding : exists bindings, activeSkillBindings resolved principal (ToolInvocationRequest_AIClientID input) = Ok bindings /\
    (bindings = [] \/
     fst (toolAllowedBySkillBindingsWithSkills tool bindings (ToolInvocationRequest_SkillID input) gatewaySkills) = true)
}.

Lemma authorizeToolGrant_spec ctx principal client tool scope w a w' :
  authorizeToolGrant ctx principal client tool scope w = (Ok a, w') ->
  exists grants, activeToolGrants ctx principal client = Ok grants /\
    (grants = [] \/ exists keys, resolved_keys principal keys /\ forall s, s ∈ capabilityInvocationScopes ctx (ToolCapability_Name tool) scope ->
       exists b reason, toolAllowedByGrantsForInvocation tool grants keys s = (true, b, reason) /\ (a = false -> b = false)).
Proof.
  unfold authorizeToolGrant. intros (grants & w1 & [= Hg <-] & Hrest)%gbind_Ok. exists grants. split; [done|].
  destruct (is_empty grants) eqn:He; [left; by apply is_empty_true|right].
  apply gbind_Ok in Hrest as (keys & w2 & Hk & [= Ha <-]). exists keys. split; [|by apply grants_allow_spec in Ha as [_ ?]].
  unfold permission_keys in Hk. destruct (RuntimePermissionKeys permissions principal (world_cache w)) as [r c] eqn:Hr.
  injection Hk as -> _. by exists (world_cache w), c.
Qed.

Lemma authorizeAccessPolicy_spec ctx principal client skillID tool scope input decision out tool' :
  authorizeAccessPolicy ctx principal client skillID tool scope input = Ok (decision, out, tool') ->
  (tool' = tool \/ tool' = set_tool_approval true tool) /\ settled decision /\
  exists policies, activeAccessPolicies ctx principal client = Ok policies /\
    (policies = [] /\ decision = gatewayRiskDecisionForTool tool \/
     exists policyDecision, evaluateCapabilityScopePolicies ctx tool policies skillID scope = Ok policyDecision /\
       decision = if str_empty (Risk_Strategy policyDecision) then gatewayRiskDecisionForTool tool else policyDecision).
Proof.
  assert (settled (gatewayRiskDecisionForTool tool)) as Htool
    by (unfold gatewayRiskDecisionForTool; destruct (ToolCapability_RequiresApproval tool); (split; [apply contains_true; vm_compute; reflexivity|done])).
  unfold authorizeAccessPolicy. destruct (activeAccessPolicies ctx principal client) as [policies|]; [|done]. cbn [result_bind].
  destruct (is_empty policies) eqn:He.
  { intros [= <- <- <-]. apply is_empty_true in He as ->. split_and!; [by left|done|]. exists []. split; [done|by left]. }
  destruct (evaluateCapabilityScopePolicies _ _ _ _ _) as [pd|] eqn:Hp; [|done]. cbn [result_bind].
  destruct (enforceAccessPolicyConditions _ _ _ _ _ _ _ _) as [next|]; [|done]. cbn [result_bind]. intros [= <- <- <-].
  split_and!; [destruct (requiresApproval _); auto| |exists policies; split; [done|]; right; by exists pd].
  destruct (str_empty (Risk_Strategy pd)); [done|]. by apply policies_allow_spec in Hp as [? _]; [|split; [left|done]].
Qed.

(** The strategy after a grant or the caller asked for approval. *)
Definition final_decision (held : bool) (reason : string) (decision : gatewayRiskDecision) : gatewayRiskDecision :=
  if held then mergeGatewayRiskDecision decision (risk_decision gatewayRiskRequireApproval reason) else decision.

Lemma unheld_decision asked reason decision : settled decision ->
  shouldHoldExecution (final_decision (asked && negb (requiresApproval decision)) reason decision) = false ->
  asked = false /\ shouldHoldExecution decision = false.
Proof.
  intros Hd Hh. destruct (requiresApproval decision) eqn:Hr; cbn [negb] in Hh; rewrite ?andb_false_r, ?andb_true_r in Hh; cbn [final_decision] in Hh.
  { exfalso. unfold requiresApproval, shouldHoldExecution in *. apply contains_true in Hr. apply contains_false in Hh. apply Hh. set_solver. }
  destruct asked; [|done]. exfalso. cbn [final_decision] in Hh.
  destruct (merge_bounds decision (risk_decision gatewayRiskRequireApproval reason)) as (_ & Hb & Hm).
  assert (settled (mergeGatewayRiskDecision decision (risk_decision gatewayRiskRequireApproval reason))) as Hs.
  { destruct Hm as [-> | ->]; [done|]. split; [apply contains_true; vm_compute; reflexivity|done]. }
  pose proof (unheld_mild _ Hs Hh). change (gatewayRiskStrictness (Risk_Strategy (risk_decision gatewayRiskRequireApproval reason))) with 3%Z in Hb. lia.
Qed.

Lemma preserve_scope_spec ctx principal tool before after :
  preserveCapabilityScope ctx principal tool before after = Ok tt ->
  after = before \/ exists resolved, resolveCapabilityScopeContext ctx principal tool after = Ok resolved /\
    capabilityInvocationScopes resolved (ToolCapability_Name tool) (capabilityGatewayScope tool after) =
    capabilityInvocationScopes ctx (ToolCapability_Name tool) (capabilityGatewayScope tool before).
Proof.
  unfold preserveCapabilityScope. destruct (DeepEqual before after) eqn:He; [left; symmetry; by apply DeepEqual_sound|].
  destruct (resolveCapabilityScopeContext _ _ _ _) as [resolved|]; [|done]. cbn [result_bind]. case_bool_decide as Heq; [|done].
  intros _. right. by exists resolved.
Qed.

Lemma authorized_call ctx principal input approvalOnly w call w' :
  authorize_call ctx principal input approvalOnly w = (Ok call, w') -> shouldHoldExecution (authorized_decision call) = false ->
  approvalOnly = false /\ exists tool, allowed_call ctx principal input tool (authorized_ctx call)
    {| call_principal := principal; call_tool := authorized_tool call; call_input := authorized_input call;
       call_refs := authorized_refs call |}.
Proof.
  unfold authorize_call. intros (ceiling & w1 & [= Hc <-] & Hrest)%gbind_Ok.
  destruct (toolByName _) as [tool|] eqn:Htool; [|done].
  apply gbind_Ok in Hrest as (u1 & w2 & Hinvoke & Hrest). apply gbind_Ok in Hrest as (u2 & w3 & Hkeys & Hrest).
  apply gbind_Ok in Hrest as (u3 & w4 & [= Hversion <-] & Hrest). apply gbind_Ok in Hrest as (resolved & w5 & [= Hres <-] & Hrest).
  apply gbind_Ok in Hrest as (grantAsks & w6 & Hgrant & Hrest). apply gbind_Ok in Hrest as ([[decision out] tool'] & w7 & [= Hpol <-] & Hrest).
  apply gbind_Ok in Hrest as ([] & w8 & [= Hpres <-] & Hrest). apply gbind_Ok in Hrest as ([] & w9 & [= Hschema <-] & Hrest).
  apply gbind_Ok in Hrest as ([] & w10 & [= Hbind <-] & Hrest). apply gbind_Ok in Hrest as (refs & w11 & [= Hrefs <-] & [= <- <-]).
  cbn [authorized_decision authorized_ctx authorized_tool authorized_input authorized_refs]. intros Hh.
  destruct (authorizeAccessPolicy_spec _ _ _ _ _ _ _ _ _ _ Hpol) as (Hflag & Hset & policies & Hpolicies & Hdecision).
  destruct (unheld_decision (grantAsks || approvalOnly) _ decision Hset Hh) as [[-> ->]%orb_false_iff Hunheld].
  split; [done|]. cbn [orb andb] in *. exists tool.
  assert (Hname : forall b, toolAllowedBySkillBindingsWithSkills (set_tool_approval b tool) = toolAllowedBySkillBindingsWithSkills tool) by done.
  split; cbn [call_principal call_tool call_input call_refs].
  - split_and!; [done|done|]. unfold validateCapabilityVersion in Hversion.
    destruct (negb (str_empty _) && _) eqn:Hv; [done|]. apply andb_false_iff in Hv as [Hv|Hv]; apply negb_false_iff in Hv; apply String.eqb_eq in Hv; auto.
  - split_and!; [done|by eapply authorize_permission_holds|by eapply authorize_all_holds].
  - by exists ceiling.
  - destruct (authorizeToolGrant_spec _ _ _ _ _ _ _ _ Hgrant) as (grants & Hg & Hcase). exists grants. split; [done|].
    destruct Hcase as [->|(keys & Hkeys' & Hall)]; [by left|right]. exists keys. split; [done|]. intros scope Hscope. destruct (Hall scope Hscope) as (b & reason & Ha & Hb). rewrite (Hb eq_refl) in Ha. by exists reason.
  - exists policies. split; [done|]. destruct Hdecision as [[-> ->]|(pd & Hev & ->)].
    + split; [by left|left]. unfold gatewayRiskDecisionForTool in Hunheld. by destruct (ToolCapability_RequiresApproval tool).
    + assert (settled no_decision) as Hnone by (split; [left|done]).
      destruct (policies_allow_spec _ _ _ _ _ _ Hnone Hev) as (Hps & _ & Hall).
      assert (Hmild : (gatewayRiskStrictness (Risk_Strategy pd) <= 1)%Z).
      { destruct (str_empty (Risk_Strategy pd)) eqn:He; [apply String.eqb_eq in He; rewrite He; by vm_compute|by apply unheld_mild]. }
      split.
      * right. intros scope Hscope. destruct (Hall scope Hscope) as (d & reason & Ha & Hd). exists d, reason. split; [|done].
        unfold shouldHoldExecution. apply mild_strategy. lia.
      * destruct (str_empty (Risk_Strategy pd)) eqn:He.
        { left. unfold gatewayRiskDecisionForTool in Hunheld. by destruct (ToolCapability_RequiresApproval tool). }
        right. destruct (policies_allow_origin _ _ _ _ _ _ Hev) as [->|(scope & reason & Hs & Ha)]; [done|].
        exists scope, pd, reason. split_and!; [done|by apply mild_allow|done].
  - destruct (preserve_scope_spec _ _ _ _ _ Hpres) as [->|(after & Hafter & Heq)]; [by left|right].
    exists after. destruct Hflag as [-> | ->]; done.
  - destruct Hflag as [-> | ->]; by destruct u3.
  - unfold authorizeSkillBinding in Hbind. destruct (activeSkillBindings _ _ _) as [bindings|]; [|done]. cbn [result_bind] in Hbind.
    exists bindings. split; [done|]. destruct (is_empty bindings) eqn:He; [left; by apply is_empty_true|right].
    destruct Hflag as [-> | ->]; rewrite ?Hname in Hbind; by destruct (toolAllowedBySkillBindingsWithSkills tool _ _ _) as [[] ?].
Qed.

Lemma executed_calls principal input call w r w' :
  executeToolInvocation principal input call w = (r, w') ->
  world_calls w' = world_calls w \/
  world_calls w' = {| call_principal := principal; call_tool := authorized_tool call; call_input := authorized_input call;
    call_refs := authorized_refs call |} :: world_calls w.
Proof.
  unfold executeToolInvocation, invokeGatewayTool, gbind, glift.
  destruct (resolve_secrets _ _ _); [|intros [= <- <-]; by left]. destruct reserveNativeCapabilityToolCall; [|intros [= <- <-]; by left].
  assert (forall answer : result (any * go_map),
    (let '(r1, w1) := on_record {| call_principal := principal; call_tool := authorized_tool call; call_input := authorized_input call;
       call_refs := authorized_refs call |} answer w in
     match r1 with
     | Ok a => (let '(output, relatedIDs) := a in
         fun w => match (sanitizeToolOutputByAccessPolicy (authorized_ctx call) principal (ToolInvocationRequest_AIClientID input)
    (ToolInvocationRequest_SkillID input) (authorized_tool call) (authorized_scope call) output, w) with
           | (Ok a, w) => gret (Invoked a relatedIDs) w | (Err e, w) => (Err e, w) end) w1
     | Err e => (Err e, w1)
     end) = (r, w') -> world_calls w' = {| call_principal := principal; call_tool := authorized_tool call; call_input := authorized_input call;
       call_refs := authorized_refs call |} :: world_calls w) as Hone.
  { intros [[output relatedIDs]|e]; unfold on_record; simpl; [|by intros [= <- <-]].
    by destruct (sanitizeToolOutputByAccessPolicy _ _ _ _ _ _ _); intros [= <- <-]. }
  destruct (registry_InvokeTool _ _ _) as [answer|]; [intros Hr; right; by apply (Hone answer)|].
  destruct (tool_domain _) as [domain|]; [intros Hr; right; by eapply Hone|]. intros [= <- <-]. by left.
Qed.
End invoke.

(** ** Properties *)

(** C26. A provider is called only for a call that passed every check: a known tool
    at the version asked for, the permissions of the caller, the scopes as the
    owning domain resolves them, grants and policies that allow each scope
    without approval, an input that keeps those scopes and fits the schema, and
    a skill binding where the caller has any. It is called at most once, never
    when the call is held, and never by a request for approval. *)
Theorem invoke_sound `{CatalogSource, MapRange, SensitiveText, GatewayEnv} (ctx : InvokeContext) (principal : Principal)
    (input : ToolInvocationRequest) (approvalOnly : bool) (w : GatewayWorld) r w' :
  invokeTool ctx principal input approvalOnly w = (r, w') ->
  world_calls w' = world_calls w \/
  approvalOnly = false /\ (forall decision tool out, r <> Ok (Held decision tool out)) /\
  exists tool resolved call, world_calls w' = call :: world_calls w /\ allowed_call ctx principal input tool resolved call.
Proof.
  unfold invokeTool, gbind at 1. pose proof (quiet_authorize_call ctx principal input approvalOnly w) as Hq.
  destruct (authorize_call ctx principal input approvalOnly w) as [[call|e] w1] eqn:Hcall; [|intros [= <- <-]; by left].
  simpl in Hq. rewrite <- Hq. destruct (shouldHoldExecution _) eqn:Hh; [intros [= <- <-]; by left|].
  intros He. destruct (executed_calls _ _ _ _ _ _ He) as [?|Hone]; [by left|right].
  destruct (authorized_call _ _ _ _ _ _ _ Hcall Hh) as (-> & tool & Hallowed). split_and!; [done| |by eexists tool, _, _].
  intros decision t out ->. unfold executeToolInvocation in He. apply gbind_Ok in He as ([output related] & w2 & _ & He).
  by apply gbind_Ok in He as (output' & w3 & _ & [= ?]).
Qed.

(** ** Concrete instances *)

(** A gateway with one tool, given grants and policies, and a domain that knows the namespace. *)
Definition gateway_with_roles (roles : gmap string (list string)) (grants : list ToolGrant) (policies : list AccessPolicy) : GatewayEnv := {|
  permissions := Some (Ok roles);
  ListActiveToolGrants := fun subjectType _ _ => if String.eqb subjectType "role" then Ok grants else Ok [];
  ListActiveAccessPolicies := fun subjectType _ _ => if String.eqb subjectType "role" then Ok policies else Ok [];
  ListActiveSkillBindings := fun _ _ _ => Ok [];
  gatewayTools := [sample_tool];
  gatewaySkills := [];
  scope_providers := [{| provider_tools := ["k8s.pods.restart"]; provider_builtin := true;
    provider_resolver := Some (fun _ _ _ => Ok [{["namespace" := "web"]}]) |}];
  docker_resolver := None;
  state_digest := fun _ => Some "revision";
  enforce_budgets := fun _ _ _ _ => Ok tt;
  enforce_rates := fun _ _ _ _ => Ok tt;
  redact_input := fun _ _ input => Ok input;
  redact_output := fun _ _ output => Ok output;
  compile_schema := fun _ => Ok (fun _ => true);
  PinReferences := None;
  ResolvePinnedReferences := fun _ _ _ => Ok tt;
  reserveNativeCapabilityToolCall := Ok tt;
  registry_InvokeTool := fun _ _ _ => None;
  domain_invoke := fun domain _ _ _ _ => Ok (AString domain, ∅) |}.

Definition sample_gateway : list ToolGrant -> list AccessPolicy -> GatewayEnv :=
  gateway_with_roles {["operator" := [PermAIGatewayInvoke; "k8s.pods.restart"]]}.

Definition plain_context : InvokeContext := {|
  ctx_ceiling := None; ctx_workbench := None; ctx_scope := {| scope_tool := ""; scope_scopes := [] |};
  ctx_task_scope := {| task_constraints := []; task_invalid := false |}; ctx_queued := false |}.

Definition sample_call (cluster : string) : ToolInvocationRequest := {|
  ToolInvocationRequest_CapabilityVersion := ""; ToolInvocationRequest_ToolName := "k8s.pods.restart";
  ToolInvocationRequest_Input := {["cluster" := AString cluster; "podName" := AString "web-1"]};
  ToolInvocationRequest_SecretRefs := ∅; ToolInvocationRequest_AIClientID := ""; ToolInvocationRequest_AIClientName := "";
  ToolInvocationRequest_SkillID := ""; ToolInvocationRequest_RequestID := "r1"; ToolInvocationRequest_SessionID := "" |}.

Definition idle : GatewayWorld := {| world_cache := None; world_calls := [] |}.

Definition prod_policies : list AccessPolicy := [sample_policy "p" "allow" {["clusterId" := AString "prod"; "namespace" := AString "web"]} ∅].

Lemma invoke_sound_witness :
  let env := sample_gateway [] prod_policies in
  let '(r, w) := @invokeTool sample_catalog elements_map_range plain_text env plain_context sample_principal (sample_call "prod") false idle in
  r = Ok (Invoked (AString "kubernetes") ∅) /\
  exists tool resolved call, world_calls w = [call] /\
    @allowed_call sample_catalog elements_map_range plain_text env plain_context sample_principal (sample_call "prod") tool resolved call.
Proof.
  cbv zeta. destruct (invokeTool _ _ _ _ _) as [r w] eqn:Hr.
  assert (r = Ok (Invoked (AString "kubernetes") ∅) /\ length (world_calls w) = 1) as [Hok Hlen]
    by (vm_compute in Hr; injection Hr as <- <-; split; reflexivity).
  split; [exact Hok|]. destruct (invoke_sound _ _ _ _ _ _ _ Hr) as [Hnone|(_ & _ & Hone)]; [|exact Hone].
  rewrite Hnone in Hlen. discriminate.
Defined.

(** The same call to another cluster reaches no provider, and one that a policy
    holds is not carried out. *)
Example other_cluster_denied :
  world_calls (snd (@invokeTool sample_catalog elements_map_range plain_text (sample_gateway [] prod_policies) plain_context
    sample_principal (sample_call "dev") false idle)) = [].
Proof. vm_compute. reflexivity. Qed.

Example approval_only_holds :
  exists decision tool out, @invokeTool sample_catalog elements_map_range plain_text (sample_gateway [] prod_policies) plain_context
    sample_principal (sample_call "prod") true idle = (Ok (Held decision tool out), {| world_cache := Some {["operator" := [PermAIGatewayInvoke; "k8s.pods.restart"]]}; world_calls := [] |}).
Proof. vm_compute. repeat eexists. Qed.
