(* ===== verification/GatewayApproval.v ===== *)
(** * AI gateway: approval requests

    The life of an approval request in [application/aigateway/approval.go] over
    the store of [repository/aigateway/repository.go]: voting, rejection,
    cancellation and expiry as conditional updates of its status, the replay of
    an approved call, and the registration of AI clients. A call reads its own
    copy of a request, which may be stale by the time the store is updated. *)

From Stdlib Require Import Ascii.
From stdpp Require Import pretty.
From S2P Require Import Prelude GoStrings Stateful AccessModel PermissionTables PermissionResolver WorkflowModel GatewayModel GatewayPolicy GatewayQuorum GatewayInvoke.

(** ** The store *)

(** What a JSON column gives back: numbers as floats, slices and maps as
    generic ones. The text of a float is that of an integer below a million,
    as the counts and indices of a routing are. *)
Fixpoint json_value (v : any) : any :=
  match v with
  | AInt n => AFloat (pretty n) n
  | AList l => AList (json_value <$> l)
  | AMap m => AMap (json_value <$> m)
  | AStrings l => AList (AString <$> l)
  | AStringMap m => AMap (AString <$> m)
  | AIntMap m => AMap ((fun n => AFloat (pretty n) n) <$> m)
  | AMaps l => AList ((fun m => AMap (json_value <$> m)) <$> l)
  | _ => v
  end.

Definition json_map (m : go_map) : go_map := json_value <$> m.

(** [emptyAnyMap] of an output, through its column. *)
Definition json_output (output : any) : any := match output with ANil => AMap ∅ | output => json_value output end.

Abbreviation request_store := (gmap string ApprovalRequest).

(** What is read back of a row that was written. *)
Definition stored_request (r : ApprovalRequest) : ApprovalRequest := {|
  ApprovalRequest_ID := ApprovalRequest_ID r; ApprovalRequest_Status := ApprovalRequest_Status r;
  ApprovalRequest_Strategy := ApprovalRequest_Strategy r; ApprovalRequest_PolicyID := ApprovalRequest_PolicyID r;
  ApprovalRequest_ApprovalPolicyRef := ApprovalRequest_ApprovalPolicyRef r; ApprovalRequest_ActorType := ApprovalRequest_ActorType r;
  ApprovalRequest_ActorID := ApprovalRequest_ActorID r; ApprovalRequest_ActorSessionID := ApprovalRequest_ActorSessionID r;
  ApprovalRequest_ActorName := ApprovalRequest_ActorName r; ApprovalRequest_ActorRoles := ApprovalRequest_ActorRoles r;
  ApprovalRequest_ActorTeams := ApprovalRequest_ActorTeams r; ApprovalRequest_AIClientID := ApprovalRequest_AIClientID r;
  ApprovalRequest_AIClientName := ApprovalRequest_AIClientName r; ApprovalRequest_SkillID := ApprovalRequest_SkillID r;
  ApprovalRequest_ToolName := ApprovalRequest_ToolName r; ApprovalRequest_RiskLevel := ApprovalRequest_RiskLevel r;
  ApprovalRequest_RequiresApproval := ApprovalRequest_RequiresApproval r;
  ApprovalRequest_ResourceScope := json_map (ApprovalRequest_ResourceScope r);
  ApprovalRequest_ToolInput := json_map (ApprovalRequest_ToolInput r); ApprovalRequest_SecretRefs := ApprovalRequest_SecretRefs r;
  ApprovalRequest_RelatedIDs := json_map (ApprovalRequest_RelatedIDs r); ApprovalRequest_ApprovalTrace := None;
  ApprovalRequest_Output := json_output (ApprovalRequest_Output r);
  ApprovalRequest_Summary := ApprovalRequest_Summary r; ApprovalRequest_RequestID := ApprovalRequest_RequestID r;
  ApprovalRequest_SourceIP := ApprovalRequest_SourceIP r; ApprovalRequest_DecidedBy := ApprovalRequest_DecidedBy r;
  ApprovalRequest_DecidedByName := ApprovalRequest_DecidedByName r; ApprovalRequest_DecidedAt := ApprovalRequest_DecidedAt r;
  ApprovalRequest_DecisionComment := ApprovalRequest_DecisionComment r; ApprovalRequest_ExpiresAt := ApprovalRequest_ExpiresAt r;
  ApprovalRequest_CreatedAt := ApprovalRequest_CreatedAt r; ApprovalRequest_UpdatedAt := ApprovalRequest_UpdatedAt r |}.

(** The row after an update: the fields that [UPDATE] sets, the others as they were. *)
Definition updated_request (r : ApprovalRequest) (u : ApprovalRequestUpdate) : ApprovalRequest := {|
  ApprovalRequest_ID := ApprovalRequest_ID r; ApprovalRequest_Status := ApprovalRequestUpdate_Status u;
  ApprovalRequest_Strategy := ApprovalRequest_Strategy r; ApprovalRequest_PolicyID := ApprovalRequest_PolicyID r;
  ApprovalRequest_ApprovalPolicyRef := ApprovalRequest_ApprovalPolicyRef r; ApprovalRequest_ActorType := ApprovalRequest_ActorType r;
  ApprovalRequest_ActorID := ApprovalRequest_ActorID r; ApprovalRequest_ActorSessionID := ApprovalRequest_ActorSessionID r;
  ApprovalRequest_ActorName := ApprovalRequest_ActorName r; ApprovalRequest_ActorRoles := ApprovalRequest_ActorRoles r;
  ApprovalRequest_ActorTeams := ApprovalRequest_ActorTeams r; ApprovalRequest_AIClientID := ApprovalRequest_AIClientID r;
  ApprovalRequest_AIClientName := ApprovalRequest_AIClientName r; ApprovalRequest_SkillID := ApprovalRequest_SkillID r;
  ApprovalRequest_ToolName := ApprovalRequest_ToolName r; ApprovalRequest_RiskLevel := ApprovalRequest_RiskLevel r;
  ApprovalRequest_RequiresApproval := ApprovalRequest_RequiresApproval r; ApprovalRequest_ResourceScope := ApprovalRequest_ResourceScope r;
  ApprovalRequest_ToolInput := ApprovalRequest_ToolInput r; ApprovalRequest_SecretRefs := ApprovalRequest_SecretRefs r;
  ApprovalRequest_RelatedIDs := json_map (ApprovalRequestUpdate_RelatedIDs u); ApprovalRequest_ApprovalTrace := None;
  ApprovalRequest_Output := json_output (ApprovalRequestUpdate_Output u);
  ApprovalRequest_Summary := ApprovalRequestUpdate_Summary u; ApprovalRequest_RequestID := ApprovalRequest_RequestID r;
  ApprovalRequest_SourceIP := ApprovalRequest_SourceIP r; ApprovalRequest_DecidedBy := ApprovalRequestUpdate_DecidedBy u;
  ApprovalRequest_DecidedByName := ApprovalRequestUpdate_DecidedByName u; ApprovalRequest_DecidedAt := ApprovalRequestUpdate_DecidedAt u;
  ApprovalRequest_DecisionComment := ApprovalRequestUpdate_DecisionComment u; ApprovalRequest_ExpiresAt := ApprovalRequest_ExpiresAt r;
  ApprovalRequest_CreatedAt := ApprovalRequest_CreatedAt r; ApprovalRequest_UpdatedAt := ApprovalRequestUpdate_UpdatedAt u |}.

(** The requests, the AI clients, and the world of the gateway. *)
Record ApprovalWorld := {
  aw_requests : request_store;
  aw_clients : gmap string AIClient;
  aw_gateway : GatewayWorld
}.

Definition set_requests (requests : request_store) (w : ApprovalWorld) : ApprovalWorld :=
  {| aw_requests := requests; aw_clients := aw_clients w; aw_gateway := aw_gateway w |}.

Abbreviation approval := (stateful ApprovalWorld).

Definition in_gateway {A} (m : gateway A) : approval A :=
  fun w => let '(r, g) := m (aw_gateway w) in (r, {| aw_requests := aw_requests w; aw_clients := aw_clients w; aw_gateway := g |}).

(** [INSERT]: a row whose identifier is taken is refused. *)
Definition CreateApprovalRequest (item : ApprovalRequest) : approval ApprovalRequest :=
  fun w =>
    match aw_requests w !! ApprovalRequest_ID item with
    | Some _ => (Err (mk_error ErrOther "duplicate key value violates unique constraint"), w)
    | None => (Ok item, set_requests (<[ApprovalRequest_ID item := stored_request item]> (aw_requests w)) w)
    end.

Definition GetApprovalRequest (requestID : string) : approval ApprovalRequest :=
  fun w => (match aw_requests w !! requestID with Some request => Ok request | None => Err (sentinel ErrNotFound) end, w).

(** [UPDATE ... WHERE id = ? AND status = ?], and the row it leaves. *)
Definition UpdateApprovalRequest (requestID : string) (update : ApprovalRequestUpdate) : approval ApprovalRequest :=
  fun w =>
    let expected := if str_empty (ApprovalRequestUpdate_ExpectedStatus update) then "pending" else ApprovalRequestUpdate_ExpectedStatus update in
    match aw_requests w !! requestID with
    | Some request =>
        if String.eqb (ApprovalRequest_Status request) expected
        then let row := updated_request request update in (Ok row, set_requests (<[requestID := row]> (aw_requests w)) w)
        else (Err (sentinel ErrInvalidArgument), w)
    | None => (Err (sentinel ErrInvalidArgument), w)
    end.

(** An update that decides nothing: no decider and no time of decision. *)
Definition plain_update (expected status summary : string) (relatedIDs : go_map) (output : any) (now : Z) : ApprovalRequestUpdate := {|
  ApprovalRequestUpdate_ExpectedStatus := expected; ApprovalRequestUpdate_Status := status; ApprovalRequestUpdate_Summary := summary;
  ApprovalRequestUpdate_RelatedIDs := relatedIDs; ApprovalRequestUpdate_Output := output; ApprovalRequestUpdate_DecidedBy := "";
  ApprovalRequestUpdate_DecidedByName := ""; ApprovalRequestUpdate_DecidedAt := None; ApprovalRequestUpdate_DecisionComment := "";
  ApprovalRequestUpdate_UpdatedAt := now |}.

(** The order of the listing: newest first. *)
Definition listed_before (a b : ApprovalRequest) : Prop :=
  (ApprovalRequest_CreatedAt b < ApprovalRequest_CreatedAt a)%Z \/
  (ApprovalRequest_CreatedAt b = ApprovalRequest_CreatedAt a /\ String.le (ApprovalRequest_ID a) (ApprovalRequest_ID b)).

#[global] Instance listed_before_dec a b : base.Decision (listed_before a b).
Proof. unfold listed_before. apply _. Defined.

Definition overdue (now : Z) (request : ApprovalRequest) : bool :=
  String.eqb (ApprovalRequest_Status request) "pending" &&
  match ApprovalRequest_ExpiresAt request with Some expiresAt => (expiresAt <=? now)%Z | None => false end.

(** At most 500 pending requests whose time has passed. *)
Definition list_overdue (requests : request_store) (now : Z) : list ApprovalRequest :=
  take 500 (merge_sort listed_before (filter (fun request => overdue now request = true) ((map_to_list requests).*2))).

Definition timed_out : string := "AI Gateway approval request timed out".

Fixpoint expire_each (now : Z) (pending : list ApprovalRequest) (w : ApprovalWorld) : ApprovalWorld :=
  match pending with
  | [] => w
  | item :: pending =>
      expire_each now pending (snd (UpdateApprovalRequest (ApprovalRequest_ID item)
        (plain_update "" "timeout" timed_out (ApprovalRequest_RelatedIDs item) (ApprovalRequest_Output item) now) w))
  end.

Definition ExpirePendingApprovalRequests (now : Z) : approval unit :=
  fun w => (Ok tt, expire_each now (list_overdue (aw_requests w) now) w).

Definition expirePendingApprovalRequests (now : Z) : approval unit := ExpirePendingApprovalRequests now.

Definition expireApprovalRequest (now : Z) (request : ApprovalRequest) : approval unit :=
  if negb (String.eqb (ApprovalRequest_Status request) "pending") then gret tt
  else fun w =>
    match UpdateApprovalRequest (ApprovalRequest_ID request)
        (plain_update "pending" "timeout" timed_out (ApprovalRequest_RelatedIDs request) (ApprovalRequest_Output request) now) w with
    | (Ok _, w) => (Ok tt, w)
    | (Err e, w) => if bool_decide (err_kind e = ErrInvalidArgument) then (Ok tt, w) else (Err e, w)
    end.

(** ** AI clients *)

Definition set_client (status : string) (metadata : go_map) (client : AIClient) : AIClient := {|
  AIClient_ID := AIClient_ID client; AIClient_Name := AIClient_Name client; AIClient_Kind := AIClient_Kind client;
  AIClient_Status := status; AIClient_RedirectURIs := AIClient_RedirectURIs client;
  AIClient_AllowedOrigins := AIClient_AllowedOrigins client; AIClient_Metadata := metadata;
  AIClient_CreatedBy := AIClient_CreatedBy client; AIClient_CreatedAt := AIClient_CreatedAt client;
  AIClient_UpdatedAt := AIClient_UpdatedAt client |}.

Definition GetAIClient (clientID : string) : approval AIClient :=
  fun w => (match aw_clients w !! clientID with Some client => Ok client | None => Err (sentinel ErrNotFound) end, w).

(** [UPDATE ai_clients ... WHERE id = ?]: who created a client, and when, stay. *)
Definition UpdateAIClient (now : Z) (item : AIClient) : approval AIClient :=
  fun w =>
    match aw_clients w !! AIClient_ID item with
    | None => (Err (sentinel ErrNotFound), w)
    | Some row =>
        let row := {|
          AIClient_ID := AIClient_ID row; AIClient_Name := AIClient_Name item; AIClient_Kind := AIClient_Kind item;
          AIClient_Status := AIClient_Status item; AIClient_RedirectURIs := AIClient_RedirectURIs item;
          AIClient_AllowedOrigins := AIClient_AllowedOrigins item; AIClient_Metadata := json_map (AIClient_Metadata item);
          AIClient_CreatedBy := AIClient_CreatedBy row; AIClient_CreatedAt := AIClient_CreatedAt row; AIClient_UpdatedAt := now |} in
        (Ok row, {| aw_requests := aw_requests w; aw_clients := <[AIClient_ID item := row]> (aw_clients w); aw_gateway := aw_gateway w |})
    end.

(** ** Decisions *)

(** What a decision needs besides the gateway: the identities of the actors, and
    the lock of the task that a request belongs to. *)
Record ServiceAccount := {
  ServiceAccount_ID : string; ServiceAccount_Name : string; ServiceAccount_Status : string;
  ServiceAccount_RoleIDs : list string; ServiceAccount_TeamIDs : list string
}.

(** The context of a decision, and the actor that a task binds to it. *)
Record ApprovalContext := { decision_ctx : InvokeContext; decision_actor : option Principal }.

Class ApprovalEnv := {
  CurrentPrincipal : option (string -> result Principal);
  GetServiceAccount : option (string -> result ServiceAccount);
  (** The guard of a task: the context it binds, or why the decision is refused. *)
  enter_task : option (ApprovalContext -> ApprovalRequest -> string -> bool -> result ApprovalContext);
  (** How the guard ends after the decision went through. *)
  leave_task : ApprovalRequest -> string -> result unit
}.

Definition isAIClientRegistrationApprovalRequest (request : ApprovalRequest) : bool :=
  String.eqb (ApprovalRequest_ToolName request) "ai_gateway.ai_client.registration".

Definition transitionApprovalRequest (now : Z) (principal : Principal) (request : ApprovalRequest) (status summary comment : string)
    (relatedIDs : go_map) (output : any) : approval ApprovalRequest :=
  UpdateApprovalRequest (ApprovalRequest_ID request) {|
    ApprovalRequestUpdate_ExpectedStatus := "pending"; ApprovalRequestUpdate_Status := status; ApprovalRequestUpdate_Summary := summary;
    ApprovalRequestUpdate_RelatedIDs := relatedIDs; ApprovalRequestUpdate_Output := output;
    ApprovalRequestUpdate_DecidedBy := Principal_UserID principal; ApprovalRequestUpdate_DecidedByName := Principal_UserName principal;
    ApprovalRequestUpdate_DecidedAt := Some now; ApprovalRequestUpdate_DecisionComment := TrimSpace comment;
    ApprovalRequestUpdate_UpdatedAt := now |}.

Definition finalizeApprovedApprovalRequest `{SensitiveText} (now : Z) (principal : Principal) (request : ApprovalRequest)
    (status summary : string) (relatedIDs : go_map) (output : any) : approval ApprovalRequest :=
  UpdateApprovalRequest (ApprovalRequest_ID request) {|
    ApprovalRequestUpdate_ExpectedStatus := "approved"; ApprovalRequestUpdate_Status := status; ApprovalRequestUpdate_Summary := summary;
    ApprovalRequestUpdate_RelatedIDs := relatedIDs; ApprovalRequestUpdate_Output := sanitizeGatewayValue output;
    ApprovalRequestUpdate_DecidedBy := firstNonEmpty [ApprovalRequest_DecidedBy request; Principal_UserID principal];
    ApprovalRequestUpdate_DecidedByName := firstNonEmpty [ApprovalRequest_DecidedByName request; Principal_UserName principal];
    ApprovalRequestUpdate_DecidedAt := ApprovalRequest_DecidedAt request;
    ApprovalRequestUpdate_DecisionComment := ApprovalRequest_DecisionComment request; ApprovalRequestUpdate_UpdatedAt := now |}.

Definition pending_update (request : ApprovalRequest) (summary : string) (relatedIDs : go_map) (now : Z) : approval ApprovalRequest :=
  UpdateApprovalRequest (ApprovalRequest_ID request)
    (plain_update "pending" "pending" summary relatedIDs (ApprovalRequest_Output request) now).

(** A vote: recorded while the quorum or a later stage is open, else the related
    data with which the request is ready. *)
Definition recordGatewayApprovalVote `{MapRange, NumberText, TimeText} (now : Z) (principal : Principal) (request : ApprovalRequest)
    (input : ApprovalDecisionInput) : approval (ApprovalRequest + go_map) :=
  let '(relatedIDs, routing) :=
    gatewayApprovalRoutingWithVote (ApprovalRequest_RelatedIDs request) principal (ApprovalDecisionInput_Comment input) now in
  let status := gatewayApprovalQuorumStatusFromRouting routing in
  if Quorum_Ready status then
    if gatewayApprovalHasNextStage status then
      let '(relatedIDs, status) := gatewayApprovalAdvanceStage relatedIDs status now in
      let! updated := pending_update request (gatewayApprovalStagePendingSummary status) relatedIDs now in
      gret (inl updated)
    else gret (inr relatedIDs)
  else
    let! updated := pending_update request (gatewayApprovalPendingSummary status) relatedIDs now in
    gret (inl updated).

(** What a decision leaves: the request, and the output of a call carried out. *)
Record ApprovalDecisionResult := { Result_Request : ApprovalRequest; Result_Invocation : option (any * go_map) }.

(** *** Replay of an approved call *)

Definition currentApprovalPrincipal `{ApprovalEnv} (ctx : ApprovalContext) (request : ApprovalRequest) : result Principal :=
  let gone := Err (errorf ErrAccessDenied "approval actor is no longer available") in
  match decision_actor ctx with
  | Some principal =>
      let '(actorType, actorID) := gatewaySubject principal in
      if String.eqb actorType (ApprovalRequest_ActorType request) && String.eqb actorID (ApprovalRequest_ActorID request)
      then Ok principal else Err (sentinel ErrAccessDenied)
  | None =>
      let id := TrimSpace (ApprovalRequest_ActorID request) in
      if str_empty id then gone
      else if String.eqb (ApprovalRequest_ActorType request) "user" then
        match CurrentPrincipal with
        | None => gone
        | Some current => let* principal := current id in if String.eqb (Principal_UserID principal) id then Ok principal else gone
        end
      else if String.eqb (ApprovalRequest_ActorType request) "service_account" then
        match GetServiceAccount with
        | None => gone
        | Some get_account =>
            let id := TrimPrefix id "service_account:" in
            let* account := get_account id in
            if String.eqb (ServiceAccount_ID account) id && String.eqb (ServiceAccount_Status account) "active"
            then Ok {| Principal_UserID := "service_account:" +:+ id; Principal_UserName := ServiceAccount_Name account;
                       Principal_Email := ""; Principal_AvatarURL := ""; Principal_AvatarFit := "";
                       Principal_Roles := ServiceAccount_RoleIDs account; Principal_Teams := ServiceAccount_TeamIDs account;
                       Principal_Projects := []; Principal_Tags := []; Principal_PermissionKeys := []; Principal_AccessTokenID := "" |}
            else gone
        end
      else gone
  end.

Definition validateApprovedCapability `{GatewayEnv} (tool : ToolCapability) (request : ApprovalRequest) : result unit :=
  let version := match get (ApprovalRequest_RelatedIDs request) "capabilityVersion" with AString version => version | _ => "" end in
  if negb (String.eqb version (ToolCapability_Version tool))
  then Err (errorf ErrConflict "approved capability version changed; submit a new approval request")
  else validateCapabilityInput tool (ApprovalRequest_ToolInput request).

(** [json.Unmarshal] into [[]map[string]string]: a null element is a nil map, a
    null value an empty text, and anything else fails. *)
Definition decode_text (value : any) : option string :=
  match value with AString text => Some text | ANil => Some "" | _ => None end.

Definition decode_scope (value : any) : option (option (gmap string string)) :=
  match value with
  | ANil => Some None
  | AMap m =>
      if forallb (fun entry => bool_decide (is_Some (decode_text (snd entry)))) (map_to_list m)
      then Some (Some (omap decode_text m)) else None
  | _ => None
  end.

Definition decode_scopes (value : any) : option (list (option (gmap string string))) :=
  match json_value value with
  | ANil => Some []
  | AList l => mapM decode_scope l
  | _ => None
  end.

(** The sorted texts of two lists of scopes, without repetitions, are the same
    when the lists have the same scopes. *)
Definition same_scopes (approved actual : list (option (gmap string string))) : bool :=
  forallb (fun scope => bool_decide (scope ∈ actual)) approved && forallb (fun scope => bool_decide (scope ∈ approved)) actual.

Definition matchesApprovedCapabilityScopes (ctx : InvokeContext) (toolName : string) (scope : go_map) : bool :=
  let actual := if String.eqb (scope_tool (ctx_scope ctx)) toolName then scope_scopes (ctx_scope ctx) else [] in
  match scope !! "invocationScopes" with
  | None => is_empty actual
  | Some stored =>
      match decode_scopes stored with
      | None => false
      | Some approved => same_scopes approved (Some <$> actual)
      end
  end.

Definition gatewayApprovalReplayInput (request : ApprovalRequest) : go_map :=
  let out := ApprovalRequest_ToolInput request in
  if negb (String.eqb (ApprovalRequest_ToolName request) "delivery.actions.trigger") then out
  else
    let note key value variables := if blank value then variables else <[key := AString value]> variables in
    let variables :=
      note "aiGatewayAIClientId" (ApprovalRequest_AIClientID request)
      (note "aiGatewaySkillId" (ApprovalRequest_SkillID request)
      (note "aiGatewayToolName" (ApprovalRequest_ToolName request)
      (note "aiGatewayPolicyId" (ApprovalRequest_PolicyID request)
      (note "aiGatewayApprovalPolicyRef" (ApprovalRequest_ApprovalPolicyRef request)
      (note "aiGatewayApprovalRequestId" (ApprovalRequest_ID request) (mapValue (get out "variables"))))))) in
    if bool_decide (variables = ∅) then out else <["variables" := AMap variables]> out.

(** The checks of the call against the rules in force now. *)
Definition authorize_replay `{CatalogSource, MapRange, SensitiveText, GatewayEnv, ApprovalEnv} (ctx : ApprovalContext)
    (request : ApprovalRequest) (tool : ToolCapability) : gateway AuthorizedCall :=
  let aiClientID := ApprovalRequest_AIClientID request in
  let skillID := ApprovalRequest_SkillID request in
  let! replayPrincipal := glift (currentApprovalPrincipal ctx request) in
  do! authorize_permission replayPrincipal PermAIGatewayInvoke;
  do! authorizeTool replayPrincipal tool;
  do! glift (validateApprovedCapability tool request);
  let! resolved := glift (resolveCapabilityScopeContext (decision_ctx ctx) replayPrincipal tool (ApprovalRequest_ToolInput request)) in
  if negb (matchesApprovedCapabilityScopes resolved (ToolCapability_Name tool) (ApprovalRequest_ResourceScope request))
  then gfail (errorf ErrConflict "resolved resource scopes changed or were not recorded; submit a new approval request")
  else
    let invocationScope := capabilityGatewayScope tool (ApprovalRequest_ToolInput request) in
    do! authorizeToolGrant resolved replayPrincipal aiClientID tool invocationScope;
    let! outcome := glift (authorizeAccessPolicy resolved replayPrincipal aiClientID skillID tool invocationScope
      (ApprovalRequest_ToolInput request)) in
    let '(decision, policyInput, tool) := outcome in
    if negb (DeepEqual (ApprovalRequest_ToolInput request) policyInput)
    then gfail (errorf ErrAccessDenied "current policy changed approved arguments; submit a new approval request")
    else if contains [gatewayRiskDeny; gatewayRiskDryRunOnly] (Risk_Strategy decision)
    then gfail (errorf ErrAccessDenied "current AI Gateway policy blocks approved request")
    else
      do! glift (authorizeSkillBinding resolved replayPrincipal aiClientID skillID tool);
      gret {| authorized_ctx := resolved; authorized_tool := tool; authorized_input := gatewayApprovalReplayInput request;
              authorized_refs := ApprovalRequest_SecretRefs request; authorized_scope := invocationScope;
              authorized_decision := decision |}.

Definition replay_call `{CatalogSource, MapRange, SensitiveText, GatewayEnv, ApprovalEnv} (ctx : ApprovalContext)
    (request : ApprovalRequest) (tool : ToolCapability) : gateway (any * go_map) :=
  let! call := authorize_replay ctx request tool in
  let! replayPrincipal := glift (currentApprovalPrincipal ctx request) in
  let! answer := invokeGatewayTool replayPrincipal (authorized_tool call) (authorized_input call) (authorized_refs call)
    (ApprovalRequest_ActorSessionID request) in
  let '(output, relatedIDs) := answer in
  let! output := glift (sanitizeToolOutputByAccessPolicy (authorized_ctx call) replayPrincipal (ApprovalRequest_AIClientID request)
    (ApprovalRequest_SkillID request) (authorized_tool call) (authorized_scope call) output) in
  gret (output, <["approvalRequestId" := AString (ApprovalRequest_ID request)]>
    (mergeAnyMaps (ApprovalRequest_RelatedIDs request) relatedIDs)).

(** The request is returned with the error in the source; here it is in the store. *)
Definition failApprovedApprovalRequest `{SensitiveText} (now : Z) (principal : Principal) (request : ApprovalRequest) (cause : error)
    : approval ApprovalDecisionResult :=
  do! finalizeApprovedApprovalRequest now principal request "failed" (err_text cause)
    (<["approvalRequestId" := AString (ApprovalRequest_ID request)]> (ApprovalRequest_RelatedIDs request))
    (AMap {["error" := sanitizeGatewayValue (AString (err_text cause))]});
  gfail cause.

Definition executeApprovedCapability `{CatalogSource, MapRange, SensitiveText, GatewayEnv, ApprovalEnv} (now : Z) (ctx : ApprovalContext)
    (principal : Principal) (approved : ApprovalRequest) : approval ApprovalDecisionResult :=
  match toolByName (ApprovalRequest_ToolName approved) with
  | None =>
      do! finalizeApprovedApprovalRequest now principal approved "failed" "AI Gateway approved tool is no longer available"
        (ApprovalRequest_RelatedIDs approved) (AMap {["error" := AString "unknown tool"]});
      gfail (errorf ErrInvalidArgument ("unknown AI Gateway tool " +:+ ApprovalRequest_ToolName approved))
  | Some tool =>
      fun w =>
        match in_gateway (replay_call ctx approved tool) w with
        | (Err cause, w) => failApprovedApprovalRequest now principal approved cause w
        | (Ok (output, relatedIDs), w) =>
            (let! updated := finalizeApprovedApprovalRequest now principal approved "executed"
               "AI Gateway approval request executed through owning service" relatedIDs output in
             gret {| Result_Request := updated; Result_Invocation := Some (output, relatedIDs) |}) w
        end
  end.

(** *** Registration of AI clients *)

Definition registration_note `{TimeText} (status by_key at_key : string) (now : Z) (principal : Principal) (request : ApprovalRequest)
    : go_map :=
  <["registrationApproval" := AString status]> (<["registrationApprovalRequestId" := AString (ApprovalRequest_ID request)]>
  (<[by_key := AString (Principal_UserID principal)]> {[at_key := AString (format_rfc3339 now)]})).

Definition approveAIClientRegistrationApproval `{SensitiveText, TimeText} (now : Z) (principal : Principal) (request : ApprovalRequest)
    (input : ApprovalDecisionInput) : approval ApprovalDecisionResult :=
  let! client := GetAIClient (ApprovalRequest_AIClientID request) in
  do! UpdateAIClient now (set_client "active" (mergeAnyMaps (AIClient_Metadata client)
    (registration_note "approved" "registrationApprovedBy" "registrationApprovedAt" now principal request)) client);
  let output := AMap (<["aiClientId" := AString (AIClient_ID client)]> {["status" := AString "active"]}) in
  let! approved := transitionApprovalRequest now principal request "approved" "AI client registration approved"
    (ApprovalDecisionInput_Comment input) (ApprovalRequest_RelatedIDs request) output in
  let! updated := finalizeApprovedApprovalRequest now principal approved "executed" "AI client registration activated"
    (ApprovalRequest_RelatedIDs request) output in
  gret {| Result_Request := updated; Result_Invocation := None |}.

Definition rejectOrCancelAIClientRegistrationApproval `{TimeText} (now : Z) (principal : Principal) (request : ApprovalRequest)
    (action : string) (input : ApprovalDecisionInput) : approval ApprovalDecisionResult :=
  let cancel := String.eqb action "cancel" in
  let status := if cancel then "canceled" else "rejected" in
  let summary := if cancel then "AI client registration canceled" else "AI client registration rejected" in
  let clientStatus := if cancel then "disabled" else "rejected" in
  fun w =>
    let w := match GetAIClient (ApprovalRequest_AIClientID request) w with
      | (Ok client, w) =>
          if str_empty (AIClient_ID client) then w
          else snd (UpdateAIClient now (set_client clientStatus (mergeAnyMaps (AIClient_Metadata client)
            (registration_note status "registrationDecidedBy" "registrationDecidedAt" now principal request)) client) w)
      | (Err _, w) => w
      end in
    (let! updated := transitionApprovalRequest now principal request status summary (ApprovalDecisionInput_Comment input)
       (ApprovalRequest_RelatedIDs request) (ApprovalRequest_Output request) in
     gret {| Result_Request := updated; Result_Invocation := None |}) w.

(** *** Approval, rejection and cancellation *)

(** Up to the approval: a request that still waits, or the approved row. *)
Definition begin_approval `{MapRange, NumberText, TimeText} (now : Z) (principal : Principal) (request : ApprovalRequest)
    (input : ApprovalDecisionInput) : approval (ApprovalRequest + ApprovalRequest) :=
  let! voted := recordGatewayApprovalVote now principal request input in
  match voted with
  | inl waiting => gret (inl waiting)
  | inr relatedIDs =>
      let! approved := transitionApprovalRequest now principal request "approved" "AI Gateway approval request approved"
        (ApprovalDecisionInput_Comment input) relatedIDs (ApprovalRequest_Output request) in
      gret (inr approved)
  end.

Section decisions.
Context `{CatalogSource, MapRange, SensitiveText, NumberText, TimeText, GatewayEnv, ApprovalEnv}.

Definition approveApprovalRequest (now : Z) (ctx : ApprovalContext) (principal : Principal) (request : ApprovalRequest)
    (input : ApprovalDecisionInput) : approval ApprovalDecisionResult :=
  if isAIClientRegistrationApprovalRequest request then approveAIClientRegistrationApproval now principal request input
  else
    let! voted := begin_approval now principal request input in
    match voted with
    | inl waiting => gret {| Result_Request := waiting; Result_Invocation := None |}
    | inr approved => executeApprovedCapability now ctx principal approved
    end.

(** A request of a task is decided under the guard of the task. *)
Definition withCapabilityApproval (ctx : ApprovalContext) (request : ApprovalRequest)
    (execute : ApprovalContext -> approval ApprovalDecisionResult) : approval ApprovalDecisionResult :=
  let runID := match get (ApprovalRequest_RelatedIDs request) "capabilityTaskId" with AString runID => runID | _ => "" end in
  if str_empty runID then execute ctx
  else match enter_task with
  | None => gfail (sentinel ErrAccessDenied)
  | Some enter =>
      let cancellation := match get (ApprovalRequest_RelatedIDs request) "capabilityCancellation" with ABool b => b | _ => false end in
      let! ctx := glift (enter ctx request runID cancellation) in
      let! decided := execute ctx in
      do! glift (leave_task request runID);
      gret decided
  end.

Definition rejectApprovalRequest (now : Z) (principal : Principal) (request : ApprovalRequest) (action : string)
    (input : ApprovalDecisionInput) : approval ApprovalDecisionResult :=
  if isAIClientRegistrationApprovalRequest request then rejectOrCancelAIClientRegistrationApproval now principal request action input
  else
    let cancel := String.eqb action "cancel" in
    let! updated := transitionApprovalRequest now principal request (if cancel then "canceled" else "rejected")
      (if cancel then "AI Gateway approval request canceled" else "AI Gateway approval request rejected")
      (ApprovalDecisionInput_Comment input) (ApprovalRequest_RelatedIDs request) (ApprovalRequest_Output request) in
    gret {| Result_Request := updated; Result_Invocation := None |}.

Definition decide_request (now : Z) (ctx : ApprovalContext) (principal : Principal) (request : ApprovalRequest) (action : string)
    (input : ApprovalDecisionInput) : approval ApprovalDecisionResult :=
  if String.eqb action "approve" then withCapabilityApproval ctx request (fun ctx => approveApprovalRequest now ctx principal request input)
  else if String.eqb action "reject" || String.eqb action "cancel" then rejectApprovalRequest now principal request action input
  else gfail (errorf ErrInvalidArgument "unsupported approval action").

(** One clock reading serves the whole call. A [panic] for an empty action has no result. *)
Definition resolveApprovalRequest (now : Z) (ctx : ApprovalContext) (principal : Principal) (requestID action : string)
    (input : ApprovalDecisionInput) : option (approval ApprovalDecisionResult) :=
  key ← ManagedActionPermission PermAIGatewayApprovalsManage action;
  Some (
    do! in_gateway (authorize_permission principal key);
    do! expirePendingApprovalRequests now;
    let requestID := TrimSpace requestID in
    if str_empty requestID then gfail (errorf ErrInvalidArgument "approval request id is required")
    else
      let! request := GetApprovalRequest requestID in
      if negb (String.eqb (ApprovalRequest_Status request) "pending")
      then gfail (errorf ErrInvalidArgument "approval request is not pending")
      else if match ApprovalRequest_ExpiresAt request with Some expiresAt => (expiresAt <=? now)%Z | None => false end
      then do! expireApprovalRequest now request; gfail (errorf ErrInvalidArgument "approval request has timed out")
      else match authorizeGatewayApprovalDecision principal request action now with
      | Some e => gfail e
      | None => decide_request now ctx principal request action input
      end).

Definition ApproveApprovalRequest (now : Z) (ctx : ApprovalContext) (principal : Principal) (requestID : string)
    (input : ApprovalDecisionInput) := resolveApprovalRequest now ctx principal requestID "approve" input.
Definition RejectApprovalRequest (now : Z) (ctx : ApprovalContext) (principal : Principal) (requestID : string)
    (input : ApprovalDecisionInput) := resolveApprovalRequest now ctx principal requestID "reject" input.
Definition CancelApprovalRequest (now : Z) (ctx : ApprovalContext) (principal : Principal) (requestID : string)
    (input : ApprovalDecisionInput) := resolveApprovalRequest now ctx principal requestID "cancel" input.
End decisions.

(** ** Specification: the life of a request *)

(** How the status of a request may change. *)
Inductive lifecycle : string -> string -> Prop :=
| vote_open : lifecycle "pending" "pending"
| approve_open : lifecycle "pending" "approved"
| reject_open : lifecycle "pending" "rejected"
| cancel_open : lifecycle "pending" "canceled"
| expire_open : lifecycle "pending" "timeout"
| execute_approved : lifecycle "approved" "executed"
| fail_approved : lifecycle "approved" "failed".

Definition final_statuses : list string := ["rejected"; "canceled"; "timeout"; "executed"; "failed"].

(** What a request is about, which no decision changes. *)
Definition identity_of (r : ApprovalRequest) :=
  (ApprovalRequest_ID r, ApprovalRequest_Strategy r, ApprovalRequest_PolicyID r, ApprovalRequest_ActorType r, ApprovalRequest_ActorID r,
   ApprovalRequest_ActorRoles r, ApprovalRequest_ActorTeams r, ApprovalRequest_AIClientID r, ApprovalRequest_SkillID r,
   ApprovalRequest_ToolName r, ApprovalRequest_ResourceScope r, ApprovalRequest_ToolInput r, ApprovalRequest_SecretRefs r,
   ApprovalRequest_ExpiresAt r, ApprovalRequest_CreatedAt r).

Definition moves (row row' : ApprovalRequest) : Prop :=
  exists update, row' = updated_request row update /\
    lifecycle (ApprovalRequest_Status row) (ApprovalRequestUpdate_Status update).

(** *** The phases of carrying out an approval

    [executeApprovedCapability] calls the provider and then records the outcome
    in the store; other decisions, and a crash, may come in between. *)
Inductive CarryOutcome := NoTool | Refused (cause : error) | Answered (output : any) (relatedIDs : go_map).

Section phases.
Context `{CatalogSource, MapRange, SensitiveText, NumberText, TimeText, GatewayEnv, ApprovalEnv}.

Definition carry_call (ctx : ApprovalContext) (approved : ApprovalRequest) (w : ApprovalWorld) : CarryOutcome * ApprovalWorld :=
  match toolByName (ApprovalRequest_ToolName approved) with
  | None => (NoTool, w)
  | Some tool =>
      match in_gateway (replay_call ctx approved tool) w with
      | (Err cause, w) => (Refused cause, w)
      | (Ok (output, relatedIDs), w) => (Answered output relatedIDs, w)
      end
  end.

Definition carry_record (now : Z) (principal : Principal) (approved : ApprovalRequest) (outcome : CarryOutcome)
    : approval ApprovalDecisionResult :=
  match outcome with
  | NoTool =>
      do! finalizeApprovedApprovalRequest now principal approved "failed" "AI Gateway approved tool is no longer available"
        (ApprovalRequest_RelatedIDs approved) (AMap {["error" := AString "unknown tool"]});
      gfail (errorf ErrInvalidArgument ("unknown AI Gateway tool " +:+ ApprovalRequest_ToolName approved))
  | Refused cause => failApprovedApprovalRequest now principal approved cause
  | Answered output relatedIDs =>
      let! updated := finalizeApprovedApprovalRequest now principal approved "executed"
        "AI Gateway approval request executed through owning service" relatedIDs output in
      gret {| Result_Request := updated; Result_Invocation := Some (output, relatedIDs) |}
  end.

Lemma execute_phases now ctx principal approved w :
  executeApprovedCapability now ctx principal approved w =
  let '(outcome, w1) := carry_call ctx approved w in carry_record now principal approved outcome w1.
Proof.
  unfold executeApprovedCapability, carry_call. destruct (toolByName _) as [tool|]; [|done].
  by destruct (in_gateway _ w) as [[[output relatedIDs]|cause] w1].
Qed.
End phases.

(** Decisions in flight: the store, the copies of approved requests that are
    about to be carried out, those whose call has been answered and is not yet
    recorded, the requests whose outcome was recorded, and the calls made so
    far with the copy they were made for. *)
Record Machine := {
  m_world : ApprovalWorld;
  m_running : list ApprovalRequest;
  m_called : list (ApprovalRequest * CarryOutcome);
  m_recorded : list string;
  m_log : list (ApprovalRequest * ProviderCall)
}.

Definition at_rest (w : ApprovalWorld) : Machine := {| m_world := w; m_running := []; m_called := []; m_recorded := []; m_log := [] |}.

(** A step that changes the store alone. *)
Definition with_world (w : ApprovalWorld) (m : Machine) : Machine :=
  {| m_world := w; m_running := m_running m; m_called := m_called m; m_recorded := m_recorded m; m_log := m_log m |}.
Definition with_running (running : list ApprovalRequest) (m : Machine) : Machine :=
  {| m_world := m_world m; m_running := running; m_called := m_called m; m_recorded := m_recorded m; m_log := m_log m |}.
Definition with_called (called : list (ApprovalRequest * CarryOutcome)) (m : Machine) : Machine :=
  {| m_world := m_world m; m_running := m_running m; m_called := called; m_recorded := m_recorded m; m_log := m_log m |}.

(** Whether the outcome of a request can be recorded. *)
Definition row_approved (id : string) (w : ApprovalWorld) : bool :=
  match aw_requests w !! id with Some row => String.eqb (ApprovalRequest_Status row) "approved" | None => false end.

Section steps.
Context `{CatalogSource, MapRange, SensitiveText, NumberText, TimeText, GatewayEnv, ApprovalEnv}.

(** One phase of one decision. The request that a decision starts from is any
    copy, however old: only the store is shared. A decision that grants an
    approval goes on to carry it out; a task may at any time do the same for a
    row it reads as approved ([observeCapabilityApproval] and
    [cancelCapabilityDomainTask], capability_runtime.go). The call of a provider
    and the record of its outcome are two steps, and whoever carries out an
    approval may be lost before either. *)
Inductive approval_step : Machine -> Machine -> Prop :=
| step_create item m r w' :
    ApprovalRequest_Status item = "pending" -> CreateApprovalRequest item (m_world m) = (r, w') -> approval_step m (with_world w' m)
| step_vote now principal copy input m r w' :
    begin_approval now principal copy input (m_world m) = (r, w') -> (forall approved, r <> Ok (inr approved)) ->
    approval_step m (with_world w' m)
| step_grant now principal copy input m approved w' :
    begin_approval now principal copy input (m_world m) = (Ok (inr approved), w') ->
    approval_step m (with_running (approved :: m_running m) (with_world w' m))
| step_replay id row m :
    aw_requests (m_world m) !! id = Some row -> ApprovalRequest_Status row = "approved" ->
    approval_step m (with_running (row :: m_running m) m)
| step_call ctx approved before after m outcome w' made :
    m_running m = before ++ approved :: after -> carry_call ctx approved (m_world m) = (outcome, w') ->
    world_calls (aw_gateway w') = made ++ world_calls (aw_gateway (m_world m)) ->
    approval_step m {| m_world := w'; m_running := before ++ after; m_called := (approved, outcome) :: m_called m;
      m_recorded := m_recorded m; m_log := ((fun call => (approved, call)) <$> made) ++ m_log m |}
| step_record now principal approved outcome before after m r w' :
    m_called m = before ++ (approved, outcome) :: after -> carry_record now principal approved outcome (m_world m) = (r, w') ->
    approval_step m {| m_world := w'; m_running := m_running m; m_called := before ++ after;
      m_recorded := if row_approved (ApprovalRequest_ID approved) (m_world m) then ApprovalRequest_ID approved :: m_recorded m else m_recorded m;
      m_log := m_log m |}
| step_lost_running approved before after m :
    m_running m = before ++ approved :: after -> approval_step m (with_running (before ++ after) m)
| step_lost_called answered before after m :
    m_called m = before ++ answered :: after -> approval_step m (with_called (before ++ after) m)
| step_register now principal copy input m r w' :
    approveAIClientRegistrationApproval now principal copy input (m_world m) = (r, w') -> approval_step m (with_world w' m)
| step_reject now principal copy action input m r w' :
    rejectApprovalRequest now principal copy action input (m_world m) = (r, w') -> approval_step m (with_world w' m)
| step_expire_all now m r w' :
    expirePendingApprovalRequests now (m_world m) = (r, w') -> approval_step m (with_world w' m)
| step_expire now copy m r w' :
    expireApprovalRequest now copy (m_world m) = (r, w') -> approval_step m (with_world w' m).
End steps.

(** Every row is stored under its own identifier. *)
Definition keyed (requests : request_store) : Prop := forall id row, requests !! id = Some row -> ApprovalRequest_ID row = id.

(** ** Lemmas: conditional updates *)

Definition expected_status (update : ApprovalRequestUpdate) : string :=
  if str_empty (ApprovalRequestUpdate_ExpectedStatus update) then "pending" else ApprovalRequestUpdate_ExpectedStatus update.

Lemma update_cases id update w r w' : UpdateApprovalRequest id update w = (r, w') ->
  (w' = w /\ exists e, r = Err e) \/
  exists row, aw_requests w !! id = Some row /\ ApprovalRequest_Status row = expected_status update /\
    r = Ok (updated_request row update) /\ w' = set_requests (<[id := updated_request row update]> (aw_requests w)) w.
Proof.
  unfold UpdateApprovalRequest. fold (expected_status update). destruct (aw_requests w !! id) as [row|]; [|intros [= <- <-]; eauto].
  destruct (String.eqb _ _) eqn:Hs; intros [= <- <-]; [|eauto]. apply String.eqb_eq in Hs. right. by exists row.
Qed.

(** What a step may do that neither grants nor carries out an approval: rows
    that wait move on, the others stay, and no provider is called. *)
Record calm (w w' : ApprovalWorld) : Prop := {
  calm_calls : world_calls (aw_gateway w') = world_calls (aw_gateway w);
  calm_fresh id : aw_requests w !! id = None -> aw_requests w' !! id = None;
  calm_rows id row : aw_requests w !! id = Some row -> exists row', aw_requests w' !! id = Some row' /\ rtc moves row row' /\
    (ApprovalRequest_Status row <> "pending" -> row' = row)
}.

#[export] Instance calm_preorder : PreOrder calm.
Proof.
  split.
  - intros w. split; [done|done|]. intros id row Hrow. exists row. split_and!; [done|done|done].
  - intros w1 w2 w3 [Hc1 Hf1 Hr1] [Hc2 Hf2 Hr2]. split; [congruence|auto|]. intros id row Hrow.
    destruct (Hr1 id row Hrow) as (row2 & H2 & Hm2 & Hk2). destruct (Hr2 id row2 H2) as (row3 & H3 & Hm3 & Hk3). exists row3.
    split_and!; [done|by etrans|]. intros Hs. rewrite (Hk2 Hs) in *. auto.
Qed.

Definition calm_call {A} (m : approval A) : Prop := forall w, calm w (snd (m w)).

Lemma calm_gbind {A B} (m : approval A) (f : A -> approval B) : calm_call m -> (forall a, calm_call (f a)) -> calm_call (gbind m f).
Proof. intros Hm Hf w. unfold gbind. specialize (Hm w). destruct (m w) as [[a|e] w1]; [|done]. simpl in *. etrans; [done|apply Hf]. Qed.
Lemma calm_gret {A} (a : A) : calm_call (gret a).
Proof. intros w. reflexivity. Qed.
Lemma calm_gfail {A} e : calm_call (@gfail _ A e).
Proof. intros w. reflexivity. Qed.

Lemma calm_row w id row row' : aw_requests w !! id = Some row -> ApprovalRequest_Status row = "pending" -> rtc moves row row' ->
  calm w (set_requests (<[id := row']> (aw_requests w)) w).
Proof.
  intros Hrow Hs Hm. unfold set_requests. split; cbn [aw_requests aw_gateway]; [done| |].
  - intros k Hk. rewrite lookup_insert_ne by congruence. done.
  - intros k old Hk. destruct (decide (k = id)) as [->|Hne].
    + rewrite lookup_insert. rewrite Hrow in Hk. injection Hk as <-. rewrite decide_True by done. by exists row'.
    + rewrite lookup_insert_ne by done. exists old. by split_and!.
Qed.

Lemma calm_update id update : expected_status update = "pending" -> lifecycle "pending" (ApprovalRequestUpdate_Status update) ->
  calm_call (UpdateApprovalRequest id update).
Proof.
  intros He Hl w. destruct (UpdateApprovalRequest id update w) as [r w'] eqn:Hu.
  apply update_cases in Hu as [[-> _]|(row & Hrow & Hs & _ & ->)]; [reflexivity|]. rewrite He in Hs.
  apply (calm_row w id row); [done|done|]. apply rtc_once. eexists. split; [done|]. by rewrite Hs.
Qed.

Create HintDb approvals.
#[export] Hint Resolve calm_gret calm_gfail calm_update : approvals.
#[export] Hint Constructors lifecycle : approvals.
#[export] Hint Extern 1 (expected_status _ = _) => reflexivity : approvals.

Lemma calm_pending_update request summary relatedIDs now : calm_call (pending_update request summary relatedIDs now).
Proof. apply calm_update; [done|constructor]. Qed.

Lemma calm_transition now principal request status summary comment relatedIDs output :
  lifecycle "pending" status -> calm_call (transitionApprovalRequest now principal request status summary comment relatedIDs output).
Proof. intros Hs. by apply calm_update. Qed.
#[export] Hint Resolve calm_pending_update calm_transition : approvals.

Lemma calm_expire_each now pending : forall w, calm w (expire_each now pending w).
Proof.
  induction pending as [|item pending IH]; intros w; simpl; [reflexivity|]. etrans; [|apply IH]. apply calm_update; [done|constructor].
Qed.

Lemma calm_expireApprovalRequest now request : calm_call (expireApprovalRequest now request).
Proof.
  unfold expireApprovalRequest. destruct (negb _); [apply calm_gret|]. intros w.
  pose proof (calm_update (ApprovalRequest_ID request) (plain_update "pending" "timeout" timed_out (ApprovalRequest_RelatedIDs request)
    (ApprovalRequest_Output request) now) eq_refl expire_open w) as Hc.
  destruct (UpdateApprovalRequest _ _ _) as [[row|e] w']; [done|]. by destruct (bool_decide _).
Qed.

(** ** Lemmas: decisions *)

Section decision_lemmas.
Context `{CatalogSource, MapRange, SensitiveText, NumberText, TimeText, GatewayEnv, ApprovalEnv}.

Lemma calm_record_vote now principal request input : calm_call (recordGatewayApprovalVote now principal request input).
Proof.
  unfold recordGatewayApprovalVote. destruct (gatewayApprovalRoutingWithVote _ _ _ _) as [relatedIDs routing].
  destruct (Quorum_Ready _); [|apply calm_gbind; auto with approvals]. destruct (gatewayApprovalHasNextStage _); [|auto with approvals].
  destruct (gatewayApprovalAdvanceStage _ _ _). apply calm_gbind; auto with approvals.
Qed.

Lemma calm_begin_approval now principal request input : calm_call (begin_approval now principal request input).
Proof.
  apply calm_gbind; [apply calm_record_vote|]. intros [waiting|relatedIDs]; [auto with approvals|]. apply calm_gbind; auto with approvals.
Qed.

Lemma calm_update_client now item : calm_call (UpdateAIClient now item).
Proof. intros w. unfold UpdateAIClient. destruct (aw_clients w !! _) as [row|]; [|reflexivity]. split; simpl; [done|done|]. eauto using rtc_refl. Qed.

Lemma calm_reject now principal request action input : calm_call (rejectApprovalRequest now principal request action input).
Proof.
  unfold rejectApprovalRequest. destruct (isAIClientRegistrationApprovalRequest request).
  - intros w. unfold rejectOrCancelAIClientRegistrationApproval, GetAIClient.
    assert (forall w status summary, lifecycle "pending" status -> calm w (snd ((let! updated := transitionApprovalRequest now principal request status summary
      (ApprovalDecisionInput_Comment input) (ApprovalRequest_RelatedIDs request) (ApprovalRequest_Output request) in
      gret {| Result_Request := updated; Result_Invocation := None |}) w))) as Ht by (intros; apply calm_gbind; auto with approvals).
    assert (lifecycle "pending" (if String.eqb action "cancel" then "canceled" else "rejected")) as Hl
      by (destruct (String.eqb action "cancel"); constructor).
    destruct (aw_clients w !! _) as [client|]; [destruct (str_empty _)|]; [by apply Ht| |by apply Ht].
    etrans; [apply calm_update_client|by apply Ht].
  - apply calm_gbind; [|auto with approvals]. apply calm_transition. destruct (String.eqb action "cancel"); constructor.
Qed.

(** A vote makes a request ready without writing to the store. *)
Lemma ready_vote now principal request input w relatedIDs w' :
  recordGatewayApprovalVote now principal request input w = (Ok (inr relatedIDs), w') -> w' = w /\
  let '(voted, routing) := gatewayApprovalRoutingWithVote (ApprovalRequest_RelatedIDs request) principal
      (ApprovalDecisionInput_Comment input) now in
  let status := gatewayApprovalQuorumStatusFromRouting routing in
  Quorum_Ready status = true /\ gatewayApprovalHasNextStage status = false /\ relatedIDs = voted.
Proof.
  unfold recordGatewayApprovalVote. generalize (gatewayApprovalRoutingWithVote (ApprovalRequest_RelatedIDs request) principal
      (ApprovalDecisionInput_Comment input) now). intros [voted routing]. cbv zeta.
  generalize (gatewayApprovalQuorumStatusFromRouting routing). intros status.
  assert (forall (m : approval ApprovalRequest) w, gbind m (fun updated => gret (inl updated)) w <> (Ok (inr relatedIDs), w')) as Hno
    by (intros m v; unfold gbind; by destruct (m v) as [[] ?]).
  destruct (Quorum_Ready status) eqn:Hr; [|by intros Hv; apply Hno in Hv]. destruct (gatewayApprovalHasNextStage status) eqn:Hn.
  - destruct (gatewayApprovalAdvanceStage _ _ _). by intros Hv; apply Hno in Hv.
  - intros [= -> ->]. by split_and!.
Qed.

(** An approval is granted by the update that finds the request waiting. *)
Lemma granted_row now principal request input w approved w' : begin_approval now principal request input w = (Ok (inr approved), w') ->
  exists row relatedIDs, aw_requests w !! ApprovalRequest_ID request = Some row /\ ApprovalRequest_Status row = "pending" /\
    recordGatewayApprovalVote now principal request input w = (Ok (inr relatedIDs), w) /\
    transitionApprovalRequest now principal request "approved" "AI Gateway approval request approved"
      (ApprovalDecisionInput_Comment input) relatedIDs (ApprovalRequest_Output request) w = (Ok approved, w') /\
    aw_requests w' !! ApprovalRequest_ID request = Some approved /\ ApprovalRequest_Status approved = "approved" /\
    identity_of approved = identity_of row /\ ApprovalRequest_RelatedIDs approved = json_map relatedIDs.
Proof.
  intros ([waiting|relatedIDs] & w1 & Hvote & Hrest)%gbind_Ok; [done|]. apply gbind_Ok in Hrest as (row' & w2 & Ht & [= <- <-]).
  destruct (ready_vote _ _ _ _ _ _ _ Hvote) as [-> _].
  pose proof Ht as Hu. apply update_cases in Hu as [[_ [? ?]]|(row & Hrow & Hs & [= ->] & ->)]; [done|]. exists row, relatedIDs.
  split_and!; [done|done|done|done| |done|done|done]. unfold set_requests. cbn [aw_requests]. rewrite lookup_insert. by rewrite decide_True.
Qed.

Lemma quiet_authorize_replay ctx request tool : quiet (authorize_replay ctx request tool).
Proof.
  unfold authorize_replay, authorizeTool. apply quiet_gbind; [eauto with gateway|]. intros replay.
  apply quiet_gbind; [apply quiet_authorize_permission|]. intros _. apply quiet_gbind; [apply quiet_authorize_all|]. intros _.
  do 2 (apply quiet_gbind; [eauto with gateway|]; intros ?). destruct (negb _); [eauto with gateway|].
  apply quiet_gbind; [apply quiet_authorizeToolGrant|]. intros _. apply quiet_gbind; [eauto with gateway|]. intros [[decision out] tool'].
  destruct (negb _); [eauto with gateway|]. destruct (contains _ _); eauto with gateway.
Qed.

(** A provider called by a replay, if one is. *)
Lemma replay_calls ctx request tool w r w' : replay_call ctx request tool w = (r, w') ->
  world_calls w' = world_calls w \/ exists call principal w1,
    authorize_replay ctx request tool w = (Ok call, w1) /\ currentApprovalPrincipal ctx request = Ok principal /\
    world_calls w' = {| call_principal := principal; call_tool := authorized_tool call; call_input := authorized_input call;
      call_refs := authorized_refs call |} :: world_calls w.
Proof.
  unfold replay_call, gbind at 1. pose proof (quiet_authorize_replay ctx request tool w) as Hq.
  destruct (authorize_replay ctx request tool w) as [[call|e] w1] eqn:Ha; [|intros [= <- <-]; by left]. simpl in Hq. rewrite <- Hq.
  unfold gbind at 1, glift at 1. destruct (currentApprovalPrincipal ctx request) as [principal|]; [|intros [= <- <-]; by left].
  unfold invokeGatewayTool, gbind, glift.
  destruct (resolve_secrets _ _ _); [|intros [= <- <-]; by left]. destruct reserveNativeCapabilityToolCall; [|intros [= <- <-]; by left].
  set (made := {| call_principal := principal; call_tool := authorized_tool call; call_input := authorized_input call;
    call_refs := authorized_refs call |}).
  intros Hr. destruct (registry_InvokeTool _ _ _) as [answer|]; [|destruct (tool_domain _); [|injection Hr as _ <-; by left]];
    right; exists call, principal, w1; (split_and!; [done|done|]); revert Hr; unfold on_record;
    [destruct answer as [[output related]|]|destruct (domain_invoke _ _ _ _ _) as [[output related]|]];
    try (intros [= _ <-]; done); by destruct (sanitizeToolOutputByAccessPolicy _ _ _ _ _ _ _); intros [= _ <-].
Qed.

(** Carrying out a granted approval decides it, whatever happens. *)
Lemma carried_row now ctx principal approved row w r w' :
  executeApprovedCapability now ctx principal approved w = (r, w') ->
  aw_requests w !! ApprovalRequest_ID approved = Some row -> ApprovalRequest_Status row = "approved" ->
  exists update, lifecycle "approved" (ApprovalRequestUpdate_Status update) /\
    aw_requests w' = <[ApprovalRequest_ID approved := updated_request row update]> (aw_requests w) /\
    (world_calls (aw_gateway w') = world_calls (aw_gateway w) \/ exists tool, toolByName (ApprovalRequest_ToolName approved) = Some tool /\
       snd (replay_call ctx approved tool (aw_gateway w)) = aw_gateway w').
Proof.
  intros He Hrow Hs. assert (forall status summary relatedIDs output w1, aw_requests w1 = aw_requests w -> lifecycle "approved" status ->
    exists update, ApprovalRequestUpdate_Status update = status /\
      finalizeApprovedApprovalRequest now principal approved status summary relatedIDs output w1 =
      (Ok (updated_request row update), set_requests (<[ApprovalRequest_ID approved := updated_request row update]> (aw_requests w)) w1)) as Hfin.
  { intros status summary relatedIDs output w1 Hw Hl. eexists. unfold finalizeApprovedApprovalRequest, UpdateApprovalRequest. rewrite Hw, Hrow.
    cbn [ApprovalRequestUpdate_ExpectedStatus str_empty]. rewrite Hs. split; [|reflexivity]. done. }
  unfold executeApprovedCapability, failApprovedApprovalRequest in He. destruct (toolByName _) as [tool|] eqn:Htool.
  - unfold in_gateway in He. destruct (replay_call ctx approved tool (aw_gateway w)) as [[[output relatedIDs]|cause] g] eqn:Hg; unfold gbind in He;
      (edestruct Hfin as (update & Hst & Hfin'); [..|rewrite Hfin' in He]; [done|constructor|]); injection He as _ <-; exists update;
      (split_and!; [rewrite Hst; constructor|done|right; by exists tool; rewrite Hg]).
  - unfold gbind in He. edestruct Hfin as (update & Hst & Hfin'); [done|apply fail_approved|rewrite Hfin' in He]. injection He as _ <-.
    exists update. split_and!; [rewrite Hst; constructor|done|by left].
Qed.
End decision_lemmas.

(** ** How the rows change *)

Lemma moves_identity row row' : rtc moves row row' -> identity_of row' = identity_of row.
Proof. induction 1 as [|row row1 row' (update & -> & _) _ IH]; [done|]. by rewrite IH. Qed.

Lemma moves_status row row' : rtc moves row row' -> rtc lifecycle (ApprovalRequest_Status row) (ApprovalRequest_Status row').
Proof. induction 1 as [|row row1 row' (update & -> & Hl) _ IH]; [done|]. eapply rtc_l; [exact Hl|exact IH]. Qed.

Lemma moves_final row row' : rtc moves row row' -> ApprovalRequest_Status row ∈ final_statuses -> row' = row.
Proof.
  intros Hm Hs. destruct Hm as [|row row1 row' (update & _ & Hl)]; [done|]. exfalso.
  destruct Hl; apply contains_true in Hs; vm_compute in Hs; discriminate.
Qed.

Lemma identity_id row row' : identity_of row' = identity_of row -> ApprovalRequest_ID row' = ApprovalRequest_ID row.
Proof. by intros [= ?]. Qed.

Lemma calm_keyed w w' : calm w w' -> keyed (aw_requests w) -> keyed (aw_requests w').
Proof.
  intros Hc Hk id row' Hrow'. destruct (aw_requests w !! id) as [row|] eqn:Hrow; [|by rewrite (calm_fresh _ _ Hc) in Hrow'].
  destruct (calm_rows _ _ Hc _ _ Hrow) as (row1 & H1 & Hm & _). rewrite Hrow' in H1. injection H1 as <-.
  rewrite (identity_id _ _ (moves_identity _ _ Hm)). by apply Hk.
Qed.

(** Every step keeps the rows there are, and moves them only forward. *)
Definition evolves (requests requests' : request_store) : Prop :=
  forall id row, requests !! id = Some row -> exists row', requests' !! id = Some row' /\ rtc moves row row'.

#[export] Instance evolves_preorder : PreOrder evolves.
Proof.
  split; [intros R id row Hrow; by exists row|]. intros R1 R2 R3 H12 H23 id row Hrow.
  destruct (H12 _ _ Hrow) as (row2 & H2 & Hm2). destruct (H23 _ _ H2) as (row3 & H3 & Hm3). exists row3. split; [done|by etrans].
Qed.

Lemma calm_evolves w w' : calm w w' -> evolves (aw_requests w) (aw_requests w').
Proof. intros Hc id row Hrow. destruct (calm_rows _ _ Hc _ _ Hrow) as (row' & ? & ? & _). eauto. Qed.

Section rows.
Context `{CatalogSource, MapRange, SensitiveText, NumberText, TimeText, GatewayEnv, ApprovalEnv}.

Lemma calm_register now principal request input w : keyed (aw_requests w) ->
  calm w (snd (approveAIClientRegistrationApproval now principal request input w)).
Proof.
  intros Hk. unfold approveAIClientRegistrationApproval. unfold gbind at 1, GetAIClient.
  destruct (aw_clients w !! _) as [client|]; [|reflexivity]. unfold gbind at 1.
  match goal with |- context [UpdateAIClient now ?item w] => pose proof (calm_update_client now item w) as Hc; destruct (UpdateAIClient now item w) as [[row|] w1] end;
    [|done]. simpl in Hc. pose proof (calm_keyed _ _ Hc Hk) as Hk1. etrans; [exact Hc|]. clear dependent w. unfold gbind at 1.
  destruct (transitionApprovalRequest _ _ _ _ _ _ _ _ w1) as [r w2] eqn:Ht. apply update_cases in Ht as [[-> [e ->]]|(old & Hold & Hs & -> & ->)]; [reflexivity|].
  change (ApprovalRequest_Status old = "pending") in Hs. set (grant := {| ApprovalRequestUpdate_ExpectedStatus := "pending" |}) in *.
  assert (moves old (updated_request old grant)) as Hm1 by (exists grant; split; [done|]; rewrite Hs; constructor).
  unfold gbind. destruct (finalizeApprovedApprovalRequest _ _ _ _ _ _ _ _) as [r w3] eqn:Hf. unfold finalizeApprovedApprovalRequest in Hf.
  change (ApprovalRequest_ID (updated_request old grant)) with (ApprovalRequest_ID old) in Hf. rewrite (Hk1 _ _ Hold) in Hf.
  apply update_cases in Hf as [[-> [e ->]]|(mid & Hmid & _ & -> & ->)]; cbn [snd gret]; [by apply (calm_row _ _ old); [..|apply rtc_once]|].
  unfold set_requests in *. cbn [aw_requests aw_clients aw_gateway] in *. rewrite lookup_insert, decide_True in Hmid by done. injection Hmid as <-.
  rewrite insert_insert, decide_True by done. apply (calm_row w1 _ old); [done|done|]. eapply rtc_l; [exact Hm1|]. apply rtc_once.
  eexists. split; [done|]. constructor.
Qed.

Lemma create_keeps item w r w' : CreateApprovalRequest item w = (r, w') ->
  world_calls (aw_gateway w') = world_calls (aw_gateway w) /\ (keyed (aw_requests w) -> keyed (aw_requests w')) /\
  forall id row, aw_requests w !! id = Some row -> aw_requests w' !! id = Some row.
Proof.
  unfold CreateApprovalRequest. destruct (aw_requests w !! ApprovalRequest_ID item) eqn:Hitem; intros [= <- <-]; [done|].
  unfold set_requests. cbn [aw_requests aw_gateway]. split_and!; [done| |].
  - intros Hk id row. destruct (decide (ApprovalRequest_ID item = id)) as [<-|Hne].
    + rewrite lookup_insert, decide_True by done. by intros [= <-].
    + rewrite lookup_insert_ne by done. apply Hk.
  - intros id row Hrow. rewrite lookup_insert_ne by congruence. done.
Qed.

End rows.

(** ** What an approved call has passed *)

Section replay.
Context `{CatalogSource, MapRange, SensitiveText, NumberText, TimeText, GatewayEnv, ApprovalEnv}.

(** The rules in force when an approval is carried out allow the call. *)
Record replay_allowed (ctx : ApprovalContext) (approved : ApprovalRequest) (tool : ToolCapability) (resolved : InvokeContext)
    (call : ProviderCall) : Prop := {
  (** The actor as it is now, with the permissions of the tool. *)
  replay_actor : currentApprovalPrincipal ctx approved = Ok (call_principal call) /\ holds (call_principal call) PermAIGatewayInvoke /\
    forall key, key ∈ ToolCapability_PermissionKeys tool -> holds (call_principal call) key;
  (** The tool at the approved version, and the approved arguments. *)
  replay_tool : toolByName (ApprovalRequest_ToolName approved) = Some tool /\
    (call_tool call = tool \/ call_tool call = set_tool_approval true tool) /\ validateApprovedCapability tool approved = Ok tt /\
    call_input call = gatewayApprovalReplayInput approved /\ call_refs call = ApprovalRequest_SecretRefs approved;
  (** The scopes the call has now are those that were approved. *)
  replay_scopes :
    resolveCapabilityScopeContext (decision_ctx ctx) (call_principal call) tool (ApprovalRequest_ToolInput approved) = Ok resolved /\
    matchesApprovedCapabilityScopes resolved (ToolCapability_Name tool) (ApprovalRequest_ResourceScope approved) = true;
  (** Grants and policies, if there are any, allow each scope. *)
  replay_grants : exists grants, activeToolGrants resolved (call_principal call) (ApprovalRequest_AIClientID approved) = Ok grants /\
    (grants = [] \/ exists keys, resolved_keys (call_principal call) keys /\ forall scope,
       scope ∈ capabilityInvocationScopes resolved (ToolCapability_Name tool) (capabilityGatewayScope tool (ApprovalRequest_ToolInput approved)) ->
       exists asks reason, toolAllowedByGrantsForInvocation tool grants keys scope = (true, asks, reason));
  replay_policies : exists policies, activeAccessPolicies resolved (call_principal call) (ApprovalRequest_AIClientID approved) = Ok policies /\
    (policies = [] \/ forall scope,
       scope ∈ capabilityInvocationScopes resolved (ToolCapability_Name tool) (capabilityGatewayScope tool (ApprovalRequest_ToolInput approved)) ->
       exists decision reason, toolAllowedByAccessPoliciesForInvocationWithSkills tool policies (ApprovalRequest_SkillID approved) scope
         gatewaySkills = (true, decision, reason));
  (** What the policies decide is not a dry run, and leaves the arguments as they are. *)
  replay_decision : exists decision,
    authorizeAccessPolicy resolved (call_principal call) (ApprovalRequest_AIClientID approved) (ApprovalRequest_SkillID approved) tool
      (capabilityGatewayScope tool (ApprovalRequest_ToolInput approved)) (ApprovalRequest_ToolInput approved) =
      Ok (decision, ApprovalRequest_ToolInput approved, call_tool call) /\
    Risk_Strategy decision <> gatewayRiskDeny /\ Risk_Strategy decision <> gatewayRiskDryRunOnly;
  replay_binding : authorizeSkillBinding resolved (call_principal call) (ApprovalRequest_AIClientID approved)
    (ApprovalRequest_SkillID approved) (call_tool call) = Ok tt
}.

Lemma authorized_replay ctx approved tool principal w call w' :
  toolByName (ApprovalRequest_ToolName approved) = Some tool -> currentApprovalPrincipal ctx approved = Ok principal ->
  authorize_replay ctx approved tool w = (Ok call, w') ->
  exists resolved, replay_allowed ctx approved tool resolved {| call_principal := principal; call_tool := authorized_tool call;
    call_input := authorized_input call; call_refs := authorized_refs call |}.
Proof.
  intros Htool Hactor. unfold authorize_replay. rewrite Hactor. intros (p & w1 & [= <- <-] & Hrest)%gbind_Ok.
  apply gbind_Ok in Hrest as (u1 & w2 & Hinvoke & Hrest). apply gbind_Ok in Hrest as (u2 & w3 & Hkeys & Hrest).
  apply gbind_Ok in Hrest as ([] & w4 & [= Hvalid <-] & Hrest). apply gbind_Ok in Hrest as (resolved & w5 & [= Hres <-] & Hrest).
  destruct (negb (matchesApprovedCapabilityScopes _ _ _)) eqn:Hm; [done|]. apply negb_false_iff in Hm.
  apply gbind_Ok in Hrest as (asks & w6 & Hgrant & Hrest). apply gbind_Ok in Hrest as ([[decision out] tool'] & w7 & [= Hpol <-] & Hrest).
  destruct (negb (DeepEqual _ _)) eqn:Hd; [done|]. apply negb_false_iff, DeepEqual_sound in Hd. subst out.
  destruct (contains _ _) eqn:Hc; [done|]. apply contains_false in Hc.
  apply gbind_Ok in Hrest as ([] & w8 & [= Hbind <-] & [= <- _]).
  destruct (authorizeAccessPolicy_spec _ _ _ _ _ _ _ _ _ _ Hpol) as (Hflag & _ & policies & Hpolicies & Hdecision).
  destruct (authorizeToolGrant_spec _ _ _ _ _ _ _ _ Hgrant) as (grants & Hg & Hgcase).
  exists resolved. split; cbn [call_principal call_tool call_input call_refs authorized_tool authorized_input authorized_refs].
  - split_and!; [done|by eapply authorize_permission_holds|by eapply authorize_all_holds].
  - by split_and!.
  - by split.
  - exists grants. split; [done|]. destruct Hgcase as [->|(keys & Hk & Hall)]; [by left|right]. exists keys. split; [done|]. intros scope Hscope.
    destruct (Hall scope Hscope) as (b & reason & Ha & _). eauto.
  - exists policies. split; [done|]. destruct Hdecision as [[-> _]|(pd & Hev & _)]; [by left|right]. intros scope Hscope.
    assert (settled no_decision) as Hnone by (split; [left|done]).
    destruct (policies_allow_spec _ _ _ _ _ _ Hnone Hev) as (_ & _ & Hall). destruct (Hall scope Hscope) as (d & reason & Ha & _). eauto.
  - exists decision. split_and!; [done| |]; intros Heq; apply Hc; rewrite Heq; set_solver.
  - done.
Qed.

(** A decision that reaches a provider: the vote completes the last stage. *)
Record decisive_vote (now : Z) (principal : Principal) (request : ApprovalRequest) (input : ApprovalDecisionInput)
    (approved : ApprovalRequest) : Prop := {
  vote_tool : isAIClientRegistrationApprovalRequest request = false;
  vote_quorum : let '(relatedIDs, routing) := gatewayApprovalRoutingWithVote (ApprovalRequest_RelatedIDs request) principal
      (ApprovalDecisionInput_Comment input) now in
    let status := gatewayApprovalQuorumStatusFromRouting routing in
    Quorum_Ready status = true /\ gatewayApprovalHasNextStage status = false /\
    ApprovalRequest_RelatedIDs approved = json_map relatedIDs;
  vote_request : identity_of approved = identity_of request /\ ApprovalRequest_Status approved = "approved"
}.

Lemma begin_decisive now principal request input w approved w' : isAIClientRegistrationApprovalRequest request = false ->
  aw_requests w !! ApprovalRequest_ID request = Some request -> begin_approval now principal request input w = (Ok (inr approved), w') ->
  decisive_vote now principal request input approved.
Proof.
  intros Ht Hreq Hb. destruct (granted_row _ _ _ _ _ _ _ Hb) as (row & relatedIDs & Hrow & _ & Hvote & _ & _ & Hs & Hid & Hrel).
  rewrite Hreq in Hrow. injection Hrow as <-. split; [done| |done].
  apply ready_vote in Hvote as [_ Hvote]. rewrite Hrel. revert Hvote. generalize (gatewayApprovalRoutingWithVote
    (ApprovalRequest_RelatedIDs request) principal (ApprovalDecisionInput_Comment input) now). intros [voted routing]. cbv zeta.
  generalize (gatewayApprovalQuorumStatusFromRouting routing). by intros status (-> & -> & ->).
Qed.

Definition calls_of (w : ApprovalWorld) : list ProviderCall := world_calls (aw_gateway w).

Lemma approve_calls now ctx principal request input w r w' : keyed (aw_requests w) ->
  aw_requests w !! ApprovalRequest_ID request = Some request ->
  approveApprovalRequest now ctx principal request input w = (r, w') ->
  calls_of w' = calls_of w \/ exists approved tool resolved call, decisive_vote now principal request input approved /\
    replay_allowed ctx approved tool resolved call /\ calls_of w' = call :: calls_of w /\
    exists row, aw_requests w' !! ApprovalRequest_ID request = Some row /\
      (ApprovalRequest_Status row = "executed" \/ ApprovalRequest_Status row = "failed").
Proof.
  intros Hk Hreq. unfold approveApprovalRequest. destruct (isAIClientRegistrationApprovalRequest request) eqn:Hreg.
  { intros Ha. left. pose proof (calm_register now principal request input w Hk) as Hc. rewrite Ha in Hc. apply (calm_calls _ _ Hc). }
  unfold gbind at 1. pose proof (calm_begin_approval now principal request input w) as Hc.
  destruct (begin_approval now principal request input w) as [[[waiting|approved]|e] w1] eqn:Hb; simpl in Hc; apply calm_calls in Hc;
    [by intros [= <- <-]; left| |by intros [= <- <-]; left].
  intros He. pose proof (begin_decisive _ _ _ _ _ _ _ Hreg Hreq Hb) as Hd.
  destruct (granted_row _ _ _ _ _ _ _ Hb) as (row & relatedIDs & Hrow & _ & _ & _ & Hrow' & Hs' & Hid & _).
  rewrite Hreq in Hrow. injection Hrow as <-. pose proof (identity_id _ _ Hid) as Hid'. rewrite <- Hid' in Hrow'.
  destruct (carried_row _ _ _ _ _ _ _ _ He Hrow' Hs') as (update & Hl & Hw & Hcalls). unfold calls_of.
  destruct Hcalls as [->|(tool & Htool & Hreplay)]; [by left|]. destruct (replay_call ctx approved tool (aw_gateway w1)) as [r' g] eqn:Hr.
  simpl in Hreplay. subst g. destruct (replay_calls _ _ _ _ _ _ Hr) as [->|(call & actor & g1 & Hauth & Hactor & Hnew)]; [by left|right].
  destruct (authorized_replay _ _ _ _ _ _ _ Htool Hactor Hauth) as (resolved & Hallowed).
  eexists approved, tool, resolved, _. split_and!; [done|exact Hallowed|by rewrite Hnew, Hc|]. eexists.
  split; [rewrite <- Hid', Hw, lookup_insert, decide_True by done; done|]. simpl. inversion Hl; subst; auto.
Qed.
End replay.

(** ** Invariant of the decisions in flight *)

(** What the approval froze: the call that is carried out is made of this. *)
Definition frozen (r : ApprovalRequest) := (identity_of r, gatewayApprovalReplayInput r).

(** Statuses that only an approved request reaches. *)
Definition approved_statuses : list string := ["approved"; "executed"; "failed"].

(** A copy in flight is of a row that was approved. *)
Definition backed (requests : request_store) (copy : ApprovalRequest) : Prop :=
  exists row, requests !! ApprovalRequest_ID copy = Some row /\ frozen row = frozen copy /\ ApprovalRequest_Status row ∈ approved_statuses.

Record machine_ok `{CatalogSource, MapRange, SensitiveText, NumberText, TimeText, GatewayEnv, ApprovalEnv} (w0 : ApprovalWorld) (m : Machine) : Prop := {
  ok_keyed : keyed (aw_requests (m_world m));
  ok_running copy : copy ∈ m_running m -> backed (aw_requests (m_world m)) copy;
  ok_called copy outcome : (copy, outcome) ∈ m_called m -> backed (aw_requests (m_world m)) copy;
  ok_logged copy call : (copy, call) ∈ m_log m -> backed (aw_requests (m_world m)) copy /\
    exists ctx tool resolved, replay_allowed ctx copy tool resolved call;
  ok_recorded id : id ∈ m_recorded m -> exists row, aw_requests (m_world m) !! id = Some row /\
    (ApprovalRequest_Status row = "executed" \/ ApprovalRequest_Status row = "failed");
  ok_once : NoDup (m_recorded m);
  ok_calls : world_calls (aw_gateway (m_world m)) = (snd <$> m_log m) ++ world_calls (aw_gateway w0)
}.

Lemma moves_frozen row row' : rtc moves row row' -> frozen row' = frozen row.
Proof. induction 1 as [|row row1 row' (update & -> & _) _ IH]; [done|]. by rewrite IH. Qed.

Lemma moves_approved row row' : rtc moves row row' -> ApprovalRequest_Status row ∈ approved_statuses -> ApprovalRequest_Status row' ∈ approved_statuses.
Proof.
  induction 1 as [|row row1 row' (update & -> & Hl) _ IH]; [done|]. intros Hs. apply IH. cbn [updated_request ApprovalRequest_Status].
  apply contains_true in Hs. apply contains_true. destruct Hl; vm_compute in Hs |- *; congruence.
Qed.

Lemma backed_evolves requests requests' copy : evolves requests requests' -> backed requests copy -> backed requests' copy.
Proof.
  intros He (row & Hrow & Hf & Hs). destruct (He _ _ Hrow) as (row' & Hrow' & Hm). exists row'.
  split_and!; [done|by rewrite (moves_frozen _ _ Hm)|by eapply moves_approved].
Qed.

Lemma recorded_evolves requests requests' id : evolves requests requests' ->
  (exists row, requests !! id = Some row /\ (ApprovalRequest_Status row = "executed" \/ ApprovalRequest_Status row = "failed")) ->
  exists row, requests' !! id = Some row /\ (ApprovalRequest_Status row = "executed" \/ ApprovalRequest_Status row = "failed").
Proof.
  intros He (row & Hrow & Hs). destruct (He _ _ Hrow) as (row' & Hrow' & Hm). exists row'. split; [done|].
  rewrite (moves_final _ _ Hm); [done|]. unfold final_statuses. destruct Hs as [-> | ->]; set_solver.
Qed.

Section invariant.
Context `{CatalogSource, MapRange, SensitiveText, NumberText, TimeText, GatewayEnv, ApprovalEnv}.
Context (w0 : ApprovalWorld).

Lemma idle_ok : keyed (aw_requests w0) -> machine_ok w0 (at_rest w0).
Proof. intros Hk. split; cbn; [done|..|constructor|done]; intros *; by intros []%not_elem_of_nil. Qed.

(** A step that moves rows on and calls nobody. *)
Lemma ok_evolves m w' : machine_ok w0 m -> evolves (aw_requests (m_world m)) (aw_requests w') -> keyed (aw_requests w') ->
  world_calls (aw_gateway w') = world_calls (aw_gateway (m_world m)) -> machine_ok w0 (with_world w' m).
Proof.
  intros [Hk Hr Hc Hl Hd Ho Hw] He Hk' Hw'. split; cbn; [done|..|done|by rewrite Hw'].
  - intros copy Hin. by eapply backed_evolves, Hr.
  - intros copy outcome Hin. by eapply backed_evolves, Hc.
  - intros copy call Hin. destruct (Hl _ _ Hin) as [Hb Ha]. split; [by eapply backed_evolves|done].
  - intros id Hin. by eapply recorded_evolves, Hd.
Qed.

Lemma ok_calm m w' : machine_ok w0 m -> calm (m_world m) w' -> machine_ok w0 (with_world w' m).
Proof.
  intros Hok Hc. apply ok_evolves; [done|by apply calm_evolves|eapply calm_keyed; [done|apply (ok_keyed _ _ Hok)]|apply (calm_calls _ _ Hc)].
Qed.

Lemma ok_run m copy : machine_ok w0 m -> backed (aw_requests (m_world m)) copy -> machine_ok w0 (with_running (copy :: m_running m) m).
Proof. intros [Hk Hr Hc Hl Hd Ho Hw] Hb. split; cbn; try done. intros x [->|Hin]%elem_of_cons; auto. Qed.

Lemma granted_backed now principal copy input w approved w' : keyed (aw_requests w) ->
  begin_approval now principal copy input w = (Ok (inr approved), w') -> backed (aw_requests w') approved.
Proof.
  intros Hk Hb. destruct (granted_row _ _ _ _ _ _ _ Hb) as (row & relatedIDs & Hrow & _ & _ & _ & Hrow' & Hs' & Hid & _). exists approved.
  split_and!; [|done|rewrite Hs'; left]. by rewrite (identity_id _ _ Hid), (Hk _ _ Hrow).
Qed.

Lemma call_spec ctx approved w outcome w' made : carry_call ctx approved w = (outcome, w') ->
  world_calls (aw_gateway w') = made ++ world_calls (aw_gateway w) ->
  aw_requests w' = aw_requests w /\ length made <= 1 /\ forall call, call ∈ made -> exists tool resolved, replay_allowed ctx approved tool resolved call.
Proof.
  unfold carry_call. destruct (toolByName _) as [tool|] eqn:Htool.
  - unfold in_gateway. destruct (replay_call ctx approved tool (aw_gateway w)) as [r g] eqn:Hr. intros He Hw.
    assert (aw_requests w' = aw_requests w /\ aw_gateway w' = g) as [Hreq Hg] by (by destruct r as [[??]|]; injection He as _ <-).
    rewrite Hg in Hw. split; [done|]. destruct (replay_calls _ _ _ _ _ _ Hr) as [Hs|(call & actor & g1 & Hauth & Hactor & Hnew)].
    + rewrite Hs in Hw. apply (app_inv_tail _ [] made) in Hw. subst made. split; [simpl; lia|]. by intros ? ?%not_elem_of_nil.
    + rewrite Hnew in Hw. change (?c :: ?l) with ([c] ++ l) in Hw at 1. apply app_inv_tail in Hw. subst made. split; [simpl; lia|].
      intros x ->%list_elem_of_singleton. exists tool. by apply (authorized_replay _ _ _ _ _ _ _ Htool Hactor Hauth).
  - intros [= <- <-] Hw. apply (app_inv_tail _ [] made) in Hw. subst made. split_and!; [done|simpl; lia|]. by intros ? ?%not_elem_of_nil.
Qed.

Lemma finalize_cases now principal approved status summary relatedIDs output w r w' :
  finalizeApprovedApprovalRequest now principal approved status summary relatedIDs output w = (r, w') ->
  aw_gateway w' = aw_gateway w /\
  if row_approved (ApprovalRequest_ID approved) w then exists row update, aw_requests w !! ApprovalRequest_ID approved = Some row /\
    ApprovalRequest_Status row = "approved" /\ ApprovalRequestUpdate_Status update = status /\
    aw_requests w' = <[ApprovalRequest_ID approved := updated_request row update]> (aw_requests w)
  else w' = w.
Proof.
  unfold finalizeApprovedApprovalRequest, UpdateApprovalRequest, row_approved. cbn [ApprovalRequestUpdate_ExpectedStatus str_empty].
  destruct (aw_requests w !! ApprovalRequest_ID approved) as [row|] eqn:Hrow; [|by intros [= _ <-]].
  change (if str_empty "approved" then "pending" else "approved") with "approved".
  destruct (String.eqb_spec (ApprovalRequest_Status row) "approved") as [Hs|]; intros [= _ <-]; [|done]. split; [done|]. eexists row, _. split_and!; [done|done| |reflexivity]. done.
Qed.

Lemma record_spec now principal approved outcome w r w' : carry_record now principal approved outcome w = (r, w') ->
  aw_gateway w' = aw_gateway w /\
  if row_approved (ApprovalRequest_ID approved) w then exists row update, aw_requests w !! ApprovalRequest_ID approved = Some row /\
    ApprovalRequest_Status row = "approved" /\ lifecycle "approved" (ApprovalRequestUpdate_Status update) /\
    aw_requests w' = <[ApprovalRequest_ID approved := updated_request row update]> (aw_requests w)
  else w' = w.
Proof.
  intros Hr. assert (exists status summary relatedIDs output r1, lifecycle "approved" status /\
    finalizeApprovedApprovalRequest now principal approved status summary relatedIDs output w = (r1, w'))
    as (status & summary & relatedIDs & output & r1 & Hl & Hf).
  { destruct outcome; cbn [carry_record] in Hr; unfold failApprovedApprovalRequest, gbind in Hr;
      match type of Hr with context [finalizeApprovedApprovalRequest ?n ?p ?a ?st ?su ?re ?ou w] =>
        exists st, su, re, ou; destruct (finalizeApprovedApprovalRequest n p a st su re ou w) as [r1 w1] end;
      exists r1; (split; [constructor|]); destruct r1; injection Hr as _ <-; done. }
  destruct (finalize_cases _ _ _ _ _ _ _ _ _ _ Hf) as [Hg Hc]. split; [done|]. destruct (row_approved _ _); [|done].
  destruct Hc as (row & update & ? & ? & <- & ?). by exists row, update.
Qed.

Lemma record_evolves id row update requests : keyed requests -> requests !! id = Some row -> ApprovalRequest_Status row = "approved" ->
  lifecycle "approved" (ApprovalRequestUpdate_Status update) ->
  evolves requests (<[id := updated_request row update]> requests) /\ keyed (<[id := updated_request row update]> requests).
Proof.
  intros Hk Hrow Hs Hl. split.
  - intros k old Hold. destruct (decide (k = id)) as [->|Hne]; [|exists old; by rewrite lookup_insert_ne].
    rewrite Hrow in Hold. injection Hold as <-. eexists. split; [by rewrite lookup_insert_eq|]. apply rtc_once. exists update. by rewrite Hs.
  - intros k old. destruct (decide (k = id)) as [->|Hne]; [|rewrite lookup_insert_ne by done; apply Hk].
    rewrite lookup_insert_eq. intros [= <-]. by apply (Hk _ _ Hrow).
Qed.

Lemma ok_call ctx approved before after m outcome w' made : machine_ok w0 m -> m_running m = before ++ approved :: after ->
  carry_call ctx approved (m_world m) = (outcome, w') -> world_calls (aw_gateway w') = made ++ world_calls (aw_gateway (m_world m)) ->
  machine_ok w0 {| m_world := w'; m_running := before ++ after; m_called := (approved, outcome) :: m_called m;
    m_recorded := m_recorded m; m_log := ((fun call => (approved, call)) <$> made) ++ m_log m |}.
Proof.
  intros [Hk Hr Hc Hl Hd Ho Hw] Hrun Hcall Hmade. destruct (call_spec _ _ _ _ _ _ Hcall Hmade) as (Hreq & _ & Hallowed).
  assert (backed (aw_requests (m_world m)) approved) as Hb by (apply Hr; rewrite Hrun; set_solver).
  split; cbn; rewrite ?Hreq; [done|..|done|].
  - intros copy Hin. apply Hr. rewrite Hrun. set_solver.
  - intros copy o [[= -> ->]|Hin]%elem_of_cons; [done|by eapply Hc].
  - intros copy call [(x & [= -> ->] & Hin)%list_elem_of_fmap|Hin]%elem_of_app; [|by apply Hl]. split; [done|]. exists ctx. by apply Hallowed.
  - done.
  - rewrite Hmade, Hw, fmap_app, <-list_fmap_compose. cbn. by rewrite list_fmap_id, app_assoc.
Qed.

Lemma ok_record now principal approved outcome before after m r w' : machine_ok w0 m -> m_called m = before ++ (approved, outcome) :: after ->
  carry_record now principal approved outcome (m_world m) = (r, w') ->
  evolves (aw_requests (m_world m)) (aw_requests w') /\
  machine_ok w0 {| m_world := w'; m_running := m_running m; m_called := before ++ after;
    m_recorded := if row_approved (ApprovalRequest_ID approved) (m_world m) then ApprovalRequest_ID approved :: m_recorded m else m_recorded m;
    m_log := m_log m |}.
Proof.
  intros Hok Hcalled Hrec. destruct (record_spec _ _ _ _ _ _ _ Hrec) as [Hg Hcase].
  assert (forall copy o, (copy, o) ∈ before ++ after -> (copy, o) ∈ m_called m) as Hsub by (rewrite Hcalled; set_solver).
  destruct (row_approved _ _).
  - destruct Hcase as (row & update & Hrow & Hs & Hl & Hreq).
    destruct (record_evolves _ _ update _ (ok_keyed _ _ Hok) Hrow Hs Hl) as [He Hk']. rewrite <-Hreq in He, Hk'. split; [done|].
    destruct (ok_evolves _ _ Hok He Hk') as [Hk Hr Hc Hlog Hd Ho Hw]; [by rewrite Hg|]. cbn in *.
    split; cbn; [done|done|eauto|done| |apply NoDup_cons; split; [|done]|done].
    + intros id [->|Hin]%elem_of_cons; [|by apply Hd]. eexists. split; [by rewrite Hreq, lookup_insert_eq|]. cbn. inversion Hl; subst; auto.
    + intros (row' & Hrow' & Hs')%(ok_recorded _ _ Hok). rewrite Hrow in Hrow'. injection Hrow' as <-. rewrite Hs in Hs'. by destruct Hs'.
  - subst w'. split; [reflexivity|]. destruct Hok as [Hk Hr Hc Hl Hd Ho Hw]. split; cbn; [done|done|eauto|done|done|done|done].
Qed.

(** The invariant and the progress of rows, for one step. *)
Lemma step_spec m m' : approval_step m m' -> machine_ok w0 m ->
  machine_ok w0 m' /\ evolves (aw_requests (m_world m)) (aw_requests (m_world m')).
Proof.
  assert (forall m w', calm (m_world m) w' -> machine_ok w0 m ->
    machine_ok w0 (with_world w' m) /\ evolves (aw_requests (m_world m)) (aw_requests w')) as Hcalm
    by (intros m1 w1 Hc Hok; split; [by apply ok_calm|by apply calm_evolves]).
  intros [item m1 r w' _ Hc|now p copy input m1 r w' Hb _|now p copy input m1 approved w' Hb|id row m1 Hrow Hs|ctx approved before after m1 o w' made Hrun Hcall Hmade
    |now p approved o before after m1 r w' Hcalled Hrec|approved before after m1 Hrun|answered before after m1 Hcalled
    |now p copy input m1 r w' Hb|now p copy action input m1 r w' Hb|now m1 r w' Hb|now copy m1 r w' Hb] Hok.
  - destruct (create_keeps _ _ _ _ Hc) as (Hcalls & Hkeyed & Hkeep).
    assert (evolves (aw_requests (m_world m1)) (aw_requests w')) as He by (intros id row Hrow; exists row; by auto using rtc_refl).
    split; [|done]. apply ok_evolves; [done|done|apply Hkeyed, (ok_keyed _ _ Hok)|done].
  - apply Hcalm; [|done]. pose proof (calm_begin_approval now p copy input (m_world m1)) as Hc. by rewrite Hb in Hc.
  - pose proof (calm_begin_approval now p copy input (m_world m1)) as Hc. rewrite Hb in Hc. destruct (Hcalm _ _ Hc Hok) as [Hok' He]. split; [|done].
    apply (ok_run (with_world w' m1)); [done|]. by eapply granted_backed; [apply (ok_keyed _ _ Hok)|].
  - split; [|reflexivity]. apply ok_run; [done|]. exists row. rewrite (ok_keyed _ _ Hok _ _ Hrow). split_and!; [done|done|rewrite Hs; left].
  - split; [by eapply ok_call|]. cbn. by rewrite (proj1 (call_spec _ _ _ _ _ _ Hcall Hmade)).
  - destruct (ok_record _ _ _ _ _ _ _ _ _ Hok Hcalled Hrec) as [? ?]. done.
  - split; [|reflexivity]. destruct Hok. split; cbn; try done. intros x Hin. apply ok_running0. rewrite Hrun. set_solver.
  - split; [|reflexivity]. destruct Hok. split; cbn; try done. intros x o Hin. apply (ok_called0 x o). rewrite Hcalled. set_solver.
  - apply Hcalm; [|done]. pose proof (calm_register now p copy input (m_world m1) (ok_keyed _ _ Hok)) as Hc. by rewrite Hb in Hc.
  - apply Hcalm; [|done]. pose proof (calm_reject now p copy action input (m_world m1)) as Hc. by rewrite Hb in Hc.
  - apply Hcalm; [|done]. injection Hb as _ <-. apply calm_expire_each.
  - apply Hcalm; [|done]. pose proof (calm_expireApprovalRequest now copy (m_world m1)) as Hc. by rewrite Hb in Hc.
Qed.

Lemma run_spec m m' : rtc approval_step m m' -> machine_ok w0 m ->
  machine_ok w0 m' /\ evolves (aw_requests (m_world m)) (aw_requests (m_world m')).
Proof.
  induction 1 as [m|m m1 m' Hstep _ IH]; intros Hok; [by split|].
  destruct (step_spec _ _ Hstep Hok) as [Hok1 He1]. destruct (IH Hok1) as [Hok' He']. split; [done|by etrans].
Qed.
End invariant.

Lemma expired_row now pending id : forall w, aw_requests (expire_each now pending w) !! id = aw_requests w !! id \/
  exists row, aw_requests (expire_each now pending w) !! id = Some row /\ ApprovalRequest_Status row = "timeout".
Proof.
  induction pending as [|item pending IH]; intros w; simpl; [by left|].
  destruct (UpdateApprovalRequest _ _ w) as [r w1] eqn:Hu. simpl.
  destruct (IH w1) as [->|?]; [|by right]. apply update_cases in Hu as [[-> _]|(row & _ & _ & _ & ->)]; [by left|].
  unfold set_requests. cbn [aw_requests]. destruct (decide (ApprovalRequest_ID item = id)) as [<-|Hne].
  - right. rewrite lookup_insert, decide_True by done. by eexists.
  - left. by rewrite lookup_insert_ne.
Qed.

Section decide.
Context `{CatalogSource, MapRange, SensitiveText, NumberText, TimeText, GatewayEnv, ApprovalEnv}.

(** The context an approval runs in: the caller's, or the one its task binds. *)
Definition bound_context (ctx : ApprovalContext) (request : ApprovalRequest) (bound : ApprovalContext) : Prop :=
  bound = ctx \/ exists enter runID cancellation, get (ApprovalRequest_RelatedIDs request) "capabilityTaskId" = AString runID /\
    enter_task = Some enter /\ enter ctx request runID cancellation = Ok bound.

Lemma with_approval_run ctx request execute w r w' : withCapabilityApproval ctx request execute w = (r, w') ->
  w' = w \/ exists bound r1, bound_context ctx request bound /\ execute bound w = (r1, w').
Proof.
  unfold withCapabilityApproval. destruct (get _ "capabilityTaskId") as [|runID| | | | | | | | | | | |] eqn:Hrun;
    cbn [str_empty]; try (intros He; right; exists ctx, r; split; [by left|done]).
  destruct (str_empty runID); [intros He; right; exists ctx, r; split; [by left|done]|].
  destruct enter_task as [enter|] eqn:Henter; [|intros [= _ <-]; by left].
  unfold gbind at 1, glift at 1. destruct (enter _ _ _ _) as [bound|] eqn:Hbound; [|intros [= _ <-]; by left].
  unfold gbind at 1. destruct (execute bound w) as [r1 w1] eqn:He. intros Hr. right. exists bound, r1.
  split; [right; by eauto 10|]. destruct r1; [|by injection Hr as _ <-].
  unfold gbind, glift in Hr. destruct (leave_task _ _); by injection Hr as _ <-.
Qed.

Definition carried_call (now : Z) (ctx : ApprovalContext) (principal : Principal) (request : ApprovalRequest)
    (input : ApprovalDecisionInput) (w w' : ApprovalWorld) : Prop :=
  exists bound approved tool resolved call, bound_context ctx request bound /\
    decisive_vote now principal request input approved /\ replay_allowed bound approved tool resolved call /\
    calls_of w' = call :: calls_of w /\
    exists row, aw_requests w' !! ApprovalRequest_ID request = Some row /\
      (ApprovalRequest_Status row = "executed" \/ ApprovalRequest_Status row = "failed").

Lemma decide_calls now ctx principal request action input w r w' : keyed (aw_requests w) ->
  aw_requests w !! ApprovalRequest_ID request = Some request -> decide_request now ctx principal request action input w = (r, w') ->
  calls_of w' = calls_of w \/ action = "approve" /\ carried_call now ctx principal request input w w'.
Proof.
  intros Hk Hreq. unfold decide_request. destruct (String.eqb_spec action "approve") as [->|_].
  - intros [->|(bound & r1 & Hbound & He)]%with_approval_run; [by left|].
    destruct (approve_calls _ _ _ _ _ _ _ _ Hk Hreq He) as [?|(approved & tool & resolved & call & Hall)]; [by left|right].
    split; [done|]. by exists bound, approved, tool, resolved, call.
  - destruct (_ || _)%bool; [|intros [= _ <-]; by left]. intros Hr. left.
    pose proof (calm_reject now principal request action input w) as Hc. rewrite Hr in Hc. apply (calm_calls _ _ Hc).
Qed.
(** A vote that leaves its request waiting is one conditional update. *)
Lemma waiting_vote now principal request input : exists outcome, match outcome with
  | inl update => expected_status update = "pending" /\ ApprovalRequestUpdate_Status update = "pending" /\
      forall w, begin_approval now principal request input w =
        (let! row := UpdateApprovalRequest (ApprovalRequest_ID request) update in gret (inl row)) w
  | inr tt => forall w row w', begin_approval now principal request input w <> (Ok (inl row), w')
  end.
Proof.
  unfold begin_approval, recordGatewayApprovalVote. destruct (gatewayApprovalRoutingWithVote _ _ _ _) as [relatedIDs routing]. cbv zeta.
  assert (forall summary relatedIDs, exists update, expected_status update = "pending" /\ ApprovalRequestUpdate_Status update = "pending" /\
    forall w, pending_update request summary relatedIDs now w = UpdateApprovalRequest (ApprovalRequest_ID request) update w) as Hup
    by (intros; eexists; split_and!; [..|intros w; reflexivity]; done).
  destruct (Quorum_Ready _); [destruct (gatewayApprovalHasNextStage _); [destruct (gatewayApprovalAdvanceStage _ _ _) as [relatedIDs' status]|]|].
  1, 3: edestruct Hup as (update & He & Hs & Hw); exists (inl update); (split_and!; [done|done|]); intros w; unfold gbind; rewrite Hw;
    by destruct (UpdateApprovalRequest _ _ w) as [[]].
  exists (inr tt). intros w row w'. unfold gbind, gret. destruct (transitionApprovalRequest _ _ _ _ _ _ _ _ w) as [[]]; done.
Qed.
End decide.

(** ** Properties *)

Section properties.
Context `{CatalogSource, MapRange, SensitiveText, NumberText, TimeText, GatewayEnv, ApprovalEnv}.

(** C29. Whatever the decisions in flight and however old the copies they start from,
    a request stays in the store, keeps its actor, tool, arguments, scopes and
    expiry, moves only along the life cycle, and is never changed again once it
    is rejected, canceled, timed out, executed or failed. *)
Theorem approval_lifecycle (w : ApprovalWorld) (m m' : Machine) (id : string) (row : ApprovalRequest) :
  keyed (aw_requests w) -> rtc approval_step (at_rest w) m -> rtc approval_step m m' -> aw_requests (m_world m) !! id = Some row ->
  exists row', aw_requests (m_world m') !! id = Some row' /\ identity_of row' = identity_of row /\
    rtc lifecycle (ApprovalRequest_Status row) (ApprovalRequest_Status row') /\
    (ApprovalRequest_Status row ∈ final_statuses -> row' = row).
Proof.
  intros Hk Hm Hm' Hrow. destruct (run_spec w _ _ Hm (idle_ok w Hk)) as [Hok _]. destruct (run_spec w _ _ Hm' Hok) as [_ He].
  destruct (He id row Hrow) as (row' & Hrow' & Hmoves). exists row'.
  split_and!; [done|by apply moves_identity|by apply moves_status|by apply moves_final].
Qed.

(** C28. Whatever the decisions in flight, however often a task carries an
    approved request out again, and whoever is lost between the call of a
    provider and the record of its outcome: the outcome of a request is recorded
    at most once, as executed or failed; every call that reached a provider was
    made for a request that had been approved, so never for one that was
    rejected, canceled or timed out, with exactly the tool, arguments and
    secrets that the approval froze, so that a repeated call is the same call,
    and was allowed by the rules in force when it was made. *)
Theorem approved_calls_frozen (w : ApprovalWorld) (m : Machine) :
  keyed (aw_requests w) -> rtc approval_step (at_rest w) m ->
  NoDup (m_recorded m) /\
  (forall id, id ∈ m_recorded m -> exists row, aw_requests (m_world m) !! id = Some row /\
     (ApprovalRequest_Status row = "executed" \/ ApprovalRequest_Status row = "failed")) /\
  calls_of (m_world m) = (snd <$> m_log m) ++ calls_of w /\
  (forall copy call, (copy, call) ∈ m_log m ->
     exists row, aw_requests (m_world m) !! ApprovalRequest_ID copy = Some row /\ ApprovalRequest_Status row ∈ approved_statuses /\
       (exists tool, toolByName (ApprovalRequest_ToolName row) = Some tool /\ (call_tool call = tool \/ call_tool call = set_tool_approval true tool)) /\
       call_input call = gatewayApprovalReplayInput row /\ call_refs call = ApprovalRequest_SecretRefs row /\
       exists ctx tool resolved, replay_allowed ctx copy tool resolved call).
Proof.
  intros Hk Hm. destruct (run_spec w _ _ Hm (idle_ok w Hk)) as [[_ _ _ Hl Hd Ho Hw] _]. split_and!; [done|exact Hd|exact Hw|].
  intros copy call Hin. destruct (Hl _ _ Hin) as [(row & Hrow & Hf & Hs) (ctx & tool & resolved & Ha)]. exists row.
  destruct (replay_tool _ _ _ _ _ Ha) as (Ht & Hct & _ & Hi & Hr). injection Hf as _ _ _ _ _ _ _ _ _ Htool _ _ Hrefs _ _ Hinput.
  rewrite Htool, Hinput, Hrefs. split_and!; [done|done|eauto|done|done|eauto].
Qed.

(** C27. A decision reaches a provider only as an approval of a request that waits and
    has not expired, by someone with the permission to approve whom its routing
    admits, with the vote that completes the quorum of the last stage, and for a
    call that the rules in force now still allow; the request is then decided. *)
Theorem decision_sound (now : Z) (ctx : ApprovalContext) (principal : Principal) (requestID action : string)
    (input : ApprovalDecisionInput) (decide_it : approval ApprovalDecisionResult) (w : ApprovalWorld) r w' :
  keyed (aw_requests w) -> resolveApprovalRequest now ctx principal requestID action input = Some decide_it -> decide_it w = (r, w') ->
  calls_of w' = calls_of w \/
  action = "approve" /\ holds principal "ai.gateway.approvals.approve" /\
  exists request, aw_requests w !! TrimSpace requestID = Some request /\ ApprovalRequest_Status request = "pending" /\
    (forall expiresAt, ApprovalRequest_ExpiresAt request = Some expiresAt -> (now < expiresAt)%Z) /\
    authorizeGatewayApprovalDecision principal request "approve" now = None /\
    carried_call now ctx principal request input w w'.
Proof.
  intros Hk Hres. unfold resolveApprovalRequest in Hres. destruct (ManagedActionPermission _ action) as [key|] eqn:Hkey; [|done].
  injection Hres as <-. unfold gbind at 1, in_gateway. pose proof (quiet_authorize_permission principal key (aw_gateway w)) as Hq.
  destruct (authorize_permission principal key (aw_gateway w)) as [[u|e] g] eqn:Hp; simpl in Hq; [|intros [= <- <-]; by left].
  set (w0 := {| aw_requests := aw_requests w; aw_clients := aw_clients w; aw_gateway := g |}).
  unfold gbind at 1, expirePendingApprovalRequests, ExpirePendingApprovalRequests.
  set (w1 := expire_each _ _ w0). assert (calm w0 w1) as Hc by apply calm_expire_each.
  assert (calls_of w1 = calls_of w) as Hcalls by (unfold calls_of; rewrite (calm_calls _ _ Hc); exact Hq).
  rewrite <- Hcalls. destruct (str_empty (TrimSpace requestID)); [intros [= <- <-]; by left|].
  unfold gbind at 1, GetApprovalRequest. destruct (aw_requests w1 !! TrimSpace requestID) as [request|] eqn:Hreq; [|intros [= <- <-]; by left].
  destruct (String.eqb_spec (ApprovalRequest_Status request) "pending") as [Hs|_]; [|intros [= <- <-]; by left]. cbn [negb].
  destruct (match ApprovalRequest_ExpiresAt request with Some _ => _ | None => _ end) eqn:Hex.
  { unfold gbind. pose proof (calm_expireApprovalRequest now request w1) as Hx.
    destruct (expireApprovalRequest now request w1) as [[|] w2]; simpl in Hx; intros [= <- <-]; left; apply (calm_calls _ _ Hx). }
  destruct (authorizeGatewayApprovalDecision principal request action now) eqn:Hauth; [intros [= <- <-]; by left|].
  pose proof (calm_keyed _ _ Hc Hk) as Hk1. pose proof (Hk1 _ _ Hreq) as Hid. intros Hd. rewrite <- Hid in Hreq.
  destruct (decide_calls _ _ _ _ _ _ _ _ _ Hk1 Hreq Hd) as [?|[-> Hcarried]]; [by left|right]. split_and!; [done| |].
  - vm_compute in Hkey. injection Hkey as <-. by eapply authorize_permission_holds.
  - exists request. rewrite Hid in Hreq. split_and!; [|done| |done|unfold carried_call in *; by rewrite <- Hcalls].
    + destruct (expired_row now (list_overdue (aw_requests w0) now) (TrimSpace requestID) w0) as [Hsame|(row & Hrow & Hst)];
        [exact (eq_trans (eq_sym Hsame) Hreq)|fold w1 in Hrow]. rewrite Hreq in Hrow. injection Hrow as ->. by rewrite Hs in Hst.
    + intros expiresAt Heq. rewrite Heq in Hex. lia.
Qed.

(** C33. Two votes that start from the same copy of a request: the second replaces the
    first, and the store is as if the first had never been cast. *)
Theorem concurrent_vote_lost (now1 now2 : Z) (p1 p2 : Principal) (copy : ApprovalRequest) (input1 input2 : ApprovalDecisionInput)
    (w w1 w2 : ApprovalWorld) (row1 row2 : ApprovalRequest) :
  begin_approval now1 p1 copy input1 w = (Ok (inl row1), w1) -> begin_approval now2 p2 copy input2 w1 = (Ok (inl row2), w2) ->
  aw_requests w2 = aw_requests (snd (begin_approval now2 p2 copy input2 w)).
Proof.
  intros Hfirst Hsecond. destruct (waiting_vote now1 p1 copy input1) as [[u1|[]] Hv1]; [destruct Hv1 as (He1 & Hs1 & Hv1)|by destruct (Hv1 w row1 w1)].
  destruct (waiting_vote now2 p2 copy input2) as [[u2|[]] Hv2]; [destruct Hv2 as (He2 & Hs2 & Hv2)|by destruct (Hv2 w1 row2 w2)].
  rewrite Hv1 in Hfirst. rewrite Hv2 in Hsecond |- *. apply gbind_Ok in Hfirst as (r1 & x1 & Hfirst & [= <- <-]). apply gbind_Ok in Hsecond as (r2 & x2 & Hsecond & [= <- <-]).
  apply update_cases in Hfirst as [[_ [? ?]]|(row & Hrow & Hst & _ & ->)]; [done|].
  apply update_cases in Hsecond as [[_ [? ?]]|(mid & Hmid & _ & _ & ->)]; [done|]. unfold set_requests in *. cbn [aw_requests] in *.
  rewrite lookup_insert, decide_True in Hmid by done. injection Hmid as <-. unfold gbind, UpdateApprovalRequest. fold (expected_status u2).
  rewrite Hrow, He2, Hst, He1. cbn [String.eqb]. unfold set_requests. cbn. by rewrite insert_insert, decide_True.
Qed.

(** A client registration that was already decided is refused, but only after
    the client has been made active. *)
Theorem registration_decided_twice (now : Z) (principal : Principal) (copy : ApprovalRequest) (input : ApprovalDecisionInput)
    (w : ApprovalWorld) (client : AIClient) (row : ApprovalRequest) r w' :
  aw_clients w !! ApprovalRequest_AIClientID copy = Some client -> AIClient_ID client = ApprovalRequest_AIClientID copy ->
  aw_requests w !! ApprovalRequest_ID copy = Some row -> ApprovalRequest_Status row <> "pending" ->
  approveAIClientRegistrationApproval now principal copy input w = (r, w') ->
  (exists e, r = Err e) /\ aw_requests w' = aw_requests w /\
  exists client', aw_clients w' !! ApprovalRequest_AIClientID copy = Some client' /\ AIClient_Status client' = "active".
Proof.
  intros Hclient Hid Hrow Hs. unfold approveAIClientRegistrationApproval. unfold gbind at 1, GetAIClient. rewrite Hclient.
  unfold gbind at 1, UpdateAIClient. cbn [set_client AIClient_ID]. rewrite Hid, Hclient. unfold gbind at 1.
  destruct (transitionApprovalRequest _ _ _ _ _ _ _ _ _) as [r1 w1] eqn:Ht.
  apply update_cases in Ht as [[-> [e ->]]|(old & Hold & Hst & _)].
  - intros [= <- <-]. split_and!; [by eexists|done|]. cbn [aw_clients]. rewrite lookup_insert, decide_True by done. by eexists.
  - cbn [aw_requests] in Hold. rewrite Hrow in Hold. injection Hold as <-. by destruct Hs.
Qed.
End properties.

(** ** Concrete instances *)

Definition sample_request (tool : string) (relatedIDs : go_map) (expiresAt : Z) : ApprovalRequest := {|
  ApprovalRequest_ID := "q1"; ApprovalRequest_Status := "pending"; ApprovalRequest_Strategy := "require_approval";
  ApprovalRequest_PolicyID := ""; ApprovalRequest_ApprovalPolicyRef := ""; ApprovalRequest_ActorType := "user";
  ApprovalRequest_ActorID := "u1"; ApprovalRequest_ActorSessionID := ""; ApprovalRequest_ActorName := "u1";
  ApprovalRequest_ActorRoles := ["operator"]; ApprovalRequest_ActorTeams := []; ApprovalRequest_AIClientID := "c1";
  ApprovalRequest_AIClientName := ""; ApprovalRequest_SkillID := ""; ApprovalRequest_ToolName := tool;
  ApprovalRequest_RiskLevel := RiskLevelMutate; ApprovalRequest_RequiresApproval := true;
  ApprovalRequest_ResourceScope := {["invocationScopes" := AList [AMap {["clusterId" := AString "prod"; "namespace" := AString "web"]}]]};
  ApprovalRequest_ToolInput := {["cluster" := AString "prod"]}; ApprovalRequest_SecretRefs := ∅;
  ApprovalRequest_RelatedIDs := relatedIDs; ApprovalRequest_ApprovalTrace := None; ApprovalRequest_Output := AMap ∅;
  ApprovalRequest_Summary := ""; ApprovalRequest_RequestID := ""; ApprovalRequest_SourceIP := ""; ApprovalRequest_DecidedBy := "";
  ApprovalRequest_DecidedByName := ""; ApprovalRequest_DecidedAt := None; ApprovalRequest_DecisionComment := "";
  ApprovalRequest_ExpiresAt := Some expiresAt; ApprovalRequest_CreatedAt := 0; ApprovalRequest_UpdatedAt := 0 |}.

Definition sample_client : AIClient := {|
  AIClient_ID := "c1"; AIClient_Name := "cli"; AIClient_Kind := "cli"; AIClient_Status := "pending"; AIClient_RedirectURIs := [];
  AIClient_AllowedOrigins := []; AIClient_Metadata := ∅; AIClient_CreatedBy := "u1"; AIClient_CreatedAt := 0; AIClient_UpdatedAt := 0 |}.

Definition sample_world (request : ApprovalRequest) : ApprovalWorld :=
  {| aw_requests := {["q1" := request]}; aw_clients := {["c1" := sample_client]}; aw_gateway := idle |}.

Lemma sample_keyed tool relatedIDs expiresAt : keyed (aw_requests (sample_world (sample_request tool relatedIDs expiresAt))).
Proof. intros id row. cbn. intros [<- <-]%lookup_singleton_Some. reflexivity. Qed.

Definition release_manager : Principal := sample_user "ada" ["release-manager"] [].

#[export] Instance sample_actors : ApprovalEnv := {|
  CurrentPrincipal := Some (fun id => Ok (sample_user id ["operator"] []));
  GetServiceAccount := None; enter_task := None; leave_task := fun _ _ => Ok tt |}.

Definition approval_gateway : GatewayEnv := gateway_with_roles
  {["operator" := [PermAIGatewayInvoke; "k8s.pods.restart"]; "release-manager" := ["ai.gateway.approvals.approve"]]} [] prod_policies.

Definition no_comment : ApprovalDecisionInput := {| ApprovalDecisionInput_Comment := "" |}.
Definition no_task : ApprovalContext := {| decision_ctx := plain_context; decision_actor := None |}.

Definition open_request : ApprovalRequest := sample_request "k8s.pods.restart" ∅ 100.

Lemma approve_key : ManagedActionPermission PermAIGatewayApprovalsManage "approve" = Some "ai.gateway.approvals.approve".
Proof. vm_compute. reflexivity. Qed.

(** One approval carried out, from the request to the call. *)
Lemma decision_sound_witness :
  exists decide_it w', @resolveApprovalRequest sample_catalog elements_map_range plain_text decimal_numbers decimal_times approval_gateway
      sample_actors 7 no_task release_manager " q1 " "approve" no_comment = Some decide_it /\
    snd (decide_it (sample_world open_request)) = w' /\ length (calls_of w') = 1 /\
    @carried_call sample_catalog elements_map_range plain_text decimal_numbers decimal_times approval_gateway sample_actors
      7 no_task release_manager open_request no_comment (sample_world open_request) w'.
Proof.
  unfold resolveApprovalRequest at 1. rewrite approve_key.
  eexists _, _. split; [reflexivity|]. split; [reflexivity|].
  match goal with |- context [calls_of (snd (?d ?w))] => set (decide_it := d); destruct (decide_it w) as [r w'] eqn:Hd end. cbn [snd].
  assert (length (calls_of w') = 1) as Hlen.
  { apply (f_equal (fun x => length (calls_of (snd x)))) in Hd. cbn [snd] in Hd. rewrite <- Hd. vm_compute. reflexivity. }
  split; [exact Hlen|].
  assert (@resolveApprovalRequest sample_catalog elements_map_range plain_text decimal_numbers decimal_times approval_gateway
    sample_actors 7 no_task release_manager " q1 " "approve" no_comment = Some decide_it) as Hres
    by (unfold resolveApprovalRequest; rewrite approve_key; reflexivity).
  destruct (decision_sound _ _ _ _ _ _ _ _ _ _ (sample_keyed _ _ _) Hres Hd) as [Hnone|(_ & _ & request & Hreq & _ & _ & _ & Hc)].
  - unfold calls_of in Hlen, Hnone. rewrite Hnone in Hlen. discriminate.
  - vm_compute in Hreq. injection Hreq as <-. exact Hc.
Defined.

#[local] Existing Instance sample_catalog.
#[local] Existing Instance elements_map_range.
#[local] Existing Instance approval_gateway.

(** A request that is rejected, and then voted for from an old copy. *)
Lemma approval_lifecycle_witness :
  let rejected_world := snd (rejectApprovalRequest 5 release_manager open_request "reject" no_comment (sample_world open_request)) in
  exists row row', aw_requests rejected_world !! "q1" = Some row /\ ApprovalRequest_Status row = "rejected" /\
    aw_requests (snd (begin_approval 6 release_manager open_request no_comment rejected_world)) !! "q1" = Some row' /\ row' = row.
Proof.
  intros rejected_world. assert (ApprovalRequest_Status <$> aw_requests rejected_world !! "q1" = Some "rejected") as Hs by (vm_compute; reflexivity).
  assert (fst (begin_approval 6 release_manager open_request no_comment rejected_world) = Err (sentinel ErrInvalidArgument)) as Hlate
    by (vm_compute; reflexivity).
  apply fmap_Some in Hs as (row & Hrow & Hs).
  destruct (approval_lifecycle (sample_world open_request) (at_rest rejected_world)
    (at_rest (snd (begin_approval 6 release_manager open_request no_comment rejected_world))) "q1" row)
    as (row' & Hrow' & _ & _ & Hsame); [apply sample_keyed| | |exact Hrow|].
  - apply rtc_once. eapply (step_reject 5 release_manager open_request "reject" no_comment (at_rest _)). apply surjective_pairing.
  - apply rtc_once. eapply (step_vote 6 release_manager open_request no_comment (at_rest _)); [apply surjective_pairing|].
    intros approved Heq. rewrite Hlate in Heq. discriminate.
  - cbn [m_world] in Hrow'. assert (ApprovalRequest_Status row ∈ final_statuses) as Hfinal by (rewrite <- Hs; left).
    exists row, row'. exact (conj Hrow (conj (eq_sym Hs) (conj Hrow' (Hsame Hfinal)))).
Defined.

(** An approval is granted, and a task reads the approved row before its outcome
    is recorded: both carry it out. *)
Definition both_called (w : ApprovalWorld) (approved : ApprovalRequest) (o1 o2 : CarryOutcome) (made1 made2 : list ProviderCall) : Machine := {|
  m_world := w; m_running := []; m_called := [(approved, o2); (approved, o1)]; m_recorded := [];
  m_log := ((fun call => (approved, call)) <$> made2) ++ ((fun call => (approved, call)) <$> made1) ++ [] |}.

Lemma both_called_reached now principal copy input ctx w approved w1 o1 w2 o2 w3 made1 made2 :
  begin_approval now principal copy input w = (Ok (inr approved), w1) -> aw_requests w1 !! ApprovalRequest_ID approved = Some approved ->
  ApprovalRequest_Status approved = "approved" -> carry_call ctx approved w1 = (o1, w2) -> calls_of w2 = made1 ++ calls_of w1 ->
  carry_call ctx approved w2 = (o2, w3) -> calls_of w3 = made2 ++ calls_of w2 ->
  rtc approval_step (at_rest w) (both_called w3 approved o1 o2 made1 made2).
Proof.
  intros Hg Hrow Hs Hc1 Hm1 Hc2 Hm2. eapply rtc_l; [exact (step_grant now principal copy input (at_rest w) approved w1 Hg)|].
  eapply rtc_l; [by eapply (step_replay (ApprovalRequest_ID approved) approved)|].
  eapply rtc_l; [by eapply (step_call ctx approved [] [approved])|]. apply rtc_once. by eapply (step_call ctx approved [] []).
Qed.

Definition granted_copy : ApprovalRequest :=
  match fst (begin_approval 5 release_manager open_request no_comment (sample_world open_request)) with Ok (inr approved) => approved | _ => open_request end.
Definition granted_world : ApprovalWorld := snd (begin_approval 5 release_manager open_request no_comment (sample_world open_request)).
Definition first_call : CarryOutcome * ApprovalWorld := carry_call no_task granted_copy granted_world.
Definition second_call : CarryOutcome * ApprovalWorld := carry_call no_task granted_copy (snd first_call).
Definition called_twice : Machine :=
  both_called (snd second_call) granted_copy (fst first_call) (fst second_call) (calls_of (snd first_call)) (take 1 (calls_of (snd second_call))).

Lemma called_twice_reached : rtc approval_step (at_rest (sample_world open_request)) called_twice.
Proof.
  refine (both_called_reached 5 release_manager open_request no_comment no_task _ granted_copy granted_world _ (snd first_call) _ (snd second_call)
    _ _ _ _ _ (surjective_pairing first_call) _ (surjective_pairing second_call) _); vm_compute; reflexivity.
Qed.

Lemma logged_copy w approved o1 o2 made1 made2 copy call : (copy, call) ∈ m_log (both_called w approved o1 o2 made1 made2) -> copy = approved.
Proof. cbn. rewrite app_nil_r. intros [Hin|Hin]%elem_of_app; by apply list_elem_of_fmap in Hin as (? & [= -> _] & _). Qed.

Lemma approved_calls_frozen_witness :
  length (calls_of (m_world called_twice)) = 2 /\
  exists row, aw_requests (m_world called_twice) !! ApprovalRequest_ID granted_copy = Some row /\
    forall call, call ∈ (snd <$> m_log called_twice) -> call_input call = gatewayApprovalReplayInput row.
Proof.
  split; [vm_compute; reflexivity|].
  destruct (approved_calls_frozen (sample_world open_request) called_twice (sample_keyed _ _ _) called_twice_reached) as (_ & _ & _ & Hlog).
  destruct (aw_requests (m_world called_twice) !! ApprovalRequest_ID granted_copy) as [row|] eqn:Hrow; [|vm_compute in Hrow; discriminate Hrow].
  exists row. split; [reflexivity|]. intros call ([copy call'] & -> & Hin)%list_elem_of_fmap. cbn [snd].
  pose proof (logged_copy _ _ _ _ _ _ _ _ Hin) as ->. destruct (Hlog _ _ Hin) as (row' & Hrow' & _ & _ & Hi & _).
  rewrite Hrow in Hrow'. injection Hrow' as <-. exact Hi.
Defined.

(** Two release managers are needed; two of them vote at once. *)
Definition quorum_request : ApprovalRequest := sample_request "k8s.pods.restart" (sample_related "all") 100.

Definition voters (w : ApprovalWorld) : option (list string) :=
  row ← aw_requests w !! "q1"; Some (gatewayApprovalDecisionUserIDs (mapValue (get (ApprovalRequest_RelatedIDs row) "approvalRouting"))).

Definition waiting (r : result (ApprovalRequest + ApprovalRequest)) : bool := match r with Ok (inl _) => true | _ => false end.

Lemma concurrent_vote_lost_witness :
  let w1 := snd (begin_approval 5 (manager "ada") quorum_request no_comment (sample_world quorum_request)) in
  let w2 := snd (begin_approval 5 (manager "bob") quorum_request no_comment w1) in
  voters w1 = Some ["ada"] /\ voters w2 = Some ["bob"] /\
  aw_requests w2 = aw_requests (snd (begin_approval 5 (manager "bob") quorum_request no_comment (sample_world quorum_request))).
Proof.
  cbv zeta. split; [vm_compute; reflexivity|]. split; [vm_compute; reflexivity|].
  assert (waiting (fst (begin_approval 5 (manager "ada") quorum_request no_comment (sample_world quorum_request))) = true) as H1 by (vm_compute; reflexivity).
  assert (waiting (fst (begin_approval 5 (manager "bob") quorum_request no_comment (snd (begin_approval 5 (manager "ada") quorum_request no_comment (sample_world quorum_request))))) = true) as H2 by (vm_compute; reflexivity).
  destruct (begin_approval 5 (manager "ada") quorum_request no_comment (sample_world quorum_request)) as [[[row1|]|] w1] eqn:Hfirst; [|discriminate H1|discriminate H1]. cbn [snd] in *.
  destruct (begin_approval 5 (manager "bob") quorum_request no_comment w1) as [[[row2|]|] w2] eqn:Hsecond; [|discriminate H2|discriminate H2].
  exact (concurrent_vote_lost 5 5 (manager "ada") (manager "bob") quorum_request no_comment no_comment (sample_world quorum_request)
    w1 w2 row1 row2 Hfirst Hsecond).
Defined.

(** A registration rejected while its approval is under way. *)
Definition registration : ApprovalRequest := sample_request "ai_gateway.ai_client.registration" ∅ 100.

Lemma registration_decided_twice_witness :
  let w := snd (rejectApprovalRequest 5 release_manager registration "reject" no_comment (sample_world registration)) in
  let w' := snd (approveAIClientRegistrationApproval 6 release_manager registration no_comment w) in
  AIClient_Status <$> aw_clients w !! "c1" = Some "rejected" /\
  ApprovalRequest_Status <$> aw_requests w' !! "q1" = Some "rejected" /\
  exists client', aw_clients w' !! "c1" = Some client' /\ AIClient_Status client' = "active".
Proof.
  cbv zeta. split; [vm_compute; reflexivity|]. split; [vm_compute; reflexivity|].
  set (w := snd (rejectApprovalRequest 5 release_manager registration "reject" no_comment (sample_world registration))).
  destruct (approveAIClientRegistrationApproval 6 release_manager registration no_comment w) as [r w'] eqn:Ha. cbn [snd].
  destruct (aw_clients w !! "c1") as [client|] eqn:Hclient; [|vm_compute in Hclient; discriminate].
  destruct (aw_requests w !! "q1") as [row|] eqn:Hrow; [|vm_compute in Hrow; discriminate].
  apply (registration_decided_twice 6 release_manager registration no_comment w client row r w' Hclient); [|exact Hrow| |exact Ha].
  - vm_compute in Hclient. injection Hclient as <-. reflexivity.
  - vm_compute in Hrow. injection Hrow as <-. discriminate.
Defined.
