(* ===== verification/GatewayHold.v ===== *)
(** * AI gateway: held calls and their requests

    What the gateway keeps of a call it holds ([holdToolInvocation] of
    [application/aigateway/approval.go]): the approval request with the scopes
    and arguments that will be replayed, the person on call as an approver, and
    what is shown of a request afterwards, its trace and its timeline. *)

From Stdlib Require Import Ascii.
From stdpp Require Import pretty.
From S2P Require Import Prelude GoStrings Stateful AccessModel PermissionTables PermissionResolver WorkflowModel GatewayModel GatewayPolicy GatewayQuorum GatewayInvoke GatewayApproval.

(** ** The person on call *)

Record OnCallResolveInput := {
  OnCall_IntegrationID : string; OnCall_IntegrationType : string; OnCall_BusinessLineID : string; OnCall_AlertCategory : string;
  OnCall_AlertName : string; OnCall_Severity : string; OnCall_Service : string; OnCall_Role : string; OnCall_ClusterID : string;
  OnCall_Namespace : string; OnCall_Labels : gmap string string
}.

(** The alert service, if it is configured, and the data of the HTTP request. *)
Record OnCallResolver := {
  GetCurrentOnCall : Principal -> string -> result go_map;
  ResolveOnCall : Principal -> OnCallResolveInput -> result go_map
}.

Class HoldEnv := {
  oncall : option OnCallResolver;
  meta_RequestID : string;
  meta_SourceIP : string
}.

Definition gatewayOnCallResolverPrincipal : Principal := {|
  Principal_UserID := "ai-gateway"; Principal_UserName := "AI Gateway"; Principal_Email := ""; Principal_AvatarURL := "";
  Principal_AvatarFit := ""; Principal_Roles := ["admin"]; Principal_Teams := []; Principal_Projects := []; Principal_Tags := [];
  Principal_PermissionKeys := []; Principal_AccessTokenID := "" |}.

Definition oncall_label_keys : list string :=
  ["applicationId"; "applicationEnvironmentId"; "environmentId"; "releaseBundleId"; "executionTaskId"; "clusterId"; "namespace"; "service";
   "workload"; "severity"; "businessLineId"].

Definition gatewayOnCallResolveInput (input : ToolInvocationRequest) (onCallRef : string) : OnCallResolveInput :=
  let values := ToolInvocationRequest_Input input in
  let labels : gmap string string :=
    <["aiGatewayTool" := TrimSpace (ToolInvocationRequest_ToolName input)]> {["onCallRef" := TrimSpace onCallRef]} in
  let labels := fold_left (fun labels key =>
    let value := firstMapString values [key] in if str_empty value then labels else <[key := value]> labels) oncall_label_keys labels in
  let given := omap (fun value => let text := TrimSpace (Sprint value) in
    if str_empty text || String.eqb text "<nil>" then None else Some text) (mapValue (get values "labels")) in
  {| OnCall_IntegrationID := firstNonEmpty [firstMapString values ["integrationId"; "integrationID"; "integration"]; "ai-gateway"];
     OnCall_IntegrationType := firstNonEmpty [firstMapString values ["integrationType"; "sourceType"; "source"]; "ai_gateway"];
     OnCall_BusinessLineID := firstMapString values ["businessLineId"; "businessLineID"; "businessLine"];
     OnCall_AlertCategory := firstNonEmpty [firstMapString values ["alertCategory"; "category"; "riskCategory"]; "ai_gateway_approval"];
     OnCall_AlertName := firstNonEmpty [firstMapString values ["alertName"; "title"; "name"]; ToolInvocationRequest_ToolName input];
     OnCall_Severity := firstNonEmpty [firstMapString values ["severity"; "riskLevel"]; "warning"];
     OnCall_Service := firstMapString values ["service"; "serviceName"; "applicationKey"; "applicationId"; "workload"; "deploymentName"];
     OnCall_Role := firstNonEmpty [firstMapString values ["oncallRole"; "onCallRole"; "ownerRole"; "role"]; "ops"];
     OnCall_ClusterID := firstMapString values ["clusterId"; "clusterID"; "cluster"];
     OnCall_Namespace := firstMapString values ["namespace"];
     OnCall_Labels := given ∪ labels |}.

Definition gatewayOnCallCandidateUserIDs (resolution : go_map) : list string :=
  let current := gatewayStringList (get resolution "currentParticipant") in
  let current := if is_empty current then gatewayStringList (get resolution "currentParticipants") else current in
  let candidates := if is_empty current then take 1 (gatewayStringList (get resolution "participants")) else current in
  normalizeStringSlice candidates.

Definition gatewaySerializableScalar (value : any) : option any :=
  match value with
  | AString s => let text := TrimSpace s in if str_empty text then None else Some (AString text)
  | ABool _ | AInt _ | AFloat _ _ => Some value
  | _ => None
  end.

Definition resolution_keys : list string :=
  ["resolutionStatus"; "scheduleId"; "schedule"; "rotationId"; "rotation"; "routeId"; "route"; "assignmentRuleId"; "assignmentRule";
   "targetType"; "targetRef"; "groupKey"; "windowStart"; "windowEnd"; "escalationPolicyId"].

Definition gatewayOnCallResolutionMetadata (resolution : go_map) (onCallRef source : string) (candidates : list string) : go_map :=
  fold_left (fun metadata key =>
    match gatewaySerializableScalar (get resolution key) with Some value => <[key := value]> metadata | None => metadata end)
    resolution_keys
    (<["status" := AString "resolved"]> (<["ref" := AString onCallRef]> (<["source" := AString source]>
      {["candidateUserIds" := AStrings candidates]}))).

(** The duty roster first, then the route; an error of the roster only if the route has none either. *)
Definition gatewayApprovalOnCallResolution (resolver : OnCallResolver) (input : ToolInvocationRequest) (onCallRef : string)
    : result (go_map * string) :=
  let current := GetCurrentOnCall resolver gatewayOnCallResolverPrincipal onCallRef in
  let route := ResolveOnCall resolver gatewayOnCallResolverPrincipal (gatewayOnCallResolveInput input onCallRef) in
  let fallback :=
    match route with
    | Ok routed => if bool_decide (routed = ∅) then None else Some (Ok (routed, "route_resolution"))
    | Err _ => None
    end in
  match current with
  | Ok resolution =>
      if negb (is_empty (gatewayOnCallCandidateUserIDs resolution)) then Ok (resolution, "current_oncall")
      else match fallback with
      | Some routed => routed
      | None =>
          if negb (bool_decide (resolution = ∅)) then Ok (resolution, "current_oncall")
          else match route with Err e => Err e | Ok _ => Ok (∅, "") end
      end
  | Err e =>
      match fallback with
      | Some routed => routed
      | None => match route with Err _ => Err e | Ok routed => Ok (routed, "route_resolution") end
      end
  end.

Definition resolveGatewayApprovalOnCallRouting (resolver : OnCallResolver) (input : ToolInvocationRequest) (routing : go_map) : go_map :=
  let onCallRef := TrimSpace (Sprint (get routing "onCallRef")) in
  if str_empty onCallRef || String.eqb onCallRef "<nil>" then routing
  else match gatewayApprovalOnCallResolution resolver input onCallRef with
  | Err e =>
      <["onCallResolution" := AMap (<["status" := AString "unresolved"]> (<["ref" := AString onCallRef]>
        {["error" := AString (err_text e)]}))]> routing
  | Ok (resolution, source) =>
      let candidates := gatewayOnCallCandidateUserIDs resolution in
      let metadata := gatewayOnCallResolutionMetadata resolution onCallRef source candidates in
      if is_empty candidates then <["onCallResolution" := AMap (<["status" := AString "no_current_participant"]> metadata)]> routing
      else
        <["onCallResolution" := AMap metadata]> (<["onCallCandidateUserIds" := AStrings candidates]>
        (<["candidateUserIds" := AStrings (normalizeStringSlice
          (gatewayAppendUniqueStrings (gatewayStringList (get routing "candidateUserIds")) candidates))]> routing))
  end.

Definition resolveGatewayApprovalOnCall `{HoldEnv} (input : ToolInvocationRequest) (routing : go_map) : go_map :=
  match oncall with
  | None => routing
  | Some resolver =>
      if bool_decide (routing = ∅) then routing
      else
        let out := resolveGatewayApprovalOnCallRouting resolver input routing in
        let stages := gatewayApprovalStages out in
        if is_empty stages then out
        else <["approvalStages" := AMaps (resolveGatewayApprovalOnCallRouting resolver input <$> stages)]> out
  end.

(** ** Holding a call *)

Definition resolvedCapabilityAuditScope (ctx : InvokeContext) (tool : ToolCapability) (input relatedIDs : go_map) : go_map :=
  let scope := gatewayAuditScope input relatedIDs in
  if String.eqb (scope_tool (ctx_scope ctx)) (ToolCapability_Name tool) && negb (is_empty (scope_scopes (ctx_scope ctx)))
  then <["invocationScopes" := AList ((fun scope => AMap (AString <$> scope)) <$> scope_scopes (ctx_scope ctx))]> scope
  else scope.

Definition gatewayHoldRelatedIDs (trackingID : string) (decision : gatewayRiskDecision) : go_map :=
  let strategy := Risk_Strategy decision in
  let relatedIDs : go_map := <["gatewayDecisionId" := AString trackingID]> {["strategy" := AString strategy]} in
  let relatedIDs := set_if (negb (str_empty (Risk_PolicyID decision))) "policyId" (AString (Risk_PolicyID decision)) relatedIDs in
  let relatedIDs := set_if (negb (str_empty (Risk_ApprovalPolicyRef decision))) "approvalPolicyRef"
    (AString (Risk_ApprovalPolicyRef decision)) relatedIDs in
  if String.eqb strategy gatewayRiskRequireApproval then <["approvalRequestId" := AString trackingID]> relatedIDs
  else if String.eqb strategy gatewayRiskRequireHumanConfirm then <["confirmationRequestId" := AString trackingID]> relatedIDs
  else if String.eqb strategy gatewayRiskDryRunOnly then <["dryRunId" := AString trackingID]> relatedIDs
  else relatedIDs.

(** Nanoseconds. *)
Definition minute : Z := (60 * 1000000000)%Z.

Definition gatewayApprovalExpiresAt `{MapRange, NumberText} (decision : gatewayRiskDecision) (now : Z) : option Z :=
  if negb (requiresApproval decision) then None
  else
    let '(minutes, ok) := gatewayFirstPositiveInt (gatewayApprovalPolicyValues (Risk_ApprovalPolicy decision))
      ["slaMinutes"; "approvalSlaMinutes"; "timeoutMinutes"; "expiresInMinutes"; "ttlMinutes"] in
    Some (now + if ok : bool then wrap64 (minutes * minute) else 24 * 60 * minute)%Z.

Definition gatewayHoldSummary (tool : ToolCapability) (decision : gatewayRiskDecision) : string :=
  let strategy := Risk_Strategy decision in
  (if String.eqb strategy gatewayRiskRequireApproval then "AI Gateway policy requires approval before executing "
   else if String.eqb strategy gatewayRiskRequireHumanConfirm then "AI Gateway policy requires human confirmation before executing "
   else if String.eqb strategy gatewayRiskDryRunOnly then "AI Gateway policy allows dry-run only for "
   else "AI Gateway policy held ") +:+ ToolCapability_Name tool.

(** The step of a task that a call belongs to: its run, its node, and whether the
    call stops an earlier one. *)
Record TaskStep := { step_run : string; step_node : string; step_cancellation : bool }.

(** What a hold depends on besides the call: the task, whether a conversation
    runs it without a task, and whether it only observes an earlier call. *)
Record HoldContext := { hold_ctx : InvokeContext; hold_task : option TaskStep; hold_native : bool; hold_observing : bool }.

Definition tool_approval_request `{MapRange, NumberText, SensitiveText, HoldEnv} (now : Z) (ctx : InvokeContext) (principal : Principal)
    (input : ToolInvocationRequest) (tool : ToolCapability) (decision : gatewayRiskDecision) (trackingID summary : string)
    (relatedIDs : go_map) : ApprovalRequest :=
  let '(actorType, actorID) := gatewaySubject principal in
  let approvalRouting := resolveGatewayApprovalOnCall input (gatewayApprovalRoutingFromDecision decision) in
  {| ApprovalRequest_ID := trackingID; ApprovalRequest_Status := "pending"; ApprovalRequest_Strategy := Risk_Strategy decision;
     ApprovalRequest_PolicyID := Risk_PolicyID decision; ApprovalRequest_ApprovalPolicyRef := Risk_ApprovalPolicyRef decision;
     ApprovalRequest_ActorType := actorType; ApprovalRequest_ActorID := actorID;
     ApprovalRequest_ActorSessionID := TrimSpace (ToolInvocationRequest_SessionID input);
     ApprovalRequest_ActorName := Principal_UserName principal; ApprovalRequest_ActorRoles := normalizeStringSlice (Principal_Roles principal);
     ApprovalRequest_ActorTeams := normalizeStringSlice (Principal_Teams principal);
     ApprovalRequest_AIClientID := TrimSpace (ToolInvocationRequest_AIClientID input);
     ApprovalRequest_AIClientName := TrimSpace (ToolInvocationRequest_AIClientName input);
     ApprovalRequest_SkillID := TrimSpace (ToolInvocationRequest_SkillID input); ApprovalRequest_ToolName := ToolCapability_Name tool;
     ApprovalRequest_RiskLevel := ToolCapability_RiskLevel tool; ApprovalRequest_RequiresApproval := true;
     ApprovalRequest_ResourceScope := resolvedCapabilityAuditScope ctx tool (ToolInvocationRequest_Input input) ∅;
     ApprovalRequest_ToolInput := sanitizeGatewayMap (ToolInvocationRequest_Input input);
     ApprovalRequest_SecretRefs := ToolInvocationRequest_SecretRefs input;
     ApprovalRequest_RelatedIDs := set_if (negb (bool_decide (approvalRouting = ∅))) "approvalRouting" (AMap approvalRouting) relatedIDs;
     ApprovalRequest_ApprovalTrace := None; ApprovalRequest_Output := AMap ∅; ApprovalRequest_Summary := summary;
     ApprovalRequest_RequestID := firstNonEmpty [ToolInvocationRequest_RequestID input; meta_RequestID];
     ApprovalRequest_SourceIP := meta_SourceIP; ApprovalRequest_DecidedBy := ""; ApprovalRequest_DecidedByName := "";
     ApprovalRequest_DecidedAt := None; ApprovalRequest_DecisionComment := "";
     ApprovalRequest_ExpiresAt := gatewayApprovalExpiresAt decision now; ApprovalRequest_CreatedAt := now; ApprovalRequest_UpdatedAt := now |}.

(** The identifier of a request of a task is fixed by its call. *)
Class TaskIdentifiers := { capabilityApprovalID : string -> string }.

Definition capabilityNodeApproval `{TaskIdentifiers} (call : ToolInvocationRequest) : approval (option ApprovalRequest) :=
  fun w =>
    match aw_requests w !! capabilityApprovalID (ToolInvocationRequest_RequestID call) with
    | None => (Ok None, w)
    | Some request =>
        if String.eqb (ApprovalRequest_RequestID request) (ToolInvocationRequest_RequestID call) &&
           String.eqb (ApprovalRequest_ToolName request) (ToolInvocationRequest_ToolName call) &&
           DeepEqual (ApprovalRequest_ToolInput request) (ToolInvocationRequest_Input call) &&
           bool_decide (ApprovalRequest_SecretRefs request = ToolInvocationRequest_SecretRefs call)
        then (Ok (Some request), w)
        else (Err (errorf ErrConflict "frozen capability approval changed"), w)
    end.

Definition createToolApprovalRequest `{MapRange, NumberText, SensitiveText, HoldEnv, TaskIdentifiers} (now : Z) (ctx : HoldContext)
    (principal : Principal) (input : ToolInvocationRequest) (tool : ToolCapability) (decision : gatewayRiskDecision)
    (trackingID summary : string) (relatedIDs : go_map) : approval (go_map * option Z) :=
  let request := tool_approval_request now (hold_ctx ctx) principal input tool decision trackingID summary relatedIDs in
  let! existing := match hold_task ctx with Some _ => capabilityNodeApproval input | None => gret None end in
  match existing with
  | Some existing => gret (ApprovalRequest_RelatedIDs existing, ApprovalRequest_ExpiresAt existing)
  | None =>
      let! created := CreateApprovalRequest request in
      gret (ApprovalRequest_RelatedIDs created, ApprovalRequest_ExpiresAt request)
  end.

(** [gatewayRiskDecision.result] *)
Definition gatewayRiskResult (decision : gatewayRiskDecision) : string :=
  let strategy := Risk_Strategy decision in
  if String.eqb strategy gatewayRiskRequireApproval then "pending_approval"
  else if String.eqb strategy gatewayRiskRequireHumanConfirm then "pending_human_confirm"
  else if String.eqb strategy gatewayRiskDryRunOnly then "dry_run"
  else "success".

(** What the caller of a held call is told. *)
Record HeldCall := {
  held_result : string; held_tracking : string; held_summary : string; held_scope : go_map; held_related : go_map;
  held_expires : option Z; held_requires_approval : bool
}.

(** [uuid] is the random identifier the call draws. *)
Definition holdToolInvocation `{MapRange, NumberText, SensitiveText, HoldEnv, TaskIdentifiers} (now : Z) (uuid : string) (ctx : HoldContext)
    (principal : Principal) (input : ToolInvocationRequest) (tool : ToolCapability) (decision : gatewayRiskDecision) : approval HeldCall :=
  if hold_native ctx && match hold_task ctx with Some task => str_empty (step_run task) | None => true end
  then gfail (errorf ErrUnsupportedOperation "Native approval requires an owning CapabilityTask")
  else if hold_observing ctx then gfail (errorf ErrConflict "domain task observation is held by policy")
  else
    let trackingID := match hold_task ctx with Some _ => capabilityApprovalID (ToolInvocationRequest_RequestID input) | None => uuid end in
    let relatedIDs := <["capabilityVersion" := AString (ToolCapability_Version tool)]> (gatewayHoldRelatedIDs trackingID decision) in
    let relatedIDs :=
      match hold_task ctx with
      | None => relatedIDs
      | Some task => set_if (step_cancellation task) "capabilityCancellation" (ABool true)
          (<["capabilityTaskId" := AString (step_run task)]> (<["capabilityNodeId" := AString (step_node task)]> relatedIDs))
      end in
    let summary := gatewayHoldSummary tool decision in
    let! kept :=
      (if requiresApproval decision
       then createToolApprovalRequest now ctx principal input tool decision trackingID summary relatedIDs
       else gret (relatedIDs, None)) in
    let '(relatedIDs, expiresAt) := kept in
    gret {| held_result := gatewayRiskResult decision; held_tracking := trackingID; held_summary := summary;
            held_scope := resolvedCapabilityAuditScope (hold_ctx ctx) tool (ToolInvocationRequest_Input input) ∅;
            held_related := relatedIDs; held_expires := expiresAt; held_requires_approval := requiresApproval decision |}.

(** ** Registration of AI clients *)

Definition registration_request (now : Z) (uuid : string) (principal : Principal) (client : AIClient) : ApprovalRequest :=
  let '(actorType, actorID) := gatewaySubject principal in
  {| ApprovalRequest_ID := uuid; ApprovalRequest_Status := "pending"; ApprovalRequest_Strategy := gatewayRiskRequireApproval;
     ApprovalRequest_PolicyID := ""; ApprovalRequest_ApprovalPolicyRef := ""; ApprovalRequest_ActorType := actorType;
     ApprovalRequest_ActorID := actorID; ApprovalRequest_ActorSessionID := ""; ApprovalRequest_ActorName := Principal_UserName principal;
     ApprovalRequest_ActorRoles := Principal_Roles principal; ApprovalRequest_ActorTeams := Principal_Teams principal;
     ApprovalRequest_AIClientID := AIClient_ID client; ApprovalRequest_AIClientName := AIClient_Name client; ApprovalRequest_SkillID := "";
     ApprovalRequest_ToolName := "ai_gateway.ai_client.registration"; ApprovalRequest_RiskLevel := RiskLevelHigh;
     ApprovalRequest_RequiresApproval := true; ApprovalRequest_ResourceScope := {["aiClientId" := AString (AIClient_ID client)]};
     ApprovalRequest_ToolInput :=
       <["aiClientId" := AString (AIClient_ID client)]> (<["name" := AString (AIClient_Name client)]>
       (<["kind" := AString (AIClient_Kind client)]> (<["status" := AString (AIClient_Status client)]>
       (<["redirectUriCount" := AInt (Z.of_nat (length (AIClient_RedirectURIs client)))]>
       {["allowedOriginCount" := AInt (Z.of_nat (length (AIClient_AllowedOrigins client)))]}))));
     ApprovalRequest_SecretRefs := ∅; ApprovalRequest_RelatedIDs := {["aiClientId" := AString (AIClient_ID client)]};
     ApprovalRequest_ApprovalTrace := None; ApprovalRequest_Output := AMap ∅;
     ApprovalRequest_Summary := "AI client registration is waiting for approval"; ApprovalRequest_RequestID := "";
     ApprovalRequest_SourceIP := ""; ApprovalRequest_DecidedBy := ""; ApprovalRequest_DecidedByName := "";
     ApprovalRequest_DecidedAt := None; ApprovalRequest_DecisionComment := ""; ApprovalRequest_ExpiresAt := Some (now + 7 * 24 * 60 * minute)%Z;
     ApprovalRequest_CreatedAt := now; ApprovalRequest_UpdatedAt := now |}.

(** The identifier of the request: none for a client that needs no approval, the
    one it already has, or that of a new request. *)
Definition createAIClientRegistrationApprovalRequest (now : Z) (uuid : string) (principal : Principal) (client : AIClient)
    : approval string :=
  if negb (aiClientRegistrationApprovalPending client) then gret ""
  else
    let existingID := TrimSpace (firstMapString (AIClient_Metadata client) ["registrationApprovalRequestId"; "approvalRequestId"]) in
    if negb (str_empty existingID) then gret existingID
    else let! created := CreateApprovalRequest (registration_request now uuid principal client) in gret (ApprovalRequest_ID created).

(** ** What is shown of a request *)

Definition intFromAny (value : any) : Z := match value with AInt n => n | AFloat _ n => n | _ => 0 end.

Fixpoint first_related (relatedIDs : go_map) (keys : list string) : string :=
  match keys with
  | [] => ""
  | key :: keys => let value := firstMapString relatedIDs [key] in if str_empty value then first_related relatedIDs keys else value
  end.

Definition gatewayApprovalRelatedID (relatedIDs : go_map) (keys : list string) : string :=
  let value := first_related relatedIDs keys in
  if str_empty value then first_related (mapValue (get relatedIDs "relatedIds")) keys else value.

Definition gatewayApprovalIntCounts (value : any) : gmap string Z :=
  omap (fun raw => let count := intFromAny raw in if (0 <? count)%Z then Some count else None) (mapValue value).

Definition gatewayTimePointer `{TimeText} (value : any) : option Z :=
  match value with
  | AString s => let text := TrimSpace s in if str_empty text then None else parse_time text
  | _ => None
  end.

Definition index_pointer `{NumberText} (value : any) : option Z :=
  let '(index, ok) := gatewayNonNegativeInt value in if ok : bool then Some index else None.

Section trace.
Context `{MapRange, NumberText, TimeText, SensitiveText}.

Definition decision_trace (decision : go_map) : ApprovalDecisionTrace := {|
  ApprovalDecisionTrace_UserID := gatewayFirstString decision ["userId"];
  ApprovalDecisionTrace_UserName := gatewayFirstString decision ["userName"];
  ApprovalDecisionTrace_Roles := normalizeStringSlice (gatewayStringList (get decision "roles"));
  ApprovalDecisionTrace_Teams := normalizeStringSlice (gatewayStringList (get decision "teams"));
  ApprovalDecisionTrace_Result := gatewayFirstString decision ["result"];
  ApprovalDecisionTrace_Comment := redactSensitiveText (gatewayFirstString decision ["comment"]);
  ApprovalDecisionTrace_StageIndex := index_pointer (get decision "stageIndex");
  ApprovalDecisionTrace_StageName := gatewayFirstString decision ["stageName"];
  ApprovalDecisionTrace_DecidedAt := gatewayTimePointer (get decision "decidedAt") |}.

Definition gatewayApprovalDecisionTrace (routing : go_map) : list ApprovalDecisionTrace :=
  decision_trace <$> gatewayApprovalDecisions routing.

Definition stage_trace (stage : go_map) : ApprovalStageTrace := {|
  ApprovalStageTrace_StageIndex := index_pointer (get stage "stageIndex");
  ApprovalStageTrace_StageName := gatewayFirstString stage ["stageName"; "name"];
  ApprovalStageTrace_Result := gatewayFirstString stage ["result"];
  ApprovalStageTrace_CompletedAt := gatewayTimePointer (get stage "completedAt") |}.

Definition gatewayApprovalStageTrace (routing : go_map) : list ApprovalStageTrace := stage_trace <$> gatewayApprovalStageHistory routing.

Definition gatewayApprovalTrace (request : ApprovalRequest) : option ApprovalTrace :=
  let relatedIDs := ApprovalRequest_RelatedIDs request in
  let routing := mapValue (get relatedIDs "approvalRouting") in
  if bool_decide (routing = ∅) then None
  else
    let texts key := normalizeStringSlice (gatewayStringList (get routing key)) in
    let mode := TrimSpace (Sprint (get routing "approvalMode")) in
    let stageIndex := match index_pointer (get routing "currentStageIndex") with
      | Some index => Some index
      | None => let '(index, ok) := gatewayApprovalCurrentStageIndex routing in if ok : bool then Some index else None
      end in
    let stageCount := intFromAny (get routing "stageCount") in
    let required := intFromAny (get routing "requiredApprovals") in
    let approvedCount := intFromAny (get routing "approvedCount") in
    let decisions := gatewayApprovalDecisionTrace routing in
    Some {|
      ApprovalTrace_ApprovalMode := if String.eqb mode "<nil>" then "" else mode;
      ApprovalTrace_CurrentStageIndex := stageIndex;
      ApprovalTrace_CurrentStageName := gatewayFirstString routing ["currentStageName"];
      ApprovalTrace_StageCount :=
        match stageIndex with
        | Some _ => if (stageCount =? 0)%Z then Z.of_nat (length (gatewayApprovalStages routing)) else stageCount
        | None => stageCount
        end;
      ApprovalTrace_ApprovedCount :=
        if (approvedCount =? 0)%Z && negb (is_empty decisions)
        then Z.of_nat (length (gatewayApprovalDecisionUserIDs (gatewayApprovalActiveRouting routing))) else approvedCount;
      ApprovalTrace_RequiredApprovals :=
        if (required =? 0)%Z
        then let '(count, ok) := gatewayApprovalRequiredCount (gatewayApprovalActiveRouting routing) in if ok : bool then count else required
        else required;
      ApprovalTrace_PendingRequirements := texts "pendingRequirements"; ApprovalTrace_SatisfiedRequirements := texts "satisfiedRequirements";
      ApprovalTrace_RoleApprovedCounts := gatewayApprovalIntCounts (get routing "roleApprovedCounts");
      ApprovalTrace_TeamApprovedCounts := gatewayApprovalIntCounts (get routing "teamApprovedCounts");
      ApprovalTrace_CandidateUserIDs := texts "candidateUserIds"; ApprovalTrace_CandidateRoles := texts "candidateRoles";
      ApprovalTrace_CandidateTeams := texts "candidateTeams"; ApprovalTrace_OnCallCandidateUserIDs := texts "onCallCandidateUserIds";
      ApprovalTrace_WorkflowRunID := gatewayApprovalRelatedID relatedIDs ["workflowRunId"];
      ApprovalTrace_ExecutionTaskID := gatewayApprovalRelatedID relatedIDs ["executionTaskId"];
      ApprovalTrace_ReleaseBundleID := gatewayApprovalRelatedID relatedIDs ["releaseBundleId"];
      ApprovalTrace_Decisions := decisions; ApprovalTrace_StageHistory := gatewayApprovalStageTrace routing |}.
End trace.

(** ** Lemmas: the scopes on record *)

(** The scopes that the owning domain resolved for a tool, if it did. *)
Definition resolved_scopes (ctx : InvokeContext) (name : string) : list (gmap string string) :=
  if String.eqb (scope_tool (ctx_scope ctx)) name then scope_scopes (ctx_scope ctx) else [].

Lemma json_scope (scope : gmap string string) : json_value (AMap (AString <$> scope)) = AMap (AString <$> scope).
Proof. simpl. f_equal. rewrite <- map_fmap_compose. by apply map_fmap_ext. Qed.

Lemma json_scopes (scopes : list (gmap string string)) :
  json_value (AList ((fun scope => AMap (AString <$> scope)) <$> scopes)) = AList ((fun scope => AMap (AString <$> scope)) <$> scopes).
Proof. cbn [json_value]. f_equal. rewrite <- list_fmap_compose. apply list_fmap_ext. intros i scope _. apply json_scope. Qed.

Lemma decode_recorded_scope (scope : gmap string string) : decode_scope (AMap (AString <$> scope)) = Some (Some scope).
Proof.
  unfold decode_scope. rewrite (proj2 (forallb_forall _ _)).
  - do 2 f_equal. apply map_eq. intros key. rewrite lookup_omap, lookup_fmap. by destruct (scope !! key).
  - intros [key value] Hin. apply list_elem_of_In, elem_of_map_to_list in Hin. rewrite lookup_fmap in Hin.
    destruct (scope !! key); [|done]. by injection Hin as <-.
Qed.

Lemma decode_recorded_scopes (scopes : list (gmap string string)) :
  decode_scopes (AList ((fun scope => AMap (AString <$> scope)) <$> scopes)) = Some (Some <$> scopes).
Proof.
  unfold decode_scopes. rewrite json_scopes. apply mapM_Some. induction scopes as [|scope scopes IH]; [constructor|].
  constructor; [apply decode_recorded_scope|exact IH].
Qed.

Lemma same_scopes_spec (l k : list (gmap string string)) :
  same_scopes (Some <$> l) (Some <$> k) = true <-> forall scope, scope ∈ l <-> scope ∈ k.
Proof.
  unfold same_scopes. rewrite andb_true_iff, !forallb_forall. split.
  - intros [Hl Hk] scope. split; intros Hin; apply (list_elem_of_fmap_2 Some) in Hin.
    + apply list_elem_of_In, Hl, bool_decide_eq_true_1, list_elem_of_fmap in Hin as (? & [= ->] & ?). done.
    + apply list_elem_of_In, Hk, bool_decide_eq_true_1, list_elem_of_fmap in Hin as (? & [= ->] & ?). done.
  - intros Heq. split; intros x (scope & -> & Hin)%list_elem_of_In%list_elem_of_fmap; apply bool_decide_eq_true_2, list_elem_of_fmap_2; by apply Heq.
Qed.

(** The dimensions of a call do not include the entry for its scopes. *)
Lemma audit_scope_free input relatedIDs : gatewayAuditScope input relatedIDs !! "invocationScopes" = None.
Proof.
  unfold gatewayAuditScope, standardGatewayScope.
  assert (forall (keys : list string) (f : string -> go_map -> go_map) scope, "invocationScopes" ∉ keys ->
    (forall key m, key <> "invocationScopes" -> f key m !! "invocationScopes" = m !! "invocationScopes") ->
    scope !! "invocationScopes" = None -> fold_left (fun s key => f key s) keys scope !! "invocationScopes" = None) as Hfold.
  { induction keys as [|key keys IH]; intros f scope Hn Hf Hs; simpl; [done|]. apply IH; [set_solver|done|].
    rewrite Hf; [done|set_solver]. }
  apply (Hfold _ (fun key scope => let value := stringInput input key in
    if negb (str_empty value) then <[key := AString value]> scope
    else let value := stringInput relatedIDs key in if negb (str_empty value) then <[key := AString value]> scope else scope)).
  - apply contains_false. vm_compute. reflexivity.
  - intros key m Hne. cbv zeta. repeat destruct (negb _); by rewrite ?lookup_insert_ne.
  - rewrite lookup_fmap. apply fmap_None.
    assert (forall items (scope : gmap string string), "invocationScopes" ∉ (alias_key <$> items) -> scope !! "invocationScopes" = None ->
      fold_left (fun scope item =>
        let value := firstMapString input (alias_names item) in
        if negb (str_empty value) then <[alias_key item := value]> scope
        else
          let value := firstMapString relatedIDs (alias_names item) in
          if negb (str_empty value) then <[alias_key item := value]> scope else scope) items scope !! "invocationScopes" = None) as Hitems.
    { induction items as [|item items IH]; intros scope Hn Hs; simpl; [done|]. rewrite fmap_cons in Hn. apply IH; [set_solver|].
      repeat destruct (negb _); rewrite ?lookup_insert_ne; try done; set_solver. }
    apply Hitems; [|done]. apply contains_false. vm_compute. reflexivity.
Qed.

Lemma recorded_scopes_match (before after : InvokeContext) (tool : ToolCapability) (input relatedIDs : go_map) :
  matchesApprovedCapabilityScopes after (ToolCapability_Name tool) (json_map (resolvedCapabilityAuditScope before tool input relatedIDs)) = true <->
  forall scope, scope ∈ resolved_scopes after (ToolCapability_Name tool) <-> scope ∈ resolved_scopes before (ToolCapability_Name tool).
Proof.
  unfold matchesApprovedCapabilityScopes. fold (resolved_scopes after (ToolCapability_Name tool)).
  set (now := resolved_scopes after (ToolCapability_Name tool)). unfold resolvedCapabilityAuditScope, resolved_scopes, json_map. cbv zeta.
  destruct (String.eqb _ _); [destruct (scope_scopes (ctx_scope before)) as [|first rest] eqn:Hscopes|]; cbn [andb negb is_empty].
  - rewrite lookup_fmap, audit_scope_free. simpl. rewrite is_empty_true. split; [by intros ->|].
    intros Heq. destruct now as [|s now]; [done|]. exfalso. apply (not_elem_of_nil s). apply Heq. left.
  - rewrite lookup_fmap, lookup_insert, decide_True by done. cbn [fmap option_fmap option_map]. rewrite json_scopes, decode_recorded_scopes, same_scopes_spec.
    split; intros Heq scope; symmetry; apply Heq.
  - rewrite lookup_fmap, audit_scope_free. simpl. rewrite is_empty_true. split; [by intros ->|].
    intros Heq. destruct now as [|s now]; [done|]. exfalso. apply (not_elem_of_nil s). apply Heq. left.
Qed.

(** ** Properties *)

(** The scopes recorded with a request, through the store and back, match those
    of a later call exactly when both calls resolve to the same set of scopes. *)
Theorem recorded_scopes_exact `{MapRange, NumberText, SensitiveText, HoldEnv} (now : Z) (before after : InvokeContext)
    (principal : Principal) (input : ToolInvocationRequest) (tool : ToolCapability) (decision : gatewayRiskDecision)
    (trackingID summary : string) (relatedIDs : go_map) :
  let request := stored_request (tool_approval_request now before principal input tool decision trackingID summary relatedIDs) in
  matchesApprovedCapabilityScopes after (ApprovalRequest_ToolName request) (ApprovalRequest_ResourceScope request) = true <->
  forall scope, scope ∈ resolved_scopes after (ToolCapability_Name tool) <-> scope ∈ resolved_scopes before (ToolCapability_Name tool).
Proof.
  unfold tool_approval_request. destruct (gatewaySubject principal) as [actorType actorID]. cbv zeta.
  cbn [stored_request ApprovalRequest_ToolName ApprovalRequest_ResourceScope]. apply recorded_scopes_match.
Qed.

(** What a request says of the call that is held. *)
Record describes `{SensitiveText} (ctx : InvokeContext) (principal : Principal) (input : ToolInvocationRequest) (tool : ToolCapability)
    (row : ApprovalRequest) : Prop := {
  row_waits : ApprovalRequest_Status row = "pending" /\ is_Some (ApprovalRequest_ExpiresAt row);
  row_actor : (ApprovalRequest_ActorType row, ApprovalRequest_ActorID row) = gatewaySubject principal;
  row_tool : ApprovalRequest_ToolName row = ToolCapability_Name tool /\
    get (ApprovalRequest_RelatedIDs row) "capabilityVersion" = AString (ToolCapability_Version tool);
  row_arguments : ApprovalRequest_SecretRefs row = ToolInvocationRequest_SecretRefs input /\
    (sanitizeGatewayMap (ToolInvocationRequest_Input input) = ToolInvocationRequest_Input input ->
     json_map (ToolInvocationRequest_Input input) = ToolInvocationRequest_Input input ->
     ApprovalRequest_ToolInput row = ToolInvocationRequest_Input input);
  row_scopes : matchesApprovedCapabilityScopes ctx (ToolCapability_Name tool) (ApprovalRequest_ResourceScope row) = true
}.

(** A held call reaches no provider. If it needs approval it leaves exactly one
    request more, under an identifier that was free, which waits, expires, and
    records the actor, the tool at its version, the arguments and the scopes of
    the call; or, for a step of a task, the request that the step already has. *)
Theorem hold_recorded `{MapRange, NumberText, SensitiveText, HoldEnv, TaskIdentifiers} (now : Z) (uuid : string) (ctx : HoldContext)
    (principal : Principal) (input : ToolInvocationRequest) (tool : ToolCapability) (decision : gatewayRiskDecision)
    (w w' : ApprovalWorld) (held : HeldCall) :
  holdToolInvocation now uuid ctx principal input tool decision w = (Ok held, w') ->
  aw_gateway w' = aw_gateway w /\ aw_clients w' = aw_clients w /\
  (aw_requests w' = aw_requests w /\ (requiresApproval decision = false \/
     exists row, hold_task ctx <> None /\ aw_requests w !! held_tracking held = Some row /\
       ApprovalRequest_ToolName row = ToolInvocationRequest_ToolName input /\ ApprovalRequest_ToolInput row = ToolInvocationRequest_Input input) \/
   requiresApproval decision = true /\ aw_requests w !! held_tracking held = None /\
   exists row, aw_requests w' = <[held_tracking held := row]> (aw_requests w) /\ describes (hold_ctx ctx) principal input tool row).
Proof.
  unfold holdToolInvocation. destruct (hold_native ctx && _)%bool; [done|]. destruct (hold_observing ctx); [done|].
  set (trackingID := match hold_task ctx with Some _ => _ | None => uuid end). cbv zeta.
  set (relatedIDs := match hold_task ctx with None => _ | Some task => _ end).
  intros ([related expires] & w1 & Hkept & [= <- <-])%gbind_Ok. cbn [held_tracking].
  destruct (requiresApproval decision) eqn:Hneeds; [|injection Hkept as _ _ <-; split_and!; [done|done|]; left; split; [done|by left]].
  unfold createToolApprovalRequest in Hkept. apply gbind_Ok in Hkept as (existing & w2 & Hex & Hkept).
  assert (w2 = w /\ (forall row, existing = Some row -> hold_task ctx <> None /\ aw_requests w !! trackingID = Some row /\
    ApprovalRequest_ToolName row = ToolInvocationRequest_ToolName input /\ ApprovalRequest_ToolInput row = ToolInvocationRequest_Input input)) as [-> Hrow].
  { subst trackingID. destruct (hold_task ctx) as [task|]; [|injection Hex as <- <-; split; [done|by intros ? [=]]].
    unfold capabilityNodeApproval in Hex. destruct (aw_requests w !! _) as [row|]; [|injection Hex as <- <-; split; [done|by intros ? [=]]].
    destruct (_ && _)%bool eqn:Hsame; [|done]. injection Hex as <- <-. split; [done|]. intros ? [= <-].
    repeat (apply andb_true_iff in Hsame as [Hsame ?]). split_and!; [done|done|by apply String.eqb_eq|by apply DeepEqual_sound]. }
  destruct existing as [row|].
  { destruct (Hrow row eq_refl) as (? & ? & ? & ?). injection Hkept as _ _ <-. split_and!; [done|done|]. left. split; [done|]. right. by exists row. }
  apply gbind_Ok in Hkept as (created & w3 & Hcreate & [= _ _ <-]). unfold CreateApprovalRequest in Hcreate.
  set (request := tool_approval_request _ _ _ _ _ _ _ _ _) in *.
  assert (ApprovalRequest_ID request = trackingID) as Hid by (unfold request, tool_approval_request; by destruct (gatewaySubject principal)).
  rewrite Hid in Hcreate. destruct (aw_requests w !! trackingID) eqn:Hfree; [done|]. injection Hcreate as _ <-.
  unfold set_requests. cbn [aw_gateway aw_clients aw_requests]. split_and!; [done|done|right]. split_and!; [done|done|].
  exists (stored_request request). split; [done|]. subst request. unfold tool_approval_request.
  destruct (gatewaySubject principal) as [actorType actorID] eqn:Hsubject. split; cbn [stored_request ApprovalRequest_Status ApprovalRequest_ExpiresAt
    ApprovalRequest_ActorType ApprovalRequest_ActorID ApprovalRequest_ToolName ApprovalRequest_RelatedIDs ApprovalRequest_SecretRefs
    ApprovalRequest_ToolInput ApprovalRequest_ResourceScope].
  - split; [done|]. unfold gatewayApprovalExpiresAt. rewrite Hneeds. cbn [negb]. destruct (gatewayFirstPositiveInt _ _); by eexists.
  - done.
  - split; [done|]. assert (relatedIDs !! "capabilityVersion" = Some (AString (ToolCapability_Version tool))) as Hversion.
    { subst relatedIDs. destruct (hold_task ctx) as [task|]; [unfold set_if; destruct (step_cancellation task)|];
        rewrite ?lookup_insert_ne by done; by rewrite lookup_insert, decide_True. }
    unfold get, json_map. rewrite lookup_fmap. unfold set_if. destruct (negb _); rewrite ?lookup_insert_ne by done; by rewrite Hversion.
  - split; [done|]. by intros -> ->.
  - by apply recorded_scopes_match.
Qed.

(** When the person on call cannot be found, a routing that names no other
    approver is open to everyone who may approve at all. *)
Theorem oncall_failure_opens (resolver : OnCallResolver) (input : ToolInvocationRequest) (routing : go_map) (principal : Principal)
    (e1 e2 : error) :
  (forall key, key ∈ ["candidateUserIds"; "candidateRoles"; "candidateTeams"] -> gatewayStringList (get routing key) = []) ->
  (forall who ref, GetCurrentOnCall resolver who ref = Err e1) -> (forall who question, ResolveOnCall resolver who question = Err e2) ->
  gatewayApprovalPrincipalMatchesRouting principal (resolveGatewayApprovalOnCallRouting resolver input routing) = true.
Proof.
  intros Hnone Hcurrent Hroute. set (out := resolveGatewayApprovalOnCallRouting resolver input routing).
  assert (forall key, key ∈ ["candidateUserIds"; "candidateRoles"; "candidateTeams"] -> gatewayStringList (get out key) = []) as Hout.
  { intros key Hkey. rewrite <- (Hnone key Hkey). f_equal. subst out. unfold resolveGatewayApprovalOnCallRouting. cbv zeta.
    destruct (_ || _)%bool; [done|]. unfold gatewayApprovalOnCallResolution. rewrite Hcurrent, Hroute. unfold get.
    rewrite lookup_insert_ne; [done|]. intros <-. apply contains_true in Hkey. vm_compute in Hkey. discriminate. }
  unfold gatewayApprovalPrincipalMatchesRouting. rewrite !Hout by set_solver. reflexivity.
Qed.

(** ** Concrete instances *)

#[export] Instance quiet_alerts : HoldEnv := {|
  oncall := Some {| GetCurrentOnCall := fun _ _ => Err (sentinel ErrNotFound); ResolveOnCall := fun _ _ => Err (sentinel ErrNotFound) |};
  meta_RequestID := "r0"; meta_SourceIP := "" |}.

#[export] Instance plain_identifiers : TaskIdentifiers := {| capabilityApprovalID := fun id => id |}.

Definition oncall_decision : gatewayRiskDecision := {|
  Risk_Strategy := gatewayRiskRequireApproval; Risk_PolicyID := "p"; Risk_ApprovalPolicyRef := ""; Risk_Reason := "";
  Risk_ApprovalPolicy := {["approvers" := AMap {["onCallRef" := AString "prod"]}]} |}.

Definition free_call : HoldContext := {|
  hold_ctx := set_ctx_scope {| scope_tool := "k8s.pods.restart"; scope_scopes := [{["clusterId" := "prod"; "namespace" := "web"]}] |} plain_context;
  hold_task := None; hold_native := false; hold_observing := false |}.

Lemma hold_recorded_witness :
  exists held w', @holdToolInvocation elements_map_range decimal_numbers plain_text quiet_alerts plain_identifiers 0 "q9" free_call
      sample_principal (sample_call "prod") sample_tool oncall_decision (sample_world open_request) = (Ok held, w') /\
    held_result held = "pending_approval" /\ aw_requests (sample_world open_request) !! held_tracking held = None /\
    exists row, aw_requests w' = <[held_tracking held := row]> (aw_requests (sample_world open_request)) /\
      describes (hold_ctx free_call) sample_principal (sample_call "prod") sample_tool row.
Proof.
  destruct (@holdToolInvocation elements_map_range decimal_numbers plain_text quiet_alerts plain_identifiers 0 "q9" free_call
      sample_principal (sample_call "prod") sample_tool oncall_decision (sample_world open_request)) as [[held|e] w'] eqn:Hh; [|vm_compute in Hh; discriminate].
  exists held, w'. assert (held_tracking held = "q9" /\ held_result held = "pending_approval") as [Ht Hr]
    by (vm_compute in Hh; injection Hh as <- _; split; reflexivity).
  split; [reflexivity|]. split; [exact Hr|].
  destruct (hold_recorded _ _ _ _ _ _ _ _ _ _ Hh) as (_ & _ & [[_ [Hn|(row & Htask & _)]]|(_ & Hfree & Hrow)]).
  - vm_compute in Hn. discriminate.
  - destruct Htask. reflexivity.
  - split; [exact Hfree|exact Hrow].
Defined.

Lemma oncall_failure_opens_witness :
  let routing := gatewayApprovalRoutingFromDecision oncall_decision in
  get routing "onCallRef" = AString "prod" /\
  gatewayApprovalPrincipalMatchesRouting (sample_user "anyone" [] [])
    (resolveGatewayApprovalOnCallRouting
      {| GetCurrentOnCall := fun _ _ => Err (sentinel ErrNotFound); ResolveOnCall := fun _ _ => Err (sentinel ErrNotFound) |}
      (sample_call "prod") routing) = true.
Proof.
  split; [vm_compute; reflexivity|]. apply (oncall_failure_opens _ _ _ _ (sentinel ErrNotFound) (sentinel ErrNotFound)); [|reflexivity|reflexivity].
  intros key Hkey. repeat (apply elem_of_cons in Hkey as [->|Hkey]; [vm_compute; reflexivity|]). apply not_elem_of_nil in Hkey. destruct Hkey.
Defined.
