(* ===== verification/GoCrypto.v ===== *)
(** * Parts of Go's library used by the identity components

    Byte slices as lists of integers from 0 to 255; [encoding/base32] without
    padding, [encoding/base64] in its padded standard and its unpadded URL
    form; [crypto/sha1] and [crypto/hmac]; [strings.ToUpper] and the fixed
    width decimals of [fmt]. *)

From Stdlib Require Import Ascii.
From S2P Require Import Prelude GoStrings.

Open Scope Z_scope.

(** ** Bytes *)

Definition byte_range (b : Z) : Prop := 0 <= b < 256.

Abbreviation bytes := (list Z).

Definition byte_of_ascii (c : ascii) : Z := Z.of_N (N_of_ascii c).
Definition ascii_of_byte (b : Z) : ascii := ascii_of_N (Z.to_N b).

(** [[]byte(s)] and [string(b)]. *)
Fixpoint bytes_of (s : string) : bytes :=
  match s with "" => [] | String c r => byte_of_ascii c :: bytes_of r end.
Fixpoint string_of (l : bytes) : string :=
  match l with [] => "" | b :: r => String (ascii_of_byte b) (string_of r) end.

(** [strings.ToUpper]; U+0131 and U+017F have the ASCII upper cases I and S. *)
Definition upper_ascii (c : ascii) : ascii :=
  let n := nat_of_ascii c in
  if ((97 <=? n)%nat && (n <=? 122)%nat)%bool then ascii_of_nat (n - 32) else c.

Fixpoint ToUpper (s : string) : string :=
  match s with
  | "" => ""
  | String c r =>
      match r with
      | String d r1 =>
          if (Ascii.eqb c "196" && Ascii.eqb d "177")%bool then String "I" (ToUpper r1)
          else if (Ascii.eqb c "197" && Ascii.eqb d "191")%bool then String "S" (ToUpper r1)
          else String (upper_ascii c) (ToUpper r)
      | "" => String (upper_ascii c) ""
      end
  end.

(** The decimal digits of a number below [10 ^ width], as [%0*d] prints them. *)
Fixpoint zero_padded (width : nat) (n : Z) : string :=
  match width with
  | O => ""
  | S w => String (ascii_of_byte (48 + (n / 10 ^ Z.of_nat w) mod 10)) (zero_padded w n)
  end.

(** ** Base 32 *)

(** The standard alphabet: A to Z, then 2 to 7. *)
Definition base32_char (v : Z) : ascii := ascii_of_byte (if v <? 26 then 65 + v else 24 + v).

Definition base32_value (c : ascii) : option Z :=
  let b := byte_of_ascii c in
  if ((65 <=? b) && (b <=? 90))%bool then Some (b - 65)
  else if ((50 <=? b) && (b <=? 55))%bool then Some (b - 24)
  else None.

(** The groups of eight symbols; a last group of two, four, five or seven. *)
Fixpoint base32_split (l : bytes) : list Z :=
  match l with
  | [] => []
  | [a] => [Z.shiftr a 3; Z.land (Z.shiftl a 2) 31]
  | [a; b] =>
      [Z.shiftr a 3; Z.land (Z.lor (Z.shiftl a 2) (Z.shiftr b 6)) 31; Z.land (Z.shiftr b 1) 31; Z.land (Z.shiftl b 4) 31]
  | [a; b; c] =>
      [Z.shiftr a 3; Z.land (Z.lor (Z.shiftl a 2) (Z.shiftr b 6)) 31; Z.land (Z.shiftr b 1) 31;
       Z.land (Z.lor (Z.shiftl b 4) (Z.shiftr c 4)) 31; Z.land (Z.shiftl c 1) 31]
  | [a; b; c; d] =>
      [Z.shiftr a 3; Z.land (Z.lor (Z.shiftl a 2) (Z.shiftr b 6)) 31; Z.land (Z.shiftr b 1) 31;
       Z.land (Z.lor (Z.shiftl b 4) (Z.shiftr c 4)) 31; Z.land (Z.lor (Z.shiftl c 1) (Z.shiftr d 7)) 31;
       Z.land (Z.shiftr d 2) 31; Z.land (Z.shiftl d 3) 31]
  | a :: b :: c :: d :: e :: rest =>
      Z.shiftr a 3 :: Z.land (Z.lor (Z.shiftl a 2) (Z.shiftr b 6)) 31 :: Z.land (Z.shiftr b 1) 31 ::
      Z.land (Z.lor (Z.shiftl b 4) (Z.shiftr c 4)) 31 :: Z.land (Z.lor (Z.shiftl c 1) (Z.shiftr d 7)) 31 ::
      Z.land (Z.shiftr d 2) 31 :: Z.land (Z.lor (Z.shiftl d 3) (Z.shiftr e 5)) 31 :: Z.land e 31 :: base32_split rest
  end.

(** [base32.StdEncoding.WithPadding(base32.NoPadding).EncodeToString]. *)
Definition base32_encode (l : bytes) : string := foldr (fun v s => String (base32_char v) s) "" (base32_split l).

(** The bytes of a group of eight symbols, or of a shorter last one; a last
    group of one, three or six symbols gives none. *)
Definition u8 (z : Z) : Z := z mod 256.

Definition base32_byte0 (s0 s1 : Z) : Z := u8 (Z.lor (Z.shiftl s0 3) (Z.shiftr s1 2)).
Definition base32_byte1 (s1 s2 s3 : Z) : Z := u8 (Z.lor (Z.lor (Z.shiftl s1 6) (Z.shiftl s2 1)) (Z.shiftr s3 4)).
Definition base32_byte2 (s3 s4 : Z) : Z := u8 (Z.lor (Z.shiftl s3 4) (Z.shiftr s4 1)).
Definition base32_byte3 (s4 s5 s6 : Z) : Z := u8 (Z.lor (Z.lor (Z.shiftl s4 7) (Z.shiftl s5 2)) (Z.shiftr s6 3)).
Definition base32_byte4 (s6 s7 : Z) : Z := u8 (Z.lor (Z.shiftl s6 5) s7).

Fixpoint base32_pack (l : list Z) : bytes :=
  match l with
  | s0 :: s1 :: s2 :: s3 :: s4 :: s5 :: s6 :: s7 :: rest =>
      base32_byte0 s0 s1 :: base32_byte1 s1 s2 s3 :: base32_byte2 s3 s4 :: base32_byte3 s4 s5 s6 ::
      base32_byte4 s6 s7 :: base32_pack rest
  | [s0; s1; s2; s3; s4; s5; s6] =>
      [base32_byte0 s0 s1; base32_byte1 s1 s2 s3; base32_byte2 s3 s4; base32_byte3 s4 s5 s6]
  | [s0; s1; s2; s3; s4] => [base32_byte0 s0 s1; base32_byte1 s1 s2 s3; base32_byte2 s3 s4]
  | [s0; s1; s2; s3] => [base32_byte0 s0 s1; base32_byte1 s1 s2 s3]
  | [s0; s1] => [base32_byte0 s0 s1]
  | _ => []
  end.

(** The decoders pass over line breaks. *)
Definition line_break (c : ascii) : bool := (Ascii.eqb c "010" || Ascii.eqb c "013")%bool.

(** The values of the symbols of a text; [None] at a byte that is none. *)
Fixpoint symbols (value : ascii -> option Z) (s : string) : option (list Z) :=
  match s with
  | "" => Some []
  | String c r =>
      if line_break c then symbols value r else
      match value c with
      | Some v => match symbols value r with Some l => Some (v :: l) | None => None end
      | None => None
      end
  end.

(** [DecodeString] of the same encoding. *)
Definition base32_decode (s : string) : option bytes := base32_pack <$> symbols base32_value s.

(** ** Base 64 *)

Definition base64_char (url : bool) (v : Z) : ascii :=
  if v <? 26 then ascii_of_byte (65 + v)
  else if v <? 52 then ascii_of_byte (71 + v)
  else if v <? 62 then ascii_of_byte (v - 4)
  else if v =? 62 then (if url then "-" else "+")%char
  else (if url then "_" else "/")%char.

Definition base64_value (url : bool) (c : ascii) : option Z :=
  let b := byte_of_ascii c in
  if ((65 <=? b) && (b <=? 90))%bool then Some (b - 65)
  else if ((97 <=? b) && (b <=? 122))%bool then Some (b - 71)
  else if ((48 <=? b) && (b <=? 57))%bool then Some (b + 4)
  else if Ascii.eqb c (if url then "-" else "+")%char then Some 62
  else if Ascii.eqb c (if url then "_" else "/")%char then Some 63
  else None.

(** The groups of four symbols; a last group of two or three. *)
Fixpoint base64_split (l : bytes) : list Z :=
  match l with
  | [] => []
  | [a] => [Z.shiftr a 2; Z.land (Z.shiftl a 4) 63]
  | [a; b] => [Z.shiftr a 2; Z.land (Z.lor (Z.shiftl a 4) (Z.shiftr b 4)) 63; Z.land (Z.shiftl b 2) 63]
  | a :: b :: c :: rest =>
      Z.shiftr a 2 :: Z.land (Z.lor (Z.shiftl a 4) (Z.shiftr b 4)) 63 ::
      Z.land (Z.lor (Z.shiftl b 2) (Z.shiftr c 6)) 63 :: Z.land c 63 :: base64_split rest
  end.

Definition base64_byte0 (s0 s1 : Z) : Z := u8 (Z.lor (Z.shiftl s0 2) (Z.shiftr s1 4)).
Definition base64_byte1 (s1 s2 : Z) : Z := u8 (Z.lor (Z.shiftl s1 4) (Z.shiftr s2 2)).
Definition base64_byte2 (s2 s3 : Z) : Z := u8 (Z.lor (Z.shiftl s2 6) s3).

(** The bytes of the symbols; a single symbol left over is refused. *)
Fixpoint base64_pack (l : list Z) : option bytes :=
  match l with
  | [] => Some []
  | s0 :: s1 :: s2 :: s3 :: rest =>
      match base64_pack rest with
      | Some r => Some (base64_byte0 s0 s1 :: base64_byte1 s1 s2 :: base64_byte2 s2 s3 :: r)
      | None => None
      end
  | [s0; s1; s2] => Some [base64_byte0 s0 s1; base64_byte1 s1 s2]
  | [s0; s1] => Some [base64_byte0 s0 s1]
  | [_] => None
  end.

Definition base64_string (url : bool) (l : list Z) : string := foldr (fun v s => String (base64_char url v) s) "" l.

(** The padding that completes a group, given the number of symbols. *)
Definition base64_padding (count : nat) : string :=
  match (count mod 4)%nat with 2%nat => "==" | 3%nat => "=" | _ => "" end.

(** [base64.StdEncoding] and [base64.RawURLEncoding], [EncodeToString]. *)
Definition base64_std_encode (l : bytes) : string :=
  base64_string false (base64_split l) +:+ base64_padding (length (base64_split l)).
Definition base64_url_encode (l : bytes) : string := base64_string true (base64_split l).

(** The text before the padding, when the padding completes the last group and
    ends the text, line breaks apart. *)
Fixpoint drop_line_breaks (s : string) : string :=
  match s with "" => "" | String c r => if line_break c then drop_line_breaks r else String c (drop_line_breaks r) end.

Fixpoint cut_padding (count : nat) (s : string) : option string :=
  match s with
  | "" => if (count mod 4 =? 0)%nat then Some "" else None
  | String c r =>
      if Ascii.eqb c "=" then
        if String.eqb s (base64_padding count) then Some "" else None
      else match cut_padding (S count) r with Some t => Some (String c t) | None => None end
  end.

(** [DecodeString] of both. *)
Definition base64_std_decode (s : string) : option bytes :=
  t ← cut_padding 0 (drop_line_breaks s); l ← symbols (base64_value false) t; base64_pack l.
Definition base64_url_decode (s : string) : option bytes :=
  l ← symbols (base64_value true) s; base64_pack l.

(** ** SHA-1 and HMAC *)

Definition u32 (z : Z) : Z := z mod 2 ^ 32.

(** [bits.RotateLeft32]. *)
Definition rotl (n x : Z) : Z := Z.lor (u32 (Z.shiftl x n)) (Z.shiftr x (32 - n)).

(** The bytes of a number, most significant first. *)
Fixpoint big_endian (n : nat) (z : Z) : bytes :=
  match n with O => [] | S k => u8 (Z.shiftr z (8 * Z.of_nat k)) :: big_endian k z end.

Definition of_big_endian (l : bytes) : Z := foldl (fun acc b => Z.lor (Z.shiftl acc 8) b) 0 l.

Definition sha1_padded (message : bytes) : bytes :=
  let len := length message in
  message ++ [128] ++ replicate ((119 - len mod 64) mod 64)%nat 0 ++ big_endian 8 (8 * Z.of_nat len).

Record sha1_state := Sha1State { h0 : Z; h1 : Z; h2 : Z; h3 : Z; h4 : Z }.

Definition sha1_init : sha1_state := Sha1State 0x67452301 0xEFCDAB89 0x98BADCFE 0x10325476 0xC3D2E1F0.

(** The schedule, latest word first. *)
Fixpoint sha1_expand (n : nat) (w : list Z) : list Z :=
  match n with
  | O => w
  | S k =>
      sha1_expand k (rotl 1 (Z.lxor (Z.lxor (nth 2 w 0) (nth 7 w 0)) (Z.lxor (nth 13 w 0) (nth 15 w 0))) :: w)
  end.

Definition sha1_schedule (block : list Z) : list Z := reverse (sha1_expand 64 (reverse block)).

Definition sha1_f (t : nat) (b c d : Z) : Z :=
  if (t <? 20)%nat then Z.lor (Z.land b c) (Z.land (Z.lxor b (2 ^ 32 - 1)) d)
  else if (t <? 40)%nat then Z.lxor (Z.lxor b c) d
  else if (t <? 60)%nat then Z.lor (Z.lor (Z.land b c) (Z.land b d)) (Z.land c d)
  else Z.lxor (Z.lxor b c) d.

Definition sha1_k (t : nat) : Z :=
  if (t <? 20)%nat then 0x5A827999 else if (t <? 40)%nat then 0x6ED9EBA1
  else if (t <? 60)%nat then 0x8F1BBCDC else 0xCA62C1D6.

Fixpoint sha1_rounds (t : nat) (w : list Z) (s : sha1_state) : sha1_state :=
  match w with
  | [] => s
  | x :: rest =>
      sha1_rounds (S t) rest
        (Sha1State (u32 (rotl 5 (h0 s) + sha1_f t (h1 s) (h2 s) (h3 s) + h4 s + sha1_k t + x)) (h0 s) (rotl 30 (h1 s)) (h2 s) (h3 s))
  end.

Definition sha1_block (s : sha1_state) (block : list Z) : sha1_state :=
  let r := sha1_rounds 0 (sha1_schedule block) s in
  Sha1State (u32 (h0 s + h0 r)) (u32 (h1 s + h1 r)) (u32 (h2 s + h2 r)) (u32 (h3 s + h3 r)) (u32 (h4 s + h4 r)).

(** The words of the bytes, four at a time. *)
Fixpoint words (l : bytes) : list Z :=
  match l with a :: b :: c :: d :: rest => of_big_endian [a; b; c; d] :: words rest | _ => [] end.

(** The blocks of sixteen words; [fuel] is at least their number. *)
Fixpoint sha1_blocks (fuel : nat) (s : sha1_state) (w : list Z) : sha1_state :=
  match fuel, w with
  | S k, _ :: _ => sha1_blocks k (sha1_block s (take 16 w)) (drop 16 w)
  | _, _ => s
  end.

Definition sha1_bytes (s : sha1_state) : bytes :=
  big_endian 4 (h0 s) ++ big_endian 4 (h1 s) ++ big_endian 4 (h2 s) ++ big_endian 4 (h3 s) ++ big_endian 4 (h4 s).

Definition sha1 (message : bytes) : bytes :=
  let w := words (sha1_padded message) in sha1_bytes (sha1_blocks (length w) sha1_init w).

(** [hmac.New(sha1.New, key)], [Write] and [Sum]. *)
Definition hmac_sha1 (key message : bytes) : bytes :=
  let key := if (64 <? length key)%nat then sha1 key else key in
  let key := key ++ replicate (64 - length key) 0 in
  sha1 ((Z.lxor 0x5c <$> key) ++ sha1 ((Z.lxor 0x36 <$> key) ++ message)).

(** Known answers: FIPS 180-1, RFC 2202. *)
Example sha1_abc : sha1 (bytes_of "abc") =
  [0xA9; 0x99; 0x3E; 0x36; 0x47; 0x06; 0x81; 0x6A; 0xBA; 0x3E; 0x25; 0x71; 0x78; 0x50; 0xC2; 0x6C; 0x9C; 0xD0; 0xD8; 0x9D].
Proof. vm_compute. reflexivity. Qed.

Example sha1_two_blocks : take 4 (sha1 (bytes_of "abcdbcdecdefdefgefghfghighijhijkijkljklmklmnlmnomnopnopq")) =
  [0x84; 0x98; 0x3E; 0x44].
Proof. vm_compute. reflexivity. Qed.

Example hmac_jefe : hmac_sha1 (bytes_of "Jefe") (bytes_of "what do ya want for nothing?") =
  [0xef; 0xfc; 0xdf; 0x6a; 0xe5; 0xeb; 0x2f; 0xa2; 0xd2; 0x74; 0x16; 0xd5; 0xf1; 0x84; 0xdf; 0x9c; 0x25; 0x9a; 0x7c; 0x79].
Proof. vm_compute. reflexivity. Qed.

(** ** Lemmas: bytes *)

Lemma byte_of_ascii_range c : byte_range (byte_of_ascii c).
Proof. unfold byte_range, byte_of_ascii. pose proof (N_ascii_bounded c). lia. Qed.

Lemma bytes_of_range s : Forall byte_range (bytes_of s).
Proof. induction s; simpl; constructor; auto using byte_of_ascii_range. Qed.

Lemma ascii_of_byte_of c : ascii_of_byte (byte_of_ascii c) = c.
Proof. unfold ascii_of_byte, byte_of_ascii. by rewrite N2Z.id, ascii_N_embedding. Qed.

Lemma byte_of_ascii_of b : byte_range b -> byte_of_ascii (ascii_of_byte b) = b.
Proof. intros Hb. unfold byte_of_ascii, ascii_of_byte. unfold byte_range in Hb. rewrite N_ascii_embedding by lia. lia. Qed.

Lemma string_of_bytes_of s : string_of (bytes_of s) = s.
Proof. induction s; simpl; [done|]. by rewrite ascii_of_byte_of, IHs. Qed.

Lemma bytes_of_string_of l : Forall byte_range l -> bytes_of (string_of l) = l.
Proof. induction 1; simpl; [done|]. by rewrite byte_of_ascii_of, IHForall. Qed.

Lemma u8_range z : byte_range (u8 z).
Proof. unfold byte_range, u8. by apply Z.mod_pos_bound. Qed.

Lemma big_endian_range n z : Forall byte_range (big_endian n z).
Proof. induction n; simpl; constructor; auto using u8_range. Qed.

Lemma length_big_endian n z : length (big_endian n z) = n.
Proof. induction n; simpl; auto. Qed.

Lemma lor_add a b n : 0 <= n -> 0 <= b < 2 ^ n -> Z.lor (a * 2 ^ n) b = a * 2 ^ n + b.
Proof.
  intros Hn Hb. rewrite <-Z.lxor_lor, Z.add_nocarry_lxor; try done; apply Z.bits_inj'; intros i Hi;
    rewrite Z.land_spec, Z.bits_0, Z.mul_pow2_bits by done;
    (destruct (decide (i < n)); [by rewrite Z.testbit_neg_r by lia|]); apply andb_false_iff; right.
  all: destruct (decide (b = 0)) as [->|]; [by rewrite Z.bits_0|].
  all: apply Z.bits_above_log2; [lia|]; apply Z.log2_lt_pow2; [lia|].
  all: apply Z.lt_le_trans with (2 ^ n); [lia|]; apply Z.pow_le_mono_r; lia.
Qed.

(** ** Lemmas: encodings *)

Definition symbol_range (size v : Z) : Prop := 0 <= v < size.

Lemma lor_disjoint n a b : 0 <= n -> a mod 2 ^ n = 0 -> 0 <= b < 2 ^ n -> Z.lor a b = a + b.
Proof.
  intros Hn Ha Hb. pose proof (Z.pow_pos_nonneg 2 n). rewrite (Z.div_mod a (2 ^ n)) by lia.
  rewrite Ha, Z.add_0_r, Z.mul_comm. by apply lor_add.
Qed.

(** Shifts and masks by arithmetic; the widths of the alternatives, outermost
    first, are given. *)
Ltac arith_bits :=
  unfold u8; rewrite ?Z.shiftl_mul_pow2, ?Z.shiftr_div_pow2 by lia;
  change 31 with (Z.ones 5); change 63 with (Z.ones 6); rewrite ?Z.land_ones by lia;
  repeat match goal with |- context [2 ^ ?k] => let r := eval vm_compute in (2 ^ k) in change (2 ^ k) with r end.

Ltac small_powers :=
  change (2 ^ 1) with 2; change (2 ^ 2) with 4; change (2 ^ 3) with 8; change (2 ^ 4) with 16;
  change (2 ^ 5) with 32; change (2 ^ 6) with 64; change (2 ^ 7) with 128;
  Z.to_euclidean_division_equations; lia.
Ltac disjoint n := rewrite (lor_disjoint n) by small_powers.
Ltac disjoint_inner n := rewrite (lor_disjoint n (_ * _) (_ * _)) by small_powers.

Definition sym0 (a : Z) : Z := a / 8.
Definition sym1 (a b : Z) : Z := a mod 8 * 4 + b / 64.
Definition sym2 (b : Z) : Z := b / 2 mod 32.
Definition sym3 (b c : Z) : Z := b mod 2 * 16 + c / 16.
Definition sym4 (c d : Z) : Z := c mod 16 * 2 + d / 128.
Definition sym5 (d : Z) : Z := d / 4 mod 32.
Definition sym6 (d e : Z) : Z := d mod 4 * 8 + e / 32.

Lemma split32_0 a : Z.shiftr a 3 = sym0 a.
Proof. unfold sym0. by arith_bits. Qed.
Lemma split32_1 a b : byte_range a -> byte_range b -> Z.land (Z.lor (Z.shiftl a 2) (Z.shiftr b 6)) 31 = sym1 a b.
Proof. unfold sym1, byte_range. intros. arith_bits. disjoint 2. Z.to_euclidean_division_equations; lia. Qed.
Lemma split32_2 b : Z.land (Z.shiftr b 1) 31 = sym2 b.
Proof. unfold sym2. by arith_bits. Qed.
Lemma split32_3 b c : byte_range b -> byte_range c -> Z.land (Z.lor (Z.shiftl b 4) (Z.shiftr c 4)) 31 = sym3 b c.
Proof. unfold sym3, byte_range. intros. arith_bits. disjoint 4. Z.to_euclidean_division_equations; lia. Qed.
Lemma split32_4 c d : byte_range c -> byte_range d -> Z.land (Z.lor (Z.shiftl c 1) (Z.shiftr d 7)) 31 = sym4 c d.
Proof. unfold sym4, byte_range. intros. arith_bits. disjoint 1. Z.to_euclidean_division_equations; lia. Qed.
Lemma split32_5 d : Z.land (Z.shiftr d 2) 31 = sym5 d.
Proof. unfold sym5. by arith_bits. Qed.
Lemma split32_6 d e : byte_range d -> byte_range e -> Z.land (Z.lor (Z.shiftl d 3) (Z.shiftr e 5)) 31 = sym6 d e.
Proof. unfold sym6, byte_range. intros. arith_bits. disjoint 3. Z.to_euclidean_division_equations; lia. Qed.
Lemma split32_7 e : Z.land e 31 = e mod 32.
Proof. by arith_bits. Qed.

Lemma pack32_0 a b : byte_range a -> byte_range b -> base32_byte0 (sym0 a) (sym1 a b) = a.
Proof.
  unfold base32_byte0, sym0, sym1, byte_range. intros. arith_bits. disjoint 3. Z.to_euclidean_division_equations; lia.
Qed.
Lemma pack32_1 a b c : byte_range a -> byte_range b -> byte_range c -> base32_byte1 (sym1 a b) (sym2 b) (sym3 b c) = b.
Proof.
  unfold base32_byte1, sym1, sym2, sym3, byte_range. intros. arith_bits. disjoint_inner 6. disjoint 1.
  Z.to_euclidean_division_equations; lia.
Qed.
Lemma pack32_2 b c d : byte_range b -> byte_range c -> byte_range d -> base32_byte2 (sym3 b c) (sym4 c d) = c.
Proof.
  unfold base32_byte2, sym3, sym4, byte_range. intros. arith_bits. disjoint 4. Z.to_euclidean_division_equations; lia.
Qed.
Lemma pack32_3 c d e : byte_range c -> byte_range d -> byte_range e -> base32_byte3 (sym4 c d) (sym5 d) (sym6 d e) = d.
Proof.
  unfold base32_byte3, sym4, sym5, sym6, byte_range. intros. arith_bits. disjoint_inner 7. disjoint 2.
  Z.to_euclidean_division_equations; lia.
Qed.
Lemma pack32_4 d e : byte_range d -> byte_range e -> base32_byte4 (sym6 d e) (e mod 32) = e.
Proof.
  unfold base32_byte4, sym6, byte_range. intros. arith_bits. disjoint 5. Z.to_euclidean_division_equations; lia.
Qed.

(** A last group is read as if zeros followed. *)
Lemma split32_last a : byte_range a ->
  Z.land (Z.shiftl a 2) 31 = sym1 a 0 /\ Z.land (Z.shiftl a 4) 31 = sym3 a 0 /\
  Z.land (Z.shiftl a 1) 31 = sym4 a 0 /\ Z.land (Z.shiftl a 3) 31 = sym6 a 0.
Proof.
  intros Ha. assert (byte_range 0) by done.
  rewrite <-split32_1, <-split32_3, <-split32_4, <-split32_6 by done. by rewrite !Z.shiftr_0_l, !Z.lor_0_r.
Qed.

Ltac sym_range :=
  unfold byte_range, symbol_range, sym0, sym1, sym2, sym3, sym4, sym5, sym6 in *;
  Z.to_euclidean_division_equations; lia.

(** Lists of bytes, five at a time. *)
Lemma bytes_ind5 (P : bytes -> Prop) :
  P [] -> (forall a, P [a]) -> (forall a b, P [a; b]) -> (forall a b c, P [a; b; c]) -> (forall a b c d, P [a; b; c; d]) ->
  (forall a b c d e l, P l -> P (a :: b :: c :: d :: e :: l)) -> forall l, P l.
Proof.
  intros H0 H1 H2 H3 H4 H5. fix IH 1. intros [|a [|b [|c [|d [|e l]]]]]; [apply H0|apply H1|apply H2|apply H3|apply H4|].
  apply H5, IH.
Qed.

Ltac group32 :=
  repeat match goal with H : Forall _ (_ :: _) |- _ => apply Forall_cons in H as [? H] end;
  cbn [base32_split];
  rewrite ?split32_0, ?split32_1, ?split32_2, ?split32_3, ?split32_4, ?split32_5, ?split32_6 by done;
  repeat match goal with
  | H : byte_range ?a |- context [Z.land (Z.shiftl ?a 2) 31] => rewrite (proj1 (split32_last a H))
  | H : byte_range ?a |- context [Z.land (Z.shiftl ?a 4) 31] => rewrite (proj1 (proj2 (split32_last a H)))
  | H : byte_range ?a |- context [Z.land (Z.shiftl ?a 1) 31] => rewrite (proj1 (proj2 (proj2 (split32_last a H))))
  | H : byte_range ?a |- context [Z.land (Z.shiftl ?a 3) 31] => rewrite (proj2 (proj2 (proj2 (split32_last a H))))
  end; rewrite ?split32_7.

Lemma base32_pack_split l : Forall byte_range l -> base32_pack (base32_split l) = l.
Proof.
  assert (byte_range 0) by done.
  induction l as [| | | | |? ? ? ? ? l IH] using bytes_ind5; intros Hl; group32; cbn [base32_pack];
    rewrite ?pack32_0, ?pack32_1, ?pack32_2, ?pack32_3, ?pack32_4 by done; [done..|]. by rewrite IH.
Qed.

Lemma base32_split_range l : Forall byte_range l -> Forall (symbol_range 32) (base32_split l).
Proof.
  assert (byte_range 0) by done.
  induction l as [| | | | |? ? ? ? ? l IH] using bytes_ind5; intros Hl; group32;
    repeat (apply Forall_cons; split); auto; try clear IH Hl; sym_range.
Qed.

(** The text of symbols is read back. *)
Lemma symbols_text value (char : Z -> ascii) size l :
  (forall v, symbol_range size v -> value (char v) = Some v /\ line_break (char v) = false) ->
  Forall (symbol_range size) l -> symbols value (foldr (fun v s => String (char v) s) "" l) = Some l.
Proof.
  intros Hc. induction 1 as [|v l Hv _ IH]; [done|]. cbn [foldr symbols].
  destruct (Hc v Hv) as [-> ->]. by rewrite IH.
Qed.

(** A property of the symbols of an alphabet, checked on each. *)
Lemma symbol_check size (f : Z -> bool) v :
  forallb f (seqZ 0 size) = true -> symbol_range size v -> f v = true.
Proof. intros Hf Hv. rewrite forallb_elem_of in Hf. apply Hf, elem_of_seqZ. unfold symbol_range in Hv. lia. Qed.

Lemma base32_symbol v : symbol_range 32 v -> base32_value (base32_char v) = Some v /\ line_break (base32_char v) = false.
Proof.
  intros Hv.
  apply (symbol_check 32 (fun v => bool_decide (base32_value (base32_char v) = Some v /\ line_break (base32_char v) = false))) in Hv;
    [by apply bool_decide_eq_true in Hv|by vm_compute].
Qed.

Lemma base32_decode_encode l : Forall byte_range l -> base32_decode (base32_encode l) = Some l.
Proof.
  intros Hl. unfold base32_decode, base32_encode.
  rewrite (symbols_text _ _ 32); [|exact base32_symbol|by apply base32_split_range].
  simpl. by rewrite base32_pack_split.
Qed.

(** Base 64. *)
Definition sext0 (a : Z) : Z := a / 4.
Definition sext1 (a b : Z) : Z := a mod 4 * 16 + b / 16.
Definition sext2 (b c : Z) : Z := b mod 16 * 4 + c / 64.

Lemma split64_0 a : Z.shiftr a 2 = sext0 a.
Proof. unfold sext0. by arith_bits. Qed.
Lemma split64_1 a b : byte_range a -> byte_range b -> Z.land (Z.lor (Z.shiftl a 4) (Z.shiftr b 4)) 63 = sext1 a b.
Proof. unfold sext1, byte_range. intros. arith_bits. disjoint 4. Z.to_euclidean_division_equations; lia. Qed.
Lemma split64_2 b c : byte_range b -> byte_range c -> Z.land (Z.lor (Z.shiftl b 2) (Z.shiftr c 6)) 63 = sext2 b c.
Proof. unfold sext2, byte_range. intros. arith_bits. disjoint 2. Z.to_euclidean_division_equations; lia. Qed.
Lemma split64_3 c : Z.land c 63 = c mod 64.
Proof. by arith_bits. Qed.

Lemma split64_last a : byte_range a -> Z.land (Z.shiftl a 4) 63 = sext1 a 0 /\ Z.land (Z.shiftl a 2) 63 = sext2 a 0.
Proof.
  intros Ha. assert (byte_range 0) by done. rewrite <-split64_1, <-split64_2 by done.
  by rewrite !Z.shiftr_0_l, !Z.lor_0_r.
Qed.

Lemma pack64_0 a b : byte_range a -> byte_range b -> base64_byte0 (sext0 a) (sext1 a b) = a.
Proof.
  unfold base64_byte0, sext0, sext1, byte_range. intros. arith_bits. disjoint 2. Z.to_euclidean_division_equations; lia.
Qed.
Lemma pack64_1 a b c : byte_range a -> byte_range b -> byte_range c -> base64_byte1 (sext1 a b) (sext2 b c) = b.
Proof.
  unfold base64_byte1, sext1, sext2, byte_range. intros. arith_bits. disjoint 4. Z.to_euclidean_division_equations; lia.
Qed.
Lemma pack64_2 b c : byte_range b -> byte_range c -> base64_byte2 (sext2 b c) (c mod 64) = c.
Proof.
  unfold base64_byte2, sext2, byte_range. intros. arith_bits. disjoint 6. Z.to_euclidean_division_equations; lia.
Qed.

Lemma bytes_ind3 (P : bytes -> Prop) :
  P [] -> (forall a, P [a]) -> (forall a b, P [a; b]) -> (forall a b c l, P l -> P (a :: b :: c :: l)) -> forall l, P l.
Proof.
  intros H0 H1 H2 H3. fix IH 1. intros [|a [|b [|c l]]]; [apply H0|apply H1|apply H2|]. apply H3, IH.
Qed.

Ltac group64 :=
  repeat match goal with H : Forall _ (_ :: _) |- _ => apply Forall_cons in H as [? H] end;
  cbn [base64_split]; rewrite ?split64_0, ?split64_1, ?split64_2 by done;
  repeat match goal with
  | H : byte_range ?a |- context [Z.land (Z.shiftl ?a 4) 63] => rewrite (proj1 (split64_last a H))
  | H : byte_range ?a |- context [Z.land (Z.shiftl ?a 2) 63] => rewrite (proj2 (split64_last a H))
  end; rewrite ?split64_3.

Lemma base64_pack_split l : Forall byte_range l -> base64_pack (base64_split l) = Some l.
Proof.
  assert (byte_range 0) by done.
  induction l as [| | |? ? ? l IH] using bytes_ind3; intros Hl; group64; cbn [base64_pack];
    rewrite ?pack64_0, ?pack64_1, ?pack64_2 by done; [done..|]. by rewrite IH.
Qed.

Lemma base64_split_range l : Forall byte_range l -> Forall (symbol_range 64) (base64_split l).
Proof.
  assert (byte_range 0) by done.
  induction l as [| | |? ? ? l IH] using bytes_ind3; intros Hl; group64;
    repeat (apply Forall_cons; split); auto; try clear IH Hl;
    unfold byte_range, symbol_range, sext0, sext1, sext2 in *; Z.to_euclidean_division_equations; lia.
Qed.

Lemma base64_symbol url v : symbol_range 64 v ->
  base64_value url (base64_char url v) = Some v /\ line_break (base64_char url v) = false.
Proof.
  intros Hv.
  apply (symbol_check 64 (fun v => bool_decide (forall url, base64_value url (base64_char url v) = Some v /\
    line_break (base64_char url v) = false))) in Hv; [by apply bool_decide_eq_true in Hv|by vm_compute].
Qed.

Lemma base64_url_decode_encode l : Forall byte_range l -> base64_url_decode (base64_url_encode l) = Some l.
Proof.
  intros Hl. unfold base64_url_decode, base64_url_encode, base64_string.
  rewrite (symbols_text _ _ 64); [|exact (base64_symbol true)|by apply base64_split_range]. by apply base64_pack_split.
Qed.

Lemma base64_char_plain v : symbol_range 64 v ->
  Ascii.eqb (base64_char false v) "=" = false /\ line_break (base64_char false v) = false /\
  solid (base64_char false v) = true.
Proof.
  intros Hv. apply (symbol_check 64 (fun v => bool_decide (Ascii.eqb (base64_char false v) "=" = false /\
    line_break (base64_char false v) = false /\ solid (base64_char false v) = true))) in Hv;
    [by apply bool_decide_eq_true in Hv|by vm_compute].
Qed.

Lemma cut_padding_text l count :
  Forall (symbol_range 64) l -> ((count + length l) mod 4 <> 1)%nat ->
  cut_padding count (base64_string false l +:+ base64_padding (count + length l)) = Some (base64_string false l).
Proof.
  intros Hl. revert count. induction Hl as [|v l Hv _ IH]; intros count Hc.
  - rewrite Nat.add_0_r in *. unfold base64_string. cbn [foldr String.append length].
    assert (base64_padding count = "" /\ (count mod 4 = 0)%nat \/ base64_padding count = "=" \/ base64_padding count = "==")
      as [[Hp Hm]|[Hp|Hp]].
    { unfold base64_padding. pose proof (Nat.mod_upper_bound count 4).
      destruct (count mod 4)%nat as [|[|[|[|n]]]] eqn:Hm; auto; lia. }
    all: rewrite Hp; change ("" +:+ ?s) with s; cbn [cut_padding Ascii.eqb Bool.eqb]; rewrite ?Hp, ?Hm; done.
  - unfold base64_string in *. cbn [foldr length] in *. rewrite Nat.add_succ_r in *.
    change (String ?c ?s +:+ ?t) with (String c (s +:+ t)). cbn [cut_padding]. destruct (base64_char_plain v Hv) as (-> & _ & _).
    by rewrite <-Nat.add_succ_l, IH.
Qed.

Lemma length_base64_split l : (length (base64_split l) mod 4 <> 1)%nat.
Proof.
  induction l as [| | |? ? ? l IH] using bytes_ind3; [done..|]. cbn [base64_split length].
  replace (S (S (S (S (length (base64_split l)))))) with (length (base64_split l) + 1 * 4)%nat by lia.
  by rewrite Nat.Div0.mod_add.
Qed.

(** The characters of an encoded text. *)
Lemma base64_solid l : Forall byte_range l -> all_solid (base64_std_encode l).
Proof.
  intros Hl%base64_split_range c. unfold base64_std_encode. rewrite chars_app, elem_of_app. intros [Hc|Hc].
  - unfold base64_string in Hc. induction Hl as [|v l' Hv _ IH]; [by apply not_elem_of_nil in Hc|].
    cbn [foldr chars] in Hc. apply elem_of_cons in Hc as [->|Hc]; [by apply base64_char_plain|auto].
  - unfold base64_padding in Hc. destruct (_ mod 4)%nat as [|[|[|[|]]]]; simpl in Hc; set_solver.
Qed.

Lemma drop_line_breaks_id s : (forall c, c ∈ chars s -> line_break c = false) -> drop_line_breaks s = s.
Proof.
  induction s as [|c s IH]; intros Hs; [done|]. cbn [drop_line_breaks].
  rewrite Hs by (simpl; left). rewrite IH; [done|]. intros d Hd. apply Hs. simpl. by right.
Qed.

Lemma solid_no_break c : solid c = true -> line_break c = false.
Proof. destruct c as [[] [] [] [] [] [] [] []]; by vm_compute. Qed.

Lemma base64_std_decode_encode l : Forall byte_range l -> base64_std_decode (base64_std_encode l) = Some l.
Proof.
  intros Hl. unfold base64_std_decode.
  rewrite drop_line_breaks_id by (intros; by eapply solid_no_break, base64_solid).
  unfold base64_std_encode. pose proof (cut_padding_text (base64_split l) 0) as Hcut. rewrite Nat.add_0_l in Hcut.
  rewrite Hcut by auto using base64_split_range, length_base64_split. simpl. unfold base64_string.
  rewrite (symbols_text _ _ 64); [|exact (base64_symbol false)|by apply base64_split_range]. by apply base64_pack_split.
Qed.

(** The text of base 32 is in upper case and has no white space. *)
Lemma base32_char_plain v : symbol_range 32 v ->
  solid (base32_char v) = true /\ upper_ascii (base32_char v) = base32_char v /\
  Ascii.eqb (base32_char v) "196" = false /\ Ascii.eqb (base32_char v) "197" = false /\ base32_char v <> "-"%char.
Proof.
  intros Hv. apply (symbol_check 32 (fun v => bool_decide (solid (base32_char v) = true /\
    upper_ascii (base32_char v) = base32_char v /\ Ascii.eqb (base32_char v) "196" = false /\
    Ascii.eqb (base32_char v) "197" = false /\ base32_char v <> "-"%char))) in Hv;
    [by apply bool_decide_eq_true in Hv|by vm_compute].
Qed.

Definition base32_string (l : list Z) : string := foldr (fun v s => String (base32_char v) s) "" l.

Lemma base32_chars l c : Forall (symbol_range 32) l -> c ∈ chars (base32_string l) -> exists v, symbol_range 32 v /\ c = base32_char v.
Proof.
  induction 1 as [|v l Hv _ IH]; [by intros ?%not_elem_of_nil|]. cbn [base32_string foldr chars].
  intros [->|Hc]%elem_of_cons; [by exists v|auto].
Qed.

Lemma base32_solid l : Forall byte_range l -> all_solid (base32_encode l).
Proof. intros Hl c Hc. apply base32_chars in Hc as (v & Hv & ->); [by apply base32_char_plain|by apply base32_split_range]. Qed.

Lemma ToUpper_base32 l : Forall (symbol_range 32) l -> ToUpper (base32_string l) = base32_string l.
Proof.
  induction 1 as [|v l Hv Hl IH]; [done|]. cbn [base32_string foldr]. fold (base32_string l). cbn [ToUpper].
  destruct (base32_char_plain v Hv) as (_ & -> & -> & -> & _). simpl. rewrite IH.
  by destruct (base32_string l).
Qed.

(** ** Lemmas: digests *)

Lemma length_sha1 message : length (sha1 message) = 20%nat.
Proof. unfold sha1, sha1_bytes. by rewrite !length_app, !length_big_endian. Qed.

Lemma sha1_range message : Forall byte_range (sha1 message).
Proof. unfold sha1, sha1_bytes. rewrite !Forall_app. auto using big_endian_range. Qed.

Lemma length_hmac_sha1 key message : length (hmac_sha1 key message) = 20%nat.
Proof. apply length_sha1. Qed.

Lemma hmac_sha1_range key message : Forall byte_range (hmac_sha1 key message).
Proof. apply sha1_range. Qed.

(** ** Lemmas: trimming *)

(** Nothing is trimmed from a text that starts and ends with a solid character. *)
Lemma TrimSpace_ends c r s d : solid c = true -> solid d = true -> String c r = s +:+ String d "" -> TrimSpace (String c r) = String c r.
Proof.
  intros Hc Hd Hs. unfold TrimSpace, trim_left.
  rewrite drop_spaces_solid by auto using solid_space2, solid_space3. rewrite Hs. unfold trim_right.
  assert (String.rev (s +:+ String d "") = String d (String.rev s)) as ->.
  { apply chars_inj. rewrite chars_rev, chars_app, reverse_app. cbn [chars]. by rewrite chars_rev. }
  rewrite drop_spaces_solid by auto using solid_space2, solid_space3.
  apply chars_inj. rewrite chars_rev. cbn [chars]. by rewrite reverse_cons, chars_rev, reverse_involutive, chars_app.
Qed.

Lemma string_last s : s <> "" -> exists r d, s = r +:+ String d "" /\ d ∈ chars s.
Proof.
  induction s as [|c s IH]; [done|]. intros _. destruct s as [|c' s'].
  - exists "", c. split; [done|]. simpl. set_solver.
  - destruct IH as (r & d & Hr & Hd); [done|]. exists (String c r), d.
    change (String c r +:+ ?t) with (String c (r +:+ t)). rewrite <-Hr. split; [done|]. cbn [chars] in *. by right.
Qed.

Lemma cat_assoc a b c : (a +:+ b) +:+ c = a +:+ (b +:+ c).
Proof. apply chars_inj. rewrite !chars_app. by rewrite (assoc_L (++)). Qed.

Lemma strip_prefix_app p s : strip_prefix p (p +:+ s) = Some s.
Proof. induction p as [|c p IH]; [done|]. change (String c p +:+ s) with (String c (p +:+ s)). simpl. by rewrite Ascii.eqb_refl. Qed.
