(* ===== verification/GoSha256.v ===== *)
(** * More of Go's library, for the identity provider

    [crypto/sha256], [strings.Fields], [strings.TrimRight] and
    [strconv.ParseInt], with the lemmas that a list of words survives
    [strings.Join] and [strings.Fields]. *)

From Stdlib Require Import Ascii.
From S2P Require Import Prelude GoStrings NetIP GoCrypto.

Open Scope Z_scope.

(** ** SHA-256 *)

Definition rotr (n x : Z) : Z := Z.lor (Z.shiftr x n) (u32 (Z.shiftl x (32 - n))).

(** The constants are the first 32 bits of the fractional parts of the cube
    roots of the first 64 primes, and of the square roots of the first eight. *)
Definition prime (n : Z) : bool := forallb (fun d => negb (n mod d =? 0)) (seqZ 2 (n - 2)).
Definition first_primes : list Z := Eval vm_compute in filter (fun n => prime n = true) (seqZ 2 310).

(** The cube root of [x], [bits] binary digits below [root]. *)
Fixpoint cube_root (bits : nat) (root x : Z) : Z :=
  match bits with
  | O => root
  | S k => let next := root + 2 ^ Z.of_nat k in cube_root k (if next ^ 3 <=? x then next else root) x
  end.

Definition sha256_k : list Z := Eval vm_compute in (fun p => u32 (cube_root 36 0 (p * 2 ^ 96))) <$> first_primes.

Record sha256_state := Sha256State { r0 : Z; r1 : Z; r2 : Z; r3 : Z; r4 : Z; r5 : Z; r6 : Z; r7 : Z }.

Definition sha256_init : sha256_state := Eval vm_compute in
  let h i := u32 (Z.sqrt (nth i first_primes 0 * 2 ^ 64)) in Sha256State (h 0%nat) (h 1%nat) (h 2%nat) (h 3%nat) (h 4%nat) (h 5%nat) (h 6%nat) (h 7%nat).

(** The schedule, latest word first. *)
Fixpoint sha256_expand (n : nat) (w : list Z) : list Z :=
  match n with
  | O => w
  | S k =>
      let a := nth 1 w 0 in
      let b := nth 14 w 0 in
      let s1 := Z.lxor (Z.lxor (rotr 17 a) (rotr 19 a)) (Z.shiftr a 10) in
      let s0 := Z.lxor (Z.lxor (rotr 7 b) (rotr 18 b)) (Z.shiftr b 3) in
      sha256_expand k (u32 (s1 + nth 6 w 0 + s0 + nth 15 w 0) :: w)
  end.

Definition sha256_schedule (block : list Z) : list Z := reverse (sha256_expand 48 (reverse block)).

Fixpoint sha256_rounds (k w : list Z) (s : sha256_state) : sha256_state :=
  match k, w with
  | c :: k, x :: w =>
      let '(Sha256State a b cc d e f g h) := s in
      let t1 := u32 (h + Z.lxor (Z.lxor (rotr 6 e) (rotr 11 e)) (rotr 25 e) +
        Z.lxor (Z.land e f) (Z.land (Z.lxor e (2 ^ 32 - 1)) g) + c + x) in
      let t2 := u32 (Z.lxor (Z.lxor (rotr 2 a) (rotr 13 a)) (rotr 22 a) +
        Z.lxor (Z.lxor (Z.land a b) (Z.land a cc)) (Z.land b cc)) in
      sha256_rounds k w (Sha256State (u32 (t1 + t2)) a b cc (u32 (d + t1)) e f g)
  | _, _ => s
  end.

Definition sha256_block (s : sha256_state) (block : list Z) : sha256_state :=
  let r := sha256_rounds sha256_k (sha256_schedule block) s in
  Sha256State (u32 (r0 s + r0 r)) (u32 (r1 s + r1 r)) (u32 (r2 s + r2 r)) (u32 (r3 s + r3 r))
    (u32 (r4 s + r4 r)) (u32 (r5 s + r5 r)) (u32 (r6 s + r6 r)) (u32 (r7 s + r7 r)).

(** The blocks of sixteen words; [fuel] is at least their number. *)
Fixpoint sha256_blocks (fuel : nat) (s : sha256_state) (w : list Z) : sha256_state :=
  match fuel, w with
  | S k, _ :: _ => sha256_blocks k (sha256_block s (take 16 w)) (drop 16 w)
  | _, _ => s
  end.

Definition sha256_bytes (s : sha256_state) : bytes :=
  big_endian 4 (r0 s) ++ big_endian 4 (r1 s) ++ big_endian 4 (r2 s) ++ big_endian 4 (r3 s) ++
  big_endian 4 (r4 s) ++ big_endian 4 (r5 s) ++ big_endian 4 (r6 s) ++ big_endian 4 (r7 s).

(** The padding is that of SHA-1. *)
Definition sha256 (message : bytes) : bytes :=
  let w := words (sha1_padded message) in sha256_bytes (sha256_blocks (length w) sha256_init w).

(** Known answers: FIPS 180-4, and the challenge of RFC 7636. *)
Example sha256_abc : sha256 (bytes_of "abc") =
  [0xba; 0x78; 0x16; 0xbf; 0x8f; 0x01; 0xcf; 0xea; 0x41; 0x41; 0x40; 0xde; 0x5d; 0xae; 0x22; 0x23;
   0xb0; 0x03; 0x61; 0xa3; 0x96; 0x17; 0x7a; 0x9c; 0xb4; 0x10; 0xff; 0x61; 0xf2; 0x00; 0x15; 0xad].
Proof. vm_compute. reflexivity. Qed.

Example sha256_two_blocks : take 4 (sha256 (bytes_of "abcdbcdecdefdefgefghfghighijhijkijkljklmklmnlmnomnopnopq")) =
  [0x24; 0x8d; 0x6a; 0x61].
Proof. vm_compute. reflexivity. Qed.

Example sha256_challenge :
  base64_url_encode (sha256 (bytes_of "dBjftJeZ4CVP-mB92K27uhbUJU1p1r_wW1gFWFOEjXk")) = "E9Melhoa2OwvFrEMTJguCHaoeK1t8URWbuGJSstw-cM".
Proof. vm_compute. reflexivity. Qed.

Lemma length_sha256 message : length (sha256 message) = 32%nat.
Proof. unfold sha256, sha256_bytes. by rewrite !length_app, !length_big_endian. Qed.

Lemma sha256_range message : Forall byte_range (sha256 message).
Proof. unfold sha256, sha256_bytes. rewrite !Forall_app. auto 10 using big_endian_range. Qed.

(** ** Words *)

(** The width of the white space at the start of a text, 0 when there is none. *)
Definition space_width (s : string) : nat :=
  match s with
  | "" => 0
  | String c rest =>
      if space1 c then 1
      else match rest with
      | "" => 0
      | String d rest =>
          if space2 c d then 2
          else match rest with String e _ => if space3 c d e then 3 else 0 | "" => 0 end
      end
  end.

Definition word (acc : string) : list string := if str_empty acc then [] else [String.rev acc].

(** The words of a text: [acc] is the current one, last character first. *)
Fixpoint fields_from (skip : nat) (acc s : string) : list string :=
  match s with
  | "" => word acc
  | String c rest =>
      match skip with
      | S k => fields_from k acc rest
      | O => match space_width s with
             | O => fields_from 0 (String c acc) rest
             | S k => word acc ++ fields_from k "" rest
             end
      end
  end.

Definition Fields (s : string) : list string := fields_from 0 "" s.

(** [strings.TrimRight] with one character. *)
Definition TrimRight_char (s : string) (c : ascii) : string := String.rev (drop_chars [c] (String.rev s)).

(** ** [strconv.ParseInt] with base 10 and 64 bits *)
Definition ParseInt (s : string) : option Z :=
  let unsigned (digits : string) : option Z := if str_empty digits then None else digits_value 0 digits in
  v ← match s with
    | String c rest => if Ascii.eqb c "+" then unsigned rest else if Ascii.eqb c "-" then Z.opp <$> unsigned rest else unsigned s
    | "" => None
    end;
  if (- 2 ^ 63 <=? v) && (v <? 2 ^ 63) then Some v else None.

(** ** Lemmas: words *)

(** A text without white space, also when a space follows it. *)
Fixpoint tight (s : string) : Prop :=
  match s with "" => True | String _ rest => space_width (s +:+ " ") = 0%nat /\ tight rest end.

Lemma space2_space c : space2 c " " = false.
Proof. destruct c as [[] [] [] [] [] [] [] []]; reflexivity. Qed.

Lemma space3_space_2 c e : space3 c " " e = false.
Proof.
  unfold space3. change (Ascii.eqb " " "154") with false. change (Ascii.eqb " " "128") with false.
  change (Ascii.eqb " " "129") with false. by rewrite !andb_false_r.
Qed.

Lemma space3_space_3 c d : space3 c d " " = false.
Proof.
  unfold space3. change (Ascii.eqb " " "128") with false. change (nat_of_ascii " ") with 32%nat.
  cbn [Nat.leb Nat.eqb andb orb]. by rewrite !andb_false_r.
Qed.

Lemma append_String c s t : String c s +:+ t = String c (s +:+ t).
Proof. done. Qed.

Lemma append_empty t : "" +:+ t = t.
Proof. done. Qed.

(** What follows a text matters to its first white space only through what
    follows a space. *)
Lemma space_width_space c s t : space_width (String c s +:+ String " " t) = space_width (String c s +:+ " ").
Proof.
  destruct s as [|d [|e s]]; rewrite ?append_String, ?append_empty; cbn [space_width]; [| |done].
  - destruct (space1 c); [done|]. rewrite space2_space. destruct t; [done|]. by rewrite space3_space_2.
  - done.
Qed.

Lemma space_width_weaken c s u : space_width (String c s +:+ u) = 0%nat -> space_width (String c s +:+ " ") = 0%nat.
Proof.
  destruct s as [|d [|e s]]; rewrite ?append_String, ?append_empty; cbn [space_width]; [| |done].
  - destruct (space1 c); [done|]. by rewrite space2_space.
  - destruct (space1 c), (space2 c d); try done. by rewrite space3_space_3.
Qed.

Lemma space_width_end c s : space_width (String c s +:+ " ") = 0%nat -> space_width (String c s) = 0%nat.
Proof.
  destruct s as [|d [|e s]]; rewrite ?append_String, ?append_empty; cbn [space_width]; [| |done].
  - by destruct (space1 c).
  - by destruct (space1 c), (space2 c d).
Qed.

Lemma fields_tight w : forall acc, tight w -> fields_from 0 acc w = word (String.rev_app w acc).
Proof.
  induction w as [|c w IH]; intros acc; [done|]. cbn [tight]. intros [Hw Ht].
  cbn [fields_from]. rewrite (space_width_end c w Hw). by rewrite IH.
Qed.

Lemma fields_tight_space w t : forall acc, tight w -> fields_from 0 acc (w +:+ String " " t) = word (String.rev_app w acc) ++ Fields t.
Proof.
  induction w as [|c w IH]; intros acc; [done|]. cbn [tight]. intros [Hw Ht].
  change (String c w +:+ String " " t) with (String c (w +:+ String " " t)). cbn [fields_from].
  change (String c (w +:+ String " " t)) with (String c w +:+ String " " t).
  rewrite space_width_space, Hw. by rewrite IH.
Qed.

Lemma word_rev w : w <> "" -> word (String.rev w) = [w].
Proof.
  intros Hw. unfold word, str_empty. destruct (String.eqb_spec (String.rev w) "") as [He|He].
  - destruct Hw. by rewrite <-(rev_involutive w), He.
  - by rewrite rev_involutive.
Qed.

(** The words that are joined with spaces are found again. *)
Lemma Fields_Join l : Forall (fun w => w <> "" /\ tight w) l -> Fields (Join l " ") = l.
Proof.
  induction 1 as [|w l [Hne Hw] Hl IH]; [done|]. destruct l as [|v l].
  - cbn [Join]. unfold Fields. rewrite fields_tight by done. by apply word_rev.
  - change (Join (w :: v :: l) " ") with (w +:+ " " +:+ Join (v :: l) " "). unfold Fields at 1.
    change (" " +:+ Join (v :: l) " ") with (String " " (Join (v :: l) " ")).
    rewrite fields_tight_space, IH by done. change (String.rev_app w "") with (String.rev w). by rewrite (word_rev w Hne).
Qed.

(** Every word of a text is not empty and has no white space. *)
Lemma word_words acc w s : w ∈ word acc ->
  (forall u c v, String.rev acc = u +:+ String c v -> space_width (String c v +:+ s) = 0%nat) -> w <> "" /\ tight w.
Proof.
  unfold word, str_empty. destruct (String.eqb_spec acc ""); [by intros ?%not_elem_of_nil|]. intros ->%list_elem_of_singleton Hacc.
  split; [intros He; apply n; by rewrite <-(rev_involutive acc), He|].
  revert Hacc. generalize (String.rev acc). clear. intros w. induction w as [|c w IH]; intros Hw; [done|]. cbn [tight]. split.
  - apply (space_width_weaken c w s). by apply (Hw "").
  - apply IH. intros u d v ->. by apply (Hw (String c u)).
Qed.

Lemma rev_String c acc : String.rev (String c acc) = String.rev acc +:+ String c "".
Proof. apply chars_inj. rewrite chars_app, !chars_rev. cbn [chars]. by rewrite reverse_cons. Qed.

Lemma app_single_inv p c u d v : p +:+ String c "" = u +:+ String d v ->
  (v = "" /\ d = c /\ p = u) \/ exists v', v = v' +:+ String c "" /\ p = u +:+ String d v'.
Proof.
  revert u. induction p as [|x p IH]; intros [|y u]; cbn.
  - intros [= <- <-]. auto.
  - destruct u; done.
  - intros [= <- <-]. right. eauto.
  - intros [= <- He]. apply IH in He as [(-> & -> & ->)|(v' & -> & ->)]; [auto|right; eauto].
Qed.

Lemma fields_words s : forall skip acc w, w ∈ fields_from skip acc s ->
  (forall u c v, String.rev acc = u +:+ String c v -> space_width (String c v +:+ s) = 0%nat) -> (skip = 0%nat \/ acc = "") -> w <> "" /\ tight w.
Proof.
  induction s as [|c s IH]; intros skip acc w; cbn [fields_from]; [intros Hw Hacc _; by eapply word_words|].
  destruct skip as [|k].
  - destruct (space_width (String c s)) as [|k] eqn:Hsp.
    + intros Hw Hacc _. eapply IH; [exact Hw| |by left]. intros u d v. rewrite rev_String.
      intros [(-> & -> & _)|(v' & -> & Hr)]%app_single_inv; [exact Hsp|].
      specialize (Hacc u d v' Hr). change (String d (v' +:+ String c "")) with (String d v' +:+ String c ""). by rewrite cat_assoc.
    + rewrite elem_of_app. intros [Hw|Hw] Hacc _; [by eapply word_words|]. eapply IH; [exact Hw| |by right]. intros [|] ? ?; done.
  - intros Hw Hacc [?| ->]; [done|]. eapply IH; [exact Hw| |by right]. intros [|] ? ?; done.
Qed.

Lemma Fields_words s w : w ∈ Fields s -> w <> "" /\ tight w.
Proof. intros Hw. eapply fields_words; [exact Hw| |by left]. intros [|] ? ?; done. Qed.
