(* ===== verification/Totp.v ===== *)
(** * Multi-factor authentication: time-based codes

    The time-based one-time passwords of [application/mfa/totp.go], down to
    HMAC-SHA1, and the recovery codes of [application/mfa/service.go]. A slice
    out of range is a panic: [None]. *)

From Stdlib Require Import Ascii.
From S2P Require Import Prelude GoStrings GoCrypto.

Open Scope Z_scope.

Definition totpPeriod : Z := 30.
Definition totpDigits : nat := 6.

(** ** Secrets *)

(** [rand.Read] of a buffer of the given length gives its bytes or an error. *)
Definition newTOTPSecret (random : result bytes) : result string :=
  let* raw := map_err (wrapf "generate TOTP secret") random in Ok (base32_encode raw).

(** [net/url]: the bytes that a path segment and a query keep. *)
Definition hex_digit (v : Z) : ascii := ascii_of_byte (if v <? 10 then 48 + v else 55 + v).

Definition percent (c : ascii) (rest : string) : string :=
  let b := byte_of_ascii c in String "%" (String (hex_digit (b / 16)) (String (hex_digit (b mod 16)) rest)).

Definition unreserved (c : ascii) : bool :=
  let b := byte_of_ascii c in
  ((65 <=? b) && (b <=? 90) || (97 <=? b) && (b <=? 122) || (48 <=? b) && (b <=? 57) ||
   existsb (Ascii.eqb c) ["-"; "_"; "."; "~"]%char)%bool.

Fixpoint PathEscape (s : string) : string :=
  match s with
  | "" => ""
  | String c r =>
      if (unreserved c || existsb (Ascii.eqb c) ["$"; "&"; "+"; ":"; "="; "@"]%char)%bool
      then String c (PathEscape r) else percent c (PathEscape r)
  end.

Fixpoint QueryEscape (s : string) : string :=
  match s with
  | "" => ""
  | String c r =>
      if Ascii.eqb c " " then String "+" (QueryEscape r)
      else if unreserved c then String c (QueryEscape r) else percent c (QueryEscape r)
  end.

(** [url.Values.Encode] sorts the keys. *)
Definition provisioningURI (issuer account secret : string) : string :=
  "otpauth://totp/" +:+ PathEscape (TrimSpace issuer +:+ ":" +:+ TrimSpace account) +:+ "?algorithm=SHA1&digits=6&issuer=" +:+
  QueryEscape (TrimSpace issuer) +:+ "&period=30&secret=" +:+ QueryEscape secret.

(** ** Codes *)

(** [l[lo:hi]]. *)
Definition slice {A} (l : list A) (lo hi : nat) : option (list A) :=
  if ((lo <=? hi)%nat && (hi <=? length l)%nat)%bool then Some (take (hi - lo) (drop lo l)) else None.

Definition totpCode (secret : string) (counter : Z) : option (result string) :=
  match base32_decode (ToUpper (TrimSpace secret)) with
  | None => Some (Err (mk_error ErrOther "illegal base32 data"))
  | Some key =>
      let message := big_endian 8 (counter mod 2 ^ 64) in
      let digest := hmac_sha1 key message in
      last ← digest !! (length digest - 1)%nat;
      let offset := Z.to_nat (Z.land last 0x0f) in
      four ← slice digest offset (offset + 4);
      let value := Z.land (of_big_endian four) 0x7fffffff in
      Some (Ok (zero_padded totpDigits (value mod 1000000)))
  end.

Definition is_digit (c : ascii) : bool := ((48 <=? byte_of_ascii c) && (byte_of_ascii c <=? 57))%bool.

(** [time.Time.Unix] of a time in nanoseconds. *)
Definition unix (now : Z) : Z := now / 1000000000.

(** The loop over the steps of the clock, up to the first code that agrees. *)
Fixpoint any_step (secret code : string) (counter : Z) (offsets : list Z) : option bool :=
  match offsets with
  | [] => Some false
  | offset :: rest =>
      candidate ← totpCode secret (wrap64 (counter + offset));
      match candidate with
      | Ok candidate => if String.eqb candidate code then Some true else any_step secret code counter rest
      | Err _ => any_step secret code counter rest
      end
  end.

Definition verifyTOTP (secret code : string) (now : Z) : option bool :=
  let code := TrimSpace code in
  if negb (String.length code =? totpDigits)%nat then Some false
  else if negb (forallb is_digit (chars code)) then Some false
  else any_step secret code (Z.quot (unix now) totpPeriod) [-1; 0; 1].

(** The vector of RFC 6238 that the test suite uses. *)
Definition rfc_secret : string := "GEZDGNBVGY3TQOJQGEZDGNBVGY3TQOJQ".

Example totp_rfc6238 : totpCode rfc_secret (Z.quot 59 totpPeriod) = Some (Ok "287082").
Proof. vm_compute. reflexivity. Qed.
Example totp_rfc6238_accepted : verifyTOTP rfc_secret "287082" (59 * 1000000000) = Some true.
Proof. vm_compute. reflexivity. Qed.
Example totp_rfc6238_late : verifyTOTP rfc_secret "287082" ((59 + 2 * totpPeriod) * 1000000000) = Some false.
Proof. vm_compute. reflexivity. Qed.

(** ** Recovery codes *)

Definition newRecoveryCode (random : result bytes) : result string :=
  let* raw := map_err (wrapf "generate recovery code") random in
  let encoded := base32_encode raw in
  Ok (String.substring 0 8 encoded +:+ "-" +:+ String.substring 8 (String.length encoded - 8) encoded).

(** [strings.ReplaceAll(s, "-", "")]. *)
Fixpoint drop_dashes (s : string) : string :=
  match s with "" => "" | String c r => if Ascii.eqb c "-" then drop_dashes r else String c (drop_dashes r) end.

Definition normalizeRecoveryCode (value : string) : string := ToUpper (drop_dashes (TrimSpace value)).

(** ** Lemmas: decimals *)

(** The number that a numeral denotes. *)
Fixpoint decimal (s : string) : Z :=
  match s with "" => 0 | String c r => (byte_of_ascii c - 48) * 10 ^ Z.of_nat (String.length r) + decimal r end.

Lemma zero_padded_high w k m d : (w <= k)%nat -> zero_padded w (m + d * 10 ^ Z.of_nat k) = zero_padded w m.
Proof.
  induction w as [|w IH]; intros Hk; [done|]. cbn [zero_padded]. rewrite IH by lia. do 2 f_equal.
  replace (10 ^ Z.of_nat k) with (10 ^ Z.of_nat (k - S w) * 10 * 10 ^ Z.of_nat w); cycle 1.
  { rewrite <-(Z.mul_assoc _ 10), <-(Z.pow_succ_r 10 (Z.of_nat w)), <-Z.pow_add_r by lia. f_equal. lia. }
  rewrite !Z.mul_assoc, Z.div_add by (apply Z.pow_nonzero; lia). by rewrite Z.mod_add.
Qed.

Lemma decimal_range s : forallb is_digit (chars s) = true -> 0 <= decimal s < 10 ^ Z.of_nat (String.length s).
Proof.
  induction s as [|c s IH]; [done|]. cbn [chars forallb decimal String.length]. intros [Hc Hs]%andb_true_iff.
  specialize (IH Hs). unfold is_digit in Hc. rewrite andb_true_iff, !Z.leb_le in Hc.
  rewrite Nat2Z.inj_succ, Z.pow_succ_r by lia. nia.
Qed.

(** The digits of a numeral of the given width are the padded ones. *)
Lemma zero_padded_decimal s : forallb is_digit (chars s) = true -> zero_padded (String.length s) (decimal s) = s.
Proof.
  induction s as [|c s IH]; [done|]. cbn [chars forallb decimal String.length zero_padded]. intros [Hc Hs]%andb_true_iff.
  rewrite (Z.add_comm (_ * _)), zero_padded_high, IH by done. f_equal. pose proof (decimal_range s Hs) as Hr.
  rewrite Z.div_add, Z.div_small, Z.add_0_l by lia. unfold is_digit in Hc. rewrite andb_true_iff, !Z.leb_le in Hc.
  rewrite Z.mod_small by lia. replace (48 + (byte_of_ascii c - 48)) with (byte_of_ascii c) by lia. apply ascii_of_byte_of.
Qed.

Lemma zero_padded_digits w n :
  String.length (zero_padded w n) = w /\ forallb is_digit (chars (zero_padded w n)) = true.
Proof.
  induction w as [|w [IHl IHd]]; [done|]. cbn [zero_padded String.length chars forallb]. rewrite IHl, IHd, andb_true_r.
  split; [done|]. pose proof (Z.mod_pos_bound (n / 10 ^ Z.of_nat w) 10). unfold is_digit.
  rewrite byte_of_ascii_of by (unfold byte_range; lia). apply andb_true_iff. rewrite !Z.leb_le. lia.
Qed.

Lemma decimal_zero_padded w n : 0 <= n < 10 ^ Z.of_nat w -> decimal (zero_padded w n) = n.
Proof.
  revert n. induction w as [|w IH]; intros n Hn; [simpl in *; lia|]. cbn [zero_padded decimal].
  destruct (zero_padded_digits w n) as [-> _]. rewrite Nat2Z.inj_succ, Z.pow_succ_r in Hn by lia.
  pose proof (Z.pow_pos_nonneg 10 (Z.of_nat w) ltac:(lia) ltac:(lia)) as Hp.
  assert (n / 10 ^ Z.of_nat w < 10) by (apply Z.div_lt_upper_bound; lia).
  pose proof (Z.div_pos n (10 ^ Z.of_nat w)).
  rewrite byte_of_ascii_of, Z.mod_small by (unfold byte_range; rewrite ?Z.mod_small; lia).
  rewrite (Z.div_mod n (10 ^ Z.of_nat w)) at 2 by lia.
  rewrite (Z.add_comm (10 ^ _ * _)), (Z.mul_comm (10 ^ _)), zero_padded_high by done.
  rewrite IH by (by apply Z.mod_pos_bound). rewrite (Z.div_mod n (10 ^ Z.of_nat w)) at 3 by lia. lia.
Qed.

(** ** Lemmas: codes *)

(** The value of RFC 4226: 31 bits of the digest, at the place its last four
    bits give, modulo a million. *)
Definition hotp (key : bytes) (counter : Z) : Z :=
  let digest := hmac_sha1 key (big_endian 8 counter) in
  let byte i := nth i digest 0 in
  let place := Z.to_nat (byte 19%nat mod 16) in
  ((byte place mod 2 ^ 7) * 2 ^ 24 + byte (place + 1)%nat * 2 ^ 16 + byte (place + 2)%nat * 2 ^ 8 + byte (place + 3)%nat)
  mod 10 ^ 6.

Lemma four_bytes (l : bytes) i : (i + 4 <= length l)%nat ->
  take 4 (drop i l) = [nth i l 0; nth (i + 1) l 0; nth (i + 2) l 0; nth (i + 3) l 0].
Proof.
  intros Hi. apply list_eq. intros j. destruct (decide (j < 4)%nat) as [Hj|Hj].
  - rewrite lookup_take_lt, lookup_drop by lia.
    assert (forall k, (k < 4)%nat -> l !! (i + k)%nat = Some (nth (i + k) l 0)) as Hn.
    { intros k Hk. rewrite nth_lookup. destruct (lookup_lt_is_Some_2 l (i + k)) as [x ->]; [lia|done]. }
    destruct j as [|[|[|[|j]]]]; try lia; rewrite Hn by lia; [by rewrite Nat.add_0_r|done..].
  - rewrite lookup_take_ge by lia. symmetry. apply lookup_ge_None_2. simpl. lia.
Qed.

Lemma of_big_endian4 a b c d : byte_range a -> byte_range b -> byte_range c -> byte_range d ->
  of_big_endian [a; b; c; d] = a * 2 ^ 24 + b * 2 ^ 16 + c * 2 ^ 8 + d.
Proof.
  unfold byte_range, of_big_endian. intros. cbn [foldl]. rewrite Z.shiftl_0_l, Z.lor_0_l.
  rewrite !Z.shiftl_mul_pow2 by lia. rewrite !lor_add by lia. lia.
Qed.

Lemma mask31 a r : byte_range a -> 0 <= r < 2 ^ 24 ->
  Z.land (a * 2 ^ 24 + r) 0x7fffffff = (a mod 2 ^ 7) * 2 ^ 24 + r.
Proof.
  unfold byte_range. intros Ha Hr. change 0x7fffffff with (Z.ones 31). rewrite Z.land_ones by lia.
  rewrite (Z.div_mod a (2 ^ 7)) at 1 by lia. pose proof (Z.mod_pos_bound a (2 ^ 7) ltac:(lia)) as Hm.
  replace ((2 ^ 7 * (a / 2 ^ 7) + a mod 2 ^ 7) * 2 ^ 24 + r) with ((a mod 2 ^ 7) * 2 ^ 24 + r + (a / 2 ^ 7) * 2 ^ 31) by lia.
  rewrite Z.mod_add by lia. apply Z.mod_small. lia.
Qed.

Lemma totpCode_key secret key counter :
  base32_decode (ToUpper (TrimSpace secret)) = Some key ->
  totpCode secret counter = Some (Ok (zero_padded totpDigits (hotp key (counter mod 2 ^ 64)))).
Proof.
  intros Hk. unfold totpCode, hotp. rewrite Hk. cbv zeta.
  set (digest := hmac_sha1 key (big_endian 8 (counter mod 2 ^ 64))).
  assert (length digest = 20%nat) as Hlen by apply length_hmac_sha1.
  assert (Forall byte_range digest) as Hrange by apply hmac_sha1_range.
  assert (forall i, byte_range (nth i digest 0)) as Hbyte.
  { intros i. rewrite nth_lookup. destruct (digest !! i) as [x|] eqn:Hx; [|done].
    by eapply (proj1 (Forall_lookup _ _) Hrange). }
  rewrite Hlen. change (20 - 1)%nat with 19%nat.
  assert (digest !! 19%nat = Some (nth 19 digest 0)) as ->.
  { rewrite nth_lookup. destruct (lookup_lt_is_Some_2 digest 19) as [x ->]; [lia|done]. }
  cbn [mbind option_bind]. change 0x0f with (Z.ones 4). rewrite Z.land_ones by lia.
  change (2 ^ 4) with 16. set (place := Z.to_nat (nth 19 digest 0 mod 16)).
  assert (place < 16)%nat as Hplace.
  { subst place. pose proof (Z.mod_pos_bound (nth 19 digest 0) 16). lia. }
  unfold slice. rewrite Hlen.
  assert (((place <=? place + 4)%nat && (place + 4 <=? 20)%nat)%bool = true) as ->.
  { apply andb_true_iff. rewrite !Nat.leb_le. lia. }
  cbn [mbind option_bind]. replace (place + 4 - place)%nat with 4%nat by lia.
  rewrite four_bytes, of_big_endian4 by (auto; lia). do 3 f_equal.
  rewrite <-!Z.add_assoc. rewrite mask31 by (auto;
    pose proof (Hbyte (place + 1)%nat); pose proof (Hbyte (place + 2)%nat); pose proof (Hbyte (place + 3)%nat);
    unfold byte_range in *; lia). done.
Qed.

Lemma hotp_range key counter : 0 <= hotp key counter < 10 ^ 6.
Proof. unfold hotp. by apply Z.mod_pos_bound. Qed.

Lemma wrap64_mod z : wrap64 z mod 2 ^ 64 = z mod 2 ^ 64.
Proof.
  unfold wrap64. rewrite Zminus_mod_idemp_l. f_equal. lia.
Qed.

Lemma any_step_key secret key code counter offsets :
  base32_decode (ToUpper (TrimSpace secret)) = Some key ->
  any_step secret code counter offsets =
  Some (existsb (fun offset => String.eqb (zero_padded totpDigits (hotp key ((counter + offset) mod 2 ^ 64))) code) offsets).
Proof.
  intros Hk. induction offsets as [|offset rest IH]; [done|]. cbn [any_step existsb].
  rewrite (totpCode_key _ key), wrap64_mod by done. cbn [mbind option_bind]. rewrite IH. by destruct (String.eqb _ _).
Qed.

Lemma any_step_bad secret code counter offsets :
  base32_decode (ToUpper (TrimSpace secret)) = None -> any_step secret code counter offsets = Some false.
Proof.
  intros Hk. induction offsets as [|offset rest IH]; [done|]. cbn [any_step]. unfold totpCode at 1. rewrite Hk. exact IH.
Qed.

(** A numeral of six digits and its value. *)
Definition six_digits (s : string) (n : Z) : Prop :=
  String.length s = 6%nat /\ (forall c, c ∈ chars s -> 48 <= byte_of_ascii c <= 57) /\ decimal s = n.

Lemma forallb_digits s : forallb is_digit (chars s) = true <-> forall c, c ∈ chars s -> 48 <= byte_of_ascii c <= 57.
Proof.
  rewrite forallb_elem_of. unfold is_digit. split; intros Hs c Hc; specialize (Hs c Hc);
    rewrite andb_true_iff, !Z.leb_le in *; lia.
Qed.

Lemma six_digits_padded s n : 0 <= n < 10 ^ 6 -> (zero_padded 6 n = s <-> six_digits s n).
Proof.
  intros Hn. unfold six_digits. rewrite <-forallb_digits. split.
  - intros <-. destruct (zero_padded_digits 6 n) as [-> ->]. by rewrite decimal_zero_padded.
  - intros (Hl & Hd & <-). rewrite <-Hl at 1. by apply zero_padded_decimal.
Qed.

(** C21. The check of a time-based code is total and exact: it never panics, and
    it accepts exactly the six-digit numerals of the RFC 4226 value of the
    decoded secret at the current 30-second step, the one before or the one
    after. *)
Theorem totp_exact secret code now :
  exists accepted, verifyTOTP secret code now = Some accepted /\
  (accepted = true <->
   exists key step, base32_decode (ToUpper (TrimSpace secret)) = Some key /\ -1 <= step <= 1 /\
     six_digits (TrimSpace code) (hotp key ((Z.quot (now / 10 ^ 9) 30 + step) mod 2 ^ 64))).
Proof.
  unfold verifyTOTP, totpDigits. destruct (String.length (TrimSpace code) =? 6)%nat eqn:Hl; cycle 1.
  { exists false. split; [done|]. split; [done|]. intros (key & step & _ & _ & Hs & _). apply Nat.eqb_neq in Hl. lia. }
  destruct (forallb is_digit (chars (TrimSpace code))) eqn:Hd; cycle 1.
  { exists false. split; [done|]. split; [done|]. intros (key & step & _ & _ & _ & Hs & _).
    apply forallb_digits in Hs. congruence. }
  cbn [negb]. destruct (base32_decode (ToUpper (TrimSpace secret))) as [key|] eqn:Hk; cycle 1.
  { rewrite any_step_bad by done. exists false. split; [done|]. split; [done|]. by intros (key & step & ? & _). }
  rewrite (any_step_key _ key) by done. eexists. split; [done|]. rewrite existsb_elem_of. unfold unix, totpPeriod.
  change (10 ^ 9) with 1000000000. split.
  - intros (step & Hin & Heq%String.eqb_eq). exists key, step. split_and!; [done|set_solver by lia..|].
    apply six_digits_padded in Heq; [done|apply hotp_range].
  - intros (key' & step & [= <-] & Hstep & Hs). exists step. split.
    + assert (step = -1 \/ step = 0 \/ step = 1) as [->|[->| ->]] by lia; set_solver.
    + apply String.eqb_eq, six_digits_padded; [apply hotp_range|done].
Qed.

(** The text of a secret is read back as its bytes. *)
Lemma newTOTPSecret_key raw secret :
  Forall byte_range raw -> newTOTPSecret (Ok raw) = Ok secret -> base32_decode (ToUpper (TrimSpace secret)) = Some raw.
Proof.
  intros Hraw [= <-]. rewrite TrimSpace_solid by (by apply base32_solid).
  unfold base32_encode. fold (base32_string (base32_split raw)).
  rewrite ToUpper_base32 by (by apply base32_split_range). by apply base32_decode_encode.
Qed.

(** ** Lemmas: recovery codes *)

Lemma drop_dashes_app s t : drop_dashes (s +:+ t) = drop_dashes s +:+ drop_dashes t.
Proof.
  induction s as [|c s IH]; [done|]. change (String c s +:+ t) with (String c (s +:+ t)). cbn [drop_dashes].
  rewrite IH. by destruct (Ascii.eqb c "-").
Qed.

Lemma drop_dashes_id s : "-"%char ∉ chars s -> drop_dashes s = s.
Proof.
  induction s as [|c s IH]; [done|]. cbn [chars drop_dashes]. rewrite not_elem_of_cons. intros [Hc Hs].
  destruct (Ascii.eqb_spec c "-"); [congruence|]. by rewrite IH.
Qed.

Lemma length_cat s t : String.length (s +:+ t) = (String.length s + String.length t)%nat.
Proof. induction s as [|c s IH]; [done|]. change (String c s +:+ t) with (String c (s +:+ t)). simpl. by rewrite IH. Qed.

Lemma length_substring s n m : String.length (String.substring n m s) = Nat.min m (String.length s - n).
Proof. revert n m. induction s as [|d s IH]; intros [|n] [|m]; cbn [String.substring String.length];
  rewrite ?IH; lia. Qed.

Lemma substring_whole s : String.substring 0 (String.length s) s = s.
Proof. induction s as [|c s IH]; [done|]. cbn [String.length String.substring]. by rewrite IH. Qed.

Lemma substring_split n s : (n <= String.length s)%nat ->
  String.substring 0 n s +:+ String.substring n (String.length s - n) s = s.
Proof.
  revert n. induction s as [|c s IH]; intros [|n] Hn; [done|simpl in Hn; lia|..].
  - rewrite Nat.sub_0_r. change (String.substring 0 0 (String c s)) with "". change ("" +:+ ?t) with t. apply substring_whole.
  - cbn [String.length String.substring Nat.sub] in *.
    change (String c ?r +:+ ?t) with (String c (r +:+ t)). f_equal. apply IH. lia.
Qed.

Lemma length_base32_string l : String.length (base32_string l) = length l.
Proof. induction l as [|v l IH]; [done|]. cbn [base32_string foldr String.length length]. f_equal. exact IH. Qed.

Lemma chars_substring s n m c : c ∈ chars (String.substring n m s) -> c ∈ chars s.
Proof.
  revert n m. induction s as [|d s IH]; intros n m; [by destruct n, m|].
  destruct n as [|n], m as [|m]; simpl; rewrite ?elem_of_cons; try (intros ?; set_solver); eauto; set_solver.
Qed.

(** A recovery code survives its printing: what is shown to the user, with
    the separator, and read back through the normalization is the text whose
    decoding gives the 80 random bits, and so is the secret of a time-based
    credential. *)
Theorem secret_texts_roundtrip raw :
  Forall byte_range raw ->
  (forall secret, newTOTPSecret (Ok raw) = Ok secret -> base32_decode (ToUpper (TrimSpace secret)) = Some raw) /\
  (length raw = 10%nat ->
   exists code, newRecoveryCode (Ok raw) = Ok code /\ String.length code = 17%nat /\
     base32_decode (normalizeRecoveryCode code) = Some raw).
Proof.
  intros Hraw. split; [by intros; eapply newTOTPSecret_key|]. intros Hlen. cbn [newRecoveryCode map_err result_bind].
  eexists. split; [done|]. pose proof (base32_split_range raw Hraw) as Hsyms.
  assert (base32_encode raw = base32_string (base32_split raw)) as Henc by done.
  assert (String.length (base32_encode raw) = 16%nat) as H16.
  { rewrite Henc, length_base32_string. do 10 (destruct raw as [|? raw]; [done|]). by destruct raw. }
  assert (forall n m c, c ∈ chars (String.substring n m (base32_encode raw)) -> exists v, symbol_range 32 v /\ c = base32_char v) as Hsub.
  { intros n m c Hc%chars_substring. rewrite Henc in Hc. by eapply base32_chars. }
  assert (forall n m, "-"%char ∉ chars (String.substring n m (base32_encode raw))) as Hdash.
  { intros n m (v & Hv & Hd)%Hsub. by destruct (base32_char_plain v Hv) as (_ & _ & _ & _ & []). }
  split.
  - rewrite !length_cat, !length_substring, H16. done.
  - unfold normalizeRecoveryCode. rewrite TrimSpace_solid.
    + rewrite !drop_dashes_app, !(drop_dashes_id (String.substring _ _ _)) by done. simpl (drop_dashes "-").
      change ("" +:+ ?t) with t. rewrite substring_split by lia. rewrite Henc, ToUpper_base32 by done.
      by apply base32_decode_encode.
    + intros c. rewrite !chars_app, !elem_of_app. intros [(v & Hv & ->)%Hsub|[Hc|(v & Hv & ->)%Hsub]];
        [by apply base32_char_plain| |by apply base32_char_plain]. by apply list_elem_of_singleton in Hc as ->.
Qed.

Lemma secret_texts_roundtrip_witness :
  exists code, newRecoveryCode (Ok [1; 2; 3; 4; 5; 6; 7; 8; 9; 255]) = Ok code /\
    base32_decode (normalizeRecoveryCode code) = Some [1; 2; 3; 4; 5; 6; 7; 8; 9; 255].
Proof.
  assert (Forall byte_range [1; 2; 3; 4; 5; 6; 7; 8; 9; 255]) as Hr
    by (apply Forall_forall; intros b Hb; repeat (apply elem_of_cons in Hb as [->|Hb]; [split; [discriminate|reflexivity]|]);
        by apply not_elem_of_nil in Hb).
  destruct (proj2 (secret_texts_roundtrip [1; 2; 3; 4; 5; 6; 7; 8; 9; 255] Hr) eq_refl) as (code & Hc & _ & Hd).
  exists code. split; assumption.
Defined.
