(* ===== verification/SecretCrypto.v ===== *)
(** * Keyrings and encrypted secrets

    The keys of [platform/keyring/keyring.go], and the encryption of stored
    secrets of [platform/secretcrypto/secretcrypto.go] under the active key of
    a ring. AES-GCM is the interface [Cipher]. *)

From Stdlib Require Import Ascii.
From S2P Require Import Prelude GoStrings GoCrypto GoSha256.

Open Scope Z_scope.

(** ** Keys *)

Record Key := { Key_id : string; Key_secret : string; Key_createdAt : Z; Key_expiresAt : option Z }.

Definition zero_key : Key := {| Key_id := ""; Key_secret := ""; Key_createdAt := 0; Key_expiresAt := None |}.

Definition plain_error (text : string) : error := mk_error ErrOther text.

(** The zero time is 0. *)
Definition NewKey (id secret : string) (createdAt : Z) (expiresAt : option Z) : result Key :=
  let id := TrimSpace id in
  let secret := TrimSpace secret in
  if str_empty id then Err (plain_error "key id is required")
  else if str_empty secret then Err (plain_error "key secret is required")
  else if createdAt =? 0 then Err (plain_error "key created time is required")
  else Ok {| Key_id := id; Key_secret := secret; Key_createdAt := createdAt; Key_expiresAt := expiresAt |}.

Definition ValidAt (k : Key) (now : Z) : bool :=
  match Key_expiresAt k with None => true | Some expiresAt => now <? expiresAt end.

Record Ring := { Ring_active : Key; Ring_previous : list Key }.

Fixpoint check_previous (seen : gset string) (previous : list Key) : option error :=
  match previous with
  | [] => None
  | item :: rest =>
      if (str_empty (Key_id item) || str_empty (Key_secret item))%bool then Some (plain_error "previous key is invalid")
      else if bool_decide (Key_id item ∈ seen) then Some (plain_error "key ids must be unique")
      else check_previous ({[Key_id item]} ∪ seen) rest
  end.

Definition NewRing (active : Key) (previous : list Key) : result Ring :=
  if (str_empty (Key_id active) || str_empty (Key_secret active))%bool then Err (plain_error "active key is required")
  else match check_previous {[Key_id active]} previous with
       | Some e => Err e
       | None => Ok {| Ring_active := active; Ring_previous := previous |}
       end.

Definition Find (r : Ring) (id : string) (now : Z) : option Key :=
  let id := TrimSpace id in
  if String.eqb id (Key_id (Ring_active r)) then Some (Ring_active r)
  else find_first (fun item => String.eqb (Key_id item) id && ValidAt item now)%bool (Ring_previous r).

Definition ValidKeys (r : Ring) (now : Z) : list Key :=
  Ring_active r :: filter (fun item => ValidAt item now = true) (Ring_previous r).

(** [matched |= subtle.ConstantTimeCompare(...)]. *)
Definition Match (r : Ring) (candidate : string) (now : Z) : bool :=
  let candidate := TrimSpace candidate in
  if str_empty candidate then false
  else foldl (fun matched item => matched || String.eqb candidate (Key_secret item))%bool false (ValidKeys r now).

(** ** Encryption *)

Definition Prefix : string := "soha:v1:".
Definition PrefixV2 : string := "soha:v2:".

Definition ErrKeyRequired : error := plain_error "secret crypto key is required".

(** AES-GCM with nonces of twelve bytes and tags of sixteen. *)
Class Cipher := {
  gcm_seal : bytes -> bytes -> bytes -> bytes -> bytes;
  gcm_open : bytes -> bytes -> bytes -> bytes -> option bytes;
  open_seal : forall key nonce text extra, Forall byte_range text -> gcm_open key nonce (gcm_seal key nonce text extra) extra = Some text;
  seal_bytes : forall key nonce text extra, Forall byte_range (gcm_seal key nonce text extra);
  seal_tag : forall key nonce text extra, length (gcm_seal key nonce text extra) = (length text + 16)%nat
}.

Section encryption.
Context `{Cipher}.

Definition normalizeKeyBytes (raw : bytes) : bytes := if (length raw =? 32)%nat then raw else sha256 raw.

Definition NormalizeKey (key : string) : result bytes :=
  if blank key then Err ErrKeyRequired
  else match base64_std_decode key with
       | Some (b :: decoded) => Ok (normalizeKeyBytes (b :: decoded))
       | _ => Ok (normalizeKeyBytes (bytes_of key))
       end.

(** [aes.NewCipher] accepts keys of 16, 24 and 32 bytes. *)
Definition NewCipher (key : bytes) : result bytes :=
  if existsb (Nat.eqb (length key)) [16%nat; 24%nat; 32%nat] then Ok key
  else Err (plain_error "build secret cipher: crypto/aes: invalid key size").

Definition NonceSize : nat := 12.

(** [nonce] is what [rand.Reader] gives for twelve bytes. *)
Definition encryptPayload (nonce : result bytes) (key : bytes) (value : string) (additionalData : bytes) : result string :=
  let* block := NewCipher key in
  let* nonce := map_err (wrapf "generate secret nonce") nonce in
  Ok (base64_std_encode (nonce ++ gcm_seal block nonce (bytes_of value) additionalData)).

Definition decryptPayload (key : bytes) (encoded : string) (additionalData : bytes) : result string :=
  match base64_std_decode encoded with
  | None => Err (plain_error "decode encrypted secret: illegal base64 data")
  | Some payload =>
      let* block := NewCipher key in
      if (length payload <=? NonceSize)%nat then Err (plain_error "encrypted secret payload is invalid")
      else match gcm_open block (take NonceSize payload) (drop NonceSize payload) additionalData with
           | None => Err (plain_error "decrypt secret: cipher: message authentication failed")
           | Some plaintext => Ok (string_of plaintext)
           end
  end.

Definition EncryptString (nonce : result bytes) (key value : string) : result string :=
  if blank value then Ok ""
  else let* normalized := NormalizeKey key in
       let* payload := encryptPayload nonce normalized value [] in
       Ok (Prefix +:+ payload).

Definition EncryptStringV2 (nonce : result bytes) (keyID key value : string) : result string :=
  if blank value then Ok "" else
  let keyID := TrimSpace keyID in
  if (str_empty keyID || str_contains keyID ":")%bool then Err (plain_error "secret crypto key id is invalid")
  else let* normalized := NormalizeKey key in
       let prefix := PrefixV2 +:+ keyID +:+ ":" in
       let* payload := encryptPayload nonce normalized value (bytes_of prefix) in
       Ok (prefix +:+ payload).

Definition EncryptStringWithKeyring (nonce : result bytes) (keys : Ring) (value : string) : result string :=
  let active := Ring_active keys in
  if str_empty (Key_id active) then Err ErrKeyRequired
  else EncryptStringV2 nonce (Key_id active) (Key_secret active) value.

Definition DecryptString (key value : string) : result string :=
  let value := TrimSpace value in
  if str_empty value then Ok ""
  else if negb (HasPrefix value Prefix) then Ok value
  else let* normalized := NormalizeKey key in decryptPayload normalized (TrimPrefix value Prefix) [].

Definition parseV2 (value : string) : result (string * string) :=
  match Cut (TrimPrefix value PrefixV2) ":" with
  | Some (keyID, payload) =>
      if (blank keyID || blank payload)%bool then Err (plain_error "encrypted secret v2 payload is invalid")
      else Ok (keyID, payload)
  | None => Err (plain_error "encrypted secret v2 payload is invalid")
  end.

(** The keys are tried in order; one that cannot be normalized is passed over. *)
Fixpoint try_keys (keys : list Key) (payload : string) : result string :=
  match keys with
  | [] => Err (plain_error "decrypt secret with credential keyring")
  | key :: rest =>
      match NormalizeKey (Key_secret key) with
      | Err _ => try_keys rest payload
      | Ok normalized =>
          match decryptPayload normalized payload [] with
          | Ok plaintext => Ok plaintext
          | Err _ => try_keys rest payload
          end
      end
  end.

Definition DecryptStringWithKeyring (keys : Ring) (value : string) (now : Z) : result string :=
  let value := TrimSpace value in
  if str_empty value then Ok ""
  else if HasPrefix value PrefixV2 then
    let* parsed := parseV2 value in
    let '(keyID, payload) := parsed in
    match Find keys keyID now with
    | None => Err (plain_error ("encrypted secret references unknown key id " +:+ quoted keyID))
    | Some key =>
        let* normalized := NormalizeKey (Key_secret key) in
        decryptPayload normalized payload (bytes_of (PrefixV2 +:+ keyID +:+ ":"))
    end
  else if negb (HasPrefix value Prefix) then Ok value
  else if str_empty (Key_id (Ring_active keys)) then Err ErrKeyRequired
  else try_keys (ValidKeys keys now) (TrimPrefix value Prefix).
End encryption.

Inductive SecretStorage := SecretStorageNone | SecretStorageLegacyPlaintext | SecretStorageEncrypted.

Definition SecretStorageLabel (value : string) : SecretStorage :=
  let value := TrimSpace value in
  if str_empty value then SecretStorageNone
  else if (HasPrefix value Prefix || HasPrefix value PrefixV2)%bool then SecretStorageEncrypted
  else SecretStorageLegacyPlaintext.

Definition Encrypted (value : string) : bool :=
  match SecretStorageLabel value with SecretStorageEncrypted => true | _ => false end.

(** The key identifier of a value of the second form. *)
Definition KeyID (value : string) : result (option string) :=
  let value := TrimSpace value in
  if negb (HasPrefix value PrefixV2) then Ok None
  else let* parsed := parseV2 value in Ok (Some (fst parsed)).

(** ** Lemmas: rings *)

(** A ring as [NewRing] builds it: identifiers and secrets that are not empty,
    identifiers that differ. *)
Definition ring_keys (r : Ring) : list Key := Ring_active r :: Ring_previous r.

Definition ring_wf (r : Ring) : Prop :=
  NoDup (Key_id <$> ring_keys r) /\ (forall k, k ∈ ring_keys r -> Key_id k <> "" /\ Key_secret k <> "").

Lemma check_previous_None seen previous :
  check_previous seen previous = None ->
  NoDup (Key_id <$> previous) /\ (forall k, k ∈ previous -> Key_id k <> "" /\ Key_secret k <> "" /\ Key_id k ∉ seen).
Proof.
  revert seen. induction previous as [|item rest IH]; intros seen; cbn [check_previous].
  { intros _. split; [constructor|]. by intros k ?%not_elem_of_nil. }
  destruct (str_empty (Key_id item) || _)%bool eqn:He; [done|]. apply orb_false_iff in He as [He1%String.eqb_neq He2%String.eqb_neq].
  case_bool_decide as Hseen; [done|]. intros [Hnd Hall]%IH. rewrite fmap_cons. split.
  - constructor; [|done]. intros (k & Hk & Hin)%list_elem_of_fmap. destruct (Hall k Hin) as (_ & _ & Hk'). set_solver.
  - intros k [->|Hin]%elem_of_cons; [done|]. destruct (Hall k Hin) as (? & ? & ?). set_solver.
Qed.

Lemma NewRing_wf active previous r : NewRing active previous = Ok r -> ring_wf r.
Proof.
  unfold NewRing. destruct (_ || _)%bool eqn:He; [done|]. apply orb_false_iff in He as [He1%String.eqb_neq He2%String.eqb_neq].
  destruct (check_previous _ _) eqn:Hc; [done|]. intros [= <-]. apply check_previous_None in Hc as [Hnd Hall].
  unfold ring_wf, ring_keys. cbn [Ring_active Ring_previous]. rewrite fmap_cons. split.
  - constructor; [|done]. intros (k & Hk & Hin)%list_elem_of_fmap. destruct (Hall k Hin) as (_ & _ & ?). set_solver.
  - intros k [->|Hin]%elem_of_cons; [done|]. by destruct (Hall k Hin) as (? & ? & _).
Qed.

(** The keys that may be used: the active one, and the others until they expire. *)
Definition usable (r : Ring) (now : Z) (k : Key) : Prop :=
  k = Ring_active r \/ (k ∈ Ring_previous r /\ ValidAt k now = true).

Lemma ids_inj r k k' : ring_wf r -> k ∈ ring_keys r -> k' ∈ ring_keys r -> Key_id k = Key_id k' -> k = k'.
Proof.
  intros [Hnd _] (i & Hi)%list_elem_of_lookup (j & Hj)%list_elem_of_lookup Hid.
  assert (i = j) as ->; [|congruence]. eapply (NoDup_lookup _ _ _ (Key_id k) Hnd); rewrite list_lookup_fmap.
  - by rewrite Hi.
  - by rewrite Hj, Hid.
Qed.

Lemma usable_key r now k : usable r now k -> k ∈ ring_keys r.
Proof. unfold ring_keys. intros [->|[? _]]; set_solver. Qed.

Lemma Find_exact r id now k :
  ring_wf r -> Find r id now = Some k <-> usable r now k /\ Key_id k = TrimSpace id.
Proof.
  intros Hwf. unfold Find, usable. destruct (String.eqb_spec (TrimSpace id) (Key_id (Ring_active r))) as [Heq|Hne].
  - split; [intros [= <-]; auto|]. intros [Hu Hk]. f_equal. apply (ids_inj r); try done; [unfold ring_keys; set_solver| |congruence].
    by apply (usable_key _ now).
  - split.
    + intros [Hin [Hid%String.eqb_eq Hv]%andb_true_iff]%find_first_Some. auto.
    + intros [[->|[Hin Hv]] Hid]; [congruence|]. destruct (find_first _ _) as [k'|] eqn:Hf.
      * apply find_first_Some in Hf as [Hin' [Hid'%String.eqb_eq _]%andb_true_iff]. f_equal.
        apply (ids_inj r); [done|unfold ring_keys; set_solver..|congruence].
      * apply (proj1 (find_first_None _ _)) with (x := k) in Hf; [|done].
        rewrite Hv, andb_true_r in Hf. apply String.eqb_neq in Hf. congruence.
Qed.

Lemma foldl_match candidate keys b :
  foldl (fun matched item => matched || String.eqb candidate (Key_secret item))%bool b keys =
  (b || existsb (fun item => String.eqb candidate (Key_secret item)) keys)%bool.
Proof. revert b. induction keys as [|k keys IH]; intros b; simpl; [by rewrite orb_false_r|]. by rewrite IH, orb_assoc. Qed.

Lemma ValidKeys_usable r now k : k ∈ ValidKeys r now <-> usable r now k.
Proof. unfold ValidKeys, usable. rewrite elem_of_cons, list_elem_of_filter. naive_solver. Qed.

Lemma NewRing_usable active previous r now k :
  NewRing active previous = Ok r ->
  usable r now k <-> k = active \/ k ∈ previous /\ (forall expiry, Key_expiresAt k = Some expiry -> now < expiry).
Proof.
  intros Hr. unfold NewRing in Hr. destruct (_ || _)%bool; [done|]. destruct (check_previous _ _); [done|].
  injection Hr as <-. unfold usable, ValidAt. cbn [Ring_active Ring_previous].
  destruct (Key_expiresAt k) as [e|]; [|naive_solver]. rewrite Z.ltb_lt. naive_solver.
Qed.

(** Finding, from the parts of the ring. *)
Lemma keyring_find active previous r now :
  NewRing active previous = Ok r ->
  let in_force k := k = active \/ k ∈ previous /\ (forall expiry, Key_expiresAt k = Some expiry -> now < expiry) in
  (forall k id, in_force k -> Key_id k = TrimSpace id -> Find r id now = Some k) /\
  (forall id, (forall k, in_force k -> Key_id k <> TrimSpace id) -> Find r id now = None).
Proof.
  intros Hr. pose proof (NewRing_wf _ _ _ Hr) as Hwf. split.
  - intros k id Hk Hid. apply Find_exact; [done|]. split; [|done]. by eapply NewRing_usable.
  - intros id Hall. destruct (Find r id now) as [k|] eqn:Hf; [|done].
    apply Find_exact in Hf as [Hu Hid]; [|done]. by apply (NewRing_usable _ _ _ _ _ Hr), Hall in Hu.
Qed.

(** A ring that was accepted has distinct identifiers; it finds a key by
    identifier exactly among the active key and the previous keys that have not
    expired, and matches exactly the secrets of those keys. *)
Theorem keyring_exact active previous r now :
  NewRing active previous = Ok r ->
  NoDup (Key_id <$> (active :: previous)) /\
  (forall id k, Find r id now = Some k <->
     Key_id k = TrimSpace id /\ (k = active \/ k ∈ previous /\ (forall expiry, Key_expiresAt k = Some expiry -> now < expiry))) /\
  (forall candidate, Match r candidate now = true <->
     exists k, Key_secret k = TrimSpace candidate /\
       (k = active \/ k ∈ previous /\ (forall expiry, Key_expiresAt k = Some expiry -> now < expiry))).
Proof.
  intros Hr. pose proof (NewRing_wf _ _ _ Hr) as Hwf. pose proof (fun k => NewRing_usable _ _ _ now k Hr) as Hu.
  assert (ring_keys r = active :: previous) as Hkeys.
  { unfold NewRing in Hr. destruct (_ || _)%bool; [done|]. destruct (check_previous _ _); [done|]. by injection Hr as <-. }
  split; [rewrite <-Hkeys; apply Hwf|]. split.
  - intros id k. rewrite Find_exact by done. rewrite Hu. naive_solver.
  - intros candidate. unfold Match. destruct (str_empty (TrimSpace candidate)) eqn:He.
    + apply String.eqb_eq in He. rewrite He. split; [done|]. intros (k & Hk & Hin). exfalso.
      apply Hu, usable_key in Hin. by apply (proj2 Hwf) in Hin as [_ []].
    + rewrite foldl_match, orb_false_l, existsb_elem_of. split.
      * intros (k & Hin%ValidKeys_usable & Hk%String.eqb_eq). exists k. split; [done|]. by apply Hu.
      * intros (k & Hk & Hin%Hu%ValidKeys_usable). exists k. split; [done|]. by apply String.eqb_eq.
Qed.

Lemma keyring_exact_witness :
  exists r, NewRing {| Key_id := "b"; Key_secret := "new"; Key_createdAt := 2; Key_expiresAt := None |}
      [{| Key_id := "a"; Key_secret := "old"; Key_createdAt := 1; Key_expiresAt := Some 10 |}] = Ok r /\
    Match r " old " 9 = true /\ Match r "old" 10 = false.
Proof.
  eexists. split; [reflexivity|]. split; [|vm_compute; reflexivity].
  refine (proj2 (proj2 (proj2 (keyring_exact {| Key_id := "b"; Key_secret := "new"; Key_createdAt := 2; Key_expiresAt := None |}
    [{| Key_id := "a"; Key_secret := "old"; Key_createdAt := 1; Key_expiresAt := Some 10 |}] _ 9 eq_refl)) " old ") _).
  exists {| Key_id := "a"; Key_secret := "old"; Key_createdAt := 1; Key_expiresAt := Some 10 |}.
  split; [vm_compute; reflexivity|]. right. split; [left|]. intros expiry [= <-]. reflexivity.
Defined.

(** ** Lemmas: encryption *)

Section roundtrip.
Context `{Cipher}.

Lemma normalizeKeyBytes_length raw : length (normalizeKeyBytes raw) = 32%nat.
Proof. unfold normalizeKeyBytes. destruct (Nat.eqb_spec (length raw) 32); [done|]. apply length_sha256. Qed.

Lemma NormalizeKey_length key raw : NormalizeKey key = Ok raw -> length raw = 32%nat.
Proof.
  unfold NormalizeKey. destruct (blank key); [done|].
  destruct (base64_std_decode key) as [[|b l]|]; intros [= <-]; apply normalizeKeyBytes_length.
Qed.

Lemma NewCipher_ok key : length key = 32%nat -> NewCipher key = Ok key.
Proof. intros Hk. unfold NewCipher. by rewrite Hk. Qed.

(** What a key makes of a payload that was sealed under another one. *)
Definition reopened (nonce sealing opening : bytes) (value : string) (extra : bytes) : result string :=
  match gcm_open opening nonce (gcm_seal sealing nonce (bytes_of value) extra) extra with
  | None => Err (plain_error "decrypt secret: cipher: message authentication failed")
  | Some plaintext => Ok (string_of plaintext)
  end.

Lemma decrypt_sealed nonce key key' value extra payload :
  length key = 32%nat -> length key' = 32%nat -> length nonce = 12%nat -> Forall byte_range nonce ->
  encryptPayload (Ok nonce) key value extra = Ok payload ->
  decryptPayload key' payload extra = reopened nonce key key' value extra.
Proof.
  intros Hkey Hkey' Hlen Hrange. unfold encryptPayload. rewrite NewCipher_ok by done. cbn [map_err result_bind]. intros [= <-].
  unfold decryptPayload. rewrite base64_std_decode_encode by (apply Forall_app; auto using seal_bytes).
  rewrite NewCipher_ok by done. cbn [result_bind]. rewrite length_app, seal_tag, Hlen. unfold NonceSize.
  assert ((12 + (length (bytes_of value) + 16) <=? 12)%nat = false) as -> by (apply Nat.leb_gt; lia).
  by rewrite <-Hlen, take_app_length, drop_app_length.
Qed.

(** What the encryption of a payload gives, and that it is read back. *)
Lemma decrypt_encrypt nonce key value extra payload :
  length key = 32%nat -> length nonce = 12%nat -> Forall byte_range nonce ->
  encryptPayload (Ok nonce) key value extra = Ok payload ->
  decryptPayload key payload extra = Ok value /\ all_solid payload /\ payload <> "".
Proof.
  intros Hkey Hlen Hrange. unfold encryptPayload. rewrite NewCipher_ok by done. cbn [map_err result_bind]. intros [= <-].
  assert (Forall byte_range (nonce ++ gcm_seal key nonce (bytes_of value) extra)) as Hb
    by (apply Forall_app; auto using seal_bytes).
  split_and!.
  - rewrite (decrypt_sealed nonce key key value) by (done || (unfold encryptPayload; by rewrite NewCipher_ok)).
    unfold reopened. rewrite open_seal by apply bytes_of_range. by rewrite string_of_bytes_of.
  - by apply base64_solid.
  - intros He. apply (f_equal base64_std_decode) in He. rewrite base64_std_decode_encode in He by done.
    apply (f_equal (option_map (@length Z))) in He. cbn in He. rewrite length_app in He. injection He. lia.
Qed.

Lemma no_colon s : str_contains s ":" = false -> ":"%char ∉ chars s.
Proof.
  unfold str_contains. induction s as [|c s IH]; [intros _; apply not_elem_of_nil|]. cbn [Cut strip_prefix chars].
  destruct (Ascii.eqb_spec ":" c); [done|]. destruct (Cut s ":") as [[]|]; [done|]. rewrite not_elem_of_cons. auto.
Qed.

(** The parts of a value of the second form. *)
Lemma encrypted_form nonce active value text :
  length nonce = 12%nat -> Forall byte_range nonce -> blank value = false ->
  EncryptStringV2 (Ok nonce) (Key_id active) (Key_secret active) value = Ok text ->
  let id := TrimSpace (Key_id active) in
  TrimSpace text = text /\ text <> "" /\ HasPrefix text PrefixV2 = true /\
  exists payload normalized, parseV2 text = Ok (id, payload) /\ NormalizeKey (Key_secret active) = Ok normalized /\
    decryptPayload normalized payload (bytes_of (PrefixV2 +:+ id +:+ ":")) = Ok value /\
    forall opening, length opening = 32%nat -> decryptPayload opening payload (bytes_of (PrefixV2 +:+ id +:+ ":")) =
      reopened nonce normalized opening value (bytes_of (PrefixV2 +:+ id +:+ ":")).
Proof.
  intros Hlen Hrange Hvalue. unfold EncryptStringV2. rewrite Hvalue. cbv zeta.
  set (id := TrimSpace (Key_id active)). destruct (_ || _)%bool eqn:Hid; [done|].
  apply orb_false_iff in Hid as [Hne Hcolon%no_colon].
  destruct (NormalizeKey _) as [normalized|] eqn:Hkey; [|done]. cbn [result_bind].
  destruct (encryptPayload _ _ _ _) as [payload|] eqn:Hpay; [|done]. cbn [result_bind]. intros [= <-].
  assert (forall opening, length opening = 32%nat -> decryptPayload opening payload (bytes_of (PrefixV2 +:+ id +:+ ":")) =
    reopened nonce normalized opening value (bytes_of (PrefixV2 +:+ id +:+ ":"))) as Hopen.
  { intros opening Ho. apply decrypt_sealed; [by eapply NormalizeKey_length|done..]. }
  apply decrypt_encrypt in Hpay as (Hdec & Hsolid & Hpne); [|by eapply NormalizeKey_length|done|done].
  assert ((PrefixV2 +:+ id +:+ ":") +:+ payload = PrefixV2 +:+ (id +:+ String ":" payload)) as Htext
    by (rewrite !cat_assoc; done).
  split_and!.
  - destruct (string_last payload Hpne) as (r & d & Hr & Hd). rewrite Hr, <-cat_assoc.
    set (p := (PrefixV2 +:+ id +:+ ":") +:+ r).
    assert (p +:+ String d "" = String "s" ("oha:v2:" +:+ id +:+ ":" +:+ r +:+ String d "")) as Hs
      by (unfold p; rewrite !cat_assoc; done).
    rewrite Hs. eapply (TrimSpace_ends _ _ p d); [done|by apply Hsolid|done].
  - done.
  - rewrite Htext. unfold HasPrefix. by rewrite strip_prefix_app.
  - exists payload, normalized. split_and!; [|done|done|done]. unfold parseV2, TrimPrefix. rewrite Htext, strip_prefix_app.
    rewrite Cut_app by done. cbn [Cut strip_prefix Ascii.eqb Bool.eqb].
    assert (id +:+ "" = id) as -> by (apply chars_inj; rewrite chars_app; apply app_nil_r).
    unfold blank. rewrite (TrimSpace_solid payload) by done. assert (TrimSpace id = id) as -> by apply TrimSpace_idem. rewrite Hne.
    assert (str_empty payload = false) as -> by (by apply String.eqb_neq). done.
Qed.
End roundtrip.

(** C23. Rotation of the credential key.  A secret encrypted under the active key
    of one ring is, by every accepted ring: decrypted to itself when a key with
    the same identifier and secret is active or has not yet expired; refused, with
    the identifier it needs, when no key in force has that identifier; and, when
    the key in force under that identifier has another secret, exactly what the
    authenticated cipher makes of it under that other secret, so refused whenever
    the cipher refuses it. *)
Theorem secret_rotation `{Cipher} nonce old value text active previous new now :
  EncryptStringWithKeyring (Ok nonce) old value = Ok text -> NewRing active previous = Ok new ->
  length nonce = 12%nat -> Forall byte_range nonce -> TrimSpace value <> "" ->
  let in_force k := k = active \/ k ∈ previous /\ (forall expiry, Key_expiresAt k = Some expiry -> now < expiry) in
  let id := TrimSpace (Key_id (Ring_active old)) in
  (forall k, in_force k -> Key_id k = id -> Key_secret k = Key_secret (Ring_active old) ->
     DecryptStringWithKeyring new text now = Ok value) /\
  ((forall k, in_force k -> Key_id k <> id) ->
     DecryptStringWithKeyring new text now = Err (plain_error ("encrypted secret references unknown key id " +:+ quoted id))) /\
  exists sealing, NormalizeKey (Key_secret (Ring_active old)) = Ok sealing /\
    forall k, in_force k -> Key_id k = id ->
      DecryptStringWithKeyring new text now =
      let* opening := NormalizeKey (Key_secret k) in reopened nonce sealing opening value (bytes_of (PrefixV2 +:+ id +:+ ":")).
Proof.
  intros Henc Hnew Hlen Hrange Hvalue. cbv zeta. unfold EncryptStringWithKeyring in Henc. destruct (str_empty _); [done|].
  apply encrypted_form in Henc as (Htrim & Hne & Hpre & payload & normalized & Hparse & Hkey & Hdec & Hopen);
    [|done|done|by apply String.eqb_neq].
  assert (DecryptStringWithKeyring new text now = match Find new (TrimSpace (Key_id (Ring_active old))) now with
    | None => Err (plain_error ("encrypted secret references unknown key id " +:+ quoted (TrimSpace (Key_id (Ring_active old)))))
    | Some key => let* normalized := NormalizeKey (Key_secret key) in
        decryptPayload normalized payload (bytes_of (PrefixV2 +:+ TrimSpace (Key_id (Ring_active old)) +:+ ":"))
    end) as ->.
  { unfold DecryptStringWithKeyring. rewrite Htrim. apply String.eqb_neq in Hne. unfold str_empty. rewrite Hne, Hpre, Hparse. done. }
  destruct (keyring_find _ _ _ now Hnew) as [Hfind Hnone]. split_and!.
  - intros k Hk Hid Hsecret. rewrite (Hfind k) by (by rewrite ?TrimSpace_idem). rewrite Hsecret, Hkey. exact Hdec.
  - intros Hall. rewrite Hnone; [done|]. intros k Hk. rewrite TrimSpace_idem. by apply Hall.
  - exists normalized. split; [done|]. intros k Hk Hid. rewrite (Hfind k) by (by rewrite ?TrimSpace_idem).
    destruct (NormalizeKey (Key_secret k)) as [opening|] eqn:Ho; [|done]. cbn [result_bind]. apply Hopen. by eapply NormalizeKey_length.
Qed.

(** Data for the witness: a cipher that meets the interface. *)
Definition clear_seal (text : bytes) : bytes := (u8 <$> text) ++ replicate 16 0.

Definition clear_open (sealed : bytes) : option bytes := Some (take (length sealed - 16) sealed).

Lemma clear_open_seal text : Forall byte_range text -> clear_open (clear_seal text) = Some text.
Proof.
  intros Ht. unfold clear_open, clear_seal. rewrite length_app, length_fmap, length_replicate, Nat.add_sub.
  rewrite <-(length_fmap u8 text), take_app_length. f_equal. rewrite <-(list_fmap_id text) at 2.
  apply list_fmap_ext. intros i b Hb. unfold u8. apply Z.mod_small. by apply (proj1 (Forall_lookup _ _) Ht i).
Qed.

Lemma clear_seal_bytes text : Forall byte_range (clear_seal text).
Proof.
  unfold clear_seal. apply Forall_app. split; [apply Forall_fmap, Forall_true; intros; apply u8_range|].
  by apply Forall_replicate.
Qed.

Lemma clear_seal_tag text : length (clear_seal text) = (length text + 16)%nat.
Proof. unfold clear_seal. by rewrite length_app, length_fmap, length_replicate. Qed.

Definition clear_cipher : Cipher :=
  {| gcm_seal := fun _ _ text _ => clear_seal text; gcm_open := fun _ _ sealed _ => clear_open sealed;
     open_seal := fun _ _ text _ => clear_open_seal text;
     seal_bytes := fun _ _ text _ => clear_seal_bytes text; seal_tag := fun _ _ text _ => clear_seal_tag text |}.

Definition old_key (expiry : option Z) : Key := {| Key_id := "a"; Key_secret := "old"; Key_createdAt := 1; Key_expiresAt := expiry |}.
Definition new_key : Key := {| Key_id := "b"; Key_secret := "new"; Key_createdAt := 2; Key_expiresAt := None |}.

(** A cipher whose tag is part of the key, which it checks. *)
Definition key_tag (key : bytes) : bytes := take 16 ((u8 <$> key) ++ replicate 16 0).
Definition tagged_seal (key text : bytes) : bytes := (u8 <$> text) ++ key_tag key.
Definition tagged_open (key sealed : bytes) : option bytes :=
  if bool_decide (drop (length sealed - 16) sealed = key_tag key) then Some (take (length sealed - 16) sealed) else None.

Lemma key_tag_length key : length (key_tag key) = 16%nat.
Proof. unfold key_tag. rewrite length_take, length_app, length_fmap, length_replicate. lia. Qed.

Lemma tagged_open_seal key text : Forall byte_range text -> tagged_open key (tagged_seal key text) = Some text.
Proof.
  intros Ht. unfold tagged_open, tagged_seal. rewrite length_app, key_tag_length, Nat.add_sub, drop_app_length, bool_decide_true by done.
  rewrite take_app_length. f_equal. rewrite <-(list_fmap_id text) at 2.
  apply list_fmap_ext. intros i b Hb. unfold u8. apply Z.mod_small. by apply (proj1 (Forall_lookup _ _) Ht i).
Qed.

Lemma tagged_seal_bytes key text : Forall byte_range (tagged_seal key text).
Proof.
  unfold tagged_seal, key_tag. apply Forall_app. split; [apply Forall_fmap, Forall_true; intros; apply u8_range|].
  apply Forall_take, Forall_app. split; [apply Forall_fmap, Forall_true; intros; apply u8_range|by apply Forall_replicate].
Qed.

Lemma tagged_seal_tag key text : length (tagged_seal key text) = (length text + 16)%nat.
Proof. unfold tagged_seal. by rewrite length_app, length_fmap, key_tag_length. Qed.

Definition tagged_cipher : Cipher :=
  {| gcm_seal := fun key _ text _ => tagged_seal key text; gcm_open := fun key _ sealed _ => tagged_open key sealed;
     open_seal := fun key _ text _ => tagged_open_seal key text;
     seal_bytes := fun key _ text _ => tagged_seal_bytes key text; seal_tag := fun key _ text _ => tagged_seal_tag key text |}.

Definition reused_key : Key := {| Key_id := "a"; Key_secret := "other"; Key_createdAt := 3; Key_expiresAt := None |}.

(** Read back while the old key is kept, refused after it expired, and refused
    under another secret of the same identifier. *)
Lemma secret_rotation_witness :
  exists text new reused, @EncryptStringWithKeyring tagged_cipher (Ok (replicate 12 0)) {| Ring_active := old_key None; Ring_previous := [] |} "pw" = Ok text /\
    NewRing new_key [old_key (Some 10)] = Ok new /\ NewRing reused_key [] = Ok reused /\
    @DecryptStringWithKeyring tagged_cipher new text 9 = Ok "pw" /\
    (exists e, @DecryptStringWithKeyring tagged_cipher new text 10 = Err e) /\
    exists e, @DecryptStringWithKeyring tagged_cipher reused text 10 = Err e.
Proof.
  eexists _, _, _. split; [vm_compute; reflexivity|]. split; [reflexivity|]. split; [reflexivity|].
  assert (Forall byte_range (replicate 12 0)) as Hr by (apply Forall_replicate; split; [discriminate|reflexivity]).
  split_and!.
  - refine (proj1 (@secret_rotation tagged_cipher (replicate 12 0) {| Ring_active := old_key None; Ring_previous := [] |} "pw" _
      new_key [old_key (Some 10)] _ 9 _ eq_refl eq_refl Hr _) (old_key (Some 10)) _ _ _);
      [vm_compute; reflexivity|vm_compute; discriminate| |reflexivity|reflexivity].
    right. split; [left|]. intros expiry [= <-]. reflexivity.
  - eexists. refine (proj1 (proj2 (@secret_rotation tagged_cipher (replicate 12 0) {| Ring_active := old_key None; Ring_previous := [] |} "pw" _
      new_key [old_key (Some 10)] _ 10 _ eq_refl eq_refl Hr _)) _);
      [vm_compute; reflexivity|vm_compute; discriminate|].
    intros k [->|[Hin Hexp]]; [discriminate|]. apply list_elem_of_singleton in Hin as ->. specialize (Hexp 10 eq_refl). lia.
  - edestruct (proj2 (proj2 (@secret_rotation tagged_cipher (replicate 12 0) {| Ring_active := old_key None; Ring_previous := [] |} "pw" _
      reused_key [] _ 10 ltac:(vm_compute; reflexivity) eq_refl eq_refl Hr ltac:(vm_compute; discriminate)))) as (sealing & Hs & Hall).
    specialize (Hall reused_key (or_introl eq_refl) eq_refl). eexists. etrans; [exact Hall|].
    assert (sealing = normalizeKeyBytes (bytes_of "old")) as -> by (vm_compute in Hs; injection Hs as <-; vm_compute; reflexivity).
    vm_compute. reflexivity.
Defined.
