(* ===== verification/Sql.v ===== *)
(** * Tables and statements

    A table is a map from the key of its rows.  The statements of the
    repositories read and change tables, and a transaction either leaves the
    state it found or commits all of its changes.  The database does not fail
    but for the constraints of its tables. *)

From S2P Require Import Prelude Stateful.

(** ** Statements *)

Definition unset {A} (o : option A) : bool := match o with None => true | Some _ => false end.

(** [UPDATE ... SET f WHERE id = ? AND p]: the rows affected and the table. *)
Definition update_by_id {A} (id : string) (p : A -> bool) (f : A -> A) (m : gmap string A) : nat * gmap string A :=
  match m !! id with
  | Some x => if p x then (1%nat, <[id := f x]> m) else (0%nat, m)
  | None => (0%nat, m)
  end.

(** [UPDATE ... SET f WHERE p]. *)
Definition update_where {A} (p : A -> bool) (f : A -> A) (m : gmap string A) : nat * gmap string A :=
  (size (filter (fun kv => p (snd kv) = true) m), (fun x => if p x then f x else x) <$> m).

(** [SELECT ... WHERE p]. *)
Definition rows_where {A} (p : A -> bool) (m : gmap string A) : list A :=
  filter (fun x => p x = true) ((map_to_list m).*2).

Definition constraint_error : error := mk_error ErrOther "violates constraint".

(** [Transaction]: an error leaves the tables as they were. *)
Definition transaction {S A} (m : stateful S A) : stateful S A :=
  fun s => match m s with (Ok a, s') => (Ok a, s') | (Err e, _) => (Err e, s) end.

Definition succeeded {A} (r : result A) : bool := match r with Ok _ => true | Err _ => false end.

(** ** Lemmas: statements *)

Lemma unset_None {A} (o : option A) : unset o = true <-> o = None.
Proof. by destruct o. Qed.

Section lemmas.
Context {A : Type}.
Implicit Types (p q : A -> bool) (f : A -> A) (m : gmap string A).

Lemma update_by_id_spec id p f m n m' :
  update_by_id id p f m = (n, m') ->
  (n = 0%nat /\ m' = m /\ forall x, m !! id = Some x -> p x = false) \/
  (n = 1%nat /\ exists x, m !! id = Some x /\ p x = true /\ m' = <[id := f x]> m).
Proof.
  unfold update_by_id. destruct (m !! id) as [x|]; [|intros [= <- <-]; naive_solver].
  destruct (p x) eqn:Hp; intros [= <- <-]; [right; eauto|left; naive_solver].
Qed.

Lemma elem_of_rows p m x : x ∈ rows_where p m <-> p x = true /\ exists k, m !! k = Some x.
Proof.
  unfold rows_where. rewrite list_elem_of_filter, list_elem_of_fmap. split.
  - intros (Hp & [k y] & -> & Hy%elem_of_map_to_list). eauto.
  - intros (Hp & k & Hk). split; [done|]. exists (k, x). by rewrite elem_of_map_to_list.
Qed.

Definition count_where p m : nat := length (rows_where p m).

Lemma count_where_insert p m k x : m !! k = None -> count_where p (<[k := x]> m) = ((if p x then 1 else 0) + count_where p m)%nat.
Proof.
  intros Hk. unfold count_where, rows_where. rewrite (map_to_list_insert m k x Hk). cbn [fmap list_fmap snd].
  rewrite filter_cons. destruct (decide (p x = true)) as [-> |Hp]; [done|]. by destruct (p x).
Qed.

Lemma count_where_update p f m k x : m !! k = Some x -> p (f x) = p x -> count_where p (<[k := f x]> m) = count_where p m.
Proof.
  intros Hk Hp. rewrite <-(insert_delete_id m k x Hk) at 2. rewrite <-(insert_delete_eq m k (f x)).
  rewrite !count_where_insert by apply lookup_delete_eq. by rewrite Hp.
Qed.

Lemma count_where_le p q m : (forall x, p x = true -> q x = true) -> (count_where p m <= count_where q m)%nat.
Proof.
  intros Hpq. induction m as [|k x m Hk IH] using map_ind; [done|]. rewrite !count_where_insert by done.
  destruct (p x) eqn:Hp; [rewrite Hpq by done; lia|lia].
Qed.

Lemma count_where_size p m : count_where p m = size (filter (fun kv => p (snd kv) = true) m).
Proof.
  induction m as [|k x m Hk IH] using map_ind; [done|]. rewrite count_where_insert, IH by done.
  destruct (p x) eqn:Hp.
  - rewrite map_filter_insert_True, map_size_insert_None; [done| |done]. apply map_lookup_filter_None. auto.
  - rewrite map_filter_insert_False by (simpl; congruence). rewrite delete_id by done. done.
Qed.
End lemmas.

(** ** Lemmas: transactions *)

Lemma transaction_cases {S A} (m : stateful S A) s r s' :
  transaction m s = (r, s') -> (exists a, r = Ok a /\ m s = (Ok a, s')) \/ (exists e, r = Err e /\ s' = s).
Proof. unfold transaction. destruct (m s) as [[a|e] s1]; intros [= <- <-]; eauto. Qed.
