(* ===== verification/MfaStore.v ===== *)
(** * Multi-factor authentication: the store

    The records of [domain/identitymfa/models.go] and the statements of
    [repository/identitymfa/repository.go] over the tables that
    [migrations/postgres/0032_identity_mfa.sql] and
    [0033_identity_runtime_hardening.sql] declare: a transaction either leaves
    the tables it found or commits all of its changes. Times are nanoseconds,
    users are identified by the text of their uuid, and the database itself
    does not fail. *)

From S2P Require Import Prelude GoStrings Stateful GoLib Sql.

Open Scope Z_scope.

(** ** Records *)

Definition CredentialTypeTOTP : string := "totp".
Definition CredentialTypeWebAuthn : string := "webauthn".

Definition ChallengeTypeTOTPEnrollment : string := "totp_enrollment".
Definition ChallengeTypeTOTPStepUp : string := "totp_step_up".
Definition ChallengeTypeRecoveryCode : string := "recovery_code".
Definition ChallengeTypeWebAuthnEnrollment : string := "webauthn_enrollment".
Definition ChallengeTypeWebAuthnAuthentication : string := "webauthn_authentication".

(** [SignCount] is a [uint32]. *)
Record Credential := {
  Credential_ID : string;
  Credential_UserID : string;
  Credential_Type : string;
  Credential_DisplayName : string;
  Credential_ExternalID : string;
  Credential_SecretCiphertext : string;
  Credential_SignCount : Z;
  Credential_CreatedAt : Z;
  Credential_LastUsedAt : option Z;
  Credential_RevokedAt : option Z
}.

Record Challenge := {
  Challenge_ID : string;
  Challenge_UserID : string;
  Challenge_SessionID : string;
  Challenge_Type : string;
  Challenge_SecretCiphertext : string;
  Challenge_Attempts : Z;
  Challenge_MaxAttempts : Z;
  Challenge_ExpiresAt : Z;
  Challenge_ConsumedAt : option Z;
  Challenge_CreatedAt : Z
}.

Record RecoveryCode := {
  RecoveryCode_ID : string;
  RecoveryCode_UserID : string;
  RecoveryCode_CodeHash : string;
  RecoveryCode_CreatedAt : Z;
  RecoveryCode_UsedAt : option Z
}.

Record AdminResetCounts := {
  AdminResetCounts_RevokedCredentials : nat;
  AdminResetCounts_RevokedRecoveryCodes : nat;
  AdminResetCounts_RevokedChallenges : nat;
  AdminResetCounts_RevokedSessions : nat
}.

(** A row of [sessions]: of its metadata, the fields of a step-up. *)
Record SessionRow := {
  SessionRow_ID : string;
  SessionRow_UserID : string;
  SessionRow_Status : string;
  SessionRow_ExpiresAt : Z;
  SessionRow_mfa : bool;
  SessionRow_amr : list string;
  SessionRow_mfaAuthenticatedAt : option Z;
  SessionRow_UpdatedAt : Z
}.

(** The four tables, by primary key. *)
Record MfaStore := {
  st_credentials : gmap string Credential;
  st_challenges : gmap string Challenge;
  st_codes : gmap string RecoveryCode;
  st_sessions : gmap string SessionRow
}.

Definition set_credentials (m : gmap string Credential) (s : MfaStore) : MfaStore :=
  {| st_credentials := m; st_challenges := st_challenges s; st_codes := st_codes s; st_sessions := st_sessions s |}.
Definition set_challenges (m : gmap string Challenge) (s : MfaStore) : MfaStore :=
  {| st_credentials := st_credentials s; st_challenges := m; st_codes := st_codes s; st_sessions := st_sessions s |}.
Definition set_codes (m : gmap string RecoveryCode) (s : MfaStore) : MfaStore :=
  {| st_credentials := st_credentials s; st_challenges := st_challenges s; st_codes := m; st_sessions := st_sessions s |}.
Definition set_sessions (m : gmap string SessionRow) (s : MfaStore) : MfaStore :=
  {| st_credentials := st_credentials s; st_challenges := st_challenges s; st_codes := st_codes s; st_sessions := m |}.

(** The columns that statements set. *)
Definition revoke_credential (now : Z) (c : Credential) : Credential := {|
  Credential_ID := Credential_ID c; Credential_UserID := Credential_UserID c; Credential_Type := Credential_Type c;
  Credential_DisplayName := Credential_DisplayName c; Credential_ExternalID := Credential_ExternalID c;
  Credential_SecretCiphertext := Credential_SecretCiphertext c; Credential_SignCount := Credential_SignCount c;
  Credential_CreatedAt := Credential_CreatedAt c; Credential_LastUsedAt := Credential_LastUsedAt c;
  Credential_RevokedAt := Some now |}.

Definition use_credential (ciphertext : string) (signCount now : Z) (c : Credential) : Credential := {|
  Credential_ID := Credential_ID c; Credential_UserID := Credential_UserID c; Credential_Type := Credential_Type c;
  Credential_DisplayName := Credential_DisplayName c; Credential_ExternalID := Credential_ExternalID c;
  Credential_SecretCiphertext := ciphertext; Credential_SignCount := signCount;
  Credential_CreatedAt := Credential_CreatedAt c; Credential_LastUsedAt := Some now;
  Credential_RevokedAt := Credential_RevokedAt c |}.

Definition consume_challenge (now : Z) (c : Challenge) : Challenge := {|
  Challenge_ID := Challenge_ID c; Challenge_UserID := Challenge_UserID c; Challenge_SessionID := Challenge_SessionID c;
  Challenge_Type := Challenge_Type c; Challenge_SecretCiphertext := Challenge_SecretCiphertext c;
  Challenge_Attempts := Challenge_Attempts c; Challenge_MaxAttempts := Challenge_MaxAttempts c;
  Challenge_ExpiresAt := Challenge_ExpiresAt c; Challenge_ConsumedAt := Some now; Challenge_CreatedAt := Challenge_CreatedAt c |}.

Definition count_attempt (c : Challenge) : Challenge := {|
  Challenge_ID := Challenge_ID c; Challenge_UserID := Challenge_UserID c; Challenge_SessionID := Challenge_SessionID c;
  Challenge_Type := Challenge_Type c; Challenge_SecretCiphertext := Challenge_SecretCiphertext c;
  Challenge_Attempts := Challenge_Attempts c + 1; Challenge_MaxAttempts := Challenge_MaxAttempts c;
  Challenge_ExpiresAt := Challenge_ExpiresAt c; Challenge_ConsumedAt := Challenge_ConsumedAt c;
  Challenge_CreatedAt := Challenge_CreatedAt c |}.

Definition use_code (now : Z) (c : RecoveryCode) : RecoveryCode := {|
  RecoveryCode_ID := RecoveryCode_ID c; RecoveryCode_UserID := RecoveryCode_UserID c;
  RecoveryCode_CodeHash := RecoveryCode_CodeHash c; RecoveryCode_CreatedAt := RecoveryCode_CreatedAt c;
  RecoveryCode_UsedAt := Some now |}.

Definition revoke_session (now : Z) (s : SessionRow) : SessionRow := {|
  SessionRow_ID := SessionRow_ID s; SessionRow_UserID := SessionRow_UserID s; SessionRow_Status := "revoked";
  SessionRow_ExpiresAt := SessionRow_ExpiresAt s; SessionRow_mfa := SessionRow_mfa s; SessionRow_amr := SessionRow_amr s;
  SessionRow_mfaAuthenticatedAt := SessionRow_mfaAuthenticatedAt s; SessionRow_UpdatedAt := now |}.

(** The metadata merged with [{"mfa":true,"amr":["mfa",method],"mfaAuthenticatedAt":now}]. *)
Definition step_up_session (method : string) (now : Z) (s : SessionRow) : SessionRow := {|
  SessionRow_ID := SessionRow_ID s; SessionRow_UserID := SessionRow_UserID s; SessionRow_Status := SessionRow_Status s;
  SessionRow_ExpiresAt := SessionRow_ExpiresAt s; SessionRow_mfa := true; SessionRow_amr := ["mfa"; method];
  SessionRow_mfaAuthenticatedAt := Some now; SessionRow_UpdatedAt := now |}.

Definition newer_credential (a b : Credential) : bool := Credential_CreatedAt b <? Credential_CreatedAt a.
Definition older_code (a b : RecoveryCode) : bool := RecoveryCode_CreatedAt a <? RecoveryCode_CreatedAt b.

(** [ORDER BY created_at] promises a sorted permutation of the rows; the column
    [metadata] of [sessions] is of type [json] or [jsonb], which decides
    whether the merge of [markSessionStepUp] is well typed. *)
Class MfaDatabase := {
  credential_order :: SliceSort newer_credential;
  code_order :: SliceSort older_code;
  metadata_jsonb : bool
}.

Abbreviation mfa_store := (stateful MfaStore).

Section repository.
Context `{MfaDatabase}.

Definition credential_active (userID : string) (c : Credential) : bool :=
  String.eqb (Credential_UserID c) userID && unset (Credential_RevokedAt c).

(** [sign_count] is a [BIGINT]; the rows hold what was written from a [uint32]. *)
Definition repo_ListCredentials (userID : string) (s : MfaStore) : list Credential :=
  slice_sort newer_credential (rows_where (credential_active (TrimSpace userID)) (st_credentials s)).

Definition repo_ActiveCredential (userID credentialType : string) (s : MfaStore) : result Credential :=
  match slice_sort newer_credential (rows_where (fun c => credential_active (TrimSpace userID) c &&
      String.eqb (Credential_Type c) (TrimSpace credentialType)) (st_credentials s)) with
  | c :: _ => Ok c
  | [] => Err (errorf ErrNotFound "MFA credential not found")
  end.

(** The constraints of [identity_mfa_credentials] on an inserted row: its key,
    the known types, one row per external identifier of a type, and one active
    time-based credential per user. *)
Definition credential_admissible (item : Credential) (m : gmap string Credential) : bool :=
  unset (m !! Credential_ID item) &&
  existsb (String.eqb (Credential_Type item)) [CredentialTypeTOTP; CredentialTypeWebAuthn] &&
  (str_empty (Credential_ExternalID item) ||
   is_empty (rows_where (fun c => String.eqb (Credential_Type c) (Credential_Type item) &&
     String.eqb (Credential_ExternalID c) (Credential_ExternalID item)) m)) &&
  (negb (String.eqb (Credential_Type item) CredentialTypeTOTP) ||
   is_empty (rows_where (fun c => credential_active (Credential_UserID item) c &&
     String.eqb (Credential_Type c) CredentialTypeTOTP) m)).

(** A new row is neither used nor revoked. *)
Definition inserted_credential (item : Credential) : Credential := {|
  Credential_ID := Credential_ID item; Credential_UserID := Credential_UserID item; Credential_Type := Credential_Type item;
  Credential_DisplayName := Credential_DisplayName item; Credential_ExternalID := Credential_ExternalID item;
  Credential_SecretCiphertext := Credential_SecretCiphertext item; Credential_SignCount := Credential_SignCount item;
  Credential_CreatedAt := Credential_CreatedAt item; Credential_LastUsedAt := None; Credential_RevokedAt := None |}.

Definition insert_credential (item : Credential) : mfa_store unit :=
  fun s => if credential_admissible item (st_credentials s)
           then (Ok tt, set_credentials (<[Credential_ID item := inserted_credential item]> (st_credentials s)) s)
           else (Err constraint_error, s).

Definition repo_RevokeCredential (userID credentialID : string) (now : Z) : mfa_store unit :=
  fun s =>
    let '(affected, m) := update_by_id (TrimSpace credentialID) (credential_active (TrimSpace userID))
      (revoke_credential now) (st_credentials s) in
    if (affected =? 0)%nat then (Err (errorf ErrNotFound "MFA credential not found"), s)
    else (Ok tt, set_credentials m s).

Definition live_challenge (userID : string) (c : Challenge) : bool :=
  String.eqb (Challenge_UserID c) userID && unset (Challenge_ConsumedAt c).
Definition unused_code (userID : string) (c : RecoveryCode) : bool :=
  String.eqb (RecoveryCode_UserID c) userID && unset (RecoveryCode_UsedAt c).
Definition active_session (userID : string) (s : SessionRow) : bool :=
  String.eqb (SessionRow_UserID s) userID && String.eqb (SessionRow_Status s) "active".

Definition repo_ResetMFA (userID : string) (revokeSessions : bool) (now : Z) : mfa_store AdminResetCounts :=
  fun s =>
    let userID := TrimSpace userID in
    let '(credentials, cs) := update_where (credential_active userID) (revoke_credential now) (st_credentials s) in
    let '(recovery, rs) := update_where (unused_code userID) (use_code now) (st_codes s) in
    let '(challenges, hs) := update_where (live_challenge userID) (consume_challenge now) (st_challenges s) in
    let '(sessions, ss) := if revokeSessions then update_where (active_session userID) (revoke_session now) (st_sessions s)
                           else (0%nat, st_sessions s) in
    (Ok {| AdminResetCounts_RevokedCredentials := credentials; AdminResetCounts_RevokedRecoveryCodes := recovery;
           AdminResetCounts_RevokedChallenges := challenges; AdminResetCounts_RevokedSessions := sessions |},
     {| st_credentials := cs; st_challenges := hs; st_codes := rs; st_sessions := ss |}).

Definition challengeRateLimit : nat := 5.
Definition minutes (n : Z) : Z := n * 60 * 1000000000.

(** The challenge types that the table admits, after the migration 0033. *)
Definition admitted_challenge_types : list string :=
  ["totp_enrollment"; "totp_step_up"; "webauthn_enrollment"; "webauthn_authentication"].

Definition challenge_admissible (item : Challenge) (m : gmap string Challenge) : bool :=
  unset (m !! Challenge_ID item) && existsb (String.eqb (Challenge_Type item)) admitted_challenge_types &&
  (0 <? Challenge_MaxAttempts item).

Definition inserted_challenge (item : Challenge) : Challenge := {|
  Challenge_ID := Challenge_ID item; Challenge_UserID := Challenge_UserID item; Challenge_SessionID := Challenge_SessionID item;
  Challenge_Type := Challenge_Type item; Challenge_SecretCiphertext := Challenge_SecretCiphertext item;
  Challenge_Attempts := 0; Challenge_MaxAttempts := Challenge_MaxAttempts item;
  Challenge_ExpiresAt := Challenge_ExpiresAt item; Challenge_ConsumedAt := None; Challenge_CreatedAt := Challenge_CreatedAt item |}.

Definition session_usable (userID : string) (now : Z) (s : SessionRow) : bool :=
  active_session userID s && (now <? SessionRow_ExpiresAt s).

(** The advisory lock makes the count and the insertion of one user exclude
    those of another call for the same user. *)
Definition repo_CreateChallenge (item : Challenge) : mfa_store unit :=
  fun s =>
    let count := length (rows_where (fun c => String.eqb (Challenge_UserID c) (Challenge_UserID item) &&
      (Challenge_CreatedAt item - minutes 5 <=? Challenge_CreatedAt c)) (st_challenges s)) in
    if (challengeRateLimit <=? count)%nat then (Err (errorf ErrConflict "MFA challenge rate limit exceeded"), s)
    else match st_sessions s !! Challenge_SessionID item with
         | Some session =>
             if session_usable (Challenge_UserID item) (Challenge_CreatedAt item) session
             then if challenge_admissible item (st_challenges s)
                  then (Ok tt, set_challenges (<[Challenge_ID item := inserted_challenge item]> (st_challenges s)) s)
                  else (Err constraint_error, s)
             else (Err (errorf ErrUnauthorized "active session required for MFA"), s)
         | None => (Err (errorf ErrUnauthorized "active session required for MFA"), s)
         end.

(** The condition under which a challenge may still be answered. *)
Definition challenge_open (userID sessionID : string) (now : Z) (c : Challenge) : bool :=
  String.eqb (Challenge_UserID c) userID && String.eqb (Challenge_SessionID c) sessionID &&
  unset (Challenge_ConsumedAt c) && (now <? Challenge_ExpiresAt c) && (Challenge_Attempts c <? Challenge_MaxAttempts c).

Definition repo_GetChallenge (id userID sessionID : string) (now : Z) (s : MfaStore) : result Challenge :=
  match st_challenges s !! TrimSpace id with
  | Some c => if challenge_open (TrimSpace userID) (TrimSpace sessionID) now c then Ok c
              else Err (errorf ErrConflict "MFA challenge is invalid, expired, or consumed")
  | None => Err (errorf ErrConflict "MFA challenge is invalid, expired, or consumed")
  end.

Definition repo_IncrementChallengeAttempt (id userID sessionID : string) : mfa_store unit :=
  fun s =>
    let '(_, m) := update_by_id id (fun c => live_challenge userID c && String.eqb (Challenge_SessionID c) sessionID)
      count_attempt (st_challenges s) in
    (Ok tt, set_challenges m s).

(** The first statement of the three completions, and [ConsumeChallenge]. *)
Definition repo_ConsumeChallenge (id userID sessionID : string) (now : Z) : mfa_store unit :=
  fun s =>
    let '(affected, m) := update_by_id id (challenge_open userID sessionID now) (consume_challenge now) (st_challenges s) in
    if (affected =? 0)%nat then (Err (errorf ErrConflict "MFA challenge was already consumed"), s)
    else (Ok tt, set_challenges m s).

Definition repo_ConsumeRecoveryCode (id userID : string) (now : Z) : mfa_store unit :=
  fun s =>
    let '(affected, m) := update_by_id id (unused_code userID) (use_code now) (st_codes s) in
    if (affected =? 0)%nat then (Err (errorf ErrConflict "recovery code was already consumed"), s)
    else (Ok tt, set_codes m s).

(** [COALESCE(metadata, '{}'::jsonb)] has no common type when the column is of
    type [json], and the statement is refused. *)
Definition markSessionStepUp (sessionID userID method : string) (now : Z) : mfa_store unit :=
  fun s =>
    if negb metadata_jsonb then (Err (mk_error ErrOther "COALESCE could not convert type jsonb to json"), s)
    else
      let '(affected, m) := update_by_id (TrimSpace sessionID) (session_usable (TrimSpace userID) now)
        (step_up_session method now) (st_sessions s) in
      if (affected =? 0)%nat then (Err (errorf ErrUnauthorized "active session required for MFA"), s)
      else (Ok tt, set_sessions m s).

Definition repo_CompleteChallenge (challenge : Challenge) (credential : option Credential) (method : string) (now : Z) : mfa_store unit :=
  transaction (
    do! repo_ConsumeChallenge (Challenge_ID challenge) (Challenge_UserID challenge) (Challenge_SessionID challenge) now;
    do! match credential with Some credential => insert_credential credential | None => gret tt end;
    markSessionStepUp (Challenge_SessionID challenge) (Challenge_UserID challenge) method now).

(** The counter is compared with the one that was read before. *)
Definition repo_CompleteWebAuthnChallenge (challenge : Challenge) (credential : Credential) (ciphertext : string) (signCount : Z)
    (method : string) (now : Z) : mfa_store unit :=
  transaction (
    do! repo_ConsumeChallenge (Challenge_ID challenge) (Challenge_UserID challenge) (Challenge_SessionID challenge) now;
    do! (fun s =>
      let '(affected, m) := update_by_id (Credential_ID credential)
        (fun c => credential_active (Credential_UserID credential) c && (Credential_SignCount c <=? Credential_SignCount credential))
        (use_credential ciphertext signCount now) (st_credentials s) in
      if (affected =? 0)%nat then (Err (errorf ErrConflict "WebAuthn credential counter changed"), s)
      else (Ok tt, set_credentials m s));
    markSessionStepUp (Challenge_SessionID challenge) (Challenge_UserID challenge) method now).

Definition insert_code (code : RecoveryCode) : mfa_store unit :=
  fun s => match st_codes s !! RecoveryCode_ID code with
           | Some _ => (Err constraint_error, s)
           | None => (Ok tt, set_codes (<[RecoveryCode_ID code := {| RecoveryCode_ID := RecoveryCode_ID code;
               RecoveryCode_UserID := RecoveryCode_UserID code; RecoveryCode_CodeHash := RecoveryCode_CodeHash code;
               RecoveryCode_CreatedAt := RecoveryCode_CreatedAt code; RecoveryCode_UsedAt := None |}]> (st_codes s)) s)
           end.

Fixpoint insert_codes (codes : list RecoveryCode) : mfa_store unit :=
  match codes with [] => gret tt | code :: rest => do! insert_code code; insert_codes rest end.

Definition repo_ReplaceRecoveryCodes (userID : string) (codes : list RecoveryCode) : mfa_store unit :=
  transaction (
    do! (fun s => (Ok tt, set_codes (filter (fun kv => RecoveryCode_UserID (snd kv) <> userID) (st_codes s)) s));
    insert_codes codes).

Definition repo_ListRecoveryCodes (userID : string) (s : MfaStore) : list RecoveryCode :=
  slice_sort older_code (rows_where (unused_code (TrimSpace userID)) (st_codes s)).

Definition repo_ConsumeRecoveryCodeAndStepUp (challengeID codeID userID sessionID : string) (now : Z) : mfa_store unit :=
  transaction (
    do! repo_ConsumeChallenge challengeID userID sessionID now;
    do! repo_ConsumeRecoveryCode codeID userID now;
    markSessionStepUp sessionID userID "recovery_code" now).

(** [dbNow] is the clock of the database. *)
Definition repo_HasRecentStepUp (sessionID userID : string) (since dbNow : Z) (s : MfaStore) : bool :=
  match st_sessions s !! TrimSpace sessionID with
  | Some session =>
      session_usable (TrimSpace userID) dbNow session && SessionRow_mfa session &&
      match SessionRow_mfaAuthenticatedAt session with Some at_ => since <=? at_ | None => false end
  | None => false
  end.
End repository.

(** ** Interleavings *)

(** The transactions of any number of calls, in the order the database runs
    them: each brings the values that its call read before. *)
Inductive store_op :=
| OpRevokeCredential (userID credentialID : string) (now : Z)
| OpResetMFA (userID : string) (revokeSessions : bool) (now : Z)
| OpCreateChallenge (item : Challenge)
| OpIncrementAttempt (id userID sessionID : string)
| OpComplete (challenge : Challenge) (credential : option Credential) (method : string) (now : Z)
| OpCompleteWebAuthn (challenge : Challenge) (credential : Credential) (ciphertext : string) (signCount : Z) (method : string) (now : Z)
| OpReplaceCodes (userID : string) (codes : list RecoveryCode)
| OpRecover (challengeID codeID userID sessionID : string) (now : Z).

(** Whether the transaction succeeds, and the tables after it. *)
Definition run_op `{MfaDatabase} (o : store_op) (s : MfaStore) : bool * MfaStore :=
  match o with
  | OpRevokeCredential userID credentialID now => let '(r, s) := repo_RevokeCredential userID credentialID now s in (succeeded r, s)
  | OpResetMFA userID revokeSessions now => let '(r, s) := repo_ResetMFA userID revokeSessions now s in (succeeded r, s)
  | OpCreateChallenge item => let '(r, s) := repo_CreateChallenge item s in (succeeded r, s)
  | OpIncrementAttempt id userID sessionID => let '(r, s) := repo_IncrementChallengeAttempt id userID sessionID s in (succeeded r, s)
  | OpComplete challenge credential method now => let '(r, s) := repo_CompleteChallenge challenge credential method now s in (succeeded r, s)
  | OpCompleteWebAuthn challenge credential ciphertext signCount method now =>
      let '(r, s) := repo_CompleteWebAuthnChallenge challenge credential ciphertext signCount method now s in (succeeded r, s)
  | OpReplaceCodes userID codes => let '(r, s) := repo_ReplaceRecoveryCodes userID codes s in (succeeded r, s)
  | OpRecover challengeID codeID userID sessionID now =>
      let '(r, s) := repo_ConsumeRecoveryCodeAndStepUp challengeID codeID userID sessionID now s in (succeeded r, s)
  end.

Inductive store_steps `{MfaDatabase} : MfaStore -> list (store_op * bool) -> MfaStore -> Prop :=
| steps_nil s : store_steps s [] s
| steps_cons s o ok s1 tr s2 : run_op o s = (ok, s1) -> store_steps s1 tr s2 -> store_steps s ((o, ok) :: tr) s2.

(** The transaction that a completed challenge, or a used code, belongs to. *)
Definition completes (id : string) (x : store_op * bool) : bool :=
  snd x && match fst x with
  | OpComplete challenge _ _ _ | OpCompleteWebAuthn challenge _ _ _ _ _ => String.eqb (Challenge_ID challenge) id
  | OpRecover challengeID _ _ _ _ => String.eqb challengeID id
  | _ => false
  end.

Definition uses_code (id : string) (x : store_op * bool) : bool :=
  snd x && match fst x with OpRecover _ codeID _ _ _ => String.eqb codeID id | _ => false end.

Definition times (p : store_op * bool -> bool) (tr : list (store_op * bool)) : nat := length (filter (fun x => p x = true) tr).

Section transactions.
Context `{MfaDatabase}.

Lemma ConsumeChallenge_Ok id userID sessionID now s s' :
  repo_ConsumeChallenge id userID sessionID now s = (Ok tt, s') ->
  exists c, st_challenges s !! id = Some c /\ challenge_open userID sessionID now c = true /\
    s' = set_challenges (<[id := consume_challenge now c]> (st_challenges s)) s.
Proof.
  unfold repo_ConsumeChallenge. destruct (update_by_id _ _ _ _) as [n m] eqn:Hu.
  apply update_by_id_spec in Hu as [(-> & _ & _)|(-> & c & Hc & Ho & ->)]; [done|]. intros [= <-]. eauto.
Qed.

Lemma ConsumeRecoveryCode_Ok id userID now s s' :
  repo_ConsumeRecoveryCode id userID now s = (Ok tt, s') ->
  exists c, st_codes s !! id = Some c /\ unused_code userID c = true /\ s' = set_codes (<[id := use_code now c]> (st_codes s)) s.
Proof.
  unfold repo_ConsumeRecoveryCode. destruct (update_by_id _ _ _ _) as [n m] eqn:Hu.
  apply update_by_id_spec in Hu as [(-> & _ & _)|(-> & c & Hc & Ho & ->)]; [done|]. intros [= <-]. eauto.
Qed.

Lemma markSessionStepUp_Ok sessionID userID method now s s' :
  markSessionStepUp sessionID userID method now s = (Ok tt, s') ->
  metadata_jsonb = true /\
  exists row, st_sessions s !! TrimSpace sessionID = Some row /\ session_usable (TrimSpace userID) now row = true /\
    s' = set_sessions (<[TrimSpace sessionID := step_up_session method now row]> (st_sessions s)) s.
Proof.
  unfold markSessionStepUp. destruct metadata_jsonb; [|done]. cbn [negb]. destruct (update_by_id _ _ _ _) as [n m] eqn:Hu.
  apply update_by_id_spec in Hu as [(-> & _ & _)|(-> & c & Hc & Ho & ->)]; [done|]. intros [= <-]. eauto.
Qed.

Lemma insert_credential_Ok item s s' :
  insert_credential item s = (Ok tt, s') ->
  credential_admissible item (st_credentials s) = true /\
  s' = set_credentials (<[Credential_ID item := inserted_credential item]> (st_credentials s)) s.
Proof. unfold insert_credential. destruct (credential_admissible _ _); [|done]. by intros [= <-]. Qed.

(** A completed challenge: it was open, it is consumed, and the session is
    stepped up; the codes and the credentials follow [rest]. *)
Definition completed (id userID sessionID method : string) (now : Z) (s s' : MfaStore) : Prop :=
  metadata_jsonb = true /\
  (exists c, st_challenges s !! id = Some c /\ challenge_open userID sessionID now c = true /\
     st_challenges s' = <[id := consume_challenge now c]> (st_challenges s)) /\
  (exists row, st_sessions s !! TrimSpace sessionID = Some row /\ session_usable (TrimSpace userID) now row = true /\
     st_sessions s' = <[TrimSpace sessionID := step_up_session method now row]> (st_sessions s)).

Lemma CompleteChallenge_Ok challenge credential method now s s' :
  repo_CompleteChallenge challenge credential method now s = (Ok tt, s') ->
  completed (Challenge_ID challenge) (Challenge_UserID challenge) (Challenge_SessionID challenge) method now s s' /\
  st_codes s' = st_codes s /\
  match credential with
  | Some item => credential_admissible item (st_credentials s) = true /\
      st_credentials s' = <[Credential_ID item := inserted_credential item]> (st_credentials s)
  | None => st_credentials s' = st_credentials s
  end.
Proof.
  intros [(a & [= <-] & Hm)|(e & ? & _)]%transaction_cases; [|done].
  apply gbind_Ok in Hm as ([] & s1 & (c & Hc & Ho & ->)%ConsumeChallenge_Ok & Hm).
  apply gbind_Ok in Hm as ([] & s2 & Hi & (Hj & row & Hr & Hu & ->)%markSessionStepUp_Ok).
  destruct credential as [item|].
  - apply insert_credential_Ok in Hi as [Ha ->]. cbn in *. split; [|done]. split; [done|]. split; eauto.
  - injection Hi as <-. cbn in *. split; [|done]. split; [done|]. split; eauto.
Qed.

Lemma CompleteWebAuthn_Ok challenge credential ciphertext signCount method now s s' :
  repo_CompleteWebAuthnChallenge challenge credential ciphertext signCount method now s = (Ok tt, s') ->
  completed (Challenge_ID challenge) (Challenge_UserID challenge) (Challenge_SessionID challenge) method now s s' /\
  st_codes s' = st_codes s /\
  exists c, st_credentials s !! Credential_ID credential = Some c /\ credential_active (Credential_UserID credential) c = true /\
    Credential_SignCount c <= Credential_SignCount credential /\
    st_credentials s' = <[Credential_ID credential := use_credential ciphertext signCount now c]> (st_credentials s).
Proof.
  intros [(a & [= <-] & Hm)|(e & ? & _)]%transaction_cases; [|done].
  apply gbind_Ok in Hm as ([] & s1 & (c & Hc & Ho & ->)%ConsumeChallenge_Ok & Hm).
  apply gbind_Ok in Hm as ([] & s2 & Hi & (Hj & row & Hr & Hu & ->)%markSessionStepUp_Ok).
  destruct (update_by_id _ _ _ _) as [n m] eqn:Hup in Hi. apply update_by_id_spec in Hup as [(-> & _ & _)|(-> & x & Hx & Hp & ->)]; [done|].
  injection Hi as <-. cbn in *. apply andb_true_iff in Hp as [Ha Hle%Z.leb_le]. split; [|split; [done|by exists x]].
  split; [done|]. split; eauto.
Qed.

Lemma Recover_Ok challengeID codeID userID sessionID now s s' :
  repo_ConsumeRecoveryCodeAndStepUp challengeID codeID userID sessionID now s = (Ok tt, s') ->
  completed challengeID userID sessionID "recovery_code" now s s' /\ st_credentials s' = st_credentials s /\
  exists code, st_codes s !! codeID = Some code /\ unused_code userID code = true /\
    st_codes s' = <[codeID := use_code now code]> (st_codes s).
Proof.
  intros [(a & [= <-] & Hm)|(e & ? & _)]%transaction_cases; [|done].
  apply gbind_Ok in Hm as ([] & s1 & (c & Hc & Ho & ->)%ConsumeChallenge_Ok & Hm).
  apply gbind_Ok in Hm as ([] & s2 & (code & Hcode & Huc & ->)%ConsumeRecoveryCode_Ok & (Hj & row & Hr & Hu & ->)%markSessionStepUp_Ok).
  cbn in *. split; [|split; [done|by exists code]]. split; [done|]. split; eauto.
Qed.

(** A failed transaction changes nothing. *)
Lemma complete_Err challenge credential method now s e s' :
  repo_CompleteChallenge challenge credential method now s = (Err e, s') -> s' = s.
Proof. by intros [(a & [=] & _)|(e' & _ & ->)]%transaction_cases. Qed.
Lemma complete_webauthn_Err challenge credential ciphertext signCount method now s e s' :
  repo_CompleteWebAuthnChallenge challenge credential ciphertext signCount method now s = (Err e, s') -> s' = s.
Proof. by intros [(a & [=] & _)|(e' & _ & ->)]%transaction_cases. Qed.
Lemma recover_Err challengeID codeID userID sessionID now s e s' :
  repo_ConsumeRecoveryCodeAndStepUp challengeID codeID userID sessionID now s = (Err e, s') -> s' = s.
Proof. by intros [(a & [=] & _)|(e' & _ & ->)]%transaction_cases. Qed.

Lemma insert_codes_frame codes s r s' :
  insert_codes codes s = (r, s') ->
  st_challenges s' = st_challenges s /\ st_sessions s' = st_sessions s /\ st_credentials s' = st_credentials s.
Proof.
  revert s. induction codes as [|code codes IH]; intros s; cbn [insert_codes]; [by intros [= <- <-]|].
  unfold gbind, insert_code. destruct (st_codes s !! _); [by intros [= <- <-]|]. by intros (-> & -> & ->)%IH.
Qed.

Lemma ReplaceCodes_frame userID codes s r s' :
  repo_ReplaceRecoveryCodes userID codes s = (r, s') ->
  st_challenges s' = st_challenges s /\ st_sessions s' = st_sessions s /\ st_credentials s' = st_credentials s.
Proof.
  intros [(a & -> & Hm)|(e & -> & ->)]%transaction_cases; [|done].
  apply gbind_Ok in Hm as ([] & s1 & [= <-] & (-> & -> & ->)%insert_codes_frame). done.
Qed.
End transactions.

(** ** Lemmas: the table of challenges *)

(** How a row may change: what identifies and bounds it stays, attempts are
    never taken back, and a consumed row stays so. *)
Record evolves (c c' : Challenge) : Prop := {
  evolves_user : Challenge_UserID c' = Challenge_UserID c;
  evolves_session : Challenge_SessionID c' = Challenge_SessionID c;
  evolves_created : Challenge_CreatedAt c' = Challenge_CreatedAt c;
  evolves_expires : Challenge_ExpiresAt c' = Challenge_ExpiresAt c;
  evolves_attempts : Challenge_Attempts c <= Challenge_Attempts c';
  evolves_consumed : forall t, Challenge_ConsumedAt c = Some t -> Challenge_ConsumedAt c' = Some t
}.

#[export] Instance evolves_preorder : PreOrder evolves.
Proof.
  split; [by intros c; split|]. intros a b c [] []. split; try congruence; [lia|auto].
Qed.

Definition created_within (user : string) (lo hi : Z) (c : Challenge) : bool :=
  String.eqb (Challenge_UserID c) user && (lo <=? Challenge_CreatedAt c) && (Challenge_CreatedAt c <=? hi).

Lemma evolves_within user lo hi c c' : evolves c c' -> created_within user lo hi c' = created_within user lo hi c.
Proof. intros []. unfold created_within. by rewrite evolves_user0, evolves_created0. Qed.

Inductive challenge_change (m : gmap string Challenge) : gmap string Challenge -> Prop :=
| change_none : challenge_change m m
| change_insert id item :
    m !! id = None -> Challenge_ConsumedAt item = None ->
    (count_where (fun c => String.eqb (Challenge_UserID c) (Challenge_UserID item) &&
       (Challenge_CreatedAt item - minutes 5 <=? Challenge_CreatedAt c)%Z) m < challengeRateLimit)%nat ->
    challenge_change m (<[id := item]> m)
| change_row id c f : m !! id = Some c -> evolves c (f c) -> challenge_change m (<[id := f c]> m)
| change_rows q f : (forall c, q c = true -> evolves c (f c)) -> challenge_change m ((fun c => if q c then f c else c) <$> m).

Lemma evolves_consume now c : Challenge_ConsumedAt c = None -> evolves c (consume_challenge now c).
Proof. intros Hc. split; try done. by rewrite Hc. Qed.
Lemma evolves_count c : evolves c (count_attempt c).
Proof. split; try done. simpl. lia. Qed.

Lemma challenge_open_spec userID sessionID now c :
  challenge_open userID sessionID now c = true <->
  Challenge_UserID c = userID /\ Challenge_SessionID c = sessionID /\ Challenge_ConsumedAt c = None /\
  now < Challenge_ExpiresAt c /\ Challenge_Attempts c < Challenge_MaxAttempts c.
Proof.
  unfold challenge_open. rewrite !andb_true_iff, !String.eqb_eq, unset_None, !Z.ltb_lt. tauto.
Qed.

Section changes.
Context `{MfaDatabase}.

Lemma completed_change id userID sessionID method now s s' :
  completed id userID sessionID method now s s' -> challenge_change (st_challenges s) (st_challenges s').
Proof.
  intros (_ & (c & Hc & Ho & ->) & _). apply challenge_open_spec in Ho as (_ & _ & Ho & _).
  apply (change_row _ _ _ (consume_challenge now)); [done|by apply evolves_consume].
Qed.

Lemma run_op_change o s ok s' : run_op o s = (ok, s') -> challenge_change (st_challenges s) (st_challenges s').
Proof.
  destruct o; cbn [run_op]; intros Hrun.
  - unfold repo_RevokeCredential in Hrun. destruct (update_by_id _ _ _ _) as [n m]. destruct (n =? 0)%nat; injection Hrun as _ <-; constructor.
  - unfold repo_ResetMFA, update_where in Hrun. cbv zeta in Hrun.
    destruct (if revokeSessions then _ else _) as [n ss]. injection Hrun as _ <-. cbn [st_challenges].
    apply change_rows. intros c [_ Hc%unset_None]%andb_true_iff. by apply evolves_consume.
  - unfold repo_CreateChallenge in Hrun. destruct (_ <=? _)%nat eqn:Hcount; [injection Hrun as _ <-; constructor|].
    destruct (st_sessions s !! _) as [row|]; [|injection Hrun as _ <-; constructor].
    destruct (session_usable _ _ _); [|injection Hrun as _ <-; constructor].
    destruct (challenge_admissible _ _) eqn:Had; injection Hrun as _ <-; [|constructor]. cbn [st_challenges set_challenges].
    unfold challenge_admissible in Had. apply andb_true_iff in Had as [[Hid%unset_None _]%andb_true_iff _].
    apply change_insert; [done|done|]. apply Nat.leb_gt in Hcount. exact Hcount.
  - unfold repo_IncrementChallengeAttempt in Hrun. destruct (update_by_id _ _ _ _) as [n m] eqn:Hu. injection Hrun as _ <-.
    cbn [st_challenges set_challenges].
    apply update_by_id_spec in Hu as [(_ & -> & _)|(_ & c & Hc & _ & ->)]; [constructor|]. apply change_row; [done|apply evolves_count].
  - destruct (repo_CompleteChallenge _ _ _ _ _) as [[[]|e] s1] eqn:Hc; injection Hrun as _ <-.
    + apply CompleteChallenge_Ok in Hc as [Hc _]. by eapply completed_change.
    + apply complete_Err in Hc as ->. constructor.
  - destruct (repo_CompleteWebAuthnChallenge _ _ _ _ _ _ _) as [[[]|e] s1] eqn:Hc; injection Hrun as _ <-.
    + apply CompleteWebAuthn_Ok in Hc as [Hc _]. by eapply completed_change.
    + apply complete_webauthn_Err in Hc as ->. constructor.
  - destruct (repo_ReplaceRecoveryCodes _ _ _) as [r s1] eqn:Hc; injection Hrun as _ <-.
    apply ReplaceCodes_frame in Hc as (-> & _ & _). constructor.
  - destruct (repo_ConsumeRecoveryCodeAndStepUp _ _ _ _ _ _) as [[[]|e] s1] eqn:Hc; injection Hrun as _ <-.
    + apply Recover_Ok in Hc as [Hc _]. by eapply completed_change.
    + apply recover_Err in Hc as ->. constructor.
Qed.

Lemma change_evolves m m' id c : challenge_change m m' -> m !! id = Some c -> exists c', m' !! id = Some c' /\ evolves c c'.
Proof.
  intros [|id' item Hnone _ _|id' x f Hx Hev|q f Hev] Hc.
  - eexists. split; [done|reflexivity].
  - exists c. split; [|reflexivity]. rewrite lookup_insert_ne; [done|]. intros ->. congruence.
  - destruct (decide (id' = id)) as [-> |Hne].
    + exists (f x). rewrite lookup_insert_eq. assert (x = c) as -> by congruence. done.
    + exists c. rewrite lookup_insert_ne by done. split; [done|reflexivity].
  - exists (if q c then f c else c). rewrite lookup_fmap, Hc. split; [done|]. destruct (q c) eqn:Hq; [auto|reflexivity].
Qed.

Lemma steps_evolve s tr s' id c :
  store_steps s tr s' -> st_challenges s !! id = Some c -> exists c', st_challenges s' !! id = Some c' /\ evolves c c'.
Proof.
  intros Hs. revert c. induction Hs as [s|s o ok s1 tr s2 Hrun Hs IH]; intros c Hc; [eexists; split; [done|reflexivity]|].
  destruct (change_evolves _ _ _ _ (run_op_change _ _ _ _ Hrun) Hc) as (c1 & Hc1 & Hev).
  destruct (IH c1 Hc1) as (c2 & Hc2 & Hev2). exists c2. split; [done|]. by transitivity c1.
Qed.

(** A completion finds the challenge open and leaves it consumed. *)
Lemma completes_spec o ok s s' id :
  run_op o s = (ok, s') -> completes id (o, ok) = true ->
  exists c userID sessionID method now, st_challenges s !! id = Some c /\ challenge_open userID sessionID now c = true /\
    completed id userID sessionID method now s s'.
Proof.
  intros Hrun Hcom. unfold completes in Hcom. cbn [fst snd] in Hcom. apply andb_true_iff in Hcom as [-> Ho]. destruct o; try done; apply String.eqb_eq in Ho as <-; cbn [run_op] in Hrun.
  - destruct (repo_CompleteChallenge _ _ _ _ _) as [[[]|e] s1] eqn:Hc; simplify_eq/=.
    apply CompleteChallenge_Ok in Hc as [Hc _]. pose proof Hc as (_ & (c & Hl & Hopen & _) & _). by do 5 eexists.
  - destruct (repo_CompleteWebAuthnChallenge _ _ _ _ _ _ _) as [[[]|e] s1] eqn:Hc; simplify_eq/=.
    apply CompleteWebAuthn_Ok in Hc as [Hc _]. pose proof Hc as (_ & (c & Hl & Hopen & _) & _). by do 5 eexists.
  - destruct (repo_ConsumeRecoveryCodeAndStepUp _ _ _ _ _ _) as [[[]|e] s1] eqn:Hc; simplify_eq/=.
    apply Recover_Ok in Hc as [Hc _]. pose proof Hc as (_ & (c & Hl & Hopen & _) & _). by do 5 eexists.
Qed.

Lemma times_cons p x tr : times p (x :: tr) = ((if p x then 1 else 0) + times p tr)%nat.
Proof. unfold times. rewrite filter_cons. destruct (decide (p x = true)) as [-> |Hp]; [done|]. by destruct (p x). Qed.

(** Nothing completes a consumed challenge. *)
Lemma consumed_final s tr s' id c t :
  store_steps s tr s' -> st_challenges s !! id = Some c -> Challenge_ConsumedAt c = Some t -> times (completes id) tr = 0%nat.
Proof.
  intros Hs. revert c. induction Hs as [s|s o ok s1 tr s2 Hrun Hs IH]; intros c Hc Ht; [done|]. rewrite times_cons.
  destruct (change_evolves _ _ _ _ (run_op_change _ _ _ _ Hrun) Hc) as (c1 & Hc1 & Hev).
  rewrite (IH c1 Hc1) by (by eapply evolves_consumed). destruct (completes id (o, ok)) eqn:Hcom; [|done].
  destruct (completes_spec _ _ _ _ _ Hrun Hcom) as (c' & u & ss & me & now & Hc' & Ho & _).
  apply challenge_open_spec in Ho as (_ & _ & Hn & _). congruence.
Qed.

Lemma completed_once s tr s' id : store_steps s tr s' -> (times (completes id) tr <= 1)%nat.
Proof.
  induction 1 as [s|s o ok s1 tr s2 Hrun Hs IH]; [unfold times; simpl; lia|]. rewrite times_cons.
  destruct (completes id (o, ok)) eqn:Hcom; [|lia].
  destruct (completes_spec _ _ _ _ _ Hrun Hcom) as (c & u & ss & me & now & Hc & _ & _ & (c' & _ & _ & Hch) & _).
  rewrite (consumed_final s1 tr s2 id (consume_challenge now c') now); [lia|done| |done]. by rewrite Hch, lookup_insert_eq.
Qed.
End changes.

(** The challenge that a transaction answers, for whom, and when. *)
Definition answers (o : store_op) : option (string * string * string * Z) :=
  match o with
  | OpComplete challenge _ _ now | OpCompleteWebAuthn challenge _ _ _ _ now =>
      Some (Challenge_ID challenge, Challenge_UserID challenge, Challenge_SessionID challenge, now)
  | OpRecover challengeID _ userID sessionID now => Some (challengeID, userID, sessionID, now)
  | _ => None
  end.

Section traces.
Context `{MfaDatabase}.

Lemma steps_split s tr s' i x :
  store_steps s tr s' -> tr !! i = Some x ->
  exists s1 s2, store_steps s (take i tr) s1 /\ run_op (fst x) s1 = (snd x, s2).
Proof.
  intros Hs. revert i. induction Hs as [s|s o ok s1 tr s2 Hrun Hs IH]; intros i Hi; [done|].
  destruct i as [|i]; cbn in Hi |- *; [injection Hi as <-; exists s, s1; split; [constructor|done]|].
  destruct (IH i Hi) as (a & b & Ha & Hb). exists a, b. split; [by econstructor|done].
Qed.

Lemma answers_open o id userID sessionID now s s' :
  run_op o s = (true, s') -> answers o = Some (id, userID, sessionID, now) ->
  exists c, st_challenges s !! id = Some c /\ challenge_open userID sessionID now c = true.
Proof.
  destruct o; try done; cbn [run_op answers]; intros Hrun [= <- <- <- <-].
  - destruct (repo_CompleteChallenge _ _ _ _ _) as [[[]|e] s1] eqn:Hc; simplify_eq/=.
    apply CompleteChallenge_Ok in Hc as [(_ & (c & Hc & Ho & _) & _) _]. eauto.
  - destruct (repo_CompleteWebAuthnChallenge _ _ _ _ _ _ _) as [[[]|e] s1] eqn:Hc; simplify_eq/=.
    apply CompleteWebAuthn_Ok in Hc as [(_ & (c & Hc & Ho & _) & _) _]. eauto.
  - destruct (repo_ConsumeRecoveryCodeAndStepUp _ _ _ _ _ _) as [[[]|e] s1] eqn:Hc; simplify_eq/=.
    apply Recover_Ok in Hc as [(_ & (c & Hc & Ho & _) & _) _]. eauto.
Qed.

(** ** Lemmas: recovery codes *)

(** The identifiers of the codes that a trace offers to the table. *)
Definition offered (x : store_op * bool) : list string :=
  match fst x with OpReplaceCodes _ codes => RecoveryCode_ID <$> codes | _ => [] end.

Lemma insert_codes_lookup codes s r s' id c :
  insert_codes codes s = (r, s') -> st_codes s' !! id = Some c ->
  st_codes s !! id = Some c \/ id ∈ RecoveryCode_ID <$> codes.
Proof.
  revert s. induction codes as [|code codes IH]; intros s; cbn [insert_codes]; [intros [= _ <-]; auto|].
  unfold gbind, insert_code. destruct (st_codes s !! RecoveryCode_ID code) eqn:Hl; [intros [= _ <-]; auto|].
  intros Hrest Hc. destruct (IH _ Hrest Hc) as [Hold|Hin]; [|right; cbn; by right]. cbn [st_codes set_codes] in Hold.
  destruct (decide (RecoveryCode_ID code = id)) as [<-|Hne]; [right; cbn; by left|]. rewrite lookup_insert_ne in Hold by done. auto.
Qed.

(** A code of the table after a step was there, perhaps unused, or is offered. *)
Lemma run_op_codes o ok s s' id c :
  run_op o s = (ok, s') -> st_codes s' !! id = Some c ->
  (exists c0, st_codes s !! id = Some c0 /\ (RecoveryCode_UsedAt c0 <> None -> RecoveryCode_UsedAt c <> None)) \/ id ∈ offered (o, ok).
Proof.
  intros Hrun Hc. destruct o; cbn [run_op] in Hrun; cbn [offered fst].
  1: unfold repo_RevokeCredential in Hrun; destruct (update_by_id _ _ _ _) as [n m]; destruct (n =? 0)%nat; simplify_eq/=; eauto.
  2: unfold repo_CreateChallenge in Hrun; repeat case_match; simplify_eq/=; eauto.
  2: unfold repo_IncrementChallengeAttempt in Hrun; destruct (update_by_id _ _ _ _) as [n m]; simplify_eq/=; eauto.
  - unfold repo_ResetMFA, update_where in Hrun. cbv zeta in Hrun.
    destruct (if revokeSessions then _ else _) as [n ss]. injection Hrun as _ <-. cbn [st_codes] in Hc.
    rewrite lookup_fmap in Hc. destruct (st_codes s !! id) as [c0|]; [|done]. injection Hc as <-. left. exists c0. split; [done|].
    by destruct (unused_code _ c0).
  - destruct (repo_CompleteChallenge _ _ _ _ _) as [[[]|e] s1] eqn:Hr; injection Hrun as _ <-.
    + apply CompleteChallenge_Ok in Hr as (_ & Hr & _). rewrite Hr in Hc. eauto.
    + apply complete_Err in Hr as ->. eauto.
  - destruct (repo_CompleteWebAuthnChallenge _ _ _ _ _ _ _) as [[[]|e] s1] eqn:Hr; injection Hrun as _ <-.
    + apply CompleteWebAuthn_Ok in Hr as (_ & Hr & _). rewrite Hr in Hc. eauto.
    + apply complete_webauthn_Err in Hr as ->. eauto.
  - destruct (repo_ReplaceRecoveryCodes _ _ _) as [r s1] eqn:Hr. injection Hrun as _ <-.
    apply transaction_cases in Hr as [(a & -> & Hm)|(e & -> & ->)]; [|eauto].
    apply gbind_Ok in Hm as ([] & s2 & [= <-] & Hm).
    destruct (insert_codes_lookup _ _ _ _ _ _ Hm Hc) as [Hold|Hin]; [|auto]. cbn [st_codes set_codes] in Hold.
    apply map_lookup_filter_Some in Hold as [Hold _]. eauto.
  - destruct (repo_ConsumeRecoveryCodeAndStepUp _ _ _ _ _ _) as [[[]|e] s1] eqn:Hr; injection Hrun as _ <-.
    + apply Recover_Ok in Hr as (_ & _ & code & Hcode & _ & Hs). rewrite Hs in Hc.
      destruct (decide (codeID = id)) as [-> |Hne].
      * rewrite lookup_insert_eq in Hc. injection Hc as <-. left. by exists code.
      * rewrite lookup_insert_ne in Hc by done. eauto.
    + apply recover_Err in Hr as ->. eauto.
Qed.

(** A use of a code finds it unused and leaves it used. *)
Lemma uses_spec o ok s s' id :
  run_op o s = (ok, s') -> uses_code id (o, ok) = true ->
  exists c c', st_codes s !! id = Some c /\ RecoveryCode_UsedAt c = None /\ st_codes s' !! id = Some c' /\ RecoveryCode_UsedAt c' <> None.
Proof.
  intros Hrun Hu. unfold uses_code in Hu. cbn [fst snd] in Hu. apply andb_true_iff in Hu as [-> Hu].
  destruct o; try done. apply String.eqb_eq in Hu as <-. cbn [run_op] in Hrun.
  destruct (repo_ConsumeRecoveryCodeAndStepUp _ _ _ _ _ _) as [[[]|e] s1] eqn:Hr; simplify_eq/=.
  apply Recover_Ok in Hr as (_ & _ & code & Hcode & Hun & Hs). exists code, (use_code now code).
  apply andb_true_iff in Hun as [_ Hun%unset_None]. rewrite Hs, lookup_insert_eq. done.
Qed.

(** Identifiers that a trace offers are new: to each other and to the table. *)
Definition fresh_codes (s : MfaStore) (tr : list (store_op * bool)) : Prop :=
  NoDup (tr ≫= offered) /\ (forall id, id ∈ tr ≫= offered -> st_codes s !! id = None).

Lemma fresh_step s o ok s1 tr : run_op o s = (ok, s1) -> fresh_codes s ((o, ok) :: tr) -> fresh_codes s1 tr.
Proof.
  intros Hrun [Hnd Hnew]. rewrite bind_cons in Hnd, Hnew. apply NoDup_app in Hnd as (Hnd1 & Hdisj & Hnd). split; [done|].
  intros id Hid. destruct (st_codes s1 !! id) as [c|] eqn:Hc; [|done]. exfalso.
  destruct (run_op_codes _ _ _ _ _ _ Hrun Hc) as [(c0 & Hc0 & _)|Hin]; [|by apply (Hdisj id)].
  rewrite Hnew in Hc0; [done|]. apply elem_of_app. by right.
Qed.

(** A code that is used, or gone, is not used again while it is not offered. *)
Lemma code_dead s tr s' id :
  store_steps s tr s' -> id ∉ tr ≫= offered -> (forall c, st_codes s !! id = Some c -> RecoveryCode_UsedAt c <> None) ->
  times (uses_code id) tr = 0%nat.
Proof.
  induction 1 as [s|s o ok s1 tr s2 Hrun Hs IH]; [done|]. rewrite bind_cons, not_elem_of_app. intros [Ho Htr] Hdead.
  rewrite times_cons, IH; [|done|].
  - destruct (uses_code id (o, ok)) eqn:Hu; [|done]. destruct (uses_spec _ _ _ _ _ Hrun Hu) as (c & _ & Hc & Hn & _).
    by apply Hdead in Hc.
  - intros c Hc. destruct (run_op_codes _ _ _ _ _ _ Hrun Hc) as [(c0 & Hc0 & Hk)|Hin]; [|done]. apply Hk. by apply (Hdead c0).
Qed.

Lemma code_used_once s tr s' id : store_steps s tr s' -> fresh_codes s tr -> (times (uses_code id) tr <= 1)%nat.
Proof.
  induction 1 as [s|s o ok s1 tr s2 Hrun Hs IH]; intros Hfresh; [unfold times; simpl; lia|].
  pose proof (fresh_step _ _ _ _ _ Hrun Hfresh) as Hfresh1. rewrite times_cons.
  destruct (uses_code id (o, ok)) eqn:Hu; [|by apply IH].
  destruct (uses_spec _ _ _ _ _ Hrun Hu) as (c & c' & Hc & _ & Hc' & Hused).
  rewrite (code_dead s1 tr s2 id); [lia|done| |].
  - intros Hin. destruct Hfresh1 as [_ Hnew]. by rewrite Hnew in Hc'.
  - intros c'' ?. congruence.
Qed.

(** ** Lemmas: the rate *)

Definition rate_ok (s : MfaStore) : Prop :=
  forall user t, (count_where (created_within user t (t + minutes 5)) (st_challenges s) <= 5)%nat.

Lemma change_rate m m' :
  challenge_change m m' ->
  (forall user t, (count_where (created_within user t (t + minutes 5)) m <= 5)%nat) ->
  forall user t, (count_where (created_within user t (t + minutes 5)) m' <= 5)%nat.
Proof.
  intros [|id item Hnone _ Hlimit|id c f Hc Hev|q f Hev] Hm user t; [done|..].
  - rewrite count_where_insert by done. destruct (created_within _ _ _ item) eqn:Hin; [|by apply Hm].
    unfold created_within in Hin. rewrite !andb_true_iff, String.eqb_eq, !Z.leb_le in Hin. destruct Hin as [[<- Hlo] Hhi].
    eapply Nat.le_trans; [|exact Hlimit]. apply (le_n_S _ _), count_where_le. intros x.
    unfold created_within. rewrite !andb_true_iff, !String.eqb_eq, !Z.leb_le. intros [[-> Hx] _]. split; [done|lia].
  - rewrite count_where_update by (auto using evolves_within). apply Hm.
  - eapply Nat.le_trans; [|apply (Hm user t)]. apply Nat.eq_le_incl. clear Hm.
    induction m as [|k x m Hk IH] using map_ind; [by rewrite fmap_empty|].
    rewrite fmap_insert, !count_where_insert, IH; [|done|by rewrite lookup_fmap, Hk].
    destruct (q x) eqn:Hq; [by rewrite (evolves_within _ _ _ _ _ (Hev x Hq))|done].
Qed.

Lemma steps_rate s tr s' : store_steps s tr s' -> rate_ok s -> rate_ok s'.
Proof. induction 1 as [|s o ok s1 tr s2 Hrun _ IH]; [done|]. intros Hs. apply IH. intros u t. by eapply change_rate; [eapply run_op_change|]. Qed.
End traces.

(** ** Lemmas: the tables *)

(** The rows of the tables are filed under their identifiers. *)
Definition filed (s : MfaStore) : Prop :=
  (forall k c, st_credentials s !! k = Some c -> Credential_ID c = k) /\
  (forall k c, st_challenges s !! k = Some c -> Challenge_ID c = k) /\
  (forall k c, st_codes s !! k = Some c -> RecoveryCode_ID c = k).

(** The constraints that the tables keep. *)
Record tables_wf (s : MfaStore) : Prop := {
  wf_filed : filed s;
  wf_challenges : forall k c, st_challenges s !! k = Some c ->
    Challenge_Type c ∈ admitted_challenge_types /\ 0 <= Challenge_Attempts c /\ 0 < Challenge_MaxAttempts c;
  wf_types : forall k c, st_credentials s !! k = Some c -> Credential_Type c = CredentialTypeTOTP \/ Credential_Type c = CredentialTypeWebAuthn;
  wf_totp : forall k k' c c', st_credentials s !! k = Some c -> st_credentials s !! k' = Some c' ->
    Credential_Type c = CredentialTypeTOTP -> Credential_Type c' = CredentialTypeTOTP ->
    Credential_RevokedAt c = None -> Credential_RevokedAt c' = None -> Credential_UserID c = Credential_UserID c' -> k = k'
}.

(** How the rows of a table may change: some are rewritten by a function that
    keeps what [keeps] asks, and one may be added. *)
Inductive table_change {A} (keeps : A -> A -> Prop) (admits : string -> A -> gmap string A -> Prop) (m : gmap string A) : gmap string A -> Prop :=
| table_kept m' : (forall k x', m' !! k = Some x' -> exists x, m !! k = Some x /\ keeps x x') -> table_change keeps admits m m'
| table_added k x : admits k x m -> table_change keeps admits m (<[k := x]> m).

Lemma kept_same {A} (keeps : A -> A -> Prop) admits m : (forall x, keeps x x) -> table_change keeps admits m m.
Proof. intros Hk. apply table_kept. eauto. Qed.

Lemma kept_row {A} (keeps : A -> A -> Prop) admits m k x f :
  (forall x, keeps x x) -> m !! k = Some x -> keeps x (f x) -> table_change keeps admits m (<[k := f x]> m).
Proof.
  intros Hr Hk Hx. apply table_kept. intros j y. destruct (decide (k = j)) as [<-|Hne].
  - rewrite lookup_insert_eq. intros [= <-]. eauto.
  - rewrite lookup_insert_ne by done. eauto.
Qed.

Lemma kept_rows {A} (keeps : A -> A -> Prop) admits m (q : A -> bool) f :
  (forall x, keeps x x) -> (forall x, keeps x (f x)) -> table_change keeps admits m ((fun x => if q x then f x else x) <$> m).
Proof.
  intros Hr Hf. apply table_kept. intros j y. rewrite lookup_fmap. destruct (m !! j) as [x|]; [|done]. intros [= <-].
  exists x. split; [done|]. by destruct (q x).
Qed.

Definition keeps_challenge (c c' : Challenge) : Prop :=
  Challenge_ID c' = Challenge_ID c /\ Challenge_Type c' = Challenge_Type c /\ Challenge_Attempts c <= Challenge_Attempts c' /\
  Challenge_MaxAttempts c' = Challenge_MaxAttempts c.
Definition keeps_credential (c c' : Credential) : Prop :=
  Credential_ID c' = Credential_ID c /\ Credential_Type c' = Credential_Type c /\ Credential_UserID c' = Credential_UserID c /\
  (Credential_RevokedAt c' = None -> Credential_RevokedAt c = None).
Definition keeps_code (c c' : RecoveryCode) : Prop := RecoveryCode_ID c' = RecoveryCode_ID c.

Definition admits_challenge (k : string) (c : Challenge) (_ : gmap string Challenge) : Prop :=
  Challenge_ID c = k /\ Challenge_Type c ∈ admitted_challenge_types /\ Challenge_Attempts c = 0 /\ 0 < Challenge_MaxAttempts c.
Definition admits_credential (k : string) (c : Credential) (m : gmap string Credential) : Prop :=
  exists item, k = Credential_ID item /\ c = inserted_credential item /\ credential_admissible item m = true.

Definition challenges_follow (s s' : MfaStore) : Prop := table_change keeps_challenge admits_challenge (st_challenges s) (st_challenges s').
Definition credentials_follow (s s' : MfaStore) : Prop := table_change keeps_credential admits_credential (st_credentials s) (st_credentials s').
Definition codes_follow (s s' : MfaStore) : Prop :=
  (forall k c, st_codes s !! k = Some c -> RecoveryCode_ID c = k) -> forall k c, st_codes s' !! k = Some c -> RecoveryCode_ID c = k.

Lemma keeps_challenge_refl c : keeps_challenge c c.
Proof. unfold keeps_challenge. split_and!; done || lia. Qed.
Lemma keeps_credential_refl c : keeps_credential c c.
Proof. by unfold keeps_credential. Qed.

Create HintDb mfa_tables.
#[export] Hint Resolve keeps_challenge_refl keeps_credential_refl kept_same kept_row kept_rows : mfa_tables.

Section tables.
Context `{MfaDatabase}.

Lemma follow_refl s : challenges_follow s s /\ credentials_follow s s /\ codes_follow s s.
Proof. unfold challenges_follow, credentials_follow, codes_follow. auto with mfa_tables. Qed.

Lemma insert_codes_filed codes s r s' : insert_codes codes s = (r, s') -> codes_follow s s'.
Proof.
  revert s. induction codes as [|code codes IH]; intros s; cbn [insert_codes]; [intros [= _ <-]; by apply follow_refl|].
  unfold gbind, insert_code. destruct (st_codes s !! _) eqn:Hl; [intros [= _ <-]; by apply follow_refl|].
  intros Hc%IH Hold. apply Hc. cbn. intros k c. destruct (decide (RecoveryCode_ID code = k)) as [<-|Hne].
  - rewrite lookup_insert_eq. by intros [= <-].
  - rewrite lookup_insert_ne by done. apply Hold.
Qed.

Lemma completed_challenges id userID sessionID method now s s' :
  completed id userID sessionID method now s s' -> challenges_follow s s'.
Proof.
  intros (_ & (c & Hc & _ & Hs) & _). unfold challenges_follow. rewrite Hs.
  apply (kept_row _ _ _ _ _ (consume_challenge now)); auto with mfa_tables. unfold keeps_challenge. split_and!; done || (cbn; lia).
Qed.

Lemma run_op_follow o ok s s' : run_op o s = (ok, s') -> challenges_follow s s' /\ credentials_follow s s' /\ codes_follow s s'.
Proof.
  assert (forall c, keeps_challenge c (count_attempt c)) as Hcount by (intros c; unfold keeps_challenge; split_and!; done || (cbn; lia)).
  assert (forall now c, keeps_challenge c (consume_challenge now c)) as Hcons by (intros now c; unfold keeps_challenge; split_and!; done || (cbn; lia)).
  assert (forall now c, keeps_credential c (revoke_credential now c)) as Hrev by (intros now c; by unfold keeps_credential).
  destruct o; cbn [run_op]; intros Hrun.
  - unfold repo_RevokeCredential in Hrun. destruct (update_by_id _ _ _ _) as [n m] eqn:Hu.
    apply update_by_id_spec in Hu as [(-> & -> & _)|(-> & x & Hx & _ & ->)]; injection Hrun as _ <-; [apply follow_refl|].
    split_and!; [exact (proj1 (follow_refl s))| |exact (proj2 (proj2 (follow_refl s)))]. unfold credentials_follow. cbn. eauto with mfa_tables.
  - unfold repo_ResetMFA, update_where in Hrun. cbv zeta in Hrun. destruct (if revokeSessions then _ else _) as [n ss]. injection Hrun as _ <-.
    unfold challenges_follow, credentials_follow, codes_follow. cbn. split_and!; eauto with mfa_tables.
    intros Hold k c. rewrite lookup_fmap. destruct (st_codes s !! k) as [x|] eqn:Hx; [|done]. intros [= <-].
    destruct (unused_code _ x); exact (Hold _ _ Hx).
  - unfold repo_CreateChallenge in Hrun. destruct (_ <=? _)%nat; [injection Hrun as _ <-; apply follow_refl|].
    destruct (st_sessions s !! _) as [row|]; [|injection Hrun as _ <-; apply follow_refl].
    destruct (session_usable _ _ _); [|injection Hrun as _ <-; apply follow_refl].
    destruct (challenge_admissible _ _) eqn:Had; injection Hrun as _ <-; [|apply follow_refl].
    split_and!; [|exact (proj1 (proj2 (follow_refl s)))|exact (proj2 (proj2 (follow_refl s)))]. unfold challenges_follow. cbn. apply table_added.
    unfold challenge_admissible in Had. rewrite !andb_true_iff, Z.ltb_lt in Had. destruct Had as [[_ Hty] Hmax].
    unfold admits_challenge. split_and!; try done. apply existsb_elem_of in Hty as (x & Hx & Heq%String.eqb_eq). cbn [inserted_challenge Challenge_Type]. by rewrite Heq.
  - unfold repo_IncrementChallengeAttempt in Hrun. destruct (update_by_id _ _ _ _) as [n m] eqn:Hu. injection Hrun as _ <-.
    split_and!; [|exact (proj1 (proj2 (follow_refl s)))|exact (proj2 (proj2 (follow_refl s)))]. unfold challenges_follow. cbn.
    apply update_by_id_spec in Hu as [(_ & -> & _)|(_ & c & Hc & _ & ->)]; eauto with mfa_tables.
  - destruct (repo_CompleteChallenge _ _ _ _ _) as [[[]|e] s1] eqn:Hc; injection Hrun as _ <-; [|apply complete_Err in Hc as ->; apply follow_refl].
    apply CompleteChallenge_Ok in Hc as (Hcom & Hcodes & Hcred). split_and!; [by eapply completed_challenges| |by unfold codes_follow; rewrite Hcodes].
    unfold credentials_follow. destruct credential as [item|]; [destruct Hcred as [Ha ->]; apply table_added; by exists item|].
    rewrite Hcred. auto with mfa_tables.
  - destruct (repo_CompleteWebAuthnChallenge _ _ _ _ _ _ _) as [[[]|e] s1] eqn:Hc; injection Hrun as _ <-; [|apply complete_webauthn_Err in Hc as ->; apply follow_refl].
    apply CompleteWebAuthn_Ok in Hc as (Hcom & Hcodes & c & Hl & _ & _ & Hcred).
    split_and!; [by eapply completed_challenges| |by unfold codes_follow; rewrite Hcodes].
    unfold credentials_follow. rewrite Hcred. apply kept_row; auto with mfa_tables. by unfold keeps_credential.
  - destruct (repo_ReplaceRecoveryCodes _ _ _) as [r s1] eqn:Hr. injection Hrun as _ <-.
    pose proof (ReplaceCodes_frame _ _ _ _ _ Hr) as (Hch & _ & Hcr). unfold challenges_follow, credentials_follow. rewrite Hch, Hcr.
    split_and!; auto with mfa_tables. apply transaction_cases in Hr as [(a & -> & Hm)|(e & -> & ->)]; [|by apply follow_refl].
    apply gbind_Ok in Hm as ([] & s2 & [= <-] & Hm%insert_codes_filed). intros Hold. apply Hm. cbn.
    intros k c [Hl _]%map_lookup_filter_Some. by apply Hold.
  - destruct (repo_ConsumeRecoveryCodeAndStepUp _ _ _ _ _ _) as [[[]|e] s1] eqn:Hr; injection Hrun as _ <-; [|apply recover_Err in Hr as ->; apply follow_refl].
    apply Recover_Ok in Hr as (Hcom & Hcred & code & Hcode & _ & Hcodes).
    split_and!; [by eapply completed_challenges|unfold credentials_follow; rewrite Hcred; auto with mfa_tables|].
    unfold codes_follow. rewrite Hcodes. intros Hold k c. destruct (decide (codeID = k)) as [<-|Hne].
    + rewrite lookup_insert_eq. intros [= <-]. exact (Hold _ _ Hcode).
    + rewrite lookup_insert_ne by done. apply Hold.
Qed.

Lemma filed_follow s s' : challenges_follow s s' -> credentials_follow s s' -> codes_follow s s' -> filed s -> filed s'.
Proof.
  intros Hch Hcr Hco (H1 & H2 & H3). split_and!; [..|by apply Hco].
  - destruct Hcr as [m' Hk|k x (item & -> & -> & _)].
    + intros k c' (c & Hc & Hid & _)%Hk. rewrite Hid. by apply H1.
    + intros k c. destruct (decide (Credential_ID item = k)) as [<-|Hne]; [rewrite lookup_insert_eq; by intros [= <-]|].
      rewrite lookup_insert_ne by done. apply H1.
  - destruct Hch as [m' Hk|k x (Hid & _)].
    + intros k c' (c & Hc & Hid & _)%Hk. rewrite Hid. by apply H2.
    + intros j c. destruct (decide (k = j)) as [<-|Hne]; [rewrite lookup_insert_eq; by intros [= <-]|].
      rewrite lookup_insert_ne by done. apply H2.
Qed.

Lemma credential_admissible_spec item m :
  credential_admissible item m = true ->
  m !! Credential_ID item = None /\ (Credential_Type item = CredentialTypeTOTP \/ Credential_Type item = CredentialTypeWebAuthn) /\
  (Credential_Type item = CredentialTypeTOTP -> forall k c, m !! k = Some c -> Credential_Type c = CredentialTypeTOTP ->
     Credential_RevokedAt c = None -> Credential_UserID c <> Credential_UserID item).
Proof.
  unfold credential_admissible. rewrite !andb_true_iff, !orb_true_iff, unset_None, negb_true_iff. intros [[[Hid Hty] _] Huniq].
  split_and!; [done| |].
  - apply existsb_elem_of in Hty as (x & Hx & Heq%String.eqb_eq). set_solver.
  - intros Ht k c Hc Hct Hcr Hu. destruct Huniq as [Hne%String.eqb_neq|Hempty%is_empty_true]; [done|].
    apply (not_elem_of_nil c). rewrite <-Hempty. apply elem_of_rows. split; [|eauto].
    unfold credential_active. rewrite Hu, Hct, Hcr, !String.eqb_refl. done.
Qed.

Lemma wf_step o ok s s' : run_op o s = (ok, s') -> tables_wf s -> tables_wf s'.
Proof.
  intros (Hch & Hcr & Hco)%run_op_follow [Hf Hc Ht Hu]. split; [by eapply filed_follow|..].
  - destruct Hch as [m' Hk|k x (_ & Hty & Hz & Hm)].
    + intros k c' (c & Hl & _ & Hty & Hle & Hmax)%Hk. destruct (Hc _ _ Hl) as (? & ? & ?). rewrite Hty, Hmax. split_and!; done || lia.
    + intros j c. destruct (decide (k = j)) as [<-|Hne]; [rewrite lookup_insert_eq; intros [= <-]; split_and!; done || lia|].
      rewrite lookup_insert_ne by done. apply Hc.
  - destruct Hcr as [m' Hk|k x (item & -> & -> & Ha)].
    + intros k c' (c & Hl & _ & Hty & _)%Hk. rewrite Hty. by eapply Ht.
    + intros j c. destruct (decide (Credential_ID item = j)) as [<-|Hne].
      * rewrite lookup_insert_eq. intros [= <-]. by apply credential_admissible_spec in Ha as (_ & ? & _).
      * rewrite lookup_insert_ne by done. apply Ht.
  - destruct Hcr as [m' Hk|k x (item & -> & -> & Ha)].
    + intros k k' c c' (c0 & Hl & _ & Hty & Hus & Hrev)%Hk (c0' & Hl' & _ & Hty' & Hus' & Hrev')%Hk.
      rewrite Hty, Hty', Hus, Hus'. intros. by apply (Hu k k' c0 c0'); auto.
    + apply credential_admissible_spec in Ha as (_ & _ & Huniq). intros k k' c c'.
      destruct (decide (Credential_ID item = k)) as [<-|Hne], (decide (Credential_ID item = k')) as [<-|Hne']; rewrite ?lookup_insert_eq, ?lookup_insert_ne by done; [done|..|by apply Hu].
      * intros [= <-] Hl' Hty Hty' _ Hr' Hus. cbn in Hus, Hty. by destruct (Huniq Hty _ _ Hl' Hty' Hr').
      * intros Hl [= <-] Hty Hty' Hr _ Hus. cbn in Hus, Hty'. by destruct (Huniq Hty' _ _ Hl Hty Hr).
Qed.
End tables.

(** ** Properties *)

(** The tables stay well formed whatever the transactions: rows are filed
    under their identifiers, the types are the ones that the constraints name,
    challenges have a positive limit and a count that is not negative, and a
    user has at most one active time-based credential. *)
Theorem mfa_tables_typed `{MfaDatabase} s tr s' : store_steps s tr s' -> tables_wf s -> tables_wf s'.
Proof. induction 1 as [|s o ok s1 tr s2 Hrun _ IH]; [done|]. intros Hs. apply IH. by eapply wf_step. Qed.

(** C20. Whatever the calls and their interleaving, each challenge is completed
    at most once; and a transaction that completes one finds it, at that moment,
    issued to the same user and session, not consumed, before its expiry, and
    with attempts left. *)
Theorem challenge_single_use `{MfaDatabase} s tr s' :
  store_steps s tr s' ->
  (forall id, (times (completes id) tr <= 1)%nat) /\
  (forall i o id userID sessionID now, tr !! i = Some (o, true) -> answers o = Some (id, userID, sessionID, now) ->
     exists si c, store_steps s (take i tr) si /\ st_challenges si !! id = Some c /\
       Challenge_UserID c = userID /\ Challenge_SessionID c = sessionID /\ Challenge_ConsumedAt c = None /\
       now < Challenge_ExpiresAt c /\ Challenge_Attempts c < Challenge_MaxAttempts c).
Proof.
  intros Hs. split; [intros id; by eapply completed_once|]. intros i o id userID sessionID now Hi Ho.
  destruct (steps_split _ _ _ _ _ Hs Hi) as (s1 & s2 & H1 & H2).
  destruct (answers_open _ _ _ _ _ _ _ H2 Ho) as (c & Hc & Hopen%challenge_open_spec). by exists s1, c.
Qed.

(** Whatever the interleaving, a recovery code is used at most once, as long
    as the identifiers of new codes are new. *)
Theorem recovery_code_single_use `{MfaDatabase} s tr s' id :
  store_steps s tr s' ->
  NoDup (tr ≫= offered) -> (forall new, new ∈ tr ≫= offered -> st_codes s !! new = None) ->
  (times (uses_code id) tr <= 1)%nat.
Proof. intros Hs Hnd Hnew. by eapply code_used_once. Qed.

(** The limit on challenges holds whatever the interleaving and whatever
    the clocks of the calls: in no five minutes are more than five challenges of
    one user created. *)
Theorem challenge_rate_bounded `{MfaDatabase} s tr s' user t :
  store_steps s tr s' -> st_challenges s = ∅ ->
  (length (rows_where (fun c => String.eqb (Challenge_UserID c) user &&
     (t <=? Challenge_CreatedAt c) && (Challenge_CreatedAt c <=? t + minutes 5))%Z (st_challenges s')) <= 5)%nat.
Proof.
  intros Hs H0. apply (steps_rate _ _ _ Hs). intros u t'. rewrite H0. unfold count_where, rows_where. rewrite map_to_list_empty. simpl. lia.
Qed.

(** A reset leaves the user no credential that is active, no recovery code
    that is unused and no challenge that is open, and no active session when it
    revokes them; it touches no row of another user, and its counts are the
    numbers of rows it changed. *)
Theorem reset_complete userID revokeSessions now s counts s' :
  repo_ResetMFA userID revokeSessions now s = (Ok counts, s') ->
  let user := TrimSpace userID in
  (forall id c, st_credentials s' !! id = Some c -> Credential_UserID c = user -> Credential_RevokedAt c <> None) /\
  (forall id c, st_codes s' !! id = Some c -> RecoveryCode_UserID c = user -> RecoveryCode_UsedAt c <> None) /\
  (forall id c, st_challenges s' !! id = Some c -> Challenge_UserID c = user -> Challenge_ConsumedAt c <> None) /\
  (revokeSessions = true -> forall id r, st_sessions s' !! id = Some r -> SessionRow_UserID r = user -> SessionRow_Status r <> "active") /\
  (forall id c, st_credentials s !! id = Some c -> Credential_UserID c <> user -> st_credentials s' !! id = Some c) /\
  (forall id c, st_codes s !! id = Some c -> RecoveryCode_UserID c <> user -> st_codes s' !! id = Some c) /\
  (forall id c, st_challenges s !! id = Some c -> Challenge_UserID c <> user -> st_challenges s' !! id = Some c) /\
  (forall id r, st_sessions s !! id = Some r -> SessionRow_UserID r <> user \/ revokeSessions = false -> st_sessions s' !! id = Some r) /\
  AdminResetCounts_RevokedCredentials counts = length (rows_where (fun c => String.eqb (Credential_UserID c) user && unset (Credential_RevokedAt c)) (st_credentials s)) /\
  AdminResetCounts_RevokedRecoveryCodes counts = length (rows_where (fun c => String.eqb (RecoveryCode_UserID c) user && unset (RecoveryCode_UsedAt c)) (st_codes s)).
Proof.
  unfold repo_ResetMFA, update_where. cbv zeta. intros Hr.
  assert (exists n ss, (if revokeSessions then update_where (active_session (TrimSpace userID)) (revoke_session now) (st_sessions s)
    else (0%nat, st_sessions s)) = (n, ss)) as (n & ss & Hss) by (destruct revokeSessions; eauto).
  unfold update_where in Hss. rewrite Hss in Hr. injection Hr as <- <-. cbn.
  split_and!.
  - intros id c. rewrite lookup_fmap. destruct (st_credentials s !! id) as [x|]; [|done]. intros [= <-].
    unfold credential_active. destruct (String.eqb_spec (Credential_UserID x) (TrimSpace userID)); [|done].
    by destruct (Credential_RevokedAt x) eqn:Hx; simpl; rewrite ?Hx.
  - intros id c. rewrite lookup_fmap. destruct (st_codes s !! id) as [x|]; [|done]. intros [= <-].
    unfold unused_code. destruct (String.eqb_spec (RecoveryCode_UserID x) (TrimSpace userID)); [|done].
    by destruct (RecoveryCode_UsedAt x) eqn:Hx; simpl; rewrite ?Hx.
  - intros id c. rewrite lookup_fmap. destruct (st_challenges s !! id) as [x|]; [|done]. intros [= <-].
    unfold live_challenge. destruct (String.eqb_spec (Challenge_UserID x) (TrimSpace userID)); [|done].
    by destruct (Challenge_ConsumedAt x) eqn:Hx; simpl; rewrite ?Hx.
  - intros -> id r. injection Hss as <- <-. rewrite lookup_fmap. destruct (st_sessions s !! id) as [x|]; [|done]. intros [= <-].
    unfold active_session. destruct (String.eqb_spec (SessionRow_UserID x) (TrimSpace userID)); [|done].
    by destruct (String.eqb_spec (SessionRow_Status x) "active").
  - intros id c Hc Hu. rewrite lookup_fmap, Hc. cbn. unfold credential_active. apply String.eqb_neq in Hu. by rewrite Hu.
  - intros id c Hc Hu. rewrite lookup_fmap, Hc. cbn. unfold unused_code. apply String.eqb_neq in Hu. by rewrite Hu.
  - intros id c Hc Hu. rewrite lookup_fmap, Hc. cbn. unfold live_challenge. apply String.eqb_neq in Hu. by rewrite Hu.
  - intros id r Hrow Hu. destruct revokeSessions; injection Hss as <- <-; [|done]. rewrite lookup_fmap, Hrow. cbn.
    destruct Hu as [Hu|]; [|done]. unfold active_session. apply String.eqb_neq in Hu. by rewrite Hu.
  - symmetry. apply count_where_size.
  - symmetry. apply count_where_size.
Qed.

(** Data for the witnesses: a database that meets the interface, a session of
    one user, one challenge and one recovery code. *)
#[export] Instance newer_total : Total (not_after newer_credential).
Proof. intros a b. unfold not_after, newer_credential. rewrite !Z.ltb_ge. lia. Qed.
#[export] Instance newer_trans : Transitive (not_after newer_credential).
Proof. intros a b c. unfold not_after, newer_credential. rewrite !Z.ltb_ge. lia. Qed.
#[export] Instance older_total : Total (not_after older_code).
Proof. intros a b. unfold not_after, older_code. rewrite !Z.ltb_ge. lia. Qed.
#[export] Instance older_trans : Transitive (not_after older_code).
Proof. intros a b c. unfold not_after, older_code. rewrite !Z.ltb_ge. lia. Qed.

Definition sample_database (jsonb : bool) : MfaDatabase :=
  {| credential_order := merge_slice_sort newer_credential newer_total newer_trans;
     code_order := merge_slice_sort older_code older_total older_trans; metadata_jsonb := jsonb |}.

Definition sample_session : SessionRow :=
  {| SessionRow_ID := "s"; SessionRow_UserID := "u"; SessionRow_Status := "active"; SessionRow_ExpiresAt := minutes 60;
     SessionRow_mfa := false; SessionRow_amr := []; SessionRow_mfaAuthenticatedAt := None; SessionRow_UpdatedAt := 0 |}.

Definition sample_challenge (id type : string) : Challenge :=
  {| Challenge_ID := id; Challenge_UserID := "u"; Challenge_SessionID := "s"; Challenge_Type := type; Challenge_SecretCiphertext := "";
     Challenge_Attempts := 0; Challenge_MaxAttempts := 5; Challenge_ExpiresAt := minutes 5; Challenge_ConsumedAt := None;
     Challenge_CreatedAt := 0 |}.

Definition sample_code : RecoveryCode :=
  {| RecoveryCode_ID := "r"; RecoveryCode_UserID := "u"; RecoveryCode_CodeHash := "h"; RecoveryCode_CreatedAt := 0; RecoveryCode_UsedAt := None |}.

Definition sample_store : MfaStore :=
  {| st_credentials := ∅; st_challenges := ∅; st_codes := ∅; st_sessions := {[ "s" := sample_session ]} |}.

(** Two calls answer the same challenge with the same recovery code. *)
Definition sample_trace : list (store_op * bool) :=
  [(OpReplaceCodes "u" [sample_code], true); (OpCreateChallenge (sample_challenge "c" "totp_step_up"), true);
   (OpIncrementAttempt "c" "u" "s", true); (OpRecover "c" "r" "u" "s" 1, true); (OpRecover "c" "r" "u" "s" 1, false)].

Lemma challenge_single_use_witness :
  exists s', @store_steps (sample_database true) sample_store sample_trace s' /\ (times (completes "c") sample_trace <= 1)%nat.
Proof.
  eexists. eassert (@store_steps (sample_database true) sample_store sample_trace _) as Hs.
  { unfold sample_trace. repeat (eapply steps_cons; [vm_compute; reflexivity|]). apply steps_nil. }
  split; [exact Hs|]. exact (proj1 (@challenge_single_use (sample_database true) _ _ _ Hs) "c").
Defined.

Lemma recovery_code_single_use_witness :
  exists s', @store_steps (sample_database true) sample_store sample_trace s' /\ (times (uses_code "r") sample_trace <= 1)%nat.
Proof.
  eexists. eassert (@store_steps (sample_database true) sample_store sample_trace _) as Hs.
  { unfold sample_trace. repeat (eapply steps_cons; [vm_compute; reflexivity|]). apply steps_nil. }
  split; [exact Hs|]. apply (@recovery_code_single_use (sample_database true) _ _ _ "r" Hs).
  - vm_compute. apply NoDup_singleton.
  - intros new _. vm_compute. reflexivity.
Defined.

Lemma challenge_rate_bounded_witness :
  exists s', @store_steps (sample_database true) sample_store sample_trace s' /\
    (length (rows_where (fun c => String.eqb (Challenge_UserID c) "u" &&
       (0 <=? Challenge_CreatedAt c) && (Challenge_CreatedAt c <=? 0 + minutes 5))%Z (st_challenges s')) <= 5)%nat.
Proof.
  eexists. eassert (@store_steps (sample_database true) sample_store sample_trace _) as Hs.
  { unfold sample_trace. repeat (eapply steps_cons; [vm_compute; reflexivity|]). apply steps_nil. }
  split; [exact Hs|]. exact (@challenge_rate_bounded (sample_database true) _ _ _ "u" 0 Hs eq_refl).
Defined.

Lemma reset_complete_witness :
  exists counts s', @repo_ResetMFA "u" true 1 sample_store = (Ok counts, s') /\
    AdminResetCounts_RevokedCredentials counts = 0%nat /\
    (forall id r, st_sessions s' !! id = Some r -> SessionRow_UserID r = TrimSpace "u" -> SessionRow_Status r <> "active").
Proof.
  do 2 eexists. eassert (@repo_ResetMFA "u" true 1 sample_store = (Ok _, _)) as Hr by (vm_compute; reflexivity).
  split; [exact Hr|]. destruct (@reset_complete "u" true 1 sample_store _ _ Hr) as (_ & _ & _ & Hses & _).
  split; [reflexivity|exact (Hses eq_refl)].
Defined.

Lemma sample_wf : tables_wf sample_store.
Proof. split; [split_and!|..]; intros; cbn in *; by rewrite lookup_empty in *. Qed.

Lemma mfa_tables_typed_witness :
  exists s', @store_steps (sample_database true) sample_store sample_trace s' /\ tables_wf s'.
Proof.
  eexists. eassert (@store_steps (sample_database true) sample_store sample_trace _) as Hs.
  { unfold sample_trace. repeat (eapply steps_cons; [vm_compute; reflexivity|]). apply steps_nil. }
  split; [exact Hs|]. exact (@mfa_tables_typed (sample_database true) _ _ _ Hs sample_wf).
Defined.
