(* ===== verification/Mfa.v ===== *)
(** * Multi-factor authentication: the service

    [application/mfa/service.go]: enrolment, challenges, recovery codes,
    revocation and the requirement of a recent step-up, over the store of
    [MfaStore], the codes of [Totp] and the encryption of [SecretCrypto].
    bcrypt, the WebAuthn verifier, the users and the JSON of the challenge
    state are interfaces; identifiers and random bytes are arguments. *)

From S2P Require Import Prelude GoStrings Stateful AccessModel PermissionTables PermissionResolver WorkflowModel GoLib GoCrypto Totp SecretCrypto Sql MfaStore.

Open Scope Z_scope.

(** ** Interfaces *)

Record WebAuthnCredential := {
  WebAuthnCredential_ExternalID : string;
  WebAuthnCredential_Data : string;
  WebAuthnCredential_SignCount : Z
}.

Record WebAuthnUser := {
  WebAuthnUser_ID : string;
  WebAuthnUser_Name : string;
  WebAuthnUser_DisplayName : string;
  WebAuthnUser_Credentials : list bytes;
  WebAuthnUser_CredentialRecords : list WebAuthnCredential
}.

(** What the browser is given, of which the service keeps the session. *)
Record WebAuthnRegistration := { WebAuthnRegistration_Challenge : string; WebAuthnRegistration_Session : string }.
Record WebAuthnAuthentication := { WebAuthnAuthentication_Challenge : string; WebAuthnAuthentication_Session : string }.

Record WebAuthnResponse := {
  WebAuthnResponse_CredentialID : string;
  WebAuthnResponse_ClientDataJSON : string;
  WebAuthnResponse_AttestationObject : string;
  WebAuthnResponse_AuthenticatorData : string;
  WebAuthnResponse_Signature : string;
  WebAuthnResponse_UserHandle : string
}.

Class WebAuthn := {
  BeginRegistration : WebAuthnUser -> result WebAuthnRegistration;
  FinishRegistration : WebAuthnUser -> string -> WebAuthnResponse -> result WebAuthnCredential;
  BeginAuthentication : WebAuthnUser -> result WebAuthnAuthentication;
  FinishAuthentication : WebAuthnUser -> string -> WebAuthnResponse -> result WebAuthnCredential
}.

Record webAuthnChallengeState := {
  state_Session : string;
  state_Purpose : string;
  state_ApplicationID : string
}.

(** The users, bcrypt, the JSON of the challenge state, and the purposes of the
    API contract. *)
Record User := { User_ID : string; User_Username : string; User_DisplayName : string }.

Class MfaDeps := {
  GetByID : string -> result User;
  GenerateFromPassword : string -> result string;
  CompareHashAndPassword : string -> string -> bool;
  marshal_state : webAuthnChallengeState -> result string;
  unmarshal_state : string -> option webAuthnChallengeState;
  purpose_valid : string -> bool;
  bcrypt_match : forall password hash, GenerateFromPassword password = Ok hash -> CompareHashAndPassword hash password = true
}.

(** Identifiers and random bytes that one call draws. *)
Record Entropy := {
  new_uuid : nat -> string;
  random_bytes : nat -> nat -> result bytes;
  random_nonce : result bytes
}.

(** An entry of the audit log. *)
Record AuditEntry := {
  AuditEntry_ActorID : string;
  AuditEntry_Action : string;
  AuditEntry_Result : string;
  AuditEntry_ResourceName : string;
  AuditEntry_Metadata : go_map
}.

(** The store, the cache of the permission resolver, and the audit log. *)
Record MfaWorld := { mw_store : MfaStore; mw_cache : RoleMatrixCache; mw_audit : list AuditEntry }.

Abbreviation mfa := (stateful MfaWorld).

Definition challengeTTL : Z := minutes 5.
Definition recentStepUpWindow : Z := minutes 10.
Definition recoveryCodeCount : nat := 10.

Record MFAChallengeResult := {
  MFAChallengeResult_Verified : bool;
  MFAChallengeResult_AuthenticatedAt : Z;
  MFAChallengeResult_AuthenticationMethods : list string
}.

Definition challengeResult (now : Z) (method : string) : MFAChallengeResult :=
  {| MFAChallengeResult_Verified := true; MFAChallengeResult_AuthenticatedAt := now;
     MFAChallengeResult_AuthenticationMethods := ["mfa"; method] |}.

Record MFACredential := {
  MFACredential_ID : string;
  MFACredential_Type : string;
  MFACredential_DisplayName : string;
  MFACredential_CreatedAt : Z;
  MFACredential_LastUsedAt : option Z
}.

Record MFAEnrollmentChallenge := {
  MFAEnrollmentChallenge_ChallengeID : string;
  MFAEnrollmentChallenge_ExpiresAt : Z;
  MFAEnrollmentChallenge_ProvisioningURI : string;
  MFAEnrollmentChallenge_Type : string
}.

Record MFAOptions := { MFAOptions_Challenge : string; MFAOptions_ChallengeID : string; MFAOptions_ExpiresAt : Z }.

Record MFAAdminResetResult := {
  MFAAdminResetResult_UserID : string;
  MFAAdminResetResult_ResetAt : Z;
  MFAAdminResetResult_RevokedCredentialCount : nat;
  MFAAdminResetResult_RecoveryCodesRevoked : nat;
  MFAAdminResetResult_SessionsRevoked : nat
}.

(** ** Steps *)

(** A transaction of the store, and a query. *)
Definition in_store {A} (m : mfa_store A) : mfa A :=
  fun w => let '(r, s) := m (mw_store w) in (r, {| mw_store := s; mw_cache := mw_cache w; mw_audit := mw_audit w |}).
Definition query {A} (q : MfaStore -> A) : mfa A := fun w => (Ok (q (mw_store w)), w).

(** [_ = call]: the error is dropped. *)
Definition ignore (m : mfa unit) : mfa unit := fun w => let '(_, w) := m w in (Ok tt, w).

(** [record]: a failure of the recorder is ignored, and there may be none. *)
Definition record (audited : bool) (principal : Principal) (action result resource : string) (metadata : go_map) : mfa unit :=
  fun w => (Ok tt, if audited then {| mw_store := mw_store w; mw_cache := mw_cache w;
    mw_audit := mw_audit w ++ [{| AuditEntry_ActorID := Principal_UserID principal; AuditEntry_Action := action;
      AuditEntry_Result := result; AuditEntry_ResourceName := resource; AuditEntry_Metadata := metadata |}] |} else w).

Section service.
Context `{CatalogSource, MapRange, MfaDatabase, Cipher, WebAuthn, MfaDeps}.
Context (keys : Ring) (permissions : PermissionResolver) (audited : bool).

Definition authorize_users_update (principal : Principal) : mfa unit :=
  fun w => match ManagedActionPermission PermAccessUsersManage "update" with
  | Some key => let '(r, cache) := AuthorizeRuntimePermission permissions principal key (mw_cache w) in
      (r, {| mw_store := mw_store w; mw_cache := cache; mw_audit := mw_audit w |})
  | None => (Err (mk_error ErrOther "panic"), w)
  end.

Definition requireRecentStepUp (now dbNow : Z) (userID sessionID : string) : mfa unit :=
  let! ok := query (repo_HasRecentStepUp sessionID userID (now - recentStepUpWindow) dbNow) in
  if (ok : bool) then gret tt
  else gfail (NewBusiness ErrMFARequired "mfa_required" "Recent MFA verification is required.").

(** ** Credentials *)

Definition ListCredentials (principal : Principal) : mfa (list MFACredential) :=
  let! items := query (repo_ListCredentials (Principal_UserID principal)) in
  gret ((fun item => {| MFACredential_ID := Credential_ID item; MFACredential_Type := Credential_Type item;
    MFACredential_DisplayName := Credential_DisplayName item; MFACredential_CreatedAt := Credential_CreatedAt item;
    MFACredential_LastUsedAt := Credential_LastUsedAt item |}) <$> items).

Definition RevokeCredential (now dbNow : Z) (principal : Principal) (sessionID credentialID : string) : mfa unit :=
  do! requireRecentStepUp now dbNow (Principal_UserID principal) sessionID;
  do! in_store (repo_RevokeCredential (Principal_UserID principal) credentialID now);
  record audited principal "identity.mfa.credential.revoke" "success" credentialID ∅.

Definition AdminRevokeCredential (now : Z) (principal : Principal) (userID credentialID : string) : mfa string :=
  do! authorize_users_update principal;
  do! in_store (repo_RevokeCredential (TrimSpace userID) (TrimSpace credentialID) now);
  do! record audited principal "identity.mfa.credential.admin_revoke" "success" credentialID {[ "userId" := AString userID ]};
  gret "revoked".

Definition AdminResetUserMFA (now : Z) (principal : Principal) (userID reason : string) (revokeSessions : bool) : mfa MFAAdminResetResult :=
  do! authorize_users_update principal;
  let userID := TrimSpace userID in
  if str_empty userID || blank reason || (500 <? String.length (TrimSpace reason))%nat
  then gfail (errorf ErrInvalidArgument "user ID and reset reason are required")
  else
    do! glift (GetByID userID);
    let! counts := in_store (repo_ResetMFA userID revokeSessions now) in
    do! record audited principal "identity.mfa.admin_reset" "success" userID
      {[ "reasonProvided" := ABool true; "revokeSessions" := ABool revokeSessions;
         "revokedChallenges" := AInt (Z.of_nat (AdminResetCounts_RevokedChallenges counts)) ]};
    gret {| MFAAdminResetResult_UserID := userID; MFAAdminResetResult_ResetAt := now;
            MFAAdminResetResult_RevokedCredentialCount := AdminResetCounts_RevokedCredentials counts;
            MFAAdminResetResult_RecoveryCodesRevoked := AdminResetCounts_RevokedRecoveryCodes counts;
            MFAAdminResetResult_SessionsRevoked := AdminResetCounts_RevokedSessions counts |}.

(** ** Challenges *)

(** A challenge of the given type, with five attempts and five minutes. *)
Definition new_challenge (now : Z) (e : Entropy) (principal : Principal) (sessionID type ciphertext : string) : Challenge := {|
  Challenge_ID := new_uuid e 0; Challenge_UserID := Principal_UserID principal; Challenge_SessionID := TrimSpace sessionID;
  Challenge_Type := type; Challenge_SecretCiphertext := ciphertext; Challenge_Attempts := 0; Challenge_MaxAttempts := 5;
  Challenge_ExpiresAt := now + challengeTTL; Challenge_ConsumedAt := None; Challenge_CreatedAt := now |}.

Definition enrollment_result (challenge : Challenge) (provisioning : string) : MFAEnrollmentChallenge :=
  {| MFAEnrollmentChallenge_ChallengeID := Challenge_ID challenge; MFAEnrollmentChallenge_ExpiresAt := Challenge_ExpiresAt challenge;
     MFAEnrollmentChallenge_ProvisioningURI := provisioning; MFAEnrollmentChallenge_Type := "totp_enrollment" |}.

Definition BeginTOTPEnrollment (now : Z) (e : Entropy) (principal : Principal) (sessionID : string) : mfa MFAEnrollmentChallenge :=
  let! active := query (repo_ActiveCredential (Principal_UserID principal) CredentialTypeTOTP) in
  match active with
  | Ok _ =>
      let challenge := new_challenge now e principal sessionID ChallengeTypeTOTPStepUp "" in
      do! in_store (repo_CreateChallenge challenge);
      gret (enrollment_result challenge "")
  | Err err =>
      if negb (bool_decide (err_kind err = ErrNotFound)) then gfail err
      else
        let! secret := glift (newTOTPSecret (random_bytes e 0 20)) in
        let! ciphertext := glift (map_err (wrapf "encrypt TOTP secret") (EncryptStringWithKeyring (random_nonce e) keys secret)) in
        let challenge := new_challenge now e principal sessionID ChallengeTypeTOTPEnrollment ciphertext in
        let account := if str_empty (Principal_UserName principal) then Principal_Email principal else Principal_UserName principal in
        do! in_store (repo_CreateChallenge challenge);
        gret (enrollment_result challenge (provisioningURI "Soha" account secret))
  end.

Definition BeginRecoveryChallenge (now : Z) (e : Entropy) (principal : Principal) (sessionID : string) : mfa (string * Z) :=
  let challenge := new_challenge now e principal sessionID ChallengeTypeRecoveryCode "" in
  do! in_store (repo_CreateChallenge challenge);
  gret (Challenge_ID challenge, Challenge_ExpiresAt challenge).

(** The secret to check against, the credential to store, if any, and the method. *)
Definition challengeSecret (now : Z) (e : Entropy) (challenge : Challenge) : mfa (string * option Credential * string) :=
  if String.eqb (Challenge_Type challenge) ChallengeTypeTOTPEnrollment then
    let! secret := glift (map_err (wrapf "decrypt TOTP enrollment")
      (DecryptStringWithKeyring keys (Challenge_SecretCiphertext challenge) now)) in
    gret (secret, Some {| Credential_ID := new_uuid e 0; Credential_UserID := Challenge_UserID challenge;
      Credential_Type := CredentialTypeTOTP; Credential_DisplayName := "Authenticator app"; Credential_ExternalID := "";
      Credential_SecretCiphertext := Challenge_SecretCiphertext challenge; Credential_SignCount := 0;
      Credential_CreatedAt := now; Credential_LastUsedAt := None; Credential_RevokedAt := None |}, CredentialTypeTOTP)
  else if negb (String.eqb (Challenge_Type challenge) ChallengeTypeTOTPStepUp)
  then gfail (errorf ErrInvalidArgument "challenge type mismatch")
  else
    let! active := query (repo_ActiveCredential (Challenge_UserID challenge) CredentialTypeTOTP) in
    let! credential := glift active in
    let! secret := glift (map_err (wrapf "decrypt TOTP credential")
      (DecryptStringWithKeyring keys (Credential_SecretCiphertext credential) now)) in
    gret (secret, None, CredentialTypeTOTP).

(** The identifier of the first unused code whose hash agrees. *)
Definition matchRecoveryCode (userID response : string) (s : MfaStore) : option string :=
  RecoveryCode_ID <$>
    find_first (fun code => CompareHashAndPassword (RecoveryCode_CodeHash code) (normalizeRecoveryCode response))
      (repo_ListRecoveryCodes userID s).

Definition method_metadata (method : string) : go_map := {[ "method" := AString method ]}.

Definition invalid_response {A} : mfa A := gfail (errorf ErrUnauthorized "invalid MFA response").

(** A wrong response is counted, recorded and refused. *)
Definition deny_response {A} (principal : Principal) (challenge : Challenge) (method : string) : mfa A :=
  do! ignore (in_store (repo_IncrementChallengeAttempt (Challenge_ID challenge) (Challenge_UserID challenge) (Challenge_SessionID challenge)));
  do! record audited principal "identity.mfa.challenge.verify" "deny" (Challenge_ID challenge) (method_metadata method);
  invalid_response.

Definition consume_recovery (now : Z) (principal : Principal) (sessionID : string) (challenge : Challenge) (codeID : string) : mfa MFAChallengeResult :=
  do! in_store (repo_ConsumeRecoveryCodeAndStepUp (Challenge_ID challenge) codeID (Principal_UserID principal) sessionID now);
  do! record audited principal "identity.mfa.challenge.verify" "success" (Challenge_ID challenge) (method_metadata "recovery_code");
  gret (challengeResult now "recovery_code").

Definition verifyRecoveryChallenge (now : Z) (principal : Principal) (sessionID : string) (challenge : Challenge) (response : string) : mfa MFAChallengeResult :=
  let! codeID := query (matchRecoveryCode (Principal_UserID principal) response) in
  match codeID with
  | None => deny_response principal challenge "recovery_code"
  | Some codeID => consume_recovery now principal sessionID challenge codeID
  end.

(** A panic in the code check, which never happens, is an error here. *)
Definition check_totp (secret response : string) (now : Z) : mfa bool :=
  match verifyTOTP secret response now with Some b => gret b | None => gfail (mk_error ErrOther "panic") end.

(** The response to a challenge that was read before. *)
Definition verify_read_challenge (now : Z) (e : Entropy) (principal : Principal) (sessionID : string) (challenge : Challenge)
    (response : string) : mfa MFAChallengeResult :=
  if (128 <? String.length (TrimSpace response))%nat then
    do! ignore (in_store (repo_IncrementChallengeAttempt (Challenge_ID challenge) (Challenge_UserID challenge) (Challenge_SessionID challenge)));
    gfail (errorf ErrInvalidArgument "invalid MFA response")
  else if String.eqb (Challenge_Type challenge) ChallengeTypeRecoveryCode
  then verifyRecoveryChallenge now principal sessionID challenge response
  else
    let! found := challengeSecret now e challenge in
    let '(secret, credential, method) := found in
    let! verified := check_totp secret response now in
    if negb (verified : bool) then
      let! codeID := query (matchRecoveryCode (Principal_UserID principal) response) in
      match (if String.eqb (Challenge_Type challenge) ChallengeTypeTOTPStepUp then codeID else None) with
      | Some codeID => consume_recovery now principal sessionID challenge codeID
      | None => deny_response principal challenge method
      end
    else
      do! in_store (repo_CompleteChallenge challenge credential method now);
      do! record audited principal "identity.mfa.challenge.verify" "success" (Challenge_ID challenge) (method_metadata method);
      gret (challengeResult now method).

Definition VerifyChallenge (now : Z) (e : Entropy) (principal : Principal) (sessionID challengeID response : string) : mfa MFAChallengeResult :=
  let! found := query (repo_GetChallenge challengeID (Principal_UserID principal) sessionID now) in
  let! challenge := glift found in
  verify_read_challenge now e principal sessionID challenge response.

(** ** WebAuthn *)

Definition BeginWebAuthnEnrollment (now : Z) (e : Entropy) (principal : Principal) (sessionID : string) : mfa MFAOptions :=
  let! user := glift (map_err (wrapf "load WebAuthn user") (GetByID (Principal_UserID principal))) in
  let! credentials := query (repo_ListCredentials (Principal_UserID principal)) in
  let webUser := {| WebAuthnUser_ID := User_ID user; WebAuthnUser_Name := User_Username user;
    WebAuthnUser_DisplayName := User_DisplayName user;
    WebAuthnUser_Credentials := omap (fun credential =>
      if negb (String.eqb (Credential_Type credential) CredentialTypeWebAuthn) || str_empty (Credential_ExternalID credential)
      then None else base64_url_decode (Credential_ExternalID credential)) credentials;
    WebAuthnUser_CredentialRecords := [] |} in
  let! registration := glift (BeginRegistration webUser) in
  let! ciphertext := glift (map_err (wrapf "encrypt WebAuthn challenge")
    (EncryptStringWithKeyring (random_nonce e) keys (WebAuthnRegistration_Session registration))) in
  let challenge := new_challenge now e principal sessionID ChallengeTypeWebAuthnEnrollment ciphertext in
  do! in_store (repo_CreateChallenge challenge);
  gret {| MFAOptions_Challenge := WebAuthnRegistration_Challenge registration; MFAOptions_ChallengeID := Challenge_ID challenge;
          MFAOptions_ExpiresAt := Challenge_ExpiresAt challenge |}.

(** The records of the passkeys of a user; one that cannot be decrypted fails the call. *)
Fixpoint credential_records (now : Z) (items : list Credential) : result (list WebAuthnCredential) :=
  match items with
  | [] => Ok []
  | item :: rest =>
      if negb (String.eqb (Credential_Type item) CredentialTypeWebAuthn) || str_empty (Credential_ExternalID item)
      then credential_records now rest
      else
        let* data := map_err (wrapf "decrypt WebAuthn credential") (DecryptStringWithKeyring keys (Credential_SecretCiphertext item) now) in
        let* others := credential_records now rest in
        Ok ({| WebAuthnCredential_ExternalID := Credential_ExternalID item; WebAuthnCredential_Data := data;
               WebAuthnCredential_SignCount := Credential_SignCount item |} :: others)
  end.

Definition webAuthnUser (now : Z) (userID : string) : mfa WebAuthnUser :=
  let! user := glift (GetByID userID) in
  let! items := query (repo_ListCredentials userID) in
  let! records := glift (credential_records now items) in
  gret {| WebAuthnUser_ID := User_ID user; WebAuthnUser_Name := User_Username user; WebAuthnUser_DisplayName := User_DisplayName user;
          WebAuthnUser_Credentials := []; WebAuthnUser_CredentialRecords := records |}.

Definition webAuthnCredential (userID externalID : string) : mfa Credential :=
  let! items := query (repo_ListCredentials userID) in
  match find_first (fun item => String.eqb (Credential_Type item) CredentialTypeWebAuthn &&
      String.eqb (Credential_ExternalID item) externalID) items with
  | Some item => gret item
  | None => gfail (errorf ErrNotFound "WebAuthn credential not found")
  end.

Definition BeginWebAuthnAuthentication (now : Z) (e : Entropy) (principal : Principal) (sessionID purpose applicationID : string) : mfa MFAOptions :=
  if negb (purpose_valid purpose) then gfail (errorf ErrInvalidArgument "invalid WebAuthn purpose")
  else
    let! user := webAuthnUser now (Principal_UserID principal) in
    let! authentication := glift (BeginAuthentication user) in
    let! state := glift (map_err (wrapf "marshal WebAuthn challenge") (marshal_state
      {| state_Session := WebAuthnAuthentication_Session authentication; state_Purpose := purpose;
         state_ApplicationID := TrimSpace applicationID |})) in
    let! ciphertext := glift (map_err (wrapf "encrypt WebAuthn challenge") (EncryptStringWithKeyring (random_nonce e) keys state)) in
    let challenge := new_challenge now e principal sessionID ChallengeTypeWebAuthnAuthentication ciphertext in
    do! in_store (repo_CreateChallenge challenge);
    gret {| MFAOptions_Challenge := WebAuthnAuthentication_Challenge authentication; MFAOptions_ChallengeID := Challenge_ID challenge;
            MFAOptions_ExpiresAt := Challenge_ExpiresAt challenge |}.

Definition deny_webauthn {A} (principal : Principal) (challenge : Challenge) (action : string) : mfa A :=
  do! ignore (in_store (repo_IncrementChallengeAttempt (Challenge_ID challenge) (Challenge_UserID challenge) (Challenge_SessionID challenge)));
  do! record audited principal action "deny" (Challenge_ID challenge) ∅;
  gfail (errorf ErrUnauthorized "invalid WebAuthn response").

Definition verifyWebAuthnAuthentication (now : Z) (e : Entropy) (principal : Principal) (challenge : Challenge) (response : WebAuthnResponse)
    : mfa MFAChallengeResult :=
  let! plain := glift (map_err (wrapf "decrypt WebAuthn challenge")
    (DecryptStringWithKeyring keys (Challenge_SecretCiphertext challenge) now)) in
  match unmarshal_state plain with
  | None => gfail (mk_error ErrOther "decode WebAuthn challenge")
  | Some state =>
      let! user := webAuthnUser now (Principal_UserID principal) in
      match FinishAuthentication user (state_Session state) response with
      | Err _ => deny_webauthn principal challenge "identity.mfa.webauthn.authenticate"
      | Ok verified =>
          let! credential := webAuthnCredential (Principal_UserID principal) (WebAuthnCredential_ExternalID verified) in
          let! encrypted := glift (map_err (wrapf "encrypt WebAuthn credential")
            (EncryptStringWithKeyring (random_nonce e) keys (WebAuthnCredential_Data verified))) in
          do! in_store (repo_CompleteWebAuthnChallenge challenge credential encrypted (WebAuthnCredential_SignCount verified)
            CredentialTypeWebAuthn now);
          do! record audited principal "identity.mfa.webauthn.authenticate" "success" (Challenge_ID challenge)
            {[ "purpose" := AString (state_Purpose state); "applicationId" := AString (state_ApplicationID state) ]};
          gret (challengeResult now CredentialTypeWebAuthn)
      end
  end.

(** The registration reads three fields of the response. *)
Definition registration_response (response : WebAuthnResponse) : WebAuthnResponse :=
  {| WebAuthnResponse_CredentialID := WebAuthnResponse_CredentialID response;
     WebAuthnResponse_ClientDataJSON := WebAuthnResponse_ClientDataJSON response;
     WebAuthnResponse_AttestationObject := WebAuthnResponse_AttestationObject response;
     WebAuthnResponse_AuthenticatorData := ""; WebAuthnResponse_Signature := ""; WebAuthnResponse_UserHandle := "" |}.

Definition finish_enrollment (now : Z) (e : Entropy) (principal : Principal) (challenge : Challenge) (response : WebAuthnResponse)
    : mfa MFAChallengeResult :=
  let! sessionData := glift (map_err (wrapf "decrypt WebAuthn challenge")
    (DecryptStringWithKeyring keys (Challenge_SecretCiphertext challenge) now)) in
  let! user := glift (GetByID (Principal_UserID principal)) in
  match FinishRegistration {| WebAuthnUser_ID := User_ID user; WebAuthnUser_Name := User_Username user;
      WebAuthnUser_DisplayName := User_DisplayName user; WebAuthnUser_Credentials := []; WebAuthnUser_CredentialRecords := [] |}
      sessionData (registration_response response) with
  | Err _ => deny_webauthn principal challenge "identity.mfa.webauthn.verify"
  | Ok credential =>
      let! encrypted := glift (map_err (wrapf "encrypt WebAuthn credential")
        (EncryptStringWithKeyring (random_nonce e) keys (WebAuthnCredential_Data credential))) in
      let stored := {| Credential_ID := new_uuid e 0; Credential_UserID := Principal_UserID principal;
        Credential_Type := CredentialTypeWebAuthn; Credential_DisplayName := "Passkey";
        Credential_ExternalID := WebAuthnCredential_ExternalID credential; Credential_SecretCiphertext := encrypted;
        Credential_SignCount := WebAuthnCredential_SignCount credential; Credential_CreatedAt := now;
        Credential_LastUsedAt := None; Credential_RevokedAt := None |} in
      do! in_store (repo_CompleteChallenge challenge (Some stored) CredentialTypeWebAuthn now);
      do! record audited principal "identity.mfa.webauthn.verify" "success" (Challenge_ID challenge) ∅;
      gret (challengeResult now CredentialTypeWebAuthn)
  end.

Definition verify_read_webauthn (now : Z) (e : Entropy) (principal : Principal) (challenge : Challenge) (response : WebAuthnResponse)
    : mfa MFAChallengeResult :=
  if String.eqb (Challenge_Type challenge) ChallengeTypeWebAuthnAuthentication
  then verifyWebAuthnAuthentication now e principal challenge response
  else if negb (String.eqb (Challenge_Type challenge) ChallengeTypeWebAuthnEnrollment)
  then gfail (errorf ErrInvalidArgument "challenge type mismatch")
  else finish_enrollment now e principal challenge response.

Definition VerifyWebAuthnChallenge (now : Z) (e : Entropy) (principal : Principal) (sessionID challengeID : string) (response : WebAuthnResponse)
    : mfa MFAChallengeResult :=
  let! found := query (repo_GetChallenge challengeID (Principal_UserID principal) sessionID now) in
  let! challenge := glift found in
  verify_read_webauthn now e principal challenge response.

(** ** Recovery codes *)

(** [n] codes and their hashed rows, drawn from the place [i] on. *)
Fixpoint draw_codes (now : Z) (e : Entropy) (userID : string) (i n : nat) : result (list string * list RecoveryCode) :=
  match n with
  | O => Ok ([], [])
  | S n =>
      let* code := newRecoveryCode (random_bytes e i 10) in
      let* hash := map_err (wrapf "hash recovery code") (GenerateFromPassword (normalizeRecoveryCode code)) in
      let* rest := draw_codes now e userID (S i) n in
      Ok (code :: fst rest, {| RecoveryCode_ID := new_uuid e i; RecoveryCode_UserID := userID; RecoveryCode_CodeHash := hash;
        RecoveryCode_CreatedAt := now; RecoveryCode_UsedAt := None |} :: snd rest)
  end.

Definition RegenerateRecoveryCodes (now dbNow : Z) (e : Entropy) (principal : Principal) (sessionID : string) : mfa (list string) :=
  do! requireRecentStepUp now dbNow (Principal_UserID principal) sessionID;
  let! drawn := glift (draw_codes now e (Principal_UserID principal) 0 recoveryCodeCount) in
  do! in_store (repo_ReplaceRecoveryCodes (Principal_UserID principal) (snd drawn));
  do! record audited principal "identity.mfa.recovery_codes.regenerate" "success" (Principal_UserID principal)
    {[ "count" := AInt (Z.of_nat (length (snd drawn))) ]};
  gret (fst drawn).
End service.

(** ** Lemmas *)

Lemma in_store_inv {A} (m : mfa_store A) w r w' :
  in_store m w = (r, w') ->
  exists s, m (mw_store w) = (r, s) /\ w' = {| mw_store := s; mw_cache := mw_cache w; mw_audit := mw_audit w |}.
Proof. unfold in_store. destruct (m (mw_store w)) as [r' s]. intros [= <- <-]. eauto. Qed.

Lemma record_store audited principal action result resource metadata w r w' :
  record audited principal action result resource metadata w = (r, w') -> r = Ok tt /\ mw_store w' = mw_store w.
Proof. unfold record. intros [= <- <-]. by destruct audited. Qed.

Lemma GetChallenge_Ok id userID sessionID now s c :
  repo_GetChallenge id userID sessionID now s = Ok c ->
  st_challenges s !! TrimSpace id = Some c /\ challenge_open (TrimSpace userID) (TrimSpace sessionID) now c = true.
Proof.
  unfold repo_GetChallenge. destruct (st_challenges s !! TrimSpace id) as [x|]; [|done].
  destruct (challenge_open _ _ _ x) eqn:Ho; [|done]. by intros [= <-].
Qed.

Section proofs.
Context `{CatalogSource, MapRange, MfaDatabase, Cipher, WebAuthn, MfaDeps}.
Context (keys : Ring) (permissions : PermissionResolver) (audited : bool).

Lemma ActiveCredential_Ok userID type s c :
  repo_ActiveCredential userID type s = Ok c ->
  (exists k, st_credentials s !! k = Some c) /\ Credential_UserID c = TrimSpace userID /\ Credential_Type c = TrimSpace type /\
  Credential_RevokedAt c = None.
Proof.
  unfold repo_ActiveCredential. destruct (slice_sort _ _) as [|x l] eqn:Hl; [done|]. intros [= <-].
  assert (x ∈ x :: l) as Hx by left. rewrite <-Hl, slice_sort_perm in Hx. apply elem_of_rows in Hx as [Hp Hk].
  unfold credential_active in Hp. rewrite !andb_true_iff, !String.eqb_eq, unset_None in Hp. naive_solver.
Qed.

Lemma elem_of_ListRecoveryCodes userID s c :
  c ∈ repo_ListRecoveryCodes userID s <->
  (exists k, st_codes s !! k = Some c) /\ RecoveryCode_UserID c = TrimSpace userID /\ RecoveryCode_UsedAt c = None.
Proof.
  unfold repo_ListRecoveryCodes. rewrite slice_sort_perm, elem_of_rows. unfold unused_code.
  rewrite andb_true_iff, String.eqb_eq, unset_None. naive_solver.
Qed.

Lemma matchRecoveryCode_Some userID response s id :
  filed s -> matchRecoveryCode userID response s = Some id ->
  exists code, st_codes s !! id = Some code /\ RecoveryCode_UserID code = TrimSpace userID /\ RecoveryCode_UsedAt code = None /\
    CompareHashAndPassword (RecoveryCode_CodeHash code) (normalizeRecoveryCode response) = true.
Proof.
  intros (_ & _ & Hf). unfold matchRecoveryCode. destruct (find_first _ _) as [code|] eqn:Hfind; [|done].
  intros [= <-]. apply find_first_Some in Hfind as [Hin Hcmp]. apply elem_of_ListRecoveryCodes in Hin as ((k & Hk) & Hu & Hun).
  exists code. by rewrite (Hf _ _ Hk).
Qed.

(** What a session was stepped up for: a code of the secret being enrolled, a
    code of the active credential, or an unused recovery code, which is used up. *)
Inductive factor_shown (now : Z) (c : Challenge) (response : string) (s s' : MfaStore) : string -> Prop :=
| shown_enrollment secret :
    Challenge_Type c = ChallengeTypeTOTPEnrollment ->
    DecryptStringWithKeyring keys (Challenge_SecretCiphertext c) now = Ok secret -> verifyTOTP secret response now = Some true ->
    st_codes s' = st_codes s -> factor_shown now c response s s' CredentialTypeTOTP
| shown_totp k credential secret :
    Challenge_Type c = ChallengeTypeTOTPStepUp ->
    st_credentials s !! k = Some credential -> Credential_UserID credential = TrimSpace (Challenge_UserID c) ->
    Credential_Type credential = CredentialTypeTOTP -> Credential_RevokedAt credential = None ->
    DecryptStringWithKeyring keys (Credential_SecretCiphertext credential) now = Ok secret -> verifyTOTP secret response now = Some true ->
    st_credentials s' = st_credentials s -> st_codes s' = st_codes s -> factor_shown now c response s s' CredentialTypeTOTP
| shown_code id code :
    Challenge_Type c = ChallengeTypeTOTPStepUp \/ Challenge_Type c = ChallengeTypeRecoveryCode ->
    st_codes s !! id = Some code -> RecoveryCode_UserID code = Challenge_UserID c -> RecoveryCode_UsedAt code = None ->
    CompareHashAndPassword (RecoveryCode_CodeHash code) (normalizeRecoveryCode response) = true ->
    st_credentials s' = st_credentials s -> st_codes s' = <[id := use_code now code]> (st_codes s) ->
    factor_shown now c response s s' "recovery_code".

(** The session and the challenge after a success. *)
Definition stepped_up (now : Z) (c : Challenge) (method : string) (s s' : MfaStore) : Prop :=
  st_challenges s' = <[Challenge_ID c := consume_challenge now c]> (st_challenges s) /\
  exists row, st_sessions s !! TrimSpace (Challenge_SessionID c) = Some row /\
    SessionRow_UserID row = TrimSpace (Challenge_UserID c) /\ SessionRow_Status row = "active" /\ now < SessionRow_ExpiresAt row /\
    st_sessions s' = <[TrimSpace (Challenge_SessionID c) := step_up_session method now row]> (st_sessions s).

Lemma session_usable_spec userID now row :
  session_usable userID now row = true <->
  SessionRow_UserID row = userID /\ SessionRow_Status row = "active" /\ now < SessionRow_ExpiresAt row.
Proof. unfold session_usable, active_session. rewrite !andb_true_iff, !String.eqb_eq, Z.ltb_lt. tauto. Qed.

Lemma completed_stepped_up id userID sessionID method now s s' c :
  completed id userID sessionID method now s s' -> filed s -> st_challenges s !! id = Some c ->
  Challenge_UserID c = userID /\ Challenge_SessionID c = sessionID /\ stepped_up now c method s s' /\ metadata_jsonb = true.
Proof.
  intros (Hjson & (c' & Hc' & Ho & Hch) & (row & Hrow & Hu & Hs)) (_ & Hf & _) Hc.
  assert (c' = c) as -> by congruence. apply challenge_open_spec in Ho as (<- & <- & _). apply session_usable_spec in Hu as (? & ? & ?).
  split_and!; [done..| |done]. unfold stepped_up. rewrite (Hf _ _ Hc). split; [done|]. by exists row.
Qed.

Lemma consume_recovery_Ok now principal sessionID c codeID w r w' k :
  consume_recovery audited now principal sessionID c codeID w = (Ok r, w') -> filed (mw_store w) ->
  st_challenges (mw_store w) !! k = Some c ->
  r = challengeResult now "recovery_code" /\ Challenge_UserID c = Principal_UserID principal /\ metadata_jsonb = true /\
  stepped_up now c "recovery_code" (mw_store w) (mw_store w') /\ st_credentials (mw_store w') = st_credentials (mw_store w) /\
  exists code, st_codes (mw_store w) !! codeID = Some code /\ unused_code (Principal_UserID principal) code = true /\
    st_codes (mw_store w') = <[codeID := use_code now code]> (st_codes (mw_store w)).
Proof.
  intros Hm Hf Hk. assert (Challenge_ID c = k) as <- by (by apply Hf).
  apply gbind_Ok in Hm as ([] & w1 & (s1 & Hr & ->)%in_store_inv & Hm).
  apply gbind_Ok in Hm as ([] & w2 & [_ Hst]%record_store & [= <- <-]). cbn [mw_store] in Hst. rewrite Hst.
  apply Recover_Ok in Hr as (Hcom & Hcred & code & Hcode & Hun & Hcodes).
  destruct (completed_stepped_up _ _ _ _ _ _ _ _ Hcom Hf Hk) as (? & ? & ? & ?). split_and!; try done. by exists code.
Qed.
Lemma check_totp_Ok secret response now w b w' :
  check_totp secret response now w = (Ok b, w') -> verifyTOTP secret response now = Some b /\ w' = w.
Proof. unfold check_totp. destruct (verifyTOTP _ _ _) as [v|]; [|done]. by intros [= <- <-]. Qed.

(** The secret that is checked, by the type of the challenge. *)
Lemma challengeSecret_Ok now e c w secret credential method w' :
  challengeSecret keys now e c w = (Ok (secret, credential, method), w') ->
  w' = w /\ method = CredentialTypeTOTP /\
  ((Challenge_Type c = ChallengeTypeTOTPEnrollment /\
    DecryptStringWithKeyring keys (Challenge_SecretCiphertext c) now = Ok secret /\
    exists item, credential = Some item) \/
   (Challenge_Type c = ChallengeTypeTOTPStepUp /\ credential = None /\
    exists k item, st_credentials (mw_store w) !! k = Some item /\ Credential_UserID item = TrimSpace (Challenge_UserID c) /\
      Credential_Type item = CredentialTypeTOTP /\ Credential_RevokedAt item = None /\
      DecryptStringWithKeyring keys (Credential_SecretCiphertext item) now = Ok secret)).
Proof.
  unfold challengeSecret. destruct (String.eqb_spec (Challenge_Type c) ChallengeTypeTOTPEnrollment) as [Ht|_].
  { destruct (DecryptStringWithKeyring _ _ _) as [plain|err]; [|done]. intros [= <- <- <- <-]. naive_solver. }
  destruct (String.eqb_spec (Challenge_Type c) ChallengeTypeTOTPStepUp) as [Ht|_]; [|done]. cbn [negb].
  intros Hm. apply gbind_Ok in Hm as (active & w1 & [= <- <-] & Hm). apply gbind_Ok in Hm as (item & w1 & Hactive & Hm).
  unfold glift in Hactive. injection Hactive as Hactive <-. apply ActiveCredential_Ok in Hactive as ((k & Hk) & Hu & Hty & Hr).
  destruct (DecryptStringWithKeyring _ _ _) as [plain|err] eqn:Hd; [|done]. injection Hm as <- <- <- <-.
  split_and!; [done..|]. right. split_and!; [done..|]. by exists k, item.
Qed.

Lemma deny_not_Ok {A} principal c method w (a : A) w' : deny_response audited principal c method w = (Ok a, w') -> False.
Proof. intros Hm. apply gbind_Ok in Hm as (? & ? & _ & Hm). by apply gbind_Ok in Hm as (? & ? & _ & [=]). Qed.

Lemma verify_read_Ok now e principal sessionID c response w r w' k :
  verify_read_challenge keys audited now e principal sessionID c response w = (Ok r, w') ->
  filed (mw_store w) -> st_challenges (mw_store w) !! k = Some c ->
  exists method, factor_shown now c response (mw_store w) (mw_store w') method /\
    stepped_up now c method (mw_store w) (mw_store w') /\ r = challengeResult now method /\ metadata_jsonb = true.
Proof.
  intros Hm Hf Hk. pose proof (proj1 (proj2 Hf) _ _ Hk) as Hid. unfold verify_read_challenge in Hm.
  destruct (128 <? _)%nat; [by apply gbind_Ok in Hm as (? & ? & _ & [=])|].
  assert (forall codeID, matchRecoveryCode (Principal_UserID principal) response (mw_store w) = Some codeID ->
    consume_recovery audited now principal sessionID c codeID w = (Ok r, w') ->
    Challenge_Type c = ChallengeTypeTOTPStepUp \/ Challenge_Type c = ChallengeTypeRecoveryCode ->
    exists method, factor_shown now c response (mw_store w) (mw_store w') method /\
      stepped_up now c method (mw_store w) (mw_store w') /\ r = challengeResult now method /\ metadata_jsonb = true) as Hrecovery.
  { intros codeID Hmatch Hcon Hty. destruct (consume_recovery_Ok _ _ _ _ _ _ _ _ _ Hcon Hf Hk) as (-> & Hu & Hjson & Hst & Hcred & code & Hcode & Hun & Hcodes).
    apply andb_true_iff in Hun as [Hun1%String.eqb_eq Hun2%unset_None].
    destruct (matchRecoveryCode_Some _ _ _ _ Hf Hmatch) as (code' & Hcode' & _ & _ & Hcmp).
    assert (code' = code) as -> by congruence.
    exists "recovery_code". split_and!; [|done..]. eapply shown_code; try done. congruence. }
  destruct (String.eqb_spec (Challenge_Type c) ChallengeTypeRecoveryCode) as [Ht|_].
  { apply gbind_Ok in Hm as (codeID & w1 & [= <- <-] & Hm). destruct (matchRecoveryCode _ _ _) as [codeID|] eqn:Hmatch; [eauto|].
    by apply deny_not_Ok in Hm. }
  apply gbind_Ok in Hm as ([[secret credential] method] & w1 & (-> & -> & Hsecret)%challengeSecret_Ok & Hm).
  apply gbind_Ok in Hm as (verified & w1 & [Hv ->]%check_totp_Ok & Hm). destruct verified; cbn [negb] in Hm; cycle 1.
  { apply gbind_Ok in Hm as (codeID & w1 & [= <- <-] & Hm).
    destruct (String.eqb_spec (Challenge_Type c) ChallengeTypeTOTPStepUp) as [Ht|_].
    - destruct (matchRecoveryCode _ _ _) as [codeID|] eqn:Hmatch; [eauto|].
      by apply deny_not_Ok in Hm.
    - by apply deny_not_Ok in Hm. }
  apply gbind_Ok in Hm as ([] & w1 & (s1 & Hc & ->)%in_store_inv & Hm).
  apply gbind_Ok in Hm as ([] & w2 & [_ Hst]%record_store & [= <- <-]). cbn [mw_store] in Hst. rewrite Hst.
  apply CompleteChallenge_Ok in Hc as (Hcom & Hcodes & Hcred). rewrite Hid in Hcom.
  destruct (completed_stepped_up _ _ _ _ _ _ _ _ Hcom Hf Hk) as (_ & _ & Hup & Hjson).
  exists CredentialTypeTOTP. split_and!; [|done..].
  destruct Hsecret as [(Ht & Hd & _)|(Ht & -> & k' & item & Hi & Hu & Hty & Hr & Hd)]; [by eapply shown_enrollment|].
  by eapply (shown_totp _ _ _ _ _ k' item secret).
Qed.

(** A refused response changes the count of attempts at most. *)
Lemma deny_store {A} principal c method w (r : result A) w' k :
  deny_response audited principal c method w = (r, w') -> filed (mw_store w) ->
  st_challenges (mw_store w) !! k = Some c -> Challenge_ConsumedAt c = None ->
  mw_store w' = set_challenges (<[k := count_attempt c]> (st_challenges (mw_store w))) (mw_store w).
Proof.
  intros Hm Hf Hk Hn. pose proof (proj1 (proj2 Hf) _ _ Hk) as Hid.
  unfold deny_response, gbind, ignore, in_store, repo_IncrementChallengeAttempt, update_by_id in Hm. rewrite Hid, Hk in Hm.
  assert (live_challenge (Challenge_UserID c) c && String.eqb (Challenge_SessionID c) (Challenge_SessionID c) = true) as Hl.
  { unfold live_challenge. by rewrite Hn, !String.eqb_refl. }
  rewrite Hl in Hm. unfold record in Hm. injection Hm as _ <-. by destruct audited.
Qed.
Definition invalid_error : error := errorf ErrUnauthorized "invalid MFA response".

Lemma complete_error challenge credential method now s e s' :
  repo_CompleteChallenge challenge credential method now s = (Err e, s') -> e <> invalid_error.
Proof.
  unfold repo_CompleteChallenge, transaction, gbind, repo_ConsumeChallenge, insert_credential, markSessionStepUp, gret.
  intros Hm. repeat case_match; simplify_eq/=; discriminate.
Qed.

Lemma recover_error challengeID codeID userID sessionID now s e s' :
  repo_ConsumeRecoveryCodeAndStepUp challengeID codeID userID sessionID now s = (Err e, s') -> e <> invalid_error.
Proof.
  unfold repo_ConsumeRecoveryCodeAndStepUp, transaction, gbind, repo_ConsumeChallenge, repo_ConsumeRecoveryCode, markSessionStepUp.
  intros Hm. repeat case_match; simplify_eq/=; discriminate.
Qed.

Lemma gbind_Err {S A B} (m : stateful S A) (f : A -> stateful S B) w e w' :
  gbind m f w = (Err e, w') -> m w = (Err e, w') \/ exists a w1, m w = (Ok a, w1) /\ f a w1 = (Err e, w').
Proof. unfold gbind. destruct (m w) as [[a|err] w1]; [eauto|]. intros [= <- <-]. auto. Qed.

Lemma consume_recovery_Err now principal sessionID c codeID w err w' :
  consume_recovery audited now principal sessionID c codeID w = (Err err, w') ->
  mw_store w' = mw_store w /\ err <> invalid_error.
Proof.
  intros [(s1 & Hr & ->)%in_store_inv|([] & w1 & _ & Hm)]%gbind_Err.
  - split; [by eapply recover_Err|by eapply recover_error].
  - by apply gbind_Err in Hm as [[?%eq_sym _]%record_store|(? & ? & _ & [=])].
Qed.

Lemma challengeSecret_Err now e c w err w' :
  challengeSecret keys now e c w = (Err err, w') -> w' = w /\ err <> invalid_error.
Proof.
  unfold challengeSecret. destruct (String.eqb _ _).
  { destruct (DecryptStringWithKeyring _ _ _) as [plain|err0]; [done|]. intros [= <- <-]. done. }
  destruct (negb _); [by intros [= <- <-]|]. unfold query, glift, gbind. unfold repo_ActiveCredential.
  destruct (slice_sort _ _); [by intros [= <- <-]|].
  destruct (DecryptStringWithKeyring _ _ _) as [plain|err0]; [done|]. by intros [= <- <-].
Qed.

(** After an error the tables are the same, but for the count of attempts of
    the challenge; an answer that is judged wrong is counted. *)
Lemma verify_read_Err now e principal sessionID c response w err w' k :
  verify_read_challenge keys audited now e principal sessionID c response w = (Err err, w') ->
  filed (mw_store w) -> st_challenges (mw_store w) !! k = Some c -> Challenge_ConsumedAt c = None ->
  (mw_store w' = mw_store w /\ err <> invalid_error) \/
  mw_store w' = set_challenges (<[k := count_attempt c]> (st_challenges (mw_store w))) (mw_store w).
Proof.
  intros Hm Hf Hk Hn. pose proof (proj1 (proj2 Hf) _ _ Hk) as Hid. unfold verify_read_challenge in Hm.
  destruct (128 <? _)%nat.
  { right. unfold gbind, ignore, in_store, repo_IncrementChallengeAttempt, update_by_id in Hm. rewrite Hid, Hk in Hm.
    unfold live_challenge in Hm. rewrite Hn, !String.eqb_refl in Hm. by injection Hm as _ <-. }
  destruct (String.eqb_spec (Challenge_Type c) ChallengeTypeRecoveryCode) as [Ht|_].
  { apply gbind_Err in Hm as [[=]|(codeID & w1 & [= <- <-] & Hm)]. destruct (matchRecoveryCode _ _ _).
    - left. by eapply consume_recovery_Err.
    - right. by eapply deny_store. }
  apply gbind_Err in Hm as [[-> ?]%challengeSecret_Err|([[secret credential] method] & w1 & (-> & -> & _)%challengeSecret_Ok & Hm)]; [by left|].
  apply gbind_Err in Hm as [Hm|(verified & w1 & [_ ->]%check_totp_Ok & Hm)].
  { left. unfold check_totp in Hm. destruct (verifyTOTP _ _ _); [done|]. by injection Hm as <- <-. }
  destruct verified; cbn [negb] in Hm; cycle 1.
  { apply gbind_Err in Hm as [[=]|(codeID & w1 & [= <- <-] & Hm)].
    destruct (if String.eqb _ _ then _ else None); [left; by eapply consume_recovery_Err|right; by eapply deny_store]. }
  left. apply gbind_Err in Hm as [(s1 & Hc & ->)%in_store_inv|([] & w1 & _ & Hm)].
  - split; [by eapply complete_Err|by eapply complete_error].
  - by apply gbind_Err in Hm as [[?%eq_sym _]%record_store|(? & ? & _ & [=])].
Qed.

Lemma VerifyChallenge_read now e principal sessionID challengeID response w r w' :
  VerifyChallenge keys audited now e principal sessionID challengeID response w = (r, w') ->
  (exists c, st_challenges (mw_store w) !! TrimSpace challengeID = Some c /\
     challenge_open (TrimSpace (Principal_UserID principal)) (TrimSpace sessionID) now c = true /\
     verify_read_challenge keys audited now e principal sessionID c response w = (r, w')) \/
  (w' = w /\ r = Err (errorf ErrConflict "MFA challenge is invalid, expired, or consumed") /\
   (forall c, st_challenges (mw_store w) !! TrimSpace challengeID = Some c ->
      challenge_open (TrimSpace (Principal_UserID principal)) (TrimSpace sessionID) now c = false)).
Proof.
  unfold VerifyChallenge, gbind, query, glift. destruct (repo_GetChallenge _ _ _ _ _) as [c|err] eqn:Hg.
  - intros Hm. left. exists c. by apply GetChallenge_Ok in Hg as [Hc Ho].
  - intros [= <- <-]. right. unfold repo_GetChallenge in Hg.
    destruct (st_challenges _ !! _) as [x|]; [destruct (challenge_open _ _ _ x) eqn:Hx|]; simplify_eq/=; naive_solver.
Qed.
End proofs.

(** Responses to one challenge, one after another, and what each was told. *)
Fixpoint respond `{MfaDatabase, Cipher, MfaDeps} (keys : Ring) (audited : bool) (principal : Principal) (sessionID challengeID : string)
    (responses : list (Z * Entropy * string)) (w : MfaWorld) : list (result MFAChallengeResult) :=
  match responses with
  | [] => []
  | (now, e, response) :: rest =>
      let '(r, w) := VerifyChallenge keys audited now e principal sessionID challengeID response w in
      r :: respond keys audited principal sessionID challengeID rest w
  end.

(** The response was judged: accepted, or found wrong. *)
Definition judged (r : result MFAChallengeResult) : bool :=
  match r with Ok _ => true | Err err => bool_decide (err = errorf ErrUnauthorized "invalid MFA response") end.

Section properties.
Context `{CatalogSource, MapRange, MfaDatabase, Cipher, WebAuthn, MfaDeps}.

Lemma closed_not_judged keys audited principal sessionID challengeID responses w :
  (forall now c, st_challenges (mw_store w) !! TrimSpace challengeID = Some c ->
     challenge_open (TrimSpace (Principal_UserID principal)) (TrimSpace sessionID) now c = false) ->
  filter (fun r => judged r = true) (respond keys audited principal sessionID challengeID responses w) = [].
Proof.
  intros Hclosed. induction responses as [|[[now e] response] rest IH]; [done|]. cbn [respond].
  destruct (VerifyChallenge _ _ _ _ _ _ _ _ _) as [r w'] eqn:Hv.
  apply VerifyChallenge_read in Hv as [(c & Hc & Ho & _)|(-> & -> & _)]; [by rewrite Hclosed in Ho|].
  rewrite filter_cons, decide_False by (cbn [judged]; by rewrite bool_decide_eq_true). exact IH.
Qed.

(** C22. A challenge allows no more guesses than it has attempts left: of any
    responses sent one after another, at any times, at most that many are
    judged; the others learn only that the challenge is closed. *)
Theorem guesses_bounded keys audited principal sessionID challengeID responses w c :
  filed (mw_store w) -> st_challenges (mw_store w) !! TrimSpace challengeID = Some c ->
  (length (filter (fun r => judged r = true) (respond keys audited principal sessionID challengeID responses w)) <=
   Z.to_nat (Challenge_MaxAttempts c - Challenge_Attempts c))%nat.
Proof.
  revert w c. induction responses as [|[[now e] response] rest IH]; intros w c Hf Hc; [simpl; lia|]. cbn [respond].
  destruct (VerifyChallenge _ _ _ _ _ _ _ _ _) as [r w'] eqn:Hv.
  apply VerifyChallenge_read in Hv as [(c' & Hc' & Ho & Hv)|(-> & -> & Hclosed)].
  2: { rewrite filter_cons, decide_False by (cbn [judged]; by rewrite bool_decide_eq_true). by apply IH. }
  assert (c' = c) as -> by congruence. clear Hc'. apply challenge_open_spec in Ho as (_ & _ & Hn & _ & Hleft).
  destruct r as [r|err].
  - destruct (verify_read_Ok _ _ _ _ _ _ _ _ _ _ _ _ Hv Hf Hc) as (method & _ & [Hch _] & _).
    rewrite filter_cons, decide_True by done. rewrite closed_not_judged; [cbn [length]; lia|].
    intros now' c'. rewrite Hch, (proj1 (proj2 Hf) _ _ Hc), lookup_insert_eq. intros [= <-].
    apply not_true_is_false. intros Ho%challenge_open_spec. by destruct Ho as (_ & _ & [=] & _).
  - destruct (verify_read_Err _ _ _ _ _ _ _ _ _ _ _ _ Hv Hf Hc Hn) as [[Hs Herr]|Hs].
    + rewrite filter_cons, decide_False by (cbn; by rewrite bool_decide_eq_true). apply IH; by rewrite Hs.
    + assert (length (filter (fun r => judged r = true) (respond keys audited principal sessionID challengeID rest w')) <=
        Z.to_nat (Challenge_MaxAttempts c - (Challenge_Attempts c + 1)))%nat as Hrest.
      { apply (IH w' (count_attempt c)); rewrite Hs; [|cbn; by rewrite lookup_insert_eq].
        destruct Hf as (Hf1 & Hf2 & Hf3). split_and!; cbn; try done. intros k x.
        destruct (decide (TrimSpace challengeID = k)) as [<-|Hne]; [|rewrite lookup_insert_ne by done; apply Hf2].
        rewrite lookup_insert_eq. intros [= <-]. exact (Hf2 _ _ Hc). }
      rewrite filter_cons. destruct (decide _); cbn [length]; lia.
Qed.

(** C19. A successful response to a challenge: the challenge was issued to this
    user and session, was not consumed, had not expired and had attempts left;
    the response was a current code of the secret being enrolled, a current
    code of the user's active credential, or an unused recovery code of the
    user, now used; the challenge is now consumed, the session, which was
    active, is stepped up at this time, and no other session is. *)
Theorem verify_sound keys audited now e principal sessionID challengeID response w r w' :
  filed (mw_store w) ->
  VerifyChallenge keys audited now e principal sessionID challengeID response w = (Ok r, w') ->
  exists c method, st_challenges (mw_store w) !! TrimSpace challengeID = Some c /\
    Challenge_UserID c = TrimSpace (Principal_UserID principal) /\ Challenge_SessionID c = TrimSpace sessionID /\
    Challenge_ConsumedAt c = None /\ now < Challenge_ExpiresAt c /\ Challenge_Attempts c < Challenge_MaxAttempts c /\
    factor_shown keys now c response (mw_store w) (mw_store w') method /\
    stepped_up now c method (mw_store w) (mw_store w') /\
    MFAChallengeResult_AuthenticatedAt r = now /\ MFAChallengeResult_AuthenticationMethods r = ["mfa"; method].
Proof.
  intros Hf [(c & Hc & Ho%challenge_open_spec & Hv)|(_ & [=] & _)]%VerifyChallenge_read.
  destruct (verify_read_Ok _ _ _ _ _ _ _ _ _ _ _ _ Hv Hf Hc) as (method & Hfac & Hup & -> & _). exists c, method. naive_solver.
Qed.

(** A response that fails gives nothing away: no session, no credential and
    no recovery code changes, and the challenges change at most in the count of
    attempts of the one that was answered. *)
Theorem verify_failure_frame keys audited now e principal sessionID challengeID response w err w' :
  filed (mw_store w) ->
  VerifyChallenge keys audited now e principal sessionID challengeID response w = (Err err, w') ->
  st_sessions (mw_store w') = st_sessions (mw_store w) /\ st_credentials (mw_store w') = st_credentials (mw_store w) /\
  st_codes (mw_store w') = st_codes (mw_store w) /\
  (st_challenges (mw_store w') = st_challenges (mw_store w) /\ err <> errorf ErrUnauthorized "invalid MFA response" \/
   exists c, st_challenges (mw_store w) !! TrimSpace challengeID = Some c /\
     st_challenges (mw_store w') = <[TrimSpace challengeID := count_attempt c]> (st_challenges (mw_store w))).
Proof.
  intros Hf [(c & Hc & Ho%challenge_open_spec & Hv)|(-> & [= ->] & _)]%VerifyChallenge_read; [|split_and!; [done..|by left]].
  destruct Ho as (_ & _ & Hn & _). destruct (verify_read_Err _ _ _ _ _ _ _ _ _ _ _ _ Hv Hf Hc Hn) as [[-> Herr]| ->]; cbn.
  - split_and!; [done..|by left].
  - split_and!; [done..|]. right. by exists c.
Qed.
(** The row of a session that may be relied on. *)
Definition recent_step_up (now dbNow : Z) (userID sessionID : string) (s : MfaStore) : Prop :=
  exists row at_, st_sessions s !! TrimSpace sessionID = Some row /\ SessionRow_UserID row = TrimSpace userID /\
    SessionRow_Status row = "active" /\ dbNow < SessionRow_ExpiresAt row /\ SessionRow_mfa row = true /\
    SessionRow_mfaAuthenticatedAt row = Some at_ /\ now - 10 * 60 * 10 ^ 9 <= at_.

Lemma requireRecentStepUp_exact now dbNow userID sessionID w r w' :
  requireRecentStepUp now dbNow userID sessionID w = (r, w') ->
  w' = w /\ (r = Ok tt <-> recent_step_up now dbNow userID sessionID (mw_store w)) /\ (r = Ok tt \/ exists err, r = Err err /\ err_kind err = ErrMFARequired).
Proof.
  unfold requireRecentStepUp, gbind, query. intros Hr.
  assert (repo_HasRecentStepUp sessionID userID (now - recentStepUpWindow) dbNow (mw_store w) = true <->
    recent_step_up now dbNow userID sessionID (mw_store w)) as Hiff.
  { unfold repo_HasRecentStepUp, recent_step_up. destruct (st_sessions _ !! _) as [row|]; [|naive_solver].
    rewrite !andb_true_iff, session_usable_spec. destruct (SessionRow_mfaAuthenticatedAt row) as [t|] eqn:Ht; [|naive_solver].
    rewrite Z.leb_le. change recentStepUpWindow with (10 * 60 * 10 ^ 9). naive_solver. }
  destruct (repo_HasRecentStepUp _ _ _ _ _); injection Hr as <- <-.
  - split_and!; [done|naive_solver|by left].
  - split_and!; [done|naive_solver|right; by eexists].
Qed.

(** A credential is revoked by its owner, and recovery codes are replaced,
    only in a session that is active, has not expired on the database's clock,
    and was stepped up in the last ten minutes; a refusal changes nothing. *)
Theorem step_up_gate keys audited now dbNow e principal sessionID credentialID w :
  let user := Principal_UserID principal in
  (forall w', RevokeCredential audited now dbNow principal sessionID credentialID w = (Ok tt, w') ->
     recent_step_up now dbNow user sessionID (mw_store w)) /\
  (forall codes w', RegenerateRecoveryCodes audited now dbNow e principal sessionID w = (Ok codes, w') ->
     recent_step_up now dbNow user sessionID (mw_store w)) /\
  (~ recent_step_up now dbNow user sessionID (mw_store w) ->
     exists err, RevokeCredential audited now dbNow principal sessionID credentialID w = (Err err, w) /\
       RegenerateRecoveryCodes audited now dbNow e principal sessionID w = (Err err, w) /\ err_kind err = ErrMFARequired) /\
  (forall r w' challengeID response n, filed (mw_store w) -> Principal_UserID principal = TrimSpace user -> sessionID = TrimSpace sessionID ->
     VerifyChallenge keys audited now e principal sessionID challengeID response w = (Ok r, w') ->
     now <= n <= now + 10 * 60 * 10 ^ 9 -> recent_step_up n now user sessionID (mw_store w')).
Proof.
  cbv zeta. destruct (requireRecentStepUp now dbNow (Principal_UserID principal) sessionID w) as [r w1] eqn:Hr.
  pose proof (requireRecentStepUp_exact _ _ _ _ _ _ _ Hr) as (-> & Hiff & Hcases). split_and!.
  - intros w' Hm. unfold RevokeCredential in Hm. unfold gbind at 1 in Hm. rewrite Hr in Hm. destruct r as [[]|]; [by apply Hiff|done].
  - intros codes w' Hm. unfold RegenerateRecoveryCodes in Hm. unfold gbind at 1 in Hm. rewrite Hr in Hm. destruct r as [[]|]; [by apply Hiff|done].
  - intros Hno. destruct Hcases as [->|(err & -> & Herr)]; [by destruct Hno; apply Hiff|]. exists err.
    split_and!; [unfold RevokeCredential, gbind; by rewrite Hr|unfold RegenerateRecoveryCodes, gbind; by rewrite Hr|done].
  - intros r' w' challengeID response n Hf Hu Hs [(c & Hc & Ho%challenge_open_spec & Hv)|(_ & [=] & _)]%VerifyChallenge_read Hn.
    destruct (verify_read_Ok _ _ _ _ _ _ _ _ _ _ _ _ Hv Hf Hc) as (method & _ & (_ & row & Hrow & Hru & Hrs & Hre & Hss) & _).
    destruct Ho as (Hcu & Hcs & _). rewrite Hcs, TrimSpace_idem in *. rewrite Hcu, TrimSpace_idem in *.
    exists (step_up_session method now row), now. rewrite Hss, lookup_insert_eq. split_and!; try done. lia.
Qed.

(** ** Recovery codes *)

Lemma insert_codes_Ok codes s s' :
  insert_codes codes s = (Ok tt, s') ->
  (forall k c, st_codes s !! k = Some c -> st_codes s' !! k = Some c) /\
  (forall code, code ∈ codes -> exists c, st_codes s' !! RecoveryCode_ID code = Some c /\ RecoveryCode_ID c = RecoveryCode_ID code /\
     RecoveryCode_UserID c = RecoveryCode_UserID code /\
     RecoveryCode_CodeHash c = RecoveryCode_CodeHash code /\ RecoveryCode_UsedAt c = None) /\
  (forall k c, st_codes s' !! k = Some c -> st_codes s !! k = Some c \/ k ∈ RecoveryCode_ID <$> codes).
Proof.
  revert s. induction codes as [|code codes IH]; intros s; cbn [insert_codes].
  { intros [= <-]. split_and!; [done|by intros ? ?%not_elem_of_nil|auto]. }
  unfold gbind, insert_code. destruct (st_codes s !! RecoveryCode_ID code) eqn:Hl; [done|]. intros Hm.
  destruct (IH _ Hm) as (Hold & Hnew & Hback). cbn in Hold, Hback. split_and!.
  - intros k c Hk. apply Hold. rewrite lookup_insert_ne; [done|]. intros <-. congruence.
  - intros x [->|Hx]%elem_of_cons; [|by apply Hnew]. eexists. split; [apply Hold, lookup_insert_eq|done].
  - intros k c Hk. destruct (Hback k c Hk) as [Hb|Hb]; [|right; by right].
    destruct (decide (RecoveryCode_ID code = k)) as [<-|Hne]; [right; by left|]. rewrite lookup_insert_ne in Hb by done. by left.
Qed.

Lemma draw_codes_Ok now e userID i n codes rows :
  draw_codes now e userID i n = Ok (codes, rows) ->
  length codes = n /\ Forall2 (fun code row => GenerateFromPassword (normalizeRecoveryCode code) = Ok (RecoveryCode_CodeHash row) /\
    RecoveryCode_UserID row = userID) codes rows.
Proof.
  revert i codes rows. induction n as [|n IH]; intros i codes rows; cbn [draw_codes]; [by intros [= <- <-]|].
  destruct (newRecoveryCode _) as [code|]; [|done]. cbn [result_bind].
  destruct (GenerateFromPassword _) as [hash|] eqn:Hh; [|done]. cbn [map_err result_bind].
  destruct (draw_codes _ _ _ _ _) as [[cs rs]|] eqn:Hd; [|done]. intros [= <- <-].
  destruct (IH _ _ _ Hd) as [Hlen Hall]. cbn. split; [by rewrite Hlen|]. by constructor.
Qed.

Lemma draw_ids now e userID i n codes rows k :
  draw_codes now e userID i n = Ok (codes, rows) -> k ∈ RecoveryCode_ID <$> rows -> exists j, (i <= j < i + n)%nat /\ k = new_uuid e j.
Proof.
  revert i codes rows. induction n as [|n IH]; intros i codes rows; cbn [draw_codes]; [by intros [= <- <-] ?%not_elem_of_nil|].
  destruct (newRecoveryCode _) as [code|]; [|done]. cbn [result_bind].
  destruct (GenerateFromPassword _) as [hash|] eqn:Hh; [|done]. cbn [map_err result_bind].
  destruct (draw_codes _ _ _ _ _) as [[cs rs]|] eqn:Hd; [|done]. intros [= <- <-]. cbn [snd]. rewrite fmap_cons.
  intros [->|Hin]%elem_of_cons; [exists i; split; [lia|done]|]. destruct (IH _ _ _ Hd Hin) as (j & ? & ?). exists j. split; [lia|done].
Qed.

(** New recovery codes work, and only they do: each of the ten codes that
    the user is shown is matched by a row of the table; the user has no other
    row, and the rows of other users are as they were. *)
Theorem regenerated_codes_work audited now dbNow e principal sessionID w codes w' :
  let user := Principal_UserID principal in
  TrimSpace user = user ->
  RegenerateRecoveryCodes audited now dbNow e principal sessionID w = (Ok codes, w') ->
  length codes = 10%nat /\
  (forall code, code ∈ codes -> exists id, matchRecoveryCode user code (mw_store w') = Some id) /\
  (forall k c, st_codes (mw_store w') !! k = Some c -> RecoveryCode_UserID c = user ->
     exists i, (i < 10)%nat /\ k = new_uuid e i) /\
  (forall k c, RecoveryCode_UserID c <> user -> st_codes (mw_store w) !! k = Some c -> st_codes (mw_store w') !! k = Some c).
Proof.
  cbv zeta. intros Htrim Hm. unfold RegenerateRecoveryCodes in Hm. unfold gbind at 1 in Hm.
  destruct (requireRecentStepUp _ _ _ _ _) as [[[]|] w1] eqn:Hr; [|done].
  apply requireRecentStepUp_exact in Hr as (-> & _). apply gbind_Ok in Hm as ([cs rows] & w2 & Hd & Hm).
  apply pair_equal_spec in Hd as [Hd <-]. apply gbind_Ok in Hm as ([] & w3 & (s1 & Hrep & ->)%in_store_inv & Hm).
  apply gbind_Ok in Hm as ([] & w4 & [_ Hst]%record_store & [= <- <-]). cbn [mw_store fst snd] in *. rewrite Hst.
  assert (forall k, k ∈ RecoveryCode_ID <$> rows -> exists i, (i < 10)%nat /\ k = new_uuid e i) as Hids.
  { intros k Hk. destruct (draw_ids _ _ _ _ _ _ _ _ Hd Hk) as (j & Hj & ->). exists j. split; [|done]. unfold recoveryCodeCount in Hj. lia. }
  apply draw_codes_Ok in Hd as [Hlen Hall].
  apply transaction_cases in Hrep as [([] & _ & Hrep)|(err & [=] & _)].
  apply gbind_Ok in Hrep as ([] & s2 & [= <-] & Hins). apply insert_codes_Ok in Hins as (Hold & Hnew & Hback). cbn in Hold, Hback.
  split_and!; [done|..].
  - intros code (i & Hi)%list_elem_of_lookup. destruct (Forall2_lookup_l _ _ _ _ _ Hall Hi) as (row & Hrow & Hgen & Hu).
    destruct (Hnew row) as (c & Hc & Hcid & Hcu & Hch & Hcn); [by eapply list_elem_of_lookup_2|].
    unfold matchRecoveryCode. destruct (find_first _ _) as [x|] eqn:Hf; [by eexists|]. exfalso.
    apply (proj1 (find_first_None _ _)) with (x := c) in Hf.
    + by rewrite Hch, (bcrypt_match _ _ Hgen) in Hf.
    + apply elem_of_ListRecoveryCodes. rewrite Htrim. split_and!; [eauto|congruence|done].
  - intros k c Hc Hu. destruct (Hback k c Hc) as [Hb|Hb]; [by apply map_lookup_filter_Some in Hb as [_ []]|]. by apply Hids.
  - intros k c Hu Hc. apply Hold, map_lookup_filter_Some. done.
Qed.
(** ** WebAuthn *)

Lemma deny_webauthn_not_Ok {A} audited principal c action w (a : A) w' : deny_webauthn audited principal c action w = (Ok a, w') -> False.
Proof. intros Hm. apply gbind_Ok in Hm as (? & ? & _ & Hm). by apply gbind_Ok in Hm as (? & ? & _ & [=]). Qed.

Lemma query_Ok {A} (q : MfaStore -> A) w a w' : query q w = (Ok a, w') -> a = q (mw_store w) /\ w' = w.
Proof. by intros [= <- <-]. Qed.

Lemma webAuthnCredential_Ok userID externalID w c w' :
  webAuthnCredential userID externalID w = (Ok c, w') ->
  w' = w /\ (exists k, st_credentials (mw_store w) !! k = Some c) /\ Credential_UserID c = TrimSpace userID /\
  Credential_Type c = CredentialTypeWebAuthn /\ Credential_ExternalID c = externalID /\ Credential_RevokedAt c = None.
Proof.
  intros Hm. apply gbind_Ok in Hm as (items & w1 & [-> ->]%query_Ok & Hm). destruct (find_first _ _) as [x|] eqn:Hf; [|done].
  injection Hm as <- <-. apply find_first_Some in Hf as [Hin [Ht%String.eqb_eq He%String.eqb_eq]%andb_true_iff].
  unfold repo_ListCredentials in Hin. rewrite slice_sort_perm in Hin. apply elem_of_rows in Hin as [Ha Hk].
  apply andb_true_iff in Ha as [Hu%String.eqb_eq Hr%unset_None]. naive_solver.
Qed.

Lemma webAuthnUser_store keys now userID w u w' : webAuthnUser keys now userID w = (Ok u, w') -> w' = w.
Proof.
  intros Hm. apply gbind_Ok in Hm as (user & w1 & [_ ->]%glift_Ok & Hm). apply gbind_Ok in Hm as (items & w1 & [_ ->]%query_Ok & Hm).
  by apply gbind_Ok in Hm as (records & w1 & [_ ->]%glift_Ok & [= _ <-]).
Qed.

(** What a WebAuthn challenge is answered with: a registration that the
    verifier accepts against the session of the challenge, which adds a passkey
    of the user; or an assertion that it accepts, for an active passkey of the
    user whose counter, since it was read, was not raised. *)
Inductive passkey_shown (keys : Ring) (now : Z) (principal : Principal) (c : Challenge) (response : WebAuthnResponse) (s s' : MfaStore) : Prop :=
| shown_registration sessionData user registered item :
    Challenge_Type c = ChallengeTypeWebAuthnEnrollment ->
    DecryptStringWithKeyring keys (Challenge_SecretCiphertext c) now = Ok sessionData ->
    FinishRegistration user sessionData (registration_response response) = Ok registered ->
    Credential_UserID item = Principal_UserID principal -> Credential_Type item = CredentialTypeWebAuthn ->
    Credential_ExternalID item = WebAuthnCredential_ExternalID registered ->
    credential_admissible item (st_credentials s) = true ->
    st_credentials s' = <[Credential_ID item := inserted_credential item]> (st_credentials s) -> passkey_shown keys now principal c response s s'
| shown_assertion plain state user verified id credential ciphertext :
    Challenge_Type c = ChallengeTypeWebAuthnAuthentication ->
    DecryptStringWithKeyring keys (Challenge_SecretCiphertext c) now = Ok plain -> unmarshal_state plain = Some state ->
    FinishAuthentication user (state_Session state) response = Ok verified ->
    st_credentials s !! id = Some credential -> Credential_UserID credential = TrimSpace (Principal_UserID principal) ->
    Credential_Type credential = CredentialTypeWebAuthn -> Credential_ExternalID credential = WebAuthnCredential_ExternalID verified ->
    Credential_RevokedAt credential = None ->
    st_credentials s' = <[id := use_credential ciphertext (WebAuthnCredential_SignCount verified) now credential]> (st_credentials s) ->
    passkey_shown keys now principal c response s s'.

Lemma read_webauthn_Ok keys audited now e principal c response w r w' k :
  verify_read_webauthn keys audited now e principal c response w = (Ok r, w') ->
  filed (mw_store w) -> st_challenges (mw_store w) !! k = Some c ->
  passkey_shown keys now principal c response (mw_store w) (mw_store w') /\
  stepped_up now c CredentialTypeWebAuthn (mw_store w) (mw_store w') /\ st_codes (mw_store w') = st_codes (mw_store w) /\
  metadata_jsonb = true.
Proof.
  intros Hm Hf Hk. pose proof (proj1 (proj2 Hf) _ _ Hk) as Hid. unfold verify_read_webauthn in Hm.
  destruct (String.eqb_spec (Challenge_Type c) ChallengeTypeWebAuthnAuthentication) as [Ht|_].
  - apply gbind_Ok in Hm as (plain & w1 & [Hd%map_err_Ok ->]%glift_Ok & Hm).
    destruct (unmarshal_state plain) as [state|] eqn:Hs; [|done].
    apply gbind_Ok in Hm as (user & w1 & ->%webAuthnUser_store & Hm).
    destruct (FinishAuthentication _ _ _) as [verified|] eqn:Hv; [|by apply deny_webauthn_not_Ok in Hm].
    apply gbind_Ok in Hm as (cred & w1 & (-> & (id & Hcid) & Hcu & Hct & Hce & Hcr)%webAuthnCredential_Ok & Hm).
    apply gbind_Ok in Hm as (ct & w1 & [_ ->]%glift_Ok & Hm).
    apply gbind_Ok in Hm as ([] & w1 & (s1 & Hc & ->)%in_store_inv & Hm).
    apply gbind_Ok in Hm as ([] & w2 & [_ Hst]%record_store & [= <- <-]). cbn [mw_store] in Hst. rewrite Hst.
    apply CompleteWebAuthn_Ok in Hc as (Hcom & Hcodes & x & Hx & _ & _ & Hcreds). rewrite Hid in Hcom.
    destruct (completed_stepped_up _ _ _ _ _ _ _ _ Hcom Hf Hk) as (_ & _ & Hup & Hjson). split_and!; try done.
    pose proof (proj1 Hf _ _ Hcid) as Heq. rewrite Heq in Hx, Hcreds. assert (x = cred) as -> by congruence.
    by eapply (shown_assertion _ _ _ _ _ _ _ plain state user verified id cred ct).
  - destruct (String.eqb_spec (Challenge_Type c) ChallengeTypeWebAuthnEnrollment) as [Ht|_]; [|done]. cbn [negb] in Hm.
    apply gbind_Ok in Hm as (plain & w1 & [Hd%map_err_Ok ->]%glift_Ok & Hm).
    apply gbind_Ok in Hm as (user & w1 & [_ ->]%glift_Ok & Hm).
    destruct (FinishRegistration _ _ _) as [registered|] eqn:Hv; [|by apply deny_webauthn_not_Ok in Hm].
    apply gbind_Ok in Hm as (ct & w1 & [_ ->]%glift_Ok & Hm).
    apply gbind_Ok in Hm as ([] & w1 & (s1 & Hc & ->)%in_store_inv & Hm).
    apply gbind_Ok in Hm as ([] & w2 & [_ Hst]%record_store & [= <- <-]). cbn [mw_store] in Hst. rewrite Hst.
    apply CompleteChallenge_Ok in Hc as (Hcom & Hcodes & Ha & Hcreds). rewrite Hid in Hcom.
    destruct (completed_stepped_up _ _ _ _ _ _ _ _ Hcom Hf Hk) as (_ & _ & Hup & Hjson). split_and!; try done.
    by refine (shown_registration _ _ _ _ _ _ _ plain _ registered _ Ht Hd Hv _ _ _ Ha Hcreds).
Qed.

(** C25. A WebAuthn challenge that is answered was open, for this user and
    session; the verifier accepted the response against the session that the
    challenge keeps, for a passkey of the user; the challenge is consumed and
    the session stepped up, and no recovery code is touched. *)
Theorem webauthn_sound keys audited now e principal sessionID challengeID response w r w' :
  filed (mw_store w) ->
  VerifyWebAuthnChallenge keys audited now e principal sessionID challengeID response w = (Ok r, w') ->
  exists c, st_challenges (mw_store w) !! TrimSpace challengeID = Some c /\
    Challenge_UserID c = TrimSpace (Principal_UserID principal) /\ Challenge_SessionID c = TrimSpace sessionID /\
    Challenge_ConsumedAt c = None /\ now < Challenge_ExpiresAt c /\ Challenge_Attempts c < Challenge_MaxAttempts c /\
    passkey_shown keys now principal c response (mw_store w) (mw_store w') /\
    stepped_up now c CredentialTypeWebAuthn (mw_store w) (mw_store w') /\ st_codes (mw_store w') = st_codes (mw_store w).
Proof.
  intros Hf Hm. apply gbind_Ok in Hm as (found & w1 & [-> ->]%query_Ok & Hm). apply gbind_Ok in Hm as (c & w1 & [Hg ->]%glift_Ok & Hm).
  apply GetChallenge_Ok in Hg as [Hc Ho%challenge_open_spec]. exists c.
  destruct (read_webauthn_Ok _ _ _ _ _ _ _ _ _ _ _ Hm Hf Hc) as (? & ? & ? & _). naive_solver.
Qed.

(** The column [metadata] of [sessions] is declared [json], and the merge
    that records a step-up is written for [jsonb]: with a [json] column no
    challenge of any kind can be completed. *)
Theorem json_metadata_blocks_step_up keys audited now e principal sessionID challengeID response answer w :
  metadata_jsonb = false -> filed (mw_store w) ->
  (exists err, fst (VerifyChallenge keys audited now e principal sessionID challengeID response w) = Err err) /\
  (exists err, fst (VerifyWebAuthnChallenge keys audited now e principal sessionID challengeID answer w) = Err err).
Proof.
  intros Hjson Hf. split.
  - destruct (VerifyChallenge _ _ _ _ _ _ _ _ w) as [[r|err] w'] eqn:Hv; [|by eexists]. exfalso.
    apply VerifyChallenge_read in Hv as [(c & Hc & _ & Hv)|(_ & [=] & _)].
    destruct (verify_read_Ok _ _ _ _ _ _ _ _ _ _ _ _ Hv Hf Hc) as (? & _ & _ & _ & ?). congruence.
  - destruct (VerifyWebAuthnChallenge _ _ _ _ _ _ _ _ w) as [[r|err] w'] eqn:Hm; [|by eexists]. exfalso.
    apply gbind_Ok in Hm as (found & w1 & [-> ->]%query_Ok & Hm). apply gbind_Ok in Hm as (c & w1 & [Hg ->]%glift_Ok & Hm).
    apply GetChallenge_Ok in Hg as [Hc _]. destruct (read_webauthn_Ok _ _ _ _ _ _ _ _ _ _ _ Hm Hf Hc) as (_ & _ & _ & ?). congruence.
Qed.

(** A challenge for recovery codes can never be issued: its type is not
    among those that the constraint of the table admits, so the call fails in
    every state and changes nothing. *)
Theorem recovery_challenge_refused now e principal sessionID w :
  exists err, BeginRecoveryChallenge now e principal sessionID w = (Err err, w).
Proof.
  unfold BeginRecoveryChallenge, gbind, in_store, repo_CreateChallenge. destruct w as [s cache audit]. cbn [mw_store mw_cache mw_audit].
  destruct (_ <=? _)%nat; [by eexists|]. destruct (st_sessions s !! _) as [row|]; [|by eexists].
  destruct (session_usable _ _ row); [|by eexists].
  assert (challenge_admissible (new_challenge now e principal sessionID ChallengeTypeRecoveryCode "") (st_challenges s) = false) as ->; [|by eexists].
  unfold challenge_admissible. change (existsb _ _) with false. by rewrite andb_false_r.
Qed.
End properties.

(** ** Witnesses and cases *)

Lemma sample_bcrypt (password hash : string) : Ok password = Ok hash -> String.eqb hash password = true.
Proof. intros [= ->]. apply String.eqb_refl. Qed.

(** Collaborators that meet the interfaces: hashes in the clear, a verifier
    that accepts the credential a response names. *)
Definition sample_deps : MfaDeps := {|
  GetByID := fun id => Ok {| User_ID := id; User_Username := id; User_DisplayName := id |};
  GenerateFromPassword := fun password => Ok password; CompareHashAndPassword := fun hash password => String.eqb hash password;
  marshal_state := fun state => Ok (state_Session state);
  unmarshal_state := fun text => Some {| state_Session := text; state_Purpose := "step_up"; state_ApplicationID := "" |};
  purpose_valid := fun _ => true; bcrypt_match := sample_bcrypt |}.

Definition sample_webauthn : WebAuthn := {|
  BeginRegistration := fun _ => Ok {| WebAuthnRegistration_Challenge := "challenge"; WebAuthnRegistration_Session := "session" |};
  FinishRegistration := fun _ _ response =>
    Ok {| WebAuthnCredential_ExternalID := WebAuthnResponse_CredentialID response; WebAuthnCredential_Data := "key"; WebAuthnCredential_SignCount := 0 |};
  BeginAuthentication := fun _ => Err (sentinel ErrNotFound); FinishAuthentication := fun _ _ _ => Err (sentinel ErrNotFound) |}.

Definition sample_ring : Ring := {| Ring_active := old_key None; Ring_previous := [] |}.

Definition sealed (text : string) : string :=
  match @EncryptStringWithKeyring clear_cipher (Ok (replicate 12 0)) sample_ring text with Ok c => c | Err _ => "" end.

Definition sample_user : Principal :=
  {| Principal_UserID := "u"; Principal_UserName := "u"; Principal_Email := ""; Principal_AvatarURL := "";
     Principal_AvatarFit := ""; Principal_Roles := []; Principal_Teams := []; Principal_Projects := [];
     Principal_Tags := []; Principal_PermissionKeys := []; Principal_AccessTokenID := "" |}.

Definition sample_entropy (id : string) : Entropy :=
  {| new_uuid := fun n => id +:+ zero_padded 2 (Z.of_nat n); random_bytes := fun i n => Ok (replicate n (Z.of_nat i)); random_nonce := Ok (replicate 12 0) |}.

Definition totp_credential : Credential :=
  {| Credential_ID := "k"; Credential_UserID := "u"; Credential_Type := CredentialTypeTOTP; Credential_DisplayName := "Authenticator app";
     Credential_ExternalID := ""; Credential_SecretCiphertext := sealed rfc_secret; Credential_SignCount := 0; Credential_CreatedAt := 0;
     Credential_LastUsedAt := None; Credential_RevokedAt := None |}.

Definition other_session : SessionRow :=
  {| SessionRow_ID := "t"; SessionRow_UserID := "u"; SessionRow_Status := "active"; SessionRow_ExpiresAt := minutes 60;
     SessionRow_mfa := false; SessionRow_amr := []; SessionRow_mfaAuthenticatedAt := None; SessionRow_UpdatedAt := 0 |}.

Definition other_challenge : Challenge :=
  {| Challenge_ID := "d"; Challenge_UserID := "u"; Challenge_SessionID := "t"; Challenge_Type := ChallengeTypeTOTPStepUp;
     Challenge_SecretCiphertext := ""; Challenge_Attempts := 0; Challenge_MaxAttempts := 5; Challenge_ExpiresAt := minutes 5;
     Challenge_ConsumedAt := None; Challenge_CreatedAt := 0 |}.

(** A user with an authenticator, two sessions, and a challenge in each. *)
Definition sample_world : MfaWorld :=
  {| mw_store := {| st_credentials := {[ "k" := totp_credential ]};
       st_challenges := {[ "c" := sample_challenge "c" ChallengeTypeTOTPStepUp; "d" := other_challenge ]};
       st_codes := {[ "r" := sample_code ]}; st_sessions := {[ "s" := sample_session; "t" := other_session ]} |};
     mw_cache := None; mw_audit := [] |}.

Definition respond_sample (jsonb : bool) (sessionID challengeID response : string) (w : MfaWorld) : result MFAChallengeResult * MfaWorld :=
  @VerifyChallenge (sample_database jsonb) clear_cipher sample_deps sample_ring true (59 * 1000000000) (sample_entropy "x")
    sample_user sessionID challengeID response w.

Lemma sample_filed : filed (mw_store sample_world).
Proof.
  split_and!; intros k c Hc; cbn in Hc; repeat (apply lookup_insert_Some in Hc as [[<- <-]|[_ Hc]]; [reflexivity|]);
    apply lookup_singleton_Some in Hc as [<- <-]; reflexivity.
Qed.

(** A time-based code is not remembered: the code that steps up one session
    is accepted again, in the same half minute, for another session, which RFC
    6238 forbids. *)
Theorem totp_replay_accepted :
  exists w code r1 r2,
    fst (respond_sample true "s" "c" code w) = Ok r1 /\
    fst (respond_sample true "t" "d" code (snd (respond_sample true "s" "c" code w))) = Ok r2.
Proof. exists sample_world, "287082". do 2 eexists. split; vm_compute; reflexivity. Qed.

(** Responses by calls that all read the challenge before any of them was
    counted. *)
Fixpoint respond_stale (c : Challenge) (responses : list string) (w : MfaWorld) : list (result MFAChallengeResult) * MfaWorld :=
  match responses with
  | [] => ([], w)
  | response :: rest =>
      let '(r, w) := @verify_read_challenge (sample_database true) clear_cipher sample_deps sample_ring true (59 * 1000000000)
        (sample_entropy "x") sample_user "s" c response w in
      let '(rs, w) := respond_stale c rest w in (r :: rs, w)
  end.

(** The limit on attempts does not hold for concurrent calls: the count is
    read by one statement and raised by another, so that calls which read a
    challenge together are all judged. Here eight wrong codes are judged on a
    challenge that allows five. *)
Theorem concurrent_guesses_exceed_limit :
  exists w c codes, st_challenges (mw_store w) !! "c" = Some c /\ Challenge_MaxAttempts c = 5 /\ length codes = 8%nat /\
    forallb judged (fst (respond_stale c codes w)) = true /\
    Challenge_Attempts <$> (st_challenges (mw_store (snd (respond_stale c codes w))) !! "c") = Some 8.
Proof.
  exists sample_world, (sample_challenge "c" ChallengeTypeTOTPStepUp), (replicate 8 "000000").
  split; [reflexivity|]. split; [reflexivity|]. split; [reflexivity|]. split; [|vm_compute; reflexivity].
  assert (fst (respond_stale (sample_challenge "c" ChallengeTypeTOTPStepUp) (replicate 8 "000000") sample_world) =
    replicate 8 (Err (errorf ErrUnauthorized "invalid MFA response"))) as -> by (vm_compute; reflexivity).
  cbn. by rewrite bool_decide_true.
Qed.

(** The last call of an enrolment of a passkey in session [s]. *)
Definition finish_passkey (id : string) (w : MfaWorld) : result MFAChallengeResult * MfaWorld :=
  @VerifyWebAuthnChallenge (sample_database true) clear_cipher sample_webauthn sample_deps sample_ring true (minutes 1) (sample_entropy "p")
    sample_user "s" id {| WebAuthnResponse_CredentialID := "mine"; WebAuthnResponse_ClientDataJSON := ""; WebAuthnResponse_AttestationObject := "";
      WebAuthnResponse_AuthenticatorData := ""; WebAuthnResponse_Signature := ""; WebAuthnResponse_UserHandle := "" |} w.

Lemma guesses_bounded_witness :
  (length (filter (fun r => judged r = true)
     (@respond (sample_database true) clear_cipher sample_deps sample_ring true sample_user "s" "c"
        (replicate 7 ((59 * 1000000000)%Z, sample_entropy "x", "000000")) sample_world)) <= 5)%nat.
Proof.
  exact (@guesses_bounded (sample_database true) clear_cipher sample_deps sample_ring true sample_user "s" "c"
    (replicate 7 (59 * 1000000000, sample_entropy "x", "000000")) sample_world (sample_challenge "c" ChallengeTypeTOTPStepUp)
    sample_filed eq_refl).
Defined.

Lemma verify_sound_witness :
  exists r, fst (respond_sample true "s" "c" " 287082 " sample_world) = Ok r /\ MFAChallengeResult_AuthenticatedAt r = 59 * 1000000000.
Proof.
  destruct (respond_sample true "s" "c" " 287082 " sample_world) as [[r|e] w'] eqn:Hv; cycle 1.
  { exfalso. assert (succeeded (fst (respond_sample true "s" "c" " 287082 " sample_world)) = true) as Ht by (vm_compute; reflexivity).
    rewrite Hv in Ht. discriminate Ht. }
  exists r. split; [reflexivity|].
  destruct (@verify_sound (sample_database true) clear_cipher sample_deps sample_ring true (59 * 1000000000) (sample_entropy "x")
    sample_user "s" "c" " 287082 " sample_world r w' sample_filed Hv) as (c & m & _ & _ & _ & _ & _ & _ & _ & _ & Hat & _). exact Hat.
Defined.

Lemma verify_failure_frame_witness :
  exists e, fst (respond_sample true "s" "c" "000000" sample_world) = Err e /\
    st_sessions (mw_store (snd (respond_sample true "s" "c" "000000" sample_world))) = st_sessions (mw_store sample_world).
Proof.
  destruct (respond_sample true "s" "c" "000000" sample_world) as [[r|e] w'] eqn:Hv.
  { exfalso. assert (succeeded (fst (respond_sample true "s" "c" "000000" sample_world)) = false) as Ht by (vm_compute; reflexivity).
    rewrite Hv in Ht. discriminate Ht. }
  exists e. split; [reflexivity|].
  exact (proj1 (@verify_failure_frame (sample_database true) clear_cipher sample_deps sample_ring true (59 * 1000000000) (sample_entropy "x")
    sample_user "s" "c" "000000" sample_world e w' sample_filed Hv)).
Defined.

Lemma json_metadata_blocks_step_up_witness :
  exists e, fst (respond_sample false "s" "c" "287082" sample_world) = Err e.
Proof.
  exact (proj1 (@json_metadata_blocks_step_up (sample_database false) clear_cipher sample_webauthn sample_deps sample_ring true (59 * 1000000000)
    (sample_entropy "x") sample_user "s" "c" "287082" {| WebAuthnResponse_CredentialID := ""; WebAuthnResponse_ClientDataJSON := "";
      WebAuthnResponse_AttestationObject := ""; WebAuthnResponse_AuthenticatorData := ""; WebAuthnResponse_Signature := "";
      WebAuthnResponse_UserHandle := "" |} sample_world eq_refl sample_filed)).
Defined.

(** The sample world after an enrolment has begun, and after a step-up. *)
Definition passkey_challenge : Challenge :=
  new_challenge (minutes 1) (sample_entropy "e") sample_user "s" ChallengeTypeWebAuthnEnrollment (sealed "session").

Definition passkey_world : MfaWorld :=
  {| mw_store := {| st_credentials := ∅; st_challenges := {[ "e00" := passkey_challenge ]}; st_codes := ∅;
       st_sessions := {[ "s" := step_up_session "totp" 0 sample_session ]} |}; mw_cache := None; mw_audit := [] |}.

Lemma passkey_filed : filed (mw_store passkey_world).
Proof.
  split_and!; intros k c Hc; cbn in Hc; try (by rewrite lookup_empty in Hc). by apply lookup_singleton_Some in Hc as [<- <-].
Qed.

Lemma webauthn_sound_witness :
  exists r w', finish_passkey "e00" passkey_world = (Ok r, w') /\ st_codes (mw_store w') = ∅.
Proof.
  destruct (finish_passkey "e00" passkey_world) as [[r|e] w'] eqn:Hv; cycle 1.
  { exfalso. assert (succeeded (fst (finish_passkey "e00" passkey_world)) = true) as Ht by (vm_compute; reflexivity).
    rewrite Hv in Ht. discriminate Ht. }
  exists r, w'. split; [reflexivity|].
  destruct (@webauthn_sound (sample_database true) clear_cipher sample_webauthn sample_deps sample_ring true (minutes 1) (sample_entropy "p")
    sample_user "s" "e00" _ passkey_world r w' passkey_filed Hv) as (c & _ & _ & _ & _ & _ & _ & _ & _ & Hcodes). exact Hcodes.
Defined.

Lemma regenerated_codes_work_witness :
  exists codes w', @RegenerateRecoveryCodes sample_deps true (minutes 1) (minutes 1) (sample_entropy "n") sample_user "s" passkey_world = (Ok codes, w') /\
    length codes = 10%nat.
Proof.
  destruct (@RegenerateRecoveryCodes sample_deps true (minutes 1) (minutes 1) (sample_entropy "n") sample_user "s" passkey_world) as [[codes|e] w'] eqn:Hv; cycle 1.
  { exfalso. assert (succeeded (fst (@RegenerateRecoveryCodes sample_deps true (minutes 1) (minutes 1) (sample_entropy "n") sample_user "s" passkey_world)) = true)
      as Ht by (vm_compute; reflexivity).
    rewrite Hv in Ht. discriminate Ht. }
  exists codes, w'. split; [reflexivity|].
  exact (proj1 (@regenerated_codes_work (sample_database true) sample_deps true (minutes 1) (minutes 1) (sample_entropy "n") sample_user "s"
    passkey_world codes w' eq_refl Hv)).
Defined.
