(* ===== verification/StepUpGrant.v ===== *)
(** * Network access grants over multi-factor authentication

    The step-up verifier of [application/networkaccess/access_grant.go] is the
    service of [application/mfa/service.go]: the interface of [AccessGrant] is
    discharged by [Mfa]. *)

From S2P Require Import Prelude GoStrings Stateful AccessModel PermissionTables PermissionResolver NetworkModel NetworkPolicy AccessGrant MfaStore Mfa.

Open Scope Z_scope.

(** [RequireRecentStepUp] of the service, in a state of its store. *)
Definition mfa_RequireRecentStepUp (now dbNow : Z) (w : MfaWorld) (userID sessionID : string) : option error :=
  match fst (requireRecentStepUp now dbNow userID sessionID w) with Ok _ => None | Err e => Some e end.

Definition mfa_secrets (now dbNow : Z) (w : MfaWorld) (token : result string) (digest : string -> string) (uuid : string) : GrantSecrets :=
  {| RequireRecentStepUp := mfa_RequireRecentStepUp now dbNow w; random_token := token; token_digest := digest; grant_uuid := uuid |}.

Lemma mfa_RequireRecentStepUp_None now dbNow w userID sessionID :
  mfa_RequireRecentStepUp now dbNow w userID sessionID = None <-> recent_step_up now dbNow userID sessionID (mw_store w).
Proof.
  unfold mfa_RequireRecentStepUp. destruct (requireRecentStepUp now dbNow userID sessionID w) as [r w'] eqn:Hr.
  apply requireRecentStepUp_exact in Hr as (_ & Hiff & Hcases). cbn [fst]. rewrite <-Hiff. destruct r as [[]|e]; naive_solver.
Qed.

(** C24. With the multi-factor service as its verifier, an access grant is issued
    only in an active session of the user that completed a challenge in the
    last ten minutes. *)
Theorem grant_needs_step_up `{CatalogSource, MapRange, AccessGrantPolicyStore, AccessGrantStore store}
    now dbNow w token digest uuid permissions principal authSessionID input cache s secret cache' s' :
  @grant_Create _ _ _ (mfa_secrets now dbNow w token digest uuid) _ _ now permissions principal authSessionID input cache s = (Ok secret, cache', s') ->
  exists row at_, st_sessions (mw_store w) !! TrimSpace authSessionID = Some row /\
    SessionRow_UserID row = TrimSpace (Principal_UserID principal) /\ SessionRow_Status row = "active" /\
    dbNow < SessionRow_ExpiresAt row /\ SessionRow_mfa row = true /\ SessionRow_mfaAuthenticatedAt row = Some at_ /\
    now - 10 * 60 * 10 ^ 9 <= at_.
Proof.
  intros Hg%grant_create_step_up. apply mfa_RequireRecentStepUp_None in Hg as (row & at_ & Hl & Hrest).
  rewrite TrimSpace_idem in Hl. by exists row, at_.
Qed.

(** Data for the witness: the user of [AccessGrant], stepped up. *)
Definition grant_world : MfaWorld :=
  {| mw_store := {| st_credentials := ∅; st_challenges := ∅; st_codes := ∅;
       st_sessions := {[ "session" := {| SessionRow_ID := "session"; SessionRow_UserID := "alice"; SessionRow_Status := "active";
         SessionRow_ExpiresAt := minutes 60; SessionRow_mfa := true; SessionRow_amr := ["mfa"; "totp"];
         SessionRow_mfaAuthenticatedAt := Some 0; SessionRow_UpdatedAt := 0 |} ]} |}; mw_cache := None; mw_audit := [] |}.

Lemma grant_needs_step_up_witness :
  exists secret cache s, @grant_Create grant_catalog elements_map_range grant_policy_store
      (mfa_secrets 0 0 grant_world (Ok "t") (fun s => s) "g") _ grant_store 0 grant_permissions grant_principal "session" grant_input None [] =
      (Ok secret, cache, s) /\
    exists row, st_sessions (mw_store grant_world) !! TrimSpace "session" = Some row /\ SessionRow_mfa row = true.
Proof.
  destruct (@grant_Create grant_catalog elements_map_range grant_policy_store
    (mfa_secrets 0 0 grant_world (Ok "t") (fun s => s) "g") _ grant_store 0 grant_permissions grant_principal "session" grant_input None [])
    as [[r c] s] eqn:Hc.
  destruct r as [secret|e]; [|exfalso; vm_compute in Hc; discriminate]. exists secret, c, s. split; [reflexivity|].
  destruct (@grant_needs_step_up grant_catalog elements_map_range grant_policy_store _ grant_store 0 0 grant_world (Ok "t") (fun s => s) "g"
    grant_permissions grant_principal "session" grant_input None [] secret c s Hc) as (row & at_ & Hrow & _ & _ & _ & Hmfa & _).
  exists row. split; assumption.
Defined.
