(* ===== verification/PortalPolicy.v ===== *)
(** * Access to portal applications

    [domain/providerportal/models.go]: the applications of the portal, their
    assignments, and the conditions of their access policy (a second factor, a
    list of networks, a window of the day), with the parts of Go's [net] and
    [time] that the conditions use.  Instants are nanoseconds since 1970; the
    metadata is what the JSON column gives. *)

From Stdlib Require Import Ascii.
From S2P Require Import Prelude GoStrings AccessModel WorkflowModel NetIP.

Open Scope Z_scope.

(** ** Addresses and networks of [net] *)

(** A [net.IP] keeps 16 bytes; [To4] gives the last four of an address in
    [::ffff:0:0/96]: an address here is one in the sense of [Unmap]. *)
Definition net_ParseIP (s : string) : option Addr :=
  ip ← ParseAddr s; if hasZone ip then None else Some (Unmap ip).

(** [dtoi] over the whole text. *)
Definition net_dtoi (s : string) : option Z := if str_empty s then None else digits_value 0 s.

(** An [IPNet] as [networkNumberAndMask] reads it: the number, and the mask of
    the same width. *)
Definition net_network (ip : Addr) (n : Z) : Addr * Z :=
  match ip with
  | Addr6 v _ =>
      let number := Addr6 (Z.land v (mask 128 n)) "" in
      if Is4In6 number then (Unmap number, Z.land (mask 128 n) (Z.ones 32)) else (number, mask 128 n)
  | _ => (Addr4 (Z.land (addr_value ip) (mask 32 n)), mask 32 n)
  end.

Definition net_ParseCIDR (s : string) : option (Addr * Z) :=
  '(address, bits) ← Cut s "/";
  ip ← ParseAddr address;
  if hasZone ip then None
  else n ← net_dtoi bits; if BitLen ip <? n then None else Some (net_network ip n).

Definition net_Contains (network : Addr * Z) (ip : Addr) : bool :=
  let '(number, m) := network in
  match number, Unmap ip with
  | Addr4 v, Addr4 w | Addr6 v _, Addr6 w _ => Z.land v m =? Z.land w m
  | _, _ => false
  end.

(** ** The clock *)

(** The zero [time.Time], January 1 of the year 1. *)
Definition zero_time : Z := -62135596800 * 1000000000.

(** [Hour()*60 + Minute()] of an instant in UTC. *)
Definition minutes_of_day (now : Z) : Z := (now / (60 * 1000000000)) mod 1440.

(** [time.Parse("15:04", s)], as minutes: one or two digits of an hour, and two
    of the minutes. *)
Definition two_digits (c d : ascii) : option Z := a ← digit c; b ← digit d; Some (a * 10 + b).

Definition clock_minutes (s : string) : option Z :=
  match s with
  | String c (String d _) => m ← two_digits c d; if m <? 60 then Some m else None
  | _ => None
  end.

Definition parse_clock (s : string) : option Z :=
  '(h, rest) ← match s with
    | String c (String d rest) =>
        match digit c, digit d with
        | Some a, Some b => Some (a * 10 + b, rest)
        | Some a, None => Some (a, String d rest)
        | None, _ => None
        end
    | String c "" => a ← digit c; Some (a, "")
    | "" => None
    end;
  if negb (h <? 24) then None
  else match rest with
  | String ":" minutes => if (String.length minutes =? 2)%nat then m ← clock_minutes minutes; Some (h * 60 + m) else None
  | _ => None
  end.

(** ** Applications *)

Definition ApplicationStatusEnabled : string := "enabled".
Definition AssignmentSubjectUser : string := "user".
Definition AssignmentSubjectRole : string := "role".
Definition AssignmentSubjectTeam : string := "team".
Definition AssignmentSubjectTag : string := "tag".
Definition AssignmentEffectAllow : string := "allow".
Definition AssignmentEffectDeny : string := "deny".

Record ApplicationAssignment := {
  Assignment_ID : string;
  Assignment_ApplicationID : string;
  Assignment_SubjectType : string;
  Assignment_SubjectID : string;
  Assignment_Effect : string
}.

(** The fields the access decision and its callers read. *)
Record Application := {
  Application_ID : string;
  Application_LaunchURL : string;
  Application_Status : string;
  Application_Metadata : go_map;
  Application_Assignments : list ApplicationAssignment
}.

Record ApplicationPolicyConditions := {
  Conditions_RequireMFA : bool;
  Conditions_AllowedCIDRs : list string;
  Conditions_StartTimeUTC : string;
  Conditions_EndTimeUTC : string
}.

Record AccessPolicyContext := {
  Access_SourceIP : string;
  Access_MFAAuthenticated : bool;
  Access_Now : Z
}.

(** ** Conditions *)

Definition boolValue (value : any) : bool := match value with ABool b => b | _ => false end.
Definition stringValue (value : any) : string := match value with AString s => TrimSpace s | _ => "" end.

Definition stringSliceValue (value : any) : list string :=
  match value with
  | AStrings items => items
  | AList items => omap (fun item => match item with
      | AString text => if blank text then None else Some (TrimSpace text)
      | _ => None end) items
  | _ => []
  end.

(** A policy of another shape than an object asks for a second factor. *)
Definition ApplicationPolicyConditionsFromMetadata (metadata : go_map) : ApplicationPolicyConditions :=
  match metadata !! "accessPolicy" with
  | None => {| Conditions_RequireMFA := false; Conditions_AllowedCIDRs := []; Conditions_StartTimeUTC := ""; Conditions_EndTimeUTC := "" |}
  | Some (AMap values) =>
      {| Conditions_RequireMFA := boolValue (get values "requireMfa");
         Conditions_AllowedCIDRs := stringSliceValue (get values "allowedCidrs");
         Conditions_StartTimeUTC := stringValue (get values "startTimeUtc");
         Conditions_EndTimeUTC := stringValue (get values "endTimeUtc") |}
  | Some _ => {| Conditions_RequireMFA := true; Conditions_AllowedCIDRs := []; Conditions_StartTimeUTC := ""; Conditions_EndTimeUTC := "" |}
  end.

Definition cidr_matches (ip : Addr) (text : string) : bool :=
  match net_ParseCIDR text with Some network => net_Contains network ip | None => false end.

Definition policyConditionsMatch (conditions : ApplicationPolicyConditions) (access : AccessPolicyContext) : bool :=
  if Conditions_RequireMFA conditions && negb (Access_MFAAuthenticated access) then false
  else if negb (is_empty (Conditions_AllowedCIDRs conditions)) &&
    negb match net_ParseIP (TrimSpace (Access_SourceIP access)) with
         | Some ip => existsb (cidr_matches ip) (Conditions_AllowedCIDRs conditions)
         | None => false
         end then false
  else if str_empty (Conditions_StartTimeUTC conditions) && str_empty (Conditions_EndTimeUTC conditions) then true
  else match parse_clock (Conditions_StartTimeUTC conditions), parse_clock (Conditions_EndTimeUTC conditions) with
  | Some startMinutes, Some endMinutes =>
      if Access_Now access =? zero_time then false
      else
        let nowMinutes := minutes_of_day (Access_Now access) in
        if startMinutes <=? endMinutes then (startMinutes <=? nowMinutes) && (nowMinutes <=? endMinutes)
        else (startMinutes <=? nowMinutes) || (nowMinutes <=? endMinutes)
  | _, _ => false
  end.

(** ** The decision *)

Definition slicesContain (values : list string) (target : string) : bool := existsb (String.eqb target) values.

Definition assignmentMatches (principal : Principal) (a : ApplicationAssignment) : bool :=
  if String.eqb (Assignment_SubjectType a) AssignmentSubjectUser then String.eqb (Assignment_SubjectID a) (Principal_UserID principal)
  else if String.eqb (Assignment_SubjectType a) AssignmentSubjectRole then slicesContain (Principal_Roles principal) (Assignment_SubjectID a)
  else if String.eqb (Assignment_SubjectType a) AssignmentSubjectTeam then slicesContain (Principal_Teams principal) (Assignment_SubjectID a)
  else if String.eqb (Assignment_SubjectType a) AssignmentSubjectTag then slicesContain (Principal_Tags principal) (Assignment_SubjectID a)
  else false.

(** The loop over the assignments: [None] when a matching one denies, and
    otherwise the number of allowing ones and whether one of them matches. *)
Fixpoint assignment_loop (principal : Principal) (allows : nat) (matchedAllow : bool) (l : list ApplicationAssignment) : option (nat * bool) :=
  match l with
  | [] => Some (allows, matchedAllow)
  | a :: rest =>
      let allows := if String.eqb (Assignment_Effect a) AssignmentEffectAllow then S allows else allows in
      if negb (assignmentMatches principal a) then assignment_loop principal allows matchedAllow rest
      else if String.eqb (Assignment_Effect a) AssignmentEffectDeny then None
      else assignment_loop principal allows (if String.eqb (Assignment_Effect a) AssignmentEffectAllow then true else matchedAllow) rest
  end.

Definition CanAccessApplicationWithContext (principal : Principal) (item : Application) (access : AccessPolicyContext) : bool :=
  match assignment_loop principal 0 false (Application_Assignments item) with
  | None => false
  | Some (allows, matchedAllow) =>
      if (0 <? allows)%nat && negb matchedAllow then false
      else policyConditionsMatch (ApplicationPolicyConditionsFromMetadata (Application_Metadata item)) access
  end.

Definition CanAccessApplication (principal : Principal) (item : Application) : bool :=
  CanAccessApplicationWithContext principal item {| Access_SourceIP := ""; Access_MFAAuthenticated := false; Access_Now := zero_time |}.

(** ** Reference *)

(** The 16 bytes of an address. *)
Definition as16 (ip : Addr) : Z :=
  match ip with AddrZero => 0 | Addr4 v => 65535 * 2 ^ 32 + v | Addr6 v _ => v end.

(** A network as 128-bit blocks: its length counted from the left of the 16
    bytes. *)
Definition length16 (ip : Addr) (n : Z) : Z := match ip with Addr4 _ => n + 96 | _ => n end.

(** An address is in a network when it shares the leading bits, and an IPv4
    address is never in an IPv6 network shorter than the mapped range. *)
Definition in_network (net : Addr) (n : Z) (ip : Addr) : Prop :=
  block 128 (length16 net n) (as16 net) = block 128 (length16 net n) (as16 ip) /\
  (Is4 (Unmap ip) = true -> 96 <= length16 net n).

Definition source_allowed (cidrs : list string) (ip : Addr) : Prop :=
  exists text address bits net n, text ∈ cidrs /\ Cut text "/" = Some (address, bits) /\ ParseAddr address = Some net /\
    hasZone net = false /\ net_dtoi bits = Some n /\ n <= BitLen net /\ in_network net n ip.

(** A window of the day, going round midnight when it ends before it starts. *)
Definition in_window (startMinutes endMinutes nowMinutes : Z) : Prop :=
  (nowMinutes - startMinutes) mod 1440 <= (endMinutes - startMinutes) mod 1440.

Record conditions_hold (conditions : ApplicationPolicyConditions) (access : AccessPolicyContext) : Prop := {
  hold_mfa : Conditions_RequireMFA conditions = true -> Access_MFAAuthenticated access = true;
  hold_source : Conditions_AllowedCIDRs conditions <> [] ->
    exists ip, net_ParseIP (TrimSpace (Access_SourceIP access)) = Some ip /\ source_allowed (Conditions_AllowedCIDRs conditions) ip;
  hold_window : Conditions_StartTimeUTC conditions <> "" \/ Conditions_EndTimeUTC conditions <> "" ->
    exists a b, parse_clock (Conditions_StartTimeUTC conditions) = Some a /\ parse_clock (Conditions_EndTimeUTC conditions) = Some b /\
      Access_Now access <> zero_time /\ in_window a b (minutes_of_day (Access_Now access))
}.

(** ** Lemmas: networks *)

Lemma shiftr_mapped v k : 0 <= k <= 32 -> 0 <= v -> Z.shiftr (65535 * 2 ^ 32 + v) k = 65535 * 2 ^ (32 - k) + Z.shiftr v k.
Proof.
  intros Hk Hv. rewrite !Z.shiftr_div_pow2 by lia. replace (2 ^ 32) with (2 ^ (32 - k) * 2 ^ k) by (rewrite <-Z.pow_add_r by lia; f_equal; lia).
  rewrite Z.mul_assoc, Z.div_add_l by (apply Z.pow_nonzero; lia). done.
Qed.

Lemma is4in6_value v : 0 <= v -> Z.shiftr v 32 = 65535 <-> v = 65535 * 2 ^ 32 + Z.land v (Z.ones 32).
Proof.
  intros Hv. rewrite Z.land_ones, Z.shiftr_div_pow2 by lia. split; [intros He; rewrite (Z.div_mod v (2 ^ 32)) at 1 by lia; lia|].
  intros He. rewrite He, Z.div_add_l by lia. rewrite Z.div_small; [lia|apply Z.mod_pos_bound; lia].
Qed.

Lemma as16_range ip : addr_ok ip -> 0 <= as16 ip < 2 ^ 128.
Proof. destruct ip; cbn; lia. Qed.

Lemma as16_Unmap ip : addr_ok ip -> as16 (Unmap ip) = as16 ip.
Proof.
  unfold Unmap. destruct (Is4In6 ip) eqn:H4; [|done]. destruct ip as [|v|v zone]; try done. intros Hv. cbn [addr_ok] in Hv. cbn in H4.
  cbn [as16 addr_value]. apply Z.eqb_eq in H4. symmetry. apply is4in6_value; [lia|done].
Qed.

Lemma Unmap_ok ip : addr_ok ip -> addr_ok (Unmap ip).
Proof.
  unfold Unmap. destruct (Is4In6 ip) eqn:H4; [|done]. destruct ip as [|v|v zone]; try done. intros Hv. cbn [addr_ok addr_value].
  rewrite Z.land_ones by lia. apply Z.mod_pos_bound. lia.
Qed.

(** An unmapped address of 6 bytes groups is not in the mapped range. *)
Lemma Unmap_6 ip v zone : addr_ok ip -> Unmap ip = Addr6 v zone -> Z.shiftr v 32 <> 65535.
Proof.
  unfold Unmap. destruct (Is4In6 ip) eqn:H4; [done|]. intros _ ->. cbn in H4. by apply Z.eqb_neq.
Qed.

Lemma block_mapped n v : 0 <= n <= 32 -> 0 <= v -> block 128 (n + 96) (65535 * 2 ^ 32 + v) = 65535 * 2 ^ n + block 32 n v.
Proof.
  intros Hn Hv. unfold block. replace (128 - (n + 96)) with (32 - n) by lia. rewrite shiftr_mapped by lia. by replace (32 - (32 - n)) with n by lia.
Qed.

Lemma land_idem_mask v m : Z.land (Z.land v m) m = Z.land v m.
Proof. by rewrite <-Z.land_assoc, Z.land_diag. Qed.

Lemma shiftr_masked n v : 96 <= n <= 128 -> 0 <= v < 2 ^ 128 -> Z.shiftr (Z.land v (mask 128 n)) 32 = Z.shiftr v 32.
Proof.
  intros Hn Hv. rewrite land_mask by lia. unfold block. apply Z.bits_inj'. intros i Hi.
  rewrite !Z.shiftr_spec, Z.shiftl_spec, Z.shiftr_spec by lia. f_equal. lia.
Qed.

Lemma masked_short n v : 0 <= n < 96 -> 0 <= v < 2 ^ 128 -> Z.shiftr (Z.land v (mask 128 n)) 32 <> 65535.
Proof.
  intros Hn Hv He. rewrite land_mask in He by lia. apply (f_equal (fun z => Z.testbit z 0)) in He.
  rewrite Z.shiftr_spec, Z.shiftl_spec in He by lia. rewrite Z.testbit_neg_r in He by lia. done.
Qed.

Lemma mask_low n : 96 <= n <= 128 -> Z.land (mask 128 n) (Z.ones 32) = mask 32 (n - 96).
Proof.
  intros Hn. unfold mask. apply Z.bits_inj'. intros i Hi. rewrite Z.land_spec, !Z.shiftl_spec by lia.
  rewrite !Z.testbit_ones by lia. replace (32 - (n - 96)) with (128 - n) by lia.
  repeat match goal with |- context [?a <=? ?b] => destruct (Z.leb_spec a b) | |- context [?a <? ?b] => destruct (Z.ltb_spec a b) end; cbn; lia.
Qed.

(** Equal blocks that reach the mapped range agree on it. *)
Lemma block_reaches_mapped n v w : 96 <= n <= 128 -> block 128 n v = block 128 n w -> Z.shiftr v 32 = Z.shiftr w 32.
Proof. intros Hn He. change (block 128 96 v = block 128 96 w). by apply (block_coarser 128 n 96); [lia|lia|]. Qed.

Lemma mapped_block_eq n v w : 0 <= n <= 32 -> 0 <= v -> 0 <= w ->
  block 32 n v = block 32 n w <-> block 128 (n + 96) (65535 * 2 ^ 32 + v) = block 128 (n + 96) (65535 * 2 ^ 32 + w).
Proof. intros Hn Hv Hw. rewrite !block_mapped by done. lia. Qed.

Lemma low_ones v : Z.land v (Z.ones 32) = v mod 2 ^ 32.
Proof. apply Z.land_ones. lia. Qed.

Lemma land_low v m k : Z.land (Z.land (Z.land v m) k) (Z.land m k) = Z.land (Z.land v k) (Z.land m k).
Proof.
  apply Z.bits_inj'. intros i _. rewrite !Z.land_spec.
  by destruct (Z.testbit v i), (Z.testbit m i), (Z.testbit k i).
Qed.

Section contains.
Context (ip : Addr) (Hip : addr_ok ip).

Lemma contains_network_4 v n : 0 <= v < 2 ^ 32 -> 0 <= n <= 32 ->
  net_Contains (net_network (Addr4 v) n) ip = true <-> in_network (Addr4 v) n ip.
Proof.
  intros Hv Hn. unfold net_network, net_Contains, in_network. cbn [addr_value length16 as16].
  rewrite <-(as16_Unmap ip) by done. pose proof (Unmap_ok ip Hip) as Hu. destruct (Unmap ip) as [|w|w zone] eqn:Hw; [done| |]; cbn [as16 Is4 addr_ok] in *.
  - rewrite land_idem_mask, Z.eqb_eq, land_mask_eq, mapped_block_eq by lia. split; [intros He; split; [done|intros; lia]|by intros [He _]].
  - split; [done|]. intros [He _]. apply block_reaches_mapped in He; [|lia]. rewrite shiftr_mapped in He by lia.
    rewrite Z.shiftr_div_pow2, (Z.div_small v) in He by lia. apply Unmap_6 in Hw; [|done]. lia.
Qed.

Lemma contains_network_6 v zone n : 0 <= v < 2 ^ 128 -> 0 <= n <= 128 ->
  net_Contains (net_network (Addr6 v zone) n) ip = true <-> in_network (Addr6 v zone) n ip.
Proof.
  intros Hv Hn. unfold net_network, in_network. cbn [length16 as16]. rewrite <-(as16_Unmap ip) by done.
  pose proof (Unmap_ok ip Hip) as Hu. cbn [Is4In6]. destruct (Z.eqb_spec (Z.shiftr (Z.land v (mask 128 n)) 32) 65535) as [Hm|Hm].
  - assert (96 <= n) as Hn96 by (destruct (Z.lt_ge_cases n 96); [exfalso; by apply (masked_short n v); [lia|lia|]|done]).
    pose proof Hm as Hm'. rewrite shiftr_masked in Hm' by lia. apply is4in6_value in Hm' as Hv'; [|lia].
    unfold net_Contains, Unmap at 1. cbn [Is4In6]. rewrite (proj2 (Z.eqb_eq _ _) Hm). cbn [addr_value].
    destruct (Unmap ip) as [|w|w zone'] eqn:Hw; [done| |]; cbn [as16 Is4 addr_ok] in *.
    + rewrite land_low, mask_low, Z.eqb_eq by lia. rewrite land_mask_eq, mapped_block_eq, Z.sub_add, <-Hv'.
      all: rewrite ?low_ones; try apply Z.mod_pos_bound; try lia.
    + split; [done|]. intros [He _]. apply block_reaches_mapped in He; [|lia]. apply Unmap_6 in Hw; [|done]. congruence.
  - unfold net_Contains. destruct (Unmap ip) as [|w|w zone'] eqn:Hw; [done| |]; cbn [as16 Is4 addr_ok] in *.
    + split; [done|]. intros [He H96]. specialize (H96 eq_refl). apply block_reaches_mapped in He; [|lia].
      rewrite shiftr_mapped, Z.shiftr_div_pow2, (Z.shiftr_div_pow2 w), (Z.div_small w) in He by lia.
      rewrite shiftr_masked, Z.shiftr_div_pow2 in Hm by lia. lia.
    + rewrite land_idem_mask, Z.eqb_eq, land_mask_eq by lia. split; [intros He; split; [done|done]|by intros [He _]].
Qed.

Lemma contains_network net n : addr_ok net -> 0 <= n <= BitLen net ->
  net_Contains (net_network net n) ip = true <-> in_network net n ip.
Proof. destruct net; [done|apply contains_network_4|apply contains_network_6]. Qed.

Lemma cidrs_allow cidrs : existsb (cidr_matches ip) cidrs = true <-> source_allowed cidrs ip.
Proof.
  rewrite existsb_exists. unfold source_allowed, cidr_matches, net_ParseCIDR. split.
  - intros (text & Hin & Hm). apply list_elem_of_In in Hin. destruct (Cut text "/") as [[address bits]|] eqn:Hc; [|done]. cbn in Hm.
    destruct (ParseAddr address) as [net|] eqn:Ha; [|done]. cbn in Hm. destruct (hasZone net) eqn:Hz; [done|].
    destruct (net_dtoi bits) as [n|] eqn:Hb; [|done]. cbn in Hm. destruct (Z.ltb_spec (BitLen net) n); [done|].
    exists text, address, bits, net, n. do 6 (split; [done|]). apply contains_network; [by apply ParseAddr_ok in Ha| |done].
    split; [|done]. unfold net_dtoi in Hb. destruct (str_empty bits); [done|]. by apply digits_value_nonneg in Hb.
  - intros (text & address & bits & net & n & Hin & Hc & Ha & Hz & Hb & Hle & Hnet). exists text.
    split; [by apply list_elem_of_In|]. rewrite Hc. cbn. rewrite Ha. cbn. rewrite Hz, Hb. cbn.
    destruct (Z.ltb_spec (BitLen net) n); [lia|]. apply contains_network; [by apply ParseAddr_ok in Ha| |done].
    split; [|done]. unfold net_dtoi in Hb. destruct (str_empty bits); [done|]. by apply digits_value_nonneg in Hb.
Qed.
End contains.

(** ** Lemmas: the window and the assignments *)

Lemma window_spec a b m : 0 <= a < 1440 -> 0 <= b < 1440 -> 0 <= m < 1440 ->
  (if a <=? b then (a <=? m) && (m <=? b) else (a <=? m) || (m <=? b)) = true <-> in_window a b m.
Proof.
  intros Ha Hb Hm. unfold in_window.
  assert (forall x, -1440 < x < 1440 -> x mod 1440 = if x <? 0 then x + 1440 else x) as Hmod.
  { intros x Hx. destruct (Z.ltb_spec x 0); [rewrite <-(Z_mod_plus_full x 1 1440); apply Z.mod_small; lia|apply Z.mod_small; lia]. }
  rewrite !Hmod by lia. destruct (Z.leb_spec a b); rewrite ?andb_true_iff, ?orb_true_iff, !Z.leb_le;
    destruct (Z.ltb_spec (m - a) 0), (Z.ltb_spec (b - a) 0); lia.
Qed.

Lemma two_digits_range c d m : two_digits c d = Some m -> 0 <= m.
Proof.
  unfold two_digits. destruct (digit c) as [a|] eqn:Ha; [|done]. cbn. destruct (digit d) as [b|] eqn:Hb; [|done]. intros [= <-].
  apply digit_range in Ha, Hb. lia.
Qed.

Lemma clock_minutes_range s m : clock_minutes s = Some m -> 0 <= m < 60.
Proof.
  destruct s as [|c [|d s]]; cbn; [done|done|]. destruct (two_digits c d) as [x|] eqn:Hx; [|done]. cbn.
  destruct (Z.ltb_spec x 60); [|done]. intros [= <-]. apply two_digits_range in Hx. lia.
Qed.

Lemma parse_clock_range s m : parse_clock s = Some m -> 0 <= m < 1440.
Proof.
  unfold parse_clock. intros Hp. apply bind_Some in Hp as ([h rest] & Hh & Hp).
  assert (0 <= h) as Hh0.
  { destruct s as [|c [|d s]]; [done| |].
    - apply bind_Some in Hh as (a & Ha & [= <- <-]). apply digit_range in Ha. lia.
    - destruct (digit c) as [a|] eqn:Ha; [|done]. apply digit_range in Ha.
      destruct (digit d) as [b|] eqn:Hb; [apply digit_range in Hb|]; injection Hh as <- <-; lia. }
  destruct (Z.ltb_spec h 24); [|done]. cbn [negb] in Hp. destruct rest as [|c rest]; [done|].
  destruct c as [[] [] [] [] [] [] [] []]; try done. destruct (_ =? 2)%nat; [|done].
  apply bind_Some in Hp as (x & Hx & [= <-]). apply clock_minutes_range in Hx. lia.
Qed.

Lemma minutes_of_day_range now : 0 <= minutes_of_day now < 1440.
Proof. apply Z.mod_pos_bound. lia. Qed.

Lemma net_ParseIP_ok s ip : net_ParseIP s = Some ip -> addr_ok ip.
Proof.
  unfold net_ParseIP. destruct (ParseAddr s) as [a|] eqn:Ha; [|done]. cbn. destruct (hasZone a); [done|]. intros [= <-].
  apply Unmap_ok. by apply ParseAddr_ok in Ha.
Qed.

Lemma policyConditionsMatch_spec conditions access : policyConditionsMatch conditions access = true <-> conditions_hold conditions access.
Proof.
  unfold policyConditionsMatch. destruct conditions as [mfa cidrs a b], access as [source ok now].
  cbn [Conditions_RequireMFA Conditions_AllowedCIDRs Conditions_StartTimeUTC Conditions_EndTimeUTC Access_SourceIP Access_MFAAuthenticated Access_Now].
  destruct (mfa && negb ok) eqn:Hm; [split; [done|intros [H _ _]; cbn in H; destruct mfa, ok; naive_solver]|].
  assert (mfa = true -> ok = true) as Hmfa by (destruct mfa, ok; done).
  destruct (negb (is_empty cidrs) && _) eqn:Hs.
  { split; [done|]. intros [_ H _]. cbn [Conditions_AllowedCIDRs Access_SourceIP] in H. apply andb_true_iff in Hs as [Hne Hs]. destruct H as (ip & Hip & Hsrc); [by destruct cidrs|].
    rewrite Hip in Hs. apply cidrs_allow in Hsrc; [by rewrite Hsrc in Hs|]. by apply net_ParseIP_ok in Hip. }
  assert (cidrs <> [] -> exists ip, net_ParseIP (TrimSpace source) = Some ip /\ source_allowed cidrs ip) as Hsrc.
  { intros Hne. destruct cidrs as [|c cidrs]; [done|]. cbn [is_empty negb andb] in Hs. apply negb_false_iff in Hs.
    destruct (net_ParseIP _) as [ip|] eqn:Hip; [|done]. exists ip. split; [done|]. apply cidrs_allow; [by apply net_ParseIP_ok in Hip|done]. }
  destruct (str_empty a && str_empty b) eqn:He.
  { split; [intros _; split; cbn -[net_ParseIP TrimSpace]; [done|done|]|done]. unfold str_empty in He. apply andb_true_iff in He as [?%String.eqb_eq ?%String.eqb_eq]. naive_solver. }
  assert (a <> "" \/ b <> "") as Hne.
  { unfold str_empty in He. apply andb_false_iff in He as [?%String.eqb_neq|?%String.eqb_neq]; auto. }
  destruct (parse_clock a) as [x|] eqn:Hx; [|split; [done|intros [_ _ H]; destruct (H Hne) as (? & ? & Hx' & Hy' & _); cbn [Conditions_StartTimeUTC Conditions_EndTimeUTC] in Hx', Hy'; congruence]].
  destruct (parse_clock b) as [y|] eqn:Hy; [|split; [done|intros [_ _ H]; destruct (H Hne) as (? & ? & Hx' & Hy' & _); cbn [Conditions_StartTimeUTC Conditions_EndTimeUTC] in Hx', Hy'; congruence]].
  destruct (Z.eqb_spec now zero_time) as [->|Hz]; [split; [done|intros [_ _ H]; destruct (H Hne) as (? & ? & ? & ? & Hnz & ?); by cbn [Access_Now] in Hnz]|].
  rewrite window_spec by eauto using parse_clock_range, minutes_of_day_range. split.
  - intros Hw. split; cbn -[net_ParseIP TrimSpace]; [done|done|]. intros _. exists x, y. done.
  - intros [_ _ H]. destruct (H Hne) as (x' & y' & Hx' & Hy' & _ & Hw).
    cbn [Conditions_StartTimeUTC Conditions_EndTimeUTC Access_Now] in Hx', Hy', Hw. congruence.
Qed.

Definition has_effect (effect : string) (a : ApplicationAssignment) : bool := String.eqb (Assignment_Effect a) effect.
Definition applies (principal : Principal) (effect : string) (a : ApplicationAssignment) : bool :=
  has_effect effect a && assignmentMatches principal a.

Lemma assignment_loop_spec principal l : forall allows matched,
  assignment_loop principal allows matched l =
  if existsb (applies principal AssignmentEffectDeny) l then None
  else Some (allows + length (List.filter (has_effect AssignmentEffectAllow) l), matched || existsb (applies principal AssignmentEffectAllow) l)%nat.
Proof.
  induction l as [|a l IH]; intros allows matched; cbn [assignment_loop existsb List.filter length].
  { by rewrite Nat.add_0_r, orb_false_r. }
  change (applies principal ?e a) with (String.eqb (Assignment_Effect a) e && assignmentMatches principal a).
  change (has_effect ?e a) with (String.eqb (Assignment_Effect a) e).
  destruct (String.eqb_spec (Assignment_Effect a) AssignmentEffectAllow) as [Ha|Ha];
    destruct (String.eqb_spec (Assignment_Effect a) AssignmentEffectDeny) as [Hd|Hd];
    [rewrite Ha in Hd; discriminate| | |];
    destruct (assignmentMatches principal a); cbn [negb andb orb]; rewrite ?IH; cbn [length]; try done; try congruence;
    destruct (existsb (applies principal AssignmentEffectDeny) l); try done; f_equal; apply pair_equal_spec; (split; [lia|]); by rewrite ?orb_true_r.
Qed.

Lemma applies_exists principal effect l :
  existsb (applies principal effect) l = true <-> exists a, a ∈ l /\ Assignment_Effect a = effect /\ assignmentMatches principal a = true.
Proof.
  rewrite existsb_exists. unfold applies, has_effect. setoid_rewrite andb_true_iff. setoid_rewrite String.eqb_eq. by setoid_rewrite list_elem_of_In.
Qed.

Lemma applies_none principal effect l :
  existsb (applies principal effect) l = false <-> forall a, a ∈ l -> Assignment_Effect a = effect -> assignmentMatches principal a = false.
Proof.
  rewrite <-not_true_iff_false, applies_exists. split.
  - intros Hn a Ha He. apply not_true_iff_false. intros Hm. apply Hn. eauto.
  - intros Hn (a & Ha & He & Hm). rewrite Hn in Hm; done.
Qed.

Lemma no_effect effect l : length (List.filter (has_effect effect) l) = 0%nat <-> forall a, a ∈ l -> Assignment_Effect a <> effect.
Proof.
  induction l as [|a l IH]; cbn [List.filter length]; [split; [intros _ a Ha; by apply not_elem_of_nil in Ha|done]|].
  unfold has_effect at 1. setoid_rewrite elem_of_cons. destruct (String.eqb_spec (Assignment_Effect a) effect) as [He|He]; cbn [length].
  - split; [done|]. intros Hn. by destruct (Hn a (or_introl eq_refl)).
  - rewrite IH. split; [intros Hn b [-> |Hb]; auto|auto].
Qed.

(** ** The decision against the reference *)

(** C13. An application is accessible exactly when no assignment that matches
    the user denies it, when one that matches allows it unless none allows
    anybody, and when the conditions of its policy hold: the second factor, a
    source address in one of the networks (an IPv4 address is never in an IPv6
    network shorter than the mapped range), and a time in the window of the
    day, which may go round midnight. *)
Theorem application_access_exact principal item access :
  CanAccessApplicationWithContext principal item access = true <->
  (forall a, a ∈ Application_Assignments item -> Assignment_Effect a = AssignmentEffectDeny -> assignmentMatches principal a = false) /\
  ((forall a, a ∈ Application_Assignments item -> Assignment_Effect a <> AssignmentEffectAllow) \/
   exists a, a ∈ Application_Assignments item /\ Assignment_Effect a = AssignmentEffectAllow /\ assignmentMatches principal a = true) /\
  conditions_hold (ApplicationPolicyConditionsFromMetadata (Application_Metadata item)) access.
Proof.
  unfold CanAccessApplicationWithContext. rewrite assignment_loop_spec, <-applies_none, <-applies_exists, <-no_effect. cbn [Nat.add orb].
  destruct (existsb (applies principal AssignmentEffectDeny) _); [split; [done|by intros (? & _)]|].
  rewrite <-policyConditionsMatch_spec. destruct (length _) as [|n]; cbn [Nat.ltb Nat.leb andb]; [tauto|].
  destruct (existsb (applies principal AssignmentEffectAllow) _); cbn [negb]; naive_solver.
Qed.
