(* ===== verification/OidcStore.v ===== *)
(** * OpenID Connect provider: the store

    The records of [domain/identityprovider/models.go] that the OpenID Connect
    flows use, and the statements of
    [repository/identityprovider/repository.go] on clients, signing keys,
    authorization codes, sessions and refresh tokens, with the constraints of
    the migrations 0008, 0028, 0029 and 0052.  Codes are kept by their hash,
    refresh tokens by theirs, signing keys by their key identifier (the unique
    columns), the other rows by their primary key.  The tables of other
    components (providers, applications, users, platform sessions) are read
    here and changed by steps of the environment. *)

From S2P Require Import Prelude GoStrings Stateful AccessModel WorkflowModel GoLib Sql PortalPolicy.

Open Scope Z_scope.

(** ** Records *)

Definition ProviderTypeOIDC : string := "oidc".
Definition ProviderStatusEnabled : string := "enabled".
Definition OIDCClientStatusEnabled : string := "enabled".
Definition OIDCClientStatusDisabled : string := "disabled".
Definition OIDCClientTypePublic : string := "public".
Definition OIDCClientTypeConfidential : string := "confidential".

(** The fields the flows read. *)
Record Provider := {
  Provider_ID : string;
  Provider_Name : string;
  Provider_ApplicationID : string;
  Provider_Type : string;
  Provider_Enabled : bool;
  Provider_Status : string;
  Provider_Config : go_map
}.

Record OIDCClient := {
  OIDCClient_GrantTypes : list string;
  OIDCClient_ID : string;
  OIDCClient_ProviderID : string;
  OIDCClient_ClientID : string;
  OIDCClient_ClientType : string;
  OIDCClient_ClientSecretHash : string;
  OIDCClient_ClientSecretCiphertext : string;
  OIDCClient_ClientSecretHashAtEncryption : string;
  OIDCClient_ClientSecretAvailable : bool;
  OIDCClient_RedirectURIs : list string;
  OIDCClient_RedirectURIRegexes : list string;
  OIDCClient_PostLogoutRedirectURIs : list string;
  OIDCClient_AllowedScopes : list string;
  OIDCClient_AllowedGrantTypes : list string;
  OIDCClient_RequirePKCE : bool;
  OIDCClient_AccessTokenTTLSeconds : Z;
  OIDCClient_IDTokenTTLSeconds : Z;
  OIDCClient_RefreshTokenTTLSeconds : Z;
  OIDCClient_Status : string;
  OIDCClient_CreatedAt : Z;
  OIDCClient_UpdatedAt : Z
}.

Record AuthorizationCode := {
  AuthorizationCode_ID : string;
  AuthorizationCode_ProviderID : string;
  AuthorizationCode_ClientID : string;
  AuthorizationCode_UserID : string;
  AuthorizationCode_CodeHash : string;
  AuthorizationCode_RedirectURI : string;
  AuthorizationCode_Scopes : list string;
  AuthorizationCode_Nonce : string;
  AuthorizationCode_CodeChallenge : string;
  AuthorizationCode_CodeChallengeMethod : string;
  AuthorizationCode_ExpiresAt : Z;
  AuthorizationCode_ConsumedAt : option Z;
  AuthorizationCode_CreatedAt : Z;
  AuthorizationCode_Metadata : go_map
}.

Record OIDCSession := {
  OIDCSession_ID : string;
  OIDCSession_ProviderID : string;
  OIDCSession_ClientID : string;
  OIDCSession_UserID : string;
  OIDCSession_PlatformSessionID : string;
  OIDCSession_Scopes : list string;
  OIDCSession_AuthTime : Z;
  OIDCSession_ExpiresAt : Z;
  OIDCSession_LastSeenAt : Z;
  OIDCSession_RevokedAt : option Z;
  OIDCSession_CreatedAt : Z
}.

Record OIDCRefreshToken := {
  RefreshToken_ID : string;
  RefreshToken_SessionID : string;
  RefreshToken_FamilyID : string;
  RefreshToken_TokenHash : string;
  RefreshToken_ParentID : string;
  RefreshToken_ExpiresAt : Z;
  RefreshToken_ConsumedAt : option Z;
  RefreshToken_RevokedAt : option Z;
  RefreshToken_CreatedAt : Z
}.

(** Of the public JWK, the two coordinates. *)
Record SigningKey := {
  SigningKey_ID : string;
  SigningKey_ProviderID : string;
  SigningKey_KeyID : string;
  SigningKey_EncryptedPrivateKey : string;
  SigningKey_PublicJWK : string * string;
  SigningKey_Active : bool;
  SigningKey_CreatedAt : Z;
  SigningKey_RotatedAt : option Z
}.

(** A row of [sessions], the sessions of the platform itself. *)
Record PlatformSession := {
  PlatformSession_ID : string;
  PlatformSession_UserID : string;
  PlatformSession_Status : string;
  PlatformSession_ExpiresAt : Z;
  PlatformSession_LastSeenAt : Z;
  PlatformSession_Metadata : go_map
}.

(** The tables; of [users], the keys. *)
Record OidcStore := {
  od_providers : gmap string Provider;
  od_applications : gmap string Application;
  od_users : gset string;
  od_platform : gmap string PlatformSession;
  od_clients : gmap string OIDCClient;
  od_keys : gmap string SigningKey;
  od_codes : gmap string AuthorizationCode;
  od_sessions : gmap string OIDCSession;
  od_tokens : gmap string OIDCRefreshToken
}.

Definition set_platform (m : gmap string PlatformSession) (s : OidcStore) : OidcStore := {|
  od_providers := od_providers s; od_applications := od_applications s; od_users := od_users s; od_platform := m;
  od_clients := od_clients s; od_keys := od_keys s; od_codes := od_codes s; od_sessions := od_sessions s; od_tokens := od_tokens s |}.
Definition set_clients (m : gmap string OIDCClient) (s : OidcStore) : OidcStore := {|
  od_providers := od_providers s; od_applications := od_applications s; od_users := od_users s; od_platform := od_platform s;
  od_clients := m; od_keys := od_keys s; od_codes := od_codes s; od_sessions := od_sessions s; od_tokens := od_tokens s |}.
Definition set_keys (m : gmap string SigningKey) (s : OidcStore) : OidcStore := {|
  od_providers := od_providers s; od_applications := od_applications s; od_users := od_users s; od_platform := od_platform s;
  od_clients := od_clients s; od_keys := m; od_codes := od_codes s; od_sessions := od_sessions s; od_tokens := od_tokens s |}.
Definition set_codes (m : gmap string AuthorizationCode) (s : OidcStore) : OidcStore := {|
  od_providers := od_providers s; od_applications := od_applications s; od_users := od_users s; od_platform := od_platform s;
  od_clients := od_clients s; od_keys := od_keys s; od_codes := m; od_sessions := od_sessions s; od_tokens := od_tokens s |}.
Definition set_sessions (m : gmap string OIDCSession) (s : OidcStore) : OidcStore := {|
  od_providers := od_providers s; od_applications := od_applications s; od_users := od_users s; od_platform := od_platform s;
  od_clients := od_clients s; od_keys := od_keys s; od_codes := od_codes s; od_sessions := m; od_tokens := od_tokens s |}.
Definition set_tokens (m : gmap string OIDCRefreshToken) (s : OidcStore) : OidcStore := {|
  od_providers := od_providers s; od_applications := od_applications s; od_users := od_users s; od_platform := od_platform s;
  od_clients := od_clients s; od_keys := od_keys s; od_codes := od_codes s; od_sessions := od_sessions s; od_tokens := m |}.

(** The columns that statements set; [COALESCE] keeps the first instant. *)
Definition coalesce (old : option Z) (now : Z) : option Z := match old with Some t => Some t | None => Some now end.

Definition consume_code (now : Z) (c : AuthorizationCode) : AuthorizationCode := {|
  AuthorizationCode_ID := AuthorizationCode_ID c; AuthorizationCode_ProviderID := AuthorizationCode_ProviderID c;
  AuthorizationCode_ClientID := AuthorizationCode_ClientID c; AuthorizationCode_UserID := AuthorizationCode_UserID c;
  AuthorizationCode_CodeHash := AuthorizationCode_CodeHash c; AuthorizationCode_RedirectURI := AuthorizationCode_RedirectURI c;
  AuthorizationCode_Scopes := AuthorizationCode_Scopes c; AuthorizationCode_Nonce := AuthorizationCode_Nonce c;
  AuthorizationCode_CodeChallenge := AuthorizationCode_CodeChallenge c;
  AuthorizationCode_CodeChallengeMethod := AuthorizationCode_CodeChallengeMethod c;
  AuthorizationCode_ExpiresAt := AuthorizationCode_ExpiresAt c; AuthorizationCode_ConsumedAt := Some now;
  AuthorizationCode_CreatedAt := AuthorizationCode_CreatedAt c; AuthorizationCode_Metadata := AuthorizationCode_Metadata c |}.

(** A session with another time of its last use, revocation and platform session. *)
Definition with_session (lastSeen : Z) (revoked : option Z) (platform : string) (x : OIDCSession) : OIDCSession := {|
  OIDCSession_ID := OIDCSession_ID x; OIDCSession_ProviderID := OIDCSession_ProviderID x; OIDCSession_ClientID := OIDCSession_ClientID x;
  OIDCSession_UserID := OIDCSession_UserID x; OIDCSession_PlatformSessionID := platform; OIDCSession_Scopes := OIDCSession_Scopes x;
  OIDCSession_AuthTime := OIDCSession_AuthTime x; OIDCSession_ExpiresAt := OIDCSession_ExpiresAt x;
  OIDCSession_LastSeenAt := lastSeen; OIDCSession_RevokedAt := revoked; OIDCSession_CreatedAt := OIDCSession_CreatedAt x |}.

Definition revoke_oidc_session (now : Z) (x : OIDCSession) : OIDCSession :=
  with_session (OIDCSession_LastSeenAt x) (coalesce (OIDCSession_RevokedAt x) now) (OIDCSession_PlatformSessionID x) x.
Definition touch_session (now : Z) (x : OIDCSession) : OIDCSession :=
  with_session now (OIDCSession_RevokedAt x) (OIDCSession_PlatformSessionID x) x.
(** [ON DELETE SET NULL] of the platform session. *)
Definition detach_session (x : OIDCSession) : OIDCSession :=
  with_session (OIDCSession_LastSeenAt x) (OIDCSession_RevokedAt x) "" x.

Definition with_token (consumed revoked : option Z) (t : OIDCRefreshToken) : OIDCRefreshToken := {|
  RefreshToken_ID := RefreshToken_ID t; RefreshToken_SessionID := RefreshToken_SessionID t; RefreshToken_FamilyID := RefreshToken_FamilyID t;
  RefreshToken_TokenHash := RefreshToken_TokenHash t; RefreshToken_ParentID := RefreshToken_ParentID t;
  RefreshToken_ExpiresAt := RefreshToken_ExpiresAt t; RefreshToken_ConsumedAt := consumed; RefreshToken_RevokedAt := revoked;
  RefreshToken_CreatedAt := RefreshToken_CreatedAt t |}.

Definition consume_token (now : Z) (t : OIDCRefreshToken) : OIDCRefreshToken := with_token (Some now) (RefreshToken_RevokedAt t) t.
Definition revoke_token (now : Z) (t : OIDCRefreshToken) : OIDCRefreshToken :=
  with_token (RefreshToken_ConsumedAt t) (coalesce (RefreshToken_RevokedAt t) now) t.

Definition rotate_key (now : Z) (k : SigningKey) : SigningKey := {|
  SigningKey_ID := SigningKey_ID k; SigningKey_ProviderID := SigningKey_ProviderID k; SigningKey_KeyID := SigningKey_KeyID k;
  SigningKey_EncryptedPrivateKey := SigningKey_EncryptedPrivateKey k; SigningKey_PublicJWK := SigningKey_PublicJWK k;
  SigningKey_Active := false; SigningKey_CreatedAt := SigningKey_CreatedAt k; SigningKey_RotatedAt := coalesce (SigningKey_RotatedAt k) now |}.

Abbreviation oidc_store := (stateful OidcStore).

(** [nullableString], and the empty text that a NULL is read as. *)
Definition nullableString (value : string) : string := TrimSpace value.

(** The first row of a query, or the error for none. *)
Definition first_row {A} (e : error) (l : list A) : result A := match l with x :: _ => Ok x | [] => Err e end.

(** ** Providers and applications *)

Definition repo_GetProvider (providerID : string) (s : OidcStore) : result Provider :=
  match od_providers s !! TrimSpace providerID with
  | Some p => Ok p
  | None => Err (errorf ErrNotFound "identity provider not found")
  end.

(** The application of a provider, by the join of both tables. *)
Definition repo_GetProviderApplication (providerID : string) (s : OidcStore) : result Application :=
  match p ← od_providers s !! TrimSpace providerID; od_applications s !! Provider_ApplicationID p with
  | Some a => Ok a
  | None => Err (errorf ErrNotFound "identity provider application not found")
  end.

(** ** Clients *)

Definition repo_GetOIDCClient (id : string) (s : OidcStore) : result OIDCClient :=
  match od_clients s !! TrimSpace id with
  | Some c => Ok c
  | None => Err (errorf ErrNotFound "oidc client not found")
  end.

Definition repo_GetOIDCClientByClientID (clientID : string) (s : OidcStore) : result OIDCClient :=
  first_row (errorf ErrNotFound "oidc client not found")
    (rows_where (fun c => String.eqb (OIDCClient_ClientID c) (TrimSpace clientID)) (od_clients s)).

Definition int4_positive (z : Z) : bool := (0 <? z) && (z <? 2 ^ 31).

(** The checks of [identity_oidc_clients] on one row, but for its keys. *)
Definition client_row_ok (item : OIDCClient) (s : OidcStore) : bool :=
  negb (unset (od_providers s !! OIDCClient_ProviderID item)) &&
  existsb (String.eqb (OIDCClient_Status item)) [OIDCClientStatusEnabled; OIDCClientStatusDisabled] &&
  existsb (String.eqb (OIDCClient_ClientType item)) [OIDCClientTypePublic; OIDCClientTypeConfidential] &&
  int4_positive (OIDCClient_AccessTokenTTLSeconds item) && int4_positive (OIDCClient_IDTokenTTLSeconds item) &&
  (0 <=? OIDCClient_RefreshTokenTTLSeconds item) && (OIDCClient_RefreshTokenTTLSeconds item <? 2 ^ 31).

(** The row that is stored: two columns are nullable texts, and two fields have
    no column. *)
Definition stored_client (createdAt : Z) (item : OIDCClient) : OIDCClient := {|
  OIDCClient_GrantTypes := []; OIDCClient_ID := OIDCClient_ID item; OIDCClient_ProviderID := OIDCClient_ProviderID item;
  OIDCClient_ClientID := OIDCClient_ClientID item; OIDCClient_ClientType := OIDCClient_ClientType item;
  OIDCClient_ClientSecretHash := OIDCClient_ClientSecretHash item;
  OIDCClient_ClientSecretCiphertext := nullableString (OIDCClient_ClientSecretCiphertext item);
  OIDCClient_ClientSecretHashAtEncryption := nullableString (OIDCClient_ClientSecretHashAtEncryption item);
  OIDCClient_ClientSecretAvailable := false; OIDCClient_RedirectURIs := OIDCClient_RedirectURIs item;
  OIDCClient_RedirectURIRegexes := OIDCClient_RedirectURIRegexes item; OIDCClient_PostLogoutRedirectURIs := OIDCClient_PostLogoutRedirectURIs item;
  OIDCClient_AllowedScopes := OIDCClient_AllowedScopes item; OIDCClient_AllowedGrantTypes := OIDCClient_AllowedGrantTypes item;
  OIDCClient_RequirePKCE := OIDCClient_RequirePKCE item; OIDCClient_AccessTokenTTLSeconds := OIDCClient_AccessTokenTTLSeconds item;
  OIDCClient_IDTokenTTLSeconds := OIDCClient_IDTokenTTLSeconds item; OIDCClient_RefreshTokenTTLSeconds := OIDCClient_RefreshTokenTTLSeconds item;
  OIDCClient_Status := OIDCClient_Status item; OIDCClient_CreatedAt := createdAt; OIDCClient_UpdatedAt := OIDCClient_UpdatedAt item |}.

Definition repo_CreateOIDCClient (item : OIDCClient) : oidc_store OIDCClient :=
  do! (fun s =>
    if unset (od_clients s !! OIDCClient_ID item) && client_row_ok item s &&
       is_empty (rows_where (fun c => String.eqb (OIDCClient_ClientID c) (OIDCClient_ClientID item)) (od_clients s))
    then (Ok tt, set_clients (<[OIDCClient_ID item := stored_client (OIDCClient_CreatedAt item) item]> (od_clients s)) s)
    else (Err constraint_error, s));
  fun s => (repo_GetOIDCClient (OIDCClient_ID item) s, s).

(** Codes and sessions refer to the client identifier, which then cannot change. *)
Definition client_referenced (clientID : string) (s : OidcStore) : bool :=
  negb (is_empty (rows_where (fun c => String.eqb (AuthorizationCode_ClientID c) clientID) (od_codes s))) ||
  negb (is_empty (rows_where (fun x => String.eqb (OIDCSession_ClientID x) clientID) (od_sessions s))).

Definition repo_UpdateOIDCClient (item : OIDCClient) : oidc_store OIDCClient :=
  do! (fun s => match od_clients s !! OIDCClient_ID item with
    | None => (Err (errorf ErrNotFound "oidc client not found"), s)
    | Some old =>
        if client_row_ok item s &&
           is_empty (rows_where (fun c => String.eqb (OIDCClient_ClientID c) (OIDCClient_ClientID item) &&
             negb (String.eqb (OIDCClient_ID c) (OIDCClient_ID item))) (od_clients s)) &&
           (String.eqb (OIDCClient_ClientID old) (OIDCClient_ClientID item) || negb (client_referenced (OIDCClient_ClientID old) s))
        then (Ok tt, set_clients (<[OIDCClient_ID item := stored_client (OIDCClient_CreatedAt old) item]> (od_clients s)) s)
        else (Err constraint_error, s)
    end);
  fun s => (repo_GetOIDCClient (OIDCClient_ID item) s, s).

(** [ON DELETE CASCADE] from a client: its codes, its sessions, their tokens. *)
Definition repo_DeleteOIDCClient (id : string) : oidc_store unit :=
  fun s => match od_clients s !! TrimSpace id with
  | None => (Err (errorf ErrNotFound "oidc client not found"), s)
  | Some c =>
      let sessions := filter (fun kv => OIDCSession_ClientID (snd kv) <> OIDCClient_ClientID c) (od_sessions s) in
      (Ok tt, {| od_providers := od_providers s; od_applications := od_applications s; od_users := od_users s; od_platform := od_platform s;
        od_clients := delete (TrimSpace id) (od_clients s); od_keys := od_keys s;
        od_codes := filter (fun kv => AuthorizationCode_ClientID (snd kv) <> OIDCClient_ClientID c) (od_codes s);
        od_sessions := sessions;
        od_tokens := filter (fun kv => is_Some (sessions !! RefreshToken_SessionID (snd kv))) (od_tokens s) |})
  end.

(** ** Signing keys *)

Definition newer_key (a b : SigningKey) : bool := SigningKey_CreatedAt b <? SigningKey_CreatedAt a.

(** [ORDER BY created_at DESC] promises a sorted permutation of the rows. *)
Class OidcDatabase := { key_order :: SliceSort newer_key }.

Section keys.
Context `{OidcDatabase}.

Definition active_key (providerID : string) (k : SigningKey) : bool :=
  String.eqb (SigningKey_ProviderID k) providerID && SigningKey_Active k.

Definition repo_GetActiveSigningKey (providerID : string) (s : OidcStore) : result SigningKey :=
  first_row (errorf ErrNotFound "oidc signing key not found")
    (slice_sort newer_key (rows_where (active_key (TrimSpace providerID)) (od_keys s))).

Definition insert_key (item : SigningKey) : oidc_store unit :=
  fun s => if unset (od_keys s !! SigningKey_KeyID item) && negb (unset (od_providers s !! SigningKey_ProviderID item)) &&
              is_empty (rows_where (fun k => String.eqb (SigningKey_ID k) (SigningKey_ID item)) (od_keys s))
           then (Ok tt, set_keys (<[SigningKey_KeyID item := item]> (od_keys s)) s)
           else (Err constraint_error, s).

Definition repo_CreateSigningKey (item : SigningKey) : oidc_store SigningKey :=
  do! insert_key item; fun s => (repo_GetActiveSigningKey (SigningKey_ProviderID item) s, s).

(** The new key is inserted as active and not rotated. *)
Definition fresh_key (item : SigningKey) : SigningKey := {|
  SigningKey_ID := SigningKey_ID item; SigningKey_ProviderID := SigningKey_ProviderID item; SigningKey_KeyID := SigningKey_KeyID item;
  SigningKey_EncryptedPrivateKey := SigningKey_EncryptedPrivateKey item; SigningKey_PublicJWK := SigningKey_PublicJWK item;
  SigningKey_Active := true; SigningKey_CreatedAt := SigningKey_CreatedAt item; SigningKey_RotatedAt := None |}.

Definition repo_RotateSigningKey (providerID : string) (item : SigningKey) (now : Z) : oidc_store SigningKey :=
  do! transaction (
    do! (fun s => (Ok tt, set_keys (snd (update_where (active_key (TrimSpace providerID)) (rotate_key now) (od_keys s))) s));
    insert_key (fresh_key item));
  fun s => (repo_GetActiveSigningKey providerID s, s).

Definition hours (n : Z) : Z := n * 3600 * 1000000000.

(** The active keys, and those rotated within a day by the clock of the database. *)
Definition published_key (dbNow : Z) (k : SigningKey) : bool :=
  SigningKey_Active k || match SigningKey_RotatedAt k with Some t => dbNow - hours 24 <? t | None => false end.

Definition repo_ListActivePublicKeys (dbNow : Z) (s : OidcStore) : list SigningKey :=
  slice_sort newer_key (rows_where (published_key dbNow) (od_keys s)).
End keys.

(** ** Authorization codes *)

Definition stored_code (item : AuthorizationCode) : AuthorizationCode := {|
  AuthorizationCode_ID := AuthorizationCode_ID item; AuthorizationCode_ProviderID := AuthorizationCode_ProviderID item;
  AuthorizationCode_ClientID := AuthorizationCode_ClientID item; AuthorizationCode_UserID := AuthorizationCode_UserID item;
  AuthorizationCode_CodeHash := AuthorizationCode_CodeHash item; AuthorizationCode_RedirectURI := AuthorizationCode_RedirectURI item;
  AuthorizationCode_Scopes := AuthorizationCode_Scopes item; AuthorizationCode_Nonce := nullableString (AuthorizationCode_Nonce item);
  AuthorizationCode_CodeChallenge := nullableString (AuthorizationCode_CodeChallenge item);
  AuthorizationCode_CodeChallengeMethod := nullableString (AuthorizationCode_CodeChallengeMethod item);
  AuthorizationCode_ExpiresAt := AuthorizationCode_ExpiresAt item; AuthorizationCode_ConsumedAt := AuthorizationCode_ConsumedAt item;
  AuthorizationCode_CreatedAt := AuthorizationCode_CreatedAt item; AuthorizationCode_Metadata := AuthorizationCode_Metadata item |}.

Definition client_exists (clientID : string) (s : OidcStore) : bool :=
  negb (is_empty (rows_where (fun c => String.eqb (OIDCClient_ClientID c) clientID) (od_clients s))).

(** The keys, the references and the check of the challenge method. *)
Definition code_admissible (item : AuthorizationCode) (s : OidcStore) : bool :=
  unset (od_codes s !! AuthorizationCode_CodeHash item) &&
  is_empty (rows_where (fun c => String.eqb (AuthorizationCode_ID c) (AuthorizationCode_ID item)) (od_codes s)) &&
  negb (unset (od_providers s !! AuthorizationCode_ProviderID item)) && client_exists (AuthorizationCode_ClientID item) s &&
  bool_decide (AuthorizationCode_UserID item ∈ od_users s) &&
  (blank (AuthorizationCode_CodeChallengeMethod item) || String.eqb (nullableString (AuthorizationCode_CodeChallengeMethod item)) "S256").

Definition repo_CreateAuthorizationCode (item : AuthorizationCode) : oidc_store unit :=
  fun s => if code_admissible item s
           then (Ok tt, set_codes (<[AuthorizationCode_CodeHash item := stored_code item]> (od_codes s)) s)
           else (Err constraint_error, s).

Definition code_live (now : Z) (c : AuthorizationCode) : bool :=
  unset (AuthorizationCode_ConsumedAt c) && (now <? AuthorizationCode_ExpiresAt c).

Definition code_error : error := errorf ErrUnauthorized "authorization code is invalid or expired".

Definition repo_GetAuthorizationCode (codeHash : string) (now : Z) (s : OidcStore) : result AuthorizationCode :=
  match od_codes s !! TrimSpace codeHash with
  | Some c => if code_live now c then Ok c else Err code_error
  | None => Err code_error
  end.

(** [UPDATE ... RETURNING]. *)
Definition repo_ConsumeAuthorizationCode (codeHash : string) (now : Z) : oidc_store AuthorizationCode :=
  fun s => match od_codes s !! TrimSpace codeHash with
  | Some c => if code_live now c
              then (Ok (consume_code now c), set_codes (<[TrimSpace codeHash := consume_code now c]> (od_codes s)) s)
              else (Err code_error, s)
  | None => (Err code_error, s)
  end.

(** ** Sessions and refresh tokens *)

Definition insertOIDCRefreshToken (item : OIDCRefreshToken) : oidc_store unit :=
  fun s => if unset (od_tokens s !! RefreshToken_TokenHash item) &&
              is_empty (rows_where (fun t => String.eqb (RefreshToken_ID t) (RefreshToken_ID item)) (od_tokens s)) &&
              negb (unset (od_sessions s !! RefreshToken_SessionID item))
           then (Ok tt, set_tokens (<[RefreshToken_TokenHash item := item]> (od_tokens s)) s)
           else (Err constraint_error, s).

Definition stored_session (item : OIDCSession) : OIDCSession :=
  with_session (OIDCSession_LastSeenAt item) (OIDCSession_RevokedAt item) (nullableString (OIDCSession_PlatformSessionID item)) item.

Definition session_admissible (item : OIDCSession) (s : OidcStore) : bool :=
  unset (od_sessions s !! OIDCSession_ID item) && negb (unset (od_providers s !! OIDCSession_ProviderID item)) &&
  client_exists (OIDCSession_ClientID item) s && bool_decide (OIDCSession_UserID item ∈ od_users s) &&
  (blank (OIDCSession_PlatformSessionID item) || negb (unset (od_platform s !! nullableString (OIDCSession_PlatformSessionID item)))).

Definition insert_session (item : OIDCSession) : oidc_store unit :=
  fun s => if session_admissible item s
           then (Ok tt, set_sessions (<[OIDCSession_ID item := stored_session item]> (od_sessions s)) s)
           else (Err constraint_error, s).

Definition repo_CreateOIDCSession (session : OIDCSession) (refreshToken : option OIDCRefreshToken) : oidc_store unit :=
  transaction (
    do! insert_session session;
    match refreshToken with None => gret tt | Some token => insertOIDCRefreshToken token end).

(** The platform session that a session belongs to, if any, is still good. *)
Definition platform_active (now : Z) (platformSessionID : string) (s : OidcStore) : bool :=
  str_empty platformSessionID ||
  match od_platform s !! platformSessionID with
  | Some p => String.eqb (PlatformSession_Status p) "active" && (now <? PlatformSession_ExpiresAt p)
  | None => false
  end.

Definition session_live (now : Z) (s : OidcStore) (x : OIDCSession) : bool :=
  unset (OIDCSession_RevokedAt x) && (now <? OIDCSession_ExpiresAt x) && platform_active now (OIDCSession_PlatformSessionID x) s.

Definition session_error : error := errorf ErrUnauthorized "oidc session is invalid or expired".

Definition getActiveOIDCSession (sessionID : string) (now : Z) (s : OidcStore) : result OIDCSession :=
  match od_sessions s !! TrimSpace sessionID with
  | Some x => if session_live now s x then Ok x else Err session_error
  | None => Err session_error
  end.

Definition repo_GetOIDCSession (sessionID : string) (now : Z) (s : OidcStore) : result OIDCSession := getActiveOIDCSession sessionID now s.

Definition getOIDCRefreshTokenForUpdate (tokenHash : string) (s : OidcStore) : result OIDCRefreshToken :=
  match od_tokens s !! TrimSpace tokenHash with
  | Some t => Ok t
  | None => Err (errorf ErrUnauthorized "refresh token is invalid")
  end.

Definition revokeOIDCRefreshFamily (sessionID familyID : string) (now : Z) : oidc_store unit :=
  fun s => (Ok tt,
    set_tokens (snd (update_where (fun t => String.eqb (RefreshToken_FamilyID t) familyID) (revoke_token now) (od_tokens s)))
      (set_sessions (snd (update_by_id sessionID (fun _ => true) (revoke_oidc_session now) (od_sessions s))) s)).

Definition revokeOIDCSession (sessionID clientID : string) (now : Z) : oidc_store unit :=
  fun s => if str_empty sessionID || str_empty clientID then (Ok tt, s) else
    (Ok tt,
     set_tokens (snd (update_where (fun t => String.eqb (RefreshToken_SessionID t) sessionID) (revoke_token now) (od_tokens s)))
       (set_sessions (snd (update_by_id sessionID (fun x => String.eqb (OIDCSession_ClientID x) clientID) (revoke_oidc_session now)
         (od_sessions s))) s)).

Definition repo_RevokeOIDCSession (sessionID clientID : string) (now : Z) : oidc_store unit :=
  transaction (revokeOIDCSession (TrimSpace sessionID) (TrimSpace clientID) now).

(** The session of a token, if it belongs to the client. *)
Definition repo_RevokeOIDCSessionByRefreshToken (tokenHash clientID : string) (now : Z) : oidc_store unit :=
  transaction (fun s =>
    match t ← od_tokens s !! TrimSpace tokenHash; x ← od_sessions s !! RefreshToken_SessionID t;
          (if String.eqb (OIDCSession_ClientID x) (TrimSpace clientID) then Some (RefreshToken_SessionID t) else None) with
    | None => (Ok tt, s)
    | Some sessionID => revokeOIDCSession sessionID clientID now s
    end).

(** The next token of a family: it inherits the session and the expiry. *)
Definition next_token (current next : OIDCRefreshToken) : OIDCRefreshToken := {|
  RefreshToken_ID := RefreshToken_ID next; RefreshToken_SessionID := RefreshToken_SessionID current;
  RefreshToken_FamilyID := RefreshToken_FamilyID current; RefreshToken_TokenHash := RefreshToken_TokenHash next;
  RefreshToken_ParentID := nullableString (RefreshToken_ID current); RefreshToken_ExpiresAt := RefreshToken_ExpiresAt current;
  RefreshToken_ConsumedAt := RefreshToken_ConsumedAt next; RefreshToken_RevokedAt := RefreshToken_RevokedAt next;
  RefreshToken_CreatedAt := RefreshToken_CreatedAt next |}.

Definition token_usable (t : OIDCRefreshToken) : bool := unset (RefreshToken_ConsumedAt t) && unset (RefreshToken_RevokedAt t).

Definition consume_current (current : OIDCRefreshToken) (now : Z) : oidc_store unit :=
  fun s =>
    let '(affected, m) := update_where (fun t => String.eqb (RefreshToken_ID t) (RefreshToken_ID current) && token_usable t)
      (consume_token now) (od_tokens s) in
    if negb (affected =? 1)%nat then (Err (errorf ErrUnauthorized "refresh token was already consumed"), s) else (Ok tt, set_tokens m s).

(** The transaction of a rotation; [None] is a token that was used before. *)
Definition rotation (tokenHash : string) (next : OIDCRefreshToken) (now : Z) : oidc_store (option OIDCSession) :=
  transaction (
    let! current := (fun s => (getOIDCRefreshTokenForUpdate tokenHash s, s)) in
    if negb (unset (RefreshToken_ConsumedAt current)) then
      do! revokeOIDCRefreshFamily (RefreshToken_SessionID current) (RefreshToken_FamilyID current) now;
      gret None
    else if negb (unset (RefreshToken_RevokedAt current)) || negb (now <? RefreshToken_ExpiresAt current)
    then gfail (errorf ErrUnauthorized "refresh token is invalid or expired")
    else
      let! session := (fun s => (getActiveOIDCSession (RefreshToken_SessionID current) now s, s)) in
      do! consume_current current now;
      do! insertOIDCRefreshToken (next_token current next);
      do! (fun s => (Ok tt, set_sessions (snd (update_by_id (RefreshToken_SessionID current) (fun _ => true) (touch_session now) (od_sessions s))) s));
      gret (Some session)).

Definition repo_RotateOIDCRefreshToken (tokenHash : string) (next : OIDCRefreshToken) (now : Z) : oidc_store OIDCSession :=
  let! found := rotation tokenHash next now in
  match found with
  | None => gfail (errorf ErrUnauthorized "refresh token reuse detected")
  | Some session => gret session
  end.

(** ** The platform's sessions *)

Definition user_not_found : error := errorf ErrNotFound "user not found".

Definition repo_GetAuthSessionByID (sessionID : string) (s : OidcStore) : result PlatformSession :=
  match od_platform s !! sessionID with Some p => Ok p | None => Err user_not_found end.

Definition revoke_platform (p : PlatformSession) : PlatformSession := {|
  PlatformSession_ID := PlatformSession_ID p; PlatformSession_UserID := PlatformSession_UserID p; PlatformSession_Status := "revoked";
  PlatformSession_ExpiresAt := PlatformSession_ExpiresAt p; PlatformSession_LastSeenAt := PlatformSession_LastSeenAt p;
  PlatformSession_Metadata := PlatformSession_Metadata p |}.

Definition repo_RevokeSessionByID (sessionID : string) : oidc_store unit :=
  fun s =>
    let '(affected, m) := update_by_id sessionID (fun _ => true) revoke_platform (od_platform s) in
    if (affected =? 0)%nat then (Err user_not_found, s) else (Ok tt, set_platform m s).

(** ** Interleavings *)

(** The transactions of any number of calls on codes, sessions and tokens, in
    the order the database runs them.  The first token of a session is given by
    its identifier, its family and its hash, the next one by its identifier and
    its hash. *)
Inductive oidc_op :=
| OpCreateCode (item : AuthorizationCode)
| OpConsumeCode (codeHash : string) (now : Z)
| OpCreateSession (session : OIDCSession) (token : option (string * string * string))
| OpRotate (tokenHash id hash : string) (now : Z)
| OpRevokeSession (sessionID clientID : string) (now : Z)
| OpRevokeByToken (tokenHash clientID : string) (now : Z).

Definition first_token (session : OIDCSession) (token : string * string * string) : OIDCRefreshToken :=
  let '(id, family, hash) := token in {|
  RefreshToken_ID := id; RefreshToken_SessionID := OIDCSession_ID session; RefreshToken_FamilyID := family; RefreshToken_TokenHash := hash;
  RefreshToken_ParentID := ""; RefreshToken_ExpiresAt := OIDCSession_ExpiresAt session; RefreshToken_ConsumedAt := None;
  RefreshToken_RevokedAt := None; RefreshToken_CreatedAt := OIDCSession_CreatedAt session |}.

Definition rotated_token (id hash : string) (now : Z) : OIDCRefreshToken := {|
  RefreshToken_ID := id; RefreshToken_SessionID := ""; RefreshToken_FamilyID := ""; RefreshToken_TokenHash := hash;
  RefreshToken_ParentID := ""; RefreshToken_ExpiresAt := zero_time; RefreshToken_ConsumedAt := None;
  RefreshToken_RevokedAt := None; RefreshToken_CreatedAt := now |}.

Definition run_oidc_op (o : oidc_op) (s : OidcStore) : bool * OidcStore :=
  match o with
  | OpCreateCode item => let '(r, s) := repo_CreateAuthorizationCode item s in (succeeded r, s)
  | OpConsumeCode codeHash now => let '(r, s) := repo_ConsumeAuthorizationCode codeHash now s in (succeeded r, s)
  | OpCreateSession session token => let '(r, s) := repo_CreateOIDCSession session (first_token session <$> token) s in (succeeded r, s)
  | OpRotate tokenHash id hash now => let '(r, s) := repo_RotateOIDCRefreshToken tokenHash (rotated_token id hash now) now s in (succeeded r, s)
  | OpRevokeSession sessionID clientID now => let '(r, s) := repo_RevokeOIDCSession sessionID clientID now s in (succeeded r, s)
  | OpRevokeByToken tokenHash clientID now => let '(r, s) := repo_RevokeOIDCSessionByRefreshToken tokenHash clientID now s in (succeeded r, s)
  end.

(** New codes and sessions are neither consumed nor revoked. *)
Definition issued (o : oidc_op) : Prop :=
  match o with
  | OpCreateCode item => AuthorizationCode_ConsumedAt item = None
  | OpCreateSession session _ => OIDCSession_RevokedAt session = None
  | _ => True
  end.

(** What the rest of the program does to these tables: rows of the other
    tables change at will, and the rows that refer to a deleted one are deleted
    with it, or lose the reference to their platform session. *)
Record elsewhere (s s' : OidcStore) : Prop := {
  else_codes : od_codes s' ⊆ od_codes s;
  else_sessions : forall k x', od_sessions s' !! k = Some x' -> exists x, od_sessions s !! k = Some x /\ (x' = x \/ x' = detach_session x);
  else_tokens : od_tokens s' = filter (fun kv => is_Some (od_sessions s' !! RefreshToken_SessionID (snd kv))) (od_tokens s)
}.

Inductive oidc_steps : OidcStore -> list (oidc_op * bool) -> OidcStore -> Prop :=
| oidc_nil s : oidc_steps s [] s
| oidc_cons s o ok s1 tr s2 : issued o -> run_oidc_op o s = (ok, s1) -> oidc_steps s1 tr s2 -> oidc_steps s ((o, ok) :: tr) s2
| oidc_env s s1 tr s2 : elsewhere s s1 -> oidc_steps s1 tr s2 -> oidc_steps s tr s2.

Definition occurrences (p : oidc_op * bool -> bool) (tr : list (oidc_op * bool)) : nat := length (List.filter p tr).

Definition consumes_code (h : string) (x : oidc_op * bool) : bool :=
  snd x && match fst x with OpConsumeCode codeHash _ => String.eqb (TrimSpace codeHash) h | _ => false end.
Definition creates_code (h : string) (x : oidc_op * bool) : bool :=
  snd x && match fst x with OpCreateCode item => String.eqb (AuthorizationCode_CodeHash item) h | _ => false end.
Definition rotates_token (h : string) (x : oidc_op * bool) : bool :=
  snd x && match fst x with OpRotate tokenHash _ _ _ => String.eqb (TrimSpace tokenHash) h | _ => false end.
Definition issues_token (h : string) (x : oidc_op * bool) : bool :=
  snd x && match fst x with
  | OpCreateSession _ (Some (_, _, hash)) => String.eqb hash h
  | OpRotate _ _ hash _ => String.eqb hash h
  | _ => false
  end.
Definition creates_session (id : string) (x : oidc_op * bool) : bool :=
  snd x && match fst x with OpCreateSession session _ => String.eqb (OIDCSession_ID session) id | _ => false end.

(** A code that may still be exchanged, a token that was not used. *)
Definition fresh_code (h : string) (s : OidcStore) : nat :=
  match od_codes s !! h with Some c => if unset (AuthorizationCode_ConsumedAt c) then 1 else 0 | None => 0 end.
Definition fresh_token (h : string) (s : OidcStore) : nat :=
  match od_tokens s !! h with Some t => if unset (RefreshToken_ConsumedAt t) then 1 else 0 | None => 0 end.

(** ** Lemmas: statements *)

Lemma update_where_lookup {A} (p : A -> bool) f (m : gmap string A) k :
  snd (update_where p f m) !! k = (fun x => if p x then f x else x) <$> m !! k.
Proof. apply lookup_fmap. Qed.

Lemma update_by_id_lookup {A} id (p : A -> bool) f (m : gmap string A) k :
  snd (update_by_id id p f m) !! k = (if String.eqb k id then (fun x => if p x then f x else x) <$> m !! k else m !! k).
Proof.
  unfold update_by_id. destruct (String.eqb_spec k id) as [-> |Hk].
  - destruct (m !! id) as [x|] eqn:Hx; cbn; [|done]. destruct (p x); cbn; [by rewrite lookup_insert_eq|done].
  - destruct (m !! id) as [x|] eqn:Hx; cbn; [|done]. destruct (p x); cbn; [by rewrite lookup_insert_ne by done|done].
Qed.

Lemma rows_where_nil {A} (p : A -> bool) (m : gmap string A) :
  is_empty (rows_where p m) = true <-> forall k x, m !! k = Some x -> p x = false.
Proof.
  split.
  - intros He k x Hx. apply not_true_iff_false. intros Hp. assert (x ∈ rows_where p m) as Hin by (apply elem_of_rows; eauto).
    destruct (rows_where p m); [by apply not_elem_of_nil in Hin|done].
  - intros Hn. destruct (rows_where p m) as [|x l] eqn:Hr; [done|]. exfalso.
    assert (x ∈ rows_where p m) as (Hp & k & Hk)%elem_of_rows by (rewrite Hr; apply elem_of_cons; by left). by rewrite (Hn k x Hk) in Hp.
Qed.

Lemma unset_Some {A} (o : option A) : unset o = false <-> is_Some o.
Proof. destruct o; cbn; split; intros H; [eauto|done|done|by destruct H]. Qed.

(** A result that is lifted into the store. *)
Lemma read_Ok {A} (q : OidcStore -> result A) (s : OidcStore) a s' :
  (q s, s) = (Ok a, s') -> q s = Ok a /\ s' = s.
Proof. by intros [= -> <-]. Qed.

Lemma insert_token_Ok item s s' : insertOIDCRefreshToken item s = (Ok tt, s') ->
  od_tokens s !! RefreshToken_TokenHash item = None /\
  (forall k t, od_tokens s !! k = Some t -> RefreshToken_ID t <> RefreshToken_ID item) /\
  is_Some (od_sessions s !! RefreshToken_SessionID item) /\
  s' = set_tokens (<[RefreshToken_TokenHash item := item]> (od_tokens s)) s.
Proof.
  unfold insertOIDCRefreshToken. destruct (_ && _) eqn:Hc; [|done]. intros [= <-].
  apply andb_true_iff in Hc as [[Hk%unset_None Hid]%andb_true_iff Hs%negb_true_iff%unset_Some].
  split_and!; [done| |done|done]. intros k t Ht He. rewrite rows_where_nil in Hid. apply Hid in Ht. by apply String.eqb_neq in Ht.
Qed.

Lemma create_session_cases session token s r s' : repo_CreateOIDCSession session token s = (r, s') ->
  (exists e, r = Err e /\ s' = s) \/
  (r = Ok tt /\ session_admissible session s = true /\
   od_codes s' = od_codes s /\ od_sessions s' = <[OIDCSession_ID session := stored_session session]> (od_sessions s) /\
   match token with
   | None => od_tokens s' = od_tokens s
   | Some t => od_tokens s !! RefreshToken_TokenHash t = None /\
       (forall k u, od_tokens s !! k = Some u -> RefreshToken_ID u <> RefreshToken_ID t) /\
       od_tokens s' = <[RefreshToken_TokenHash t := t]> (od_tokens s)
   end).
Proof.
  intros [([] & -> & Hm)|(e & -> & ->)]%transaction_cases; [right|left; eauto]. split; [done|].
  apply gbind_Ok in Hm as ([] & s1 & Hi & Hm). unfold insert_session in Hi.
  destruct (session_admissible session s); [|done]. injection Hi as <-. split; [done|].
  destruct token as [t|]; [|injection Hm as <-; done].
  apply insert_token_Ok in Hm as (Hk & Hid & _ & ->). done.
Qed.

(** A rotation fails and changes nothing, finds a used token and revokes its
    family, or uses the token and stores the next one. *)
Lemma rotation_cases tokenHash next now s r s' : rotation tokenHash next now s = (r, s') ->
  (exists e, r = Err e /\ s' = s) \/
  exists t, od_tokens s !! TrimSpace tokenHash = Some t /\
  ((r = Ok None /\ is_Some (RefreshToken_ConsumedAt t) /\
    revokeOIDCRefreshFamily (RefreshToken_SessionID t) (RefreshToken_FamilyID t) now s = (Ok tt, s')) \/
   (exists x, r = Ok (Some x) /\ token_usable t = true /\ now < RefreshToken_ExpiresAt t /\
    getActiveOIDCSession (RefreshToken_SessionID t) now s = Ok x /\
    let m := snd (update_where (fun u => String.eqb (RefreshToken_ID u) (RefreshToken_ID t) && token_usable u) (consume_token now) (od_tokens s)) in
    m !! RefreshToken_TokenHash next = None /\ (forall k u, m !! k = Some u -> RefreshToken_ID u <> RefreshToken_ID next) /\
    s' = set_sessions (snd (update_by_id (RefreshToken_SessionID t) (fun _ => true) (touch_session now) (od_sessions s)))
           (set_tokens (<[RefreshToken_TokenHash next := next_token t next]> m) s))).
Proof.
  intros [(o & -> & Hm)|(e & -> & ->)]%transaction_cases; [right|left; eauto].
  apply gbind_Ok in Hm as (t & s1 & [Hg ->]%read_Ok & Hm). exists t. unfold getOIDCRefreshTokenForUpdate in Hg.
  destruct (od_tokens s !! TrimSpace tokenHash) as [u|]; [|done]. injection Hg as ->. split; [done|].
  destruct (unset (RefreshToken_ConsumedAt t)) eqn:Hc; cbn [negb] in Hm.
  2: { left. apply gbind_Ok in Hm as ([] & s1 & Hr & Hm). unfold gret in Hm. inversion Hm; subst. rewrite <-unset_Some. done. }
  right. destruct (unset (RefreshToken_RevokedAt t)) eqn:Hr; cbn [negb orb] in Hm; [|done].
  destruct (Z.ltb_spec now (RefreshToken_ExpiresAt t)); cbn [negb] in Hm; [|done].
  apply gbind_Ok in Hm as (x & s1 & [Hx ->]%read_Ok & Hm). exists x.
  apply gbind_Ok in Hm as ([] & s1 & Hu & Hm). unfold consume_current in Hu.
  destruct (update_where _ _ _) as [n m] eqn:Hm' in Hu. destruct (n =? 1)%nat; cbn [negb] in Hu; [|done]. injection Hu as <-.
  apply gbind_Ok in Hm as ([] & s2 & (Hk & Hid & _ & ->)%insert_token_Ok & Hm).
  apply gbind_Ok in Hm as ([] & s3 & [= <-] & [= <- <-]). rewrite Hm'. cbn [snd].
  split_and!; [done| |done|done|done|exact Hid|done]. unfold token_usable. by rewrite Hc, Hr.
Qed.

Lemma rotate_rotation tokenHash next now s :
  repo_RotateOIDCRefreshToken tokenHash next now s =
  match rotation tokenHash next now s with
  | (Err e, s') => (Err e, s')
  | (Ok None, s') => (Err (errorf ErrUnauthorized "refresh token reuse detected"), s')
  | (Ok (Some x), s') => (Ok x, s')
  end.
Proof. unfold repo_RotateOIDCRefreshToken, gbind. by destruct (rotation _ _ _ s) as [[[x|]|e] s']. Qed.

(** ** Lemmas: what a step keeps *)

Record session_kept (x x' : OIDCSession) : Prop := {
  kept_id : OIDCSession_ID x' = OIDCSession_ID x;
  kept_provider : OIDCSession_ProviderID x' = OIDCSession_ProviderID x;
  kept_client : OIDCSession_ClientID x' = OIDCSession_ClientID x;
  kept_user : OIDCSession_UserID x' = OIDCSession_UserID x;
  kept_scopes : OIDCSession_Scopes x' = OIDCSession_Scopes x;
  kept_auth : OIDCSession_AuthTime x' = OIDCSession_AuthTime x;
  kept_expiry : OIDCSession_ExpiresAt x' = OIDCSession_ExpiresAt x;
  kept_revoked : forall t, OIDCSession_RevokedAt x = Some t -> OIDCSession_RevokedAt x' = Some t
}.

Record token_kept (t t' : OIDCRefreshToken) : Prop := {
  keeps_id : RefreshToken_ID t' = RefreshToken_ID t;
  keeps_session : RefreshToken_SessionID t' = RefreshToken_SessionID t;
  keeps_family : RefreshToken_FamilyID t' = RefreshToken_FamilyID t;
  keeps_hash : RefreshToken_TokenHash t' = RefreshToken_TokenHash t;
  keeps_expiry : RefreshToken_ExpiresAt t' = RefreshToken_ExpiresAt t;
  keeps_usable : token_usable t' = true -> token_usable t = true;
  keeps_consumed : is_Some (RefreshToken_ConsumedAt t) -> is_Some (RefreshToken_ConsumedAt t')
}.

#[export] Instance session_kept_refl : Reflexive session_kept.
Proof. by constructor. Qed.
#[export] Instance session_kept_trans : Transitive session_kept.
Proof. intros x y z [] []. split; try congruence; auto. Qed.
#[export] Instance token_kept_refl : Reflexive token_kept.
Proof. by constructor. Qed.

Lemma revoke_kept now x : session_kept x (revoke_oidc_session now x).
Proof. split; try done. cbn. intros t ->. done. Qed.
Lemma touch_kept now x : session_kept x (touch_session now x).
Proof. by split. Qed.
Lemma detach_kept x : session_kept x (detach_session x).
Proof. by split. Qed.

Lemma revoke_token_kept now t : token_kept t (revoke_token now t).
Proof.
  split; try done. unfold token_usable. cbn. destruct (RefreshToken_RevokedAt t); cbn; by rewrite andb_false_r.
Qed.
Lemma consume_token_kept now t : token_kept t (consume_token now t).
Proof. split; done. Qed.

Create HintDb oidc_tables.
#[export] Hint Resolve revoke_kept touch_kept detach_kept revoke_token_kept consume_token_kept session_kept_refl token_kept_refl : oidc_tables.

Lemma fmap_if_kept {A} (R : A -> A -> Prop) (p : A -> bool) f (o : option A) y :
  (forall x, R x (f x)) -> (forall x, R x x) -> (fun x => if p x then f x else x) <$> o = Some y -> exists x, o = Some x /\ R x y.
Proof. intros Hf Hr. destruct o as [x|]; [|done]. cbn. intros [= <-]. exists x. destruct (p x); auto. Qed.

(** The rows that a statement updates are kept. *)
Lemma update_where_kept {A} (R : A -> A -> Prop) p f (m : gmap string A) k y :
  (forall x, R x (f x)) -> (forall x, R x x) -> snd (update_where p f m) !! k = Some y -> exists x, m !! k = Some x /\ R x y.
Proof. rewrite update_where_lookup. apply fmap_if_kept. Qed.

Lemma update_by_id_kept {A} (R : A -> A -> Prop) id p f (m : gmap string A) k y :
  (forall x, R x (f x)) -> (forall x, R x x) -> snd (update_by_id id p f m) !! k = Some y -> exists x, m !! k = Some x /\ R x y.
Proof. rewrite update_by_id_lookup. destruct (String.eqb k id); [apply fmap_if_kept|eauto]. Qed.

Lemma update_where_is_Some {A} p (f : A -> A) (m : gmap string A) k : is_Some (snd (update_where p f m) !! k) <-> is_Some (m !! k).
Proof. rewrite update_where_lookup. apply fmap_is_Some. Qed.

Lemma update_by_id_is_Some {A} id p (f : A -> A) (m : gmap string A) k : is_Some (snd (update_by_id id p f m) !! k) <-> is_Some (m !! k).
Proof. rewrite update_by_id_lookup. destruct (String.eqb k id); [apply fmap_is_Some|done]. Qed.

(** What a step does to the codes, the sessions and the tokens. *)
Record oidc_change (o : oidc_op) (ok : bool) (s s' : OidcStore) : Prop := {
  change_codes : forall h c', od_codes s' !! h = Some c' -> unset (AuthorizationCode_ConsumedAt c') = true ->
    (od_codes s !! h = Some c' /\ consumes_code h (o, ok) = false) \/ (od_codes s !! h = None /\ creates_code h (o, ok) = true);
  change_consumed : forall h, consumes_code h (o, ok) = true -> fresh_code h s = 1%nat;
  change_sessions : forall k x', od_sessions s' !! k = Some x' ->
    (exists x, od_sessions s !! k = Some x /\ session_kept x x') \/
    (od_sessions s !! k = None /\ exists session token, o = OpCreateSession session token /\ ok = true /\ OIDCSession_ID session = k /\
       x' = stored_session session);
  change_present : forall k, is_Some (od_sessions s !! k) -> is_Some (od_sessions s' !! k)
}.

Lemma consume_code_change codeHash now s ok s' : run_oidc_op (OpConsumeCode codeHash now) s = (ok, s') ->
  oidc_change (OpConsumeCode codeHash now) ok s s'.
Proof.
  cbn [run_oidc_op]. unfold repo_ConsumeAuthorizationCode, code_live.
  destruct (od_codes s !! TrimSpace codeHash) as [c|] eqn:Hc; [|intros [= <- <-]; split; eauto with oidc_tables; cbn; auto; done].
  destruct (unset (AuthorizationCode_ConsumedAt c)) eqn:Hu; [|intros [= <- <-]; split; eauto with oidc_tables; cbn; auto; done].
  destruct (now <? AuthorizationCode_ExpiresAt c); intros [= <- <-]; cbn [succeeded andb]; split; eauto with oidc_tables; cbn; auto; try done.
  - intros h c'. unfold consumes_code. cbn. destruct (String.eqb_spec (TrimSpace codeHash) h) as [<-|Hh].
    + rewrite lookup_insert_eq. intros [= <-]. done.
    + rewrite lookup_insert_ne by done. auto.
  - intros h. unfold consumes_code. cbn. intros <-%String.eqb_eq. unfold fresh_code. by rewrite Hc, Hu.
Qed.

Lemma create_code_change item s ok s' : run_oidc_op (OpCreateCode item) s = (ok, s') -> oidc_change (OpCreateCode item) ok s s'.
Proof.
  cbn [run_oidc_op]. unfold repo_CreateAuthorizationCode. destruct (code_admissible item s) eqn:Ha; intros [= <- <-];
    cbn [succeeded]; split; eauto with oidc_tables; cbn; auto; try done.
  intros h c'. unfold creates_code. cbn. destruct (String.eqb_spec (AuthorizationCode_CodeHash item) h) as [<-|Hh].
  - unfold code_admissible in Ha. rewrite !andb_true_iff in Ha. destruct Ha as [[[[[Hk%unset_None _] _] _] _] _]. auto.
  - rewrite lookup_insert_ne by done. auto.
Qed.

(** A step that leaves the codes and only updates sessions. *)
Lemma update_change o ok s s' :
  (forall h, consumes_code h (o, ok) = false) -> od_codes s' = od_codes s ->
  (forall k x', od_sessions s' !! k = Some x' -> exists x, od_sessions s !! k = Some x /\ session_kept x x') ->
  (forall k, is_Some (od_sessions s !! k) -> is_Some (od_sessions s' !! k)) -> oidc_change o ok s s'.
Proof.
  intros Ho Hc Hs Hp. split; [|intros h Hh; by rewrite Ho in Hh|auto|done]. rewrite Hc. auto.
Qed.

Lemma no_change o ok s : (forall h, consumes_code h (o, ok) = false) -> oidc_change o ok s s.
Proof. intros Ho. apply update_change; eauto with oidc_tables. Qed.

Lemma create_session_change session token s ok s' :
  run_oidc_op (OpCreateSession session token) s = (ok, s') -> oidc_change (OpCreateSession session token) ok s s'.
Proof.
  cbn [run_oidc_op]. destruct (repo_CreateOIDCSession _ _ s) as [r s1] eqn:Hr. intros [= <- <-].
  apply create_session_cases in Hr as [(e & -> & ->)|(-> & Ha & Hc & Hs & _)]; [by apply no_change|].
  split; [rewrite Hc; auto|done| |].
  - intros k x'. rewrite Hs. destruct (String.eqb_spec (OIDCSession_ID session) k) as [<-|Hk].
    + rewrite lookup_insert_eq. intros [= <-]. right. unfold session_admissible in Ha. rewrite !andb_true_iff in Ha.
      destruct Ha as [[[[Hk%unset_None _] _] _] _]. split; [done|]. eauto 10.
    + rewrite lookup_insert_ne by done. eauto with oidc_tables.
  - intros k Hk. rewrite Hs. apply lookup_insert_is_Some'. auto.
Qed.

Lemma rotate_change tokenHash id hash now s ok s' :
  run_oidc_op (OpRotate tokenHash id hash now) s = (ok, s') -> oidc_change (OpRotate tokenHash id hash now) ok s s'.
Proof.
  cbn [run_oidc_op]. rewrite rotate_rotation. destruct (rotation _ _ _ s) as [r s1] eqn:Hr.
  apply rotation_cases in Hr as [(e & -> & ->)|(t & Ht & [(-> & _ & [= <-])|(x & -> & _ & _ & _ & _ & _ & ->)])]; intros [= <- <-].
  - by apply no_change.
  - apply update_change; cbn; [done|done| |].
    + intros k y. apply update_by_id_kept; auto with oidc_tables.
    + intros k Hk. by apply update_by_id_is_Some.
  - apply update_change; cbn; [done|done| |].
    + intros k y. apply update_by_id_kept; auto with oidc_tables.
    + intros k Hk. by apply update_by_id_is_Some.
Qed.

Lemma revoke_session_change o ok sessionID clientID now s r s' :
  (forall h, consumes_code h (o, ok) = false) -> revokeOIDCSession sessionID clientID now s = (r, s') -> oidc_change o ok s s'.
Proof.
  intros Ho. unfold revokeOIDCSession. destruct (_ || _); intros [= <- <-]; [by apply no_change|].
  apply update_change; cbn; [done|done| |].
  - intros k y. apply update_by_id_kept; auto with oidc_tables.
  - intros k Hk. by apply update_by_id_is_Some.
Qed.

Lemma oidc_op_change o s ok s' : run_oidc_op o s = (ok, s') -> oidc_change o ok s s'.
Proof.
  destruct o as [item|codeHash now|session token|tokenHash id hash now|sessionID clientID now|tokenHash clientID now].
  1: apply create_code_change. 1: apply consume_code_change. 1: apply create_session_change. 1: apply rotate_change.
  all: cbn [run_oidc_op].
  - unfold repo_RevokeOIDCSession. destruct (transaction _ s) as [r s1] eqn:Hr. intros [= <- <-].
    apply transaction_cases in Hr as [(a & -> & Hr)|(e & -> & ->)]; [|by apply no_change]. by eapply revoke_session_change.
  - unfold repo_RevokeOIDCSessionByRefreshToken. destruct (transaction _ s) as [r s1] eqn:Hr. intros [= <- <-].
    apply transaction_cases in Hr as [(a & -> & Hr)|(e & -> & ->)]; [|by apply no_change].
    destruct (_ ≫= _) as [sessionID|]; [|injection Hr as _ <-; by apply no_change]. by eapply revoke_session_change.
Qed.

(** ** Codes are used once *)

Lemma code_step o ok s s' h : oidc_change o ok s s' ->
  ((if consumes_code h (o, ok) then 1 else 0) + fresh_code h s' <= fresh_code h s + (if creates_code h (o, ok) then 1 else 0))%nat.
Proof.
  intros [Hc Hu _ _]. assert (consumes_code h (o, ok) = true -> creates_code h (o, ok) = false) as Hx.
  { unfold consumes_code, creates_code. destruct o; cbn; rewrite ?andb_false_r; done. }
  destruct (consumes_code h (o, ok)) eqn:Hcon.
  - rewrite Hx, Hu by done. unfold fresh_code. destruct (od_codes s' !! h) as [c|] eqn:Hs; [|lia].
    destruct (unset _) eqn:Hun; [|lia]. destruct (Hc h c Hs Hun) as [[_ ?]|[_ Hcr]]; [congruence|]. by rewrite Hx in Hcr.
  - unfold fresh_code at 1. destruct (od_codes s' !! h) as [c|] eqn:Hs; [|lia]. destruct (unset _) eqn:Hun; [|lia].
    destruct (Hc h c Hs Hun) as [[Ho _]|[_ ->]]; [|lia]. unfold fresh_code. rewrite Ho, Hun. lia.
Qed.

Lemma occurrences_cons p x tr : occurrences p (x :: tr) = ((if p x then 1 else 0) + occurrences p tr)%nat.
Proof. unfold occurrences. cbn [List.filter]. by destruct (p x). Qed.

Lemma code_env s s' h : elsewhere s s' -> (fresh_code h s' <= fresh_code h s)%nat.
Proof.
  intros [Hc _ _]. unfold fresh_code. destruct (od_codes s' !! h) as [c|] eqn:Hs; [|lia].
  apply (lookup_weaken _ _ _ _ Hs) in Hc. by rewrite Hc.
Qed.

(** Exchanges and insertions of a code along the steps. *)
Lemma code_count s tr s' h :
  oidc_steps s tr s' ->
  (occurrences (consumes_code h) tr + fresh_code h s' <= fresh_code h s + occurrences (creates_code h) tr)%nat.
Proof.
  induction 1 as [s|s o ok s1 tr s2 _ Hrun Hsteps IH|s s1 tr s2 Henv Hsteps IH]; [cbn; lia| |].
  - rewrite !occurrences_cons. apply oidc_op_change, (code_step _ _ _ _ h) in Hrun. lia.
  - apply (code_env _ _ h) in Henv. lia.
Qed.

(** C7. In every interleaving of the provider's transactions and of changes
    elsewhere (clients, users or providers deleted with the rows that refer to
    them), the successful exchanges of an authorization code are at most as
    many as its insertions: a code that was stored once is exchanged at most
    once, however many requests present it at the same time, and after it was
    consumed it is never exchangeable again. *)
Theorem code_exchanged_once s tr s' h :
  oidc_steps s tr s' ->
  (occurrences (consumes_code h) tr + fresh_code h s' <= fresh_code h s + occurrences (creates_code h) tr)%nat.
Proof. apply code_count. Qed.

(** ** Tokens *)

(** What a step does to the tokens. *)
Record token_change (o : oidc_op) (ok : bool) (s s' : OidcStore) : Prop := {
  change_tokens : forall h t', od_tokens s' !! h = Some t' ->
    (exists t, od_tokens s !! h = Some t /\ token_kept t t' /\ (rotates_token h (o, ok) = true -> is_Some (RefreshToken_ConsumedAt t'))) \/
    (od_tokens s !! h = None /\ issues_token h (o, ok) = true);
  change_rotated : forall h, rotates_token h (o, ok) = true -> fresh_token h s = 1%nat
}.

Lemma same_tokens o ok s s' : (forall h, rotates_token h (o, ok) = false) ->
  (forall h t', od_tokens s' !! h = Some t' -> exists t, od_tokens s !! h = Some t /\ token_kept t t') -> token_change o ok s s'.
Proof.
  intros Ho Ht. split; [|intros h Hh; by rewrite Ho in Hh]. intros h t' Hk. left. apply Ht in Hk as (t & Hk & Hkept). exists t.
  split_and!; [done|done|]. by rewrite Ho.
Qed.

Lemma same_tokens_refl o ok s : (forall h, rotates_token h (o, ok) = false) -> token_change o ok s s.
Proof. intros Ho. apply same_tokens; eauto with oidc_tables. Qed.

Lemma revoke_session_tokens o ok sessionID clientID now s r s' :
  (forall h, rotates_token h (o, ok) = false) -> revokeOIDCSession sessionID clientID now s = (r, s') -> token_change o ok s s'.
Proof.
  intros Ho. unfold revokeOIDCSession. destruct (_ || _); intros [= <- <-]; [by apply same_tokens_refl|].
  apply same_tokens; [done|]. intros h t. cbn. apply update_where_kept; auto with oidc_tables.
Qed.

Lemma create_session_tokens session token s ok s' :
  run_oidc_op (OpCreateSession session token) s = (ok, s') -> token_change (OpCreateSession session token) ok s s'.
Proof.
  cbn [run_oidc_op]. destruct (repo_CreateOIDCSession _ _ s) as [r s1] eqn:Hr. intros [= <- <-].
  apply create_session_cases in Hr as [(e & -> & ->)|(-> & _ & _ & _ & Ht)]; [by apply same_tokens_refl|].
  destruct token as [[[id family] hash]|]; cbn [fmap option_fmap option_map] in Ht.
  - destruct Ht as (Hk & _ & Ht). split; [|done]. intros h t'. rewrite Ht. cbn [first_token RefreshToken_TokenHash] in *.
    destruct (String.eqb_spec hash h) as [<-|Hh].
    + intros _. right. split; [done|]. apply String.eqb_refl.
    + rewrite lookup_insert_ne by done. intros Hold. left. exists t'. split_and!; [done|auto with oidc_tables|done].
  - apply same_tokens; [done|]. rewrite Ht. eauto with oidc_tables.
Qed.

Lemma rotate_tokens tokenHash id hash now s ok s' :
  run_oidc_op (OpRotate tokenHash id hash now) s = (ok, s') -> token_change (OpRotate tokenHash id hash now) ok s s'.
Proof.
  cbn [run_oidc_op]. rewrite rotate_rotation. destruct (rotation _ _ _ s) as [r s1] eqn:Hr.
  apply rotation_cases in Hr as [(e & -> & ->)|(t & Ht & [(-> & _ & [= <-])|(x & -> & Hu & _ & _ & Hk & Hid & ->)])]; intros [= <- <-].
  - by apply same_tokens_refl.
  - apply same_tokens; [done|]. intros h u. cbn. apply update_where_kept; auto with oidc_tables.
  - cbn [rotated_token RefreshToken_TokenHash] in *. split.
    + intros h u. cbn [set_sessions set_tokens od_tokens]. destruct (String.eqb_spec hash h) as [<-|Hh].
      * intros _. right. split; [|unfold issues_token; cbn; by rewrite ?String.eqb_refl]. rewrite update_where_lookup in Hk. by destruct (od_tokens s !! hash).
      * rewrite lookup_insert_ne, lookup_fmap by done. intros Hm. left. unfold rotates_token. cbn.
        destruct (od_tokens s !! h) as [t0|] eqn:H0; [|done]. cbn in Hm. injection Hm as <-. exists t0. split; [done|]. split.
        -- destruct (_ && _); auto with oidc_tables.
        -- intros <-%String.eqb_eq. rewrite Ht in H0. injection H0 as <-. rewrite String.eqb_refl, Hu. cbn. eauto.
    + intros h. unfold rotates_token. cbn. intros <-%String.eqb_eq. unfold fresh_token. rewrite Ht.
      unfold token_usable in Hu. apply andb_true_iff in Hu as [-> _]. done.
Qed.

Lemma oidc_op_tokens o s ok s' : run_oidc_op o s = (ok, s') -> token_change o ok s s'.
Proof.
  destruct o as [item|codeHash now|session token|tokenHash id hash now|sessionID clientID now|tokenHash clientID now].
  3: apply create_session_tokens. 3: apply rotate_tokens.
  all: cbn [run_oidc_op].
  - unfold repo_CreateAuthorizationCode. destruct (code_admissible item s); intros [= <- <-]; apply same_tokens; cbn; eauto with oidc_tables.
  - unfold repo_ConsumeAuthorizationCode. destruct (od_codes s !! _) as [c|]; [destruct (code_live now c)|]; intros [= <- <-];
      apply same_tokens; cbn; eauto with oidc_tables.
  - unfold repo_RevokeOIDCSession. destruct (transaction _ s) as [r s1] eqn:Hr. intros [= <- <-].
    apply transaction_cases in Hr as [(a & -> & Hr)|(e & -> & ->)]; [|by apply same_tokens_refl]. by eapply revoke_session_tokens.
  - unfold repo_RevokeOIDCSessionByRefreshToken. destruct (transaction _ s) as [r s1] eqn:Hr. intros [= <- <-].
    apply transaction_cases in Hr as [(a & -> & Hr)|(e & -> & ->)]; [|by apply same_tokens_refl].
    destruct (_ ≫= _) as [sessionID|]; [|injection Hr as _ <-; by apply same_tokens_refl]. by eapply revoke_session_tokens.
Qed.

Lemma token_step o ok s s' h : token_change o ok s s' ->
  ((if rotates_token h (o, ok) then 1 else 0) + fresh_token h s' <= fresh_token h s + (if issues_token h (o, ok) then 1 else 0))%nat.
Proof.
  intros [Ht Hr].
  assert (fresh_token h s' <= (if rotates_token h (o, ok) then 0 else fresh_token h s) + (if issues_token h (o, ok) then 1 else 0))%nat as Hle.
  { unfold fresh_token at 1. destruct (od_tokens s' !! h) as [t'|] eqn:Hs; [|lia]. destruct (unset _) eqn:Hun; [|lia].
    destruct (Ht h t' Hs) as [(t & Ho & Hk & Hc)|[_ ->]]; [|lia]. apply unset_None in Hun. destruct (rotates_token h (o, ok)).
    - destruct Hc as [? Hc]; [done|]. congruence.
    - unfold fresh_token. rewrite Ho. destruct (RefreshToken_ConsumedAt t) eqn:Hct; cbn; [|lia].
      destruct (keeps_consumed _ _ Hk) as [? ?]; [by rewrite Hct|congruence]. }
  destruct (rotates_token h (o, ok)) eqn:Hrot; [rewrite Hr by done|]; lia.
Qed.

Lemma token_env s s' h : elsewhere s s' -> (fresh_token h s' <= fresh_token h s)%nat.
Proof.
  intros [_ _ Ht]. unfold fresh_token. rewrite Ht. destruct (filter _ _ !! h) as [t|] eqn:Hs; [|lia].
  apply map_lookup_filter_Some in Hs as [-> _]. lia.
Qed.

(** In every interleaving, the successful rotations of a refresh token are
    at most as many as its insertions: a token that was issued once is
    exchanged at most once, also when several requests present it at the same
    time. *)
Theorem refresh_token_used_once s tr s' h :
  oidc_steps s tr s' ->
  (occurrences (rotates_token h) tr + fresh_token h s' <= fresh_token h s + occurrences (issues_token h) tr)%nat.
Proof.
  induction 1 as [s|s o ok s1 tr s2 _ Hrun Hsteps IH|s s1 tr s2 Henv Hsteps IH]; [cbn; lia| |].
  - rewrite !occurrences_cons. apply oidc_op_tokens, (token_step _ _ _ _ h) in Hrun. lia.
  - apply (token_env _ _ h) in Henv. lia.
Qed.

(** ** The tables *)

(** The tokens of a session: they are kept under their hash, share its expiry
    and one family, at most one of them is usable, and none is once the session
    is revoked. *)
Record oidc_wf (s : OidcStore) : Prop := {
  wf_hash : forall h t, od_tokens s !! h = Some t -> RefreshToken_TokenHash t = h;
  wf_id : forall h h' t t', od_tokens s !! h = Some t -> od_tokens s !! h' = Some t' -> RefreshToken_ID t = RefreshToken_ID t' -> h = h';
  wf_owned : forall h t, od_tokens s !! h = Some t -> exists x, od_sessions s !! RefreshToken_SessionID t = Some x /\
    RefreshToken_ExpiresAt t = OIDCSession_ExpiresAt x /\ (is_Some (OIDCSession_RevokedAt x) -> token_usable t = false);
  wf_family : forall h h' t t', od_tokens s !! h = Some t -> od_tokens s !! h' = Some t' ->
    RefreshToken_SessionID t = RefreshToken_SessionID t' -> RefreshToken_FamilyID t = RefreshToken_FamilyID t';
  wf_one : forall h h' t t', od_tokens s !! h = Some t -> od_tokens s !! h' = Some t' ->
    RefreshToken_SessionID t = RefreshToken_SessionID t' -> token_usable t = true -> token_usable t' = true -> h = h'
}.

(** A step that only updates and deletes rows, and leaves no usable token of a
    revoked session. *)
Lemma wf_updated s s' :
  oidc_wf s ->
  (forall h t', od_tokens s' !! h = Some t' -> exists t, od_tokens s !! h = Some t /\ token_kept t t') ->
  (forall h t', od_tokens s' !! h = Some t' -> exists x x', od_sessions s !! RefreshToken_SessionID t' = Some x /\
     od_sessions s' !! RefreshToken_SessionID t' = Some x' /\ session_kept x x' /\ (is_Some (OIDCSession_RevokedAt x') -> token_usable t' = false)) ->
  oidc_wf s'.
Proof.
  intros [Hh Hi Ho Hf H1] Ht Hs. split.
  - intros h t' Hk. destruct (Ht h t' Hk) as (t & Hk0 & Hkept). rewrite (keeps_hash _ _ Hkept). eauto.
  - intros h h' t t' Hk Hk' He. destruct (Ht h t Hk) as (u & Hu & Ku), (Ht h' t' Hk') as (u' & Hu' & Ku').
    eapply Hi; [exact Hu|exact Hu'|]. rewrite <-(keeps_id _ _ Ku), <-(keeps_id _ _ Ku'). done.
  - intros h t' Hk. destruct (Ht h t' Hk) as (t & Hk0 & Hkept). destruct (Hs h t' Hk) as (x & x' & Hx & Hx' & Kx & Hrev).
    exists x'. split_and!; [done| |done]. destruct (Ho h t Hk0) as (y & Hy & He & _). rewrite (keeps_session _ _ Hkept) in Hx.
    rewrite (keeps_expiry _ _ Hkept), (kept_expiry _ _ Kx). congruence.
  - intros h h' t t' Hk Hk' He. destruct (Ht h t Hk) as (u & Hu & Ku), (Ht h' t' Hk') as (u' & Hu' & Ku').
    rewrite (keeps_family _ _ Ku), (keeps_family _ _ Ku'). eapply Hf; [exact Hu|exact Hu'|].
    rewrite <-(keeps_session _ _ Ku), <-(keeps_session _ _ Ku'). done.
  - intros h h' t t' Hk Hk' He U U'. destruct (Ht h t Hk) as (u & Hu & Ku), (Ht h' t' Hk') as (u' & Hu' & Ku').
    eapply H1; [exact Hu|exact Hu'| |by apply (keeps_usable _ _ Ku)|by apply (keeps_usable _ _ Ku')].
    rewrite <-(keeps_session _ _ Ku), <-(keeps_session _ _ Ku'). done.
Qed.

Lemma wf_env s s' : elsewhere s s' -> oidc_wf s -> oidc_wf s'.
Proof.
  intros [_ Hs Ht] Hwf. apply (wf_updated s); [done| |]; rewrite Ht; intros h t [Hk Hex]%map_lookup_filter_Some.
  - eauto with oidc_tables.
  - destruct Hex as [x' Hx']. cbn in Hx'. destruct (Hs _ _ Hx') as (x & Hx & Hor). exists x, x'.
    destruct (wf_owned _ Hwf h t Hk) as (y & Hy & _ & Hrev). assert (y = x) as -> by congruence.
    destruct Hor as [-> | ->]; split_and!; auto with oidc_tables.
Qed.

(** Revoking keeps the well-formedness when the tokens of the session that is
    revoked are revoked with it. *)
Lemma wf_revoked s sessionID (q : OIDCSession -> bool) (p : OIDCRefreshToken -> bool) now :
  (forall h t, od_tokens s !! h = Some t -> RefreshToken_SessionID t = sessionID -> p t = true) -> oidc_wf s ->
  oidc_wf (set_tokens (snd (update_where p (revoke_token now) (od_tokens s)))
    (set_sessions (snd (update_by_id sessionID q (revoke_oidc_session now) (od_sessions s))) s)).
Proof.
  intros Hp Hwf. apply (wf_updated s); [done| |]; cbn [set_tokens set_sessions od_tokens od_sessions]; intros h t' Hk.
  - revert Hk. apply update_where_kept; auto with oidc_tables.
  - rewrite update_where_lookup in Hk. destruct (od_tokens s !! h) as [t|] eqn:Ht; [|done]. cbn in Hk. injection Hk as <-.
    destruct (wf_owned _ Hwf h t Ht) as (x & Hx & _ & Hrev).
    assert (RefreshToken_SessionID (if p t then revoke_token now t else t) = RefreshToken_SessionID t) as -> by (by destruct (p t)).
    rewrite update_by_id_lookup. destruct (String.eqb_spec (RefreshToken_SessionID t) sessionID) as [He|He].
    + rewrite Hx. rewrite (Hp h t Ht He). exists x. eexists. split_and!; [done|cbn; done|destruct (q x); auto with oidc_tables|].
      intros _. unfold token_usable. cbn. destruct (RefreshToken_RevokedAt t); cbn; apply andb_false_r.
    + exists x, x. split_and!; [done|done|auto with oidc_tables|]. intros Hr. destruct (p t); [|auto].
      unfold token_usable. cbn. destruct (RefreshToken_RevokedAt t); cbn; apply andb_false_r.
Qed.

Lemma wf_revoke_session s sessionID clientID now r s' : revokeOIDCSession sessionID clientID now s = (r, s') -> oidc_wf s -> oidc_wf s'.
Proof.
  unfold revokeOIDCSession. destruct (_ || _); intros [= <- <-]; [done|]. apply wf_revoked. intros h t _ <-. apply String.eqb_refl.
Qed.

Lemma wf_revoke_family s h t now s' : od_tokens s !! h = Some t ->
  revokeOIDCRefreshFamily (RefreshToken_SessionID t) (RefreshToken_FamilyID t) now s = (Ok tt, s') -> oidc_wf s -> oidc_wf s'.
Proof.
  intros Ht [= <-] Hwf. apply wf_revoked; [|done]. intros h' t' Ht' He. apply String.eqb_eq. by eapply wf_family.
Qed.

(** A token that is inserted in a table where the rows are well formed, for a
    session that has no usable token. *)
Lemma wf_inserted s s' hash t :
  oidc_wf s -> od_tokens s !! hash = None -> RefreshToken_TokenHash t = hash ->
  (forall k u, od_tokens s !! k = Some u -> RefreshToken_ID u <> RefreshToken_ID t) ->
  od_tokens s' = <[hash := t]> (od_tokens s) ->
  (forall k u, od_tokens s !! k = Some u -> od_sessions s' !! RefreshToken_SessionID u = od_sessions s !! RefreshToken_SessionID u) ->
  (exists x, od_sessions s' !! RefreshToken_SessionID t = Some x /\ RefreshToken_ExpiresAt t = OIDCSession_ExpiresAt x /\ OIDCSession_RevokedAt x = None) ->
  (forall k u, od_tokens s !! k = Some u -> RefreshToken_SessionID u = RefreshToken_SessionID t ->
     RefreshToken_FamilyID u = RefreshToken_FamilyID t /\ token_usable u = false) ->
  oidc_wf s'.
Proof.
  intros [Hh Hi Ho Hf H1] Hfree Hash Hid Htok Hkeep (x & Hx & Hexp & Hrev) Hother. split; rewrite Htok.
  - intros h u [[<- <-]|[Hne Hu]]%lookup_insert_Some; eauto.
  - intros h h' u u' [[<- <-]|[Hne Hu]]%lookup_insert_Some [[<- <-]|[Hne' Hu']]%lookup_insert_Some He; [done| | |eauto].
    + symmetry in He. by apply Hid in Hu'.
    + by apply Hid in Hu.
  - intros h u [[<- <-]|[Hne Hu]]%lookup_insert_Some.
    + exists x. split_and!; [done|done|]. rewrite Hrev. intros [? ?]. done.
    + rewrite (Hkeep h u Hu). eauto.
  - intros h h' u u' [[<- <-]|[Hne Hu]]%lookup_insert_Some [[<- <-]|[Hne' Hu']]%lookup_insert_Some He; [done| | |eauto].
    + symmetry. by apply (Hother h' u' Hu').
    + by apply (Hother h u Hu).
  - intros h h' u u' [[<- <-]|[Hne Hu]]%lookup_insert_Some [[<- <-]|[Hne' Hu']]%lookup_insert_Some He U U'; [done| | |eauto].
    + destruct (Hother h' u' Hu') as [_ ?]; [done|congruence].
    + destruct (Hother h u Hu) as [_ ?]; [done|congruence].
Qed.

Lemma wf_create_session session token s ok s' :
  OIDCSession_RevokedAt session = None -> run_oidc_op (OpCreateSession session token) s = (ok, s') -> oidc_wf s -> oidc_wf s'.
Proof.
  intros Hrev. cbn [run_oidc_op]. destruct (repo_CreateOIDCSession _ _ s) as [r s1] eqn:Hr. intros [= <- <-] Hwf.
  apply create_session_cases in Hr as [(e & -> & ->)|(-> & Ha & _ & Hs & Ht)]; [done|].
  unfold session_admissible in Ha. rewrite !andb_true_iff in Ha. destruct Ha as [[[[Hk%unset_None _] _] _] _].
  assert (forall k u, od_tokens s !! k = Some u -> RefreshToken_SessionID u <> OIDCSession_ID session) as Hnew.
  { intros k u Hu He. destruct (wf_owned _ Hwf k u Hu) as (x & Hx & _). congruence. }
  destruct token as [[[id family] hash]|]; cbn [fmap option_fmap option_map] in Ht.
  - destruct Ht as (Hfree & Hid & Ht). eapply (wf_inserted s s1 hash); [done|done| |exact Hid|exact Ht| | |]; [done| | |].
    + intros k u Hu. rewrite Hs, lookup_insert_ne; [done|]. intros He. by apply (Hnew k u Hu).
    + exists (stored_session session). rewrite Hs. cbn [first_token RefreshToken_SessionID]. by rewrite lookup_insert_eq.
    + intros k u Hu He. by apply Hnew in Hu.
  - apply (wf_updated s); [done| |]; rewrite Ht; intros h t Htk; [eauto with oidc_tables|].
    destruct (wf_owned _ Hwf h t Htk) as (x & Hx & _ & Hv). exists x, x. rewrite Hs, lookup_insert_ne; [|intros He; by apply (Hnew h t)].
    split_and!; auto with oidc_tables.
Qed.

Lemma session_lookup_touched s sessionID now k x' :
  snd (update_by_id sessionID (fun _ => true) (touch_session now) (od_sessions s)) !! k = Some x' ->
  exists x, od_sessions s !! k = Some x /\ session_kept x x' /\ OIDCSession_RevokedAt x' = OIDCSession_RevokedAt x.
Proof.
  rewrite update_by_id_lookup. destruct (String.eqb k sessionID); [|eauto with oidc_tables].
  destruct (od_sessions s !! k) as [x|]; [|done]. cbn. intros [= <-]. exists x. auto with oidc_tables.
Qed.

(** Using a token: its row is consumed and its session touched. *)
Lemma wf_consumed s h t now : oidc_wf s -> od_tokens s !! h = Some t -> token_usable t = true ->
  let s' := set_sessions (snd (update_by_id (RefreshToken_SessionID t) (fun _ => true) (touch_session now) (od_sessions s)))
    (set_tokens (snd (update_where (fun u => String.eqb (RefreshToken_ID u) (RefreshToken_ID t) && token_usable u) (consume_token now) (od_tokens s))) s) in
  oidc_wf s' /\
  (exists x, od_sessions s' !! RefreshToken_SessionID t = Some x /\ RefreshToken_ExpiresAt t = OIDCSession_ExpiresAt x /\ OIDCSession_RevokedAt x = None) /\
  (forall k u, od_tokens s' !! k = Some u -> RefreshToken_SessionID u = RefreshToken_SessionID t ->
     RefreshToken_FamilyID u = RefreshToken_FamilyID t /\ token_usable u = false).
Proof.
  intros Hwf Ht Hu s'. split_and!.
  - apply (wf_updated s); [done| |]; cbn [s' set_tokens set_sessions od_tokens od_sessions]; intros k u Hk.
    + revert Hk. apply update_where_kept; auto with oidc_tables.
    + apply (update_where_kept token_kept) in Hk as (u0 & Hu0 & Kept); [|auto with oidc_tables..].
      destruct (wf_owned _ Hwf k u0 Hu0) as (x & Hx & _ & Hrev). rewrite (keeps_session _ _ Kept), update_by_id_lookup, Hx.
      assert (token_usable u = true -> OIDCSession_RevokedAt x = None) as Hnone.
      { intros U%(keeps_usable _ _ Kept). destruct (OIDCSession_RevokedAt x); [|done]. rewrite Hrev in U; [done|eauto]. }
      exists x. destruct (String.eqb _ _); cbn; eexists; (split_and!; [done|done|auto with oidc_tables|]);
        cbn; intros [? Hr]; destruct (token_usable u); [by rewrite Hnone in Hr|done|by rewrite Hnone in Hr|done].
  - destruct (wf_owned _ Hwf h t Ht) as (x & Hx & He & Hrev). exists (touch_session now x).
    cbn [s' set_tokens set_sessions od_tokens od_sessions]. rewrite update_by_id_lookup, String.eqb_refl, Hx. cbn. split_and!; [done|done|].
    destruct (OIDCSession_RevokedAt x); [|done]. rewrite Hrev in Hu; [done|eauto].
  - intros k u. cbn [s' set_tokens set_sessions od_tokens]. rewrite update_where_lookup.
    destruct (od_tokens s !! k) as [u0|] eqn:Hu0; [|done]. cbn. intros [= <-] He.
    assert (RefreshToken_SessionID u0 = RefreshToken_SessionID t) as He0 by (revert He; by destruct (_ && _)).
    pose proof (wf_family _ Hwf k h u0 t Hu0 Ht He0) as Hfam. destruct (String.eqb_spec (RefreshToken_ID u0) (RefreshToken_ID t)) as [Hid|Hid]; cbn.
    + assert (k = h) as -> by (by eapply wf_id). assert (u0 = t) as -> by congruence. rewrite Hu. done.
    + split; [done|]. apply not_true_iff_false. intros U. assert (k = h) as -> by (by eapply wf_one). congruence.
Qed.

Lemma wf_rotate tokenHash id hash now s ok s' : run_oidc_op (OpRotate tokenHash id hash now) s = (ok, s') -> oidc_wf s -> oidc_wf s'.
Proof.
  cbn [run_oidc_op]. rewrite rotate_rotation. destruct (rotation _ _ _ s) as [r s1] eqn:Hr.
  apply rotation_cases in Hr as [(e & -> & ->)|(t & Ht & [(-> & _ & Hfam)|(x & -> & Hu & _ & _ & Hk & Hid & ->)])]; intros [= <- <-] Hwf.
  - done.
  - by eapply wf_revoke_family.
  - destruct (wf_consumed s _ t now Hwf Ht Hu) as (Hwf' & Hx & Hother).
    eapply (wf_inserted _ _ hash (next_token t (rotated_token id hash now))); [exact Hwf'|exact Hk|done|exact Hid|done|done|exact Hx|exact Hother].
Qed.

Lemma wf_op o s ok s' : issued o -> run_oidc_op o s = (ok, s') -> oidc_wf s -> oidc_wf s'.
Proof.
  destruct o as [item|codeHash now|session token|tokenHash id hash now|sessionID clientID now|tokenHash clientID now].
  3: apply wf_create_session. 3: intros _; apply wf_rotate.
  all: cbn [run_oidc_op]; intros _.
  - unfold repo_CreateAuthorizationCode. destruct (code_admissible item s); intros [= <- <-] []; by split.
  - unfold repo_ConsumeAuthorizationCode. destruct (od_codes s !! _) as [c|]; [destruct (code_live now c)|]; intros [= <- <-] []; by split.
  - unfold repo_RevokeOIDCSession. destruct (transaction _ s) as [r s1] eqn:Hr. intros [= <- <-].
    apply transaction_cases in Hr as [(a & -> & Hr)|(e & -> & ->)]; [|done]. by eapply wf_revoke_session.
  - unfold repo_RevokeOIDCSessionByRefreshToken. destruct (transaction _ s) as [r s1] eqn:Hr. intros [= <- <-].
    apply transaction_cases in Hr as [(a & -> & Hr)|(e & -> & ->)]; [|done].
    destruct (_ ≫= _) as [sessionID|]; [by eapply wf_revoke_session|by injection Hr as _ <-].
Qed.

Lemma oidc_steps_wf s tr s' : oidc_steps s tr s' -> oidc_wf s -> oidc_wf s'.
Proof.
  induction 1 as [s|s o ok s1 tr s2 Hi Hrun Hsteps IH|s s1 tr s2 Henv Hsteps IH]; [done| |]; intros Hwf; apply IH.
  - by eapply wf_op.
  - by eapply wf_env.
Qed.

(** C12. The tables of the provider stay well formed in every interleaving: a
    refresh token belongs to a session that exists, expires with it, and shares
    one family with the other tokens of the session; at most one token of a
    session is usable, and none once the session is revoked.  Refreshing
    therefore never prolongs a session. *)
Theorem oidc_tables_typed s tr s' : oidc_steps s tr s' -> oidc_wf s -> oidc_wf s'.
Proof. apply oidc_steps_wf. Qed.

(** ** Sessions *)

(** A session that is there after some steps without being created by them was
    there before, with the same data. *)
Lemma session_steps_kept s tr s' id x' : oidc_steps s tr s' -> occurrences (creates_session id) tr = 0%nat ->
  od_sessions s' !! id = Some x' -> exists x, od_sessions s !! id = Some x /\ session_kept x x'.
Proof.
  induction 1 as [s|s o ok s1 tr s2 _ Hrun Hsteps IH|s s1 tr s2 Henv Hsteps IH]; intros Hno Hx'; [eauto with oidc_tables| |].
  - rewrite occurrences_cons in Hno. destruct (creates_session id (o, ok)) eqn:Hc; [lia|].
    destruct IH as (x1 & Hx1 & K1); [lia|done|]. apply oidc_op_change in Hrun as [_ _ Hs _].
    destruct (Hs id x1 Hx1) as [(x & Hx & K)|(_ & session & token & -> & -> & He & _)]; [exists x; split; [done|by etrans]|].
    unfold creates_session in Hc. cbn in Hc. by rewrite He, String.eqb_refl in Hc.
  - destruct IH as (x1 & Hx1 & K1); [done|done|]. destruct (else_sessions _ _ Henv id x1 Hx1) as (x & Hx & Hor). exists x. split; [done|].
    etrans; [|exact K1]. destruct Hor as [-> | ->]; auto with oidc_tables.
Qed.

Lemma session_live_not_revoked now s x : session_live now s x = true -> OIDCSession_RevokedAt x = None.
Proof. unfold session_live. rewrite !andb_true_iff. by intros [[?%unset_None _] _]. Qed.

Lemma getActive_Ok sessionID now s x : getActiveOIDCSession sessionID now s = Ok x ->
  od_sessions s !! TrimSpace sessionID = Some x /\ session_live now s x = true.
Proof.
  unfold getActiveOIDCSession. destruct (od_sessions s !! _) as [y|]; [|done]. destruct (session_live now s y) eqn:Hl; [|done]. by intros [= ->].
Qed.

(** A session that nothing can use: no access, and no rotation of its tokens. *)
Definition session_over (id : string) (s : OidcStore) : Prop :=
  (forall now, exists e, repo_GetOIDCSession id now s = Err e) /\
  (forall tokenHash t next now, od_tokens s !! TrimSpace tokenHash = Some t -> RefreshToken_SessionID t = id ->
     exists e, fst (repo_RotateOIDCRefreshToken tokenHash next now s) = Err e).

Lemma inactive_over id s : TrimSpace id = id -> (forall now x, getActiveOIDCSession id now s <> Ok x) -> session_over id s.
Proof.
  intros Htrim Hno. split.
  - intros now. unfold repo_GetOIDCSession. destruct (getActiveOIDCSession id now s) as [x|e] eqn:Hg; [by apply Hno in Hg|eauto].
  - intros tokenHash t next now Ht He. rewrite rotate_rotation. destruct (rotation _ _ _ s) as [r s1] eqn:Hr.
    apply rotation_cases in Hr as [(e & -> & _)|(t' & Ht' & [(-> & _)|(x & -> & _ & _ & Hx & _)])]; [cbn; eauto|cbn; eauto|].
    assert (t' = t) as -> by congruence. rewrite He in Hx. by apply Hno in Hx.
Qed.

Lemma revoked_over s tr s' id x : TrimSpace id = id -> oidc_steps s tr s' -> occurrences (creates_session id) tr = 0%nat ->
  od_sessions s !! id = Some x -> is_Some (OIDCSession_RevokedAt x) -> session_over id s'.
Proof.
  intros Htrim Hsteps Hno Hx [t Hrev]. apply inactive_over; [done|]. intros now y [Hy Hl]%getActive_Ok. rewrite Htrim in Hy.
  destruct (session_steps_kept _ _ _ _ _ Hsteps Hno Hy) as (x0 & Hx0 & K). assert (x0 = x) as -> by congruence.
  apply session_live_not_revoked in Hl. rewrite (kept_revoked _ _ K t Hrev) in Hl. done.
Qed.

(** A revocation is final: after a session was revoked for its client,
    nothing that the provider or the rest of the program does, short of
    creating a session with the same identifier, makes the session or any of
    its refresh tokens usable again. *)
Theorem revocation_is_final s sessionID clientID now s0 tr s' x :
  TrimSpace sessionID = sessionID -> sessionID <> "" -> TrimSpace clientID <> "" ->
  od_sessions s !! sessionID = Some x -> OIDCSession_ClientID x = TrimSpace clientID ->
  repo_RevokeOIDCSession sessionID clientID now s = (Ok tt, s0) ->
  oidc_steps s0 tr s' -> occurrences (creates_session sessionID) tr = 0%nat -> session_over sessionID s'.
Proof.
  intros Htrim Hne Hcl Hx Hclient Hrev Hsteps Hno.
  apply (revoked_over s0 tr s' sessionID (revoke_oidc_session now x)); [done|done|done| |].
  - revert Hrev. unfold repo_RevokeOIDCSession, transaction, revokeOIDCSession. rewrite Htrim. unfold str_empty.
    rewrite (proj2 (String.eqb_neq _ _) Hne), (proj2 (String.eqb_neq _ _) Hcl). cbn [orb]. intros [= <-].
    cbn [set_tokens set_sessions od_sessions]. rewrite update_by_id_lookup, String.eqb_refl, Hx. cbn. by rewrite Hclient, String.eqb_refl.
  - cbn. destruct (OIDCSession_RevokedAt x); cbn; eauto.
Qed.

(** C8. A refresh token that is presented again after it was used is refused as
    reuse, and ends its session for good: the session and the whole family of
    tokens are revoked by the same transaction, and nothing makes them usable
    again. *)
Theorem refresh_reuse_ends_session s tokenHash t next now r s0 tr s' :
  oidc_wf s -> TrimSpace (RefreshToken_SessionID t) = RefreshToken_SessionID t ->
  od_tokens s !! TrimSpace tokenHash = Some t -> is_Some (RefreshToken_ConsumedAt t) ->
  repo_RotateOIDCRefreshToken tokenHash next now s = (r, s0) ->
  oidc_steps s0 tr s' -> occurrences (creates_session (RefreshToken_SessionID t)) tr = 0%nat ->
  r = Err (errorf ErrUnauthorized "refresh token reuse detected") /\
  (forall h u, od_tokens s0 !! h = Some u -> RefreshToken_FamilyID u = RefreshToken_FamilyID t -> is_Some (RefreshToken_RevokedAt u)) /\
  session_over (RefreshToken_SessionID t) s'.
Proof.
  intros Hwf Htrim Ht Hc Hrot Hsteps Hno. destruct (wf_owned _ Hwf _ t Ht) as (x & Hx & _).
  assert (rotation tokenHash next now s = (Ok None, snd (revokeOIDCRefreshFamily (RefreshToken_SessionID t) (RefreshToken_FamilyID t) now s))) as Hr.
  { unfold rotation, transaction, gbind, getOIDCRefreshTokenForUpdate. rewrite Ht.
    destruct (RefreshToken_ConsumedAt t); [done|by destruct Hc]. }
  rewrite rotate_rotation, Hr in Hrot. injection Hrot as <- <-. split_and!; [done| |].
  - intros h u. cbn [revokeOIDCRefreshFamily snd set_tokens set_sessions od_tokens]. rewrite lookup_fmap.
    destruct (od_tokens s !! h) as [u0|]; [|done]. cbn. intros [= <-].
    destruct (String.eqb_spec (RefreshToken_FamilyID u0) (RefreshToken_FamilyID t)) as [He|He]; cbn; [|done].
    destruct (RefreshToken_RevokedAt u0); cbn; eauto.
  - eapply (revoked_over _ tr s' _ (revoke_oidc_session now x)); [done|exact Hsteps|done| |].
    + cbn [revokeOIDCRefreshFamily snd set_tokens set_sessions od_sessions]. by rewrite update_by_id_lookup, String.eqb_refl, Hx.
    + cbn. destruct (OIDCSession_RevokedAt x); cbn; eauto.
Qed.

(** Deleting a client is one of the steps of the environment. *)
Lemma delete_client_elsewhere id s r s' : repo_DeleteOIDCClient id s = (r, s') -> s' = s \/ elsewhere s s'.
Proof.
  unfold repo_DeleteOIDCClient. destruct (od_clients s !! TrimSpace id) as [c|]; intros [= <- <-]; [|by left]. right. split; cbn.
  - apply map_filter_subseteq.
  - intros k x' [Hx _]%map_lookup_filter_Some. eauto.
  - done.
Qed.

(** ** Samples *)

(** The transactions of a list, in order, with their outcomes. *)
Fixpoint play (ops : list oidc_op) (s : OidcStore) : list (oidc_op * bool) * OidcStore :=
  match ops with
  | [] => ([], s)
  | o :: ops => let '(ok, s1) := run_oidc_op o s in let '(tr, s2) := play ops s1 in ((o, ok) :: tr, s2)
  end.

Lemma play_steps ops s : Forall issued ops -> oidc_steps s (fst (play ops s)) (snd (play ops s)).
Proof.
  intros Hi. revert s. induction Hi as [|o ops Ho _ IH]; intros s; [constructor|]. cbn [play].
  destruct (run_oidc_op o s) as [ok s1] eqn:Hr. specialize (IH s1). destruct (play ops s1) as [tr s2]. by eapply oidc_cons.
Qed.

Definition sample_provider : Provider := {|
  Provider_ID := "provider-1"; Provider_Name := "Portal"; Provider_ApplicationID := "app-1"; Provider_Type := ProviderTypeOIDC; Provider_Enabled := true;
  Provider_Status := "enabled"; Provider_Config := ∅ |}.

Definition sample_client : OIDCClient := {|
  OIDCClient_GrantTypes := []; OIDCClient_ID := "row-1"; OIDCClient_ProviderID := "provider-1"; OIDCClient_ClientID := "portal";
  OIDCClient_ClientType := OIDCClientTypePublic; OIDCClient_ClientSecretHash := ""; OIDCClient_ClientSecretCiphertext := "";
  OIDCClient_ClientSecretHashAtEncryption := ""; OIDCClient_ClientSecretAvailable := false; OIDCClient_RedirectURIs := ["https://app.test/cb"];
  OIDCClient_RedirectURIRegexes := []; OIDCClient_PostLogoutRedirectURIs := []; OIDCClient_AllowedScopes := ["openid"; "email"; "offline_access"];
  OIDCClient_AllowedGrantTypes := ["authorization_code"; "refresh_token"]; OIDCClient_RequirePKCE := true;
  OIDCClient_AccessTokenTTLSeconds := 600; OIDCClient_IDTokenTTLSeconds := 300; OIDCClient_RefreshTokenTTLSeconds := 3600;
  OIDCClient_Status := "enabled"; OIDCClient_CreatedAt := 1; OIDCClient_UpdatedAt := 1 |}.

Definition sample_application : Application := {|
  Application_ID := "app-1"; Application_LaunchURL := "https://app.test"; Application_Status := ApplicationStatusEnabled;
  Application_Metadata := ∅; Application_Assignments := [] |}.

Definition sample_store : OidcStore := {|
  od_providers := {[ "provider-1" := sample_provider ]}; od_applications := {[ "app-1" := sample_application ]}; od_users := {[ "u1" ]};
  od_platform := ∅; od_clients := {[ "row-1" := sample_client ]}; od_keys := ∅; od_codes := ∅; od_sessions := ∅; od_tokens := ∅ |}.

Definition sample_code : AuthorizationCode := {|
  AuthorizationCode_ID := "code-1"; AuthorizationCode_ProviderID := "provider-1"; AuthorizationCode_ClientID := "portal"; AuthorizationCode_UserID := "u1";
  AuthorizationCode_CodeHash := "hash"; AuthorizationCode_RedirectURI := "https://app.test/cb"; AuthorizationCode_Scopes := ["openid"];
  AuthorizationCode_Nonce := ""; AuthorizationCode_CodeChallenge := ""; AuthorizationCode_CodeChallengeMethod := "S256";
  AuthorizationCode_ExpiresAt := 100; AuthorizationCode_ConsumedAt := None; AuthorizationCode_CreatedAt := 1; AuthorizationCode_Metadata := ∅ |}.

Definition sample_session : OIDCSession := {|
  OIDCSession_ID := "session-1"; OIDCSession_ProviderID := "provider-1"; OIDCSession_ClientID := "portal"; OIDCSession_UserID := "u1";
  OIDCSession_PlatformSessionID := ""; OIDCSession_Scopes := ["openid"; "offline_access"]; OIDCSession_AuthTime := 5; OIDCSession_ExpiresAt := 1000;
  OIDCSession_LastSeenAt := 5; OIDCSession_RevokedAt := None; OIDCSession_CreatedAt := 5 |}.

Definition sample_exchanges : list oidc_op := [OpCreateCode sample_code; OpConsumeCode "hash" 10; OpConsumeCode "hash" 11].
Definition sample_rotations : list oidc_op :=
  [OpCreateSession sample_session (Some ("t1", "family", "h1")); OpRotate "h1" "t2" "h2" 20; OpRotate "h1" "t3" "h3" 21].
Definition rotated_store : OidcStore := snd (play (take 2 sample_rotations) sample_store).

Lemma sample_store_wf : oidc_wf sample_store.
Proof. by split. Qed.

Lemma rotated_store_wf : oidc_wf rotated_store.
Proof. eapply oidc_steps_wf; [apply play_steps; by repeat constructor|exact sample_store_wf]. Qed.

(** Both requests present the code, and one of them gets it. *)
Lemma code_exchanged_once_witness :
  let '(tr, s') := play sample_exchanges sample_store in
  map snd tr = [true; true; false] /\
  (occurrences (consumes_code "hash") tr + fresh_code "hash" s' <= fresh_code "hash" sample_store + occurrences (creates_code "hash") tr)%nat.
Proof.
  pose proof (code_exchanged_once _ _ _ "hash" (play_steps sample_exchanges sample_store ltac:(by repeat constructor))) as Hc.
  destruct (play sample_exchanges sample_store) as [tr s'] eqn:Hp. split; [|exact Hc].
  assert (tr = fst (play sample_exchanges sample_store)) as -> by (by rewrite Hp). vm_compute. reflexivity.
Defined.

(** The second use of the token is refused. *)
Lemma refresh_token_used_once_witness :
  let '(tr, s') := play sample_rotations sample_store in
  map snd tr = [true; true; false] /\
  (occurrences (rotates_token "h1") tr + fresh_token "h1" s' <= fresh_token "h1" sample_store + occurrences (issues_token "h1") tr)%nat.
Proof.
  pose proof (refresh_token_used_once _ _ _ "h1" (play_steps sample_rotations sample_store ltac:(by repeat constructor))) as Hc.
  destruct (play sample_rotations sample_store) as [tr s'] eqn:Hp. split; [|exact Hc].
  assert (tr = fst (play sample_rotations sample_store)) as -> by (by rewrite Hp). vm_compute. reflexivity.
Defined.

Lemma oidc_tables_typed_witness : oidc_wf (snd (play sample_rotations sample_store)).
Proof. apply (oidc_tables_typed _ _ _ (play_steps sample_rotations sample_store ltac:(by repeat constructor))). exact sample_store_wf. Defined.

(** The session of the sample, revoked by its client and presented again. *)
Lemma revocation_is_final_witness :
  session_over "session-1" (snd (play [OpRotate "h2" "t4" "h4" 31] (snd (repo_RevokeOIDCSession "session-1" "portal" 30 rotated_store)))).
Proof.
  assert (exists x, od_sessions rotated_store !! "session-1" = Some x /\ OIDCSession_ClientID x = TrimSpace "portal") as (x & Hx & Hc).
  { vm_compute. eauto. }
  eapply (revocation_is_final rotated_store "session-1" "portal" 30 _ _ _ x); [done|done|done|exact Hx|exact Hc|reflexivity| |].
  - apply (play_steps [OpRotate "h2" "t4" "h4" 31]). by repeat constructor.
  - vm_compute. reflexivity.
Defined.

(** The first token of the sample, presented again. *)
Lemma refresh_reuse_ends_session_witness :
  session_over "session-1" (snd (repo_RotateOIDCRefreshToken "h1" (rotated_token "t5" "h5" 40) 40 rotated_store)).
Proof.
  assert (exists t, od_tokens rotated_store !! TrimSpace "h1" = Some t /\ is_Some (RefreshToken_ConsumedAt t) /\ RefreshToken_SessionID t = "session-1")
    as (t & Ht & Hc & Hs). { vm_compute. eexists. split_and!; [reflexivity|eauto|reflexivity]. }
  rewrite <-Hs. eapply (refresh_reuse_ends_session rotated_store "h1" t (rotated_token "t5" "h5" 40) 40 _ _ []);
    [exact rotated_store_wf|by rewrite Hs|exact Ht|exact Hc|apply surjective_pairing|constructor|reflexivity].
Defined.
