(* ===== verification/OidcProvider.v ===== *)
(** * OpenID Connect provider: the service

    [application/identityprovider/service.go] and [oidc_client_secret.go]: the
    authorization and token endpoints, introspection, revocation, logout, user
    information, signing keys, and the administration of clients, over the
    tables of [OidcStore].  bcrypt, the JSON Web Tokens of golang-jwt with
    their ECDSA keys, regular expressions and the parsing of URLs are
    interfaces; the random values and the readings of the clock of one call are
    arguments.  The service has its user repository. *)

From Stdlib Require Import Ascii.
From S2P Require Import Prelude GoStrings Stateful AccessModel PermissionTables PermissionResolver WorkflowModel GoLib GoCrypto GoSha256 SecretCrypto Sql PortalPolicy OidcStore.

Open Scope Z_scope.

(** ** Inputs and results *)

Record AuthorizeInput := {
  AuthorizeInput_ResponseType : string;
  AuthorizeInput_ClientID : string;
  AuthorizeInput_RedirectURI : string;
  AuthorizeInput_Scope : string;
  AuthorizeInput_State : string;
  AuthorizeInput_Prompt : string;
  AuthorizeInput_MaxAge : string;
  AuthorizeInput_ResponseMode : string;
  AuthorizeInput_Nonce : string;
  AuthorizeInput_CodeChallenge : string;
  AuthorizeInput_CodeChallengeMethod : string;
  AuthorizeInput_PlatformSessionID : string
}.

Record AuthorizeResult := {
  AuthorizeResult_RedirectURI : string;
  AuthorizeResult_Code : string;
  AuthorizeResult_State : string;
  AuthorizeResult_ResponseMode : string
}.

Record AuthorizeRedirectError := {
  RedirectError_RedirectURI : string;
  RedirectError_State : string;
  RedirectError_Code : string;
  RedirectError_Err : error
}.

(** What [Authorize] gives when it knows where to send the browser. *)
Inductive AuthorizeOutcome :=
| AuthorizeGranted (r : AuthorizeResult)
| AuthorizeRefused (e : AuthorizeRedirectError).

Record TokenInput := {
  TokenInput_GrantType : string;
  TokenInput_Code : string;
  TokenInput_RedirectURI : string;
  TokenInput_ClientID : string;
  TokenInput_ClientSecret : string;
  TokenInput_CodeVerifier : string;
  TokenInput_RefreshToken : string
}.

Record TokenResponse := {
  TokenResponse_AccessToken : string;
  TokenResponse_IDToken : string;
  TokenResponse_RefreshToken : string;
  TokenResponse_TokenType : string;
  TokenResponse_ExpiresIn : Z;
  TokenResponse_Scope : string
}.

Record ClientAuthInput := { ClientAuthInput_ClientID : string; ClientAuthInput_ClientSecret : string }.

Record IntrospectionResponse := {
  Introspection_Active : bool;
  Introspection_Subject : string;
  Introspection_ClientID : string;
  Introspection_Scope : string;
  Introspection_TokenType : string;
  Introspection_Issuer : string;
  Introspection_Audience : list string;
  Introspection_ExpiresAt : Z;
  Introspection_IssuedAt : Z;
  Introspection_NotBefore : Z;
  Introspection_JWTID : string;
  Introspection_Username : string
}.

Definition inactive : IntrospectionResponse := {|
  Introspection_Active := false; Introspection_Subject := ""; Introspection_ClientID := ""; Introspection_Scope := "";
  Introspection_TokenType := ""; Introspection_Issuer := ""; Introspection_Audience := []; Introspection_ExpiresAt := 0;
  Introspection_IssuedAt := 0; Introspection_NotBefore := 0; Introspection_JWTID := ""; Introspection_Username := "" |}.

Record EndSessionInput := {
  EndSessionInput_IDTokenHint : string;
  EndSessionInput_PostLogoutRedirectURI : string;
  EndSessionInput_State : string
}.

Record UserInfoResponse := {
  UserInfo_Subject : string;
  UserInfo_Name : string;
  UserInfo_Email : string;
  UserInfo_Roles : list string;
  UserInfo_Teams : list string;
  UserInfo_Projects : list string;
  UserInfo_Tags : list string
}.

(** The claims of a token; the times are in seconds. *)
Record oidcTokenClaims := {
  Claims_TokenType : string;
  Claims_ClientID : string;
  Claims_SessionID : string;
  Claims_AuthTime : Z;
  Claims_Scope : string;
  Claims_Nonce : string;
  Claims_UserName : string;
  Claims_Email : string;
  Claims_Roles : list string;
  Claims_Teams : list string;
  Claims_Projects : list string;
  Claims_Tags : list string;
  Claims_Issuer : string;
  Claims_Subject : string;
  Claims_Audience : list string;
  Claims_ID : string;
  Claims_IssuedAt : option Z;
  Claims_NotBefore : option Z;
  Claims_ExpiresAt : option Z
}.

Definition TokenTypeAccess : string := "access".
Definition TokenTypeID : string := "id".

(** ** Interfaces *)

(** What the checks read of a parsed URL: fields, and the results of the
    methods [Hostname], [RequestURI] and [String]. *)
Record URL := {
  URL_Scheme : string;
  URL_User : bool;
  URL_Host : string;
  URL_Hostname : string;
  URL_Path : string;
  URL_RawQuery : string;
  URL_Fragment : string;
  URL_RequestURI : string;
  URL_String : string
}.

(** [net/url], [regexp] and bcrypt: a host ends before the first slash, and a
    password matches the hash made of it. *)
Class OidcDeps := {
  url_Parse : string -> option URL;
  url_host : forall value u, url_Parse value = Some u -> "/"%char ∉ chars (URL_Host u);
  regexp_Compile : string -> bool;
  regexp_MatchString : string -> string -> option bool;
  bcrypt_Generate : string -> result string;
  bcrypt_Compare : string -> string -> bool;
  bcrypt_agree : forall password hash, bcrypt_Generate password = Ok hash -> bcrypt_Compare hash password = true
}.

(** ES256 tokens and keys: a key is a pair of coordinates below 2^256 for the
    public part; a marshalled key is read back; a signed token is a text of
    printable characters, and is accepted under the public key, for its issuer,
    within its time. *)
Class Es256 := {
  PrivateKey : Type;
  public_point : PrivateKey -> Z * Z;
  marshal_key : PrivateKey -> result string;
  parse_key : string -> result PrivateKey;
  SignedString : PrivateKey -> string -> oidcTokenClaims -> result string;
  ParseWithClaims : (string -> string -> option (Z * Z)) -> string -> Z -> string -> option oidcTokenClaims;
  public_range : forall key, 0 <= fst (public_point key) < 2 ^ 256 /\ 0 <= snd (public_point key) < 2 ^ 256;
  parse_marshal : forall key text, marshal_key key = Ok text -> parse_key text = Ok key;
  signed_text : forall key kid claims token, SignedString key kid claims = Ok token -> token <> "" /\ all_solid token;
  signed_accepted : forall key kid claims token keyfunc issuer now nbf exp,
    SignedString key kid claims = Ok token -> keyfunc "ES256" kid = Some (public_point key) -> Claims_Issuer claims = issuer ->
    Claims_NotBefore claims = Some nbf -> Claims_ExpiresAt claims = Some exp -> nbf * 1000000000 <= now < exp * 1000000000 ->
    ParseWithClaims keyfunc issuer now token = Some claims
}.

Record OidcUser := {
  OidcUser_ID : string;
  OidcUser_Username : string;
  OidcUser_Email : string;
  OidcUser_DisplayName : string;
  OidcUser_Status : string;
  OidcUser_Tags : list string
}.

(** The users: a row, the state used for authorization, roles, teams and projects. *)
Class UserRepository := {
  users_GetByID : string -> result OidcUser;
  users_GetAuthzState : string -> result string;
  users_ListRoles : string -> result (list string);
  users_ListTeams : string -> result (list string);
  users_ListProjects : string -> result (list string)
}.

(** What one call draws at random, and the readings of the clock. *)
Record OidcEntropy `{Es256} := {
  oe_uuid : nat -> string;
  oe_bytes : nat -> nat -> result bytes;
  oe_nonce : result bytes;
  oe_key : result PrivateKey
}.

Record OidcAudit := {
  OidcAudit_ActorID : string;
  OidcAudit_Action : string;
  OidcAudit_Result : string;
  OidcAudit_ResourceName : string;
  OidcAudit_Metadata : go_map
}.

Record OidcWorld := { ow_store : OidcStore; ow_cache : RoleMatrixCache; ow_audit : list OidcAudit }.

Abbreviation oidc := (stateful OidcWorld).

Definition in_oidc {A} (m : oidc_store A) : oidc A :=
  fun w => let '(r, s) := m (ow_store w) in (r, {| ow_store := s; ow_cache := ow_cache w; ow_audit := ow_audit w |}).
Definition oquery {A} (q : OidcStore -> result A) : oidc A := fun w => (q (ow_store w), w).
(** [_ = call]: the error is dropped. *)
Definition oignore (m : oidc unit) : oidc unit := fun w => let '(_, w) := m w in (Ok tt, w).
(** [if err := ...; err != nil] for a function that only reads. *)
Definition ocheck (q : option error) : oidc unit := match q with Some e => gfail e | None => gret tt end.

(** ** Texts *)

Definition containsString (values : list string) (value : string) : bool := existsb (String.eqb (TrimSpace value)) values.

Fixpoint compact_from (seen : gset string) (values : list string) : list string :=
  match values with
  | [] => []
  | value :: rest =>
      let value := TrimSpace value in
      if str_empty value || bool_decide (value ∈ seen) then compact_from seen rest
      else value :: compact_from ({[value]} ∪ seen) rest
  end.
Definition compactStrings (values : list string) : list string := compact_from ∅ values.

Definition ttlSeconds (value fallback : Z) : Z := if 0 <? value then value else fallback.

Definition defaultOIDCAccessTokenTTLSeconds : Z := 3600.
Definition defaultOIDCIDTokenTTLSeconds : Z := 300.
Definition defaultOIDCRefreshTokenTTLSeconds : Z := 30 * 24 * 60 * 60.
Definition authorizationCodeTTL : Z := 5 * 60 * 1000000000.
Definition maxOIDCRedirectURIRegexes : nat := 100.
Definition maxOIDCRedirectURIRegexLength : nat := 2048.

(** [now.Add(time.Duration(ttl) * time.Second)]. *)
Definition add_seconds (now ttl : Z) : Z := now + wrap64 (ttl * 1000000000).
(** [Unix], and [jwt.NewNumericDate]. *)
Definition unix (t : Z) : Z := t / 1000000000.

Definition hashToken (value : string) : string := base64_url_encode (sha256 (bytes_of (TrimSpace value))).

Definition randomToken (draw : result bytes) : result string :=
  let* raw := map_err (wrapf "generate random token") draw in Ok (base64_url_encode raw).

Definition normalizeIssuer (value : string) : string :=
  let value := TrimSpace value in
  if str_empty value then "http://localhost:8080" else TrimRight_char value "/"%char.

Definition normalizeCodeChallengeMethod (value : string) : string :=
  let value := TrimSpace value in if str_empty value then "S256" else ToUpper value.

Definition normalizeOIDCTokenValue (value : string) : string :=
  let value := TrimSpace value in
  if (7 <=? String.length value)%nat && EqualFold (String.substring 0 7 value) "Bearer "
  then TrimSpace (String.substring 7 (String.length value - 7) value) else value.

Definition normalizeAllowedScopes (values : list string) : list string :=
  let out := compactStrings values in
  let out := if is_empty out then ["openid"; "profile"; "email"] else out in
  let out := if negb (containsString out "openid") then out ++ ["openid"] else out in
  sort_strings out.

Definition normalizeRequestedScopes (scope : string) (allowed : list string) : result (list string) :=
  let requested := compactStrings (Fields scope) in
  let requested := if is_empty requested then ["openid"] else requested in
  if negb (containsString requested "openid") then Err (errorf ErrInvalidArgument "openid scope is required")
  else
    let allowed := normalizeAllowedScopes allowed in
    if existsb (fun item => negb (containsString allowed item)) requested then Err (errorf ErrInvalidArgument "scope is not allowed")
    else Ok (sort_strings requested).

Definition normalizeGrantTypes (values : list string) : list string :=
  let out := compactStrings values in
  sort_strings (if is_empty out then ["authorization_code"] else out).

Definition normalizeOIDCClientGrantTypes (values : list string) : result (list string) :=
  let grantTypes := normalizeGrantTypes values in
  if existsb (fun g => negb (String.eqb g "authorization_code") && negb (String.eqb g "refresh_token")) grantTypes
  then Err (errorf ErrInvalidArgument "unsupported grant type")
  else if negb (containsString grantTypes "authorization_code") then Err (errorf ErrInvalidArgument "authorization_code grant is required")
  else Ok grantTypes.

Definition metadataStringFromMap (metadata : go_map) (key : string) : string :=
  match metadata !! key with Some (AString text) => if blank text then "" else TrimSpace text | _ => "" end.

(** Whether a platform session says that a second factor was used. *)
Definition metadataMFA (metadata : go_map) : bool :=
  match metadata !! "mfa" with Some (ABool true) => true | _ => false end ||
  match metadata !! "mfaAuthenticated" with Some (ABool true) => true | _ => false end ||
  match metadata !! "amr" with
  | Some (AStrings values) => existsb (fun v => EqualFold v "mfa") values
  | Some (AList values) => existsb (fun v => match v with AString text => EqualFold text "mfa" | _ => false end) values
  | _ => false
  end.

Definition clientEnabled (client : OIDCClient) : bool :=
  str_empty (OIDCClient_Status client) || String.eqb (OIDCClient_Status client) OIDCClientStatusEnabled.
Definition providerEnabled (provider : Provider) : bool :=
  Provider_Enabled provider && (str_empty (Provider_Status provider) || String.eqb (Provider_Status provider) ProviderStatusEnabled).

Definition actorID (principal : Principal) : string :=
  if blank (Principal_UserID principal) then "system" else Principal_UserID principal.

(** ** Checks *)

Section checks.
Context `{OidcDeps}.

Definition validRedirectURI (value : string) : bool :=
  match url_Parse value with
  | Some u => negb (str_empty (URL_Host u)) && str_empty (URL_Fragment u) &&
      (String.eqb (URL_Scheme u) "http" || String.eqb (URL_Scheme u) "https")
  | None => false
  end.

Definition fullRedirectURIRegex (pattern : string) : string := "\A(" +:+ pattern +:+ ")\z".

Definition redirectURIAllowed (client : OIDCClient) (candidate : string) : bool :=
  if negb (validRedirectURI candidate) then false
  else if containsString (OIDCClient_RedirectURIs client) candidate then true
  else existsb (fun pattern => match regexp_MatchString (fullRedirectURIRegex pattern) candidate with Some matched => matched | None => false end)
    (OIDCClient_RedirectURIRegexes client).

Definition normalizeRedirectURIs (values : list string) : result (list string) :=
  let out := compactStrings values in
  if existsb (fun value => negb (validRedirectURI value)) out
  then Err (errorf ErrInvalidArgument "redirect_uri must be an absolute http or https URI without fragment") else Ok out.

Fixpoint check_patterns (patterns : list string) : option error :=
  match patterns with
  | [] => None
  | pattern :: rest =>
      if (maxOIDCRedirectURIRegexLength <? String.length pattern)%nat
      then Some (errorf ErrInvalidArgument "redirect_uri regular expression is too long")
      else if negb (regexp_Compile (fullRedirectURIRegex pattern))
      then Some (errorf ErrInvalidArgument "invalid redirect_uri regular expression")
      else check_patterns rest
  end.

Definition normalizeRedirectURIRegexes (values : list string) : result (list string) :=
  let out := compactStrings values in
  if (maxOIDCRedirectURIRegexes <? length out)%nat then Err (errorf ErrInvalidArgument "too many redirect_uri regular expressions")
  else match check_patterns out with Some e => Err e | None => Ok out end.

Definition validateAuthorizePKCE (client : OIDCClient) (codeChallenge codeChallengeMethod : string) : option error :=
  if negb (OIDCClient_RequirePKCE client) then None
  else if blank codeChallenge then Some (errorf ErrInvalidArgument "code_challenge is required")
  else if negb (String.eqb codeChallengeMethod "S256") then Some (errorf ErrInvalidArgument "only S256 PKCE is supported")
  else None.

Definition verifyPKCE (code : AuthorizationCode) (verifier : string) : option error :=
  let challenge := TrimSpace (AuthorizationCode_CodeChallenge code) in
  if str_empty challenge then None
  else
    let verifier := TrimSpace verifier in
    if str_empty verifier then Some (errorf ErrUnauthorized "code_verifier is required")
    else if String.eqb (normalizeCodeChallengeMethod (AuthorizationCode_CodeChallengeMethod code)) "S256"
    then if String.eqb (base64_url_encode (sha256 (bytes_of verifier))) challenge then None
         else Some (errorf ErrUnauthorized "invalid code_verifier")
    else Some (errorf ErrUnauthorized "unsupported code_challenge_method").

Definition verifyClientSecret (client : OIDCClient) (clientSecret : string) : option error :=
  if String.eqb (OIDCClient_ClientType client) OIDCClientTypePublic then
    if negb (OIDCClient_RequirePKCE client) then Some (errorf ErrUnauthorized "public clients must require PKCE") else None
  else if blank (OIDCClient_ClientSecretHash client) then Some (errorf ErrUnauthorized "confidential client authentication is required")
  else
    let secret := TrimSpace clientSecret in
    if str_empty secret then Some (errorf ErrUnauthorized "client authentication is required")
    else if negb (bcrypt_Compare (OIDCClient_ClientSecretHash client) secret) then Some (errorf ErrUnauthorized "invalid client credentials")
    else None.

Definition validateAuthorizationCodeClient (code : AuthorizationCode) (client : OIDCClient) (provider : Provider) (input : TokenInput) : option error :=
  if negb (String.eqb (Provider_ID provider) (AuthorizationCode_ProviderID code))
  then Some (errorf ErrUnauthorized "authorization code provider mismatch")
  else if negb (clientEnabled client) || negb (providerEnabled provider)
  then Some (errorf ErrUnauthorized "oidc client or provider is disabled")
  else if negb (containsString (normalizeGrantTypes (OIDCClient_AllowedGrantTypes client)) "authorization_code")
  then Some (errorf ErrInvalidArgument "authorization_code grant is not allowed")
  else
    let clientID := TrimSpace (TokenInput_ClientID input) in
    if negb (str_empty clientID) && negb (String.eqb clientID (OIDCClient_ClientID client))
    then Some (errorf ErrUnauthorized "client_id mismatch")
    else if negb (String.eqb (TrimSpace (TokenInput_RedirectURI input)) (AuthorizationCode_RedirectURI code))
    then Some (errorf ErrUnauthorized "redirect_uri does not match authorization request")
    else if negb (redirectURIAllowed client (TokenInput_RedirectURI input))
    then Some (errorf ErrUnauthorized "redirect_uri is no longer registered")
    else None.

Definition authorizeRedirectErrorCode (err : error) : string :=
  match err_kind err with
  | ErrMFARequired => "mfa_required"
  | ErrAccessDenied | ErrUnauthorized => "access_denied"
  | ErrInvalidArgument => "invalid_request"
  | _ => "server_error"
  end.

Definition authorizeRedirectError (redirectURI state code : string) (err : error) : AuthorizeRedirectError :=
  let code := if blank code then authorizeRedirectErrorCode err else code in
  {| RedirectError_RedirectURI := TrimSpace redirectURI; RedirectError_State := TrimSpace state; RedirectError_Code := TrimSpace code;
     RedirectError_Err := err |}.

Definition applicationPolicyAccessError (principal : Principal) (application : Application) (access : AccessPolicyContext) : option error :=
  if CanAccessApplicationWithContext principal application access then None
  else
    let conditions := ApplicationPolicyConditionsFromMetadata (Application_Metadata application) in
    let withMFA := {| Access_SourceIP := Access_SourceIP access; Access_MFAAuthenticated := true; Access_Now := Access_Now access |} in
    if Conditions_RequireMFA conditions && negb (Access_MFAAuthenticated access) &&
       CanAccessApplicationWithContext principal application withMFA
    then Some (errorf ErrMFARequired "application policy requires step-up")
    else Some (errorf ErrAccessDenied "application access denied").

(** The access of a user to the application behind a provider. *)
Definition validateProviderAccess (now : Z) (sourceIP : string) (principal : Principal) (provider : Provider) (application : Application)
    (sessionID : string) (s : OidcStore) : option error :=
  if negb (providerEnabled provider) || negb (String.eqb (Provider_Type provider) ProviderTypeOIDC)
  then Some (errorf ErrUnauthorized "oidc provider is disabled")
  else if negb (String.eqb (Application_Status application) ApplicationStatusEnabled)
  then Some (errorf ErrAccessDenied "application is disabled")
  else
    let mfa := if negb (blank sessionID) then
        match repo_GetAuthSessionByID sessionID s with Ok session => metadataMFA (PlatformSession_Metadata session) | Err _ => false end
      else false in
    applicationPolicyAccessError principal application
      {| Access_SourceIP := sourceIP; Access_MFAAuthenticated := mfa; Access_Now := now |}.

Definition validateAuthenticationAge (now : Z) (principal : Principal) (sessionID rawMaxAge : string) (s : OidcStore) : option error :=
  let rawMaxAge := TrimSpace rawMaxAge in
  if str_empty rawMaxAge then None
  else match ParseInt rawMaxAge with
  | None => Some (errorf ErrInvalidArgument "max_age must be a non-negative integer")
  | Some maxAge =>
      if maxAge <? 0 then Some (errorf ErrInvalidArgument "max_age must be a non-negative integer")
      else
        let reauthenticate := Some (errorf ErrUnauthorized "reauthentication required") in
        if blank sessionID then reauthenticate
        else match repo_GetAuthSessionByID (TrimSpace sessionID) s with
        | Err _ => reauthenticate
        | Ok session =>
            if negb (String.eqb (PlatformSession_UserID session) (Principal_UserID principal)) ||
               negb (String.eqb (PlatformSession_Status session) "active") || negb (now <? PlatformSession_ExpiresAt session) ||
               (PlatformSession_LastSeenAt session =? zero_time) || (maxAge <? wrap64 (unix now - unix (PlatformSession_LastSeenAt session)))
            then reauthenticate else None
        end
  end.
End checks.

(** ** Claims *)

Definition newOIDCTokenClaims (id tokenType issuer clientID : string) (principal : Principal) (sessionID : string) (authTime now ttl : Z) : oidcTokenClaims := {|
  Claims_TokenType := tokenType; Claims_ClientID := clientID; Claims_SessionID := sessionID; Claims_AuthTime := unix authTime;
  Claims_Scope := ""; Claims_Nonce := ""; Claims_UserName := ""; Claims_Email := ""; Claims_Roles := []; Claims_Teams := [];
  Claims_Projects := []; Claims_Tags := []; Claims_Issuer := issuer; Claims_Subject := Principal_UserID principal;
  Claims_Audience := [clientID]; Claims_ID := id; Claims_IssuedAt := Some (unix now); Claims_NotBefore := Some (unix now);
  Claims_ExpiresAt := Some (unix (add_seconds now ttl)) |}.

(** A claim that a scope opens. *)
Definition scoped {A} (scopes : list string) (scope : string) (value empty : A) : A := if containsString scopes scope then value else empty.

Definition applyOIDCScopedClaims (principal : Principal) (scopes : list string) (c : oidcTokenClaims) : oidcTokenClaims := {|
  Claims_TokenType := Claims_TokenType c; Claims_ClientID := Claims_ClientID c; Claims_SessionID := Claims_SessionID c;
  Claims_AuthTime := Claims_AuthTime c; Claims_Scope := Claims_Scope c; Claims_Nonce := Claims_Nonce c;
  Claims_UserName := scoped scopes "profile" (Principal_UserName principal) (Claims_UserName c);
  Claims_Email := scoped scopes "email" (Principal_Email principal) (Claims_Email c);
  Claims_Roles := scoped scopes "roles" (Principal_Roles principal) (Claims_Roles c);
  Claims_Teams := scoped scopes "teams" (Principal_Teams principal) (Claims_Teams c);
  Claims_Projects := scoped scopes "projects" (Principal_Projects principal) (Claims_Projects c);
  Claims_Tags := scoped scopes "tags" (Principal_Tags principal) (Claims_Tags c);
  Claims_Issuer := Claims_Issuer c; Claims_Subject := Claims_Subject c; Claims_Audience := Claims_Audience c; Claims_ID := Claims_ID c;
  Claims_IssuedAt := Claims_IssuedAt c; Claims_NotBefore := Claims_NotBefore c; Claims_ExpiresAt := Claims_ExpiresAt c |}.

Definition with_scope_nonce (scope nonce : string) (c : oidcTokenClaims) : oidcTokenClaims := {|
  Claims_TokenType := Claims_TokenType c; Claims_ClientID := Claims_ClientID c; Claims_SessionID := Claims_SessionID c;
  Claims_AuthTime := Claims_AuthTime c; Claims_Scope := scope; Claims_Nonce := nonce; Claims_UserName := Claims_UserName c;
  Claims_Email := Claims_Email c; Claims_Roles := Claims_Roles c; Claims_Teams := Claims_Teams c; Claims_Projects := Claims_Projects c;
  Claims_Tags := Claims_Tags c; Claims_Issuer := Claims_Issuer c; Claims_Subject := Claims_Subject c; Claims_Audience := Claims_Audience c;
  Claims_ID := Claims_ID c; Claims_IssuedAt := Claims_IssuedAt c; Claims_NotBefore := Claims_NotBefore c; Claims_ExpiresAt := Claims_ExpiresAt c |}.

(** ** Keys *)

(** [Bytes] of a coordinate, padded to 32 bytes. *)
Definition base64urlUInt (value : Z) : string := base64_url_encode (big_endian 32 value).

Definition publicJWK (point : Z * Z) : string * string := (base64urlUInt (fst point), base64urlUInt (snd point)).

Definition publicKeyFromJWK (jwk : string * string) : option (Z * Z) :=
  x ← base64_url_decode (fst jwk); y ← base64_url_decode (snd jwk); Some (of_big_endian x, of_big_endian y).

(** The map from key identifiers to public keys; later keys of the list win. *)
Fixpoint public_keys (keys : list SigningKey) (m : gmap string (Z * Z)) : gmap string (Z * Z) :=
  match keys with
  | [] => m
  | key :: rest => public_keys rest (match publicKeyFromJWK (SigningKey_PublicJWK key) with Some p => <[SigningKey_KeyID key := p]> m | None => m end)
  end.

(** ** The endpoints *)

Section service.
Context `{CatalogSource, MapRange, OidcDatabase, Cipher, OidcDeps, Es256, UserRepository}.
Context (keys : Ring) (encryptionKey : string) (permissions : PermissionResolver) (audited : bool).

Definition recordAudit (principal : Principal) (action result : string) (provider : Provider) (clientID : string) (metadata : go_map) : oidc unit :=
  fun w => (Ok tt, if audited then {| ow_store := ow_store w; ow_cache := ow_cache w; ow_audit := ow_audit w ++ [
    let metadata := <["providerType" := AString (Provider_Type provider)]> (<["providerId" := AString (Provider_ID provider)]> metadata) in
    let metadata := if str_empty (Provider_ApplicationID provider) then metadata
                    else <["applicationId" := AString (Provider_ApplicationID provider)]> metadata in
    let metadata := if str_empty clientID then metadata else <["clientId" := AString clientID]> metadata in
    {| OidcAudit_ActorID := actorID principal; OidcAudit_Action := action; OidcAudit_Result := result;
       OidcAudit_ResourceName := Provider_ID provider; OidcAudit_Metadata := metadata |}] |} else w).

Definition loadPrincipal (userID : string) : result Principal :=
  let* user := map_err (fun _ => errorf ErrUnauthorized "user not found") (users_GetByID userID) in
  let* status := map_err (fun _ => errorf ErrUnauthorized "user not found") (users_GetAuthzState userID) in
  if negb (String.eqb (TrimSpace status) "active") || negb (String.eqb (TrimSpace (OidcUser_Status user)) "active")
  then Err (errorf ErrUnauthorized "account is not active")
  else
    let* roles := map_err (wrapf "list user roles") (users_ListRoles userID) in
    let* teams := map_err (wrapf "list user teams") (users_ListTeams userID) in
    let* projects := map_err (wrapf "list user projects") (users_ListProjects userID) in
    let userName := if blank (OidcUser_DisplayName user) then OidcUser_Username user else TrimSpace (OidcUser_DisplayName user) in
    Ok {| Principal_UserID := OidcUser_ID user; Principal_UserName := userName; Principal_Email := OidcUser_Email user;
          Principal_AvatarURL := ""; Principal_AvatarFit := ""; Principal_Roles := roles; Principal_Teams := teams;
          Principal_Projects := projects; Principal_Tags := OidcUser_Tags user; Principal_PermissionKeys := []; Principal_AccessTokenID := "" |}.

(** *** Signing keys *)

Definition encrypt_text (e : OidcEntropy) (text : string) : result string :=
  if negb (str_empty (Key_id (Ring_active keys))) then EncryptStringWithKeyring (oe_nonce e) keys text
  else EncryptString (oe_nonce e) encryptionKey text.

Definition decrypt_text (now : Z) (ciphertext : string) : result string :=
  if negb (str_empty (Key_id (Ring_active keys))) then DecryptStringWithKeyring keys ciphertext now
  else DecryptString encryptionKey ciphertext.

Definition encryptPrivateKey (e : OidcEntropy) (privateKey : PrivateKey) : result string :=
  let* pem := map_err (wrapf "marshal oidc signing key") (marshal_key privateKey) in
  map_err (wrapf "encrypt oidc signing key") (encrypt_text e pem).

Definition decryptPrivateKey (now : Z) (ciphertext : string) : result PrivateKey :=
  let* plaintext := map_err (wrapf "decrypt oidc signing key") (decrypt_text now ciphertext) in
  parse_key plaintext.

Definition generateSigningKey (e : OidcEntropy) (providerID : string) (now : Z) : result (SigningKey * PrivateKey) :=
  let* privateKey := map_err (wrapf "generate oidc signing key") (oe_key e) in
  let* kid := randomToken (oe_bytes e 9 16) in
  let* encrypted := encryptPrivateKey e privateKey in
  Ok ({| SigningKey_ID := oe_uuid e 9; SigningKey_ProviderID := providerID; SigningKey_KeyID := kid;
         SigningKey_EncryptedPrivateKey := encrypted; SigningKey_PublicJWK := publicJWK (public_point privateKey);
         SigningKey_Active := true; SigningKey_CreatedAt := now; SigningKey_RotatedAt := None |}, privateKey).

Definition ensureSigningKey (e : OidcEntropy) (now : Z) (providerID : string) : oidc (SigningKey * PrivateKey) :=
  fun w => match repo_GetActiveSigningKey providerID (ow_store w) with
  | Ok key =>
      (let* privateKey := decryptPrivateKey now (SigningKey_EncryptedPrivateKey key) in Ok (key, privateKey), w)
  | Err err =>
      if negb (bool_decide (err_kind err = ErrNotFound)) then (Err err, w)
      else (let! generated := glift (generateSigningKey e providerID now) in
            let! created := in_oidc (repo_CreateSigningKey (fst generated)) in
            gret (created, snd generated)) w
  end.

(** *** Authorization *)

Definition resolveAuthorizeClient (clientID : string) : oidc (OIDCClient * Provider * Application) :=
  let! client := oquery (repo_GetOIDCClientByClientID clientID) in
  if negb (clientEnabled client) then gfail (errorf ErrUnauthorized "oidc client is disabled")
  else if negb (containsString (normalizeGrantTypes (OIDCClient_AllowedGrantTypes client)) "authorization_code")
  then gfail (errorf ErrInvalidArgument "authorization_code grant is not allowed")
  else
    let! provider := oquery (repo_GetProvider (OIDCClient_ProviderID client)) in
    let! application := oquery (repo_GetProviderApplication (Provider_ID provider)) in
    gret (client, provider, application).

(** The code that a granted request stores. *)
Definition new_code (e : OidcEntropy) (now : Z) (issuer : string) (principal : Principal) (client : OIDCClient) (provider : Provider)
    (input : AuthorizeInput) (scopes : list string) (rawCode : string) : AuthorizationCode := {|
  AuthorizationCode_ID := oe_uuid e 0; AuthorizationCode_ProviderID := Provider_ID provider;
  AuthorizationCode_ClientID := OIDCClient_ClientID client; AuthorizationCode_UserID := Principal_UserID principal;
  AuthorizationCode_CodeHash := hashToken rawCode; AuthorizationCode_RedirectURI := TrimSpace (AuthorizeInput_RedirectURI input);
  AuthorizationCode_Scopes := scopes; AuthorizationCode_Nonce := TrimSpace (AuthorizeInput_Nonce input);
  AuthorizationCode_CodeChallenge := TrimSpace (AuthorizeInput_CodeChallenge input);
  AuthorizationCode_CodeChallengeMethod := normalizeCodeChallengeMethod (AuthorizeInput_CodeChallengeMethod input);
  AuthorizationCode_ExpiresAt := now + authorizationCodeTTL; AuthorizationCode_ConsumedAt := None; AuthorizationCode_CreatedAt := now;
  AuthorizationCode_Metadata := <["platformSessionId" := AString (TrimSpace (AuthorizeInput_PlatformSessionID input))]>
    (<["state" := AString (TrimSpace (AuthorizeInput_State input))]> {[ "issuer" := AString (normalizeIssuer issuer) ]}) |}.

(** The last part: the request is admissible, and its code is stored. *)
Definition grant_authorization (clock : nat -> Z) (e : OidcEntropy) (issuer : string) (principal : Principal) (client : OIDCClient)
    (provider : Provider) (input : AuthorizeInput) (responseMode : string) (scopes : list string) : oidc AuthorizeOutcome :=
  let! rawCode := glift (randomToken (oe_bytes e 0 32)) in
  let code := new_code e (clock 2%nat) issuer principal client provider input scopes rawCode in
  do! (fun w => let '(r, w) := in_oidc (repo_CreateAuthorizationCode code) w in (map_err (wrapf "create authorization code") r, w));
  do! recordAudit principal "oidc.authorize" "success" provider (OIDCClient_ClientID client)
    (<["platformSessionId" := AString (TrimSpace (AuthorizeInput_PlatformSessionID input))]>
      (<["scopes" := AStrings scopes]> {[ "redirectUri" := AString (TrimSpace (AuthorizeInput_RedirectURI input)) ]}));
  gret (AuthorizeGranted {| AuthorizeResult_RedirectURI := TrimSpace (AuthorizeInput_RedirectURI input); AuthorizeResult_Code := rawCode;
    AuthorizeResult_State := TrimSpace (AuthorizeInput_State input); AuthorizeResult_ResponseMode := responseMode |}).

Definition Authorize (clock : nat -> Z) (e : OidcEntropy) (sourceIP issuer : string) (principal : Principal) (input : AuthorizeInput)
    : oidc AuthorizeOutcome :=
  let! found := resolveAuthorizeClient (AuthorizeInput_ClientID input) in
  let '(client, provider, application) := found in
  let redirectURI := TrimSpace (AuthorizeInput_RedirectURI input) in
  if negb (redirectURIAllowed client redirectURI) then gfail (errorf ErrInvalidArgument "redirect_uri is not registered")
  else
    let state := TrimSpace (AuthorizeInput_State input) in
    let refuse code err := gret (AuthorizeRefused (authorizeRedirectError redirectURI state code err)) in
    let responseMode := if blank (AuthorizeInput_ResponseMode input) then "query" else TrimSpace (AuthorizeInput_ResponseMode input) in
    if negb (String.eqb responseMode "query") && negb (String.eqb responseMode "form_post")
    then refuse "invalid_request" (errorf ErrInvalidArgument "unsupported response_mode")
    else
      let prompt := TrimSpace (AuthorizeInput_Prompt input) in
      if negb (str_empty prompt) && negb (String.eqb prompt "none") && negb (String.eqb prompt "login")
      then refuse "invalid_request" (errorf ErrInvalidArgument "unsupported prompt")
      else if blank (Principal_UserID principal) then
        if String.eqb prompt "none" then refuse "login_required" (errorf ErrUnauthorized "authentication required")
        else gfail (errorf ErrUnauthorized "authentication required")
      else if String.eqb prompt "login" then refuse "login_required" (errorf ErrUnauthorized "reauthentication required")
      else
        let! age := oquery (fun s => Ok (validateAuthenticationAge (clock 0%nat) principal (AuthorizeInput_PlatformSessionID input)
          (AuthorizeInput_MaxAge input) s)) in
        match age with
        | Some err => refuse (if bool_decide (err_kind err = ErrUnauthorized) then "login_required" else "invalid_request") err
        | None =>
            if negb (String.eqb (TrimSpace (AuthorizeInput_ResponseType input)) "code")
            then refuse "unsupported_response_type" (errorf ErrInvalidArgument "response_type must be code")
            else
              let! denied := oquery (fun s => Ok (validateProviderAccess (clock 1%nat) sourceIP principal provider application
                (AuthorizeInput_PlatformSessionID input) s)) in
              match denied with
              | Some err =>
                  do! recordAudit principal "oidc.authorize" "deny" provider (OIDCClient_ClientID client) {[ "reason" := AString (err_text err) ]};
                  refuse (authorizeRedirectErrorCode err) err
              | None =>
                  match normalizeRequestedScopes (AuthorizeInput_Scope input) (OIDCClient_AllowedScopes client) with
                  | Err err => refuse "invalid_scope" err
                  | Ok scopes =>
                      match validateAuthorizePKCE client (AuthorizeInput_CodeChallenge input)
                              (normalizeCodeChallengeMethod (AuthorizeInput_CodeChallengeMethod input)) with
                      | Some err => refuse "invalid_request" err
                      | None => grant_authorization clock e issuer principal client provider input responseMode scopes
                      end
                  end
              end
        end.

(** *** Tokens *)

(** [signOIDCToken]. *)
Definition signOIDCToken (privateKey : PrivateKey) (kid : string) (claims : oidcTokenClaims) : result string :=
  map_err (wrapf "sign oidc token") (SignedString privateKey kid claims).

Definition access_claims (e : OidcEntropy) (issuer : string) (client : OIDCClient) (principal : Principal) (sessionID : string)
    (scopes : list string) (authTime now : Z) : oidcTokenClaims :=
  with_scope_nonce (Join scopes " ") ""
    (applyOIDCScopedClaims principal scopes
      (newOIDCTokenClaims (oe_uuid e 3) TokenTypeAccess issuer (OIDCClient_ClientID client) principal sessionID authTime now
        (ttlSeconds (OIDCClient_AccessTokenTTLSeconds client) defaultOIDCAccessTokenTTLSeconds))).

Definition id_claims (e : OidcEntropy) (issuer : string) (client : OIDCClient) (principal : Principal) (sessionID : string)
    (scopes : list string) (nonce : string) (authTime now : Z) : oidcTokenClaims :=
  with_scope_nonce "" nonce
    (applyOIDCScopedClaims principal scopes
      (newOIDCTokenClaims (oe_uuid e 4) TokenTypeID issuer (OIDCClient_ClientID client) principal sessionID authTime now
        (ttlSeconds (OIDCClient_IDTokenTTLSeconds client) defaultOIDCIDTokenTTLSeconds))).

Definition issueOIDCTokenResponse (clock : nat -> Z) (e : OidcEntropy) (issuer : string) (provider : Provider) (client : OIDCClient)
    (principal : Principal) (sessionID : string) (scopes : list string) (nonce : string) (authTime now : Z) : oidc TokenResponse :=
  let! found := ensureSigningKey e (clock 1%nat) (Provider_ID provider) in
  let '(signingKey, privateKey) := found in
  let! accessToken := glift (signOIDCToken privateKey (SigningKey_KeyID signingKey) (access_claims e issuer client principal sessionID scopes authTime now)) in
  let! idToken := glift (signOIDCToken privateKey (SigningKey_KeyID signingKey) (id_claims e issuer client principal sessionID scopes nonce authTime now)) in
  gret {| TokenResponse_AccessToken := accessToken; TokenResponse_IDToken := idToken; TokenResponse_RefreshToken := "";
          TokenResponse_TokenType := "Bearer";
          TokenResponse_ExpiresIn := ttlSeconds (OIDCClient_AccessTokenTTLSeconds client) defaultOIDCAccessTokenTTLSeconds;
          TokenResponse_Scope := Join scopes " " |}.

Definition with_refresh (value : string) (r : TokenResponse) : TokenResponse := {|
  TokenResponse_AccessToken := TokenResponse_AccessToken r; TokenResponse_IDToken := TokenResponse_IDToken r;
  TokenResponse_RefreshToken := value; TokenResponse_TokenType := TokenResponse_TokenType r;
  TokenResponse_ExpiresIn := TokenResponse_ExpiresIn r; TokenResponse_Scope := TokenResponse_Scope r |}.

(** The session of a code, and the first refresh token when the client and the
    scopes ask for one: its value, and its identifier, family and hash. *)
Definition wants_refresh (client : OIDCClient) (code : AuthorizationCode) : bool :=
  containsString (normalizeGrantTypes (OIDCClient_AllowedGrantTypes client)) "refresh_token" &&
  containsString (AuthorizationCode_Scopes code) "offline_access".

Definition code_session (e : OidcEntropy) (now : Z) (provider : Provider) (client : OIDCClient) (principal : Principal) (code : AuthorizationCode) : OIDCSession := {|
  OIDCSession_ID := oe_uuid e 0; OIDCSession_ProviderID := Provider_ID provider; OIDCSession_ClientID := OIDCClient_ClientID client;
  OIDCSession_UserID := Principal_UserID principal;
  OIDCSession_PlatformSessionID := metadataStringFromMap (AuthorizationCode_Metadata code) "platformSessionId";
  OIDCSession_Scopes := AuthorizationCode_Scopes code; OIDCSession_AuthTime := now;
  OIDCSession_ExpiresAt := if wants_refresh client code
    then add_seconds now (ttlSeconds (OIDCClient_RefreshTokenTTLSeconds client) defaultOIDCRefreshTokenTTLSeconds)
    else add_seconds now (ttlSeconds (OIDCClient_AccessTokenTTLSeconds client) defaultOIDCAccessTokenTTLSeconds);
  OIDCSession_LastSeenAt := now; OIDCSession_RevokedAt := None; OIDCSession_CreatedAt := now |}.

Definition tokenAuthorizationCode (clock : nat -> Z) (e : OidcEntropy) (issuer : string) (input : TokenInput) : oidc TokenResponse :=
  let now := clock 0%nat in
  let codeHash := hashToken (TokenInput_Code input) in
  let! code := oquery (repo_GetAuthorizationCode codeHash now) in
  let! client := oquery (repo_GetOIDCClientByClientID (AuthorizationCode_ClientID code)) in
  let! provider := oquery (repo_GetProvider (OIDCClient_ProviderID client)) in
  do! ocheck (validateAuthorizationCodeClient code client provider input);
  do! ocheck (verifyClientSecret client (TokenInput_ClientSecret input));
  do! ocheck (verifyPKCE code (TokenInput_CodeVerifier input));
  let! code := in_oidc (repo_ConsumeAuthorizationCode codeHash now) in
  let! principal := glift (loadPrincipal (AuthorizationCode_UserID code)) in
  let issuer := normalizeIssuer issuer in
  let session := code_session e now provider client principal code in
  let! refreshTokenValue := glift (if wants_refresh client code then randomToken (oe_bytes e 0 48) else Ok "") in
  let refreshToken := if wants_refresh client code then Some (oe_uuid e 1, oe_uuid e 2, hashToken refreshTokenValue) else None in
  do! (fun w => let '(r, w) := in_oidc (repo_CreateOIDCSession session (first_token session <$> refreshToken)) w in
       (map_err (wrapf "create oidc session") r, w));
  fun w => match issueOIDCTokenResponse clock e issuer provider client principal (OIDCSession_ID session) (AuthorizationCode_Scopes code)
                   (AuthorizationCode_Nonce code) now now w with
  | (Err err, w) => (do! oignore (in_oidc (repo_RevokeOIDCSession (OIDCSession_ID session) (OIDCClient_ClientID client) now)); gfail err) w
  | (Ok response, w) =>
      (do! recordAudit principal "oidc.token" "success" provider (OIDCClient_ClientID client)
         (<["platformSessionId" := AString (metadataStringFromMap (AuthorizationCode_Metadata code) "platformSessionId")]>
           (<["sessionId" := AString (OIDCSession_ID session)]> {[ "scopes" := AStrings (AuthorizationCode_Scopes code) ]}));
       gret (with_refresh refreshTokenValue response)) w
  end.

(** The parts of a refresh after the rotation. *)
Definition refreshed (clock : nat -> Z) (e : OidcEntropy) (now : Z) (issuer : string) (client : OIDCClient) (provider : Provider)
    (nextValue : string) (session : OIDCSession) : oidc TokenResponse :=
  let revoke := oignore (in_oidc (repo_RevokeOIDCSession (OIDCSession_ID session) (OIDCSession_ClientID session) now)) in
  if negb (String.eqb (OIDCSession_ClientID session) (OIDCClient_ClientID client)) ||
     negb (String.eqb (OIDCSession_ProviderID session) (Provider_ID provider)) then
    do! revoke; gfail (errorf ErrUnauthorized "refresh token client mismatch")
  else match loadPrincipal (OIDCSession_UserID session) with
  | Err err => do! revoke; gfail err
  | Ok principal =>
      let! response := issueOIDCTokenResponse clock e (normalizeIssuer issuer) provider client principal (OIDCSession_ID session)
        (OIDCSession_Scopes session) "" (OIDCSession_AuthTime session) now in
      do! recordAudit principal "oidc.token.refresh" "success" provider (OIDCClient_ClientID client)
        (<["platformSessionId" := AString (OIDCSession_PlatformSessionID session)]> {[ "sessionId" := AString (OIDCSession_ID session) ]});
      gret (with_refresh nextValue response)
  end.

Definition tokenRefresh (clock : nat -> Z) (e : OidcEntropy) (issuer : string) (input : TokenInput) : oidc TokenResponse :=
  let invalid {A} : oidc A := gfail (errorf ErrUnauthorized "invalid client credentials") in
  fun w => match repo_GetOIDCClientByClientID (TrimSpace (TokenInput_ClientID input)) (ow_store w) with
  | Err _ => invalid w
  | Ok client =>
      (if negb (clientEnabled client) then invalid
       else if negb (containsString (normalizeGrantTypes (OIDCClient_AllowedGrantTypes client)) "refresh_token")
       then gfail (errorf ErrInvalidArgument "refresh_token grant is not allowed")
       else
         do! ocheck (verifyClientSecret client (TokenInput_ClientSecret input));
         fun w => match repo_GetProvider (OIDCClient_ProviderID client) (ow_store w) with
         | Err _ => gfail (errorf ErrUnauthorized "oidc provider is disabled") w
         | Ok provider =>
             (if negb (providerEnabled provider) then gfail (errorf ErrUnauthorized "oidc provider is disabled")
              else
                let rawToken := TrimSpace (TokenInput_RefreshToken input) in
                if str_empty rawToken then gfail (errorf ErrInvalidArgument "refresh_token is required")
                else
                  let! nextValue := glift (randomToken (oe_bytes e 0 48)) in
                  let now := clock 0%nat in
                  let! session := in_oidc (repo_RotateOIDCRefreshToken (hashToken rawToken) (rotated_token (oe_uuid e 0) (hashToken nextValue) now) now) in
                  refreshed clock e now issuer client provider nextValue session) w
         end) w
  end.

Definition Token (clock : nat -> Z) (e : OidcEntropy) (issuer : string) (input : TokenInput) : oidc TokenResponse :=
  let grantType := TrimSpace (TokenInput_GrantType input) in
  if String.eqb grantType "authorization_code" then tokenAuthorizationCode clock e issuer input
  else if String.eqb grantType "refresh_token" then tokenRefresh clock e issuer input
  else gfail (errorf ErrInvalidArgument "unsupported grant_type").

(** *** Reading tokens *)

Definition parseOIDCToken (clock : nat -> Z) (dbNow : Z) (issuer tokenString tokenType : string) (requireActiveSession : bool)
    (s : OidcStore) : result oidcTokenClaims :=
  let tokenString := normalizeOIDCTokenValue tokenString in
  if str_empty tokenString then Err (errorf ErrUnauthorized "bearer token is required")
  else
    let publicKeys := public_keys (repo_ListActivePublicKeys dbNow s) ∅ in
    let keyfunc alg kid := if String.eqb alg "ES256" then publicKeys !! kid else None in
    match ParseWithClaims keyfunc (normalizeIssuer issuer) (clock 0%nat) tokenString with
    | None => Err (errorf ErrUnauthorized "invalid token")
    | Some claims =>
        if negb (String.eqb (Claims_TokenType claims) tokenType) || blank (Claims_SessionID claims)
        then Err (errorf ErrUnauthorized "unexpected token type")
        else if requireActiveSession then
          match repo_GetOIDCSession (Claims_SessionID claims) (clock 1%nat) s with
          | Ok session =>
              if negb (String.eqb (OIDCSession_ClientID session) (Claims_ClientID claims)) ||
                 negb (String.eqb (OIDCSession_UserID session) (Claims_Subject claims))
              then Err (errorf ErrUnauthorized "oidc session is invalid") else Ok claims
          | Err _ => Err (errorf ErrUnauthorized "oidc session is invalid")
          end
        else Ok claims
    end.

Definition parseOIDCAccessToken (clock : nat -> Z) (dbNow : Z) (issuer tokenString : string) (s : OidcStore) : result oidcTokenClaims :=
  parseOIDCToken clock dbNow issuer tokenString TokenTypeAccess true s.

Definition authenticateConfidentialClient (input : ClientAuthInput) (s : OidcStore) : result OIDCClient :=
  let clientID := TrimSpace (ClientAuthInput_ClientID input) in
  if str_empty clientID then Err (errorf ErrUnauthorized "client authentication is required")
  else
    let* client := map_err (fun _ => errorf ErrUnauthorized "invalid client credentials") (repo_GetOIDCClientByClientID clientID s) in
    if negb (clientEnabled client) then Err (errorf ErrUnauthorized "oidc client is disabled")
    else if blank (OIDCClient_ClientSecretHash client) then Err (errorf ErrUnauthorized "confidential client authentication is required")
    else
      let secret := TrimSpace (ClientAuthInput_ClientSecret input) in
      if str_empty secret then Err (errorf ErrUnauthorized "client authentication is required")
      else if negb (bcrypt_Compare (OIDCClient_ClientSecretHash client) secret) then Err (errorf ErrUnauthorized "invalid client credentials")
      else Ok client.

Definition Introspect (clock : nat -> Z) (dbNow : Z) (issuer token : string) (auth : ClientAuthInput) : oidc IntrospectionResponse :=
  let! client := oquery (authenticateConfidentialClient auth) in
  let token := normalizeOIDCTokenValue token in
  if str_empty token then gret inactive
  else fun w => match parseOIDCAccessToken clock dbNow issuer token (ow_store w) with
  | Err _ => gret inactive w
  | Ok claims =>
      (if negb (String.eqb (Claims_ClientID claims) (OIDCClient_ClientID client)) then gret inactive
       else gret {| Introspection_Active := true; Introspection_Subject := Claims_Subject claims; Introspection_ClientID := Claims_ClientID claims;
              Introspection_Scope := Claims_Scope claims; Introspection_TokenType := "Bearer"; Introspection_Issuer := Claims_Issuer claims;
              Introspection_Audience := Claims_Audience claims; Introspection_ExpiresAt := default 0 (Claims_ExpiresAt claims);
              Introspection_IssuedAt := default 0 (Claims_IssuedAt claims); Introspection_NotBefore := default 0 (Claims_NotBefore claims);
              Introspection_JWTID := Claims_ID claims; Introspection_Username := Claims_UserName claims |}) w
  end.

Definition Revoke (clock : nat -> Z) (dbNow : Z) (issuer token : string) (auth : ClientAuthInput) : oidc unit :=
  let! client := oquery (authenticateConfidentialClient auth) in
  let token := normalizeOIDCTokenValue token in
  if str_empty token then gret tt
  else fun w =>
    let by_refresh := in_oidc (repo_RevokeOIDCSessionByRefreshToken (hashToken token) (OIDCClient_ClientID client) (clock 2%nat)) in
    match parseOIDCAccessToken clock dbNow issuer token (ow_store w) with
    | Ok claims =>
        (if String.eqb (Claims_ClientID claims) (OIDCClient_ClientID client)
         then in_oidc (repo_RevokeOIDCSession (Claims_SessionID claims) (OIDCClient_ClientID client) (clock 2%nat))
         else by_refresh) w
    | Err _ => by_refresh w
    end.

(** The redirect after a logout, and its state. *)
Definition EndSession (clock : nat -> Z) (dbNow : Z) (issuer : string) (input : EndSessionInput) : oidc (string * string) :=
  let! claims := oquery (parseOIDCToken clock dbNow issuer (EndSessionInput_IDTokenHint input) TokenTypeID true) in
  let! client := oquery (repo_GetOIDCClientByClientID (Claims_ClientID claims)) in
  let redirectURI := TrimSpace (EndSessionInput_PostLogoutRedirectURI input) in
  if negb (str_empty redirectURI) && negb (containsString (OIDCClient_PostLogoutRedirectURIs client) redirectURI)
  then gfail (errorf ErrInvalidArgument "post_logout_redirect_uri is not registered")
  else
    let! session := oquery (repo_GetOIDCSession (Claims_SessionID claims) (clock 2%nat)) in
    do! in_oidc (repo_RevokeOIDCSession (OIDCSession_ID session) (OIDCClient_ClientID client) (clock 3%nat));
    do! (if str_empty (OIDCSession_PlatformSessionID session) then gret tt
         else fun w => match in_oidc (repo_RevokeSessionByID (OIDCSession_PlatformSessionID session)) w with
              | (Err err, w) => if bool_decide (err_kind err = ErrNotFound) then (Ok tt, w) else (Err err, w)
              | (Ok tt, w) => (Ok tt, w)
              end);
    gret (redirectURI, TrimSpace (EndSessionInput_State input)).

Definition UserInfo (clock : nat -> Z) (dbNow : Z) (issuer bearerToken : string) : oidc UserInfoResponse :=
  let! claims := oquery (parseOIDCAccessToken clock dbNow issuer bearerToken) in
  let! principal := glift (loadPrincipal (Claims_Subject claims)) in
  let scopes := Fields (Claims_Scope claims) in
  gret {| UserInfo_Subject := Principal_UserID principal;
          UserInfo_Name := scoped scopes "profile" (Principal_UserName principal) "";
          UserInfo_Email := scoped scopes "email" (Principal_Email principal) "";
          UserInfo_Roles := scoped scopes "roles" (Principal_Roles principal) [];
          UserInfo_Teams := scoped scopes "teams" (Principal_Teams principal) [];
          UserInfo_Projects := scoped scopes "projects" (Principal_Projects principal) [];
          UserInfo_Tags := scoped scopes "tags" (Principal_Tags principal) [] |}.

(** *** Administration *)

Definition authorize_managed (principal : Principal) (action : string) : oidc unit :=
  fun w => match ManagedActionPermission PermIdentityProvidersManage action with
  | Some key => let '(r, cache) := AuthorizeRuntimePermission permissions principal key (ow_cache w) in
      (r, {| ow_store := ow_store w; ow_cache := cache; ow_audit := ow_audit w |})
  | None => (Err (mk_error ErrOther "panic"), w)
  end.

Definition authorize_view (principal : Principal) : oidc unit :=
  fun w => let '(r, cache) := AuthorizeRuntimePermission permissions principal PermIdentityProvidersView (ow_cache w) in
    (r, {| ow_store := ow_store w; ow_cache := cache; ow_audit := ow_audit w |}).

Definition requireOIDCProvider (providerID : string) (s : OidcStore) : result Provider :=
  let providerID := TrimSpace providerID in
  if str_empty providerID then Err (errorf ErrInvalidArgument "provider_id is required")
  else
    let* provider := repo_GetProvider providerID s in
    if negb (String.eqb (Provider_Type provider) ProviderTypeOIDC) then Err (errorf ErrInvalidArgument "oidc clients require an oidc provider")
    else Ok provider.

Definition RotateSigningKey (clock : nat -> Z) (e : OidcEntropy) (principal : Principal) (providerID : string) : oidc SigningKey :=
  do! authorize_managed principal "rotate";
  let! provider := oquery (requireOIDCProvider providerID) in
  let! generated := glift (generateSigningKey e (Provider_ID provider) (clock 0%nat)) in
  let! rotated := in_oidc (repo_RotateSigningKey (Provider_ID provider) (fst generated) (clock 0%nat)) in
  do! recordAudit principal "identity.signing_key.rotate" "success" provider "" {[ "kid" := AString (SigningKey_KeyID rotated) ]};
  gret rotated.

(** The published keys: by the constraints of the table all are ES256 keys with a JWK. *)
Definition JWKS (dbNow : Z) : oidc (list (string * string)) :=
  fun w => (Ok (SigningKey_PublicJWK <$> repo_ListActivePublicKeys dbNow (ow_store w)), w).

(** *** Clients *)

(** [AllowedGrantTypes] may be nil. *)
Record OIDCClientInput := {
  OIDCClientInput_GrantTypes : list string;
  OIDCClientInput_ProviderID : string;
  OIDCClientInput_ClientID : string;
  OIDCClientInput_ClientType : string;
  OIDCClientInput_ClientSecret : string;
  OIDCClientInput_RedirectURIs : list string;
  OIDCClientInput_RedirectURIRegexes : list string;
  OIDCClientInput_PostLogoutRedirectURIs : list string;
  OIDCClientInput_AllowedScopes : list string;
  OIDCClientInput_AllowedGrantTypes : option (list string);
  OIDCClientInput_RequirePKCE : bool;
  OIDCClientInput_AccessTokenTTLSeconds : Z;
  OIDCClientInput_IDTokenTTLSeconds : Z;
  OIDCClientInput_RefreshTokenTTLSeconds : Z;
  OIDCClientInput_Status : string
}.

(** The input with the provider and the client identifier that the caller settled. *)
Definition with_ids (providerID clientID : string) (i : OIDCClientInput) : OIDCClientInput := {|
  OIDCClientInput_GrantTypes := OIDCClientInput_GrantTypes i; OIDCClientInput_ProviderID := providerID; OIDCClientInput_ClientID := clientID;
  OIDCClientInput_ClientType := OIDCClientInput_ClientType i; OIDCClientInput_ClientSecret := OIDCClientInput_ClientSecret i;
  OIDCClientInput_RedirectURIs := OIDCClientInput_RedirectURIs i; OIDCClientInput_RedirectURIRegexes := OIDCClientInput_RedirectURIRegexes i;
  OIDCClientInput_PostLogoutRedirectURIs := OIDCClientInput_PostLogoutRedirectURIs i; OIDCClientInput_AllowedScopes := OIDCClientInput_AllowedScopes i;
  OIDCClientInput_AllowedGrantTypes := OIDCClientInput_AllowedGrantTypes i; OIDCClientInput_RequirePKCE := OIDCClientInput_RequirePKCE i;
  OIDCClientInput_AccessTokenTTLSeconds := OIDCClientInput_AccessTokenTTLSeconds i; OIDCClientInput_IDTokenTTLSeconds := OIDCClientInput_IDTokenTTLSeconds i;
  OIDCClientInput_RefreshTokenTTLSeconds := OIDCClientInput_RefreshTokenTTLSeconds i; OIDCClientInput_Status := OIDCClientInput_Status i |}.

(** The hash of a secret, empty for none. *)
Definition hash_secret (plainSecret : string) : result string :=
  if blank plainSecret then Ok ""
  else if (String.length plainSecret <? 16)%nat then Err (errorf ErrInvalidArgument "oidc client secret must be at least 16 characters")
  else map_err (wrapf "hash oidc client secret") (bcrypt_Generate plainSecret).

Definition oidcClientFromInput (now : Z) (freshID clientID : string) (input : OIDCClientInput) (plainSecret : string) : result OIDCClient :=
  let providerID := TrimSpace (OIDCClientInput_ProviderID input) in
  if str_empty providerID then Err (errorf ErrInvalidArgument "provider_id is required")
  else
  let oidcClientID := TrimSpace (OIDCClientInput_ClientID input) in
  if str_empty oidcClientID then Err (errorf ErrInvalidArgument "client_id is required")
  else
  let* redirectURIs := normalizeRedirectURIs (OIDCClientInput_RedirectURIs input) in
  let* redirectURIRegexes := normalizeRedirectURIRegexes (OIDCClientInput_RedirectURIRegexes input) in
  if is_empty redirectURIs && is_empty redirectURIRegexes then Err (errorf ErrInvalidArgument "at least one redirect_uri is required")
  else
  let* postLogoutRedirectURIs := normalizeRedirectURIs (OIDCClientInput_PostLogoutRedirectURIs input) in
  let clientType := ToLower (firstNonEmpty [OIDCClientInput_ClientType input; OIDCClientTypeConfidential]) in
  if negb (String.eqb clientType OIDCClientTypePublic) && negb (String.eqb clientType OIDCClientTypeConfidential)
  then Err (errorf ErrInvalidArgument "unsupported oidc client type")
  else if String.eqb clientType OIDCClientTypePublic && negb (OIDCClientInput_RequirePKCE input)
  then Err (errorf ErrInvalidArgument "public clients must require PKCE")
  else
  let allowedGrantTypes := default (OIDCClientInput_GrantTypes input) (OIDCClientInput_AllowedGrantTypes input) in
  let* grantTypes := normalizeOIDCClientGrantTypes allowedGrantTypes in
  let status := if blank (OIDCClientInput_Status input) then OIDCClientStatusEnabled else ToLower (TrimSpace (OIDCClientInput_Status input)) in
  if negb (String.eqb status OIDCClientStatusEnabled) && negb (String.eqb status OIDCClientStatusDisabled)
  then Err (errorf ErrInvalidArgument "unsupported oidc client status")
  else
  let* secretHash := hash_secret plainSecret in
  Ok {| OIDCClient_GrantTypes := []; OIDCClient_ID := if str_empty clientID then freshID else clientID; OIDCClient_ProviderID := providerID;
        OIDCClient_ClientID := oidcClientID; OIDCClient_ClientType := clientType; OIDCClient_ClientSecretHash := secretHash;
        OIDCClient_ClientSecretCiphertext := ""; OIDCClient_ClientSecretHashAtEncryption := ""; OIDCClient_ClientSecretAvailable := false;
        OIDCClient_RedirectURIs := redirectURIs; OIDCClient_RedirectURIRegexes := redirectURIRegexes;
        OIDCClient_PostLogoutRedirectURIs := postLogoutRedirectURIs;
        OIDCClient_AllowedScopes := normalizeAllowedScopes (OIDCClientInput_AllowedScopes input); OIDCClient_AllowedGrantTypes := grantTypes;
        OIDCClient_RequirePKCE := OIDCClientInput_RequirePKCE input;
        OIDCClient_AccessTokenTTLSeconds := ttlSeconds (OIDCClientInput_AccessTokenTTLSeconds input) defaultOIDCAccessTokenTTLSeconds;
        OIDCClient_IDTokenTTLSeconds := ttlSeconds (OIDCClientInput_IDTokenTTLSeconds input) defaultOIDCIDTokenTTLSeconds;
        OIDCClient_RefreshTokenTTLSeconds := ttlSeconds (OIDCClientInput_RefreshTokenTTLSeconds input) 0;
        OIDCClient_Status := status; OIDCClient_CreatedAt := now; OIDCClient_UpdatedAt := now |}.

(** A client with other secret columns, and another time of creation. *)
Definition with_secret (hash ciphertext hashAtEncryption : string) (createdAt : Z) (c : OIDCClient) : OIDCClient := {|
  OIDCClient_GrantTypes := OIDCClient_GrantTypes c; OIDCClient_ID := OIDCClient_ID c; OIDCClient_ProviderID := OIDCClient_ProviderID c;
  OIDCClient_ClientID := OIDCClient_ClientID c; OIDCClient_ClientType := OIDCClient_ClientType c; OIDCClient_ClientSecretHash := hash;
  OIDCClient_ClientSecretCiphertext := ciphertext; OIDCClient_ClientSecretHashAtEncryption := hashAtEncryption;
  OIDCClient_ClientSecretAvailable := OIDCClient_ClientSecretAvailable c; OIDCClient_RedirectURIs := OIDCClient_RedirectURIs c;
  OIDCClient_RedirectURIRegexes := OIDCClient_RedirectURIRegexes c; OIDCClient_PostLogoutRedirectURIs := OIDCClient_PostLogoutRedirectURIs c;
  OIDCClient_AllowedScopes := OIDCClient_AllowedScopes c; OIDCClient_AllowedGrantTypes := OIDCClient_AllowedGrantTypes c;
  OIDCClient_RequirePKCE := OIDCClient_RequirePKCE c; OIDCClient_AccessTokenTTLSeconds := OIDCClient_AccessTokenTTLSeconds c;
  OIDCClient_IDTokenTTLSeconds := OIDCClient_IDTokenTTLSeconds c; OIDCClient_RefreshTokenTTLSeconds := OIDCClient_RefreshTokenTTLSeconds c;
  OIDCClient_Status := OIDCClient_Status c; OIDCClient_CreatedAt := createdAt; OIDCClient_UpdatedAt := OIDCClient_UpdatedAt c |}.

Definition encryptOIDCClientSecret (e : OidcEntropy) (plaintext : string) : result string := encrypt_text e plaintext.

Definition decryptOIDCClientSecret (now : Z) (ciphertext : string) : result string :=
  if negb (Encrypted ciphertext) then Err (mk_error ErrOther "oidc client secret is not encrypted") else decrypt_text now ciphertext.

Definition protectOIDCClientSecret (e : OidcEntropy) (client : OIDCClient) (plaintext : string) : result OIDCClient :=
  let plaintext := TrimSpace plaintext in
  if str_empty plaintext || String.eqb (OIDCClient_ClientType client) OIDCClientTypePublic then Ok client
  else
    let* ciphertext := map_err (wrapf "encrypt oidc client secret") (encryptOIDCClientSecret e plaintext) in
    Ok (with_secret (OIDCClient_ClientSecretHash client) ciphertext (OIDCClient_ClientSecretHash client) (OIDCClient_CreatedAt client) client).

Definition subtleHashEqual (left right : string) : bool :=
  let left := TrimSpace left in
  let right := TrimSpace right in
  negb (str_empty left) && String.eqb left right.

Definition oidcClientSecretMaterialAvailable (item : OIDCClient) : bool :=
  String.eqb (OIDCClient_ClientType item) OIDCClientTypeConfidential && negb (blank (OIDCClient_ClientSecretHash item)) &&
  negb (blank (OIDCClient_ClientSecretCiphertext item)) &&
  subtleHashEqual (OIDCClient_ClientSecretHashAtEncryption item) (OIDCClient_ClientSecretHash item).

Definition oidcClientForResponse (c : OIDCClient) : OIDCClient := {|
  OIDCClient_GrantTypes := OIDCClient_AllowedGrantTypes c; OIDCClient_ID := OIDCClient_ID c; OIDCClient_ProviderID := OIDCClient_ProviderID c;
  OIDCClient_ClientID := OIDCClient_ClientID c; OIDCClient_ClientType := OIDCClient_ClientType c;
  OIDCClient_ClientSecretHash := OIDCClient_ClientSecretHash c; OIDCClient_ClientSecretCiphertext := OIDCClient_ClientSecretCiphertext c;
  OIDCClient_ClientSecretHashAtEncryption := OIDCClient_ClientSecretHashAtEncryption c;
  OIDCClient_ClientSecretAvailable := oidcClientSecretMaterialAvailable c; OIDCClient_RedirectURIs := OIDCClient_RedirectURIs c;
  OIDCClient_RedirectURIRegexes := OIDCClient_RedirectURIRegexes c; OIDCClient_PostLogoutRedirectURIs := OIDCClient_PostLogoutRedirectURIs c;
  OIDCClient_AllowedScopes := OIDCClient_AllowedScopes c; OIDCClient_AllowedGrantTypes := OIDCClient_AllowedGrantTypes c;
  OIDCClient_RequirePKCE := OIDCClient_RequirePKCE c; OIDCClient_AccessTokenTTLSeconds := OIDCClient_AccessTokenTTLSeconds c;
  OIDCClient_IDTokenTTLSeconds := OIDCClient_IDTokenTTLSeconds c; OIDCClient_RefreshTokenTTLSeconds := OIDCClient_RefreshTokenTTLSeconds c;
  OIDCClient_Status := OIDCClient_Status c; OIDCClient_CreatedAt := OIDCClient_CreatedAt c; OIDCClient_UpdatedAt := OIDCClient_UpdatedAt c |}.

Definition GetOIDCClient (principal : Principal) (clientID : string) : oidc OIDCClient :=
  do! authorize_view principal;
  let! item := oquery (repo_GetOIDCClient clientID) in
  gret (oidcClientForResponse item).

Definition CreateOIDCClient (clock : nat -> Z) (e : OidcEntropy) (principal : Principal) (providerID : string) (input : OIDCClientInput)
    : oidc (OIDCClient * string) :=
  do! authorize_managed principal "create";
  let input := with_ids (if blank providerID then OIDCClientInput_ProviderID input else TrimSpace providerID)
    (if blank (OIDCClientInput_ClientID input) then oe_uuid e 0 else OIDCClientInput_ClientID input) input in
  let! provider := oquery (requireOIDCProvider (OIDCClientInput_ProviderID input)) in
  let! secret := glift (if blank (OIDCClientInput_ClientSecret input) &&
      negb (String.eqb (ToLower (TrimSpace (OIDCClientInput_ClientType input))) OIDCClientTypePublic)
    then randomToken (oe_bytes e 0 32) else Ok (TrimSpace (OIDCClientInput_ClientSecret input))) in
  let! item := glift (oidcClientFromInput (clock 0%nat) (oe_uuid e 1) "" input secret) in
  let! item := glift (protectOIDCClientSecret e item secret) in
  let! created := in_oidc (repo_CreateOIDCClient item) in
  do! recordAudit principal "identity.oidc_client.create" "success" provider (OIDCClient_ClientID created) ∅;
  gret (oidcClientForResponse created, secret).

Definition UpdateOIDCClient (clock : nat -> Z) (e : OidcEntropy) (principal : Principal) (clientID : string) (input : OIDCClientInput) : oidc OIDCClient :=
  do! authorize_managed principal "update";
  let! current := oquery (repo_GetOIDCClient clientID) in
  let input := with_ids (if blank (OIDCClientInput_ProviderID input) then OIDCClient_ProviderID current else OIDCClientInput_ProviderID input)
    (if blank (OIDCClientInput_ClientID input) then OIDCClient_ClientID current else OIDCClientInput_ClientID input) input in
  if EqualFold (TrimSpace (OIDCClientInput_ClientType input)) OIDCClientTypeConfidential &&
     String.eqb (OIDCClient_ClientType current) OIDCClientTypePublic && blank (OIDCClientInput_ClientSecret input)
  then gfail (errorf ErrInvalidArgument "switching to a confidential client requires a client secret")
  else
    let! provider := oquery (requireOIDCProvider (OIDCClientInput_ProviderID input)) in
    let secret := TrimSpace (OIDCClientInput_ClientSecret input) in
    let! item := glift (oidcClientFromInput (clock 0%nat) (oe_uuid e 0) (OIDCClient_ID current) input secret) in
    let item := with_secret (OIDCClient_ClientSecretHash item) (OIDCClient_ClientSecretCiphertext item)
      (OIDCClient_ClientSecretHashAtEncryption item) (OIDCClient_CreatedAt current) item in
    let! item := glift (
      if str_empty secret && negb (String.eqb (OIDCClient_ClientType item) OIDCClientTypePublic)
      then Ok (with_secret (OIDCClient_ClientSecretHash current) (OIDCClient_ClientSecretCiphertext current)
             (OIDCClient_ClientSecretHashAtEncryption current) (OIDCClient_CreatedAt item) item)
      else if negb (str_empty secret) then protectOIDCClientSecret e item secret else Ok item) in
    let! updated := in_oidc (repo_UpdateOIDCClient item) in
    do! recordAudit principal "identity.oidc_client.update" "success" provider (OIDCClient_ClientID updated) ∅;
    gret (oidcClientForResponse updated).

(** The provider of an audit entry that was not read. *)
Definition provider_stub (providerID : string) : Provider := {|
  Provider_ID := providerID; Provider_Name := ""; Provider_ApplicationID := ""; Provider_Type := ProviderTypeOIDC; Provider_Enabled := false;
  Provider_Status := ""; Provider_Config := ∅ |}.

Definition DeleteOIDCClient (principal : Principal) (clientID : string) : oidc unit :=
  do! authorize_managed principal "delete";
  let! item := oquery (repo_GetOIDCClient clientID) in
  do! in_oidc (repo_DeleteOIDCClient (OIDCClient_ID item));
  recordAudit principal "identity.oidc_client.delete" "success" (provider_stub (OIDCClient_ProviderID item)) (OIDCClient_ClientID item) ∅.

Definition RevealOIDCClientSecret (clock : nat -> Z) (principal : Principal) (clientID : string) : oidc (string * string * Z) :=
  do! authorize_managed principal "update";
  let! client := oquery (repo_GetOIDCClient clientID) in
  let deny := recordAudit principal "identity.oidc_client.secret.reveal" "denied" (provider_stub (OIDCClient_ProviderID client))
    (OIDCClient_ClientID client) {[ "reason" := AString "secret_unavailable" ]} in
  if negb (oidcClientSecretMaterialAvailable client) then
    do! deny; gfail (errorf ErrConflict "oidc client secret is unavailable; set a new secret first")
  else match decryptOIDCClientSecret (clock 0%nat) (OIDCClient_ClientSecretCiphertext client) with
  | Ok plaintext =>
      if bcrypt_Compare (OIDCClient_ClientSecretHash client) plaintext then
        let! provider := oquery (repo_GetProvider (OIDCClient_ProviderID client)) in
        do! recordAudit principal "identity.oidc_client.secret.reveal" "success" provider (OIDCClient_ClientID client) ∅;
        gret (OIDCClient_ClientID client, plaintext, clock 1%nat)
      else do! deny; gfail (errorf ErrConflict "oidc client secret is unavailable")
  | Err _ => do! deny; gfail (errorf ErrConflict "oidc client secret is unavailable")
  end.
End service.
