(* ===== verification/OidcFlow.v ===== *)
(** * OpenID Connect provider: the flows

    The theorems on the endpoints of [OidcProvider]: every call is a sequence
    of the transactions of [OidcStore], so that the theorems on their
    interleavings hold for the service; what an exchange of a code shows; that
    an issued token is accepted and what it gives; and what a logout ends. *)

From Stdlib Require Import Ascii.
From S2P Require Import Prelude GoStrings Stateful AccessModel PermissionTables PermissionResolver WorkflowModel GoLib GoCrypto GoSha256 SecretCrypto Sql PortalPolicy OidcStore OidcProvider.

Open Scope Z_scope.

(** ** Calls are transactions *)

(** The tables change by transactions with a property, and by other tables. *)
Definition reaches (P : oidc_op -> Prop) (s s' : OidcStore) : Prop := exists tr, oidc_steps s tr s' /\ Forall (fun x => P (fst x)) tr.

Lemma steps_trans s tr s1 tr' s' : oidc_steps s tr s1 -> oidc_steps s1 tr' s' -> oidc_steps s (tr ++ tr') s'.
Proof. induction 1; intros; [done| |]; econstructor; eauto. Qed.

#[export] Instance reaches_refl P : Reflexive (reaches P).
Proof. intros s. exists []. split; constructor. Qed.
#[export] Instance reaches_trans P : Transitive (reaches P).
Proof. intros s1 s2 s3 (tr & H1 & P1) (tr' & H2 & P2). exists (tr ++ tr'). split; [by eapply steps_trans|by apply Forall_app]. Qed.

Lemma reaches_env P s s' : elsewhere s s' -> reaches P s s'.
Proof. intros He. exists []. split; [eapply oidc_env; [done|constructor]|constructor]. Qed.

Lemma reaches_op (P : oidc_op -> Prop) o s ok s' : issued o -> P o -> run_oidc_op o s = (ok, s') -> reaches P s s'.
Proof. intros Hi Hp Hr. exists [(o, ok)]. split; [econstructor; [done|done|constructor]|by repeat constructor]. Qed.

(** Changes of tables other than codes, sessions and tokens. *)
Lemma elsewhere_same s s' : oidc_wf s -> od_codes s' = od_codes s -> od_sessions s' = od_sessions s -> od_tokens s' = od_tokens s -> elsewhere s s'.
Proof.
  intros Hwf Hc Hs Ht. split; [by rewrite Hc|rewrite Hs; eauto|]. rewrite Ht. symmetry. apply map_filter_id. intros h t Htk. cbn.
  rewrite Hs. destruct (wf_owned _ Hwf h t Htk) as (x & Hx & _). eauto.
Qed.

(** A call whose effect on well-formed tables is a sequence of transactions
    with the property. *)
Definition transactional {A} (P : oidc_op -> Prop) (m : oidc A) : Prop :=
  forall w r w', oidc_wf (ow_store w) -> m w = (r, w') -> reaches P (ow_store w) (ow_store w') /\ oidc_wf (ow_store w').

Definition transactional_store {A} (P : oidc_op -> Prop) (m : oidc_store A) : Prop :=
  forall s r s', oidc_wf s -> m s = (r, s') -> reaches P s s' /\ oidc_wf s'.

Lemma reaches_wf P s s' : reaches P s s' -> oidc_wf s -> oidc_wf s'.
Proof. intros (tr & Hs & _). by eapply oidc_steps_wf. Qed.

Lemma reaches_both {P s s'} : oidc_wf s -> reaches P s s' -> reaches P s s' /\ oidc_wf s'.
Proof. intros Hwf Hr. split; [done|]. by eapply reaches_wf. Qed.

Lemma transactional_gret {P} {A} (a : A) : transactional P (gret a).
Proof. intros w r w' Hwf [= _ <-]. by apply reaches_both. Qed.
Lemma transactional_gfail {P} {A} e : transactional P (@gfail OidcWorld A e).
Proof. intros w r w' Hwf [= _ <-]. by apply reaches_both. Qed.
Lemma transactional_glift {P} {A} (x : result A) : transactional P (glift x).
Proof. intros w r w' Hwf [= _ <-]. by apply reaches_both. Qed.
Lemma transactional_oquery {P} {A} (q : OidcStore -> result A) : transactional P (oquery q).
Proof. intros w r w' Hwf [= _ <-]. by apply reaches_both. Qed.
Lemma transactional_ocheck {P} q : transactional P (ocheck q).
Proof. destruct q; [apply transactional_gfail|apply transactional_gret]. Qed.

Lemma transactional_bind {P} {A B} (m : oidc A) (f : A -> oidc B) : transactional P m -> (forall a, transactional P (f a)) -> transactional P (gbind m f).
Proof.
  intros Hm Hf w r w' Hwf. unfold gbind. destruct (m w) as [[a|e] w1] eqn:Hmw; intros Hr.
  - destruct (Hm w (Ok a) w1 Hwf Hmw) as [H1 Hwf1]. destruct (Hf a w1 r w' Hwf1 Hr) as [H2 Hwf2]. split; [by etrans|done].
  - injection Hr as _ <-. by eapply Hm.
Qed.

(** The value read is known to the rest. *)
Lemma transactional_lift {P} {A B} (x : result A) (f : A -> oidc B) : (forall a, x = Ok a -> transactional P (f a)) -> transactional P (gbind (glift x) f).
Proof.
  intros Hf w r w' Hwf. unfold gbind, glift. destruct x as [a|e] eqn:Hx; [by apply Hf|]. intros [= _ <-]. by apply reaches_both.
Qed.

Lemma transactional_query {P} {A B} (q : OidcStore -> result A) (f : A -> oidc B) :
  (forall s a, q s = Ok a -> transactional P (f a)) -> transactional P (gbind (oquery q) f).
Proof.
  intros Hf w r w' Hwf. unfold gbind, oquery. destruct (q (ow_store w)) as [a|e] eqn:Hx; [by eapply Hf|]. intros [= _ <-]. by apply reaches_both.
Qed.

Lemma transactional_in {P} {A} (m : oidc_store A) : transactional_store P m -> transactional P (in_oidc m).
Proof.
  intros Hm w r w' Hwf. unfold in_oidc. destruct (m (ow_store w)) as [x s] eqn:Hs. intros [= _ <-]. cbn. by eapply Hm.
Qed.

(** Renaming an error, dropping it, or continuing on it. *)
Lemma transactional_map {P} {A B} (f : result A -> result B) (m : oidc A) : transactional P m -> transactional P (fun w => let '(r, w) := m w in (f r, w)).
Proof. intros Hm w r w' Hwf. destruct (m w) as [x w1] eqn:Hx. intros [= _ <-]. by eapply Hm. Qed.

Lemma transactional_ignore {P} m : transactional P m -> transactional P (oignore m).
Proof. apply (transactional_map (fun _ => Ok tt)). Qed.

Lemma transactional_match {P} {A B} (m : oidc A) (f : A -> oidc B) (g : error -> oidc B) : transactional P m -> (forall a, transactional P (f a)) -> (forall e, transactional P (g e)) ->
  transactional P (fun w => match m w with (Err e, w) => g e w | (Ok a, w) => f a w end).
Proof.
  intros Hm Hf Hg w r w' Hwf. destruct (m w) as [[a|e] w1] eqn:Hmw; intros Hr; destruct (Hm _ _ _ Hwf Hmw) as [H1 Hwf1].
  - destruct (Hf a w1 r w' Hwf1 Hr) as [H2 Hwf2]. split; [by etrans|done].
  - destruct (Hg e w1 r w' Hwf1 Hr) as [H2 Hwf2]. split; [by etrans|done].
Qed.

(** A call that reads the tables before it chooses what to do. *)
Lemma transactional_at {P} {A} (m : oidc A) : (forall w, exists m', transactional P m' /\ m w = m' w) -> transactional P m.
Proof. intros Hm w r w' Hwf. destruct (Hm w) as (m' & Hm' & ->). by apply Hm'. Qed.

Create HintDb oidc_calls.
#[export] Hint Resolve transactional_gret transactional_gfail transactional_glift transactional_oquery transactional_ocheck transactional_bind
  transactional_in transactional_map transactional_ignore : oidc_calls.

(** *** The transactions *)

Lemma op_transactional {P : oidc_op -> Prop} {A} (m : oidc_store A) o : issued o -> P o ->
  (forall s, run_oidc_op o s = (succeeded (fst (m s)), snd (m s))) -> transactional_store P m.
Proof.
  intros Hi Hp Hm s r s' Hwf Hr. specialize (Hm s). rewrite Hr in Hm. apply reaches_both; [done|]. by eapply reaches_op.
Qed.

Lemma create_code_transactional {P : oidc_op -> Prop} item : AuthorizationCode_ConsumedAt item = None -> P (OpCreateCode item) -> transactional_store P (repo_CreateAuthorizationCode item).
Proof. intros Hc Hp. apply (op_transactional _ (OpCreateCode item)); [done|done|]. intros s. cbn. by destruct (repo_CreateAuthorizationCode item s). Qed.

Lemma consume_code_transactional {P : oidc_op -> Prop} h now : P (OpConsumeCode h now) -> transactional_store P (repo_ConsumeAuthorizationCode h now).
Proof. intros Hp. apply (op_transactional _ (OpConsumeCode h now)); [done|done|]. intros s. cbn. by destruct (repo_ConsumeAuthorizationCode h now s). Qed.

Lemma create_session_transactional {P : oidc_op -> Prop} session token : OIDCSession_RevokedAt session = None -> P (OpCreateSession session token) ->
  transactional_store P (repo_CreateOIDCSession session (first_token session <$> token)).
Proof.
  intros Hr Hp. apply (op_transactional _ (OpCreateSession session token)); [done|done|]. intros s. cbn.
  by destruct (repo_CreateOIDCSession session _ s).
Qed.

Lemma rotate_transactional {P : oidc_op -> Prop} h id hash now : P (OpRotate h id hash now) -> transactional_store P (repo_RotateOIDCRefreshToken h (rotated_token id hash now) now).
Proof. intros Hp. apply (op_transactional _ (OpRotate h id hash now)); [done|done|]. intros s. cbn. by destruct (repo_RotateOIDCRefreshToken h _ now s). Qed.

Lemma revoke_transactional {P : oidc_op -> Prop} sid cid now : P (OpRevokeSession sid cid now) -> transactional_store P (repo_RevokeOIDCSession sid cid now).
Proof. intros Hp. apply (op_transactional _ (OpRevokeSession sid cid now)); [done|done|]. intros s. cbn. by destruct (repo_RevokeOIDCSession sid cid now s). Qed.

Lemma revoke_token_transactional {P : oidc_op -> Prop} h cid now : P (OpRevokeByToken h cid now) -> transactional_store P (repo_RevokeOIDCSessionByRefreshToken h cid now).
Proof.
  intros Hp. apply (op_transactional _ (OpRevokeByToken h cid now)); [done|done|]. intros s. cbn. by destruct (repo_RevokeOIDCSessionByRefreshToken h cid now s).
Qed.

(** A statement on another table. *)
Lemma other_transactional {P} {A} (m : oidc_store A) :
  (forall s r s', m s = (r, s') -> od_codes s' = od_codes s /\ od_sessions s' = od_sessions s /\ od_tokens s' = od_tokens s) -> transactional_store P m.
Proof.
  intros Hm s r s' Hwf Hr. destruct (Hm s r s' Hr) as (Hc & Hs & Ht). apply reaches_both; [done|]. by apply reaches_env, elsewhere_same.
Qed.

Lemma revoke_platform_transactional {P} sid : transactional_store P (repo_RevokeSessionByID sid).
Proof.
  apply other_transactional. intros s r s'. unfold repo_RevokeSessionByID. destruct (update_by_id _ _ _ _) as [n m].
  destruct (n =? 0)%nat; by intros [= _ <-].
Qed.

Lemma delete_client_transactional {P} id : transactional_store P (repo_DeleteOIDCClient id).
Proof.
  intros s r s' Hwf Hr. apply reaches_both; [done|]. apply delete_client_elsewhere in Hr as [-> |He]; [done|by apply reaches_env].
Qed.

Lemma create_client_transactional {P} item : transactional_store P (repo_CreateOIDCClient item).
Proof.
  apply other_transactional. intros s r s'. unfold repo_CreateOIDCClient, gbind. destruct (_ && _); by intros [= _ <-].
Qed.

Lemma update_client_transactional {P} item : transactional_store P (repo_UpdateOIDCClient item).
Proof.
  apply other_transactional. intros s r s'. unfold repo_UpdateOIDCClient, gbind. destruct (od_clients s !! _) as [old|]; [|by intros [= _ <-]].
  destruct (_ && _); by intros [= _ <-].
Qed.

Lemma insert_key_cases item s r s' : insert_key item s = (r, s') -> s' = s \/ s' = set_keys (<[SigningKey_KeyID item := item]> (od_keys s)) s.
Proof. unfold insert_key. destruct (_ && _ && _); intros [= _ <-]; auto. Qed.

Lemma create_key_transactional {P} `{OidcDatabase} item : transactional_store P (repo_CreateSigningKey item).
Proof.
  apply other_transactional. intros s r s'. unfold repo_CreateSigningKey, gbind. destruct (insert_key item s) as [x s1] eqn:Hi.
  apply insert_key_cases in Hi as [-> | ->]; destruct x; by intros [= _ <-].
Qed.

Lemma rotate_key_transactional {P} `{OidcDatabase} providerID item now : transactional_store P (repo_RotateSigningKey providerID item now).
Proof.
  apply other_transactional. intros s r s'. unfold repo_RotateSigningKey, gbind. destruct (transaction _ s) as [x s1] eqn:Ht.
  apply transaction_cases in Ht as [(a & -> & Hi)|(e & -> & ->)]; [|by intros [= _ <-]].
  apply insert_key_cases in Hi as [-> | ->]; by intros [= _ <-].
Qed.

#[export] Hint Resolve consume_code_transactional rotate_transactional revoke_transactional revoke_token_transactional revoke_platform_transactional
  delete_client_transactional create_client_transactional update_client_transactional create_key_transactional rotate_key_transactional : oidc_calls.

Lemma first_row_elem {A} e (l : list A) x : first_row e l = Ok x -> x ∈ l.
Proof. destruct l; [done|]. intros [= ->]. by left. Qed.

Lemma client_by_id clientID s client : repo_GetOIDCClientByClientID clientID s = Ok client -> OIDCClient_ClientID client = TrimSpace clientID.
Proof. intros Hc%first_row_elem. by apply elem_of_rows in Hc as [?%String.eqb_eq _]. Qed.

(** *** The endpoints *)

(** Follows a call statement by statement, with every choice it makes. *)
Ltac follow_call :=
  intros; cbn zeta;
  lazymatch goal with
  | |- transactional _ (if ?c then _ else _) => destruct c; follow_call
  | |- transactional _ (let '(_, _) := ?p in _) => destruct p; follow_call
  | |- transactional _ (match ?x with Ok _ => _ | Err _ => _ end) => destruct x; follow_call
  | |- transactional _ (match ?x with Some _ => _ | None => _ end) => destruct x; follow_call
  | |- transactional _ (gbind (glift _) _) => apply transactional_lift; follow_call
  | |- transactional _ (gbind (oquery _) _) => apply transactional_query; follow_call
  | |- transactional _ (gbind _ _) => apply transactional_bind; follow_call
  | |- _ => auto 7 with oidc_calls
  end.

Section endpoints.
Context `{CatalogSource, MapRange, OidcDatabase, Cipher, OidcDeps, Es256, UserRepository}.
Context (keys : Ring) (encryptionKey : string) (permissions : PermissionResolver) (audited : bool).

Lemma recordAudit_transactional {P} principal action res provider clientID metadata :
  transactional P (recordAudit audited principal action res provider clientID metadata).
Proof. intros w r w' Hwf [= _ <-]. apply reaches_both; [done|]. by destruct audited. Qed.

Lemma authorize_managed_transactional {P} principal action : transactional P (authorize_managed permissions principal action).
Proof.
  intros w r w' Hwf. unfold authorize_managed. destruct (ManagedActionPermission _ _); [|intros [= _ <-]; by apply reaches_both].
  destruct (AuthorizeRuntimePermission _ _ _ _). intros [= _ <-]. by apply reaches_both.
Qed.

Lemma authorize_view_transactional {P} principal : transactional P (authorize_view permissions principal).
Proof. intros w r w' Hwf. unfold authorize_view. destruct (AuthorizeRuntimePermission _ _ _ _). intros [= _ <-]. by apply reaches_both. Qed.

#[local] Hint Resolve recordAudit_transactional authorize_managed_transactional authorize_view_transactional : oidc_calls.

Lemma ensureSigningKey_transactional {P} e now providerID : transactional P (ensureSigningKey keys encryptionKey e now providerID).
Proof.
  apply transactional_at. intros w. unfold ensureSigningKey. destruct (repo_GetActiveSigningKey _ _) as [key|err].
  - by exists (glift (let* privateKey := decryptPrivateKey keys encryptionKey now (SigningKey_EncryptedPrivateKey key) in Ok (key, privateKey))); auto with oidc_calls.
  - destruct (negb _); [by exists (gfail err); auto with oidc_calls|]. eexists; split; [|reflexivity]. follow_call.
Qed.
#[local] Hint Resolve ensureSigningKey_transactional : oidc_calls.

Lemma issue_transactional {P} clock e issuer provider client principal sessionID scopes nonce authTime now :
  transactional P (issueOIDCTokenResponse keys encryptionKey clock e issuer provider client principal sessionID scopes nonce authTime now).
Proof. unfold issueOIDCTokenResponse. follow_call. Qed.
#[local] Hint Resolve issue_transactional : oidc_calls.

Lemma Authorize_transactional (P : oidc_op -> Prop) clock e sourceIP issuer principal input :
  (forall item raw, AuthorizationCode_UserID item = Principal_UserID principal -> randomToken (oe_bytes e 0 32) = Ok raw ->
     AuthorizationCode_CodeHash item = hashToken raw -> P (OpCreateCode item)) ->
  transactional P (Authorize audited clock e sourceIP issuer principal input).
Proof.
  intros Hp. unfold Authorize, resolveAuthorizeClient, grant_authorization. follow_call.
  apply (transactional_map (map_err (wrapf "create authorization code"))). apply transactional_in, create_code_transactional; [done|]. by eapply Hp.
Qed.

Section token_calls.
Context (P : oidc_op -> Prop) (Hrevoke : forall sid cid now, P (OpRevokeSession sid cid now)).

Lemma refreshed_transactional clock e now issuer client provider nextValue session :
  transactional P (refreshed keys encryptionKey audited clock e now issuer client provider nextValue session).
Proof. unfold refreshed. follow_call. Qed.

Lemma code_transactional clock e issuer input :
  (forall now, P (OpConsumeCode (hashToken (TokenInput_Code input)) now)) ->
  (forall session token, OIDCSession_ID session = oe_uuid e 0 -> P (OpCreateSession session token)) ->
  transactional P (tokenAuthorizationCode keys encryptionKey audited clock e issuer input).
Proof.
  intros Hco Hse. unfold tokenAuthorizationCode. follow_call.
  - apply (transactional_map (map_err (wrapf "create oidc session"))). apply transactional_in, create_session_transactional; [done|by apply Hse].
  - apply (transactional_match (issueOIDCTokenResponse _ _ _ _ _ _ _ _ _ _ _ _ _)); follow_call.
Qed.

#[local] Hint Resolve refreshed_transactional : oidc_calls.

Lemma refresh_transactional clock e issuer input :
  (forall id hash now, P (OpRotate (hashToken (TrimSpace (TokenInput_RefreshToken input))) id hash now)) ->
  transactional P (tokenRefresh keys encryptionKey audited clock e issuer input).
Proof.
  intros Hro. unfold tokenRefresh.
  apply transactional_at. intros w. destruct (repo_GetOIDCClientByClientID _ _) as [client|]; [|eexists; split; [|reflexivity]; follow_call].
  eexists; split; [|reflexivity]. follow_call. apply transactional_at. intros w1.
  destruct (repo_GetProvider _ _) as [provider|]; (eexists; split; [|reflexivity]); follow_call.
Qed.
End token_calls.

Lemma Introspect_transactional {P} clock dbNow issuer token auth : transactional P (Introspect clock dbNow issuer token auth).
Proof.
  unfold Introspect. follow_call. apply transactional_at. intros w.
  destruct (parseOIDCAccessToken _ _ _ _ _); (eexists; split; [|reflexivity]); follow_call.
Qed.

Lemma authenticated_client auth s client : authenticateConfidentialClient auth s = Ok client ->
  OIDCClient_ClientID client = TrimSpace (ClientAuthInput_ClientID auth).
Proof.
  unfold authenticateConfidentialClient. destruct (str_empty _); [done|].
  destruct (repo_GetOIDCClientByClientID _ s) as [c|] eqn:Hc; [|done]. cbn. destruct (clientEnabled c); [|done]. destruct (blank _); [done|].
  destruct (str_empty _); [done|]. destruct (bcrypt_Compare _ _); [|done]. cbn. intros [= <-]. apply client_by_id in Hc. by rewrite TrimSpace_idem in Hc.
Qed.

Lemma Revoke_transactional (P : oidc_op -> Prop) clock dbNow issuer token auth :
  (forall sid now, P (OpRevokeSession sid (TrimSpace (ClientAuthInput_ClientID auth)) now)) ->
  (forall now, P (OpRevokeByToken (hashToken (normalizeOIDCTokenValue token)) (TrimSpace (ClientAuthInput_ClientID auth)) now)) ->
  transactional P (Revoke clock dbNow issuer token auth).
Proof.
  intros Hs Ht. unfold Revoke. apply transactional_query. intros s client Hc. apply authenticated_client in Hc. cbn zeta.
  destruct (str_empty _); [follow_call|]. rewrite Hc. apply transactional_at. intros w.
  destruct (parseOIDCAccessToken _ _ _ _ _); (eexists; split; [|reflexivity]); follow_call.
Qed.

Lemma EndSession_transactional (P : oidc_op -> Prop) clock dbNow issuer input : (forall sid cid now, P (OpRevokeSession sid cid now)) ->
  transactional P (EndSession clock dbNow issuer input).
Proof.
  intros Hr. unfold EndSession. follow_call.
  refine (transactional_match (in_oidc (repo_RevokeSessionByID _)) (fun a w => match a with tt => (Ok tt, w) end)
    (fun err w => if bool_decide (err_kind err = ErrNotFound) then (Ok tt, w) else (Err err, w)) _ _ _); [follow_call| |].
  - intros []. apply transactional_gret.
  - intros err. destruct (bool_decide _); [apply transactional_gret|apply (transactional_gfail err)].
Qed.

#[local] Hint Resolve Introspect_transactional : oidc_calls.

(** The requests of the provider. *)
Inductive oidc_request :=
| ReqAuthorize (clock : nat -> Z) (e : OidcEntropy) (sourceIP issuer : string) (principal : Principal) (input : AuthorizeInput)
| ReqToken (clock : nat -> Z) (e : OidcEntropy) (issuer : string) (input : TokenInput)
| ReqIntrospect (clock : nat -> Z) (dbNow : Z) (issuer token : string) (auth : ClientAuthInput)
| ReqRevoke (clock : nat -> Z) (dbNow : Z) (issuer token : string) (auth : ClientAuthInput)
| ReqEndSession (clock : nat -> Z) (dbNow : Z) (issuer : string) (input : EndSessionInput)
| ReqUserInfo (clock : nat -> Z) (dbNow : Z) (issuer bearerToken : string)
| ReqJWKS (dbNow : Z)
| ReqRotateSigningKey (clock : nat -> Z) (e : OidcEntropy) (principal : Principal) (providerID : string)
| ReqGetClient (principal : Principal) (clientID : string)
| ReqCreateClient (clock : nat -> Z) (e : OidcEntropy) (principal : Principal) (providerID : string) (input : OIDCClientInput)
| ReqUpdateClient (clock : nat -> Z) (e : OidcEntropy) (principal : Principal) (clientID : string) (input : OIDCClientInput)
| ReqDeleteClient (principal : Principal) (clientID : string)
| ReqRevealSecret (clock : nat -> Z) (principal : Principal) (clientID : string).

Definition serve (r : oidc_request) (w : OidcWorld) : OidcWorld :=
  match r with
  | ReqAuthorize clock e sourceIP issuer principal input => snd (Authorize audited clock e sourceIP issuer principal input w)
  | ReqToken clock e issuer input => snd (Token keys encryptionKey audited clock e issuer input w)
  | ReqIntrospect clock dbNow issuer token auth => snd (Introspect clock dbNow issuer token auth w)
  | ReqRevoke clock dbNow issuer token auth => snd (Revoke clock dbNow issuer token auth w)
  | ReqEndSession clock dbNow issuer input => snd (EndSession clock dbNow issuer input w)
  | ReqUserInfo clock dbNow issuer bearerToken => snd (UserInfo clock dbNow issuer bearerToken w)
  | ReqJWKS dbNow => snd (JWKS dbNow w)
  | ReqRotateSigningKey clock e principal providerID => snd (RotateSigningKey keys encryptionKey permissions audited clock e principal providerID w)
  | ReqGetClient principal clientID => snd (GetOIDCClient permissions principal clientID w)
  | ReqCreateClient clock e principal providerID input => snd (CreateOIDCClient keys encryptionKey permissions audited clock e principal providerID input w)
  | ReqUpdateClient clock e principal clientID input => snd (UpdateOIDCClient keys encryptionKey permissions audited clock e principal clientID input w)
  | ReqDeleteClient principal clientID => snd (DeleteOIDCClient permissions audited principal clientID w)
  | ReqRevealSecret clock principal clientID => snd (RevealOIDCClientSecret keys encryptionKey permissions audited clock principal clientID w)
  end.

(** The transactions that a request may run. *)
Definition footprint (r : oidc_request) (o : oidc_op) : Prop :=
  match r, o with
  | ReqAuthorize _ e _ _ principal _, OpCreateCode item => AuthorizationCode_UserID item = Principal_UserID principal /\
      exists raw, randomToken (oe_bytes e 0 32) = Ok raw /\ AuthorizationCode_CodeHash item = hashToken raw
  | ReqToken _ _ _ input, OpConsumeCode codeHash _ => TrimSpace (TokenInput_GrantType input) = "authorization_code" /\
      codeHash = hashToken (TokenInput_Code input)
  | ReqToken _ e _ input, OpCreateSession session _ => TrimSpace (TokenInput_GrantType input) = "authorization_code" /\
      OIDCSession_ID session = oe_uuid e 0
  | ReqToken _ _ _ input, OpRotate tokenHash _ _ _ => TrimSpace (TokenInput_GrantType input) = "refresh_token" /\
      tokenHash = hashToken (TrimSpace (TokenInput_RefreshToken input))
  | ReqToken _ _ _ _, OpRevokeSession _ _ _ => True
  | ReqRevoke _ _ _ _ auth, OpRevokeSession _ clientID _ => clientID = TrimSpace (ClientAuthInput_ClientID auth)
  | ReqRevoke _ _ _ token auth, OpRevokeByToken tokenHash clientID _ => tokenHash = hashToken (normalizeOIDCTokenValue token) /\
      clientID = TrimSpace (ClientAuthInput_ClientID auth)
  | ReqEndSession _ _ _ _, OpRevokeSession _ _ _ => True
  | _, _ => False
  end.

Lemma transactional_snd {P} {A} (m : oidc A) w : transactional P m -> oidc_wf (ow_store w) ->
  reaches P (ow_store w) (ow_store (snd (m w))) /\ oidc_wf (ow_store (snd (m w))).
Proof. intros Hm Hwf. apply (Hm w (fst (m w)) (snd (m w)) Hwf). by destruct (m w). Qed.

Lemma Token_transactional clock e issuer input :
  transactional (footprint (ReqToken clock e issuer input)) (Token keys encryptionKey audited clock e issuer input).
Proof.
  unfold Token. destruct (String.eqb_spec (TrimSpace (TokenInput_GrantType input)) "authorization_code") as [Hc|_].
  - by apply code_transactional.
  - destruct (String.eqb_spec (TrimSpace (TokenInput_GrantType input)) "refresh_token") as [Hr|_]; [|apply transactional_gfail].
    by apply refresh_transactional.
Qed.

Lemma serve_transactional r w : oidc_wf (ow_store w) ->
  reaches (footprint r) (ow_store w) (ow_store (serve r w)) /\ oidc_wf (ow_store (serve r w)).
Proof.
  destruct r; cbn [serve]; apply transactional_snd.
  - apply Authorize_transactional. cbn. eauto.
  - apply Token_transactional.
  - follow_call.
  - by apply Revoke_transactional.
  - by apply EndSession_transactional.
  - unfold UserInfo. follow_call.
  - intros w0 r w' Hwf [= _ <-]. by apply reaches_both.
  - unfold RotateSigningKey. follow_call.
  - unfold GetOIDCClient. follow_call.
  - unfold CreateOIDCClient. follow_call.
  - unfold UpdateOIDCClient. follow_call.
  - unfold DeleteOIDCClient. follow_call.
  - unfold RevealOIDCClientSecret. follow_call.
Qed.

Definition serve_all (requests : list oidc_request) (w : OidcWorld) : OidcWorld := foldl (fun w r => serve r w) w requests.

(** What a list of requests does to the tables, request by request. *)
Lemma serve_all_traces requests w : oidc_wf (ow_store w) ->
  exists traces, Forall2 (fun r tr => Forall (fun x => footprint r (fst x)) tr) requests traces /\
    oidc_steps (ow_store w) (concat traces) (ow_store (serve_all requests w)).
Proof.
  unfold serve_all. revert w. induction requests as [|r requests IH]; intros w Hwf; cbn [foldl].
  - exists []. repeat constructor.
  - destruct (serve_transactional r w Hwf) as [(tr & Hs & Hf) Hwf1]. destruct (IH _ Hwf1) as (traces & Hfs & Hss).
    exists (tr :: traces). split; [by constructor|]. cbn [concat]. by eapply steps_trans.
Qed.
End endpoints.

(** ** Texts *)

Lemma base64_url_solid l : Forall byte_range l -> all_solid (base64_url_encode l).
Proof.
  intros Hl%base64_split_range c Hc. unfold base64_url_encode, base64_string in Hc.
  induction Hl as [|v l' Hv _ IH]; [by apply not_elem_of_nil in Hc|]. cbn [foldr chars] in Hc.
  apply elem_of_cons in Hc as [-> |Hc]; [|auto]. clear IH.
  apply (symbol_check 64 (fun v => solid (base64_char true v))); [by vm_compute|done].
Qed.

Lemma hashToken_trim value : TrimSpace (hashToken value) = hashToken value.
Proof. apply TrimSpace_solid, base64_url_solid, sha256_range. Qed.

Lemma of_big_endian_big_endian n z : of_big_endian (big_endian n z) = z mod 2 ^ (8 * Z.of_nat n).
Proof.
  assert (forall acc, foldl (fun acc b => Z.lor (Z.shiftl acc 8) b) acc (big_endian n z) = acc * 2 ^ (8 * Z.of_nat n) + z mod 2 ^ (8 * Z.of_nat n)) as Hf.
  { induction n as [|n IH]; intros acc; cbn [big_endian foldl]; [change (2 ^ (8 * Z.of_nat 0)) with 1; rewrite Z.mod_1_r; lia|].
    rewrite IH, Z.shiftl_mul_pow2 by lia. pose proof (u8_range (Z.shiftr z (8 * Z.of_nat n))) as Hu. unfold byte_range in Hu.
    rewrite lor_add by (change (2 ^ 8) with 256; lia). unfold u8. rewrite Z.shiftr_div_pow2 by lia.
    replace (8 * Z.of_nat (S n)) with (8 * Z.of_nat n + 8) by lia. rewrite Z.pow_add_r by lia.
    assert (0 < 2 ^ (8 * Z.of_nat n)) by (apply Z.pow_pos_nonneg; lia).
    change (2 ^ 8) with 256 in *. rewrite (Z.rem_mul_r z (2 ^ (8 * Z.of_nat n)) 256) by lia. lia. }
  apply Hf.
Qed.

Lemma publicKeyFromJWK_publicJWK point : 0 <= fst point < 2 ^ 256 -> 0 <= snd point < 2 ^ 256 -> publicKeyFromJWK (publicJWK point) = Some point.
Proof.
  intros Hx Hy. unfold publicKeyFromJWK, publicJWK, base64urlUInt. cbn [fst snd]. rewrite !base64_url_decode_encode by apply big_endian_range.
  cbn [mbind option_bind]. rewrite !of_big_endian_big_endian. change (8 * Z.of_nat 32) with 256. rewrite !Z.mod_small by done. by destruct point.
Qed.

Lemma lower_ascii_solid c : solid c = true -> lower_ascii c <> " "%char.
Proof. destruct c as [[] [] [] [] [] [] [] []]; by vm_compute. Qed.

Lemma fold_case_solid s : all_solid s -> " "%char ∉ chars (fold_case s).
Proof.
  induction s as [|c s IH]; intros Hs; [apply not_elem_of_nil|].
  assert (fold_case (String c s) = String (lower_ascii c) (fold_case s)) as ->.
  { assert (solid c = true) as Hc by (apply Hs; by left). cbn [fold_case]. destruct s as [|d [|e s]]; [done| |].
    all: destruct (Ascii.eqb_spec c "197"%char) as [-> |]; [done|]; cbn [andb]; try done.
    destruct (Ascii.eqb_spec c "226"%char) as [-> |]; [done|]. done. }
  cbn [chars]. rewrite not_elem_of_cons. split; [|apply IH; intros d Hd; apply Hs; by right].
  intros He. apply (lower_ascii_solid c); [apply Hs; by left|done].
Qed.

Lemma all_solid_substring n m s : all_solid s -> all_solid (String.substring n m s).
Proof.
  intros Hs. assert (forall c, c ∈ chars (String.substring n m s) -> c ∈ chars s) as Hsub; [|intros c Hc; auto]. clear Hs.
  revert n m. induction s as [|c s IH]; intros [|n] [|m] d; cbn [String.substring chars]; try done.
  - by intros ?%not_elem_of_nil.
  - rewrite !elem_of_cons. intros [-> |Hd]; [by left|right; eauto].
  - intros Hd. right. eauto.
  - intros Hd. right. eauto.
Qed.

(** A compact token is presented as it is. *)
Lemma normalizeOIDCTokenValue_solid token : all_solid token -> normalizeOIDCTokenValue token = token.
Proof.
  intros Ht. unfold normalizeOIDCTokenValue. rewrite (TrimSpace_solid _ Ht). destruct (EqualFold _ _) eqn:He; [|by rewrite andb_false_r].
  apply String.eqb_eq in He. exfalso. apply (fold_case_solid (String.substring 0 7 token)); [by apply all_solid_substring|]. rewrite He. vm_compute.
  do 6 right. left.
Qed.

Lemma tight_suffix p q : tight (p +:+ q) -> tight q.
Proof. induction p as [|c p IH]; [done|]. rewrite append_String. cbn [tight]. intros [_ Ht]. auto. Qed.

(** Nothing is trimmed from a word. *)
Lemma TrimSpace_tight w : tight w -> TrimSpace w = w.
Proof.
  intros Ht. unfold TrimSpace. assert (trim_left w = w) as ->.
  { destruct w as [|c w]; [done|]. cbn [tight] in Ht. destruct Ht as [Hw%space_width_end _]. unfold trim_left.
    cbn [drop_spaces space_width] in *. destruct (space1 c); [done|]. destruct w as [|d w]; [done|]. destruct (space2 c d); [done|].
    destruct w as [|e w]; [done|]. by destruct (space3 c d e). }
  unfold trim_right. rewrite <-(rev_involutive w) at 2. f_equal. rewrite <-(rev_involutive w) in Ht.
  destruct (String.rev w) as [|c r]; [done|]. assert (forall s, String.rev (String c r) = s +:+ String c "" -> space1 c = false) as H1.
  { intros s Hs. rewrite Hs in Ht. apply tight_suffix in Ht. cbn [tight] in Ht. destruct Ht as [Hw _]. rewrite append_String, append_empty in Hw.
    cbn [space_width] in Hw. by destruct (space1 c). }
  cbn [drop_spaces]. rewrite (H1 _ (rev_String c r)). destruct r as [|d r]; [done|].
  rewrite !rev_String, cat_assoc in Ht. change (String d "" +:+ String c "") with (String d (String c "")) in Ht. destruct r as [|e r].
  - change (String.rev "" +:+ ?t) with t in Ht. cbn [tight] in Ht. destruct Ht as [Hw%space_width_end _]. cbn [space_width] in Hw.
    destruct (space1 d); [done|]. by destruct (space2 d c).
  - rewrite rev_String, cat_assoc in Ht. change (String e "" +:+ ?t) with (String e t) in Ht. apply tight_suffix in Ht. cbn [tight] in Ht.
    destruct Ht as [Hw%space_width_end [Hv%space_width_end _]]. cbn [space_width] in Hw, Hv.
    destruct (space1 d); [done|]. destruct (space2 d c); [done|]. destruct (space1 e); [done|]. destruct (space2 e d); [done|]. by destruct (space3 e d c).
Qed.

(** ** Scopes *)

Lemma containsString_spec values value : containsString values value = true <-> TrimSpace value ∈ values.
Proof.
  unfold containsString. rewrite existsb_exists. setoid_rewrite <-list_elem_of_In. split.
  - by intros (x & Hx & ->%String.eqb_eq).
  - intros Hv. exists (TrimSpace value). by rewrite String.eqb_refl.
Qed.

Lemma elem_of_compact_from seen values x : x ∈ compact_from seen values <-> (x ∉ seen) /\ x <> "" /\ exists v, v ∈ values /\ x = TrimSpace v.
Proof.
  revert seen. induction values as [|v values IH]; intros seen; cbn [compact_from].
  - split; [by intros ?%not_elem_of_nil|]. intros (_ & _ & v & Hv & _). by apply not_elem_of_nil in Hv.
  - setoid_rewrite elem_of_cons. unfold str_empty. destruct (String.eqb_spec (TrimSpace v) "") as [He|He]; cbn [orb].
    + rewrite IH. split; [naive_solver|]. intros (H1 & H2 & u & [-> |Hu] & ->); [done|eauto].
    + case_bool_decide as Hs.
      * rewrite IH. split; [naive_solver|]. intros (H1 & H2 & u & [-> |Hu] & ->); [done|eauto].
      * rewrite elem_of_cons, IH. split.
        -- intros [-> |(H1 & H2 & u & Hu & ->)]; [eauto 10|]. set_solver.
        -- intros (H1 & H2 & u & [-> |Hu] & ->); [auto|]. destruct (decide (TrimSpace u = TrimSpace v)); [auto|]. right. set_solver.
Qed.

Lemma elem_of_compactStrings values x : x ∈ compactStrings values <-> x <> "" /\ exists v, v ∈ values /\ x = TrimSpace v.
Proof. unfold compactStrings. rewrite elem_of_compact_from. set_solver. Qed.

(** The scopes that a client may be granted: the listed ones (or the default
    ones for an empty list), and always [openid]. *)
Definition grantable (allowed : list string) (x : string) : Prop :=
  x = "openid" \/ (x <> "" /\ exists v, v ∈ allowed /\ x = TrimSpace v) \/
  ((forall v, v ∈ allowed -> TrimSpace v = "") /\ (x = "profile" \/ x = "email")).

Lemma elem_of_normalizeAllowedScopes allowed x : x ∈ normalizeAllowedScopes allowed <-> grantable allowed x.
Proof.
  unfold normalizeAllowedScopes, grantable. rewrite elem_of_sort_strings. cbn zeta.
  destruct (compactStrings allowed) as [|y l] eqn:Hc; cbn [is_empty].
  - assert (forall v, v ∈ allowed -> TrimSpace v = "") as Hall.
    { intros v Hv. destruct (decide (TrimSpace v = "")) as [|Hn]; [done|]. exfalso.
      apply (not_elem_of_nil (TrimSpace v)). rewrite <-Hc. apply elem_of_compactStrings. eauto. }
    change (containsString ["openid"; "profile"; "email"] "openid") with true. cbn [negb]. split.
    + rewrite !elem_of_cons. intros [?|[?|[?|?%not_elem_of_nil]]]; [auto 8..|done].
    + intros [-> |[(Hx & v & Hv & ->)|(_ & [-> | ->])]]; [set_solver| |set_solver|set_solver]. by rewrite Hall in Hx.
  - assert (x ∈ y :: l <-> x <> "" /\ exists v, v ∈ allowed /\ x = TrimSpace v) as Hx by (rewrite <-Hc; apply elem_of_compactStrings).
    assert (~ (forall v, v ∈ allowed -> TrimSpace v = "")) as Hsome.
    { intros Hall. assert (y ∈ compactStrings allowed) as (Hy & v & Hv & ->)%elem_of_compactStrings by (rewrite Hc; by left). by rewrite Hall in Hy. }
    destruct (containsString (y :: l) "openid") eqn:Ho; cbn [negb].
    + apply containsString_spec in Ho. change (TrimSpace "openid") with "openid" in Ho. rewrite Hx. split; [tauto|].
      intros [-> |[?|[? _]]]; [by apply Hx|done|done].
    + rewrite elem_of_app, Hx, list_elem_of_singleton. tauto.
Qed.

Lemma requested_scopes scope allowed scopes : normalizeRequestedScopes scope allowed = Ok scopes ->
  StronglySorted String.le scopes /\ "openid" ∈ scopes /\ (forall x, x ∈ scopes -> grantable allowed x) /\
  (forall x, x ∈ scopes <-> if is_empty (Fields scope) then x = "openid" else x ∈ Fields scope).
Proof.
  unfold normalizeRequestedScopes. set (requested := if is_empty (compactStrings _) then _ else _).
  destruct (containsString requested "openid") eqn:Ho; [|done]. destruct (existsb _ requested) eqn:Ha; [done|]. intros [= <-]. cbn [negb].
  apply containsString_spec in Ho. change (TrimSpace "openid") with "openid" in Ho. setoid_rewrite elem_of_sort_strings.
  assert (forall x, x ∈ requested <-> if is_empty (Fields scope) then x = "openid" else x ∈ Fields scope) as Hr.
  { intros x. assert (forall x, x ∈ compactStrings (Fields scope) <-> x ∈ Fields scope) as Hc.
    { intros y. rewrite elem_of_compactStrings. split.
      - intros (_ & v & Hv & ->). destruct (Fields_words scope v Hv) as [_ Ht]. by rewrite TrimSpace_tight.
      - intros Hy. destruct (Fields_words scope y Hy) as [Hne Ht]. split; [done|]. exists y. by rewrite TrimSpace_tight. }
    unfold requested. destruct (Fields scope) as [|y l] eqn:Hf; cbn [is_empty].
    - change (compactStrings []) with (@nil string). cbn [is_empty]. apply list_elem_of_singleton.
    - destruct (compactStrings (y :: l)) as [|z k] eqn:Hk; cbn [is_empty]; [|by rewrite <-(Hc x)].
      exfalso. apply (not_elem_of_nil y), Hc. by left. }
  split_and!; [apply sort_strings_sorted|done| |exact Hr].
  intros x Hx. apply elem_of_normalizeAllowedScopes. destruct (containsString (normalizeAllowedScopes allowed) x) eqn:Hx2.
  - apply containsString_spec in Hx2. assert (TrimSpace x = x) as Ht; [|by rewrite Ht in Hx2]. apply TrimSpace_tight. apply Hr in Hx.
    destruct (is_empty (Fields scope)); [subst x; vm_compute; by repeat split|by destruct (Fields_words scope x Hx)].
  - exfalso. apply not_true_iff_false in Ha. apply Ha, existsb_exists. exists x. rewrite <-list_elem_of_In, Hx2. done.
Qed.

(** ** What a call that succeeds did *)

Lemma oquery_Ok {A} (q : OidcStore -> result A) w a w' : oquery q w = (Ok a, w') -> q (ow_store w) = Ok a /\ w' = w.
Proof. by intros [= -> <-]. Qed.
Lemma ocheck_Ok q w a w' : ocheck q w = (Ok a, w') -> q = None /\ w' = w.
Proof. unfold ocheck. destruct q; [done|]. by intros [= _ <-]. Qed.
Lemma in_oidc_Ok {A} (m : oidc_store A) w a w' : in_oidc m w = (Ok a, w') -> m (ow_store w) = (Ok a, ow_store w').
Proof. unfold in_oidc. destruct (m (ow_store w)) as [r s]. by intros [= -> <-]. Qed.
Lemma in_oidc_wrap_Ok {A} f (m : oidc_store A) w a w' :
  (let '(r, w) := in_oidc m w in (map_err f r, w)) = (Ok a, w') -> m (ow_store w) = (Ok a, ow_store w').
Proof. destruct (in_oidc m w) as [r w1] eqn:Hm. intros [= ->%map_err_Ok <-]. by apply in_oidc_Ok in Hm. Qed.

(** One statement of a call that succeeded. *)
Tactic Notation "statement" hyp(H) "as" ident(a) ident(w1) ident(Hs) :=
  apply gbind_Ok in H as (a & w1 & Hs & H);
  lazymatch type of Hs with
  | oquery _ _ = _ => apply oquery_Ok in Hs as [Hs ->]
  | glift _ _ = _ => apply glift_Ok in Hs as [Hs ->]
  | ocheck _ _ = _ => apply ocheck_Ok in Hs as [Hs ->]
  | in_oidc _ _ = _ => apply in_oidc_Ok in Hs
  | (let '(_, _) := in_oidc _ _ in _) = _ => apply in_oidc_wrap_Ok in Hs
  | _ => idtac
  end.

Section flow.
Context `{CatalogSource, MapRange, OidcDatabase, Cipher, OidcDeps, Es256, UserRepository}.
Context (keys : Ring) (encryptionKey : string) (permissions : PermissionResolver) (audited : bool).

Lemma recordAudit_store principal action res provider clientID metadata w r w' :
  recordAudit audited principal action res provider clientID metadata w = (r, w') -> ow_store w' = ow_store w.
Proof. unfold recordAudit. destruct audited; by intros [= _ <-]. Qed.

(** Signing changes no table but the keys. *)
Definition same_tables (s s' : OidcStore) : Prop :=
  od_codes s' = od_codes s /\ od_sessions s' = od_sessions s /\ od_tokens s' = od_tokens s /\ od_platform s' = od_platform s.

Lemma ensureSigningKey_same e now providerID w r w' : ensureSigningKey keys encryptionKey e now providerID w = (r, w') ->
  same_tables (ow_store w) (ow_store w').
Proof.
  unfold ensureSigningKey. destruct (repo_GetActiveSigningKey _ _) as [key|err]; [by intros [= _ <-]|].
  destruct (negb _); [by intros [= _ <-]|]. unfold gbind, glift. destruct (generateSigningKey _ _ _ _ _) as [g|]; [|by intros [= _ <-]].
  unfold in_oidc, repo_CreateSigningKey, gbind. destruct (insert_key _ _) as [x s1] eqn:Hi.
  apply insert_key_cases in Hi as [-> | ->]; destruct x; [destruct (repo_GetActiveSigningKey _ _)| |destruct (repo_GetActiveSigningKey _ _)|]; by intros [= _ <-].
Qed.

Lemma issue_same clock e issuer provider client principal sessionID scopes nonce authTime now w r w' :
  issueOIDCTokenResponse keys encryptionKey clock e issuer provider client principal sessionID scopes nonce authTime now w = (r, w') ->
  same_tables (ow_store w) (ow_store w').
Proof.
  unfold issueOIDCTokenResponse, gbind. destruct (ensureSigningKey _ _ _ _ _ w) as [x w1] eqn:He. apply ensureSigningKey_same in He.
  destruct x as [[k pk]|err]; [|by intros [= _ <-]]. unfold glift, gret. destruct (signOIDCToken _ _ _); [|by intros [= _ <-]].
  destruct (signOIDCToken _ _ _); by intros [= _ <-].
Qed.

(** A granted request. *)
Record granted (clock : nat -> Z) (sourceIP : string) (principal : Principal) (input : AuthorizeInput) (s : OidcStore) (grant : AuthorizeResult)
    (client : OIDCClient) (provider : Provider) (application : Application) (scopes : list string) (code : AuthorizationCode) : Prop := {
  granted_client : repo_GetOIDCClientByClientID (AuthorizeInput_ClientID input) s = Ok client;
  granted_provider : repo_GetProvider (OIDCClient_ProviderID client) s = Ok provider;
  granted_application : repo_GetProviderApplication (Provider_ID provider) s = Ok application;
  granted_enabled : clientEnabled client = true;
  granted_user : blank (Principal_UserID principal) = false;
  granted_redirect : redirectURIAllowed client (TrimSpace (AuthorizeInput_RedirectURI input)) = true;
  granted_age : validateAuthenticationAge (clock 0%nat) principal (AuthorizeInput_PlatformSessionID input) (AuthorizeInput_MaxAge input) s = None;
  granted_access : validateProviderAccess (clock 1%nat) sourceIP principal provider application (AuthorizeInput_PlatformSessionID input) s = None;
  granted_scopes : normalizeRequestedScopes (AuthorizeInput_Scope input) (OIDCClient_AllowedScopes client) = Ok scopes;
  granted_pkce : OIDCClient_RequirePKCE client = true -> TrimSpace (AuthorizeInput_CodeChallenge input) <> "";
  granted_code : exists e issuer, code = stored_code (new_code e (clock 2%nat) issuer principal client provider input scopes (AuthorizeResult_Code grant))
}.

Lemma Authorize_granted clock e sourceIP issuer principal input w grant w' :
  Authorize audited clock e sourceIP issuer principal input w = (Ok (AuthorizeGranted grant), w') ->
  exists client provider application scopes code,
    granted clock sourceIP principal input (ow_store w) grant client provider application scopes code /\
    AuthorizeResult_RedirectURI grant = TrimSpace (AuthorizeInput_RedirectURI input) /\
    od_codes (ow_store w') = <[hashToken (AuthorizeResult_Code grant) := code]> (od_codes (ow_store w)).
Proof.
  unfold Authorize. intros Ha. apply gbind_Ok in Ha as ([[client provider] application] & w0 & Hres & Ha).
  unfold resolveAuthorizeClient in Hres. statement Hres as client0 w1 S. destruct (clientEnabled _) eqn:Hen; [|done]. cbn [negb] in Hres.
  destruct (containsString _ _); [|done]. cbn [negb] in Hres. statement Hres as provider0 w2 S0. statement Hres as app0 w3 S1. apply gret_Ok in Hres as [[= -> -> ->] ->].
  destruct (redirectURIAllowed _ _) eqn:Hredir; [|done]. cbn [negb] in Ha. cbn zeta in Ha.
  destruct (negb _ && negb _); [done|]. destruct (negb _ && negb _ && negb _); [done|].
  destruct (blank (Principal_UserID principal)) eqn:Huser; [by destruct (String.eqb _ "none")|].
  destruct (String.eqb _ "login"); [done|]. statement Ha as age w1 S2. injection S2 as <-. destruct (validateAuthenticationAge _ _ _ _ _) eqn:Hage; [done|].
  destruct (negb _); [done|]. statement Ha as den w1 S2. injection S2 as <-. destruct (validateProviderAccess _ _ _ _ _ _ _) eqn:Hacc.
  { apply gbind_Ok in Ha as (? & ? & _ & Ha). done. }
  destruct (normalizeRequestedScopes _ _) as [scopes|] eqn:Hsc; [|done]. destruct (validateAuthorizePKCE _ _ _) eqn:Hpk; [done|].
  unfold grant_authorization in Ha. statement Ha as rawCode w2 S2. statement Ha as u w3 S3. statement Ha as u' w4 Hau. apply gret_Ok in Ha as [[= <-] ->].
  apply recordAudit_store in Hau. rewrite Hau. unfold repo_CreateAuthorizationCode in S3. destruct (code_admissible _ _); [|done].
  injection S3 as _ <-. exists client, provider, application, scopes. eexists. split_and!; [|done|reflexivity].
  split; try done; [|eauto]. intros Hreq. unfold validateAuthorizePKCE in Hpk. rewrite Hreq in Hpk. cbn [negb] in Hpk.
  unfold blank, str_empty in Hpk. by destruct (String.eqb_spec (TrimSpace (AuthorizeInput_CodeChallenge input)) "").
Qed.

(** A code that is there and not consumed, and that no step stored, was there before. *)
Lemma code_steps_kept s tr s' h c : oidc_steps s tr s' -> occurrences (creates_code h) tr = 0%nat ->
  od_codes s' !! h = Some c -> unset (AuthorizationCode_ConsumedAt c) = true -> od_codes s !! h = Some c.
Proof.
  induction 1 as [s|s o ok s1 tr s2 _ Hrun Hsteps IH|s s1 tr s2 Henv Hsteps IH]; intros Hno Hc Hu; [done| |].
  - rewrite occurrences_cons in Hno. destruct (creates_code h (o, ok)) eqn:Hcr; [lia|].
    apply oidc_op_change in Hrun as [Hch _ _ _]. destruct (Hch h c) as [[? _]|[_ ?]]; [apply IH; [lia|done..]|done..|congruence].
  - destruct Henv as [Hsub _ _]. eapply lookup_weaken; [by apply IH|done].
Qed.

(** A successful exchange of a code. *)
Record exchanged (clock : nat -> Z) (e : OidcEntropy) (input : TokenInput) (s s' : OidcStore) (response : TokenResponse)
    (code : AuthorizationCode) (client : OIDCClient) (user : Principal) : Prop := {
  exchanged_code : od_codes s !! hashToken (TokenInput_Code input) = Some code;
  exchanged_fresh : AuthorizationCode_ConsumedAt code = None;
  exchanged_time : clock 0%nat < AuthorizationCode_ExpiresAt code;
  exchanged_client : repo_GetOIDCClientByClientID (AuthorizationCode_ClientID code) s = Ok client;
  exchanged_provider : exists provider, repo_GetProvider (OIDCClient_ProviderID client) s = Ok provider /\
    Provider_ID provider = AuthorizationCode_ProviderID code /\ providerEnabled provider = true;
  exchanged_enabled : clientEnabled client = true;
  exchanged_named : TrimSpace (TokenInput_ClientID input) = "" \/ TrimSpace (TokenInput_ClientID input) = OIDCClient_ClientID client;
  exchanged_redirect : TrimSpace (TokenInput_RedirectURI input) = AuthorizationCode_RedirectURI code;
  exchanged_registered : redirectURIAllowed client (TokenInput_RedirectURI input) = true;
  exchanged_secret : OIDCClient_ClientType client = OIDCClientTypePublic /\ OIDCClient_RequirePKCE client = true \/
    OIDCClient_ClientType client <> OIDCClientTypePublic /\
    bcrypt_Compare (OIDCClient_ClientSecretHash client) (TrimSpace (TokenInput_ClientSecret input)) = true;
  exchanged_verifier : TrimSpace (AuthorizationCode_CodeChallenge code) <> "" ->
    base64_url_encode (sha256 (bytes_of (TrimSpace (TokenInput_CodeVerifier input)))) = TrimSpace (AuthorizationCode_CodeChallenge code);
  exchanged_user : loadPrincipal (AuthorizationCode_UserID code) = Ok user;
  exchanged_session : exists x, od_sessions s' !! oe_uuid e 0 = Some x /\ OIDCSession_UserID x = Principal_UserID user /\
    OIDCSession_ClientID x = OIDCClient_ClientID client /\ OIDCSession_Scopes x = AuthorizationCode_Scopes code /\ OIDCSession_RevokedAt x = None;
  exchanged_scope : TokenResponse_Scope response = Join (AuthorizationCode_Scopes code) " ";
  exchanged_consumed : od_codes s' = <[hashToken (TokenInput_Code input) := consume_code (clock 0%nat) code]> (od_codes s)
}.

Lemma verifyClientSecret_None client secret : verifyClientSecret client secret = None ->
  OIDCClient_ClientType client = OIDCClientTypePublic /\ OIDCClient_RequirePKCE client = true \/
  OIDCClient_ClientType client <> OIDCClientTypePublic /\ bcrypt_Compare (OIDCClient_ClientSecretHash client) (TrimSpace secret) = true.
Proof.
  unfold verifyClientSecret. destruct (String.eqb_spec (OIDCClient_ClientType client) OIDCClientTypePublic) as [Hp|Hp].
  - destruct (OIDCClient_RequirePKCE client); [auto|done].
  - destruct (blank _); [done|]. destruct (str_empty _); [done|]. destruct (bcrypt_Compare _ _); [auto|done].
Qed.

Lemma verifyPKCE_None code verifier : verifyPKCE code verifier = None -> TrimSpace (AuthorizationCode_CodeChallenge code) <> "" ->
  base64_url_encode (sha256 (bytes_of (TrimSpace verifier))) = TrimSpace (AuthorizationCode_CodeChallenge code).
Proof.
  unfold verifyPKCE. intros Hv Hne. unfold str_empty at 1 in Hv. rewrite (proj2 (String.eqb_neq _ _) Hne) in Hv.
  destruct (str_empty _); [done|]. destruct (String.eqb _ "S256"); [|done]. destruct (String.eqb (base64_url_encode _) _) eqn:Hh; [by apply String.eqb_eq in Hh|done].
Qed.

Lemma code_exchanged clock e issuer input w response w' :
  tokenAuthorizationCode keys encryptionKey audited clock e issuer input w = (Ok response, w') ->
  exists code client user, exchanged clock e input (ow_store w) (ow_store w') response code client user.
Proof.
  unfold tokenAuthorizationCode. intros Ht. statement Ht as code w0 Sc. statement Ht as client w0 Scl. statement Ht as provider w0 Sp.
  statement Ht as u1 w0 Sv. statement Ht as u2 w0 Ss. statement Ht as u3 w0 Sk. statement Ht as consumed w1 Sco. statement Ht as user w0 Su.
  statement Ht as refresh w0 Sr. statement Ht as u w2 Sse.
  unfold repo_GetAuthorizationCode in Sc. rewrite hashToken_trim in Sc. destruct (od_codes (ow_store w) !! _) as [c|] eqn:Hc; [|done].
  destruct (code_live _ c) eqn:Hl; [|done]. injection Sc as ->. unfold repo_ConsumeAuthorizationCode in Sco.
  rewrite hashToken_trim, Hc, Hl in Sco. injection Sco as <- Hw1.
  apply create_session_cases in Sse as [(err & [=] & _)|(_ & _ & Hcodes & Hsess & _)].
  destruct (issueOIDCTokenResponse _ _ _ _ _ _ _ _ _ _ _ _ _ w2) as [[r|err] w3] eqn:Hi; [|by statement Ht as u4 w4 S].
  statement Ht as u4 w4 Sa. apply gret_Ok in Ht as [<- ->]. apply recordAudit_store in Sa.
  pose proof (issue_same _ _ _ _ _ _ _ _ _ _ _ _ _ _ Hi) as (Hcd & Hss & _). rewrite Sa.
  unfold code_live in Hl. apply andb_true_iff in Hl as [Hu%unset_None Hl%Z.ltb_lt].
  unfold validateAuthorizationCodeClient in Sv. destruct (String.eqb_spec (Provider_ID provider) (AuthorizationCode_ProviderID code)) as [Hpid|]; [|done].
  destruct (clientEnabled client) eqn:Hce; [|done]. destruct (providerEnabled provider) eqn:Hpe; [|done]. cbn [negb orb] in Sv.
  destruct (containsString _ _); [|done]. cbn [negb] in Sv. destruct (_ && negb _) eqn:Hid; [done|].
  destruct (String.eqb_spec (TrimSpace (TokenInput_RedirectURI input)) (AuthorizationCode_RedirectURI code)) as [Hre|]; [|done].
  destruct (redirectURIAllowed _ _) eqn:Hra; [|done].
  exists code, client, user. split; try done; eauto using verifyPKCE_None, verifyClientSecret_None.
  - unfold str_empty in Hid. destruct (String.eqb_spec (TrimSpace (TokenInput_ClientID input)) ""); [auto|]. cbn [negb andb] in Hid.
    apply negb_false_iff, String.eqb_eq in Hid. auto.
  - exists (stored_session (code_session e (clock 0%nat) provider client user (consume_code (clock 0%nat) code))).
    rewrite Hss, Hsess. cbn [code_session OIDCSession_ID]. by rewrite lookup_insert_eq.
  - unfold issueOIDCTokenResponse in Hi. statement Hi as found w5 Se. destruct found as [sk pk]. statement Hi as at1 w6 S1. statement Hi as it w7 S2.
    apply gret_Ok in Hi as [<- _]. done.
  - by rewrite Hcd, Hcodes, <-Hw1.
Qed.

Lemma provider_access now sourceIP principal provider application sessionID s :
  validateProviderAccess now sourceIP principal provider application sessionID s = None ->
  providerEnabled provider = true /\ Provider_Type provider = ProviderTypeOIDC /\ Application_Status application = ApplicationStatusEnabled /\
  exists mfa, CanAccessApplicationWithContext principal application
      {| Access_SourceIP := sourceIP; Access_MFAAuthenticated := mfa; Access_Now := now |} = true /\
    (mfa = true -> exists p, od_platform s !! sessionID = Some p /\ metadataMFA (PlatformSession_Metadata p) = true).
Proof.
  unfold validateProviderAccess. destruct (providerEnabled provider); [|done]. cbn [negb orb].
  destruct (String.eqb_spec (Provider_Type provider) ProviderTypeOIDC); [|done]. cbn [negb].
  destruct (String.eqb_spec (Application_Status application) ApplicationStatusEnabled); [|done]. cbn [negb].
  set (mfa := if negb (blank sessionID) then _ else _). unfold applicationPolicyAccessError.
  destruct (CanAccessApplicationWithContext _ _ _) eqn:Hc; [|by destruct (_ && _ && _)]. intros _. split_and!; [done..|].
  exists mfa. split; [done|]. unfold mfa, repo_GetAuthSessionByID. destruct (negb _); [|done]. destruct (od_platform s !! sessionID) as [p|]; [eauto|done].
Qed.

(** What the exchange of a code shows about the request that it came from. *)
Record flow_sound (clock clock' : nat -> Z) (e' : OidcEntropy) (sourceIP : string) (principal : Principal) (input : AuthorizeInput) (tin : TokenInput)
    (s s2 s3 : OidcStore) (response : TokenResponse) (client client' : OIDCClient) (provider : Provider) (application : Application) (scopes : list string)
    (user : Principal) : Prop := {
  flow_client : repo_GetOIDCClientByClientID (AuthorizeInput_ClientID input) s = Ok client;
  flow_provider : repo_GetProvider (OIDCClient_ProviderID client) s = Ok provider /\ providerEnabled provider = true /\ Provider_Type provider = ProviderTypeOIDC;
  flow_application : repo_GetProviderApplication (Provider_ID provider) s = Ok application /\ Application_Status application = ApplicationStatusEnabled;
  flow_access : exists mfa, CanAccessApplicationWithContext principal application
      {| Access_SourceIP := sourceIP; Access_MFAAuthenticated := mfa; Access_Now := clock 1%nat |} = true /\
    (mfa = true -> exists p, od_platform s !! AuthorizeInput_PlatformSessionID input = Some p /\ metadataMFA (PlatformSession_Metadata p) = true);
  flow_client' : repo_GetOIDCClientByClientID (OIDCClient_ClientID client) s2 = Ok client';
  flow_provider' : exists provider', repo_GetProvider (OIDCClient_ProviderID client') s2 = Ok provider' /\
    Provider_ID provider' = Provider_ID provider /\ providerEnabled provider' = true;
  flow_enabled : clientEnabled client = true /\ clientEnabled client' = true;
  flow_named : TrimSpace (TokenInput_ClientID tin) = "" \/ TrimSpace (TokenInput_ClientID tin) = OIDCClient_ClientID client';
  flow_secret : OIDCClient_ClientType client' = OIDCClientTypePublic /\ OIDCClient_RequirePKCE client' = true \/
    OIDCClient_ClientType client' <> OIDCClientTypePublic /\
    bcrypt_Compare (OIDCClient_ClientSecretHash client') (TrimSpace (TokenInput_ClientSecret tin)) = true;
  flow_redirect : TrimSpace (TokenInput_RedirectURI tin) = TrimSpace (AuthorizeInput_RedirectURI input) /\
    redirectURIAllowed client (TrimSpace (AuthorizeInput_RedirectURI input)) = true;
  flow_verifier : OIDCClient_RequirePKCE client = true \/ TrimSpace (AuthorizeInput_CodeChallenge input) <> "" ->
    base64_url_encode (sha256 (bytes_of (TrimSpace (TokenInput_CodeVerifier tin)))) = TrimSpace (AuthorizeInput_CodeChallenge input);
  flow_time : clock' 0%nat < clock 2%nat + 300 * 1000000000;
  flow_authenticated : TrimSpace (Principal_UserID principal) <> "";
  flow_requested : "openid" ∈ scopes /\
    forall x, x ∈ scopes <-> if is_empty (Fields (AuthorizeInput_Scope input)) then x = "openid" else x ∈ Fields (AuthorizeInput_Scope input);
  flow_scopes : (forall x, x ∈ scopes -> grantable (OIDCClient_AllowedScopes client) x) /\ TokenResponse_Scope response = Join scopes " ";
  flow_user : loadPrincipal (Principal_UserID principal) = Ok user;
  flow_session : exists x, od_sessions s3 !! oe_uuid e' 0 = Some x /\ OIDCSession_UserID x = Principal_UserID user /\
    OIDCSession_ClientID x = OIDCClient_ClientID client' /\ OIDCSession_Scopes x = scopes /\ OIDCSession_RevokedAt x = None;
  flow_spent : forall now, exists err, repo_GetAuthorizationCode (hashToken (TokenInput_Code tin)) now s3 = Err err
}.

(** C6. The authorization code flow is sound.  When a code that [Authorize]
    granted is exchanged for tokens, whatever happened in between: the client of
    the request was found enabled both times and is authenticated, by its secret
    or as a public client that must use PKCE; the provider of that client is an
    enabled OIDC provider, still the client's and enabled at the exchange; the
    user was signed in, and the policy of the application of that provider, which
    is enabled, let them in from their address at that time; the redirect URI is
    the one of the request, which was registered; the verifier hashes to the
    challenge whenever the client requires PKCE or a challenge was given; less
    than five minutes passed; the tokens carry exactly the scopes that the request
    asked for ([openid] among them, and alone when it asked for none), all of which
    the client may have; a live session of that user and client with those scopes
    is stored, and the code is spent. *)
Theorem authorization_code_flow clock e sourceIP issuer principal input w grant w1 tr w2 clock' e' issuer' tin response w3 :
  Authorize audited clock e sourceIP issuer principal input w = (Ok (AuthorizeGranted grant), w1) ->
  oidc_steps (ow_store w1) tr (ow_store w2) ->
  occurrences (creates_code (hashToken (AuthorizeResult_Code grant))) tr = 0%nat ->
  TrimSpace (TokenInput_GrantType tin) = "authorization_code" -> TokenInput_Code tin = AuthorizeResult_Code grant ->
  Token keys encryptionKey audited clock' e' issuer' tin w2 = (Ok response, w3) ->
  exists client client' provider application scopes user,
    flow_sound clock clock' e' sourceIP principal input tin (ow_store w) (ow_store w2) (ow_store w3) response client client' provider application scopes user.
Proof.
  intros Ha Hsteps Hno Hgt Hcode Ht. apply Authorize_granted in Ha as (client & provider & application & scopes & code & G & _ & Hcodes).
  unfold Token in Ht. rewrite Hgt in Ht. apply code_exchanged in Ht as (code' & client' & user & X).
  assert (code' = code) as ->.
  { pose proof (exchanged_code _ _ _ _ _ _ _ _ _ X) as Hc. rewrite Hcode in Hc. eapply code_steps_kept in Hc; [|done|done|].
    - rewrite Hcodes, lookup_insert_eq in Hc. congruence.
    - apply unset_None, (exchanged_fresh _ _ _ _ _ _ _ _ _ X). }
  destruct (granted_code _ _ _ _ _ _ _ _ _ _ _ G) as (e0 & issuer0 & ->).
  exists client, client', provider, application, scopes, user. destruct X, G. cbn [stored_code new_code AuthorizationCode_ClientID AuthorizationCode_RedirectURI
    AuthorizationCode_ProviderID AuthorizationCode_CodeChallenge AuthorizationCode_ExpiresAt AuthorizationCode_UserID AuthorizationCode_Scopes] in *.
  unfold nullableString in *. rewrite !TrimSpace_idem in *. apply provider_access in granted_access0 as (Hen & Hty & Hst & Hacc).
  apply requested_scopes in granted_scopes0 as (_ & Hopen & Hall & Hreqd).
  split; try done; auto.
  - intros [Hreq|Hne]; auto.
  - intros Hb. unfold blank, str_empty in granted_user0. by rewrite Hb in granted_user0.
  - intros now. unfold repo_GetAuthorizationCode. rewrite hashToken_trim, exchanged_consumed0, lookup_insert_eq. cbn. eauto.
Qed.
End flow.

(** ** The service over a list of requests *)

Section served.
Context `{CatalogSource, MapRange, OidcDatabase, Cipher, OidcDeps, Es256, UserRepository}.
Context (keys : Ring) (encryptionKey : string) (permissions : PermissionResolver) (audited : bool).

(** The request presents the code with this hash and gets tokens for it. *)
Definition exchange_succeeds (h : string) (r : oidc_request) (w : OidcWorld) : bool :=
  match r with
  | ReqToken clock e issuer input =>
      String.eqb (TrimSpace (TokenInput_GrantType input)) "authorization_code" && String.eqb (hashToken (TokenInput_Code input)) h &&
      succeeded (fst (Token keys encryptionKey audited clock e issuer input w))
  | _ => false
  end.

(** The request draws the code with this hash. *)
Definition draws_code (h : string) (r : oidc_request) : bool :=
  match r with
  | ReqAuthorize _ e _ _ _ _ => match randomToken (oe_bytes e 0 32) with Ok raw => String.eqb (hashToken raw) h | Err _ => false end
  | _ => false
  end.

Abbreviation serve1 := (serve keys encryptionKey permissions audited).

Fixpoint exchanges (h : string) (requests : list oidc_request) (w : OidcWorld) : nat :=
  match requests with
  | [] => 0
  | r :: rest => (if exchange_succeeds h r w then 1 else 0) + exchanges h rest (serve1 r w)
  end.

(** A request that does not draw the code stores no code with its hash. *)
Lemma footprint_creates h r tr : draws_code h r = false -> Forall (fun x => footprint r (fst x)) tr -> occurrences (creates_code h) tr = 0%nat.
Proof.
  intros Hd. induction 1 as [|[o ok] tr Ho _ IH]; [done|]. rewrite occurrences_cons, IH. unfold creates_code. cbn [fst snd] in *.
  destruct o as [item| | | | |]; cbn [fst snd]; rewrite ?andb_false_r; try done. destruct r; try done. destruct Ho as (_ & raw & Hraw & Hh).
  cbn [draws_code] in Hd. rewrite Hraw in Hd. rewrite Hh, Hd. by rewrite andb_false_r.
Qed.

Lemma serve_code h r w : oidc_wf (ow_store w) ->
  ((if exchange_succeeds h r w then 1 else 0) + fresh_code h (ow_store (serve1 r w)) <=
   fresh_code h (ow_store w) + (if draws_code h r then 1 else 0))%nat.
Proof.
  intros Hwf. destruct (exchange_succeeds h r w) eqn:Hx.
  - destruct r as [|clock e issuer input| | | | | | | | | | |]; try done. cbn [exchange_succeeds] in Hx. rewrite !andb_true_iff, !String.eqb_eq in Hx.
    destruct Hx as [[Hg Hh] Hs]. unfold Token in Hs. cbn [serve]. unfold Token. rewrite Hg in Hs |- *.
    change (String.eqb "authorization_code" "authorization_code") with true in Hs |- *. cbn iota in Hs |- *.
    destruct (tokenAuthorizationCode keys encryptionKey audited clock e issuer input w) as [[response|] w'] eqn:Ht; [|done]. apply code_exchanged in Ht as (code & client & user & X).
    cbn [snd]. unfold fresh_code. rewrite <-Hh, (exchanged_code _ _ _ _ _ _ _ _ _ X), (exchanged_consumed _ _ _ _ _ _ _ _ _ X), lookup_insert_eq.
    rewrite (exchanged_fresh _ _ _ _ _ _ _ _ _ X). cbn. lia.
  - destruct (serve_transactional keys encryptionKey permissions audited r w Hwf) as [(tr & Hs & Hf) _]. destruct (draws_code h r) eqn:Hd.
    + assert (fresh_code h (ow_store (serve1 r w)) <= 1)%nat by (unfold fresh_code; repeat case_match; lia). lia.
    + pose proof (code_count _ _ _ h Hs) as Hc. rewrite (footprint_creates h r tr Hd Hf) in Hc. lia.
Qed.

(** C11. The service refines the transactions of its store, request by request:
    serving a list of requests changes the tables by the concatenation of one
    trace per request, each made of transactions in the footprint of its
    request (a code is stored only by an authorization, for its own principal
    and under the hash of the code it drew; consumed only by a token request
    that presents it; a refresh token is rotated only by the request that
    presents it; a revocation only reaches the sessions of the client that
    authenticated; every other endpoint runs none).  So, end to end, the token
    requests that succeed with a code are at most as many as the authorizations
    that drew it, and the ones that were open at the start. *)
Theorem service_refines_store requests w h : oidc_wf (ow_store w) ->
  (exists traces, Forall2 (fun r tr => Forall (fun x => footprint r (fst x)) tr) requests traces /\
     oidc_steps (ow_store w) (concat traces) (ow_store (serve_all keys encryptionKey permissions audited requests w))) /\
  (exchanges h requests w + fresh_code h (ow_store (serve_all keys encryptionKey permissions audited requests w)) <=
   fresh_code h (ow_store w) + length (List.filter (draws_code h) requests))%nat.
Proof.
  intros Hwf. split; [by apply serve_all_traces|]. unfold serve_all. revert w Hwf.
  induction requests as [|r requests IH]; intros w Hwf; cbn [foldl exchanges List.filter]; [cbn; lia|].
  destruct (serve_transactional keys encryptionKey permissions audited r w Hwf) as [_ Hwf1]. specialize (IH _ Hwf1).
  pose proof (serve_code h r w Hwf). destruct (draws_code h r); cbn [length]; lia.
Qed.
End served.

(** ** Tokens are accepted until their session ends *)

Section tokens.
Context `{CatalogSource, MapRange, OidcDatabase, Cipher, OidcDeps, Es256, UserRepository}.
Context (keys : Ring) (encryptionKey : string) (permissions : PermissionResolver) (audited : bool).

(** The public part of a stored key is that of the private part. *)
Definition keys_match (s : OidcStore) : Prop :=
  forall kid k, od_keys s !! kid = Some k -> SigningKey_KeyID k = kid /\
    forall now pk, decryptPrivateKey keys encryptionKey now (SigningKey_EncryptedPrivateKey k) = Ok pk -> SigningKey_PublicJWK k = publicJWK (public_point pk).


Lemma active_key_stored providerID s k : repo_GetActiveSigningKey providerID s = Ok k ->
  exists kid, od_keys s !! kid = Some k /\ active_key (TrimSpace providerID) k = true.
Proof. intros Hk%first_row_elem. rewrite slice_sort_perm, elem_of_rows in Hk. destruct Hk as (Ha & kid & Hk). eauto. Qed.

Lemma no_active_key providerID s err kid k : repo_GetActiveSigningKey providerID s = Err err -> od_keys s !! kid = Some k ->
  active_key (TrimSpace providerID) k = false.
Proof.
  unfold repo_GetActiveSigningKey. intros He Hk. apply not_true_iff_false. intros Ha.
  assert (k ∈ slice_sort newer_key (rows_where (active_key (TrimSpace providerID)) (od_keys s))) as Hin.
  { rewrite slice_sort_perm, elem_of_rows. eauto. }
  destruct (slice_sort _ _); [by apply not_elem_of_nil in Hin|done].
Qed.

Lemma generated_key e providerID now k pk : generateSigningKey keys encryptionKey e providerID now = Ok (k, pk) ->
  SigningKey_ProviderID k = providerID /\ SigningKey_Active k = true /\ SigningKey_PublicJWK k = publicJWK (public_point pk).
Proof.
  unfold generateSigningKey. destruct (map_err _ (oe_key e)) as [p|]; [|done]. cbn [result_bind]. destruct (randomToken _); [|done].
  cbn [result_bind]. destruct (encryptPrivateKey _ _ _ _); [|done]. cbn [result_bind]. by intros [= <- <-].
Qed.

(** The key that a call signs with. *)
Lemma ensureSigningKey_key e now providerID w k pk w' : keys_match (ow_store w) ->
  ensureSigningKey keys encryptionKey e now providerID w = (Ok (k, pk), w') ->
  (forall kid k', od_keys (ow_store w') !! kid = Some k' -> SigningKey_KeyID k' = kid) /\
  od_keys (ow_store w') !! SigningKey_KeyID k = Some k /\ SigningKey_Active k = true /\ SigningKey_PublicJWK k = publicJWK (public_point pk).
Proof.
  intros Hm. unfold ensureSigningKey. destruct (repo_GetActiveSigningKey providerID (ow_store w)) as [key|err] eqn:Hg.
  - destruct (decryptPrivateKey _ _ _ _) as [p|] eqn:Hd; [|done]. intros [= -> -> <-].
    apply active_key_stored in Hg as (kid & Hk & Ha). destruct (Hm kid k Hk) as [Hid Hp]. subst kid.
    apply andb_true_iff in Ha as [_ Ha]. split_and!; [|done|done|eauto]. intros kid k' Hk'. by destruct (Hm kid k' Hk').
  - destruct (negb _); [done|]. intros Ht. statement Ht as gen w1 Sg. statement Ht as created w2 Sc. apply gret_Ok in Ht as [[= <- <-] ->].
    unfold repo_CreateSigningKey in Sc. apply gbind_Ok in Sc as (u & s1 & Hi & [Hc Hs]%read_Ok). unfold insert_key in Hi.
    destruct (_ && _ && _); [|done]. injection Hi as _ <-. rewrite Hs.
    apply active_key_stored in Hc as (kid & Hk & Ha). cbn [set_keys od_keys] in Hk |- *.
    destruct gen as [item p]. cbn [fst snd] in *. apply generated_key in Sg as (Hpr & Hact & Hpub). rewrite Hpr in Ha.
    apply lookup_insert_Some in Hk as [[Hkid <-]|[_ Hk]]; [|by rewrite (no_active_key _ _ _ _ _ Hg Hk) in Ha].
    rewrite lookup_insert_eq. split_and!; [|done..]. intros kid' k' [[<- <-]|[_ Hk']]%lookup_insert_Some; [done|]. by destruct (Hm kid' k' Hk').
Qed.

Lemma public_keys_other l m kid : (forall k, k ∈ l -> SigningKey_KeyID k <> kid) -> public_keys l m !! kid = m !! kid.
Proof.
  revert m. induction l as [|k l IH]; intros m Hl; [done|]. cbn [public_keys]. rewrite IH by (intros k' Hk'; apply Hl; by right).
  destruct (publicKeyFromJWK _); [|done]. apply lookup_insert_ne. apply Hl. by left.
Qed.

Lemma public_keys_elem l m k p : k ∈ l -> (forall k', k' ∈ l -> SigningKey_KeyID k' = SigningKey_KeyID k -> k' = k) ->
  publicKeyFromJWK (SigningKey_PublicJWK k) = Some p -> public_keys l m !! SigningKey_KeyID k = Some p.
Proof.
  intros Hk Hone Hp. revert m. induction l as [|k0 l IH]; intros m; [by apply not_elem_of_nil in Hk|]. cbn [public_keys].
  destruct (decide (SigningKey_KeyID k ∈ SigningKey_KeyID <$> l)) as [(k' & He & Hin)%list_elem_of_fmap|Hin].
  - assert (k' = k) as -> by (apply Hone; [by right|done]). apply IH; [done|]. intros k1 Hk1. apply Hone. by right.
  - apply elem_of_cons in Hk as [<- |Hk]; [|by destruct Hin; apply list_elem_of_fmap; eauto].
    rewrite public_keys_other; [by rewrite Hp, lookup_insert_eq|]. intros k' Hk' He. apply Hin, list_elem_of_fmap. eauto.
Qed.

(** The claims of a signed token are read back under the published keys. *)
Lemma signed_token_parsed s k pk claims token clock dbNow issuer tokenType x nbf exp :
  (forall kid k', od_keys s !! kid = Some k' -> SigningKey_KeyID k' = kid) ->
  od_keys s !! SigningKey_KeyID k = Some k -> SigningKey_Active k = true -> SigningKey_PublicJWK k = publicJWK (public_point pk) ->
  signOIDCToken pk (SigningKey_KeyID k) claims = Ok token -> Claims_Issuer claims = normalizeIssuer issuer ->
  Claims_NotBefore claims = Some nbf -> Claims_ExpiresAt claims = Some exp -> nbf * 1000000000 <= clock 0%nat < exp * 1000000000 ->
  blank (Claims_SessionID claims) = false -> repo_GetOIDCSession (Claims_SessionID claims) (clock 1%nat) s = Ok x ->
  OIDCSession_ClientID x = Claims_ClientID claims -> OIDCSession_UserID x = Claims_Subject claims ->
  parseOIDCToken clock dbNow issuer token tokenType true s =
    if String.eqb (Claims_TokenType claims) tokenType then Ok claims else Err (errorf ErrUnauthorized "unexpected token type").
Proof.
  intros Hid Hk Ha Hpub Hsign%map_err_Ok Hiss Hnb Hexp Htime Hb Hx Hcl Hu. destruct (signed_text _ _ _ _ Hsign) as [Hne Hsolid].
  unfold parseOIDCToken. rewrite (normalizeOIDCTokenValue_solid _ Hsolid). unfold str_empty. rewrite (proj2 (String.eqb_neq _ _) Hne).
  erewrite signed_accepted; [|exact Hsign| |exact Hiss|exact Hnb|exact Hexp|exact Htime].
  - rewrite Hb, orb_false_r. destruct (String.eqb _ tokenType); cbn [negb]; [|done]. by rewrite Hx, Hcl, Hu, !String.eqb_refl.
  - cbn. apply public_keys_elem.
    + unfold repo_ListActivePublicKeys. rewrite slice_sort_perm, elem_of_rows. split; [by unfold published_key; rewrite Ha|eauto].
    + intros k' Hk' He. unfold repo_ListActivePublicKeys in Hk'. rewrite slice_sort_perm, elem_of_rows in Hk'. destruct Hk' as (_ & kid & Hk').
      rewrite <-(Hid _ _ Hk'), He in Hk'. congruence.
    + rewrite Hpub. apply publicKeyFromJWK_publicJWK; apply public_range.
Qed.

Lemma scoped_Join {A} scopes scope (value empty : A) : Forall (fun w => w <> "" /\ tight w) scopes -> TrimSpace scope = scope ->
  scoped (Fields (Join scopes " ")) scope value empty = if bool_decide (scope ∈ scopes) then value else empty.
Proof.
  intros Hw Ht. rewrite Fields_Join by done. unfold scoped. case_bool_decide as Hin.
  - rewrite (proj2 (containsString_spec _ _)); [done|by rewrite Ht].
  - destruct (containsString scopes scope) eqn:Hc; [|done]. apply containsString_spec in Hc. by rewrite Ht in Hc.
Qed.

(** C10. Issued tokens are accepted, and give what their scopes open.  When
    tokens were issued for a session, then as long as the session is live and
    within the life of the access token, the user information endpoint answers
    its bearer with the subject and with exactly those of name, mail, roles,
    teams, projects and tags whose scope was granted, and the logout endpoint
    reads the identity token, while neither token passes for the other. *)
Theorem issued_tokens_accepted clock e issuer issuer' provider client principal sid scopes nonce authTime now w response w' clock' dbNow x user w2 :
  keys_match (ow_store w) ->
  issueOIDCTokenResponse keys encryptionKey clock e (normalizeIssuer issuer) provider client principal sid scopes nonce authTime now w = (Ok response, w') ->
  ow_store w2 = ow_store w' -> normalizeIssuer issuer' = normalizeIssuer issuer -> Forall (fun s => s <> "" /\ tight s) scopes -> blank sid = false ->
  repo_GetOIDCSession sid (clock' 1%nat) (ow_store w') = Ok x ->
  OIDCSession_ClientID x = OIDCClient_ClientID client -> OIDCSession_UserID x = Principal_UserID principal ->
  loadPrincipal (Principal_UserID principal) = Ok user ->
  unix now * 1000000000 <= clock' 0%nat ->
  let accessTTL := if 0 <? OIDCClient_AccessTokenTTLSeconds client then OIDCClient_AccessTokenTTLSeconds client else 3600 in
  let idTTL := if 0 <? OIDCClient_IDTokenTTLSeconds client then OIDCClient_IDTokenTTLSeconds client else 300 in
  (clock' 0%nat < unix (add_seconds now accessTTL) * 1000000000 ->
     fst (UserInfo clock' dbNow issuer' (TokenResponse_AccessToken response) w2) = Ok {|
       UserInfo_Subject := Principal_UserID user;
       UserInfo_Name := if bool_decide ("profile" ∈ scopes) then Principal_UserName user else "";
       UserInfo_Email := if bool_decide ("email" ∈ scopes) then Principal_Email user else "";
       UserInfo_Roles := if bool_decide ("roles" ∈ scopes) then Principal_Roles user else [];
       UserInfo_Teams := if bool_decide ("teams" ∈ scopes) then Principal_Teams user else [];
       UserInfo_Projects := if bool_decide ("projects" ∈ scopes) then Principal_Projects user else [];
       UserInfo_Tags := if bool_decide ("tags" ∈ scopes) then Principal_Tags user else [] |} /\
     parseOIDCToken clock' dbNow issuer' (TokenResponse_AccessToken response) TokenTypeID true (ow_store w') =
       Err (errorf ErrUnauthorized "unexpected token type")) /\
  (clock' 0%nat < unix (add_seconds now idTTL) * 1000000000 ->
     (exists claims, parseOIDCToken clock' dbNow issuer' (TokenResponse_IDToken response) TokenTypeID true (ow_store w') = Ok claims /\
        Claims_Subject claims = Principal_UserID principal /\ Claims_Nonce claims = nonce /\ Claims_SessionID claims = sid /\
        Claims_Audience claims = [OIDCClient_ClientID client]) /\
     parseOIDCToken clock' dbNow issuer' (TokenResponse_IDToken response) TokenTypeAccess true (ow_store w') =
       Err (errorf ErrUnauthorized "unexpected token type")).
Proof.
  intros Hm Hi Hw2 Hiss Hsc Hb Hx Hcl Hus Hload Hnow accessTTL idTTL. unfold issueOIDCTokenResponse in Hi. statement Hi as found w1 Se. destruct found as [k pk].
  statement Hi as accessToken w3 Sa. statement Hi as idToken w4 Si. apply gret_Ok in Hi as [<- ->]. cbn [TokenResponse_AccessToken TokenResponse_IDToken].
  destruct (ensureSigningKey_key _ _ _ _ _ _ _ Hm Se) as (Hid & Hk & Ha & Hpub).
  split; intros Ht.
  - assert (forall tokenType, parseOIDCToken clock' dbNow issuer' accessToken tokenType true (ow_store w1) =
      if String.eqb TokenTypeAccess tokenType then Ok (access_claims e (normalizeIssuer issuer) client principal sid scopes authTime now)
      else Err (errorf ErrUnauthorized "unexpected token type")) as Hp.
    { intros tokenType. by apply (signed_token_parsed _ k pk _ _ _ _ _ _ x (unix now) (unix (add_seconds now accessTTL)) Hid Hk Ha Hpub Sa). }
    split; [|by rewrite Hp]. unfold UserInfo, gbind, oquery, parseOIDCAccessToken. rewrite Hw2, Hp, String.eqb_refl.
    cbn [access_claims with_scope_nonce applyOIDCScopedClaims newOIDCTokenClaims Claims_Subject Claims_Scope]. rewrite Hload. cbn [glift gret fst].
    by rewrite !scoped_Join by (done || reflexivity).
  - assert (forall tokenType, parseOIDCToken clock' dbNow issuer' idToken tokenType true (ow_store w1) =
      if String.eqb TokenTypeID tokenType then Ok (id_claims e (normalizeIssuer issuer) client principal sid scopes nonce authTime now)
      else Err (errorf ErrUnauthorized "unexpected token type")) as Hp.
    { intros tokenType. by apply (signed_token_parsed _ k pk _ _ _ _ _ _ x (unix now) (unix (add_seconds now idTTL)) Hid Hk Ha Hpub Si). }
    split; [|by rewrite Hp]. rewrite Hp, String.eqb_refl. eexists. split; [done|]. done.
Qed.
End tokens.

(** ** Logout *)

Section logout.
Context `{CatalogSource, MapRange, OidcDatabase, Cipher, OidcDeps, Es256, UserRepository}.
Context (keys : Ring) (encryptionKey : string) (permissions : PermissionResolver) (audited : bool).

(** Sessions are kept by their identifier and name their client. *)
Definition sessions_named (s : OidcStore) : Prop :=
  forall k x, od_sessions s !! k = Some x -> OIDCSession_ID x = k /\ TrimSpace (OIDCSession_ClientID x) = OIDCSession_ClientID x /\ OIDCSession_ClientID x <> "".

Lemma parsed_session clock dbNow issuer token tokenType s claims : parseOIDCToken clock dbNow issuer token tokenType true s = Ok claims ->
  TrimSpace (Claims_SessionID claims) <> "" /\
  exists x, repo_GetOIDCSession (Claims_SessionID claims) (clock 1%nat) s = Ok x /\ OIDCSession_ClientID x = Claims_ClientID claims /\
    OIDCSession_UserID x = Claims_Subject claims.
Proof.
  unfold parseOIDCToken. destruct (str_empty _); [done|]. destruct (ParseWithClaims _ _ _ _) as [c|]; [|done].
  destruct (negb _ || blank _) eqn:Hb; [done|]. destruct (repo_GetOIDCSession _ _ s) as [x|] eqn:Hx; [|done].
  destruct (String.eqb_spec (OIDCSession_ClientID x) (Claims_ClientID c)) as [Hc|]; [|done].
  destruct (String.eqb_spec (OIDCSession_UserID x) (Claims_Subject c)) as [Hu|]; [|done]. intros [= <-].
  apply orb_false_iff in Hb as [_ Hb]. unfold blank, str_empty in Hb. apply String.eqb_neq in Hb. eauto.
Qed.

(** No token of a session that is over is accepted. *)
Lemma over_rejected sid s clock dbNow issuer token tokenType claims : session_over sid s ->
  parseOIDCToken clock dbNow issuer token tokenType true s = Ok claims -> TrimSpace (Claims_SessionID claims) <> sid.
Proof.
  intros [Hget _] (_ & x & Hx & _)%parsed_session <-. destruct (Hget (clock 1%nat)) as [err Herr].
  unfold repo_GetOIDCSession, getActiveOIDCSession in *. rewrite TrimSpace_idem in Herr. rewrite Hx in Herr. done.
Qed.


(** A session that its client revoked. *)
Lemma revoke_session_revoked sid clientID now s s' x : od_sessions s !! sid = Some x -> TrimSpace sid = sid -> sid <> "" ->
  OIDCSession_ClientID x = TrimSpace clientID -> TrimSpace clientID <> "" ->
  repo_RevokeOIDCSession sid clientID now s = (Ok tt, s') -> od_sessions s' !! sid = Some (revoke_oidc_session now x).
Proof.
  intros Hx Htrim Hne Hclient Hcl. unfold repo_RevokeOIDCSession, transaction, revokeOIDCSession. rewrite Htrim. unfold str_empty.
  rewrite (proj2 (String.eqb_neq _ _) Hne), (proj2 (String.eqb_neq _ _) Hcl). cbn [orb]. intros [= <-].
  cbn [set_tokens set_sessions od_sessions]. rewrite update_by_id_lookup, String.eqb_refl, Hx. cbn. by rewrite Hclient, String.eqb_refl.
Qed.

(** C9. Logging out ends everything that the session opened: after the logout
    endpoint answered, the session is over for good.  Whatever the provider and
    the rest of the program do, short of creating a session with the same
    identifier, no access or identity token of it is accepted any more, none of
    its refresh tokens can be rotated; and the platform session behind it is
    revoked as well. *)
Theorem logout_ends_access clock dbNow issuer input w claims out w1 tr s' :
  sessions_named (ow_store w) ->
  parseOIDCToken clock dbNow issuer (EndSessionInput_IDTokenHint input) TokenTypeID true (ow_store w) = Ok claims ->
  EndSession clock dbNow issuer input w = (Ok out, w1) ->
  oidc_steps (ow_store w1) tr s' -> occurrences (creates_session (TrimSpace (Claims_SessionID claims))) tr = 0%nat ->
  session_over (TrimSpace (Claims_SessionID claims)) s' /\
  (forall clock' dbNow' issuer' token tokenType claims',
     parseOIDCToken clock' dbNow' issuer' token tokenType true s' = Ok claims' -> TrimSpace (Claims_SessionID claims') <> TrimSpace (Claims_SessionID claims)) /\
  (forall x p, od_sessions (ow_store w) !! TrimSpace (Claims_SessionID claims) = Some x -> OIDCSession_PlatformSessionID x <> "" ->
     od_platform (ow_store w1) !! OIDCSession_PlatformSessionID x = Some p -> PlatformSession_Status p = "revoked").
Proof.
  intros Hnamed Hparse Hend Hsteps Hno. destruct (parsed_session _ _ _ _ _ _ _ Hparse) as (Hne & x0 & Hx0 & Hxc & _).
  apply getActive_Ok in Hx0 as [Hx0 _]. destruct (Hnamed _ _ Hx0) as (Hxid & Hxt & Hxne).
  unfold EndSession in Hend. statement Hend as claims0 w2 Sp. rewrite Hparse in Sp. injection Sp as <-. statement Hend as client w2 Sc.
  destruct (_ && _); [done|]. statement Hend as session w2 Ss. apply getActive_Ok in Ss as [Hs _]. assert (session = x0) as -> by congruence.
  statement Hend as u w2 Sr. destruct u. statement Hend as u w3 Sl. apply gret_Ok in Hend as [<- ->].
  apply client_by_id in Sc. rewrite <-Hxc, Hxt in Sc. rewrite Hxid, Sc in Sr.
  assert (od_platform (ow_store w2) = od_platform (ow_store w)) as Hpl.
  { revert Sr. unfold repo_RevokeOIDCSession, transaction, revokeOIDCSession. destruct (_ || _); by intros [= <-]. }
  apply (revoke_session_revoked _ _ _ _ _ x0 Hx0) in Sr; [|apply TrimSpace_idem|done|done|by rewrite Hxt].
  assert (od_sessions (ow_store w3) = od_sessions (ow_store w2) /\
    (OIDCSession_PlatformSessionID x0 <> "" -> forall p, od_platform (ow_store w3) !! OIDCSession_PlatformSessionID x0 = Some p -> PlatformSession_Status p = "revoked"))
    as [Hkeep Hplat].
  { unfold str_empty in Sl. destruct (String.eqb_spec (OIDCSession_PlatformSessionID x0) "") as [He|He]; [by apply gret_Ok in Sl as [_ ->]|].
    unfold in_oidc, repo_RevokeSessionByID in Sl. destruct (update_by_id _ _ _ _) as [n m] eqn:Hu.
    pose proof (update_by_id_lookup (OIDCSession_PlatformSessionID x0) (fun _ => true) revoke_platform (od_platform (ow_store w2)) (OIDCSession_PlatformSessionID x0)) as Hl.
    rewrite Hu, String.eqb_refl in Hl. cbn [snd] in Hl. destruct (n =? 0)%nat eqn:Hn.
    - cbn in Sl. injection Sl as _ <-. split; [done|]. intros _ p Hp. cbn in Hp. unfold update_by_id in Hu. rewrite Hp in Hu. by injection Hu as <- <-.
    - injection Sl as _ <-. split; [done|]. intros _ p Hp. cbn in Hp. rewrite Hl in Hp. destruct (od_platform (ow_store w2) !! _); [|done].
      by injection Hp as <-. }
  rewrite <-Hkeep in Sr. assert (session_over (TrimSpace (Claims_SessionID claims)) s') as Hover.
  { eapply (revoked_over _ tr s' _ (revoke_oidc_session (clock 3%nat) x0)); [apply TrimSpace_idem|exact Hsteps|done|done|].
    cbn. destruct (OIDCSession_RevokedAt x0); cbn; eauto. }
  split_and!; [done| |].
  - intros clock' dbNow' issuer' token tokenType claims'. by apply over_rejected.
  - intros x p Hx. assert (x = x0) as -> by congruence. auto.
Qed.
End logout.

(** ** Clients *)

Section clients.
Context `{CatalogSource, MapRange, OidcDatabase, Cipher, OidcDeps, Es256, UserRepository}.
Context (keys : Ring) (encryptionKey : string) (permissions : PermissionResolver) (audited : bool).

Lemma authorize_managed_store principal action w r w' : authorize_managed permissions principal action w = (r, w') -> ow_store w' = ow_store w.
Proof.
  unfold authorize_managed. destruct (ManagedActionPermission _ _); [|by intros [= _ <-]]. destruct (AuthorizeRuntimePermission _ _ _ _).
  by intros [= _ <-].
Qed.

(** A client that no secret authenticates. *)
Definition locked_out (client : OIDCClient) : Prop := forall secret, exists err, verifyClientSecret client secret = Some err.

(** A confidential client without a secret cannot authenticate. *)
Lemma no_secret_locked client secret : OIDCClient_ClientType client = OIDCClientTypeConfidential -> blank (OIDCClient_ClientSecretHash client) = true ->
  verifyClientSecret client secret = Some (errorf ErrUnauthorized "confidential client authentication is required").
Proof. intros Ht Hb. unfold verifyClientSecret. by rewrite Ht, Hb. Qed.

(** The row that an input without a type and a secret gives. *)
Lemma input_default_type now freshID clientID input item : blank (OIDCClientInput_ClientType input) = true ->
  oidcClientFromInput now freshID clientID input "" = Ok item -> clientID <> "" ->
  OIDCClient_ClientType item = OIDCClientTypeConfidential /\ OIDCClient_ID item = clientID.
Proof.
  intros Hb. unfold oidcClientFromInput.
  assert (ToLower (firstNonEmpty [OIDCClientInput_ClientType input; OIDCClientTypeConfidential]) = OIDCClientTypeConfidential) as ->.
  { cbn [firstNonEmpty]. by rewrite Hb. }
  intros Hi Hne. destruct (str_empty _); [done|]. destruct (str_empty _); [done|]. destruct (normalizeRedirectURIs _); [|done]. cbn [result_bind] in Hi.
  destruct (normalizeRedirectURIRegexes _); [|done]. cbn [result_bind] in Hi. destruct (_ && _); [done|].
  destruct (normalizeRedirectURIs _); [|done]. cbn [result_bind] in Hi. cbn zeta in Hi.
  change (negb (String.eqb OIDCClientTypeConfidential OIDCClientTypePublic) && negb (String.eqb OIDCClientTypeConfidential OIDCClientTypeConfidential)) with false in Hi.
  change (String.eqb OIDCClientTypeConfidential OIDCClientTypePublic) with false in Hi. cbn [andb] in Hi.
  destruct (normalizeOIDCClientGrantTypes _); [|done]. cbn [result_bind] in Hi. destruct (_ && _); [done|].
  destruct (hash_secret _); [|done]. cbn [result_bind] in Hi. injection Hi as <-. cbn. unfold str_empty. by rewrite (proj2 (String.eqb_neq _ _) Hne).
Qed.

(** C18. The guard of an update that keeps a public client from becoming a
    confidential one without a secret looks only at a type that is spelled out.
    An update that leaves the type and the secret blank passes it, stores the
    public client as confidential with no secret, and from then on no secret
    authenticates the client; the same request that names the type is refused. *)
Theorem blank_type_locks_public_client clock e principal clientID input current w c w' :
  od_clients (ow_store w) !! TrimSpace clientID = Some current -> OIDCClient_ID current = TrimSpace clientID -> TrimSpace clientID <> "" ->
  OIDCClient_ClientType current = OIDCClientTypePublic -> blank (OIDCClient_ClientSecretHash current) = true ->
  blank (OIDCClientInput_ClientType input) = true -> blank (OIDCClientInput_ClientSecret input) = true ->
  UpdateOIDCClient keys encryptionKey permissions audited clock e principal clientID input w = (Ok c, w') ->
  (exists stored, od_clients (ow_store w') !! TrimSpace clientID = Some stored /\ OIDCClient_ClientType stored = OIDCClientTypeConfidential /\
     locked_out stored) /\
  (forall input', EqualFold (TrimSpace (OIDCClientInput_ClientType input')) OIDCClientTypeConfidential = true ->
     blank (OIDCClientInput_ClientSecret input') = true ->
     exists err, fst (UpdateOIDCClient keys encryptionKey permissions audited clock e principal clientID input' w) = Err err).
Proof.
  intros Hcur Hid Hne Hpub Hnone Htype Hsecret Hup. split.
  - unfold UpdateOIDCClient in Hup. statement Hup as u w1 Sa. statement Hup as current' w2 Sc.
    apply authorize_managed_store in Sa as Hw.
    unfold repo_GetOIDCClient in Sc. rewrite Hw, Hcur in Sc. injection Sc as <-. destruct (_ && _ && _); [done|].
    statement Hup as provider w2 Sp. statement Hup as item w2 Si. statement Hup as item' w2 Sq. statement Hup as updated w2 Su. statement Hup as u' w3 Sr.
    apply gret_Ok in Hup as [_ ->]. apply recordAudit_store in Sr. rewrite Sr.
    unfold blank, str_empty in Hsecret. apply String.eqb_eq in Hsecret. cbn [with_ids OIDCClientInput_ClientSecret] in Si, Sq. rewrite Hsecret in Si, Sq.
    apply input_default_type in Si as [Ht Hi]; [|done|by rewrite Hid]. cbn [with_secret OIDCClient_ClientType] in Sq. rewrite Ht in Sq.
    change (str_empty "" && negb (String.eqb OIDCClientTypeConfidential OIDCClientTypePublic)) with true in Sq. cbn iota in Sq. injection Sq as <-.
    unfold repo_UpdateOIDCClient in Su. apply gbind_Ok in Su as (u2 & s1 & Hs & [_ Hs1]%read_Ok). cbn [with_secret OIDCClient_ID] in Hs.
    rewrite Hi, Hid, Hw, Hcur in Hs. destruct (_ && _ && _); [|done]. injection Hs as _ <-. rewrite Hs1. cbn [set_clients od_clients].
    rewrite lookup_insert_eq. eexists. split_and!; [done|exact Ht|]. intros secret. eexists. by apply no_secret_locked.
  - intros input' Ht' Hs'. unfold UpdateOIDCClient, gbind. destruct (authorize_managed _ _ _ w) as [[u|err] w1] eqn:Ha; [|cbn; eauto].
    apply authorize_managed_store in Ha as Hw.
    unfold oquery, repo_GetOIDCClient. rewrite Hw, Hcur. cbn [with_ids OIDCClientInput_ClientType OIDCClientInput_ClientSecret]. rewrite Ht', Hpub, Hs'. cbn. eauto.
Qed.
End clients.

(** ** Samples *)

#[export] Instance oidcTokenClaims_eq_dec : EqDecision oidcTokenClaims.
Proof. solve_decision. Defined.

Definition oidc_database : OidcDatabase.
Proof.
  refine {| key_order := merge_slice_sort newer_key _ _ |}.
  - intros x y. unfold not_after, newer_key. rewrite !Z.ltb_ge. lia.
  - intros x y z. unfold not_after, newer_key. rewrite !Z.ltb_ge. lia.
Defined.

Definition oidc_catalog : CatalogSource :=
  {| decoded_catalog := Ok {| Catalog_ContentHash := ""; Catalog_Permissions := [] |}; PermissionStatusActive := "active" |}.

Definition sample_url : URL :=
  {| URL_Scheme := "https"; URL_User := false; URL_Host := "app.test"; URL_Hostname := "app.test"; URL_Path := "/cb"; URL_RawQuery := ""; URL_Fragment := "";
     URL_RequestURI := "/cb"; URL_String := "https://app.test/cb" |}.

Lemma sample_url_host value u : (fun _ : string => Some sample_url) value = Some u -> "/"%char ∉ chars (URL_Host u).
Proof. intros [= <-] Hin. cbn in Hin. repeat (apply elem_of_cons in Hin as [Hc|Hin]; [done|]). by apply not_elem_of_nil in Hin. Qed.

Definition sample_deps : OidcDeps :=
  {| url_Parse := fun _ => Some sample_url; url_host := sample_url_host;
     regexp_Compile := fun _ => true; regexp_MatchString := fun _ _ => Some false; bcrypt_Generate := Ok; bcrypt_Compare := String.eqb;
     bcrypt_agree := fun password hash H => match H in _ = r return match r with Ok h => String.eqb h password = true | Err _ => True end with
       eq_refl => String.eqb_refl password end |}.

Definition oidc_principal : Principal :=
  {| Principal_UserID := "u1"; Principal_UserName := "Una"; Principal_Email := "una@app.test"; Principal_AvatarURL := "";
     Principal_AvatarFit := ""; Principal_Roles := ["admin"]; Principal_Teams := []; Principal_Projects := [];
     Principal_Tags := []; Principal_PermissionKeys := []; Principal_AccessTokenID := "" |}.

Definition oidc_users : UserRepository :=
  {| users_GetByID := fun id => if String.eqb id "u1" then Ok {| OidcUser_ID := "u1"; OidcUser_Username := "una"; OidcUser_Email := "una@app.test";
       OidcUser_DisplayName := "Una"; OidcUser_Status := "active"; OidcUser_Tags := [] |} else Err user_not_found;
     users_GetAuthzState := fun _ => Ok "active"; users_ListRoles := fun _ => Ok ["admin"]; users_ListTeams := fun _ => Ok [];
     users_ListProjects := fun _ => Ok [] |}.

Definition sample_uuid (n : nat) : string := nth n ["s0"; "s1"; "s2"; "s3"; "s4"; "s5"; "s6"; "s7"; "s8"; "s9"] "".
Definition second : Z := 1000000000.

(** The two tokens of the sample, and the only ones its signer signs. *)
Definition sample_claims (id : bool) : oidcTokenClaims :=
  with_scope_nonce (if id then "" else "email openid") (if id then "n-1" else "")
    (applyOIDCScopedClaims oidc_principal ["email"; "openid"]
      (newOIDCTokenClaims (sample_uuid (if id then 4 else 3)) (if id then TokenTypeID else TokenTypeAccess) "https://soha.test" "portal" oidc_principal "s0"
        (1000 * second) (1000 * second) (if id then 300 else 600))).

Definition sample_kid : string := base64_url_encode (replicate 16 7).
Definition sample_time (c : oidcTokenClaims) (now : Z) : bool :=
  match Claims_NotBefore c, Claims_ExpiresAt c with
  | Some nbf, Some exp => (nbf * 1000000000 <=? now) && (now <? exp * 1000000000)
  | _, _ => false
  end.

Definition sample_sign (kid : string) (c : oidcTokenClaims) : result string :=
  if negb (String.eqb kid sample_kid) then Err user_not_found
  else if bool_decide (c = sample_claims false) then Ok "access-token"
  else if bool_decide (c = sample_claims true) then Ok "id-token" else Err user_not_found.

Definition sample_parse (keyfunc : string -> string -> option (Z * Z)) (issuer : string) (now : Z) (token : string) : option oidcTokenClaims :=
  c ← (if String.eqb token "access-token" then Some (sample_claims false) else if String.eqb token "id-token" then Some (sample_claims true) else None);
  if bool_decide (keyfunc "ES256" sample_kid = Some (1, 2)) && String.eqb (Claims_Issuer c) issuer && sample_time c now then Some c else None.

Lemma sample_sign_Ok kid c token : sample_sign kid c = Ok token ->
  kid = sample_kid /\ exists id, c = sample_claims id /\ token = if id : bool then "id-token" else "access-token".
Proof.
  unfold sample_sign. destruct (String.eqb_spec kid sample_kid) as [Hk|]; [|done]. cbn [negb]. case_bool_decide as H1; [intros [= <-]; split; [done|by exists false]|].
  case_bool_decide as H2; [intros [= <-]; split; [done|by exists true]|done].
Qed.

Definition sample_signer : Es256.
Proof.
  refine {| PrivateKey := unit; public_point := fun _ => (1, 2); marshal_key := fun _ => Ok "key"; parse_key := fun _ => Ok tt;
    SignedString := fun _ => sample_sign; ParseWithClaims := sample_parse |}.
  - intros _. cbn. lia.
  - by intros [].
  - intros _ kid c token (_ & [] & _ & ->)%sample_sign_Ok; (split; [done|]); intros d Hd; cbn in Hd;
      repeat (apply elem_of_cons in Hd as [-> |Hd]; [reflexivity|]); by apply not_elem_of_nil in Hd.
  - intros _ kid c token keyfunc issuer now nbf exp (-> & id & -> & ->)%sample_sign_Ok Hk Hi Hn He Ht. unfold sample_parse.
    destruct id; cbn [String.eqb Ascii.eqb Bool.eqb mbind option_bind]; rewrite bool_decide_true by done; rewrite Hi, String.eqb_refl;
      unfold sample_time; rewrite Hn, He; rewrite (proj2 (Z.leb_le _ _)), (proj2 (Z.ltb_lt _ _)) by lia; done.
Defined.

Definition oidc_clock (n : nat) : Z := 1000 * second.
Definition oidc_entropy : @OidcEntropy sample_signer :=
  @Build_OidcEntropy sample_signer sample_uuid (fun _ n => Ok (replicate n 7)) (Ok (replicate 12 0)) (Ok tt).
Definition no_ring : Ring := {| Ring_active := zero_key; Ring_previous := [] |}.
Definition sample_world : OidcWorld := {| ow_store := sample_store; ow_cache := None; ow_audit := [] |}.

Definition sample_request : AuthorizeInput := {|
  AuthorizeInput_ResponseType := "code"; AuthorizeInput_ClientID := "portal"; AuthorizeInput_RedirectURI := "https://app.test/cb";
  AuthorizeInput_Scope := "openid email"; AuthorizeInput_State := "st"; AuthorizeInput_Prompt := ""; AuthorizeInput_MaxAge := "";
  AuthorizeInput_ResponseMode := ""; AuthorizeInput_Nonce := "n-1";
  AuthorizeInput_CodeChallenge := base64_url_encode (sha256 (bytes_of "verifier")); AuthorizeInput_CodeChallengeMethod := "S256";
  AuthorizeInput_PlatformSessionID := "" |}.

Definition sample_raw : string := base64_url_encode (replicate 32 7).

Definition sample_token_request : TokenInput := {|
  TokenInput_GrantType := "authorization_code"; TokenInput_Code := sample_raw; TokenInput_RedirectURI := "https://app.test/cb";
  TokenInput_ClientID := "portal"; TokenInput_ClientSecret := ""; TokenInput_CodeVerifier := "verifier"; TokenInput_RefreshToken := "" |}.

Definition sample_authorize : oidc AuthorizeOutcome :=
  @Authorize sample_deps sample_signer true oidc_clock oidc_entropy "10.0.0.1" "https://soha.test/" oidc_principal sample_request.
Definition sample_exchange : oidc TokenResponse :=
  @Token oidc_database clear_cipher sample_deps sample_signer oidc_users no_ring "secret" true oidc_clock oidc_entropy "https://soha.test" sample_token_request.

Lemma run_pair {A} (m : oidc A) w a : fst (m w) = Ok a -> m w = (Ok a, snd (m w)).
Proof. destruct (m w). by intros <-. Qed.

Definition sample_grant : AuthorizeResult := {|
  AuthorizeResult_RedirectURI := "https://app.test/cb"; AuthorizeResult_Code := sample_raw; AuthorizeResult_State := "st"; AuthorizeResult_ResponseMode := "query" |}.
Definition sample_response : TokenResponse := {|
  TokenResponse_AccessToken := "access-token"; TokenResponse_IDToken := "id-token"; TokenResponse_RefreshToken := ""; TokenResponse_TokenType := "Bearer";
  TokenResponse_ExpiresIn := 600; TokenResponse_Scope := "email openid" |}.

(** The sample request is granted, and its code exchanged. *)
Lemma authorization_code_flow_witness :
  let w1 := snd (sample_authorize sample_world) in
  let w3 := snd (sample_exchange w1) in
  fst (sample_exchange w1) = Ok sample_response /\
  exists client client' provider application scopes user,
    @flow_sound sample_deps sample_signer oidc_users oidc_clock oidc_clock oidc_entropy "10.0.0.1" oidc_principal sample_request sample_token_request
      sample_store (ow_store w1) (ow_store w3) sample_response client client' provider application scopes user.
Proof.
  assert (fst (sample_exchange (snd (sample_authorize sample_world))) = Ok sample_response) as Hx by (vm_compute; reflexivity).
  split; [exact Hx|].
  refine (@authorization_code_flow oidc_database clear_cipher sample_deps sample_signer oidc_users no_ring "secret" true
    oidc_clock oidc_entropy "10.0.0.1" "https://soha.test/" oidc_principal sample_request sample_world sample_grant _ [] _
    oidc_clock oidc_entropy "https://soha.test" sample_token_request sample_response _ _ _ _ _ _ (run_pair sample_exchange _ _ Hx)).
  - apply (run_pair sample_authorize sample_world (AuthorizeGranted sample_grant)). vm_compute. reflexivity.
  - constructor.
  - reflexivity.
  - vm_compute. reflexivity.
  - reflexivity.
Defined.

(** A store with a session of the sample client under a platform session. *)
Definition signed_in_store : OidcStore :=
  set_platform {[ "ps1" := {| PlatformSession_ID := "ps1"; PlatformSession_UserID := "u1"; PlatformSession_Status := "active";
      PlatformSession_ExpiresAt := 5000 * second; PlatformSession_LastSeenAt := second; PlatformSession_Metadata := ∅ |} ]}
    (set_sessions {[ "s0" := {| OIDCSession_ID := "s0"; OIDCSession_ProviderID := "provider-1"; OIDCSession_ClientID := "portal"; OIDCSession_UserID := "u1";
      OIDCSession_PlatformSessionID := "ps1"; OIDCSession_Scopes := ["email"; "openid"]; OIDCSession_AuthTime := 1000 * second;
      OIDCSession_ExpiresAt := 1600 * second; OIDCSession_LastSeenAt := 1000 * second; OIDCSession_RevokedAt := None;
      OIDCSession_CreatedAt := 1000 * second |} ]} sample_store).
Definition signed_in : OidcWorld := {| ow_store := signed_in_store; ow_cache := None; ow_audit := [] |}.

Definition sample_issue : oidc TokenResponse :=
  @issueOIDCTokenResponse oidc_database clear_cipher sample_signer no_ring "secret" oidc_clock oidc_entropy (normalizeIssuer "https://soha.test") sample_provider
    sample_client oidc_principal "s0" ["email"; "openid"] "n-1" (1000 * second) (1000 * second).
Definition later_clock (n : nat) : Z := 1200 * second.
Definition issued_world : OidcWorld := snd (sample_issue signed_in).

(** The tokens of that session: the mail is given, the name is not. *)
Lemma issued_tokens_accepted_witness :
  fst (@UserInfo oidc_database sample_signer oidc_users later_clock 0 "https://soha.test/" "access-token" issued_world) = Ok {|
    UserInfo_Subject := "u1"; UserInfo_Name := ""; UserInfo_Email := "una@app.test"; UserInfo_Roles := []; UserInfo_Teams := [];
    UserInfo_Projects := []; UserInfo_Tags := [] |}.
Proof.
  assert (exists x, @repo_GetOIDCSession "s0" (later_clock 1) (ow_store issued_world) = Ok x /\ OIDCSession_ClientID x = "portal" /\ OIDCSession_UserID x = "u1")
    as (x & Hx & Hc & Hu). { vm_compute. eexists. split_and!; reflexivity. }
  assert (fst (sample_issue signed_in) = Ok sample_response) as Hi by (vm_compute; reflexivity).
  refine (proj1 (proj1 (@issued_tokens_accepted oidc_database clear_cipher sample_signer oidc_users no_ring "secret" oidc_clock oidc_entropy "https://soha.test"
    "https://soha.test/" sample_provider sample_client oidc_principal "s0" ["email"; "openid"] "n-1" (1000 * second) (1000 * second) signed_in sample_response _
    later_clock 0 x oidc_principal issued_world _ (run_pair sample_issue _ _ Hi) eq_refl _ _ _ Hx Hc Hu _ _) _)).
  - intros kid k. cbn. rewrite lookup_empty. discriminate.
  - vm_compute. reflexivity.
  - repeat constructor; vm_compute; try discriminate; by repeat split.
  - vm_compute. reflexivity.
  - vm_compute. reflexivity.
  - vm_compute. discriminate.
  - vm_compute. reflexivity.
Defined.

(** Logging out with the identity token of that session. *)
Definition sample_logout : EndSessionInput :=
  {| EndSessionInput_IDTokenHint := "id-token"; EndSessionInput_PostLogoutRedirectURI := ""; EndSessionInput_State := "" |}.

Lemma logout_ends_access_witness :
  session_over "s0" (ow_store (snd (@EndSession oidc_database sample_signer later_clock 0 "https://soha.test" sample_logout issued_world))).
Proof.
  assert (fst (@EndSession oidc_database sample_signer later_clock 0 "https://soha.test" sample_logout issued_world) = Ok ("", "")) as He by (vm_compute; reflexivity).
  change "s0" with (TrimSpace (Claims_SessionID (sample_claims true))).
  refine (proj1 (@logout_ends_access oidc_database sample_signer later_clock 0 "https://soha.test" sample_logout issued_world (sample_claims true) ("", "") _ []
    _ _ _ (run_pair (@EndSession oidc_database sample_signer later_clock 0 "https://soha.test" sample_logout) _ _ He) (oidc_nil _) eq_refl)).
  - assert (od_sessions (ow_store issued_world) = od_sessions signed_in_store) as Hs by (vm_compute; reflexivity).
    intros k x. rewrite Hs. cbn [signed_in_store set_platform set_sessions od_sessions]. intros [<- <-]%lookup_singleton_Some.
    split_and!; [reflexivity|vm_compute; reflexivity|discriminate].
  - vm_compute. reflexivity.
Defined.

(** An administrator edits the redirect URIs of the public sample client. *)
Definition sample_edit : OIDCClientInput := {|
  OIDCClientInput_GrantTypes := []; OIDCClientInput_ProviderID := ""; OIDCClientInput_ClientID := ""; OIDCClientInput_ClientType := "";
  OIDCClientInput_ClientSecret := ""; OIDCClientInput_RedirectURIs := ["https://app.test/new"]; OIDCClientInput_RedirectURIRegexes := [];
  OIDCClientInput_PostLogoutRedirectURIs := []; OIDCClientInput_AllowedScopes := ["openid"]; OIDCClientInput_AllowedGrantTypes := Some ["authorization_code"];
  OIDCClientInput_RequirePKCE := true; OIDCClientInput_AccessTokenTTLSeconds := 600; OIDCClientInput_IDTokenTTLSeconds := 300;
  OIDCClientInput_RefreshTokenTTLSeconds := 0; OIDCClientInput_Status := "enabled" |}.
Definition sample_admin : PermissionResolver := Some (Ok {[ "admin" := ["identity.providers.update"] ]}).

Lemma blank_type_locks_public_client_witness :
  let run := @UpdateOIDCClient oidc_catalog elements_map_range clear_cipher sample_deps sample_signer no_ring "secret" sample_admin true oidc_clock oidc_entropy
    oidc_principal "row-1" sample_edit in
  exists stored, od_clients (ow_store (snd (run sample_world))) !! "row-1" = Some stored /\ OIDCClient_ClientType stored = OIDCClientTypeConfidential /\
    @locked_out sample_deps stored.
Proof.
  intros run. assert (exists c, fst (run sample_world) = Ok c) as [c Hc] by (vm_compute; eexists; reflexivity).
  refine (proj1 (@blank_type_locks_public_client oidc_catalog elements_map_range clear_cipher sample_deps sample_signer no_ring "secret" sample_admin true oidc_clock
    oidc_entropy oidc_principal "row-1" sample_edit sample_client sample_world c _ _ _ _ _ _ _ _ (run_pair run _ _ Hc)));
    vm_compute; first [reflexivity | discriminate].
Defined.

(** The requests of the sample, with the code presented twice. *)
Definition sample_requests : list (@oidc_request sample_signer) :=
  [@ReqAuthorize sample_signer oidc_clock oidc_entropy "10.0.0.1" "https://soha.test/" oidc_principal sample_request;
   @ReqToken sample_signer oidc_clock oidc_entropy "https://soha.test" sample_token_request;
   @ReqToken sample_signer oidc_clock oidc_entropy "https://soha.test" sample_token_request].

(** One of the two exchanges of the code succeeds. *)
Lemma service_refines_store_witness :
  (@exchanges oidc_catalog elements_map_range oidc_database clear_cipher sample_deps sample_signer oidc_users no_ring "secret" sample_admin true
     (hashToken sample_raw) sample_requests sample_world = 1 /\
   @exchanges oidc_catalog elements_map_range oidc_database clear_cipher sample_deps sample_signer oidc_users no_ring "secret" sample_admin true
     (hashToken sample_raw) sample_requests sample_world <= 0 + 1)%nat.
Proof.
  pose proof (proj2 (@service_refines_store oidc_catalog elements_map_range oidc_database clear_cipher sample_deps sample_signer oidc_users no_ring
    "secret" sample_admin true sample_requests sample_world (hashToken sample_raw) sample_store_wf)) as Hle.
  assert (fresh_code (hashToken sample_raw) (ow_store sample_world) = 0%nat) as Hf by (vm_compute; reflexivity).
  assert (length (List.filter (@draws_code sample_signer (hashToken sample_raw)) sample_requests) = 1%nat) as Hd by (vm_compute; reflexivity).
  rewrite Hf, Hd in Hle. split; [vm_compute; reflexivity|]. eapply Nat.le_trans; [apply Nat.le_add_r|exact Hle].
Defined.
