(* ===== verification/ProxyAuth.v ===== *)
(** * Proxy authentication

    The part of [application/identityprovider/service.go] that decides whether
    a request to an application behind a proxy passes: the search for the
    provider of a host and path, proxy sessions signed with a key derived from
    the keyring, paths without authentication, the access policy of the
    application, and the headers that carry the identity of the user.  HS256
    tokens are an interface, like the parsing of URLs. *)

From Stdlib Require Import Ascii.
From S2P Require Import Prelude GoStrings Stateful AccessModel PermissionTables PermissionResolver WorkflowModel GoLib GoCrypto GoSha256 SecretCrypto Sql PortalPolicy OidcStore OidcProvider OidcFlow.

Open Scope Z_scope.

(** ** Inputs and results *)

Definition ProviderTypeProxy : string := "proxy".
Definition ProxyModeReverseProxy : string := "reverse_proxy".
Definition ProxyDecisionAllow : string := "allow".
Definition ProxyDecisionDeny : string := "deny".
Definition ProxyDecisionLogin : string := "login".

Record ProxyAuthInput := {
  ProxyAuthInput_ProviderID : string;
  ProxyAuthInput_OriginalURL : string;
  ProxyAuthInput_ForwardedHost : string;
  ProxyAuthInput_ForwardedProto : string;
  ProxyAuthInput_ForwardedURI : string;
  ProxyAuthInput_RequestHost : string;
  ProxyAuthInput_RequestPath : string;
  ProxyAuthInput_Method : string;
  ProxyAuthInput_Redirect : bool;
  ProxyAuthInput_SessionToken : string;
  ProxyAuthInput_SourceIP : string;
  ProxyAuthInput_MFAAuthenticated : bool
}.

Record ProxySession := { ProxySession_Token : string; ProxySession_ExpiresAt : Z }.

Record ProxyAuthResult := {
  ProxyAuthResult_Decision : string;
  ProxyAuthResult_Reason : string;
  ProxyAuthResult_LoginURL : string;
  ProxyAuthResult_OriginalURL : string;
  ProxyAuthResult_CookieDomain : string;
  ProxyAuthResult_Provider : Provider;
  ProxyAuthResult_Application : Application;
  ProxyAuthResult_Headers : gmap string string;
  ProxyAuthResult_Skipped : bool
}.

Record ReverseProxyInput := {
  ReverseProxyInput_ProviderID : string;
  ReverseProxyInput_Path : string;
  ReverseProxyInput_OriginalURL : string;
  ReverseProxyInput_Method : string;
  ReverseProxyInput_SessionToken : string
}.

Record ReverseProxyResult := {
  ReverseProxyResult_Auth : ProxyAuthResult;
  ReverseProxyResult_UpstreamURL : string;
  ReverseProxyResult_WebsocketEnabled : bool;
  ReverseProxyResult_AllowPrivateUpstream : bool
}.

Record proxySessionClaims := {
  ProxyClaims_TokenType : string;
  ProxyClaims_SessionID : string;
  ProxyClaims_MFA : bool;
  ProxyClaims_Issuer : string;
  ProxyClaims_Subject : string;
  ProxyClaims_Audience : list string;
  ProxyClaims_ID : string;
  ProxyClaims_IssuedAt : option Z;
  ProxyClaims_NotBefore : option Z;
  ProxyClaims_ExpiresAt : option Z
}.

Definition proxySessionTTL : Z := 12 * 3600 * 1000000000.
Definition proxySessionIssuer : string := "soha-proxy-provider".
Definition proxySessionAudience : string := "soha-proxy".
Definition proxySessionTokenType : string := "proxy_session".

(** HS256 tokens, parsed for an issuer and an audience: a signed token is a
    text of printable characters that holds its claims, and is accepted under
    its key within its time. *)
Class ProxyTokens := {
  hs256_Sign : bytes -> proxySessionClaims -> result string;
  hs256_Parse : bytes -> string -> string -> Z -> string -> option proxySessionClaims;
  hs256_text : forall key c token, hs256_Sign key c = Ok token -> token <> "" /\ all_solid token;
  hs256_claims : forall key c token key' issuer audience now c',
    hs256_Sign key c = Ok token -> hs256_Parse key' issuer audience now token = Some c' -> c' = c;
  hs256_accepted : forall key c token issuer audience now nbf exp,
    hs256_Sign key c = Ok token -> ProxyClaims_Issuer c = issuer -> audience ∈ ProxyClaims_Audience c ->
    ProxyClaims_NotBefore c = Some nbf -> ProxyClaims_ExpiresAt c = Some exp -> nbf * 1000000000 <= now < exp * 1000000000 ->
    hs256_Parse key issuer audience now token = Some c
}.

(** [ORDER BY name, id] gives the rows in some order. *)
Class ProxyDatabase := { provider_rows : list Provider -> list Provider; provider_rows_perm : forall l, provider_rows l ≡ₚ l }.

(** ** Configuration *)

Fixpoint configString (config : go_map) (keys : list string) : string :=
  match keys with
  | [] => ""
  | key :: rest =>
      match config !! key with
      | Some (AString typed) => if negb (blank typed) then TrimSpace typed else configString config rest
      | _ => configString config rest
      end
  end.

Definition config_values (value : option any) : list string :=
  match value with
  | Some (AString typed) => split_byte "," typed
  | Some (AStrings typed) => typed
  | Some (AList typed) => omap (fun item => match item with AString text => Some text | _ => None end) typed
  | _ => []
  end.

Definition configStringSlice (config : go_map) (keys : list string) : list string :=
  compactStrings (mjoin ((fun key => config_values (config !! key)) <$> keys)).

(** The entries of one value; later keys of [configStringMap] win. *)
Definition config_entries (value : option any) : gmap string string :=
  match value with
  | Some (AStringMap typed) => TrimSpace <$> typed
  | Some (AMap typed) => omap (fun item => match item with AString text => Some (TrimSpace text) | _ => None end) typed
  | _ => ∅
  end.

Definition configStringMap (config : go_map) (keys : list string) : gmap string string :=
  foldl (fun out key => config_entries (config !! key) ∪ out) ∅ keys.

Fixpoint configBoolean (config : go_map) (keys : list string) : bool :=
  match keys with
  | [] => false
  | key :: rest => match config !! key with Some (ABool value) => value | _ => configBoolean config rest end
  end.

(** ** Texts *)

(** [textproto.CanonicalMIMEHeaderKey]. *)
Definition header_byte (c : ascii) : bool :=
  let n := nat_of_ascii c in
  (48 <=? n)%nat && (n <=? 57)%nat || (65 <=? n)%nat && (n <=? 90)%nat || (97 <=? n)%nat && (n <=? 122)%nat ||
  existsb (Ascii.eqb c) ["!"; "#"; "$"; "%"; "&"; "'"; "*"; "+"; "-"; "."; "^"; "_"; "`"; "|"; "~"]%char.

Fixpoint canonical_from (upper : bool) (s : string) : string :=
  match s with
  | "" => ""
  | String c rest => let c := if upper then upper_ascii c else lower_ascii c in String c (canonical_from (Ascii.eqb c "-") rest)
  end.

Fixpoint all_bytes (p : ascii -> bool) (s : string) : bool :=
  match s with "" => true | String c rest => p c && all_bytes p rest end.

Definition CanonicalMIMEHeaderKey (s : string) : string := if all_bytes header_byte s then canonical_from true s else s.

(** [url.QueryEscape]. *)
Definition query_hex (n : nat) : ascii := if (n <? 10)%nat then ascii_of_nat (48 + n) else ascii_of_nat (55 + n).

Definition query_plain (c : ascii) : bool :=
  let n := nat_of_ascii c in
  (48 <=? n)%nat && (n <=? 57)%nat || (65 <=? n)%nat && (n <=? 90)%nat || (97 <=? n)%nat && (n <=? 122)%nat || existsb (Ascii.eqb c) ["-"; "_"; "."; "~"]%char.

Fixpoint QueryEscape (s : string) : string :=
  match s with
  | "" => ""
  | String c rest =>
      if query_plain c then String c (QueryEscape rest)
      else if Ascii.eqb c " " then String "+" (QueryEscape rest)
      else String "%" (String (query_hex (nat_of_ascii c / 16)) (String (query_hex (nat_of_ascii c mod 16)) (QueryEscape rest)))
  end.

Definition isSafeHeaderName (value : string) : bool :=
  let value := TrimSpace value in
  negb (str_empty value || ContainsAny value [":"; "013"; "010"]%char) &&
  all_bytes (fun c => let n := nat_of_ascii c in (32 <? n)%nat && (n <? 127)%nat) value.

Definition pathHasPrefix (requestPath prefix : string) : bool :=
  let requestPath := TrimSpace requestPath in
  let requestPath := if str_empty requestPath then "/" else requestPath in
  let requestPath := if HasPrefix requestPath "/" then requestPath else "/" +:+ requestPath in
  let prefix := TrimSpace prefix in
  if str_empty prefix || String.eqb prefix "/" then true
  else
    let prefix := if HasPrefix prefix "/" then prefix else "/" +:+ prefix in
    let prefix := TrimRight_char prefix "/" in
    String.eqb requestPath prefix || HasPrefix requestPath (prefix +:+ "/").

Definition normalizeReverseProxyPath (value : string) : string :=
  let value := TrimSpace value in
  if str_empty value then "/" else if negb (HasPrefix value "/") then "/" +:+ value else value.

Definition normalizeCookieDomain (value : string) : string :=
  let value := TrimSuffix (TrimPrefix (ToLower (TrimSpace value)) ".") "." in
  if str_empty value || ContainsAny value ["/"; ":"; " "; "009"; "013"; "010"]%char then ""
  else if HasPrefix value "." || HasSuffix value "." then ""
  else if negb (str_contains value ".") then "" else value.

Definition proxyPathPrefix (provider : Provider) : string :=
  let value := TrimSpace (configString (Provider_Config provider) ["pathPrefix"; "path_prefix"; "protectedPathPrefix"; "protected_path_prefix"]) in
  if str_empty value then "/"
  else TrimRight_char (if negb (HasPrefix value "/") then "/" +:+ value else value) "/".

Definition proxyPathSkipped (provider : Provider) (requestPath : string) : bool :=
  existsb (pathHasPrefix requestPath) (configStringSlice (Provider_Config provider) ["skipAuthPaths"; "skip_auth_paths"]).

(** ** Hosts *)

Section hosts.
Context `{OidcDeps}.

(** [normalizeProxyHost] and [hostFromURL] call each other: a host that looks
    like a URL is parsed, and the host of a URL holds no slash, so that one
    level is enough ([normalize_host_fuel]). *)
Fixpoint normalize_host (fuel : nat) (value : string) : string :=
  let value := ToLower (TrimSpace value) in
  if str_empty value then ""
  else if str_contains value "://" then
    match fuel with
    | O => ""
    | S k => match url_Parse (TrimSpace value) with Some parsed => normalize_host k (URL_Host parsed) | None => "" end
    end
  else TrimSuffix value ".".

Definition normalizeProxyHost (value : string) : string := normalize_host 1 value.

Definition hostFromURL (value : string) : string :=
  let value := TrimSpace value in
  if str_empty value then ""
  else match url_Parse value with Some parsed => normalizeProxyHost (URL_Host parsed) | None => "" end.

Definition pathFromURL (value : string) : string :=
  let value := TrimSpace value in
  if str_empty value then ""
  else match url_Parse value with Some parsed => URL_RequestURI parsed | None => "" end.

(** [strings.Count(value, ":")]. *)
Definition count_byte (c : ascii) (s : string) : nat := length (filter (fun d => d = c) (chars s)).

Definition stripHostPort (value : string) : string :=
  let value := normalizeProxyHost value in
  if (count_byte ":" value =? 1)%nat then match Cut value ":" with Some (host, _) => host | None => value end else value.

Definition proxyHostsEqual (left right : string) : bool :=
  let left := normalizeProxyHost left in
  let right := normalizeProxyHost right in
  if str_empty left || str_empty right then false
  else String.eqb left right || String.eqb (stripHostPort left) (stripHostPort right).

Definition proxyRequestHost (input : ProxyAuthInput) : string :=
  normalizeProxyHost (firstNonEmpty [hostFromURL (ProxyAuthInput_OriginalURL input); ProxyAuthInput_ForwardedHost input; ProxyAuthInput_RequestHost input]).

Definition proxyPath (input : ProxyAuthInput) : string :=
  let value := TrimSpace (firstNonEmpty [pathFromURL (ProxyAuthInput_OriginalURL input); ProxyAuthInput_ForwardedURI input; ProxyAuthInput_RequestPath input]) in
  if str_empty value then "/"
  else
    let value := match url_Parse value with Some parsed => if negb (str_empty (URL_Path parsed)) then URL_Path parsed else value | None => value end in
    if negb (HasPrefix value "/") then "/" +:+ value else value.

Definition proxyOriginalURL (input : ProxyAuthInput) : string :=
  if negb (blank (ProxyAuthInput_OriginalURL input)) then TrimSpace (ProxyAuthInput_OriginalURL input)
  else
    let proto := if blank (ProxyAuthInput_ForwardedProto input) then "https" else TrimSpace (ProxyAuthInput_ForwardedProto input) in
    let host := proxyRequestHost input in
    let uri := TrimSpace (firstNonEmpty [ProxyAuthInput_ForwardedURI input; ProxyAuthInput_RequestPath input]) in
    let uri := if str_empty uri then "/" else uri in
    if negb (str_empty host) then proto +:+ "://" +:+ host +:+ uri else uri.

Definition proxyHostCandidates (provider : Provider) (launchURL : string) : list string :=
  compactStrings (configStringSlice (Provider_Config provider) ["externalHosts"; "external_hosts"; "hosts"] ++
    [configString (Provider_Config provider) ["externalHost"; "external_host"; "host"]] ++
    (let host := hostFromURL launchURL in if negb (str_empty host) then [host] else [])).

Definition proxyHostMatches (provider : Provider) (application : Application) (requestHost : string) : bool :=
  let requestHost := normalizeProxyHost requestHost in
  if str_empty requestHost then false
  else existsb (fun host => proxyHostsEqual host requestHost) (proxyHostCandidates provider (Application_LaunchURL application)).

Definition proxyCookieDomain (provider : Provider) (requestHost : string) : string :=
  let domain := normalizeCookieDomain (configString (Provider_Config provider) ["cookieDomain"; "cookie_domain"]) in
  if str_empty domain then ""
  else
    let host := stripHostPort (normalizeProxyHost requestHost) in
    if str_empty host || str_contains host ":" then ""
    else if String.eqb host domain || HasSuffix host ("." +:+ domain) then domain else "".

Definition validateReverseProxyUpstream (value : string) : result string :=
  let value := TrimSpace value in
  let invalid := Err (errorf ErrInvalidArgument "reverse proxy upstream URL must use http or https") in
  match url_Parse value with
  | None => invalid
  | Some parsed =>
      if str_empty (URL_Host parsed) || (negb (String.eqb (URL_Scheme parsed) "http") && negb (String.eqb (URL_Scheme parsed) "https")) then invalid
      else if URL_User parsed || negb (str_empty (URL_Fragment parsed))
      then Err (errorf ErrInvalidArgument "reverse proxy upstream URL must not include credentials or a fragment")
      else Ok (URL_String parsed)
  end.

Definition normalizeOutpostForwardAuthURL (value : string) : result string :=
  let value := TrimSpace value in
  if str_empty value then Ok ""
  else
    let invalid := Err (errorf ErrInvalidArgument "forward-auth URL must be an absolute HTTP(S) URL without credentials, query or fragment") in
    match url_Parse value with
    | None => invalid
    | Some u =>
        if (2048 <? String.length value)%nat || str_empty (URL_Hostname u) ||
           (negb (String.eqb (URL_Scheme u) "https") && negb (String.eqb (URL_Scheme u) "http")) || URL_User u ||
           negb (str_empty (URL_RawQuery u)) || negb (str_empty (URL_Fragment u))
        then invalid else Ok (URL_String u)
    end.

(** [publicAccessURL] may be nil; an error leaves the base empty. *)
Definition proxyLoginURL (publicAccessURL : option string) (providerID originalURL : string) : string :=
  let target := if blank originalURL then "/portal" else TrimSpace originalURL in
  let base := match publicAccessURL with
    | Some access => match normalizeOutpostForwardAuthURL access with Ok base => base | Err _ => "" end
    | None => ""
    end in
  TrimRight_char base "/" +:+ "/api/v1/provider/proxy/start?provider_id=" +:+ QueryEscape providerID +:+ "&return_to=" +:+ QueryEscape target.
End hosts.

(** ** Headers *)

Definition default_headers : gmap string string :=
  list_to_map [("user", "X-Soha-User"); ("userId", "X-Soha-User-ID"); ("email", "X-Soha-Email"); ("roles", "X-Soha-Roles"); ("teams", "X-Soha-Teams");
    ("groups", "X-Soha-Groups"); ("projects", "X-Soha-Projects"); ("tags", "X-Soha-Tags")].

Definition header_claims (principal : Principal) : gmap string string :=
  list_to_map [("user", firstNonEmpty [Principal_UserName principal; Principal_UserID principal]); ("userId", Principal_UserID principal);
    ("email", Principal_Email principal); ("roles", Join (Principal_Roles principal) ","); ("teams", Join (Principal_Teams principal) ",");
    ("groups", Join (compactStrings (Principal_Roles principal ++ Principal_Teams principal)) ","); ("projects", Join (Principal_Projects principal) ",");
    ("tags", Join (Principal_Tags principal) ",")].

(** The name of the header of a claim, and the step of the loop. *)
Definition header_name (provider : Provider) (claim : string) : string :=
  firstNonEmpty [default "" (configStringMap (Provider_Config provider) ["headerMappings"; "header_mappings"] !! claim); default "" (default_headers !! claim)].

Definition add_header (principal : Principal) (provider : Provider) (headers : gmap string string) (claim : string) : gmap string string :=
  if negb (isSafeHeaderName (header_name provider claim)) then headers
  else
    let value := TrimSpace (default "" (header_claims principal !! claim)) in
    if negb (str_empty value) then <[CanonicalMIMEHeaderKey (header_name provider claim) := value]> headers else headers.

Definition proxyIdentityHeaders `{MapRange} (principal : Principal) (provider : Provider) : gmap string string :=
  foldl (add_header principal provider) ∅ (range_keys (dom default_headers)).

Definition sortedMapKeys `{MapRange} (values : gmap string string) : list string := sort_strings (range_keys (dom values)).

(** ** Decisions *)

Definition validateProxyProviderRuntime (provider : Provider) (application : Application) : option error :=
  if negb (providerEnabled provider) || negb (String.eqb (Provider_Type provider) ProviderTypeProxy)
  then Some (errorf ErrUnauthorized "proxy provider is disabled")
  else if negb (String.eqb (Application_Status application) ApplicationStatusEnabled)
  then Some (errorf ErrAccessDenied "application is disabled")
  else None.

Definition validateProxyProviderAccess (now : Z) (contextIP : string) (principal : Principal) (provider : Provider) (application : Application)
    (sourceIP : string) (mfa : bool) : option error :=
  match validateProxyProviderRuntime provider application with
  | Some err => Some err
  | None => applicationPolicyAccessError principal application
      {| Access_SourceIP := if blank sourceIP then contextIP else TrimSpace sourceIP; Access_MFAAuthenticated := mfa; Access_Now := now |}
  end.

Definition proxySessionKey (secret : string) : bytes := sha256 (bytes_of ("soha-proxy-session:" +:+ TrimSpace secret)).

Section proxy.
Context `{MapRange, OidcDeps, UserRepository, ProxyTokens, ProxyDatabase}.
Context (keys : Ring) (encryptionKey : string) (publicAccessURL : option string) (audited : bool).

Definition proxySessionSigningKey : bytes :=
  let secret := TrimSpace (Key_secret (Ring_active keys)) in
  proxySessionKey (if str_empty secret then TrimSpace encryptionKey else secret).

Definition proxySessionVerificationKeys (now : Z) : list bytes :=
  if str_empty (Key_id (Ring_active keys)) then [proxySessionKey encryptionKey]
  else (fun key => proxySessionKey (Key_secret key)) <$> ValidKeys keys now.

(** The session of the platform behind a token. *)
Definition platform_session_valid (now : Z) (sessionID userID : string) (s : OidcStore) : bool :=
  match repo_GetAuthSessionByID sessionID s with
  | Ok session => String.eqb (PlatformSession_Status session) "active" && String.eqb (PlatformSession_UserID session) userID &&
      (now <? PlatformSession_ExpiresAt session)
  | Err _ => false
  end.

Definition IssueProxySession (clock : nat -> Z) (id : string) (principal : Principal) (sessionID : string) (metadata : go_map) (s : OidcStore)
    : result ProxySession :=
  if blank (Principal_UserID principal) then Err (errorf ErrUnauthorized "authentication required")
  else
    let sessionID := TrimSpace sessionID in
    if str_empty sessionID then Err (errorf ErrUnauthorized "platform session is required")
    else if negb (platform_session_valid (clock 0%nat) sessionID (Principal_UserID principal) s)
    then Err (errorf ErrUnauthorized "platform session is invalid")
    else
      let now := clock 1%nat in
      let expiresAt := now + proxySessionTTL in
      let claims := {| ProxyClaims_TokenType := proxySessionTokenType; ProxyClaims_SessionID := sessionID; ProxyClaims_MFA := metadataMFA metadata;
        ProxyClaims_Issuer := proxySessionIssuer; ProxyClaims_Subject := Principal_UserID principal; ProxyClaims_Audience := [proxySessionAudience];
        ProxyClaims_ID := id; ProxyClaims_IssuedAt := Some (unix now); ProxyClaims_NotBefore := Some (unix now);
        ProxyClaims_ExpiresAt := Some (unix expiresAt) |} in
      let* value := map_err (wrapf "sign proxy session") (hs256_Sign proxySessionSigningKey claims) in
      Ok {| ProxySession_Token := value; ProxySession_ExpiresAt := expiresAt |}.

(** The first key that accepts the token. *)
Fixpoint first_claims (now : Z) (token : string) (signingKeys : list bytes) : option proxySessionClaims :=
  match signingKeys with
  | [] => None
  | signingKey :: rest =>
      match hs256_Parse signingKey proxySessionIssuer proxySessionAudience now token with
      | Some claims => Some claims
      | None => first_claims now token rest
      end
  end.

Definition parseProxySessionAccess (clock : nat -> Z) (tokenString : string) (s : OidcStore) : result (Principal * bool) :=
  let tokenString := TrimSpace tokenString in
  if str_empty tokenString then Err (errorf ErrUnauthorized "proxy session is required")
  else match first_claims (clock 0%nat) tokenString (proxySessionVerificationKeys (clock 0%nat)) with
  | None => Err (errorf ErrUnauthorized "invalid proxy session")
  | Some claims =>
      if negb (String.eqb (ProxyClaims_TokenType claims) proxySessionTokenType) || blank (ProxyClaims_Subject claims) || blank (ProxyClaims_SessionID claims)
      then Err (errorf ErrUnauthorized "invalid proxy session")
      else if negb (platform_session_valid (clock 1%nat) (ProxyClaims_SessionID claims) (ProxyClaims_Subject claims) s)
      then Err (errorf ErrUnauthorized "platform session is invalid")
      else let* principal := loadPrincipal (ProxyClaims_Subject claims) in Ok (principal, ProxyClaims_MFA claims)
  end.

Definition parseProxySession (clock : nat -> Z) (tokenString : string) (s : OidcStore) : result Principal :=
  let* access := parseProxySessionAccess clock tokenString s in Ok (fst access).

(** Whether a provider serves a host and a path. *)
Definition provider_serves (provider : Provider) (application : Application) (host path : string) : bool :=
  proxyHostMatches provider application host && pathHasPrefix path (proxyPathPrefix provider).

(** The loop over the providers: the longest path prefix, the first one of the
    list among equals. *)
Fixpoint best_provider (host path : string) (s : OidcStore) (best : option (nat * (Provider * Application))) (providers : list Provider)
    : option (nat * (Provider * Application)) :=
  match providers with
  | [] => best
  | provider :: rest =>
      if negb (providerEnabled provider) || negb (String.eqb (Provider_Type provider) ProviderTypeProxy) then best_provider host path s best rest
      else match repo_GetProviderApplication (Provider_ID provider) s with
      | Err _ => best_provider host path s best rest
      | Ok application =>
          if negb (provider_serves provider application host path) then best_provider host path s best rest
          else
            let score := String.length (proxyPathPrefix provider) in
            let better := match best with None => true | Some (bestScore, _) => (bestScore <? score)%nat end in
            best_provider host path s (if better then Some (score, (provider, application)) else best) rest
      end
  end.

Definition repo_ListProxyProviders (s : OidcStore) : list Provider :=
  provider_rows (rows_where (fun p => String.eqb (Provider_Type p) ProviderTypeProxy && String.eqb (Provider_Status p) ProviderStatusEnabled) (od_providers s)).

Definition resolveProxyProvider (input : ProxyAuthInput) (s : OidcStore) : result (Provider * Application) :=
  let providerID := TrimSpace (ProxyAuthInput_ProviderID input) in
  let host := proxyRequestHost input in
  if negb (str_empty providerID) then
    let* provider := repo_GetProvider providerID s in
    let* application := repo_GetProviderApplication (Provider_ID provider) s in
    if negb (String.eqb (Provider_Type provider) ProviderTypeProxy) then Err (errorf ErrInvalidArgument "provider is not a proxy provider")
    else if str_empty host then Err (errorf ErrInvalidArgument "proxy host is required")
    else if negb (proxyHostMatches provider application host) then Err (errorf ErrAccessDenied "proxy host does not match provider")
    else if negb (pathHasPrefix (proxyPath input) (proxyPathPrefix provider)) then Err (errorf ErrAccessDenied "proxy path does not match provider")
    else Ok (provider, application)
  else if str_empty host then Err (errorf ErrInvalidArgument "proxy host is required")
  else match best_provider host (proxyPath input) s None (repo_ListProxyProviders s) with
  | None => Err (errorf ErrNotFound "proxy provider not found")
  | Some (_, best) => Ok best
  end.

(** Who asks: the principal, or without one the user of the proxy session. *)
Definition requester (clock : nat -> Z) (principal : Principal) (input : ProxyAuthInput) (s : OidcStore) : Principal * bool :=
  if blank (Principal_UserID principal) then
    match parseProxySessionAccess clock (ProxyAuthInput_SessionToken input) s with
    | Ok access => access
    | Err _ => (principal, ProxyAuthInput_MFAAuthenticated input)
    end
  else (principal, ProxyAuthInput_MFAAuthenticated input).

(** The fields of a provider that [redactProviderSecrets] changes, the secret
    references, are not part of the model. *)
Definition ProxyAuth (clock : nat -> Z) (contextIP : string) (principal : Principal) (input : ProxyAuthInput) : oidc ProxyAuthResult :=
  let! found := oquery (resolveProxyProvider input) in
  let '(provider, application) := found in
  let originalURL := proxyOriginalURL input in
  let result decision reason loginURL headers skipped := {|
    ProxyAuthResult_Decision := decision; ProxyAuthResult_Reason := reason; ProxyAuthResult_LoginURL := loginURL; ProxyAuthResult_OriginalURL := originalURL;
    ProxyAuthResult_CookieDomain := proxyCookieDomain provider (proxyRequestHost input); ProxyAuthResult_Provider := provider;
    ProxyAuthResult_Application := application; ProxyAuthResult_Headers := headers; ProxyAuthResult_Skipped := skipped |} in
  let metadata := <["originalUrl" := AString originalURL]> {[ "applicationId" := AString (Application_ID application) ]} in
  do! ocheck (validateProxyProviderRuntime provider application);
  if proxyPathSkipped provider (proxyPath input) then
    do! recordAudit audited principal "proxy.allow" "success" provider ""
      (<["skipped" := ABool true]> (<["reason" := AString "skip_auth_path"]> metadata));
    gret (result ProxyDecisionAllow "skip_auth_path" "" ∅ true)
  else
    let! access := oquery (fun s => Ok (requester clock principal input s)) in
    let '(principal, mfa) := access in
    if blank (Principal_UserID principal) then
      do! recordAudit audited principal "proxy.login" "denied" provider "" (<["reason" := AString "authentication required"]> metadata);
      gret (result ProxyDecisionLogin "authentication required" (proxyLoginURL publicAccessURL (Provider_ID provider) originalURL) ∅ false)
    else match validateProxyProviderAccess (clock 2%nat) contextIP principal provider application (ProxyAuthInput_SourceIP input) mfa with
    | Some err =>
        let reason := if bool_decide (err_kind err = ErrMFARequired) then "mfa_required" else err_text err in
        do! recordAudit audited principal "proxy.deny" "denied" provider "" (<["reason" := AString reason]> metadata);
        gret (result ProxyDecisionDeny reason "" ∅ false)
    | None =>
        let headers := proxyIdentityHeaders principal provider in
        do! recordAudit audited principal "proxy.allow" "success" provider "" (<["headers" := AStrings (sortedMapKeys headers)]> metadata);
        gret (result ProxyDecisionAllow "proxy access allowed" "" headers false)
    end.

Definition ProxyCookieDomain (input : ProxyAuthInput) (s : OidcStore) : result string :=
  let* found := resolveProxyProvider input s in Ok (proxyCookieDomain (fst found) (proxyRequestHost input)).

(** What [ReverseProxy] asks of [ProxyAuth]. *)
Definition reverse_input (providerID host : string) (input : ReverseProxyInput) : ProxyAuthInput := {|
  ProxyAuthInput_ProviderID := providerID; ProxyAuthInput_OriginalURL := ""; ProxyAuthInput_ForwardedHost := host;
  ProxyAuthInput_ForwardedProto := "https"; ProxyAuthInput_ForwardedURI := normalizeReverseProxyPath (ReverseProxyInput_Path input);
  ProxyAuthInput_RequestHost := ""; ProxyAuthInput_RequestPath := ""; ProxyAuthInput_Method := TrimSpace (ReverseProxyInput_Method input);
  ProxyAuthInput_Redirect := false; ProxyAuthInput_SessionToken := TrimSpace (ReverseProxyInput_SessionToken input);
  ProxyAuthInput_SourceIP := ""; ProxyAuthInput_MFAAuthenticated := false |}.

Definition ReverseProxy (clock : nat -> Z) (contextIP : string) (principal : Principal) (input : ReverseProxyInput) : oidc ReverseProxyResult :=
  let providerID := TrimSpace (ReverseProxyInput_ProviderID input) in
  if str_empty providerID then gfail (errorf ErrInvalidArgument "provider_id is required")
  else
    let! provider := oquery (repo_GetProvider providerID) in
    let config := Provider_Config provider in
    if negb (String.eqb (Provider_Type provider) ProviderTypeProxy) then gfail (errorf ErrInvalidArgument "provider is not a proxy provider")
    else if negb (providerEnabled provider) then gfail (errorf ErrAccessDenied "proxy provider is disabled")
    else if negb (String.eqb (ToLower (configString config ["mode"])) ProxyModeReverseProxy)
    then gfail (errorf ErrInvalidArgument "proxy provider is not in reverse_proxy mode")
    else
      let! upstreamURL := glift (validateReverseProxyUpstream (configString config ["upstreamUrl"; "upstreamURL"; "upstream_url"])) in
      match proxyHostCandidates provider "" with
      | [] => gfail (errorf ErrInvalidArgument "reverse proxy external host is required")
      | host :: _ =>
          let! auth := ProxyAuth clock contextIP principal (reverse_input providerID host input) in
          gret {| ReverseProxyResult_Auth := auth; ReverseProxyResult_UpstreamURL := upstreamURL;
                  ReverseProxyResult_WebsocketEnabled := configBoolean config ["websocketEnabled"; "websocket_enabled"];
                  ReverseProxyResult_AllowPrivateUpstream := configBoolean config ["allowPrivateUpstream"; "allow_private_upstream"] |}
      end.
End proxy.

(** ** The request sent to the upstream

    From [api/handlers/providerportal/handler.go]: the headers of a request by
    their canonical names.  The director of the standard library sets an
    absent user agent to the empty text; then the credentials are removed and
    the identity headers are set.  After the director, [httputil.ReverseProxy]
    removes the headers of the connection: those that the [Connection] header
    names, and a fixed list. *)

Abbreviation Header := (gmap string (list string)).

(** [http.Request.Cookies] and [AddCookie], on the values of the header. *)
Class HttpCookies := { Cookies : list string -> list (string * string); AddCookie : list string -> string * string -> list string }.

Definition Header_Del (key : string) (h : Header) : Header := delete (CanonicalMIMEHeaderKey key) h.
Definition Header_Set (key value : string) (h : Header) : Header := <[CanonicalMIMEHeaderKey key := [value]]> h.

Definition credential_header (key : string) : bool :=
  let lowerKey := ToLower key in
  String.eqb lowerKey "forwarded" || String.eqb lowerKey "x-real-ip" || HasPrefix lowerKey "x-forwarded-" ||
  HasPrefix lowerKey "x-original-" || HasPrefix lowerKey "x-soha-".

Definition stripProxyCredentials `{MapRange, HttpCookies} (h : Header) : Header :=
  let h := Header_Del "Authorization" h in
  let h := foldl (fun out key => if credential_header key then Header_Del key out else out) h (range_keys (dom h)) in
  let cookies := Cookies (default [] (h !! "Cookie")) in
  foldl (fun out cookie => if negb (HasPrefix (ToLower (fst cookie)) "soha_")
    then <["Cookie" := AddCookie (default [] (out !! "Cookie")) cookie]> out else out) (Header_Del "Cookie" h) cookies.

Definition proxy_director `{MapRange, HttpCookies} (identity : gmap string string) (h : Header) : Header :=
  let h := match h !! "User-Agent" with Some _ => h | None => Header_Set "User-Agent" "" h end in
  foldl (fun out key => Header_Set key (default "" (identity !! key)) out) (stripProxyCredentials h) (range_keys (dom identity)).

Definition hopHeaders : list string :=
  ["Connection"; "Proxy-Connection"; "Keep-Alive"; "Proxy-Authenticate"; "Proxy-Authorization"; "Te"; "Trailer"; "Transfer-Encoding"; "Upgrade"].

(** The names that the [Connection] header lists, trimmed by [textproto.TrimString]. *)
Definition connection_names (h : Header) : list string :=
  filter (fun name => name <> "") ((fun field => Trim field [" "; "009"; "010"; "013"]%char) <$>
    concat (split_byte "," <$> default [] (h !! "Connection"))).

Definition removeHopByHopHeaders (h : Header) : Header :=
  let delete_all := foldl (fun out key => Header_Del key out) in
  delete_all (delete_all h (connection_names h)) hopHeaders.

(** [httpguts.HeaderValuesContainsToken], for a token of ASCII letters. *)
Fixpoint lower_bytes (s : string) : string := match s with "" => "" | String c rest => String (lower_ascii c) (lower_bytes rest) end.

Definition values_contain_token (values : list string) (token : string) : bool :=
  existsb (fun value => existsb (fun part => String.eqb (lower_bytes (Trim part [" "; "009"]%char)) (lower_bytes token)) (split_byte "," value)) values.

Definition upgradeType (h : Header) : string :=
  if values_contain_token (default [] (h !! "Connection")) "Upgrade" then default "" (head (default [] (h !! "Upgrade"))) else "".

(** The headers of the request that [ServeHTTP] sends, for the address of the
    client; none when the client asks for a protocol that is not printable. *)
Definition upstream_headers `{MapRange, HttpCookies} (identity : gmap string string) (clientIP : option string) (h : Header) : option Header :=
  let out := proxy_director identity h in
  let protocol := upgradeType out in
  if negb (all_bytes (fun c => let n := nat_of_ascii c in (32 <=? n)%nat && (n <=? 126)%nat) protocol) then None
  else
    let out := removeHopByHopHeaders out in
    let out := if values_contain_token (default [] (h !! "Te")) "trailers" then Header_Set "Te" "trailers" out else out in
    let out := if negb (str_empty protocol) then Header_Set "Upgrade" protocol (Header_Set "Connection" "Upgrade" out) else out in
    let out := match clientIP, out !! "X-Forwarded-For" with
               | None, _ | Some _, Some [] => out
               | Some ip, None => Header_Set "X-Forwarded-For" ip out
               | Some ip, Some prior => Header_Set "X-Forwarded-For" (Join prior ", " +:+ ", " +:+ ip) out
               end in
    Some (match out !! "User-Agent" with Some _ => out | None => Header_Set "User-Agent" "" out end).

(** ** Lemmas: texts *)

Lemma strip_prefix_chars p s r c : strip_prefix p s = Some r -> c ∈ chars p -> c ∈ chars s.
Proof.
  revert s. induction p as [|a p IH]; intros s Hs Hc; [by apply not_elem_of_nil in Hc|]. destruct s as [|b s]; [done|]. cbn [strip_prefix] in Hs.
  destruct (Ascii.eqb_spec a b) as [<-|]; [|done]. cbn [chars] in *. apply elem_of_cons in Hc as [-> |Hc]; [by left|right; eauto].
Qed.

Lemma str_contains_chars s sep c : str_contains s sep = true -> c ∈ chars sep -> c ∈ chars s.
Proof.
  unfold str_contains. intros Hs Hc. destruct (Cut s sep) as [[a b]|] eqn:Hcut; [|done]. clear Hs. revert a b Hcut.
  induction s as [|d s IH]; intros a b Hcut; cbn [Cut] in Hcut.
  - destruct (strip_prefix sep "") as [r|] eqn:Hp; [|done]. by eapply strip_prefix_chars in Hp.
  - destruct (strip_prefix sep (String d s)) as [r|] eqn:Hp; [by eapply strip_prefix_chars in Hp|].
    destruct (Cut s sep) as [[a' b']|]; [|done]. cbn [chars]. right. by eapply IH.
Qed.

Lemma drop_spaces_chars sp2 sp3 s c : c ∈ chars (drop_spaces sp2 sp3 s) -> c ∈ chars s.
Proof. intros Hc. destruct (drop_spaces_suffix sp2 sp3 s) as [p Hp]. rewrite Hp, chars_app, elem_of_app. by right. Qed.

Lemma TrimSpace_chars s c : c ∈ chars (TrimSpace s) -> c ∈ chars s.
Proof.
  unfold TrimSpace, trim_left, trim_right. rewrite chars_rev, elem_of_reverse. intros Hc%drop_spaces_chars.
  rewrite chars_rev, elem_of_reverse in Hc. by apply drop_spaces_chars in Hc.
Qed.

Lemma lower_ascii_slash c : lower_ascii c = "/"%char -> c = "/"%char.
Proof. destruct c as [[] [] [] [] [] [] [] []]; vm_compute; congruence. Qed.

Lemma ToLower_slash s : "/"%char ∈ chars (ToLower s) -> "/"%char ∈ chars s.
Proof.
  induction s as [s IH] using (induction_ltof1 _ String.length). unfold ltof in IH. destruct s as [|c r]; [done|].
  assert ("/"%char ∈ chars (ToLower r) -> "/"%char ∈ chars (String c r)) as Hr.
  { intros Hr. cbn [chars]. right. apply IH; [cbn; lia|done]. }
  assert ("/"%char ∈ lower_ascii c :: chars (ToLower r) -> "/"%char ∈ chars (String c r)) as Hc.
  { rewrite elem_of_cons. intros [He%eq_sym%lower_ascii_slash| ?]; [|auto]. cbn [chars]. rewrite He. by left. }
  cbn [ToLower]. destruct r as [|d r1]; [exact Hc|]. destruct (_ && _).
  - cbn [chars]. rewrite !elem_of_cons. intros [?|Hx]; [done|]. right. right. apply IH; [cbn; lia|done].
  - destruct r1 as [|e r2]; [exact Hc|]. destruct (_ && _ && _); [|exact Hc]. cbn [chars]. rewrite !elem_of_cons. intros [?|Hx]; [done|].
    right. right. right. apply IH; [cbn; lia|done].
Qed.

(** One level of URLs is enough. *)
Lemma normalize_host_fuel `{OidcDeps} k value : normalize_host (S k) value = normalizeProxyHost value.
Proof.
  unfold normalizeProxyHost. cbn [normalize_host]. destruct (str_empty _); [done|]. destruct (str_contains _ _); [|done].
  destruct (url_Parse _) as [u|] eqn:Hu; [|done]. assert (str_contains (ToLower (TrimSpace (URL_Host u))) "://" = false) as Hno.
  { apply not_true_iff_false. intros Hc. apply (url_host _ _ Hu), TrimSpace_chars, ToLower_slash. eapply str_contains_chars; [exact Hc|]. right. by left. }
  destruct k; cbn [normalize_host]; by rewrite Hno.
Qed.

(** ** Path prefixes *)

Lemma split_byte_cons sep s : exists w ws, split_byte sep s = w :: ws.
Proof. destruct s as [|c s]; cbn [split_byte]; [eauto|]. destruct (Ascii.eqb c sep); [eauto|]. destruct (split_byte sep s); eauto. Qed.

Lemma HasPrefix_String c p s : HasPrefix s (String c p) = match s with String d r => Ascii.eqb c d && HasPrefix r p | "" => false end.
Proof. unfold HasPrefix. destruct s as [|d r]; [done|]. cbn [strip_prefix]. by destruct (Ascii.eqb c d). Qed.

(** A text or what follows it after a slash, and the lists of segments. *)
Lemma segments_prefix q p : (String.eqb p q || HasPrefix p (q +:+ "/")) = true <-> split_byte "/" q `prefix_of` split_byte "/" p.
Proof.
  revert p. induction q as [|c q IH]; intros p.
  - rewrite append_empty, HasPrefix_String. destruct p as [|d p]; cbn [split_byte String.eqb orb]; [split; [intros _; reflexivity|done]|].
    destruct (Ascii.eqb_spec "/" d) as [<-|Hd].
    + change (Ascii.eqb "/" "/") with true. split; [intros _; by exists (split_byte "/" p)|done].
    + rewrite (proj2 (Ascii.eqb_neq d "/")) by done. cbn [andb orb]. destruct (split_byte_cons "/" p) as (w & ws & ->). split; [done|].
      intros [k [=]].
  - rewrite append_String, HasPrefix_String. destruct p as [|d p].
    + cbn [String.eqb orb]. split; [done|]. intros Hp. exfalso. destruct (split_byte_cons "/" q) as (w & ws & Hq). cbn [split_byte] in Hp. rewrite Hq in Hp.
      destruct (Ascii.eqb c "/"); destruct Hp as [k Hk]; [|done]. by destruct k.
    + cbn [String.eqb]. destruct (Ascii.eqb_spec d c) as [-> |Hdc].
      * rewrite Ascii.eqb_refl. cbn [andb]. rewrite IH. cbn [split_byte]. destruct (Ascii.eqb c "/").
        -- split; [intros [k ->]; by exists k|intros [k [= ->]]; by exists k].
        -- destruct (split_byte_cons "/" q) as (w & ws & ->), (split_byte_cons "/" p) as (w' & ws' & ->).
           split; [intros [k [= -> ->]]; by exists k|intros [k [= -> ->]]; by exists k].
      * rewrite (proj2 (Ascii.eqb_neq c d)) by done. cbn [andb orb]. split; [done|]. intros [k Hk]. exfalso. cbn [split_byte] in Hk.
        destruct (split_byte_cons "/" q) as (w & ws & Hq), (split_byte_cons "/" p) as (w' & ws' & Hp). rewrite Hq, Hp in Hk.
        destruct (Ascii.eqb_spec d "/"), (Ascii.eqb_spec c "/"); cbn in Hk; congruence.
Qed.

(** A path starts with a slash. *)
Definition rooted (path : string) : string :=
  let path := TrimSpace path in
  if str_empty path then "/" else if HasPrefix path "/" then path else "/" +:+ path.

(** A path is under a prefix exactly when the segments of the prefix, less
    its trailing slashes, are the first segments of the path: a prefix never
    matches in the middle of a segment, and a blank prefix or a single slash
    matches every path. *)
Theorem path_prefix_exact requestPath prefix :
  pathHasPrefix requestPath prefix = true <->
  TrimSpace prefix = "" \/ TrimSpace prefix = "/" \/
  split_byte "/" (TrimRight_char (rooted prefix) "/") `prefix_of` split_byte "/" (rooted requestPath).
Proof.
  unfold pathHasPrefix, rooted. cbn zeta. rewrite <-segments_prefix. unfold str_empty.
  assert ((if HasPrefix (if String.eqb (TrimSpace requestPath) "" then "/" else TrimSpace requestPath) "/"
     then if String.eqb (TrimSpace requestPath) "" then "/" else TrimSpace requestPath
     else "/" +:+ (if String.eqb (TrimSpace requestPath) "" then "/" else TrimSpace requestPath)) =
    (if String.eqb (TrimSpace requestPath) "" then "/" else if HasPrefix (TrimSpace requestPath) "/" then TrimSpace requestPath else "/" +:+ TrimSpace requestPath))
    as -> by (by destruct (String.eqb (TrimSpace requestPath) "")).
  destruct (String.eqb_spec (TrimSpace prefix) "") as [He|He]; cbn [orb]; [tauto|].
  destruct (String.eqb_spec (TrimSpace prefix) "/") as [Hs|Hs]; [tauto|]. tauto.
Qed.

(** ** The search for a provider *)

Section resolution.
Context `{MapRange, OidcDeps, UserRepository, ProxyTokens, ProxyDatabase}.

(** A provider that may answer for a host and a path. *)
Definition answers (s : OidcStore) (host path : string) (provider : Provider) (application : Application) : Prop :=
  providerEnabled provider = true /\ Provider_Type provider = ProviderTypeProxy /\
  repo_GetProviderApplication (Provider_ID provider) s = Ok application /\ provider_serves provider application host path = true.

Definition score (found : Provider * Application) : nat := String.length (proxyPathPrefix (fst found)).

(** The invariant of the loop: the best one so far answers and no provider
    seen scores more. *)
Definition best_of (s : OidcStore) (host path : string) (seen : list Provider) (best : option (nat * (Provider * Application))) : Prop :=
  match best with
  | None => forall p a, p ∈ seen -> ~ answers s host path p a
  | Some (n, found) => n = score found /\ fst found ∈ seen /\ answers s host path (fst found) (snd found) /\
      forall p a, p ∈ seen -> answers s host path p a -> (score (p, a) <= n)%nat
  end.

Lemma best_of_skip s host path seen best p : (forall a, ~ answers s host path p a) -> best_of s host path seen best ->
  best_of s host path (seen ++ [p]) best.
Proof.
  intros Hno Hb. destruct best as [[n found]|]; cbn in *.
  - destruct Hb as (Hn & Hin & Ha & Hmax). split_and!; [done|set_solver|done|]. intros p' a' Hp Ha'. apply elem_of_app in Hp as [Hp|Hp%list_elem_of_singleton]; [eauto|].
    subst p'. by destruct (Hno a').
  - intros p' a' Hp Ha'. apply elem_of_app in Hp as [Hp|Hp%list_elem_of_singleton]; [by eapply Hb|]. subst p'. by destruct (Hno a').
Qed.

Lemma best_of_add s host path seen best p a : answers s host path p a -> best_of s host path seen best ->
  best_of s host path (seen ++ [p])
    (if match best with None => true | Some (n, _) => (n <? String.length (proxyPathPrefix p))%nat end
     then Some (String.length (proxyPathPrefix p), (p, a)) else best).
Proof.
  intros Hp Hb. assert (forall p', p' ∈ seen ++ [p] -> p' ∈ seen \/ p' = p) as Hin.
  { intros p' Hp'. apply elem_of_app in Hp' as [?|?%list_elem_of_singleton]; auto. }
  destruct best as [[n found]|]; cbn [best_of] in *.
  - destruct Hb as (-> & Hf & Ha & Hmax). destruct (Nat.ltb_spec (score found) (String.length (proxyPathPrefix p))) as [Hlt|Hge]; cbn [best_of fst snd].
    + split_and!; [done|set_solver|done|]. intros p' a' [Hs| ->]%Hin Ha'; [specialize (Hmax _ _ Hs Ha'); lia|done].
    + split_and!; [done|set_solver|done|]. intros p' a' [Hs| ->]%Hin Ha'; [eauto|done].
  - split_and!; [done|cbn [fst]; set_solver|done|]. intros p' a' [Hs| ->]%Hin Ha'; [by destruct (Hb _ _ Hs Ha')|done].
Qed.

Lemma best_provider_spec s host path providers seen best : best_of s host path seen best ->
  best_of s host path (seen ++ providers) (best_provider host path s best providers).
Proof.
  revert seen best. induction providers as [|p rest IH]; intros seen best Hb; [by rewrite app_nil_r|].
  replace (seen ++ p :: rest) with ((seen ++ [p]) ++ rest) by (by rewrite <-app_assoc). cbn [best_provider].
  destruct (negb (providerEnabled p) || negb (String.eqb (Provider_Type p) ProviderTypeProxy)) eqn:Hg.
  { apply IH, best_of_skip; [|done]. intros a (He & Ht & _). by rewrite He, Ht in Hg. }
  apply orb_false_iff in Hg as [He%negb_false_iff Ht%negb_false_iff%String.eqb_eq].
  destruct (repo_GetProviderApplication _ _) as [a|err] eqn:Ha.
  - destruct (provider_serves p a host path) eqn:Hs; cbn [negb].
    + apply IH. by apply best_of_add.
    + apply IH, best_of_skip; [|done]. intros a' (_ & _ & Ha' & Hs'). rewrite Ha in Ha'. injection Ha' as <-. congruence.
  - apply IH, best_of_skip; [|done]. intros a' (_ & _ & Ha' & _). congruence.
Qed.

(** The rows that the search reads. *)
Definition listed (s : OidcStore) (p : Provider) : Prop :=
  (exists k, od_providers s !! k = Some p) /\ Provider_Type p = ProviderTypeProxy /\ Provider_Status p = ProviderStatusEnabled.

Lemma elem_of_listed s p : p ∈ repo_ListProxyProviders s <-> listed s p.
Proof.
  unfold repo_ListProxyProviders, listed. rewrite provider_rows_perm, elem_of_rows, andb_true_iff, !String.eqb_eq. tauto.
Qed.

(** The search for the provider of a request that names none: it fails
    for a request without a host, finds no provider exactly when none that is
    listed answers for the host and the path, and otherwise gives one that
    answers and whose path prefix is as long as that of any other; the order of
    the rows only decides between prefixes of the same length. *)
Theorem proxy_resolution_exact input s :
  TrimSpace (ProxyAuthInput_ProviderID input) = "" ->
  match resolveProxyProvider input s with
  | Ok (p, a) => listed s p /\ answers s (proxyRequestHost input) (proxyPath input) p a /\
      forall p' a', listed s p' -> answers s (proxyRequestHost input) (proxyPath input) p' a' ->
        (String.length (proxyPathPrefix p') <= String.length (proxyPathPrefix p))%nat
  | Err e => (proxyRequestHost input = "" /\ err_kind e = ErrInvalidArgument) \/
      (err_kind e = ErrNotFound /\ forall p a, listed s p -> ~ answers s (proxyRequestHost input) (proxyPath input) p a)
  end.
Proof.
  intros Hid. unfold resolveProxyProvider. rewrite Hid. cbn [str_empty String.eqb negb]. unfold str_empty.
  destruct (String.eqb_spec (proxyRequestHost input) "") as [Hh|Hh]; [by left|].
  pose proof (best_provider_spec s (proxyRequestHost input) (proxyPath input) (repo_ListProxyProviders s) [] None) as Hb.
  destruct (best_provider _ _ _ _ _) as [[n [p a]]|].
  - destruct Hb as (Hn & Hin & Ha & Hmax); [by intros ? ? ?%not_elem_of_nil|]. cbn [app fst snd] in *. subst n. split_and!; [by apply elem_of_listed|done|].
    intros p' a' Hl Ha'. apply (Hmax p' a'); [by apply elem_of_listed|done].
  - right. split; [done|]. intros p a Hl. apply Hb; [by intros ? ? ?%not_elem_of_nil|]. by apply elem_of_listed.
Qed.

(** Whatever way a provider is found, it answers once it is enabled. *)
Lemma resolve_serves input s p a : resolveProxyProvider input s = Ok (p, a) ->
  (exists k, od_providers s !! k = Some p) /\ Provider_Type p = ProviderTypeProxy /\ repo_GetProviderApplication (Provider_ID p) s = Ok a /\
  provider_serves p a (proxyRequestHost input) (proxyPath input) = true.
Proof.
  unfold resolveProxyProvider. destruct (str_empty (TrimSpace _)); cbn [negb].
  - destruct (str_empty _); [done|]. pose proof (best_provider_spec s (proxyRequestHost input) (proxyPath input) (repo_ListProxyProviders s) [] None) as Hb.
    destruct (best_provider _ _ _ _ _) as [[n found]|]; [|done]. intros [= ->]. destruct Hb as (_ & Hin & (_ & ? & ? & ?) & _); [by intros ? ? ?%not_elem_of_nil|].
    split_and!; [|done..]. by destruct (proj1 (elem_of_listed _ _) Hin).
  - unfold repo_GetProvider. destruct (od_providers s !! _) as [q|] eqn:Hq; [|done]. cbn [result_bind]. destruct (repo_GetProviderApplication _ _) as [b|] eqn:Hb; [|done].
    cbn [result_bind].
    destruct (String.eqb_spec (Provider_Type q) ProviderTypeProxy) as [Ht|]; [|done]. cbn [negb]. destruct (str_empty (proxyRequestHost input)); [done|].
    destruct (proxyHostMatches _ _ _) eqn:Hm; [|done]. cbn [negb]. destruct (pathHasPrefix _ _) eqn:Hp; [|done]. intros [= <- <-].
    split_and!; [eauto|done|done|]. unfold provider_serves. by rewrite Hm, Hp.
Qed.
End resolution.

(** ** Proxy sessions *)

Section sessions.
Context `{MapRange, OidcDeps, UserRepository, ProxyTokens, ProxyDatabase}.

(** The ring [keys'] still holds the key that [keys] signs with: its active
    key is valid in [keys'], or neither has a key and both use the same
    setting. *)
Definition key_kept (keys : Ring) (encryptionKey : string) (keys' : Ring) (encryptionKey' : string) (now : Z) : Prop :=
  (Key_id (Ring_active keys') <> "" /\ blank (Key_secret (Ring_active keys)) = false /\
   exists key, key ∈ ValidKeys keys' now /\ Key_secret key = Key_secret (Ring_active keys)) \/
  (Key_id (Ring_active keys') = "" /\ blank (Key_secret (Ring_active keys)) = true /\ TrimSpace encryptionKey = TrimSpace encryptionKey').

Lemma proxySessionKey_trim secret : proxySessionKey (TrimSpace secret) = proxySessionKey secret.
Proof. unfold proxySessionKey. by rewrite TrimSpace_idem. Qed.

Lemma key_kept_verifies keys encryptionKey keys' encryptionKey' now : key_kept keys encryptionKey keys' encryptionKey' now ->
  proxySessionSigningKey keys encryptionKey ∈ proxySessionVerificationKeys keys' encryptionKey' now.
Proof.
  unfold key_kept, proxySessionSigningKey, proxySessionVerificationKeys. intros [(Hid & Hs & key & Hin & Hk)|(Hid & Hs & He)].
  - unfold str_empty at 2. rewrite (proj2 (String.eqb_neq _ _) Hid). unfold blank in Hs. rewrite Hs.
    rewrite proxySessionKey_trim, <-Hk. apply list_elem_of_fmap. eauto.
  - rewrite Hid. unfold blank in Hs. rewrite Hs. cbn [str_empty String.eqb]. apply list_elem_of_singleton.
    rewrite !proxySessionKey_trim. unfold proxySessionKey. by rewrite He.
Qed.

Lemma first_claims_signed key c token now signingKeys : hs256_Sign key c = Ok token -> key ∈ signingKeys ->
  hs256_Parse key proxySessionIssuer proxySessionAudience now token = Some c -> first_claims now token signingKeys = Some c.
Proof.
  intros Hs Hin Hp. induction signingKeys as [|k rest IH]; [by apply not_elem_of_nil in Hin|]. cbn [first_claims].
  destruct (hs256_Parse k _ _ _ _) as [c'|] eqn:Hk; [f_equal; by eapply hs256_claims|]. apply elem_of_cons in Hin as [->|Hin]; [congruence|auto].
Qed.

(** A proxy session is read back for as long as it lasts, also after the
    keyring was rotated while the old key is still valid: it gives the user it
    was issued for, as the user is now, with the second factor of the platform
    session, and it ends at once when the platform session behind it does. *)
Theorem proxy_session_roundtrip keys encryptionKey clock id principal sessionID metadata s session keys' encryptionKey' clock' s' :
  IssueProxySession keys encryptionKey clock id principal sessionID metadata s = Ok session ->
  key_kept keys encryptionKey keys' encryptionKey' (clock' 0%nat) ->
  clock 1%nat <= clock' 0%nat < unix (ProxySession_ExpiresAt session) * 1000000000 ->
  ProxySession_ExpiresAt session = clock 1%nat + proxySessionTTL /\
  parseProxySessionAccess keys' encryptionKey' clock' (ProxySession_Token session) s' =
    (if platform_session_valid (clock' 1%nat) (TrimSpace sessionID) (Principal_UserID principal) s'
     then let* user := loadPrincipal (Principal_UserID principal) in Ok (user, metadataMFA metadata)
     else Err (errorf ErrUnauthorized "platform session is invalid"))%go.
Proof.
  intros Hi Hk Ht. unfold IssueProxySession in Hi. destruct (blank (Principal_UserID principal)) eqn:Hu; [done|].
  destruct (str_empty (TrimSpace sessionID)) eqn:Hsid; [done|]. destruct (negb _); [done|].
  destruct (hs256_Sign _ _) as [token|err] eqn:Hs; [|done]. injection Hi as <-. cbn [ProxySession_ExpiresAt ProxySession_Token] in *. split; [done|].
  destruct (hs256_text _ _ _ Hs) as [Hne Hsolid]. unfold parseProxySessionAccess. rewrite (TrimSpace_solid _ Hsolid). unfold str_empty at 1.
  rewrite (proj2 (String.eqb_neq _ _) Hne). erewrite first_claims_signed; [|exact Hs|by apply key_kept_verifies|].
  - cbn [ProxyClaims_TokenType ProxyClaims_Subject ProxyClaims_SessionID ProxyClaims_MFA]. rewrite Hu, String.eqb_refl. unfold blank.
    rewrite TrimSpace_idem, Hsid. cbn [negb orb]. by destruct (platform_session_valid _ _ _ _).
  - eapply hs256_accepted; [exact Hs|done|by left|done|done|]. cbn. unfold unix in *. split; [|lia].
    pose proof (Z.mul_div_le (clock 1%nat) 1000000000). lia.
Qed.
End sessions.

(** ** Decisions *)

Section decisions.
Context `{MapRange, OidcDeps, UserRepository, ProxyTokens, ProxyDatabase}.
Context (keys : Ring) (encryptionKey : string) (publicAccessURL : option string) (audited : bool).

(** Who a request comes from: the user that is signed in, or the user of a
    proxy session that a key of the ring accepts, whose platform session is
    active, belongs to the same user and has not expired. *)
Definition identified (clock : nat -> Z) (principal : Principal) (input : ProxyAuthInput) (s : OidcStore) (user : Principal) (mfa : bool) : Prop :=
  (blank (Principal_UserID principal) = false /\ user = principal /\ mfa = ProxyAuthInput_MFAAuthenticated input) \/
  (blank (Principal_UserID principal) = true /\ exists key claims session,
    key ∈ proxySessionVerificationKeys keys encryptionKey (clock 0%nat) /\
    hs256_Parse key proxySessionIssuer proxySessionAudience (clock 0%nat) (TrimSpace (ProxyAuthInput_SessionToken input)) = Some claims /\
    ProxyClaims_TokenType claims = proxySessionTokenType /\ od_platform s !! ProxyClaims_SessionID claims = Some session /\
    PlatformSession_Status session = "active" /\ PlatformSession_UserID session = ProxyClaims_Subject claims /\
    clock 1%nat < PlatformSession_ExpiresAt session /\ loadPrincipal (ProxyClaims_Subject claims) = Ok user /\ mfa = ProxyClaims_MFA claims).

(** The access policy of the application, for the address of the request. *)
Definition policy_allows (now : Z) (contextIP : string) (input : ProxyAuthInput) (user : Principal) (mfa : bool) (application : Application) : bool :=
  CanAccessApplicationWithContext user application
    {| Access_SourceIP := if blank (ProxyAuthInput_SourceIP input) then contextIP else TrimSpace (ProxyAuthInput_SourceIP input);
       Access_MFAAuthenticated := mfa; Access_Now := now |}.

Lemma first_claims_key now token signingKeys c : first_claims now token signingKeys = Some c ->
  exists key, key ∈ signingKeys /\ hs256_Parse key proxySessionIssuer proxySessionAudience now token = Some c.
Proof.
  induction signingKeys as [|k rest IH]; [done|]. cbn [first_claims]. destruct (hs256_Parse k _ _ _ _) as [c'|] eqn:Hk.
  - intros [= ->]. exists k. split; [by left|done].
  - intros (key & Hin & Hp)%IH. exists key. split; [by right|done].
Qed.

Lemma platform_session_valid_spec now sessionID userID s : platform_session_valid now sessionID userID s = true <->
  exists session, od_platform s !! sessionID = Some session /\ PlatformSession_Status session = "active" /\ PlatformSession_UserID session = userID /\
    now < PlatformSession_ExpiresAt session.
Proof.
  unfold platform_session_valid, repo_GetAuthSessionByID. destruct (od_platform s !! sessionID) as [p|].
  - rewrite !andb_true_iff, !String.eqb_eq, Z.ltb_lt. split; [intros [[??]?]; eauto|]. intros (p' & [= <-] & ? & ? & ?). by repeat split.
  - split; [done|]. by intros (p' & ? & _).
Qed.

Lemma parse_identified clock principal input s user mfa : blank (Principal_UserID principal) = true ->
  parseProxySessionAccess keys encryptionKey clock (ProxyAuthInput_SessionToken input) s = Ok (user, mfa) -> identified clock principal input s user mfa.
Proof.
  intros Hb Hp. right. split; [done|]. unfold parseProxySessionAccess in Hp. destruct (str_empty _); [done|].
  destruct (first_claims _ _ _) as [claims|] eqn:Hf; [|done]. apply first_claims_key in Hf as (key & Hin & Hk).
  destruct (String.eqb_spec (ProxyClaims_TokenType claims) proxySessionTokenType) as [Ht|]; [|done]. cbn [negb orb] in Hp.
  destruct (_ || _)%bool; [done|]. destruct (platform_session_valid _ _ _ _) eqn:Hv; [|done]. apply platform_session_valid_spec in Hv as (session & ? & ? & ? & ?).
  cbn [negb] in Hp. destruct (loadPrincipal _) as [u|] eqn:Hl; [|done]. injection Hp as <- <-. exists key, claims, session. by split_and!.
Qed.

Lemma requester_identified clock principal input s user mfa : requester keys encryptionKey clock principal input s = (user, mfa) ->
  blank (Principal_UserID user) = false -> identified clock principal input s user mfa.
Proof.
  unfold requester. destruct (blank (Principal_UserID principal)) eqn:Hb.
  - destruct (parseProxySessionAccess _ _ _ _ _) as [[u m]|] eqn:Hp; intros [= <- <-]; [intros _; by apply parse_identified|congruence].
  - intros [= <- <-] _. by left.
Qed.

Lemma access_check now contextIP user provider application input mfa : validateProxyProviderRuntime provider application = None ->
  validateProxyProviderAccess now contextIP user provider application (ProxyAuthInput_SourceIP input) mfa = None <->
  policy_allows now contextIP input user mfa application = true.
Proof.
  intros Hr. unfold validateProxyProviderAccess, applicationPolicyAccessError, policy_allows. rewrite Hr.
  destruct (CanAccessApplicationWithContext _ _ _); [done|]. destruct (_ && _ && _)%bool; done.
Qed.

Lemma runtime_spec provider application : validateProxyProviderRuntime provider application = None ->
  providerEnabled provider = true /\ Provider_Type provider = ProviderTypeProxy /\ Application_Status application = ApplicationStatusEnabled.
Proof.
  unfold validateProxyProviderRuntime. destruct (providerEnabled provider); [|done]. cbn [negb orb].
  destruct (String.eqb_spec (Provider_Type provider) ProviderTypeProxy); [|done]. cbn [negb].
  by destruct (String.eqb_spec (Application_Status application) ApplicationStatusEnabled).
Qed.

Ltac project := cbn zeta; cbn [ProxyAuthResult_Decision ProxyAuthResult_Provider ProxyAuthResult_Application ProxyAuthResult_Headers].

(** A decision is sound: the provider answers for the host and the path and
    the application is enabled; a request that passes is on a path without
    authentication, and then carries no identity headers, or comes from a user
    whom the policy lets in, and then carries the headers of that user; and a
    signed-in user passes exactly on such a path or when the policy says so. *)
Definition decided (clock : nat -> Z) (contextIP : string) (principal : Principal) (input : ProxyAuthInput) (s : OidcStore) (res : ProxyAuthResult) : Prop :=
  let provider := ProxyAuthResult_Provider res in let application := ProxyAuthResult_Application res in
  answers s (proxyRequestHost input) (proxyPath input) provider application /\
  Application_Status application = ApplicationStatusEnabled /\
  (ProxyAuthResult_Decision res = ProxyDecisionAllow ->
    if proxyPathSkipped provider (proxyPath input) then ProxyAuthResult_Headers res = ∅
    else exists user mfa, identified clock principal input s user mfa /\ policy_allows (clock 2%nat) contextIP input user mfa application = true /\
      ProxyAuthResult_Headers res = proxyIdentityHeaders user provider) /\
  (blank (Principal_UserID principal) = false ->
    (ProxyAuthResult_Decision res = ProxyDecisionAllow <->
     proxyPathSkipped provider (proxyPath input) = true \/
     policy_allows (clock 2%nat) contextIP input principal (ProxyAuthInput_MFAAuthenticated input) application = true)).

Lemma ProxyAuth_decided clock contextIP principal input w res w' :
  ProxyAuth keys encryptionKey publicAccessURL audited clock contextIP principal input w = (Ok res, w') ->
  ow_store w' = ow_store w /\ decided clock contextIP principal input (ow_store w) res.
Proof.
  intros Ht. unfold decided. unfold ProxyAuth in Ht. statement Ht as found w1 S1. destruct found as [provider application]. apply resolve_serves in S1 as (Hrow & Hty & Happ & Hsv).
  statement Ht as u1 w2 S2. pose proof (runtime_spec _ _ S2) as (He & _ & Hst).
  assert (answers (ow_store w) (proxyRequestHost input) (proxyPath input) provider application) as Hans by (by split_and!).
  destruct (proxyPathSkipped provider (proxyPath input)) eqn:Hsk.
  { statement Ht as u3 w3 S3. apply gret_Ok in Ht as [<- ->]. apply recordAudit_store in S3. project. rewrite Hsk. split_and!; try done. intros _. split; [by left|done]. }
  statement Ht as access w3 S3. injection S3 as S3. destruct access as [user mfa]. destruct (blank (Principal_UserID user)) eqn:Hu.
  { statement Ht as u4 w4 S4. apply gret_Ok in Ht as [<- ->]. apply recordAudit_store in S4. project. split_and!; try done.
    intros Hp. unfold requester in S3. rewrite Hp in S3. injection S3 as <- <-. congruence. }
  assert (blank (Principal_UserID principal) = false -> user = principal /\ mfa = ProxyAuthInput_MFAAuthenticated input) as Hsame.
  { intros Hp. unfold requester in S3. rewrite Hp in S3. by injection S3 as <- <-. }
  pose proof (access_check (clock 2%nat) contextIP user provider application input mfa S2) as Hacc.
  destruct (validateProxyProviderAccess _ _ _ _ _ _ _) as [err|] eqn:Hva.
  - statement Ht as u4 w4 S4. apply gret_Ok in Ht as [<- ->]. apply recordAudit_store in S4. project. rewrite Hsk. split_and!; try done.
    intros Hp. destruct (Hsame Hp) as [-> ->]. split; [done|]. intros [|Hpo]; [done|]. by apply Hacc in Hpo.
  - statement Ht as u4 w4 S4. apply gret_Ok in Ht as [<- ->]. apply recordAudit_store in S4. project. rewrite Hsk. split_and!; try done.
    + intros _. exists user, mfa. split_and!; [by apply requester_identified|by apply Hacc|done].
    + intros Hp. destruct (Hsame Hp) as [-> ->]. split; [|done]. intros _. right. by apply Hacc.
Qed.

(** C14. A request passes the proxy only for an enabled proxy provider and an
    enabled application whose host and path it matches, and then either on a
    path configured without authentication, with no identity headers, or for a
    user who is signed in or holds a proxy session of a live platform session,
    and whom the access policy of the application lets in, with the headers of
    exactly that user.  A signed-in user passes exactly when the policy says
    so, and the decision changes no table. *)
Theorem proxy_auth_exact clock contextIP principal input w res w' :
  ProxyAuth keys encryptionKey publicAccessURL audited clock contextIP principal input w = (Ok res, w') ->
  ow_store w' = ow_store w /\ decided clock contextIP principal input (ow_store w) res.
Proof. apply ProxyAuth_decided. Qed.

(** An upstream address: HTTP or HTTPS, a host, no credentials, no fragment. *)
Definition upstream_address (value upstream : string) : Prop :=
  exists u, url_Parse (TrimSpace value) = Some u /\ URL_Host u <> "" /\ (URL_Scheme u = "http" \/ URL_Scheme u = "https") /\ URL_User u = false /\
    URL_Fragment u = "" /\ upstream = URL_String u.

Lemma validateReverseProxyUpstream_Ok value upstream : validateReverseProxyUpstream value = Ok upstream -> upstream_address value upstream.
Proof.
  unfold validateReverseProxyUpstream, upstream_address, str_empty. cbn zeta. destruct (url_Parse (TrimSpace value)) as [u|]; [|done]. intros Hv.
  exists u. split; [done|].
  destruct (String.eqb_spec (URL_Host u) "") as [|Hh]; [done|]. cbn [orb] in Hv.
  assert (URL_Scheme u = "http" \/ URL_Scheme u = "https") as Hs.
  { destruct (String.eqb_spec (URL_Scheme u) "http"); [by left|]. destruct (String.eqb_spec (URL_Scheme u) "https"); [by right|].
    cbn in Hv. done. }
  destruct (negb (String.eqb (URL_Scheme u) "http") && _)%bool; [done|]. destruct (URL_User u); [done|]. cbn [orb] in Hv.
  destruct (String.eqb_spec (URL_Fragment u) ""); [|done]. cbn [negb] in Hv. injection Hv as <-. by split_and!.
Qed.

(** A request is handed to the upstream of a provider only when the
    provider is an enabled proxy in reverse mode with a safe address, and the
    decision is that of the proxy for the first host of the provider and the
    path of the request.  The second factor of a signed-in user is not taken
    into account: such a user passes exactly when the policy lets the user in
    without it. *)
Theorem reverse_proxy_exact clock contextIP principal input w res w' :
  ReverseProxy keys encryptionKey publicAccessURL audited clock contextIP principal input w = (Ok res, w') ->
  exists provider host, od_providers (ow_store w) !! TrimSpace (TrimSpace (ReverseProxyInput_ProviderID input)) = Some provider /\
    providerEnabled provider = true /\ Provider_Type provider = ProviderTypeProxy /\
    ToLower (configString (Provider_Config provider) ["mode"]) = ProxyModeReverseProxy /\
    upstream_address (configString (Provider_Config provider) ["upstreamUrl"; "upstreamURL"; "upstream_url"]) (ReverseProxyResult_UpstreamURL res) /\
    head (proxyHostCandidates provider "") = Some host /\ ow_store w' = ow_store w /\
    decided clock contextIP principal (reverse_input (TrimSpace (ReverseProxyInput_ProviderID input)) host input) (ow_store w) (ReverseProxyResult_Auth res).
Proof.
  intros Ht. unfold ReverseProxy in Ht. destruct (str_empty _); [done|]. statement Ht as provider w1 S1. unfold repo_GetProvider in S1.
  destruct (od_providers _ !! _) as [p|]; [|done]. injection S1 as ->.
  destruct (String.eqb_spec (Provider_Type provider) ProviderTypeProxy) as [Hty|]; [|done]. cbn [negb] in Ht.
  destruct (providerEnabled provider) eqn:He; [|done]. cbn [negb] in Ht.
  destruct (String.eqb_spec (ToLower (configString (Provider_Config provider) ["mode"])) ProxyModeReverseProxy) as [Hm|]; [|done]. cbn [negb] in Ht.
  statement Ht as upstream w2 S2. apply validateReverseProxyUpstream_Ok in S2. destruct (proxyHostCandidates provider "") as [|host hosts] eqn:Hh; [done|].
  statement Ht as auth w3 S3. apply gret_Ok in Ht as [<- ->]. apply ProxyAuth_decided in S3 as [Hw Hd]. exists provider, host. rewrite Hh. split_and!; done.
Qed.
End decisions.

(** ** Identity headers *)

(** A claim gives a header: a safe name and a value that is not blank. *)
Definition emits (principal : Principal) (provider : Provider) (claim name value : string) : Prop :=
  isSafeHeaderName (header_name provider claim) = true /\ name = CanonicalMIMEHeaderKey (header_name provider claim) /\
  value = TrimSpace (default "" (header_claims principal !! claim)) /\ value <> "".

Section headers.
Context `{MapRange} (principal : Principal) (provider : Provider).

Lemma add_header_cases headers claim :
  (exists name value, emits principal provider claim name value /\ add_header principal provider headers claim = <[name := value]> headers) \/
  ((forall name value, ~ emits principal provider claim name value) /\ add_header principal provider headers claim = headers).
Proof.
  unfold add_header. destruct (isSafeHeaderName _) eqn:Hs; cbn [negb].
  - unfold str_empty. destruct (String.eqb_spec (TrimSpace (default "" (header_claims principal !! claim))) "") as [He|He]; cbn [negb].
    + right. split; [|done]. intros name value (_ & _ & -> & Hv). done.
    + left. do 2 eexists. split; [by split_and!|done].
  - right. split; [|done]. intros name value (Hs' & _). congruence.
Qed.

Lemma emits_fun claim name name' value value' : emits principal provider claim name value -> emits principal provider claim name' value' ->
  name' = name /\ value' = value.
Proof. by intros (_ & -> & -> & _) (_ & -> & -> & _). Qed.

(** Each header comes from a claim, and each claim that gives a header is there. *)
Lemma headers_from claims name value headers : foldl (add_header principal provider) headers claims !! name = Some value ->
  headers !! name = Some value \/ exists claim, claim ∈ claims /\ emits principal provider claim name value.
Proof.
  revert headers. induction claims as [|c rest IH]; intros headers; [by left|]. cbn [foldl]. intros [Hh|(claim & Hin & He)]%IH.
  - destruct (add_header_cases headers c) as [(n & v & He & Hadd)|[_ Hadd]]; rewrite Hadd in Hh; [|by left].
    apply lookup_insert_Some in Hh as [[<- <-]|[_ Hh]]; [|by left]. right. exists c. split; [by left|done].
  - right. exists claim. split; [by right|done].
Qed.

Lemma headers_kept claims name headers : is_Some (headers !! name) -> is_Some (foldl (add_header principal provider) headers claims !! name).
Proof.
  revert headers. induction claims as [|c rest IH]; intros headers Hh; [done|]. cbn [foldl]. apply IH.
  destruct (add_header_cases headers c) as [(n & v & _ & ->)|[_ ->]]; [|done]. rewrite lookup_insert_is_Some'. by right.
Qed.

Lemma headers_emitted claims claim name value headers : claim ∈ claims -> emits principal provider claim name value ->
  is_Some (foldl (add_header principal provider) headers claims !! name).
Proof.
  revert headers. induction claims as [|c rest IH]; intros headers Hin He; [by apply not_elem_of_nil in Hin|]. cbn [foldl].
  apply elem_of_cons in Hin as [<-|Hin]; [|auto]. apply headers_kept.
  destruct (add_header_cases headers claim) as [(n & v & He' & ->)|[Hno _]]; [|by destruct (Hno _ _ He)].
  destruct (emits_fun _ _ _ _ _ He He') as [-> ->]. rewrite lookup_insert_is_Some'. by left.
Qed.

Lemma elem_of_claims claim : claim ∈ range_keys (dom default_headers) <-> claim ∈ dom default_headers.
Proof. by rewrite range_keys_perm, elem_of_elements. Qed.

(** When no two claims share the name of a header, the identity headers
    are exactly the claims of the user with a safe name and a value, whatever
    the order in which the map of claims is read. *)
Theorem proxy_headers_exact name value :
  NoDup ((fun claim => CanonicalMIMEHeaderKey (header_name provider claim)) <$> elements (dom default_headers)) ->
  proxyIdentityHeaders principal provider !! name = Some value <->
  exists claim, claim ∈ dom default_headers /\ emits principal provider claim name value.
Proof.
  intros Hnd. unfold proxyIdentityHeaders. split.
  - intros [Hh|(claim & Hin & He)]%headers_from; [by rewrite lookup_empty in Hh|]. exists claim. by rewrite <-elem_of_claims.
  - intros (claim & Hin & He). destruct (headers_emitted (range_keys (dom default_headers)) claim name value ∅) as [v Hv]; [by apply elem_of_claims|done|].
    destruct (headers_from _ _ _ _ Hv) as [Hh|(claim' & Hin' & He')]; [by rewrite lookup_empty in Hh|]. rewrite Hv. f_equal.
    assert (claim' = claim) as ->; [|by destruct (emits_fun _ _ _ _ _ He He')].
    apply elem_of_claims in Hin'. rewrite <-elem_of_elements in Hin, Hin'. apply list_elem_of_lookup in Hin as [i Hi]. apply list_elem_of_lookup in Hin' as [j Hj].
    assert (i = j) as ->; [|congruence]. eapply NoDup_lookup; [exact Hnd|by rewrite list_lookup_fmap, Hi|]. rewrite list_lookup_fmap, Hj.
    destruct He as (_ & Hn & _), He' as (_ & Hn' & _). cbn [fmap option_fmap option_map]. by rewrite <-Hn, <-Hn'.
Qed.
End headers.

(** ** The headers that reach the upstream *)

Lemma lower_upper_ascii c : header_byte c = true -> header_byte (upper_ascii c) = true /\ header_byte (lower_ascii c) = true /\
  upper_ascii (upper_ascii c) = upper_ascii c /\ lower_ascii (lower_ascii c) = lower_ascii c.
Proof. destruct c as [[] [] [] [] [] [] [] []]; vm_compute; try done; by repeat split. Qed.

Lemma canonical_from_idem upper s : all_bytes header_byte s = true ->
  all_bytes header_byte (canonical_from upper s) = true /\ canonical_from upper (canonical_from upper s) = canonical_from upper s.
Proof.
  revert upper. induction s as [|c s IH]; intros upper Hs; [done|]. cbn [all_bytes] in Hs. apply andb_true_iff in Hs as [Hc Hs].
  destruct (lower_upper_ascii c Hc) as (Hu & Hl & Huu & Hll). cbn [canonical_from]. destruct upper; cbn [canonical_from all_bytes].
  - rewrite Hu, Huu. destruct (IH (Ascii.eqb (upper_ascii c) "-") Hs) as [-> ->]. done.
  - rewrite Hl, Hll. destruct (IH (Ascii.eqb (lower_ascii c) "-") Hs) as [-> ->]. done.
Qed.

Lemma canonical_idem s : CanonicalMIMEHeaderKey (CanonicalMIMEHeaderKey s) = CanonicalMIMEHeaderKey s.
Proof.
  unfold CanonicalMIMEHeaderKey at 2 3. destruct (all_bytes header_byte s) eqn:Hs.
  - destruct (canonical_from_idem true s Hs) as [Hb He]. unfold CanonicalMIMEHeaderKey. by rewrite Hb.
  - unfold CanonicalMIMEHeaderKey. by rewrite Hs.
Qed.

Section upstream.
Context `{MapRange, HttpCookies}.

(** Headers whose names are canonical, as a server reads them. *)
Definition canonical_names {A} (h : gmap string A) : Prop := forall key, is_Some (h !! key) -> CanonicalMIMEHeaderKey key = key.

Lemma identity_canonical principal provider : canonical_names (proxyIdentityHeaders principal provider).
Proof.
  intros key [v Hv]. unfold proxyIdentityHeaders in Hv. destruct (headers_from _ _ _ _ _ _ Hv) as [Hh|(claim & _ & _ & -> & _)]; [by rewrite lookup_empty in Hh|].
  apply canonical_idem.
Qed.

Lemma delete_loop (p : string -> bool) names (h : Header) name : (forall key, key ∈ names -> CanonicalMIMEHeaderKey key = key) ->
  foldl (fun out key => if p key then Header_Del key out else out) h names !! name =
  if decide (name ∈ names) then (if p name then None else h !! name) else h !! name.
Proof.
  revert h. induction names as [|k rest IH]; intros h Hc; cbn [foldl]; [by rewrite decide_False by apply not_elem_of_nil|].
  rewrite IH by (intros key Hk; apply Hc; by right). assert (CanonicalMIMEHeaderKey k = k) as Hk by (apply Hc; by left).
  destruct (decide (name = k)) as [->|Hne].
  - rewrite (decide_True (P := k ∈ k :: rest)) by (by left). destruct (p k) eqn:Hp; [|by destruct (decide _)].
    unfold Header_Del. rewrite Hk, lookup_delete_eq. by destruct (decide _).
  - assert ((if p k then Header_Del k h else h) !! name = h !! name) as ->.
    { destruct (p k); [|done]. unfold Header_Del. rewrite Hk. by apply lookup_delete_ne. }
    destruct (decide (name ∈ rest)) as [Hin|Hin]; [by rewrite (decide_True (P := name ∈ k :: rest)) by (by right)|].
    rewrite decide_False; [done|]. intros [?|?]%elem_of_cons; done.
Qed.

Lemma cookie_loop cookies (h : Header) name : name <> "Cookie" ->
  foldl (fun out cookie => if negb (HasPrefix (ToLower (fst cookie)) "soha_")
    then <["Cookie" := AddCookie (default [] (out !! "Cookie")) cookie]> out else out) h cookies !! name = h !! name.
Proof.
  intros Hn. revert h. induction cookies as [|c rest IH]; intros h; [done|]. cbn [foldl]. rewrite IH. destruct (negb _); [|done]. by apply lookup_insert_ne.
Qed.

Lemma strip_lookup h name : canonical_names h -> name <> "Cookie" -> name <> "Authorization" ->
  stripProxyCredentials h !! name = if credential_header name then None else h !! name.
Proof.
  intros Hc Hn Ha. unfold stripProxyCredentials. rewrite cookie_loop by done. unfold Header_Del at 1. rewrite lookup_delete_ne by (vm_compute; congruence).
  set (h1 := Header_Del "Authorization" h). assert (h1 !! name = h !! name) as Hh1 by (unfold h1, Header_Del; apply lookup_delete_ne; vm_compute; congruence).
  rewrite delete_loop, Hh1.
  - destruct (decide _) as [Hin|Hout]; [done|]. assert (h !! name = None) as ->; [|by destruct (credential_header name)]. rewrite <-Hh1.
    apply not_elem_of_dom. by rewrite range_keys_perm, elem_of_elements in Hout.
  - intros key. rewrite range_keys_perm, elem_of_elements, elem_of_dom. intros Hk. apply Hc. unfold h1, Header_Del in Hk.
    apply lookup_delete_is_Some in Hk. by destruct Hk.
Qed.

Lemma set_loop (identity : gmap string string) names (h : Header) name : (forall key, key ∈ names -> CanonicalMIMEHeaderKey key = key) ->
  foldl (fun out key => Header_Set key (default "" (identity !! key)) out) h names !! name =
  if decide (name ∈ names) then Some [default "" (identity !! name)] else h !! name.
Proof.
  revert h. induction names as [|k rest IH]; intros h Hc; cbn [foldl]; [by rewrite decide_False by apply not_elem_of_nil|].
  rewrite IH by (intros key Hk; apply Hc; by right). unfold Header_Set. rewrite (Hc k) by (by left). destruct (decide (name ∈ rest)) as [Hin|Hin].
  - by rewrite (decide_True (P := name ∈ k :: rest)) by (by right).
  - destruct (decide (name = k)) as [->|Hne]; [rewrite lookup_insert_eq, decide_True; [done|by left]|]. rewrite lookup_insert_ne by done.
    rewrite decide_False; [done|]. intros [?|?]%elem_of_cons; done.
Qed.

Lemma director_lookup identity h name : canonical_names h -> canonical_names identity ->
  name <> "Cookie" -> name <> "Authorization" -> name <> "User-Agent" ->
  proxy_director identity h !! name =
  match identity !! name with Some value => Some [value] | None => if credential_header name then None else h !! name end.
Proof.
  intros Hc Hi Hn Ha Hu. unfold proxy_director. rewrite set_loop.
  - destruct (identity !! name) as [v|] eqn:Hv.
    + rewrite decide_True; [done|]. rewrite range_keys_perm, elem_of_elements, elem_of_dom. by exists v.
    + rewrite decide_False by (rewrite range_keys_perm, elem_of_elements; by apply not_elem_of_dom). rewrite strip_lookup; [|..|done|done].
      * destruct (h !! "User-Agent"); [done|]. unfold Header_Set. by rewrite lookup_insert_ne by (vm_compute; congruence).
      * destruct (h !! "User-Agent"); [done|]. intros key. unfold Header_Set. rewrite lookup_insert_is_Some'. intros [<-|Hk]; [done|by apply Hc].
  - intros key. rewrite range_keys_perm, elem_of_elements, elem_of_dom. apply Hi.
Qed.

(** The header is named by the [Connection] header. *)
Definition named_in_connection (h : Header) (name : string) : bool := contains (CanonicalMIMEHeaderKey <$> connection_names h) name.

Lemma delete_all_lookup names (h : Header) name :
  foldl (fun out key => Header_Del key out) h names !! name = if contains (CanonicalMIMEHeaderKey <$> names) name then None else h !! name.
Proof.
  revert h. induction names as [|k rest IH]; intros h; [done|]. cbn [foldl]. rewrite IH. unfold Header_Del.
  destruct (contains (CanonicalMIMEHeaderKey <$> rest) name) eqn:Hr.
  - apply contains_true in Hr. assert (contains (CanonicalMIMEHeaderKey <$> k :: rest) name = true) as ->; [|done]. apply contains_true. set_solver.
  - apply contains_false in Hr. destruct (decide (CanonicalMIMEHeaderKey k = name)) as [<-|Hn].
    + rewrite lookup_delete_eq. assert (contains (CanonicalMIMEHeaderKey <$> k :: rest) (CanonicalMIMEHeaderKey k) = true) as ->; [|done].
      apply contains_true. set_solver.
    + rewrite lookup_delete_ne by done. assert (contains (CanonicalMIMEHeaderKey <$> k :: rest) name = false) as ->; [|done]. apply contains_false. set_solver.
Qed.

Lemma Header_Set_ne key value (h : Header) name : CanonicalMIMEHeaderKey key <> name -> Header_Set key value h !! name = h !! name.
Proof. intros Hn. unfold Header_Set. by apply lookup_insert_ne. Qed.

(** The connection headers, the client address and the user agent apart, the
    upstream gets what the director left, less what [Connection] names. *)
Lemma upstream_lookup identity clientIP h out name : upstream_headers identity clientIP h = Some out ->
  name ∉ "X-Forwarded-For" :: "User-Agent" :: hopHeaders ->
  out !! name = if named_in_connection (proxy_director identity h) name then None else proxy_director identity h !! name.
Proof.
  unfold upstream_headers. cbn zeta. generalize (proxy_director identity h) as d. intros d.
  destruct (negb (all_bytes _ _)); [intros Hout; discriminate Hout|]. intros Hout Hn. apply (inj Some) in Hout. rewrite <-Hout. clear Hout out.
  assert (forall key value (o : Header), CanonicalMIMEHeaderKey key = key -> contains ("X-Forwarded-For" :: "User-Agent" :: hopHeaders) key = true ->
    Header_Set key value o !! name = o !! name) as Hset.
  { intros key value o Hcan Hk. apply Header_Set_ne. rewrite Hcan. intros ->. by apply Hn, contains_true. }
  assert (removeHopByHopHeaders d !! name = if named_in_connection d name then None else d !! name) as <-.
  { unfold removeHopByHopHeaders, named_in_connection. rewrite !delete_all_lookup.
    assert (CanonicalMIMEHeaderKey <$> hopHeaders = hopHeaders) as -> by (vm_compute; reflexivity).
    assert (contains hopHeaders name = false) as ->; [|done]. apply contains_false. intros Hh. apply Hn. by do 2 right. }
  generalize (removeHopByHopHeaders d) as o. intros o.
  repeat case_match; repeat (rewrite Hset; [|vm_compute; reflexivity|reflexivity]); done.
Qed.
End upstream.

Lemma text_assoc a b c : a +:+ b +:+ c = (a +:+ b) +:+ c.
Proof. induction a as [|d a IH]; [done|]. by rewrite !append_String, IH. Qed.

Lemma HasPrefix_extend a b : HasPrefix (a +:+ b) a = true.
Proof. induction a as [|c a IH]; [by destruct b|]. rewrite append_String, HasPrefix_String, Ascii.eqb_refl. exact IH. Qed.

Section director.
Context `{MapRange, HttpCookies}.

(** C15. The names that begin with [X-Soha-], which the claims have unless they
    are mapped to others, reach the upstream of a reverse proxy with the value
    of the user who was let in, or not at all: a client cannot choose them.  They
    are absent exactly when the user has no value for them or when the
    [Connection] header names them, which is the client's own unless a claim is
    mapped to that name: a client can have its identity removed. *)
Theorem identity_headers_unforgeable principal provider clientIP h name out :
  canonical_names h -> HasPrefix (ToLower name) "x-soha-" = true ->
  let identity := proxyIdentityHeaders principal provider in
  upstream_headers identity clientIP h = Some out ->
  out !! name = (if named_in_connection (proxy_director identity h) name then None else (fun value => [value]) <$> identity !! name) /\
  (identity !! "Connection" = None -> connection_names (proxy_director identity h) = connection_names h).
Proof.
  intros Hc Hp identity Hout. split.
  - assert (name ∉ "X-Forwarded-For" :: "User-Agent" :: hopHeaders) as Hn.
    { intros Hin. assert (forallb (fun key => negb (HasPrefix (ToLower key) "x-soha-")) ("X-Forwarded-For" :: "User-Agent" :: hopHeaders) = true) as Hall
        by (vm_compute; reflexivity). rewrite forallb_elem_of in Hall. specialize (Hall name Hin). by rewrite Hp in Hall. }
    rewrite (upstream_lookup _ _ _ _ name Hout Hn).
    destruct (named_in_connection _ name); [done|]. rewrite director_lookup; [|done|apply identity_canonical|by intros ->..].
    destruct (identity !! name); [done|]. unfold credential_header. by rewrite Hp, orb_true_r.
  - intros Hi. unfold connection_names. rewrite director_lookup; [|done|apply identity_canonical|done..]. by rewrite Hi.
Qed.

(** C16. A claim that is mapped to another name has no such protection: when
    the user has no value for it, or when the path needs no authentication and
    there are no identity headers, the header that the client sent passes the
    director, and reaches the upstream unless it is a header of the connection
    or the [Connection] header names it. *)
Theorem mapped_header_forgeable principal provider h name values :
  canonical_names h -> credential_header name = false -> name ∉ ["Authorization"; "Cookie"; "User-Agent"] ->
  (forall claim value, ~ emits principal provider claim name value) -> h !! name = Some values ->
  proxy_director (proxyIdentityHeaders principal provider) h !! name = Some values /\ proxy_director ∅ h !! name = Some values /\
  forall identity clientIP out, identity = proxyIdentityHeaders principal provider \/ identity = ∅ ->
    upstream_headers identity clientIP h = Some out -> name ∉ hopHeaders -> named_in_connection (proxy_director identity h) name = false ->
    out !! name = Some values.
Proof.
  intros Hc Hf Hn He Hh.
  assert (proxy_director (proxyIdentityHeaders principal provider) h !! name = Some values /\ proxy_director ∅ h !! name = Some values) as [Hd1 Hd2].
  2: { split_and!; [done..|]. intros identity clientIP out Hid Hout Hhop Hcon. rewrite (upstream_lookup _ _ _ _ name Hout).
    - rewrite Hcon. by destruct Hid as [-> | ->].
    - rewrite !not_elem_of_cons in Hn. intros [-> |[-> |Hin]%elem_of_cons]%elem_of_cons; [done|by destruct Hn as (_ & _ & ? & _)|done]. }
  rewrite !not_elem_of_cons in Hn. destruct Hn as (Ha & Hk & Hu & _).
  split; (rewrite director_lookup; [|done| |done..]); [|apply identity_canonical| |by intros key [? ?%lookup_empty_Some]].
  - destruct (proxyIdentityHeaders principal provider !! name) as [v|] eqn:Hv; [|by rewrite Hf].
    unfold proxyIdentityHeaders in Hv. destruct (headers_from _ _ _ _ _ _ Hv) as [Hx|(claim & _ & Hx)]; [by rewrite lookup_empty in Hx|by destruct (He _ _ Hx)].
  - by rewrite lookup_empty, Hf.
Qed.
End director.

Section reverse.
Context `{MapRange, OidcDeps, UserRepository, ProxyTokens, ProxyDatabase}.
Context (keys : Ring) (encryptionKey : string) (publicAccessURL : option string) (audited : bool).

(** A path without authentication matches what follows it as a text. *)
Lemma skipped_below provider skip rest : skip ∈ configStringSlice (Provider_Config provider) ["skipAuthPaths"; "skip_auth_paths"] ->
  HasPrefix skip "/" = true -> TrimRight_char skip "/" = skip -> all_solid (skip +:+ "/" +:+ rest) -> TrimSpace skip = skip ->
  proxyPathSkipped provider (skip +:+ "/" +:+ rest) = true.
Proof.
  intros Hin Hs Hr Hsol Ht. unfold proxyPathSkipped. apply existsb_exists. exists skip. split; [by apply list_elem_of_In|].
  unfold pathHasPrefix. rewrite (TrimSpace_solid _ Hsol), Ht. destruct skip as [|c skip]; [done|]. rewrite HasPrefix_String in *.
  rewrite append_String. cbn zeta. cbn [str_empty String.eqb]. rewrite HasPrefix_String. destruct (_ || _)%bool; [done|].
  assert ((Ascii.eqb "/" c && HasPrefix skip "")%bool = true) as Hc by done. destruct (Ascii.eqb_spec "/" c) as [<-|]; [|done].
  assert (forall x, HasPrefix x "" = true) as He by (by intros []). rewrite !He. cbn [andb]. rewrite Hr. rewrite <-append_String, text_assoc.
  rewrite HasPrefix_extend. apply orb_true_r.
Qed.

(** C17. A path below one without authentication passes for anybody, also when
    it holds dot segments that lead out of it: the path is compared as it was
    sent, so that [/public/../admin] passes under [/public]. *)
Theorem skipped_path_escapes clock contextIP principal input w provider application skip rest :
  resolveProxyProvider input (ow_store w) = Ok (provider, application) -> validateProxyProviderRuntime provider application = None ->
  skip ∈ configStringSlice (Provider_Config provider) ["skipAuthPaths"; "skip_auth_paths"] ->
  HasPrefix skip "/" = true -> TrimRight_char skip "/" = skip -> TrimSpace skip = skip -> all_solid (skip +:+ "/../" +:+ rest) ->
  proxyPath input = skip +:+ "/../" +:+ rest ->
  exists res w', ProxyAuth keys encryptionKey publicAccessURL audited clock contextIP principal input w = (Ok res, w') /\
    ProxyAuthResult_Decision res = ProxyDecisionAllow /\ ProxyAuthResult_Skipped res = true.
Proof.
  intros Hres Hrun Hin Hs Hr Ht Hsol Hp. unfold ProxyAuth, gbind, oquery. rewrite Hres. cbn zeta. rewrite Hrun. cbn [ocheck].
  unfold gret at 1. rewrite Hp. change (skip +:+ "/../" +:+ rest) with (skip +:+ "/" +:+ ("../" +:+ rest)).
  rewrite skipped_below by done. unfold recordAudit, gret. by do 2 eexists.
Qed.
End reverse.

(** ** Samples *)

#[export] Instance proxySessionClaims_eq_dec : EqDecision proxySessionClaims.
Proof. solve_decision. Defined.

(** URLs of one host; a text without a scheme is a path. *)
Definition proxy_url (value : string) : URL := {|
  URL_Scheme := "https"; URL_User := false; URL_Host := if str_contains value "://" then "app.test" else ""; URL_Hostname := "app.test"; URL_Path := value;
  URL_RawQuery := ""; URL_Fragment := ""; URL_RequestURI := value; URL_String := value |}.

Lemma proxy_url_host value u : (fun v => Some (proxy_url v)) value = Some u -> "/"%char ∉ chars (URL_Host u).
Proof.
  intros [= <-] Hin. unfold proxy_url in Hin. cbn [URL_Host] in Hin. destruct (str_contains value "://"); [|by apply not_elem_of_nil in Hin]. cbn in Hin.
  repeat (apply elem_of_cons in Hin as [Hc|Hin]; [done|]). by apply not_elem_of_nil in Hin.
Qed.

Definition proxy_deps : OidcDeps :=
  {| url_Parse := fun v => Some (proxy_url v); url_host := proxy_url_host;
     regexp_Compile := fun _ => true; regexp_MatchString := fun _ _ => Some false; bcrypt_Generate := Ok; bcrypt_Compare := String.eqb;
     bcrypt_agree := @bcrypt_agree sample_deps |}.

Definition proxy_provider : Provider := {|
  Provider_ID := "proxy-1"; Provider_Name := "Wiki"; Provider_ApplicationID := "app-1"; Provider_Type := "proxy"; Provider_Enabled := true;
  Provider_Status := "enabled";
  Provider_Config := <["mode" := AString "reverse_proxy"]> (<["upstreamUrl" := AString "https://wiki.internal"]> (<["externalHost" := AString "app.test"]>
    (<["skipAuthPaths" := AStrings ["/public"]]> {[ "headerMappings" := AStringMap {[ "teams" := "X-Auth-Teams" ]} ]}))) |}.

Definition proxy_platform : PlatformSession := {|
  PlatformSession_ID := "login-1"; PlatformSession_UserID := "u1"; PlatformSession_Status := "active"; PlatformSession_ExpiresAt := 5000 * second;
  PlatformSession_LastSeenAt := 900 * second; PlatformSession_Metadata := ∅ |}.

Definition proxy_world : OidcWorld := {|
  ow_store := {| od_providers := {[ "proxy-1" := proxy_provider ]}; od_applications := {[ "app-1" := sample_application ]}; od_users := {[ "u1" ]};
    od_platform := {[ "login-1" := proxy_platform ]}; od_clients := ∅; od_keys := ∅; od_codes := ∅; od_sessions := ∅; od_tokens := ∅ |};
  ow_cache := None; ow_audit := [] |}.

Definition proxy_rows : ProxyDatabase := {| provider_rows := fun l => l; provider_rows_perm := fun l => reflexivity l |}.

(** Tokens that hold one set of claims, under any key. *)
Definition proxy_claims : proxySessionClaims := {|
  ProxyClaims_TokenType := "proxy_session"; ProxyClaims_SessionID := "login-1"; ProxyClaims_MFA := false; ProxyClaims_Issuer := "soha-proxy-provider";
  ProxyClaims_Subject := "u1"; ProxyClaims_Audience := ["soha-proxy"]; ProxyClaims_ID := "jti"; ProxyClaims_IssuedAt := Some 1000;
  ProxyClaims_NotBefore := Some 1000; ProxyClaims_ExpiresAt := Some 44200 |}.

Definition proxy_parse (key : bytes) (issuer audience : string) (now : Z) (token : string) : option proxySessionClaims :=
  if String.eqb token "proxy-token" && String.eqb issuer "soha-proxy-provider" && String.eqb audience "soha-proxy" &&
     bool_decide (key = proxySessionKey "secret") && (1000 * 1000000000 <=? now) && (now <? 44200 * 1000000000) then Some proxy_claims else None.
Definition proxy_sign (key : bytes) (c : proxySessionClaims) : result string :=
  if bool_decide (key = proxySessionKey "secret") && bool_decide (c = proxy_claims) then Ok "proxy-token" else Err user_not_found.

Lemma proxy_sign_Ok key c token : proxy_sign key c = Ok token -> key = proxySessionKey "secret" /\ c = proxy_claims /\ token = "proxy-token".
Proof. unfold proxy_sign. case_bool_decide; [|done]. case_bool_decide; [|done]. by intros [= <-]. Qed.

Definition proxy_tokens : ProxyTokens.
Proof.
  refine {| hs256_Sign := proxy_sign; hs256_Parse := proxy_parse |}.
  - intros key c token (_ & _ & ->)%proxy_sign_Ok. split; [done|]. intros d Hd. cbn in Hd.
    repeat (apply elem_of_cons in Hd as [-> |Hd]; [reflexivity|]). by apply not_elem_of_nil in Hd.
  - intros key c token key' issuer audience now c' (_ & -> & ->)%proxy_sign_Ok. unfold proxy_parse. destruct (_ && _)%bool; [|done]. by intros [= <-].
  - intros key c token issuer audience now nbf exp (-> & -> & ->)%proxy_sign_Ok <- Ha%list_elem_of_singleton [= <-] [= <-] Ht. subst audience.
    unfold proxy_parse. rewrite bool_decide_true by done. cbn [String.eqb Ascii.eqb Bool.eqb andb ProxyClaims_Issuer proxy_claims].
    by rewrite (proj2 (Z.leb_le _ _)), (proj2 (Z.ltb_lt _ _)) by lia.
Defined.

Definition anonymous : Principal :=
  {| Principal_UserID := ""; Principal_UserName := ""; Principal_Email := ""; Principal_AvatarURL := ""; Principal_AvatarFit := ""; Principal_Roles := [];
     Principal_Teams := []; Principal_Projects := []; Principal_Tags := []; Principal_PermissionKeys := []; Principal_AccessTokenID := "" |}.

Definition proxy_input (providerID path token : string) : ProxyAuthInput := {|
  ProxyAuthInput_ProviderID := providerID; ProxyAuthInput_OriginalURL := ""; ProxyAuthInput_ForwardedHost := "app.test";
  ProxyAuthInput_ForwardedProto := "https"; ProxyAuthInput_ForwardedURI := path; ProxyAuthInput_RequestHost := ""; ProxyAuthInput_RequestPath := "";
  ProxyAuthInput_Method := "GET"; ProxyAuthInput_Redirect := false; ProxyAuthInput_SessionToken := token; ProxyAuthInput_SourceIP := "";
  ProxyAuthInput_MFAAuthenticated := false |}.

Definition proxy_run (principal : Principal) (input : ProxyAuthInput) : oidc ProxyAuthResult :=
  @ProxyAuth elements_map_range proxy_deps oidc_users proxy_tokens proxy_rows no_ring "secret" None true oidc_clock "10.0.0.1" principal input.

Lemma proxy_auth_exact_witness :
  exists res, fst (proxy_run anonymous (proxy_input "" "/docs" "proxy-token") proxy_world) = Ok res /\ ProxyAuthResult_Decision res = ProxyDecisionAllow /\
    @decided elements_map_range proxy_deps oidc_users proxy_tokens no_ring "secret" oidc_clock "10.0.0.1" anonymous (proxy_input "" "/docs" "proxy-token")
      (ow_store proxy_world) res.
Proof.
  destruct (fst (proxy_run anonymous (proxy_input "" "/docs" "proxy-token") proxy_world)) as [res|] eqn:Hr; [|vm_compute in Hr; discriminate Hr].
  exists res. split; [done|]. split; [vm_compute in Hr; injection Hr as <-; reflexivity|].
  exact (proj2 (@proxy_auth_exact elements_map_range proxy_deps oidc_users proxy_tokens proxy_rows no_ring "secret" None true oidc_clock "10.0.0.1" anonymous
    (proxy_input "" "/docs" "proxy-token") proxy_world res _ (run_pair (proxy_run anonymous (proxy_input "" "/docs" "proxy-token")) _ _ Hr))).
Defined.

Lemma proxy_resolution_exact_witness :
  exists p a, @resolveProxyProvider proxy_deps proxy_rows (proxy_input "" "/docs" "") (ow_store proxy_world) = Ok (p, a) /\ listed (ow_store proxy_world) p.
Proof.
  pose proof (@proxy_resolution_exact proxy_deps proxy_rows (proxy_input "" "/docs" "") (ow_store proxy_world) eq_refl) as Hx.
  destruct (@resolveProxyProvider proxy_deps proxy_rows (proxy_input "" "/docs" "") (ow_store proxy_world)) as [[p a]|] eqn:Hr; [|vm_compute in Hr; discriminate Hr].
  exists p, a. split; [done|apply Hx].
Defined.

Lemma proxy_session_roundtrip_witness :
  exists session, @IssueProxySession proxy_tokens no_ring "secret" oidc_clock "jti" oidc_principal " login-1" ∅ (ow_store proxy_world) = Ok session /\
    @parseProxySessionAccess oidc_users proxy_tokens no_ring " secret" oidc_clock (ProxySession_Token session) (ow_store proxy_world) = Ok (oidc_principal, false).
Proof.
  destruct (@IssueProxySession proxy_tokens no_ring "secret" oidc_clock "jti" oidc_principal " login-1" ∅ (ow_store proxy_world)) as [session|] eqn:Hi;
    [|vm_compute in Hi; discriminate Hi].
  exists session. split; [done|]. assert (session = {| ProxySession_Token := "proxy-token"; ProxySession_ExpiresAt := 44200 * second |}) as Hs
    by (vm_compute in Hi; injection Hi as <-; reflexivity).
  rewrite (proj2 (@proxy_session_roundtrip oidc_users proxy_tokens no_ring "secret" oidc_clock "jti" oidc_principal " login-1" ∅ (ow_store proxy_world) session no_ring
    " secret" oidc_clock (ow_store proxy_world) Hi ltac:(right; repeat split) ltac:(rewrite Hs; vm_compute; split; congruence))).
  vm_compute. reflexivity.
Defined.

Lemma proxy_headers_exact_witness :
  @proxyIdentityHeaders elements_map_range oidc_principal proxy_provider !! "X-Soha-Email" = Some "una@app.test".
Proof.
  apply (@proxy_headers_exact elements_map_range oidc_principal proxy_provider "X-Soha-Email" "una@app.test").
  - refine (bool_decide_unpack _ _). vm_compute. exact I.
  - exists "email". split; [apply elem_of_dom; by exists "X-Soha-Email"|]. split_and!; [reflexivity..|done].
Defined.

Definition no_cookies : HttpCookies := {| Cookies := fun _ => []; AddCookie := fun l _ => l |}.
Definition forged : Header := <["X-Soha-Teams" := ["admins"]]> {[ "X-Auth-Teams" := ["admins"] ]}.

Lemma forged_canonical : canonical_names forged.
Proof.
  intros key Hk. unfold forged in Hk. apply lookup_insert_is_Some' in Hk as [<-|Hk]; [reflexivity|]. destruct Hk as [v Hk]. apply lookup_singleton_Some in Hk as [<- _]. reflexivity.
Qed.

(** The client forges one identity header and has another removed. *)
Definition dropped : Header := <["Connection" := ["close, X-Soha-Email"]]> forged.

Lemma dropped_canonical : canonical_names dropped.
Proof. intros key Hk. unfold dropped in Hk. apply lookup_insert_is_Some' in Hk as [<-|Hk]; [reflexivity|by apply forged_canonical]. Qed.

Definition sample_identity : gmap string string := @proxyIdentityHeaders elements_map_range oidc_principal proxy_provider.
Definition sent_upstream (h : Header) : Header := default ∅ (@upstream_headers elements_map_range no_cookies sample_identity (Some "10.0.0.1") h).

Lemma sent_Some h :
  match @upstream_headers elements_map_range no_cookies sample_identity (Some "10.0.0.1") h with Some _ => true | None => false end = true ->
  @upstream_headers elements_map_range no_cookies sample_identity (Some "10.0.0.1") h = Some (sent_upstream h).
Proof. unfold sent_upstream. by destruct (upstream_headers _ _ h). Qed.

Lemma identity_headers_unforgeable_witness :
  sent_upstream dropped !! "X-Soha-Teams" = None /\ sample_identity !! "X-Soha-Email" = Some "una@app.test" /\
  sent_upstream dropped !! "X-Soha-Email" = None /\ sent_upstream forged !! "X-Soha-Email" = Some ["una@app.test"].
Proof.
  assert (forall h, canonical_names h ->
    match @upstream_headers elements_map_range no_cookies sample_identity (Some "10.0.0.1") h with Some _ => true | None => false end = true ->
    forall name, HasPrefix (ToLower name) "x-soha-" = true -> sent_upstream h !! name =
    if named_in_connection (@proxy_director elements_map_range no_cookies sample_identity h) name then None else (fun value => [value]) <$> sample_identity !! name) as Hgen.
  { intros h Hc Ho%sent_Some name Hn.
    exact (proj1 (@identity_headers_unforgeable elements_map_range no_cookies oidc_principal proxy_provider (Some "10.0.0.1") h name _ Hc Hn Ho)). }
  rewrite !(Hgen dropped dropped_canonical) by (vm_compute; reflexivity). rewrite (Hgen forged forged_canonical) by (vm_compute; reflexivity).
  split_and!; vm_compute; reflexivity.
Defined.

Lemma no_teams_header claim value : ~ emits oidc_principal proxy_provider claim "X-Auth-Teams" value.
Proof.
  intros (_ & Hn & Hv & Hne). destruct (header_claims oidc_principal !! claim) as [v|] eqn:Hc; [|vm_compute in Hv; done].
  apply elem_of_list_to_map_2 in Hc. cbn [default] in Hv.
  repeat (apply elem_of_cons in Hc as [[= -> ->]|Hc]; [first [vm_compute in Hn; discriminate Hn|vm_compute in Hv; done]|]). by apply not_elem_of_nil in Hc.
Qed.

Lemma mapped_header_forgeable_witness : sent_upstream forged !! "X-Auth-Teams" = Some ["admins"].
Proof.
  refine (proj2 (proj2 (@mapped_header_forgeable elements_map_range no_cookies oidc_principal proxy_provider forged "X-Auth-Teams" ["admins"] forged_canonical _ _
    no_teams_header _)) sample_identity (Some "10.0.0.1") _ _ _ _ _); [reflexivity| |reflexivity|by left|apply sent_Some; vm_compute; reflexivity| |vm_compute; reflexivity];
    refine (bool_decide_unpack _ _); vm_compute; exact I.
Defined.

Definition escape_input : ProxyAuthInput := proxy_input "proxy-1" "/public/../admin" "".

Lemma skipped_path_escapes_witness :
  exists res w', proxy_run anonymous escape_input proxy_world = (Ok res, w') /\ ProxyAuthResult_Decision res = ProxyDecisionAllow /\
    ProxyAuthResult_Skipped res = true.
Proof.
  refine (@skipped_path_escapes elements_map_range proxy_deps oidc_users proxy_tokens proxy_rows no_ring "secret" None true oidc_clock "10.0.0.1" anonymous
    escape_input proxy_world proxy_provider sample_application "/public" "admin" _ _ _ _ _ _ _ _); try (vm_compute; reflexivity).
  - refine (bool_decide_unpack _ _). vm_compute. exact I.
  - intros d Hd. cbn in Hd. repeat (apply elem_of_cons in Hd as [-> |Hd]; [reflexivity|]). by apply not_elem_of_nil in Hd.
Defined.

Definition reverse_request : ReverseProxyInput := {|
  ReverseProxyInput_ProviderID := "proxy-1"; ReverseProxyInput_Path := "/docs"; ReverseProxyInput_OriginalURL := "/docs"; ReverseProxyInput_Method := "GET"; ReverseProxyInput_SessionToken := "" |}.
Definition reverse_run : oidc ReverseProxyResult :=
  @ReverseProxy elements_map_range proxy_deps oidc_users proxy_tokens proxy_rows no_ring "secret" None true oidc_clock "10.0.0.1" oidc_principal reverse_request.

Lemma reverse_proxy_exact_witness :
  exists res, fst (reverse_run proxy_world) = Ok res /\ ReverseProxyResult_UpstreamURL res = "https://wiki.internal" /\
    @decided elements_map_range proxy_deps oidc_users proxy_tokens no_ring "secret" oidc_clock "10.0.0.1" oidc_principal
      (reverse_input "proxy-1" "app.test" reverse_request) (ow_store proxy_world) (ReverseProxyResult_Auth res).
Proof.
  destruct (fst (reverse_run proxy_world)) as [res|] eqn:Hr; [|vm_compute in Hr; discriminate Hr]. exists res. split; [done|].
  split; [vm_compute in Hr; injection Hr as <-; reflexivity|].
  destruct (@reverse_proxy_exact elements_map_range proxy_deps oidc_users proxy_tokens proxy_rows no_ring "secret" None true oidc_clock "10.0.0.1" oidc_principal
    reverse_request proxy_world res _ (run_pair reverse_run _ _ Hr)) as (p & host & Hp & _ & _ & _ & _ & Hh & _ & Hd).
  vm_compute in Hp. injection Hp as <-. vm_compute in Hh. injection Hh as <-. exact Hd.
Defined.
